(* ===== verification/_CoqProject ===== *)
-Q . S2P
Prelude.v
Frame.v
OutBuf.v
EventQueue.v
Probe.v
StreamTable.v
Session.v
SessionIO.v
Handshake.v
Recv.v
SessionInv.v
SessionOps.v
SessionApi.v
SessionSys.v
SessionFlow.v
Connect.v
Keepalive.v
Auth.v
Host.v
Fifo.v
Umap.v
Router.v
Balance.v
Splice.v
RouterAuth.v
Peer.v
SessionOpens.v
PeerInv.v
PeerFrame.v
PeerSteps.v
PeerIO.v
PeerSys.v
PeerData.v
EvLoop.v
Kqueue.v
Relay.v
SidMap.v
RelayInv.v
RelaySteps.v
RelayIO.v
RelayRun.v
RelaySys.v
RelayData.v
RelayAuth.v
RouterLoop.v
RouterInv.v
RouterSteps.v
RouterEvents.v
RouterRun.v
RouterSys.v
CString.v
Net.v
Daemon.v
EdgeMain.v
PeerMain.v
PeerLink.v
PyBinding.v
PyInv.v
PySteps.v
PySys.v
PeerLoop.v
PeerQuiet.v
PeerInput.v
HttpWorker.v
HttpPool.v
