(* ===== verification/Prelude.v ===== *)
(** Verification of the mux protocol stack: a stream multiplexer over one
    byte-stream tunnel, and the programs built on it.

    * The program

    - libmux (src/libmux): the protocol itself, free of I/O.  [frame.c] is the
      12-byte-header codec and the TLV helpers; [session.c] is a session: output
      buffer, event ring, stream table, HELLO exchange, frame handlers, credit
      flow control, keepalive.  A host feeds received bytes to [mux_recv], takes
      events from [mux_next_event], and drains [mux_send_buf].
    - common/auth.c: SHA-256, HMAC and the pre-shared-key proof carried in HELLO.
    - edge-peer/router.c: splices streams of upstream edges to a pool of workers,
      each tunnel a session; balances by smooth weighted round robin.
    - libpeer/src/libpeer.c: the worker library; one I/O thread owns a session,
      application threads use blocking or readiness calls under one mutex.
    - common/relay.c, net.c, evloop.c: sockets piped to streams over a readiness
      loop, and the socket helpers.  edge/main.c serves uplinks by relays, in one
      process or several; edge-peer/main.c starts the router, or dials an edge and
      serves the link by a relay.
    - python/muxpeermodule.c: a CPython binding of libpeer; a Peer object owns a
      client, Stream objects its streams, and in poll mode a map finds the object of
      an event.
    - examples/http_worker.c: a worker on libpeer, a pool of threads that accept
      streams and answer a request on each.

    * The library, file by file

    - Prelude: machine integers, byte views, the allocator oracle, list and
      option lemmas, the development's tactics and hint databases.
    - Frame (frame.c, constants of mux.h); OutBuf, EventQueue, StreamTable
      (the three data structures of session.c), Probe (the theory of open
      addressing that the program's hash tables share).
    - Session: [struct mux_session] as a record, one definition per static
      function and API call of session.c.  SessionIO: what output primitives may
      change ([io_step]); SessionInv: the invariant [session_wf] and the step
      contract [op_step]; SessionOps and SessionApi: every handler and call keeps
      them; SessionOpens: what each call appends to the event queue.
    - Handshake, Recv, Connect, SessionFlow, SessionSys, Keepalive: theorems on
      the HELLO round trip, the receive loop, two connected sessions, single
      calls, all reachable states, and the timer.
    - Auth: auth.c against FIPS 180-4 and RFC 2104.
    - Host: the monad [ST] of the host programs ([None] is a C run without a
      defined outcome), its weakest preconditions, and sockets as scripts of
      results.
    - Fifo ([buf_t]), Umap (the route maps), Router (the routes, event handlers and
      tunnel I/O of router.c), Balance ([pick_worker]), Splice (forwarding),
      RouterAuth (the whole authentication exchange).
    - RouterLoop: [ep_run], a turn of its loop being determined by what the
      operating system answers in it ([ep_turn]).  RouterInv: the invariant
      [rinv] of tunnels, routes and tables, indexed by the flag [Ending] (during
      the teardown the tables of retired tunnels are gone); RouterSteps,
      RouterEvents, RouterRun: one lemma per function; RouterSys: runs.
    - EvLoop (evloop.c, the epoll half); Kqueue: the kqueue half, and the class
      [Poller], what evloop.h promises, of which both are instances.
    - Relay (relay.c); SidMap: its sid map as a
      finite map, by simulation of Umap; RelayInv, RelaySteps, RelayIO, RelayRun:
      the invariant [rinv] and one lemma per function; RelaySys: runs from
      [relay_new] on; RelayData: the bytes carried; RelayAuth: whom it lets in.
    - Peer (libpeer.c); PeerInv, PeerSteps, PeerIO: the client's invariant, one
      lemma per function; PeerSys: runs of the I/O thread interleaved with
      application calls; PeerData: what reaches the wire and in which order;
      PeerLink: how session_up comes by a socket, lp_connect and lp_disconnect;
      PeerFrame: what the functions leave alone; PeerLoop: the loop of [io_main],
      whose runs are runs of PeerSys.  PeerQuiet: what leaves a stream's input
      alone; PeerInput: how input arrives and is read.
    - CString (the string functions used), Net (net.c over an operating system that
      is an oracle, [OS], the history of calls being the state), Daemon (what the
      daemons share: [HOST], a relay over a descriptor), EdgeMain (edge/main.c),
      PeerMain (edge-peer/main.c).
    - PyBinding (muxpeermodule.c, over the client of Peer and the connection of
      PeerLink; a dict is the class [PyDict]); PyInv: its invariant [pyinv], exact
      reference counts and handles that are held once; PySteps: one lemma per
      method; PySys: a Python program and the I/O thread.
    - HttpWorker (http_worker.c: [main], [serve] cut at its calls of libpeer, the
      response); HttpPool: any number of its threads against the I/O thread, as
      runs of PeerSys.

    * What the theorems show

    - Codec: craft and parse are inverse both ways, TLVs are read back.
    - Data structures: the event ring is a FIFO list, the stream table and the
      route maps are finite maps (growth, tombstones, re-insertion and allocation
      failure included).
    - Sessions: in every state reachable by any calls on any input, buffers,
      table, windows, counts and caps are right; buffering is bounded by the
      connection window; at most one FATAL; a dead session stays dead; all output
      is well-formed frames; no wakeup is lost; fragmentation of the input is
      irrelevant; two sessions agree after HELLO, a stream opened here is opened
      there, bytes written here arrive there complete and in order.
    - Authentication: the digest and the MAC are the standards', and two tunnels
      accept each other exactly when their proofs match.
    - Router: every run is defined; the tunnels' tables are two indexes of one set
      of routes; the teardown frees every route and closes every descriptor; what
      poll is asked for; forwarding keeps order and credits the source for exactly
      what the destination took; balancing is exact over a cycle.
    - libpeer: memory safety under every interleaving, no lost credit, FIN, close
      or readiness, nothing leaked, blocked calls released when the tunnel goes; the
      I/O thread's loop refines the sections of which this is proved, never sleeps
      on queued work and ends when told to.  What arrives on a stream is what the
      application reads from it, in order, from the peer's write on.
    - Binding: every call of a program that closes its Streams before its Peer is
      defined, reference counts are exact, poll pairs an event with the Stream it is
      about, everything is freed but the cycle of an open poll-mode Stream; what
      other programs run into is exhibited (a Stream dangling after Peer.close).
    - Worker: the pool of threads is a correct client (its runs are runs of PeerSys,
      no stream is served twice); each stream gets one request read and one whole
      response; serving ends when the input does; the response is read back.
    - Relay: every run is defined and keeps the slab, the sid map, the watched
      descriptors, the dirty list and the edge's count consistent; where it waits,
      the kernel is asked for exactly what the connections want; bytes cross in
      order, are credited exactly, and neither end is closed before its last byte;
      the cap on connections holds; teardown closes every socket.
    - Readiness: epoll and kqueue hold the interest asked for and report no other.
    - Processes: net.c, the daemons and libpeer's connection set-up account for
      every descriptor, whatever the kernel answers, except that backend mode
      leaks one per lost link; ports stay in range; "host:port" and port ranges
      are read back; a supervisor reaps its workers.
    - Error behaviours: where the code departs from its comments or loses data
      (authentication bypass in one read or by reflection, stranded bytes at
      close, a keepalive that never fires, reuse of stream ids, stale handles, a
      dead tunnel kept, a stream leaked by a read error, a tunnel stalled by a long
      frame, events of a half-closed stream that poll discards), a theorem exhibits
      the run.

    * Conventions, bounds and fuel

    - C integers are [Z] at their width: unsigned arithmetic wraps where it can,
      signed windows are shown to stay in range.  A pointer into an array is an
      index; heap objects shared by several owners live in a [gmap] by address.
    - Allocation is an oracle: a list of outcomes each call consumes; theorems
      hold for every oracle unless they say that allocation succeeds.
    - A loop whose recursion is not structural takes fuel computed from its input
      (table capacity, bytes in the buffer, queued events plus one).  Running out
      gives [None] in host code, so a theorem that yields [Some] proves the fuel
      is enough; the loops of Session are characterised against their whole input
      (Recv, SessionApi), which would fail were the fuel short.
    - The daemons run until they are told to stop: their loops take fuel that is not
      computed but arbitrary, and [None] is a process still running, so theorems
      for all fuel are about every moment of a run.
    - Sockets are scripts: each read or write call takes the next result.  What a
      script does not determine (the wait itself) is not modelled.
    - Two theorems on the router assume that fewer than 2^31 streams have been
      asked of the workers ([asked]): past that libmux hands out stream ids again,
      and two routes could share one.  Definedness ([router_safe]) does not.
    - Stack memory that C leaves uninitialised (SHA contexts) is an argument.

    * Not modelled

    - The lengths of waits and back-offs, the router's pollfd array and its growth
      (it is a list), what is printed to stderr, the installation of signal
      handlers, the calls that only free memory (mux_session_free, evloop_free, the
      end of lp_disconnect).
    - A daemon's relay starts with allocations that succeed, as RelaySys assumes;
      the descriptors a relay opens are counted in the relay's own log.
    - Of the binding: argument parsing, the exception indicator, the registration of
      types.  CPython itself enters by what its C API documents.
    - The Python programs (examples, asyncio wrapper, benchmarks), whose language is
      not modelled, and the tests; of the worker, its messages on stderr.  The rest
      of the C code that no definition names is prototypes, method tables and
      generated files. *)

From stdpp Require Import base list numbers gmap sets.
From Stdlib Require Import ZArith Lia.

#[global] Open Scope Z_scope.

(** ** Machine integers

    A C integer is a [Z]; conversions to a width wrap as C does for unsigned
    types, and [to_i32]/[to_i64] are the two's-complement conversions. *)

Definition u8 (x : Z) : Z := x mod 2 ^ 8.
Definition u16 (x : Z) : Z := x mod 2 ^ 16.
Definition u32 (x : Z) : Z := x mod 2 ^ 32.
Definition u64 (x : Z) : Z := x mod 2 ^ 64.

Definition to_signed (w x : Z) : Z :=
  let y := x mod 2 ^ w in
  if y <? 2 ^ (w - 1) then y else y - 2 ^ w.

Definition to_i32 (x : Z) : Z := to_signed 32 x.
Definition to_i64 (x : Z) : Z := to_signed 64 x.

Definition UINT64_MAX : Z := 2 ^ 64 - 1.

(** ** Bytes, views and memory

    A byte string is a list of [Z]; [bytes_ok] says each element is a [uint8_t].
    A nullable data pointer together with the bytes it addresses is a [view];
    [None] is the NULL pointer. *)

Abbreviation bytes := (list Z).
Abbreviation view := (option (list Z)).

Definition is_byte (b : Z) : Prop := 0 ≤ b < 256.
Definition bytes_ok (bs : bytes) : Prop := Forall is_byte bs.

#[export] Instance is_byte_dec b : Decision (is_byte b).
Proof. unfold is_byte. apply _. Defined.
#[export] Instance bytes_ok_dec bs : Decision (bytes_ok bs).
Proof. unfold bytes_ok. apply _. Defined.

(** [zlen] is the [size_t] length of a byte string. *)
Definition zlen {A} (l : list A) : Z := Z.of_nat (length l).

(** [rd p i] reads [p[i]]; every use in the models is guarded by the length
    test of the source, so the default is never observed. *)
Definition rd (p : bytes) (i : Z) : Z := default 0 (p !! Z.to_nat i).

(** [ztake]/[zdrop]: prefix and pointer advance by a [size_t]. *)
Definition ztake {A} (n : Z) (l : list A) : list A := take (Z.to_nat n) l.
Definition zdrop {A} (n : Z) (l : list A) : list A := drop (Z.to_nat n) l.

(** [mem_write buf off bs] stores [bs] at [buf + off]. *)
Definition mem_write (buf : bytes) (off : Z) (bs : bytes) : bytes :=
  ztake off buf ++ bs ++ zdrop (off + zlen bs) buf.

(** The bytes a view addresses (none for NULL). *)
Definition vbytes (v : view) : bytes := default [] v.

Lemma vbytes_Some bs : vbytes (Some bs) = bs.
Proof. done. Qed.

(** ** The allocator

    Each call to malloc/calloc/realloc consumes one outcome of an oracle:
    [false] is a NULL return; an exhausted oracle always succeeds. *)

Abbreviation heap := (list bool).

Definition alloc (h : heap) : bool * heap :=
  match h with
  | [] => (true, [])
  | b :: h' => (b, h')
  end.

(** ** Record update: [r <| f := v |>] *)

Class Update {R T : Type} (proj : R -> T) := upd : (T -> T) -> R -> R.
#[global] Arguments upd {R T} proj {_} _ _.

Declare Scope update_scope.
#[global] Open Scope update_scope.

Notation "r <| f := v |>" := (upd f (fun _ => v) r)
  (at level 12, f at level 1, v at level 200, left associativity,
   format "r  <| f  :=  v |>") : update_scope.
Notation "r <| f ::= g |>" := (upd f g r)
  (at level 12, f at level 1, g at level 200, left associativity,
   format "r  <| f  ::=  g |>") : update_scope.

(** [derive_update eta f] builds the updater of field [f] out of the
    eta-expansion [eta] of its record. *)
Ltac derive_update eta f :=
  let body := eval red in eta in
  let abs := eval pattern f in body in
  lazymatch abs with
  | ?ctx _ =>
      let e := constr:(fun g r => ctx (fun x => g (f x)) r) in
      let e := eval cbv beta in e in
      exact e
  end.

(** ** Lemmas on machine integers *)

Lemma u32_id (x : Z) : 0 ≤ x < 2 ^ 32 → u32 x = x.
Proof. intros. by apply Z.mod_small. Qed.

Lemma u64_id (x : Z) : 0 ≤ x < 2 ^ 64 → u64 x = x.
Proof. intros. by apply Z.mod_small. Qed.

Lemma u8_range (x : Z) : is_byte (u8 x).
Proof. apply (Z.mod_pos_bound x 256). lia. Qed.

Lemma u32_range (x : Z) : 0 ≤ u32 x < 2 ^ 32.
Proof. by apply Z.mod_pos_bound. Qed.

Lemma u64_range (x : Z) : 0 ≤ u64 x < 2 ^ 64.
Proof. by apply Z.mod_pos_bound. Qed.

Lemma to_i32_id (x : Z) : 0 ≤ x < 2 ^ 31 → to_i32 x = x.
Proof.
  intros. unfold to_i32, to_signed. rewrite Z.mod_small by lia.
  destruct (Z.ltb_spec x (2 ^ (32 - 1))); lia.
Qed.

Lemma to_i64_id (x : Z) : 0 ≤ x < 2 ^ 63 → to_i64 x = x.
Proof.
  intros. unfold to_i64, to_signed. rewrite Z.mod_small by lia.
  destruct (Z.ltb_spec x (2 ^ (64 - 1))); lia.
Qed.

(** Or-ing a value below bit [n] into a multiple of [2^n] is addition. *)
Lemma lor_add (a b n : Z) :
  0 ≤ n → 0 ≤ b < 2 ^ n → (2 ^ n | a) → Z.lor a b = a + b.
Proof.
  intros Hn Hb [q ->].
  enough (Z.land (q * 2 ^ n) b = 0) as E
    by (rewrite Z.add_nocarry_lxor, Z.lxor_lor; done).
  apply Z.bits_inj'. intros i Hi. rewrite Z.land_spec, Z.bits_0.
  destruct (Z.lt_ge_cases i n); [by rewrite Z.mul_pow2_bits_low by lia |].
  destruct (decide (b = 0)) as [->|]; [by rewrite Z.bits_0, andb_false_r |].
  rewrite (Z.bits_above_log2 b i), andb_false_r; [done | lia |].
  apply Z.log2_lt_pow2; [lia |].
  apply Z.lt_le_trans with (2 ^ n); [lia |]. apply Z.pow_le_mono_r; lia.
Qed.

Lemma be32_arith (a b c d : Z) :
  is_byte a → is_byte b → is_byte c → is_byte d →
  u32 (Z.lor (Z.lor (Z.lor (Z.shiftl a 24) (Z.shiftl b 16)) (Z.shiftl c 8)) d)
  = a * 2 ^ 24 + b * 2 ^ 16 + c * 2 ^ 8 + d.
Proof.
  unfold is_byte. intros. rewrite !Z.shiftl_mul_pow2 by lia.
  rewrite (lor_add (a * 2 ^ 24) _ 24); [| lia | lia | by exists a].
  rewrite (lor_add (a * 2 ^ 24 + b * 2 ^ 16) _ 16);
    [| lia | lia | exists (a * 2 ^ 8 + b); lia].
  rewrite (lor_add _ d 8); [| lia | lia | exists (a * 2 ^ 16 + b * 2 ^ 8 + c); lia].
  apply u32_id. lia.
Qed.

Lemma be16_arith (a b : Z) :
  is_byte a → is_byte b →
  u16 (Z.lor (Z.shiftl a 8) b) = a * 2 ^ 8 + b.
Proof.
  unfold is_byte. intros. rewrite Z.shiftl_mul_pow2 by lia.
  rewrite (lor_add _ b 8); [| lia | lia | by exists a].
  apply Z.mod_small. lia.
Qed.

Lemma u8_shiftr (v n : Z) : 0 ≤ n → u8 (Z.shiftr v n) = (v / 2 ^ n) mod 256.
Proof. intros. unfold u8. by rewrite Z.shiftr_div_pow2. Qed.

(** The four base-256 digits of a 32-bit value, by successive division. *)
Lemma div_256s (v : Z) :
  v / 2 ^ 8 = v / 256 ∧ v / 2 ^ 16 = v / 256 / 256 ∧
  v / 2 ^ 24 = v / 256 / 256 / 256.
Proof. rewrite !Z.div_div by lia. done. Qed.

Lemma digits_256 (v : Z) :
  0 ≤ v < 2 ^ 32 →
  (v / 256 / 256 / 256) mod 256 * 2 ^ 24 + (v / 256 / 256) mod 256 * 2 ^ 16 +
  (v / 256) mod 256 * 2 ^ 8 + v mod 256 = v.
Proof.
  intros. rewrite (Z.mod_small (v / 256 / 256 / 256)) by
    (rewrite !Z.div_div by lia; split;
       [apply Z.div_pos | apply Z.div_lt_upper_bound]; lia).
  rewrite !Z.mod_eq by lia. lia.
Qed.

(** ** Lemmas on byte strings *)

Lemma zlen_nil {A} : zlen ([] : list A) = 0.
Proof. done. Qed.

Lemma zlen_cons {A} (x : A) l : zlen (x :: l) = 1 + zlen l.
Proof. unfold zlen. simpl. lia. Qed.

Lemma zlen_app {A} (l k : list A) : zlen (l ++ k) = zlen l + zlen k.
Proof. unfold zlen. rewrite length_app. lia. Qed.

Create Rewrite HintDb zlen.
#[export] Hint Rewrite @zlen_nil @zlen_cons @zlen_app : zlen.

(** Length goals: normalise [zlen] and call [lia]. *)
Ltac zlen_lia := autorewrite with zlen in *; lia.

Lemma zlen_nonneg {A} (l : list A) : 0 ≤ zlen l.
Proof. unfold zlen. lia. Qed.

Lemma zlen_ztake {A} n (l : list A) : 0 ≤ n ≤ zlen l → zlen (ztake n l) = n.
Proof. unfold zlen, ztake. intros. rewrite length_take. lia. Qed.

Lemma zlen_zdrop_le {A} n (l : list A) : zlen (zdrop n l) ≤ zlen l.
Proof. unfold zlen, zdrop. rewrite length_drop. lia. Qed.

Lemma zlen_zdrop {A} n (l : list A) : 0 ≤ n ≤ zlen l → zlen (zdrop n l) = zlen l - n.
Proof. unfold zlen, zdrop. intros. rewrite length_drop. lia. Qed.

Lemma ztake_app {A} n (l k : list A) : n = zlen l → ztake n (l ++ k) = l.
Proof.
  unfold ztake, zlen. intros ->. rewrite Nat2Z.id. by apply take_app_length.
Qed.

Lemma zdrop_app {A} n (l k : list A) : n = zlen l → zdrop n (l ++ k) = k.
Proof.
  unfold zdrop, zlen. intros ->. rewrite Nat2Z.id. by apply drop_app_length.
Qed.

Lemma ztake_all {A} n (l : list A) : zlen l ≤ n → ztake n l = l.
Proof. unfold ztake, zlen. intros. apply take_ge. lia. Qed.

Lemma zdrop_all {A} n (l : list A) : zlen l ≤ n → zdrop n l = [].
Proof. unfold zdrop, zlen. intros. apply drop_ge. lia. Qed.

Lemma ztake_zdrop {A} n (l : list A) : ztake n l ++ zdrop n l = l.
Proof. apply take_drop. Qed.

Lemma zdrop_0 {A} (l : list A) : zdrop 0 l = l.
Proof. done. Qed.

Lemma ztake_0 {A} (l : list A) : ztake 0 l = [].
Proof. done. Qed.

Lemma zdrop_zdrop {A} n m (l : list A) :
  0 ≤ n → 0 ≤ m → zdrop n (zdrop m l) = zdrop (m + n) l.
Proof. unfold zdrop. intros. rewrite drop_drop. f_equal. lia. Qed.

Lemma ztake_ztake {A} n m (l : list A) :
  0 ≤ n ≤ m → ztake n (ztake m l) = ztake n l.
Proof. unfold ztake. intros. rewrite take_take. f_equal. lia. Qed.

Lemma ztake_app_le {A} n (l k : list A) : n ≤ zlen l → ztake n (l ++ k) = ztake n l.
Proof. unfold ztake, zlen. intros. apply take_app_le. lia. Qed.

Lemma zdrop_app_le {A} n (l k : list A) :
  n ≤ zlen l → zdrop n (l ++ k) = zdrop n l ++ k.
Proof. unfold zdrop, zlen. intros. apply drop_app_le. lia. Qed.

Lemma ztake_zdrop_comm {A} n m (l : list A) :
  0 ≤ n → 0 ≤ m → ztake n (zdrop m l) = zdrop m (ztake (m + n) l).
Proof.
  unfold ztake, zdrop. intros. rewrite skipn_firstn_comm. f_equal. lia.
Qed.

Lemma rd_cons_0 a p : rd (a :: p) 0 = a.
Proof. done. Qed.

Lemma rd_cons_1 a b p : rd (a :: b :: p) 1 = b.
Proof. done. Qed.

Lemma rd_cons_2 a b c p : rd (a :: b :: c :: p) 2 = c.
Proof. done. Qed.

Lemma rd_cons_3 a b c d p : rd (a :: b :: c :: d :: p) 3 = d.
Proof. done. Qed.

Create Rewrite HintDb rd.
#[export] Hint Rewrite rd_cons_0 rd_cons_1 rd_cons_2 rd_cons_3 : rd.

Lemma rd_app (p q : bytes) i : 0 ≤ i < zlen p → rd (p ++ q) i = rd p i.
Proof. unfold rd, zlen. intros. rewrite lookup_app_l by lia. done. Qed.

Lemma bytes_ok_app p q : bytes_ok (p ++ q) ↔ bytes_ok p ∧ bytes_ok q.
Proof. apply Forall_app. Qed.

Lemma bytes_ok_ztake n p : bytes_ok p → bytes_ok (ztake n p).
Proof. intros. by apply Forall_take. Qed.

Lemma bytes_ok_zdrop n p : bytes_ok p → bytes_ok (zdrop n p).
Proof. intros. by apply Forall_drop. Qed.

Lemma list_alter_insert {A} (f : A → A) (l : list A) j e :
  l !! j = Some e → alter f j l = <[j := f e]> l.
Proof.
  revert j. induction l as [|x l IH]; intros [|j] H; simplify_eq/=; [done |].
  f_equal. by apply IH.
Qed.

(** ** Lemmas on memory *)

Lemma mem_write_len (buf : bytes) off bs :
  0 ≤ off → off + zlen bs ≤ zlen buf → zlen (mem_write buf off bs) = zlen buf.
Proof.
  intros. pose proof (zlen_nonneg bs). unfold mem_write.
  rewrite !zlen_app, zlen_ztake, zlen_zdrop by lia. lia.
Qed.

(** Adjacent stores merge. *)
Lemma mem_write_merge (buf : bytes) off off' bs cs :
  0 ≤ off → off' = off + zlen bs → off + zlen bs ≤ zlen buf →
  mem_write (mem_write buf off bs) off' cs = mem_write buf off (bs ++ cs).
Proof.
  intros ? -> ?. pose proof (zlen_nonneg bs). pose proof (zlen_nonneg cs).
  assert (mem_write buf off bs =
          (ztake off buf ++ bs) ++ zdrop (off + zlen bs) buf) as E
    by (unfold mem_write; by rewrite (assoc_L (++))).
  assert (off + zlen bs = zlen (ztake off buf ++ bs)) as L
    by (rewrite zlen_app, zlen_ztake; lia).
  unfold mem_write at 1. rewrite <- zdrop_zdrop by lia. rewrite E.
  rewrite ztake_app, zdrop_app by done.
  unfold mem_write. rewrite zlen_app, zdrop_zdrop by lia.
  by rewrite <- !(assoc_L (++)), Z.add_assoc.
Qed.

Lemma mem_write_0 (buf : bytes) bs :
  mem_write buf 0 bs = bs ++ zdrop (zlen bs) buf.
Proof. done. Qed.

(** ** Capacity doubling

    The loop [while (ncap < want) ncap *= 2] every growable structure uses.
    [dbl_fuel] is the width of size_t: a capacity that fits 64 bits is reached
    in fewer doublings ([dbl_until_ge]). *)

Definition dbl_fuel : nat := 64.

Fixpoint dbl_until (fuel : nat) (ncap want : Z) : Z :=
  match fuel with
  | O => ncap
  | S k => if ncap <? want then dbl_until k (ncap * 2) want else ncap
  end.

(** Enough fuel: the loop has exited because the target is reached. *)
Lemma dbl_until_ge fuel n want :
  want ≤ n * 2 ^ Z.of_nat fuel → want ≤ dbl_until fuel n want.
Proof.
  revert n. induction fuel as [|k IH]; intros n Hw; simpl.
  - rewrite Z.mul_1_r in Hw. done.
  - destruct (Z.ltb_spec n want); [| lia]. apply IH.
    rewrite Nat2Z.inj_succ, Z.pow_succ_r in Hw by lia. lia.
Qed.

(** It multiplies by a power of two and never overshoots by a factor of two. *)
Lemma dbl_until_pow2 fuel n want :
  0 < n → ∃ k, 0 ≤ k ∧ dbl_until fuel n want = n * 2 ^ k ∧
               (dbl_until fuel n want = n ∨ dbl_until fuel n want < 2 * want).
Proof.
  revert n. induction fuel as [|f IH]; intros n Hn; simpl.
  - exists 0. split_and!; lia.
  - destruct (Z.ltb_spec n want); [| exists 0; split_and!; lia].
    destruct (IH (n * 2)) as (k & Hk & E & B); [lia |].
    exists (k + 1). rewrite Z.pow_add_r, E by lia. split_and!; [lia | lia |].
    right. destruct B; lia.
Qed.

Lemma dbl_until_le fuel n want : 0 < n → n ≤ dbl_until fuel n want.
Proof.
  intros Hn. destruct (dbl_until_pow2 fuel n want Hn) as (k & ? & -> & _).
  pose proof (Z.pow_pos_nonneg 2 k). nia.
Qed.

#[global] Arguments dbl_until : simpl never.
#[global] Arguments dbl_fuel : simpl never.
#[global] Arguments Z.add : simpl never.
#[global] Arguments Z.sub : simpl never.
#[global] Arguments Z.mul : simpl never.
#[global] Arguments Z.pow : simpl never.
#[global] Arguments Z.modulo : simpl never.
#[global] Arguments Z.div : simpl never.
#[global] Arguments Z.land : simpl never.
#[global] Arguments Z.lor : simpl never.
#[global] Arguments Z.shiftr : simpl never.
#[global] Arguments Z.shiftl : simpl never.
#[global] Arguments Z.of_nat : simpl never.
#[global] Arguments Z.to_nat : simpl never.
#[global] Arguments Z.eqb : simpl never.
#[global] Arguments Z.ltb : simpl never.
#[global] Arguments Z.leb : simpl never.
#[global] Arguments Z.gtb : simpl never.
#[global] Arguments Z.geb : simpl never.

(** A result that is there is its own default; only a [bool] is computed. *)
Lemma default_Some {A} (d : A) (o : option A) :
  match o with Some _ => true | None => false end = true → o = Some (default d o).
Proof. by destruct o. Qed.
