(* ===== verification/Frame.v ===== *)
(** The framing codec: libmux/src/frame.c and the wire constants of
    libmux/include/mux.h.

    Everything is a pure function of the caller's buffers.  A destination
    buffer is a [view]; a function that stores into it returns the buffer with
    the stores applied beside its [int] result.  Out-parameters that are filled
    only on success become the payload of [inr]. *)

From stdpp Require Import base list numbers.
From Stdlib Require Import ZArith Lia.
From S2P Require Import Prelude.

(** ** Wire constants *)

Definition MUX_VERSION : Z := 0x01.
Definition MUX_HEADER_SIZE : Z := 12.
Definition MUX_MAX_PAYLOAD : Z := 16 * 1024 * 1024.
Definition MUX_SID_CONTROL : Z := 0.

Definition MUX_T_DATA : Z := 0x00.
Definition MUX_T_WINDOW_UPDATE : Z := 0x01.
Definition MUX_T_PING : Z := 0x02.
Definition MUX_T_GOAWAY : Z := 0x03.
Definition MUX_T_HELLO : Z := 0x10.
Definition MUX_T_HELLO_ACK : Z := 0x11.
Definition MUX_T_CAPACITY : Z := 0x12.

Definition MUX_F_SYN : Z := 0x0001.
Definition MUX_F_ACK : Z := 0x0002.
Definition MUX_F_FIN : Z := 0x0004.
Definition MUX_F_RST : Z := 0x0008.

Definition MUX_TLV_PEER_ID : Z := 0x0001.
Definition MUX_TLV_WEIGHT : Z := 0x0002.
Definition MUX_TLV_MAX_STREAMS : Z := 0x0003.
Definition MUX_TLV_AUTH : Z := 0x0004.
Definition MUX_TLV_INIT_WINDOW : Z := 0x0005.
Definition MUX_TLV_HEARTBEAT_MS : Z := 0x0006.
Definition MUX_TLV_SESSION_WINDOW : Z := 0x0007.
Definition MUX_TLV_NONCE : Z := 0x0008.

Definition MUX_CODE_NO_ERROR : Z := 0.
Definition MUX_CODE_PROTOCOL : Z := 1.
Definition MUX_CODE_FLOW_CONTROL : Z := 2.
Definition MUX_CODE_STREAM_LIMIT : Z := 3.
Definition MUX_CODE_INTERNAL : Z := 4.
Definition MUX_CODE_REFUSED : Z := 5.

Definition MUX_OK : Z := 0.
Definition MUX_ERR_SHORT : Z := -1.
Definition MUX_ERR_PROTO : Z := -2.
Definition MUX_ERR_NOSPACE : Z := -3.
Definition MUX_ERR_PARAM : Z := -4.
Definition MUX_ERR_STATE : Z := -5.
Definition MUX_ERR_NOMEM : Z := -6.
Definition MUX_ERR_NOSTREAM : Z := -7.

(** Arithmetic on return codes: unfold them and call [lia]. *)
Ltac code_lia :=
  unfold MUX_OK, MUX_ERR_SHORT, MUX_ERR_PROTO, MUX_ERR_NOSPACE, MUX_ERR_PARAM,
    MUX_ERR_STATE, MUX_ERR_NOMEM, MUX_ERR_NOSTREAM in *; lia.

(** ** Big-endian load/store *)

(** The stores return the bytes written at [p]. *)
Definition be_put16 (v : Z) : bytes := [u8 (Z.shiftr v 8); u8 v].

Definition be_put32 (v : Z) : bytes :=
  [u8 (Z.shiftr v 24); u8 (Z.shiftr v 16); u8 (Z.shiftr v 8); u8 v].

Definition be_get16 (p : bytes) : Z :=
  u16 (Z.lor (Z.shiftl (rd p 0) 8) (rd p 1)).

Definition be_get32 (p : bytes) : Z :=
  u32 (Z.lor (Z.lor (Z.lor (Z.shiftl (rd p 0) 24) (Z.shiftl (rd p 1) 16))
                    (Z.shiftl (rd p 2) 8))
             (rd p 3)).

(** ** Framing *)

Record mux_frame_t := mk_frame {
  f_ver : Z;
  f_type : Z;
  f_flags : Z;
  f_sid : Z;
  f_len : Z;
  f_payload : view;
}.

(** [mux_parse buf len]: [inl code] for a negative return, [inr (frame,
    consumed)] for MUX_OK.  [len] bytes are readable at a non-NULL [buf]. *)
Definition mux_parse (buf : view) (len : Z) : Z + (mux_frame_t * Z) :=
  match buf with
  | None => inl MUX_ERR_PARAM
  | Some p =>
      if len <? MUX_HEADER_SIZE then inl MUX_ERR_SHORT else
      let ver := rd p 0 in
      let type := rd p 1 in
      let flags := be_get16 (zdrop 2 p) in
      let sid := be_get32 (zdrop 4 p) in
      let plen := be_get32 (zdrop 8 p) in
      if negb (ver =? MUX_VERSION) then inl MUX_ERR_PROTO else
      if plen >? MUX_MAX_PAYLOAD then inl MUX_ERR_PROTO else
      let need := MUX_HEADER_SIZE + plen in
      if len <? need then inl MUX_ERR_SHORT else
      inr (mk_frame ver type flags sid plen
             (if plen >? 0 then Some (ztake plen (zdrop MUX_HEADER_SIZE p)) else None),
           need)
  end.

Definition mux_craft_header (dst : view) (cap type flags sid payload_len : Z)
  : Z * view :=
  match dst with
  | None => (MUX_ERR_PARAM, dst)
  | Some d =>
      if payload_len >? MUX_MAX_PAYLOAD then (MUX_ERR_PROTO, dst) else
      if cap <? MUX_HEADER_SIZE then (MUX_ERR_NOSPACE, dst) else
      let d := mem_write d 0 [MUX_VERSION] in
      let d := mem_write d 1 [type] in
      let d := mem_write d 2 (be_put16 flags) in
      let d := mem_write d 4 (be_put32 sid) in
      let d := mem_write d 8 (be_put32 payload_len) in
      (to_i32 MUX_HEADER_SIZE, Some d)
  end.

Definition mux_craft (dst : view) (cap type flags sid : Z) (payload : view)
  (plen : Z) : Z * view :=
  match dst with
  | None => (MUX_ERR_PARAM, dst)
  | Some _ =>
      if (plen >? 0) && bool_decide (payload = None) then (MUX_ERR_PARAM, dst) else
      if plen >? MUX_MAX_PAYLOAD then (MUX_ERR_PROTO, dst) else
      let total := MUX_HEADER_SIZE + plen in
      if cap <? total then (MUX_ERR_NOSPACE, dst) else
      let '(_, dst) := mux_craft_header dst cap type flags sid plen in
      let dst :=
        if plen >? 0
        then (fun d => mem_write d MUX_HEADER_SIZE (ztake plen (vbytes payload))) <$> dst
        else dst in
      (to_i32 total, dst)
  end.

(** ** TLV *)

Definition mux_tlv_put (buf : view) (cap off t : Z) (val : view) (vlen : Z)
  : Z * view :=
  match buf with
  | None => (MUX_ERR_PARAM, buf)
  | Some b =>
      if (vlen >? 0) && bool_decide (val = None) then (MUX_ERR_PARAM, buf) else
      if off >? cap then (MUX_ERR_NOSPACE, buf) else
      let avail := cap - off in
      if avail <? 4 + vlen then (MUX_ERR_NOSPACE, buf) else
      let b := mem_write b off (be_put16 t) in
      let b := mem_write b (off + 2) (be_put16 vlen) in
      let b := if vlen >? 0 then mem_write b (off + 4) (ztake vlen (vbytes val)) else b in
      (to_i32 (off + 4 + vlen), Some b)
  end.

(** The three outcomes of [mux_tlv_next]: 0, a negative code, or 1 with the
    TLV and the advanced cursor. *)
Inductive tlv_next_result :=
  | TlvEnd
  | TlvErr (code : Z)
  | TlvItem (t : Z) (val : view) (vlen : Z) (cursor : Z).

Definition mux_tlv_next (buf : view) (len cursor : Z) : tlv_next_result :=
  match buf with
  | None => TlvErr MUX_ERR_PARAM
  | Some b =>
      let c := cursor in
      if c =? len then TlvEnd else
      if (c >? len) || (len - c <? 4) then TlvErr MUX_ERR_PROTO else
      let ty := be_get16 (zdrop c b) in
      let vl := be_get16 (zdrop (c + 2) b) in
      if len - c - 4 <? vl then TlvErr MUX_ERR_PROTO else
      TlvItem ty (if vl >? 0 then Some (ztake vl (zdrop (c + 4) b)) else None)
              vl (c + 4 + vl)
  end.

(** ** Reference encodings *)

(** The bytes of a header, of one whole frame, and of one TLV. *)
Definition hdr_bytes (type flags sid plen : Z) : bytes :=
  [MUX_VERSION; type] ++ be_put16 flags ++ be_put32 sid ++ be_put32 plen.

Definition frame_bytes (type flags sid : Z) (payload : bytes) : bytes :=
  hdr_bytes type flags sid (zlen payload) ++ payload.

Definition tlv_bytes (t : Z) (val : bytes) : bytes :=
  be_put16 t ++ be_put16 (zlen val) ++ val.

(** The pointer the codec returns for a payload: NULL when it is empty. *)
Definition view_of (bs : bytes) : view :=
  match bs with [] => None | _ => Some bs end.

(** The header fields of a frame fit their wire widths. *)
Definition hdr_ok (type flags sid : Z) : Prop :=
  0 ≤ type < 2 ^ 8 ∧ 0 ≤ flags < 2 ^ 16 ∧ 0 ≤ sid < 2 ^ 32.

(** ** Big-endian lemmas *)

Lemma be_get32_put32 v r : 0 ≤ v < 2 ^ 32 → be_get32 (be_put32 v ++ r) = v.
Proof.
  intros. unfold be_get32, be_put32. cbn [app]. autorewrite with rd.
  rewrite be32_arith by apply u8_range.
  rewrite !u8_shiftr by lia. unfold u8.
  destruct (div_256s v) as (-> & -> & ->). by apply digits_256.
Qed.

Lemma be_get16_put16 v r : 0 ≤ v < 2 ^ 16 → be_get16 (be_put16 v ++ r) = v.
Proof.
  intros. unfold be_get16, be_put16. cbn [app]. autorewrite with rd.
  rewrite be16_arith by apply u8_range.
  rewrite !u8_shiftr by lia. unfold u8. change (2 ^ 8) with 256.
  rewrite (Z.mod_small (v / 256)) by
    (split; [apply Z.div_pos | apply Z.div_lt_upper_bound]; lia).
  rewrite Z.mod_eq by lia. lia.
Qed.

Lemma be_put32_get32 a b c d :
  is_byte a → is_byte b → is_byte c → is_byte d →
  be_put32 (be_get32 [a; b; c; d]) = [a; b; c; d].
Proof.
  intros. unfold be_get32, be_put32. autorewrite with rd.
  rewrite be32_arith by done. unfold is_byte in *.
  rewrite !u8_shiftr by lia. unfold u8.
  set (v := _ + d). destruct (div_256s v) as (-> & -> & ->). subst v.
  change (2 ^ 8) with 256. repeat f_equal; Z.to_euclidean_division_equations; lia.
Qed.

Lemma be_put16_get16 a b :
  is_byte a → is_byte b → be_put16 (be_get16 [a; b]) = [a; b].
Proof.
  intros. unfold be_get16, be_put16. cbn [app]. autorewrite with rd.
  rewrite be16_arith by done. unfold is_byte in *.
  rewrite !u8_shiftr by lia. unfold u8. change (2 ^ 8) with 256.
  repeat f_equal; Z.to_euclidean_division_equations; lia.
Qed.

Lemma be_get32_range p : 0 ≤ be_get32 p < 2 ^ 32.
Proof. apply u32_range. Qed.

Lemma be_get16_range p : 0 ≤ be_get16 p < 2 ^ 16.
Proof. by apply Z.mod_pos_bound. Qed.

(** A load of [n] bytes only reads those [n] bytes. *)
Lemma be_get32_app p q : 4 ≤ zlen p → be_get32 (p ++ q) = be_get32 p.
Proof. intros. unfold be_get32. rewrite !rd_app by lia. done. Qed.

Lemma be_get16_app p q : 2 ≤ zlen p → be_get16 (p ++ q) = be_get16 p.
Proof. intros. unfold be_get16. rewrite !rd_app by lia. done. Qed.

Lemma be_put32_len v : zlen (be_put32 v) = 4.
Proof. done. Qed.

Lemma be_put16_len v : zlen (be_put16 v) = 2.
Proof. done. Qed.

#[export] Hint Rewrite be_put32_len be_put16_len : zlen.

Lemma be_put32_ok v : bytes_ok (be_put32 v).
Proof. repeat constructor; apply u8_range. Qed.

Lemma be_put16_ok v : bytes_ok (be_put16 v).
Proof. repeat constructor; apply u8_range. Qed.

(** ** Framing lemmas *)

Lemma hdr_bytes_len ty fl sid n : zlen (hdr_bytes ty fl sid n) = 12.
Proof. done. Qed.

#[export] Hint Rewrite hdr_bytes_len : zlen.

Lemma frame_bytes_len ty fl sid pl :
  zlen (frame_bytes ty fl sid pl) = MUX_HEADER_SIZE + zlen pl.
Proof. unfold frame_bytes, MUX_HEADER_SIZE. zlen_lia. Qed.

#[export] Hint Rewrite frame_bytes_len : zlen.

Lemma frame_bytes_ok ty fl sid pl :
  is_byte ty → bytes_ok pl → bytes_ok (frame_bytes ty fl sid pl).
Proof.
  intros. unfold frame_bytes, hdr_bytes. rewrite !bytes_ok_app.
  split_and!; eauto using be_put16_ok, be_put32_ok.
  by do 2 (constructor; [done || by unfold is_byte, MUX_VERSION |]).
Qed.

Lemma craft_header_spec d cap ty fl sid plen :
  plen ≤ MUX_MAX_PAYLOAD → MUX_HEADER_SIZE ≤ cap → cap ≤ zlen d →
  mux_craft_header (Some d) cap ty fl sid plen =
  (MUX_HEADER_SIZE, Some (hdr_bytes ty fl sid plen ++ zdrop MUX_HEADER_SIZE d)).
Proof.
  unfold mux_craft_header. intros ? Hc Hd.
  destruct (Z.gtb_spec plen MUX_MAX_PAYLOAD); [lia |].
  destruct (Z.ltb_spec cap MUX_HEADER_SIZE); [lia |].
  unfold MUX_HEADER_SIZE in *. rewrite to_i32_id by lia. do 2 f_equal.
  rewrite (mem_write_merge d 0 1), (mem_write_merge d 0 2), (mem_write_merge d 0 4),
    (mem_write_merge d 0 8) by zlen_lia.
  by rewrite mem_write_0.
Qed.

(** What [mux_craft] stores, on its success path. *)
Lemma craft_spec d cap ty fl sid payload plen :
  plen = zlen (vbytes payload) → plen ≤ MUX_MAX_PAYLOAD →
  MUX_HEADER_SIZE + plen ≤ cap → cap ≤ zlen d →
  mux_craft (Some d) cap ty fl sid payload plen =
  (MUX_HEADER_SIZE + plen,
   Some (frame_bytes ty fl sid (vbytes payload) ++ zdrop (MUX_HEADER_SIZE + plen) d)).
Proof.
  intros Hp Hm Hc Hd. pose proof (zlen_nonneg (vbytes payload)). unfold mux_craft.
  assert ((plen >? 0) && bool_decide (payload = None) = false) as ->.
  { destruct payload; [by rewrite andb_false_r |]. by subst. }
  destruct (Z.gtb_spec plen MUX_MAX_PAYLOAD); [lia |].
  destruct (Z.ltb_spec cap (MUX_HEADER_SIZE + plen)); [lia |].
  rewrite craft_header_spec by lia. unfold MUX_HEADER_SIZE, MUX_MAX_PAYLOAD in *.
  rewrite to_i32_id by lia. f_equal. cbn [fmap option_fmap option_map].
  unfold frame_bytes. rewrite <- Hp, <- (assoc_L (++)). destruct (Z.gtb_spec plen 0).
  - f_equal. rewrite ztake_all by lia. unfold mem_write. rewrite ztake_app by done.
    rewrite <- zdrop_zdrop, zdrop_app, zdrop_zdrop by (done || lia). by rewrite Hp.
  - replace plen with 0 by lia.
    destruct (vbytes payload); [done |]. autorewrite with zlen in *.
    pose proof (zlen_nonneg l). lia.
Qed.

(** Only the first [plen] bytes at [payload] are read. *)
Lemma craft_trunc dst cap ty fl sid payload plen :
  mux_craft dst cap ty fl sid payload plen =
  mux_craft dst cap ty fl sid (ztake plen <$> payload) plen.
Proof.
  unfold mux_craft. destruct dst as [d|]; [| done]. destruct payload as [p|]; [| done].
  simpl. unfold ztake. by rewrite take_take, Nat.min_id.
Qed.

(** Reading the header fields back out of a header. *)
Lemma hdr_fields ty fl sid n r :
  hdr_ok ty fl sid → 0 ≤ n < 2 ^ 32 →
  let p := hdr_bytes ty fl sid n ++ r in
  rd p 0 = MUX_VERSION ∧ rd p 1 = ty ∧ be_get16 (zdrop 2 p) = fl ∧
  be_get32 (zdrop 4 p) = sid ∧ be_get32 (zdrop 8 p) = n.
Proof.
  intros (? & ? & ?) ? p. split_and!; [done | done | | |].
  - by apply (be_get16_put16 fl (be_put32 sid ++ be_put32 n ++ r)).
  - by apply (be_get32_put32 sid (be_put32 n ++ r)).
  - by apply (be_get32_put32 n r).
Qed.

Lemma view_of_take pl r :
  view_of pl =
  (if zlen pl >? 0 then Some (ztake (zlen pl) (pl ++ r)) else None).
Proof.
  rewrite ztake_app by done. destruct pl as [|b pl]; [done |]. rewrite zlen_cons.
  pose proof (zlen_nonneg pl). by destruct (Z.gtb_spec (1 + zlen pl) 0); [| lia].
Qed.

Lemma vbytes_view_of pl : vbytes (view_of pl) = pl.
Proof. by destruct pl. Qed.

(** Parsing the encoding of a frame, whatever follows it. *)
Lemma parse_frame_bytes ty fl sid pl r len :
  hdr_ok ty fl sid → zlen pl ≤ MUX_MAX_PAYLOAD →
  MUX_HEADER_SIZE + zlen pl ≤ len →
  mux_parse (Some (frame_bytes ty fl sid pl ++ r)) len =
  inr (mk_frame MUX_VERSION ty fl sid (zlen pl) (view_of pl), MUX_HEADER_SIZE + zlen pl).
Proof.
  intros Hok Hm Hl. pose proof (zlen_nonneg pl). unfold MUX_MAX_PAYLOAD in *.
  unfold frame_bytes. rewrite <- (assoc_L (++)).
  destruct (hdr_fields ty fl sid (zlen pl) (pl ++ r) Hok) as (E1 & E2 & E3 & E4 & E5);
    [lia |]. unfold mux_parse. rewrite E1, E2, E3, E4, E5.
  unfold MUX_HEADER_SIZE, MUX_MAX_PAYLOAD in *.
  destruct (Z.ltb_spec len 12); [lia |]. rewrite Z.eqb_refl. cbn [negb].
  destruct (Z.gtb_spec (zlen pl) (16 * 1024 * 1024)); [lia |].
  destruct (Z.ltb_spec len (12 + zlen pl)); [lia |].
  by rewrite zdrop_app, <- view_of_take by done.
Qed.

(** The shape of every successful parse. *)
Lemma parse_ok_inv p len f c :
  mux_parse (Some p) len = inr (f, c) →
  rd p 0 = MUX_VERSION ∧ MUX_HEADER_SIZE ≤ len ∧
  f = mk_frame MUX_VERSION (rd p 1) (be_get16 (zdrop 2 p)) (be_get32 (zdrop 4 p))
        (be_get32 (zdrop 8 p))
        (if be_get32 (zdrop 8 p) >? 0
         then Some (ztake (be_get32 (zdrop 8 p)) (zdrop MUX_HEADER_SIZE p)) else None) ∧
  c = MUX_HEADER_SIZE + be_get32 (zdrop 8 p) ∧
  be_get32 (zdrop 8 p) ≤ MUX_MAX_PAYLOAD ∧ c ≤ len.
Proof.
  unfold mux_parse. destruct (Z.ltb_spec len MUX_HEADER_SIZE); [done |].
  destruct (Z.eqb_spec (rd p 0) MUX_VERSION) as [->|]; [| done]. cbn [negb].
  destruct (Z.gtb_spec (be_get32 (zdrop 8 p)) MUX_MAX_PAYLOAD); [done |].
  destruct (Z.ltb_spec len (MUX_HEADER_SIZE + be_get32 (zdrop 8 p))); [done |].
  intros [= <- <-]. split_and!; done || lia.
Qed.

(** A frame handed to the session: its fields fit their widths, its length is
    the payload's and bounded, and the payload pointer is NULL iff it is empty. *)
Definition frame_wf (f : mux_frame_t) : Prop :=
  f_ver f = MUX_VERSION ∧ hdr_ok (f_type f) (f_flags f) (f_sid f) ∧
  f_len f = zlen (vbytes (f_payload f)) ∧ 0 ≤ f_len f ≤ MUX_MAX_PAYLOAD ∧
  bytes_ok (vbytes (f_payload f)) ∧ f_payload f = view_of (vbytes (f_payload f)).

Lemma frame_wf_mk ty fl sid pl :
  hdr_ok ty fl sid → zlen pl ≤ MUX_MAX_PAYLOAD → bytes_ok pl →
  frame_wf (mk_frame MUX_VERSION ty fl sid (zlen pl) (view_of pl)).
Proof.
  intros. pose proof (zlen_nonneg pl).
  unfold frame_wf. simpl. by rewrite vbytes_view_of.
Qed.

Ltac byte_list p :=
  destruct p as [|? p]; [unfold zlen in *; simpl in *; lia |].

(** A version-1 header is the encoding of the fields read out of it. *)
Lemma hdr_split p :
  bytes_ok p → 12 ≤ zlen p → rd p 0 = MUX_VERSION →
  p = hdr_bytes (rd p 1) (be_get16 (zdrop 2 p)) (be_get32 (zdrop 4 p))
        (be_get32 (zdrop 8 p)) ++ zdrop 12 p.
Proof.
  intros Hb Hl Hv. do 12 byte_list p. repeat (apply Forall_cons_1 in Hb as [? Hb]).
  rewrite rd_cons_0 in Hv. subst. rewrite rd_cons_1.
  match goal with |- ?v :: ?t :: ?f1 :: ?f2 :: ?s1 :: ?s2 :: ?s3 :: ?s4 ::
                     ?n1 :: ?n2 :: ?n3 :: ?n4 :: ?r = hdr_bytes _ ?a ?b ?c ++ ?d =>
    change a with (be_get16 ([f1; f2] ++ [s1; s2; s3; s4; n1; n2; n3; n4] ++ r));
    change b with (be_get32 ([s1; s2; s3; s4] ++ [n1; n2; n3; n4] ++ r));
    change c with (be_get32 ([n1; n2; n3; n4] ++ r)); change d with r
  end.
  rewrite be_get16_app, !be_get32_app by done. unfold hdr_bytes.
  by rewrite be_put16_get16, !be_put32_get32 by done.
Qed.

(** An accepted frame is the encoding of its fields. *)
Lemma parse_canonical p f c :
  bytes_ok p → mux_parse (Some p) (zlen p) = inr (f, c) →
  frame_wf f ∧ MUX_HEADER_SIZE ≤ c ≤ zlen p ∧
  ztake c p = frame_bytes (f_type f) (f_flags f) (f_sid f) (vbytes (f_payload f)).
Proof.
  intros Hb Hp. apply parse_ok_inv in Hp as (Hv & Hl & -> & -> & Hm & Hc).
  pose proof (hdr_split p Hb Hl Hv) as Hs. pose proof (be_get32_range (zdrop 8 p)) as Hn.
  unfold MUX_HEADER_SIZE in *. set (n := be_get32 (zdrop 8 p)) in *.
  set (pl := ztake n (zdrop 12 p)).
  assert (zlen pl = n) as Hpl by (apply zlen_ztake; rewrite zlen_zdrop; lia).
  assert ((if n >? 0 then Some pl else None) = view_of pl) as ->.
  { rewrite (view_of_take pl []), Hpl, app_nil_r. by rewrite (ztake_all n pl) by lia. }
  rewrite <- Hpl at 1 2. split_and!; [| lia | lia |]; simpl; rewrite ?vbytes_view_of.
  - apply frame_wf_mk; [| lia | by apply bytes_ok_ztake, bytes_ok_zdrop].
    split_and!; try apply be_get16_range; try apply be_get32_range.
    all: destruct p as [|? [|? p]]; [done | done |]; rewrite rd_cons_1.
    all: apply (Forall_lookup_1 _ _ 1 z0 Hb); done.
  - unfold frame_bytes. rewrite Hpl. rewrite Hs at 1. unfold ztake, pl.
    rewrite take_app, firstn_all2 by (cbn; lia). unfold ztake. f_equal. f_equal. cbn. lia.
Qed.

(** Bytes after a decided frame are not read. *)
Lemma parse_prefix_stable_aux p q :
  mux_parse (Some p) (zlen p) ≠ inl MUX_ERR_SHORT →
  mux_parse (Some (p ++ q)) (zlen (p ++ q)) = mux_parse (Some p) (zlen p).
Proof.
  unfold mux_parse. pose proof (zlen_nonneg q). rewrite zlen_app.
  destruct (Z.ltb_spec (zlen p) MUX_HEADER_SIZE); [done |].
  destruct (Z.ltb_spec (zlen p + zlen q) MUX_HEADER_SIZE); [lia |].
  unfold MUX_HEADER_SIZE in *. rewrite !rd_app by lia.
  rewrite !zdrop_app_le by lia. rewrite be_get16_app, !be_get32_app by (rewrite zlen_zdrop; lia).
  destruct (negb _); [done |]. destruct (_ >? MUX_MAX_PAYLOAD); [done |].
  pose proof (be_get32_range (zdrop 8 p)).
  destruct (Z.ltb_spec (zlen p) (12 + be_get32 (zdrop 8 p))); [done |].
  destruct (Z.ltb_spec (zlen p + zlen q) (12 + be_get32 (zdrop 8 p))); [lia |].
  intros _. by rewrite ztake_app_le by (rewrite zlen_zdrop; lia).
Qed.

(** ** TLV lemmas *)

Lemma tlv_bytes_len t v : zlen (tlv_bytes t v) = 4 + zlen v.
Proof. unfold tlv_bytes. zlen_lia. Qed.

#[export] Hint Rewrite tlv_bytes_len : zlen.

Lemma tlv_bytes_ok t v : bytes_ok v → bytes_ok (tlv_bytes t v).
Proof. intros. unfold tlv_bytes. rewrite !bytes_ok_app. auto using be_put16_ok. Qed.

(** What [mux_tlv_put] stores, on its success path. *)
Lemma tlv_put_spec b cap off t val vlen :
  0 ≤ off → vlen = zlen (vbytes val) → off + 4 + vlen ≤ cap → cap ≤ zlen b →
  off + 4 + vlen < 2 ^ 31 →
  mux_tlv_put (Some b) cap off t val vlen =
  (off + 4 + vlen, Some (mem_write b off (tlv_bytes t (vbytes val)))).
Proof.
  intros Ho Hv Hc Hb Hi. pose proof (zlen_nonneg (vbytes val)). unfold mux_tlv_put.
  assert ((vlen >? 0) && bool_decide (val = None) = false) as ->.
  { destruct val; [by rewrite andb_false_r |]. by subst. }
  destruct (Z.gtb_spec off cap); [lia |].
  destruct (Z.ltb_spec (cap - off) (4 + vlen)); [lia |].
  rewrite to_i32_id by lia. rewrite (mem_write_merge b off (off + 2)) by zlen_lia.
  do 2 f_equal. unfold tlv_bytes. rewrite <- Hv. destruct (Z.gtb_spec vlen 0).
  - rewrite ztake_all by lia. rewrite (mem_write_merge b off (off + 4)) by zlen_lia.
    by rewrite <- (assoc_L (++)).
  - destruct (vbytes val) as [|x l]; [by rewrite app_nil_r |].
    rewrite zlen_cons in *. pose proof (zlen_nonneg l). lia.
Qed.

(** Reading a TLV at its offset, whatever surrounds it. *)
Lemma tlv_next_at pre t v r len :
  0 ≤ t < 2 ^ 16 → zlen v < 2 ^ 16 → zlen pre + 4 + zlen v ≤ len →
  mux_tlv_next (Some (pre ++ tlv_bytes t v ++ r)) len (zlen pre) =
  TlvItem t (view_of v) (zlen v) (zlen pre + 4 + zlen v).
Proof.
  intros Ht Hv Hl. pose proof (zlen_nonneg v). pose proof (zlen_nonneg pre).
  unfold mux_tlv_next. destruct (Z.eqb_spec (zlen pre) len); [lia |].
  destruct (Z.gtb_spec (zlen pre) len); [lia |].
  destruct (Z.ltb_spec (len - zlen pre) 4); [lia |]. cbn [orb].
  rewrite <- !(zdrop_zdrop _ (zlen pre)) by lia. rewrite zdrop_app by done.
  unfold tlv_bytes. rewrite <- !(assoc_L (++)). rewrite be_get16_put16 by done.
  rewrite (zdrop_app 2) by done. rewrite be_get16_put16 by lia.
  rewrite (assoc_L (++)), (zdrop_app 4), <- view_of_take by done.
  by destruct (Z.ltb_spec (len - zlen pre - 4) (zlen v)); [lia |].
Qed.

Lemma tlv_next_end b len : mux_tlv_next (Some b) len len = TlvEnd.
Proof. unfold mux_tlv_next. by rewrite Z.eqb_refl. Qed.

(** Each item advances the cursor within the buffer. *)
Lemma tlv_next_progress b len c t v vl c' :
  mux_tlv_next (Some b) len c = TlvItem t v vl c' →
  0 ≤ t < 2 ^ 16 ∧ 0 ≤ vl < 2 ^ 16 ∧ c' = c + 4 + vl ∧ c' ≤ len.
Proof.
  unfold mux_tlv_next. destruct (c =? len); [done |].
  destruct ((c >? len) || (len - c <? 4)); [done |].
  pose proof (be_get16_range (zdrop c b)). pose proof (be_get16_range (zdrop (c + 2) b)).
  destruct (Z.ltb_spec (len - c - 4) (be_get16 (zdrop (c + 2) b))); [done |].
  intros [= <- <- <- <-]. split_and!; lia.
Qed.

(** ** Properties *)

(** C32: crafting then parsing.  [mux_craft] into any large enough buffer returns
    the total size, and [mux_parse] of the buffer returns exactly the fields and
    the payload that were crafted, consuming exactly that many bytes. *)
Theorem craft_parse_roundtrip d ty fl sid payload :
  hdr_ok ty fl sid → zlen (vbytes payload) ≤ MUX_MAX_PAYLOAD →
  MUX_HEADER_SIZE + zlen (vbytes payload) ≤ zlen d →
  let plen := zlen (vbytes payload) in
  ∃ d', mux_craft (Some d) (zlen d) ty fl sid payload plen =
          (MUX_HEADER_SIZE + plen, Some d') ∧
        zlen d' = zlen d ∧
        mux_parse (Some d') (zlen d') =
          inr (mk_frame MUX_VERSION ty fl sid plen (view_of (vbytes payload)),
               MUX_HEADER_SIZE + plen).
Proof.
  intros Hok Hm Hd plen. subst plen. pose proof (zlen_nonneg (vbytes payload)).
  eexists. split; [by apply craft_spec |].
  rewrite zlen_app, frame_bytes_len, zlen_zdrop by (unfold MUX_HEADER_SIZE in *; lia).
  split; [lia |]. apply parse_frame_bytes; auto; lia.
Qed.

(** Parsing then crafting.  Whatever bytes arrive, a frame [mux_parse]
    accepts is well formed, lies within the input, and re-encoding its fields
    gives back exactly the bytes consumed: the wire format is canonical. *)
Theorem parse_craft_roundtrip p f c :
  bytes_ok p → mux_parse (Some p) (zlen p) = inr (f, c) →
  frame_wf f ∧ MUX_HEADER_SIZE ≤ c ≤ zlen p ∧
  ztake c p = frame_bytes (f_type f) (f_flags f) (f_sid f) (vbytes (f_payload f)).
Proof. apply parse_canonical. Qed.

(** Arrival in pieces cannot change a verdict.  Once [mux_parse] of a
    buffer returns anything but MUX_ERR_SHORT, any further bytes appended to the
    buffer leave the result unchanged (so nothing past the frame is read). *)
Theorem parse_prefix_stable p q :
  mux_parse (Some p) (zlen p) ≠ inl MUX_ERR_SHORT →
  mux_parse (Some (p ++ q)) (zlen (p ++ q)) = mux_parse (Some p) (zlen p).
Proof. apply parse_prefix_stable_aux. Qed.

(** Waiting for more bytes is bounded.  A buffer that holds a maximal frame
    is never answered with MUX_ERR_SHORT, and a shorter one is so answered only
    when its header (if present) is a valid one whose payload is incomplete. *)
Theorem parse_short_bounded p :
  mux_parse (Some p) (zlen p) = inl MUX_ERR_SHORT →
  zlen p < MUX_HEADER_SIZE + MUX_MAX_PAYLOAD ∧
  (MUX_HEADER_SIZE ≤ zlen p →
   rd p 0 = MUX_VERSION ∧ be_get32 (zdrop 8 p) ≤ MUX_MAX_PAYLOAD ∧
   zlen p < MUX_HEADER_SIZE + be_get32 (zdrop 8 p)).
Proof.
  unfold mux_parse, MUX_HEADER_SIZE, MUX_MAX_PAYLOAD.
  destruct (Z.ltb_spec (zlen p) 12); [intros _; split; lia |].
  destruct (Z.eqb_spec (rd p 0) MUX_VERSION); [| done]. cbn [negb].
  destruct (Z.gtb_spec (be_get32 (zdrop 8 p)) (16 * 1024 * 1024)); [done |].
  destruct (Z.ltb_spec (zlen p) (12 + be_get32 (zdrop 8 p))); [| done].
  intros _. split; [lia |]. intros _. done.
Qed.

(** Storing then reading a TLV.  [mux_tlv_put] leaves every byte before its
    offset alone, returns the next offset, and [mux_tlv_next] with the cursor on
    that offset returns the type and the value stored, then the clean end. *)
Theorem tlv_put_next_roundtrip b off t val :
  0 ≤ off → 0 ≤ t < 2 ^ 16 → zlen (vbytes val) < 2 ^ 16 →
  off + 4 + zlen (vbytes val) ≤ zlen b → zlen b < 2 ^ 31 →
  let vlen := zlen (vbytes val) in
  let off' := off + 4 + vlen in
  ∃ b', mux_tlv_put (Some b) (zlen b) off t val vlen = (off', Some b') ∧
        zlen b' = zlen b ∧ ztake off b' = ztake off b ∧
        mux_tlv_next (Some b') off' off = TlvItem t (view_of (vbytes val)) vlen off' ∧
        mux_tlv_next (Some b') off' off' = TlvEnd.
Proof.
  intros Ho Ht Hv Hb Hi vlen off'. pose proof (zlen_nonneg (vbytes val)).
  eexists. split; [by apply tlv_put_spec; subst vlen off'; lia |].
  assert (off = zlen (ztake off b)) as Hoff by (rewrite zlen_ztake; lia).
  split_and!; [apply mem_write_len; subst vlen off'; zlen_lia | by apply ztake_app | |
               apply tlv_next_end].
  pose proof (tlv_next_at (ztake off b) t (vbytes val)
    (zdrop (off + zlen (tlv_bytes t (vbytes val))) b) off' Ht Hv) as N.
  rewrite <- Hoff in N. apply N. subst off' vlen. lia.
Qed.

(** ** Witnesses *)

Lemma craft_parse_roundtrip_witness :
  ∃ d', mux_craft (Some (replicate 20 0)) 20 MUX_T_DATA MUX_F_SYN 7 (Some [1; 2; 3]) 3 =
          (15, Some d') ∧ zlen d' = 20 ∧
        mux_parse (Some d') (zlen d') =
          inr (mk_frame MUX_VERSION MUX_T_DATA MUX_F_SYN 7 3 (Some [1; 2; 3]), 15).
Proof.
  apply (craft_parse_roundtrip (replicate 20 0) MUX_T_DATA MUX_F_SYN 7 (Some [1; 2; 3]));
    vm_compute; intuition congruence.
Defined.

Definition sample_frame : bytes := frame_bytes MUX_T_DATA MUX_F_FIN 5 [9; 8].

Lemma parse_craft_roundtrip_witness :
  ztake 14 (sample_frame ++ [1; 0; 0]) = frame_bytes MUX_T_DATA MUX_F_FIN 5 [9; 8].
Proof.
  eapply (parse_craft_roundtrip (sample_frame ++ [1; 0; 0])
            (mk_frame 1 MUX_T_DATA MUX_F_FIN 5 2 (Some [9; 8])) 14).
  - repeat (constructor; [unfold is_byte; vm_compute; intuition congruence |]). constructor.
  - reflexivity.
Defined.

Lemma parse_prefix_stable_witness :
  mux_parse (Some (sample_frame ++ [1; 0])) 16 = mux_parse (Some sample_frame) 14.
Proof. apply (parse_prefix_stable sample_frame [1; 0]). vm_compute. congruence. Defined.

Lemma parse_short_bounded_witness : zlen (take 13 sample_frame) < 12 + MUX_MAX_PAYLOAD.
Proof. refine (proj1 (parse_short_bounded (take 13 sample_frame) _)). reflexivity. Defined.

Lemma tlv_put_next_roundtrip_witness :
  ∃ b', mux_tlv_put (Some (replicate 16 0)) 16 2 MUX_TLV_WEIGHT (Some [0; 0; 0; 8]) 4 =
          (10, Some b') ∧
        zlen b' = 16 ∧ ztake 2 b' = [0; 0] ∧
        mux_tlv_next (Some b') 10 2 = TlvItem MUX_TLV_WEIGHT (Some [0; 0; 0; 8]) 4 10 ∧
        mux_tlv_next (Some b') 10 10 = TlvEnd.
Proof.
  apply (tlv_put_next_roundtrip (replicate 16 0) 2 MUX_TLV_WEIGHT (Some [0; 0; 0; 8]));
    vm_compute; intuition congruence.
Defined.

#[global] Arguments mux_parse : simpl never.
#[global] Arguments mux_craft : simpl never.
#[global] Arguments mux_tlv_put : simpl never.
#[global] Arguments mux_tlv_next : simpl never.
#[global] Arguments be_get32 : simpl never.
#[global] Arguments be_get16 : simpl never.
#[global] Arguments be_put32 : simpl never.
#[global] Arguments be_put16 : simpl never.
#[global] Arguments frame_bytes : simpl never.
#[global] Arguments tlv_bytes : simpl never.
