(* ===== verification/OutBuf.v ===== *)
(** The session's output buffer: [outbuf], [ob_reserve], the crafting half of
    [emit], and the drain calls of libmux/src/session.c.

    The buffer is the whole allocation ([ob_buf], [ob_cap] bytes); the live
    bytes are those between [ob_spos] and [ob_len].  The bytes a realloc adds
    are indeterminate in C and 0 here; none is read before it is stored. *)

From stdpp Require Import base list numbers.
From Stdlib Require Import ZArith Lia.
From S2P Require Import Prelude Frame.

Record outbuf := mk_outbuf {
  ob_buf : bytes;
  ob_cap : Z;
  ob_len : Z;
  ob_spos : Z;
}.

Definition ob_empty : outbuf := mk_outbuf [] 0 0 0.

Definition ob_compact (o : outbuf) : outbuf :=
  mk_outbuf (mem_write (ob_buf o) 0
               (ztake (ob_len o - ob_spos o) (zdrop (ob_spos o) (ob_buf o))))
            (ob_cap o) (ob_len o - ob_spos o) 0.

(** The growth half of [ob_reserve]: the ceiling, the doubling, the realloc. *)
Definition ob_grow (h : heap) (o : outbuf) (need limit : Z) : Z * heap * outbuf :=
  if negb (limit =? 0) && (ob_len o + need >? limit) then (MUX_ERR_NOSPACE, h, o) else
  let ncap := if negb (ob_cap o =? 0) then ob_cap o else 4096 in
  let ncap := dbl_until dbl_fuel ncap (ob_len o + need) in
  let '(ok, h) := alloc h in
  if negb ok then (MUX_ERR_NOMEM, h, o) else
  (0, h, mk_outbuf (ob_buf o ++ replicate (Z.to_nat (ncap - ob_cap o)) 0)
                   ncap (ob_len o) (ob_spos o)).

Definition ob_reserve (h : heap) (o : outbuf) (need limit : Z) : Z * heap * outbuf :=
  if ob_len o + need <=? ob_cap o then (0, h, o) else
  if ob_spos o >? 0 then
    let o := ob_compact o in
    if ob_len o + need <=? ob_cap o then (0, h, o) else ob_grow h o need limit
  else ob_grow h o need limit.

(** [mux_craft(out.buf + out.len, out.cap - out.len, ...)] and the advance of
    [out.len]: what [emit] does once the space is reserved. *)
Definition ob_craft (o : outbuf) (type flags sid : Z) (payload : view) (plen : Z)
  : Z * outbuf :=
  let '(n, dst) := mux_craft (Some (zdrop (ob_len o) (ob_buf o)))
                     (ob_cap o - ob_len o) type flags sid payload plen in
  if n <? 0 then (n, o) else
  (0, mk_outbuf (ztake (ob_len o) (ob_buf o) ++ vbytes dst)
                (ob_cap o) (ob_len o + n) (ob_spos o)).

(** The view [mux_send_buf] returns, and its length. *)
Definition ob_send_buf (o : outbuf) : bytes * Z :=
  (ztake (ob_len o - ob_spos o) (zdrop (ob_spos o) (ob_buf o)), ob_len o - ob_spos o).

Definition ob_out_pending (o : outbuf) : Z := ob_len o - ob_spos o.

Definition ob_send_advance (o : outbuf) (n : Z) : outbuf :=
  let avail := ob_len o - ob_spos o in
  let n := if n >? avail then avail else n in
  let spos := ob_spos o + n in
  if spos =? ob_len o then mk_outbuf (ob_buf o) (ob_cap o) 0 0
  else mk_outbuf (ob_buf o) (ob_cap o) (ob_len o) spos.

(** ** Specification: the buffer is a FIFO of bytes *)

Definition pending (o : outbuf) : bytes := fst (ob_send_buf o).

(** Every capacity the doubling reaches. *)
Definition ob_cap_ok (limit cap : Z) : Prop :=
  (cap = 0 ∨ ∃ k, 0 ≤ k ∧ cap = 4096 * 2 ^ k) ∧ cap ≤ Z.max 4096 (2 * limit - 1).

Definition ob_wf (limit : Z) (o : outbuf) : Prop :=
  zlen (ob_buf o) = ob_cap o ∧ 0 ≤ ob_spos o ≤ ob_len o ∧ ob_len o ≤ ob_cap o ∧
  ob_cap_ok limit (ob_cap o).

Lemma pending_len limit o : ob_wf limit o → zlen (pending o) = ob_out_pending o.
Proof.
  intros (? & ? & ? & ?). unfold pending, ob_out_pending. simpl.
  rewrite zlen_ztake; [done |]. rewrite zlen_zdrop; lia.
Qed.

Lemma ob_cap_ok_grow limit cap want :
  ob_cap_ok limit cap → cap < want → want ≤ limit → limit < 2 ^ 32 →
  let n := dbl_until dbl_fuel (if negb (cap =? 0) then cap else 4096) want in
  ob_cap_ok limit n ∧ want ≤ n ∧ cap ≤ n.
Proof.
  intros [Hc Hm] Hw Hl H32 n.
  set (n0 := if negb (cap =? 0) then cap else 4096) in *.
  assert (∃ k, 0 ≤ k ∧ n0 = 4096 * 2 ^ k ∧ cap ≤ n0 ∧ (n0 = 4096 ∨ n0 < 2 * limit))
    as (k & Hk & En & Hcn & Hn0).
  { subst n0. destruct (Z.eqb_spec cap 0) as [->|]; simpl.
    - exists 0. split_and!; lia.
    - destruct Hc as [->|(k & ? & E)]; [done |]. exists k. split_and!; lia. }
  pose proof (Z.pow_pos_nonneg 2 k ltac:(lia) Hk).
  pose proof (dbl_until_ge dbl_fuel n0 want) as Hge.
  pose proof (dbl_until_le dbl_fuel n0 want ltac:(lia)) as Hle.
  destruct (dbl_until_pow2 dbl_fuel n0 want ltac:(lia)) as (j & Hj & Ej & Hub).
  fold n in Hge, Hle, Ej, Hub. split_and!; [split | | lia].
  - right. exists (k + j). split; [lia |]. rewrite Ej, En, Z.pow_add_r by lia. lia.
  - lia.
  - apply Hge. unfold dbl_fuel. lia.
Qed.

Section OutBufSpec.
Context (limit : Z).
Hypothesis limit_range : 0 < limit < 2 ^ 32.

Lemma ob_empty_wf : ob_wf limit ob_empty.
Proof. unfold ob_wf, ob_cap_ok. simpl. rewrite zlen_nil. split_and!; auto; lia. Qed.

Lemma ob_compact_spec o :
  ob_wf limit o → ob_wf limit (ob_compact o) ∧ pending (ob_compact o) = pending o.
Proof.
  intros Hw. pose proof (pending_len limit o Hw) as Hp. destruct Hw as (Hb & Hs & Hl & Hc).
  unfold ob_compact, ob_wf. change (ztake _ (zdrop _ _)) with (pending o).
  unfold ob_out_pending in Hp. simpl. split.
  - rewrite mem_write_len by lia. split_and!; try lia. done.
  - unfold pending at 1. simpl. rewrite Z.sub_0_r, zdrop_0. unfold mem_write.
    rewrite ztake_0. cbn [app]. by apply ztake_app.
Qed.

Lemma ob_realloc_spec o ncap :
  ob_wf limit o → ob_cap o ≤ ncap → ob_cap_ok limit ncap →
  let o' := mk_outbuf (ob_buf o ++ replicate (Z.to_nat (ncap - ob_cap o)) 0)
              ncap (ob_len o) (ob_spos o) in
  ob_wf limit o' ∧ pending o' = pending o.
Proof.
  intros (Hbuf & Hs & Hl & Hc) Hle Hok. split; [unfold ob_wf | unfold pending]; simpl.
  - rewrite zlen_app. unfold zlen at 2. rewrite length_replicate. split_and!; try done; lia.
  - rewrite zdrop_app_le by lia. rewrite ztake_app_le; [done |]. rewrite zlen_zdrop; lia.
Qed.

Lemma ob_grow_spec h o need r h' o' :
  ob_wf limit o → ob_cap o < ob_len o + need →
  ob_grow h o need limit = (r, h', o') →
  ob_wf limit o' ∧ pending o' = pending o ∧ (r = 0 → ob_len o' + need ≤ ob_cap o') ∧
  (r = 0 ∨ r = MUX_ERR_NOSPACE ∧ limit < ob_len o + need ∨ r = MUX_ERR_NOMEM ∧ h ≠ []) ∧
  (h = [] → h' = []).
Proof.
  intros Hw Hn. unfold ob_grow.
  destruct (Z.eqb_spec limit 0); [lia |]. simpl.
  destruct (Z.gtb_spec (ob_len o + need) limit);
    [intros [= <- <- <-]; split_and!; auto; code_lia |].
  destruct (ob_cap_ok_grow limit (ob_cap o) (ob_len o + need)) as (Hok & Hge & Hle);
    [apply Hw | lia.. |].
  destruct (ob_realloc_spec o _ Hw Hle Hok) as [Hw' Hp'].
  destruct h as [|[] h]; simpl; intros [= <- <- <-]; split_and!; auto; try code_lia; done.
Qed.

(** Reserving keeps the pending bytes; success leaves room; failure means the
    ceiling or the allocator. *)
Lemma ob_reserve_spec h o need r h' o' :
  ob_wf limit o → 0 ≤ need →
  ob_reserve h o need limit = (r, h', o') →
  ob_wf limit o' ∧ pending o' = pending o ∧ (r = 0 → ob_len o' + need ≤ ob_cap o') ∧
  (r = 0 ∨ r = MUX_ERR_NOSPACE ∧ limit < ob_out_pending o + need ∨
   r = MUX_ERR_NOMEM ∧ h ≠ []) ∧ (h = [] → h' = []).
Proof.
  intros Hw Hn. pose proof Hw as (_ & Hs & Hl & _). unfold ob_reserve, ob_out_pending.
  destruct (Z.leb_spec (ob_len o + need) (ob_cap o));
    [intros [= <- <- <-]; split_and!; auto |].
  destruct (Z.gtb_spec (ob_spos o) 0).
  - destruct (ob_compact_spec o Hw) as [Hw' Hp'].
    assert (ob_len (ob_compact o) = ob_len o - ob_spos o) as E by done.
    destruct (Z.leb_spec (ob_len (ob_compact o) + need) (ob_cap (ob_compact o)));
      [intros [= <- <- <-]; split_and!; auto |].
    intros G. apply ob_grow_spec in G as (? & -> & ? & ? & ?); [| done | lia].
    rewrite <- E. auto.
  - intros G. apply ob_grow_spec in G as (? & -> & ? & ? & ?); [| done | lia].
    replace (ob_len o - ob_spos o) with (ob_len o) by lia. auto.
Qed.

(** Crafting into reserved space appends exactly the frame's bytes. *)
Lemma ob_craft_spec o ty fl sid payload plen :
  ob_wf limit o → 0 ≤ plen ≤ zlen (vbytes payload) → plen ≤ MUX_MAX_PAYLOAD →
  ob_len o + (MUX_HEADER_SIZE + plen) ≤ ob_cap o →
  ∃ o', ob_craft o ty fl sid payload plen = (0, o') ∧ ob_wf limit o' ∧
        pending o' = pending o ++ frame_bytes ty fl sid (ztake plen (vbytes payload)).
Proof.
  intros Hw Hp Hm Hr. destruct Hw as (Hb & Hs & Hl & Hc). unfold ob_craft.
  assert (vbytes (ztake plen <$> payload) = ztake plen (vbytes payload)) as Et
    by (destruct payload; [done |]; unfold vbytes, ztake; simpl; by rewrite take_nil).
  assert (plen = zlen (vbytes (ztake plen <$> payload))) as Hp' by (rewrite Et, zlen_ztake; lia).
  rewrite craft_trunc, craft_spec by (rewrite ?zlen_zdrop; lia). unfold MUX_HEADER_SIZE in *.
  destruct (Z.ltb_spec (12 + plen) 0); [lia |]. eexists. split; [done |].
  rewrite vbytes_Some, <- Et.
  assert (zlen (frame_bytes ty fl sid (vbytes (ztake plen <$> payload))) = 12 + plen) as Hf
    by (rewrite frame_bytes_len, <- Hp'; done).
  revert Hf. generalize (frame_bytes ty fl sid (vbytes (ztake plen <$> payload))). intros f Hf.
  split; [unfold ob_wf | unfold pending]; simpl.
  - rewrite !zlen_app, zlen_ztake, zdrop_zdrop, zlen_zdrop by lia. split_and!; done || lia.
  - rewrite zdrop_app_le by (rewrite zlen_ztake; lia).
    rewrite (ztake_zdrop_comm (ob_len o - ob_spos o)), Zplus_minus by lia.
    rewrite (assoc_L (++)), ztake_app; [done |].
    rewrite zlen_app, zlen_zdrop, zlen_ztake, Hf by (rewrite ?zlen_ztake; lia). lia.
Qed.

(** Draining drops a prefix of the pending bytes. *)
Lemma send_advance_spec o n :
  ob_wf limit o → 0 ≤ n →
  ob_wf limit (ob_send_advance o n) ∧
  pending (ob_send_advance o n) = zdrop n (pending o) ∧
  (ob_out_pending o ≤ n →
   ob_len (ob_send_advance o n) = 0 ∧ ob_spos (ob_send_advance o n) = 0).
Proof.
  intros Hw Hn. pose proof (pending_len limit o Hw) as Hp.
  destruct Hw as (Hb & Hs & Hl & Hc). unfold ob_send_advance, ob_out_pending in *.
  set (m := if n >? ob_len o - ob_spos o then _ else n).
  assert (m = Z.min n (ob_len o - ob_spos o)) as Em
    by (subst m; destruct (Z.gtb_spec n (ob_len o - ob_spos o)); lia).
  clearbody m. destruct (Z.eqb_spec (ob_spos o + m) (ob_len o)).
  - split_and!; [unfold ob_wf; simpl; split_and!; done || lia | | done].
    rewrite zdrop_all by lia. done.
  - assert (m = n) as -> by lia.
    split_and!; [unfold ob_wf; simpl; split_and!; done || lia | | lia].
    unfold pending. simpl. rewrite (ztake_zdrop_comm (ob_len o - ob_spos o)) by lia.
    rewrite ztake_zdrop_comm, zdrop_zdrop by lia. do 2 f_equal. lia.
Qed.

(** Draining.  [mux_send_advance n] removes the first [min n pending] bytes
    from the front of the pending bytes and nothing else; once everything is
    sent the storage is reused from offset 0. *)
Theorem send_advance_drops o n :
  ob_wf limit o → 0 ≤ n →
  ob_wf limit (ob_send_advance o n) ∧
  pending (ob_send_advance o n) = zdrop n (pending o) ∧
  (ob_out_pending o ≤ n →
   ob_len (ob_send_advance o n) = 0 ∧ ob_spos (ob_send_advance o n) = 0).
Proof. apply send_advance_spec. Qed.

(** A ceiling of the form 4096*2^m (the default, 64 MiB, is one) is a hard
    bound on the storage; any other one is exceeded by less than a factor 2. *)
Lemma ob_cap_pow2 o m :
  ob_wf limit o → 0 ≤ m → limit = 4096 * 2 ^ m → ob_cap o ≤ limit.
Proof.
  intros (_ & _ & _ & [[->|(k & Hk & ->)] Hm]) Hm0 E; [lia |].
  rewrite E in *. destruct (Z.le_gt_cases k m).
  - pose proof (Z.pow_le_mono_r 2 k m). lia.
  - exfalso. pose proof (Z.pow_le_mono_r 2 (m + 1) k ltac:(lia) ltac:(lia)) as Hp.
    pose proof (Z.pow_pos_nonneg 2 m ltac:(lia) Hm0). rewrite Z.pow_add_r in Hp by lia.
    destruct (decide (k = 0)); subst; lia.
Qed.
End OutBufSpec.

(** The output ceiling.  Under the ceiling check of [ob_reserve], at any
    time at most [max 4096 (2 * limit)] bytes are buffered, and at most [limit]
    when the configured ceiling is 4096*2^m, as the default is. *)
Theorem out_ceiling limit h o need m r h' o' :
  0 < limit < 2 ^ 32 → ob_wf limit o → 0 ≤ need →
  ob_reserve h o need limit = (r, h', o') →
  ob_cap o' ≤ Z.max 4096 (2 * limit) ∧
  ob_out_pending o' ≤ ob_cap o' ∧
  (0 ≤ m → limit = 4096 * 2 ^ m → ob_cap o' ≤ limit).
Proof.
  intros Hl Hw Hn Hr. apply ob_reserve_spec in Hr as (Hw' & _); auto.
  split_and!; [destruct Hw' as (_ & _ & _ & _ & ?); lia | | by apply ob_cap_pow2].
  unfold ob_out_pending. destruct Hw' as (_ & ? & ? & _). lia.
Qed.

(** The ceiling is not exact for other values.  With max_out_buffer = 5000
    two frames are accepted that leave 8024 bytes pending: the second one fits
    the storage the first one doubled to 8192, and the ceiling is only checked
    on growth. *)
Theorem out_ceiling_overshoot :
  ∃ h1 o1 o2 h3 o3 o4,
    ob_reserve [] ob_empty 4900 5000 = (0, h1, o1) ∧
    ob_craft o1 MUX_T_DATA 0 1 (Some (replicate 4888 0)) 4888 = (0, o2) ∧
    ob_reserve h1 o2 3124 5000 = (0, h3, o3) ∧
    ob_craft o3 MUX_T_DATA 0 1 (Some (replicate 3112 0)) 3112 = (0, o4) ∧
    ob_out_pending o4 = 8024 ∧ 5000 < ob_out_pending o4.
Proof.
  do 6 eexists. split_and!; [vm_compute; reflexivity.. |]. vm_compute. done.
Qed.

(** ** Witnesses *)

Definition sample_out : outbuf := mk_outbuf (replicate 4096 7) 4096 30 10.

Lemma sample_out_wf : ob_wf 65536 sample_out.
Proof.
  unfold ob_wf, sample_out. simpl. split_and!; [done | lia.. |].
  split; [right; by exists 0 | lia].
Qed.

Lemma send_advance_drops_witness :
  pending (ob_send_advance sample_out 5) = zdrop 5 (pending sample_out).
Proof.
  refine (proj1 (proj2 (send_advance_drops 65536 sample_out 5 sample_out_wf _))). lia.
Defined.

Lemma out_ceiling_witness :
  ob_cap (snd (ob_reserve [] sample_out 5000 65536)) ≤ 65536.
Proof.
  destruct (ob_reserve [] sample_out 5000 65536) as [[r h] o] eqn:E.
  refine (proj2 (proj2 (out_ceiling 65536 [] sample_out 5000 4 r h o _ sample_out_wf _ E)) _ _);
    [lia | lia | lia | done].
Defined.

#[global] Arguments ob_reserve : simpl never.
#[global] Arguments ob_craft : simpl never.
#[global] Arguments ob_send_advance : simpl never.
