(* ===== verification/EventQueue.v ===== *)
(** The event type of libmux/include/mux.h and the growable ring of
    libmux/src/session.c that queues events for [mux_next_event].

    A zero-copy view inside an event is the list of bytes it addresses when the
    event is queued (the documented lifetime: until the next [mux_recv]).  The
    slots of a fresh ring are indeterminate in C and [EV_NONE] here; none is
    read before it is stored. *)

From stdpp Require Import base list numbers.
From Stdlib Require Import ZArith Lia.
From S2P Require Import Prelude Frame.

Inductive mux_event_type :=
  | MUX_EV_NONE
  | MUX_EV_STREAM_OPENED
  | MUX_EV_STREAM_DATA
  | MUX_EV_STREAM_CLOSED
  | MUX_EV_STREAM_RESET
  | MUX_EV_WRITABLE
  | MUX_EV_PEER_HELLO
  | MUX_EV_CAPACITY
  | MUX_EV_GOAWAY
  | MUX_EV_FATAL.

(** The [hello] member of the event union. *)
Record hello_ev := mk_hello {
  h_weight : Z;
  h_max_streams : Z;
  h_init_window : Z;
  h_peer_id : view; h_peer_id_len : Z;
  h_auth : view; h_auth_len : Z;
  h_nonce : view; h_nonce_len : Z;
}.

Definition eta_hello (e : hello_ev) : hello_ev :=
  mk_hello (h_weight e) (h_max_streams e) (h_init_window e) (h_peer_id e) (h_peer_id_len e)
    (h_auth e) (h_auth_len e) (h_nonce e) (h_nonce_len e).

#[export] Instance upd_h_weight : Update h_weight.
Proof. derive_update eta_hello h_weight. Defined.
#[export] Instance upd_h_max_streams : Update h_max_streams.
Proof. derive_update eta_hello h_max_streams. Defined.
#[export] Instance upd_h_init_window : Update h_init_window.
Proof. derive_update eta_hello h_init_window. Defined.
#[export] Instance upd_h_peer_id : Update h_peer_id.
Proof. derive_update eta_hello h_peer_id. Defined.
#[export] Instance upd_h_peer_id_len : Update h_peer_id_len.
Proof. derive_update eta_hello h_peer_id_len. Defined.
#[export] Instance upd_h_auth : Update h_auth.
Proof. derive_update eta_hello h_auth. Defined.
#[export] Instance upd_h_auth_len : Update h_auth_len.
Proof. derive_update eta_hello h_auth_len. Defined.
#[export] Instance upd_h_nonce : Update h_nonce.
Proof. derive_update eta_hello h_nonce. Defined.
#[export] Instance upd_h_nonce_len : Update h_nonce_len.
Proof. derive_update eta_hello h_nonce_len. Defined.

(** [mux_event]: the tag, [sid] where the source sets it, the union member. *)
Inductive mux_event :=
  | EV_NONE (sid : Z)
  | EV_STREAM_OPENED (sid : Z) (meta : view) (meta_len : Z)
  | EV_STREAM_DATA (sid : Z) (data : view) (data_len : Z)
  | EV_STREAM_CLOSED (sid : Z)
  | EV_STREAM_RESET (sid : Z) (code : Z)
  | EV_WRITABLE (sid : Z)
  | EV_PEER_HELLO (hello : hello_ev)
  | EV_CAPACITY (weight : Z)
  | EV_GOAWAY (reason last_sid : Z)
  | EV_FATAL (code : Z).

Definition hello_zero : hello_ev := mk_hello 0 0 0 None 0 None 0 None 0.

(** An event whose union is all zeroes, as [ev_simple] builds it. *)
Definition event_zero (t : mux_event_type) (sid : Z) : mux_event :=
  match t with
  | MUX_EV_NONE => EV_NONE sid
  | MUX_EV_STREAM_OPENED => EV_STREAM_OPENED sid None 0
  | MUX_EV_STREAM_DATA => EV_STREAM_DATA sid None 0
  | MUX_EV_STREAM_CLOSED => EV_STREAM_CLOSED sid
  | MUX_EV_STREAM_RESET => EV_STREAM_RESET sid 0
  | MUX_EV_WRITABLE => EV_WRITABLE sid
  | MUX_EV_PEER_HELLO => EV_PEER_HELLO hello_zero
  | MUX_EV_CAPACITY => EV_CAPACITY 0
  | MUX_EV_GOAWAY => EV_GOAWAY 0 0
  | MUX_EV_FATAL => EV_FATAL 0
  end.

Record evq := mk_evq {
  q_ev : list mux_event;
  q_cap : Z;
  q_head : Z;
  q_count : Z;
}.

Definition evq_empty : evq := mk_evq [] 0 0 0.

(** [q->ev[i]] *)
Definition ev_at (q : evq) (i : Z) : mux_event := default (EV_NONE 0) (q_ev q !! Z.to_nat i).

(** The reallocation branch of [evq_push]: copy the live events to the front
    of a ring twice as large. *)
Definition evq_regrow (q : evq) : evq :=
  let ncap := if negb (q_cap q =? 0) then q_cap q * 2 else 64 in
  let ne := (fun i => ev_at q ((q_head q + Z.of_nat i) mod q_cap q))
              <$> seq 0 (Z.to_nat (q_count q)) in
  mk_evq (ne ++ replicate (Z.to_nat (ncap - q_count q)) (EV_NONE 0)) ncap 0 (q_count q).

Definition evq_store (q : evq) (e : mux_event) : evq :=
  mk_evq (<[Z.to_nat ((q_head q + q_count q) mod q_cap q) := e]> (q_ev q))
         (q_cap q) (q_head q) (q_count q + 1).

Definition evq_push (h : heap) (q : evq) (e : mux_event) : Z * heap * evq :=
  if q_count q =? q_cap q then
    let '(ok, h) := alloc h in
    if negb ok then (MUX_ERR_NOMEM, h, q) else (0, h, evq_store (evq_regrow q) e)
  else (0, h, evq_store q e).

(** [mux_next_event]: the popped event, if any. *)
Definition evq_pop (q : evq) : option mux_event * evq :=
  if q_count q =? 0 then (None, q) else
  (Some (ev_at q (q_head q)),
   mk_evq (q_ev q) (q_cap q) ((q_head q + 1) mod q_cap q) (q_count q - 1)).

(** ** Specification: the ring is a FIFO list of events *)

Definition evq_wf (q : evq) : Prop :=
  zlen (q_ev q) = q_cap q ∧ 0 ≤ q_count q ≤ q_cap q ∧
  0 ≤ q_head q ∧ (q_cap q = 0 ∨ q_head q < q_cap q).

Definition evq_items (q : evq) : list mux_event :=
  (fun i => ev_at q ((q_head q + Z.of_nat i) mod q_cap q))
    <$> seq 0 (Z.to_nat (q_count q)).

Lemma evq_empty_wf : evq_wf evq_empty.
Proof. unfold evq_wf. simpl. rewrite zlen_nil. split_and!; auto; lia. Qed.

Lemma evq_items_len q : 0 ≤ q_count q → zlen (evq_items q) = q_count q.
Proof. intros. unfold zlen, evq_items. rewrite length_fmap, length_seq. lia. Qed.

Lemma evq_items_lookup q i :
  (i < Z.to_nat (q_count q))%nat →
  evq_items q !! i = Some (ev_at q ((q_head q + Z.of_nat i) mod q_cap q)).
Proof.
  intros. unfold evq_items. rewrite list_lookup_fmap, lookup_seq_lt by done. done.
Qed.

(** Offsets below the capacity address distinct slots. *)
Lemma ring_inj cap head i j :
  0 < cap → 0 ≤ i < cap → 0 ≤ j < cap →
  (head + i) mod cap = (head + j) mod cap → i = j.
Proof.
  intros Hc Hi Hj E. assert ((i - j) mod cap = 0) as M.
  { replace (i - j) with ((head + i) - (head + j)) by lia.
    by rewrite Zminus_mod, E, Z.sub_diag, Z.mod_0_l by lia. }
  apply Z.mod_divide in M as [k Hk]; [| lia].
  destruct (Z.lt_trichotomy k 0) as [|[->|]]; nia.
Qed.

Lemma evq_store_spec q e :
  evq_wf q → q_count q < q_cap q →
  evq_wf (evq_store q e) ∧ evq_items (evq_store q e) = evq_items q ++ [e].
Proof.
  intros (Hl & Hc & Hh & Hx) Hlt. split.
  { unfold evq_wf. simpl. unfold zlen in *. rewrite length_insert. split_and!; lia. }
  set (q' := evq_store q e).
  assert (∀ i, 0 ≤ i < q_cap q → ev_at q' ((q_head q + i) mod q_cap q) =
               if decide (i = q_count q) then e else ev_at q ((q_head q + i) mod q_cap q)) as Hat.
  { intros i Hi. unfold ev_at, q'. simpl.
    pose proof (Z.mod_pos_bound (q_head q + i) (q_cap q) ltac:(lia)).
    pose proof (Z.mod_pos_bound (q_head q + q_count q) (q_cap q) ltac:(lia)).
    case_decide as Ei; [subst i |].
    - rewrite list_lookup_insert_eq; [done |]. unfold zlen in Hl. lia.
    - rewrite list_lookup_insert_ne; [done |]. intros E.
      apply Ei, (ring_inj (q_cap q) (q_head q)); lia. }
  unfold evq_items. change (q_count q') with (q_count q + 1).
  replace (Z.to_nat (q_count q + 1)) with (S (Z.to_nat (q_count q))) by lia.
  rewrite seq_S, fmap_app. f_equal; simpl.
  - apply list_fmap_ext. intros k x Hk. apply lookup_seq in Hk as [-> Hk].
    rewrite Hat by lia. case_decide; [lia | done].
  - rewrite Hat by lia. case_decide; [done | lia].
Qed.

Lemma evq_regrow_spec q :
  evq_wf q → q_count q = q_cap q →
  evq_wf (evq_regrow q) ∧ q_count (evq_regrow q) < q_cap (evq_regrow q) ∧
  evq_items (evq_regrow q) = evq_items q.
Proof.
  intros (Hl & Hc & Hh & _) He. unfold evq_regrow. fold (evq_items q).
  set (ncap := if negb (q_cap q =? 0) then q_cap q * 2 else 64).
  assert (q_count q < ncap) as Hn
    by (subst ncap; destruct (Z.eqb_spec (q_cap q) 0); simpl; lia).
  assert (zlen (evq_items q) = q_count q) as Hi by (apply evq_items_len; lia).
  split_and!; simpl.
  - unfold evq_wf. simpl. rewrite zlen_app, Hi. unfold zlen. rewrite length_replicate.
    split_and!; lia.
  - done.
  - apply list_eq. intros i. unfold evq_items at 1. simpl.
    rewrite list_lookup_fmap. destruct (decide (i < Z.to_nat (q_count q))%nat) as [Hlt|Hge].
    + rewrite lookup_seq_lt by done. simpl. rewrite evq_items_lookup by done.
      unfold ev_at at 1. simpl. rewrite Z.mod_small by lia.
      rewrite Z.add_0_l, Nat2Z.id, lookup_app_l by (unfold zlen in Hi; lia).
      by rewrite evq_items_lookup.
    + rewrite lookup_seq_ge by lia. simpl. symmetry. apply lookup_ge_None.
      unfold zlen in Hi. lia.
Qed.

Lemma evq_push_spec h q e :
  evq_wf q →
  ∃ r h' q', evq_push h q e = (r, h', q') ∧ evq_wf q' ∧ (h = [] → r = 0 ∧ h' = []) ∧
    (r = 0 ∧ evq_items q' = evq_items q ++ [e] ∨ r = MUX_ERR_NOMEM ∧ q' = q).
Proof.
  intros Hw. unfold evq_push. destruct (Z.eqb_spec (q_count q) (q_cap q)) as [E|E].
  - destruct (evq_regrow_spec q Hw E) as (Hw' & Hlt & Hi).
    destruct (evq_store_spec _ e Hw' Hlt) as [Hw'' Hi']. rewrite Hi in Hi'.
    destruct h as [|[] h]; simpl; do 3 eexists; (split; [done |]); split_and!; auto; done.
  - destruct (evq_store_spec q e Hw) as [Hw' Hi]; [unfold evq_wf in Hw; lia |].
    do 3 eexists. split; [done |]. auto.
Qed.

Lemma evq_pop_spec q :
  evq_wf q →
  let '(o, q') := evq_pop q in
  evq_wf q' ∧ o = head (evq_items q) ∧ evq_items q' = tail (evq_items q).
Proof.
  intros Hw. unfold evq_pop. destruct Hw as (Hl & Hc & Hh & Hcap).
  destruct (Z.eqb_spec (q_count q) 0) as [E|E].
  + unfold evq_items. rewrite E. simpl. done.
  + pose proof (Z.mod_pos_bound (q_head q + 1) (q_cap q) ltac:(lia)).
    split; [unfold evq_wf; simpl; split_and!; lia |].
    unfold evq_items. simpl.
    replace (Z.to_nat (q_count q)) with (S (Z.to_nat (q_count q - 1))) by lia.
    rewrite <- cons_seq. cbn [fmap list_fmap head tail]. split.
    * rewrite Z.add_0_r, Z.mod_small by lia. done.
    * rewrite <- fmap_S_seq, <- list_fmap_compose. apply list_fmap_ext.
      intros k x Hk. simpl. unfold ev_at. simpl.
      rewrite Zplus_mod_idemp_l. do 4 f_equal. lia.
Qed.

(** ** Properties *)

(** The event ring refines a FIFO list.  A push either appends the event at
    the back (across the wrap-around and every regrowth), or, only when the
    allocator fails, returns MUX_ERR_NOMEM and leaves the queue as it was; a pop
    returns the front event and removes it, and nothing exactly on empty. *)
Theorem evq_fifo_refinement h q e :
  evq_wf q →
  (let '(r, h', q') := evq_push h q e in
   evq_wf q' ∧
   (r = 0 ∧ evq_items q' = evq_items q ++ [e] ∨
    r = MUX_ERR_NOMEM ∧ h ≠ [] ∧ q' = q)) ∧
  (let '(o, q') := evq_pop q in
   evq_wf q' ∧ o = head (evq_items q) ∧ evq_items q' = tail (evq_items q)).
Proof.
  intros Hw. split.
  - destruct (evq_push_spec h q e Hw) as (r & h' & q' & -> & Hw' & Hh & Hc).
    split; [done |]. destruct Hc as [?|[-> ->]]; [by left |]. right.
    split_and!; [done | | done]. intros ->. by destruct (Hh eq_refl).
  - by apply evq_pop_spec.
Qed.

(** ** Witnesses *)

Definition sample_evq : evq :=
  mk_evq [EV_WRITABLE 3; EV_NONE 0; EV_STREAM_CLOSED 1; EV_FATAL 2] 4 2 3.

Lemma evq_fifo_refinement_witness :
  let '(r, h', q') := evq_push [] sample_evq (EV_CAPACITY 9) in
  evq_wf q' ∧ (r = 0 ∧ evq_items q' =
                [EV_STREAM_CLOSED 1; EV_FATAL 2; EV_WRITABLE 3; EV_CAPACITY 9] ∨
               r = MUX_ERR_NOMEM ∧ @nil bool ≠ [] ∧ q' = sample_evq).
Proof.
  refine (proj1 (evq_fifo_refinement [] sample_evq (EV_CAPACITY 9) _)).
  unfold evq_wf. vm_compute. intuition congruence.
Defined.

#[global] Arguments evq_push : simpl never.
#[global] Arguments evq_pop : simpl never.
#[global] Arguments evq_items : simpl never.
