(* ===== verification/Probe.v ===== *)
(** Open addressing with linear probing, for any slot type.

    The program has four such tables (the session's streams, the relay's sid
    map, the router's umap, libpeer's registry); they share the hash
    ([mix]: the high half of a 64-bit multiplication), a power-of-two capacity
    and the probe step [i = (i + 1) & mask].  This file is the theory the four
    models share: the probe sequence as an offset from the home slot, a generic
    bounded scan along it, the chain invariant, and counting of slots. *)

From stdpp Require Import base list numbers gmap.
From Stdlib Require Import ZArith Lia.
From S2P Require Import Prelude.

(** [(size_t)(((uint64_t)sid * 0x9e3779b97f4a7c15ull) >> 32)] *)
Definition mix (sid : Z) : Z := Z.shiftr (u64 (sid * 0x9e3779b97f4a7c15)) 32.

(** The slot [d] probes after the home slot [h]. *)
Definition pslot (cap h d : Z) : nat := Z.to_nat ((h + d) mod cap).

#[global] Arguments mix : simpl never.
#[global] Arguments pslot : simpl never.

(** Visit slots from offset [d], at most [n] of them, until [f] answers. *)
Fixpoint scan {A R} (t : list A) (cap h : Z) (f : A -> option R) (d : Z) (n : nat)
  : option (nat * R) :=
  match n with
  | O => None
  | S n' =>
      match t !! pslot cap h d with
      | None => None
      | Some e =>
          match f e with
          | Some r => Some (pslot cap h d, r)
          | None => scan t cap h f (d + 1) n'
          end
      end
  end.

(** What a slot holds, for the chain invariant. *)
Inductive cell := CEmpty | CTomb | CUsed (k : Z).

#[export] Instance cell_eq_dec : EqDecision cell.
Proof. solve_decision. Defined.

(** ** Arithmetic of the probe sequence *)

(** A power-of-two capacity, as every table here has. *)
Definition pow2 (cap : Z) : Prop := ∃ k, 0 ≤ k ∧ cap = 2 ^ k.

Lemma pow2_pos cap : pow2 cap → 0 < cap.
Proof. intros (k & ? & ->). by apply Z.pow_pos_nonneg. Qed.

Lemma pow2_mul cap : pow2 cap → pow2 (cap * 2).
Proof. intros (k & ? & ->). exists (k + 1). rewrite Z.pow_add_r by lia. lia. Qed.

Lemma pow2_dbl fuel n want : pow2 n → pow2 (dbl_until fuel n want).
Proof.
  intros Hn. destruct (dbl_until_pow2 fuel n want (pow2_pos n Hn)) as (j & Hj & -> & _).
  destruct Hn as (k & ? & ->). exists (k + j). rewrite Z.pow_add_r by done. split; lia.
Qed.

(** Masking with [cap - 1] is reduction modulo the capacity. *)
Lemma land_mask x cap : pow2 cap → Z.land x (cap - 1) = x mod cap.
Proof.
  intros (k & ? & ->). by rewrite <- Z.land_ones, Z.ones_equiv, <- Z.sub_1_r by done.
Qed.

Lemma probe_next cap h d :
  pow2 cap → Z.land ((h + d) mod cap + 1) (cap - 1) = (h + (d + 1)) mod cap.
Proof.
  intros Hc. rewrite land_mask, Zplus_mod_idemp_l by done. f_equal. lia.
Qed.

Lemma pslot_lt cap h d : 0 < cap → (pslot cap h d < Z.to_nat cap)%nat.
Proof. intros. unfold pslot. pose proof (Z.mod_pos_bound (h + d) cap). lia. Qed.

Lemma pslot_inj cap h d d' :
  0 < cap → 0 ≤ d < cap → 0 ≤ d' < cap → pslot cap h d = pslot cap h d' → d = d'.
Proof.
  unfold pslot. intros Hc Hd Hd' E.
  pose proof (Z.mod_pos_bound (h + d) cap Hc). pose proof (Z.mod_pos_bound (h + d') cap Hc).
  assert ((d - d') mod cap = 0) as M.
  { replace (d - d') with ((h + d) - (h + d')) by lia.
    rewrite Zminus_mod. replace ((h + d') mod cap) with ((h + d) mod cap) by lia.
    by rewrite Z.sub_diag, Z.mod_0_l by lia. }
  apply Z.mod_divide in M as [k Hk]; [| lia].
  destruct (Z.lt_trichotomy k 0) as [|[->|]]; nia.
Qed.

(** Every slot lies on every probe sequence. *)
Lemma pslot_surj cap h j :
  (j < Z.to_nat cap)%nat → ∃ d, 0 ≤ d < cap ∧ pslot cap h d = j.
Proof.
  intros Hj. exists ((Z.of_nat j - h) mod cap).
  split; [apply Z.mod_pos_bound; lia |]. unfold pslot.
  rewrite Zplus_mod_idemp_r, Zplus_minus, Z.mod_small by lia. lia.
Qed.

(** ** The scan *)

Section Scan.
Context {A R : Type} (t : list A) (cap h : Z) (f : A -> option R).
Hypothesis Hcap : 0 < cap.
Hypothesis Hlen : zlen t = cap.

Lemma pslot_lookup d : ∃ e, t !! pslot cap h d = Some e.
Proof.
  apply lookup_lt_is_Some. pose proof (pslot_lt cap h d Hcap). unfold zlen in Hlen. lia.
Qed.

(** The scan stops at the first slot [f] answers on. *)
Lemma scan_Some d n j r :
  scan t cap h f d n = Some (j, r) →
  ∃ d', d ≤ d' < d + Z.of_nat n ∧ j = pslot cap h d' ∧
        (∃ e, t !! j = Some e ∧ f e = Some r) ∧
        (∀ i e, d ≤ i < d' → t !! pslot cap h i = Some e → f e = None).
Proof.
  revert d. induction n as [|n IH]; intros d; simpl; [done |].
  destruct (pslot_lookup d) as [e E]. rewrite E. destruct (f e) as [r'|] eqn:F.
  - intros [= <- <-]. exists d. split_and!; [lia | lia | done | by exists e | lia].
  - intros (d' & ? & -> & ? & Hb)%IH. exists d'. split_and!; [lia | lia | done | done |].
    intros i e' Hi He. destruct (decide (i = d)) as [->|].
    + rewrite E in He. by simplify_eq.
    + apply (Hb i); [lia | done].
Qed.

Lemma scan_None d n :
  scan t cap h f d n = None →
  ∀ i e, d ≤ i < d + Z.of_nat n → t !! pslot cap h i = Some e → f e = None.
Proof.
  revert d. induction n as [|n IH]; intros d; simpl; [lia |].
  destruct (pslot_lookup d) as [e E]. rewrite E. destruct (f e) as [r'|] eqn:F; [done |].
  intros Hs i e' Hi He. destruct (decide (i = d)) as [->|].
  - rewrite E in He. by simplify_eq.
  - apply (IH _ Hs i); [lia | done].
Qed.

(** A slot [f] answers on, within the range, makes the scan answer. *)
Lemma scan_finds d n d0 e :
  d ≤ d0 < d + Z.of_nat n → t !! pslot cap h d0 = Some e → f e ≠ None →
  ∃ j r, scan t cap h f d n = Some (j, r).
Proof.
  intros Hd He Hf. destruct (scan t cap h f d n) as [[j r]|] eqn:E; [eauto |].
  by destruct Hf, (scan_None d n E d0 e).
Qed.

(** The scan answers with the given slot when no earlier one answers. *)
Lemma scan_at d n d0 e r :
  d ≤ d0 < d + Z.of_nat n → t !! pslot cap h d0 = Some e → f e = Some r →
  (∀ i e', d ≤ i < d0 → t !! pslot cap h i = Some e' → f e' = None) →
  scan t cap h f d n = Some (pslot cap h d0, r).
Proof.
  revert d. induction n as [|n IH]; intros d Hd He Hf Hb; [lia |]. simpl.
  destruct (decide (d = d0)) as [->|]; [by rewrite He, Hf |].
  destruct (pslot_lookup d) as [e' E]. rewrite E.
  rewrite (Hb d e') by (done || lia). apply IH; [lia | done | done |].
  intros i ? Hi. apply Hb. lia.
Qed.
End Scan.

(** ** Counting slots *)

Definition b2z (b : bool) : Z := if b then 1 else 0.

Fixpoint cnt {A} (P : A -> bool) (t : list A) : Z :=
  match t with
  | [] => 0
  | e :: t' => b2z (P e) + cnt P t'
  end.

Lemma cnt_insert {A} (P : A -> bool) t j e x :
  t !! j = Some e → cnt P (<[j := x]> t) = cnt P t - b2z (P e) + b2z (P x).
Proof.
  revert j. induction t as [|y t IH]; intros [|j] Hj; simplify_eq/=; [lia |].
  rewrite (IH j) by done. lia.
Qed.

Lemma cnt_nonneg {A} (P : A -> bool) t : 0 ≤ cnt P t.
Proof. induction t as [|e t IH]; simpl; [lia |]. destruct (P e); simpl; lia. Qed.

Lemma cnt_le {A} (P : A -> bool) t : cnt P t ≤ zlen t.
Proof.
  induction t as [|e t IH]; simpl; [done |].
  rewrite zlen_cons. destruct (P e); simpl; lia.
Qed.

Lemma cnt_replicate {A} (P : A -> bool) n x : cnt P (replicate n x) = b2z (P x) * Z.of_nat n.
Proof. induction n as [|n IH]; simpl; [lia |]. rewrite IH. destruct (P x); simpl; lia. Qed.

Lemma cnt_app {A} (P : A -> bool) t u : cnt P (t ++ u) = cnt P t + cnt P u.
Proof. induction t as [|e t IH]; simpl; lia. Qed.

Lemma cnt_0 {A} (P : A -> bool) t j e : cnt P t = 0 → t !! j = Some e → P e = false.
Proof.
  revert j. induction t as [|x t IH]; intros [|j] Hc Hj; simplify_eq/=;
    pose proof (cnt_nonneg P t).
  - destruct (P e); simpl in Hc; [lia | done].
  - apply (IH j); [| done]. destruct (P x); simpl in Hc; lia.
Qed.

(** Fewer than all slots satisfy [P]: some slot does not. *)
Lemma cnt_lt_exists {A} (P : A -> bool) t :
  cnt P t < zlen t → ∃ j e, t !! j = Some e ∧ P e = false.
Proof.
  induction t as [|e t IH]; simpl; [unfold zlen; simpl; lia |].
  rewrite zlen_cons. destruct (P e) eqn:E; [| by exists 0%nat, e].
  simpl. intros Hc. destruct IH as (j & e' & ? & ?); [lia |]. by exists (S j), e'.
Qed.

(** ** The chain invariant *)

Section Chain.
Context {A : Type} (cls : A -> cell).

Definition nonempty (e : A) : Prop := cls e ≠ CEmpty.

(** Used slots: at most one per key, and every slot between a key's home and
    the key's slot is non-empty, so a scan from home reaches it. *)
Record chain (t : list A) (cap : Z) : Prop := {
  chain_cap : pow2 cap;
  chain_len : zlen t = cap;
  chain_path : ∀ j e k, t !! j = Some e → cls e = CUsed k →
    ∃ d, 0 ≤ d < cap ∧ pslot cap (mix k) d = j ∧
         ∀ i e', 0 ≤ i < d → t !! pslot cap (mix k) i = Some e' → nonempty e';
  chain_uniq : ∀ j j' e e' k, t !! j = Some e → t !! j' = Some e' →
    cls e = CUsed k → cls e' = CUsed k → j = j';
}.

(** Key [k] has a used slot. *)
Definition has_key (t : list A) (k : Z) : Prop :=
  ∃ j e, t !! j = Some e ∧ cls e = CUsed k.

Lemma chain_replicate cap x :
  pow2 cap → cls x = CEmpty → chain (replicate (Z.to_nat cap) x) cap.
Proof.
  intros Hc Hx. split; [done | | |].
  - unfold zlen. rewrite length_replicate. pose proof (pow2_pos cap Hc). lia.
  - intros j e k [-> _]%lookup_replicate. congruence.
  - intros j j' e e' k [-> _]%lookup_replicate. congruence.
Qed.

(** Overwriting a slot without emptying it or changing its key. *)
Lemma chain_update t cap j e x :
  chain t cap → t !! j = Some e → nonempty x →
  (∀ k, cls x = CUsed k → cls e = CUsed k) → chain (<[j := x]> t) cap.
Proof.
  intros [Hc Hl Hp Hu] Hj Hx Hk. assert (j < length t)%nat as Hjl by by eapply lookup_lt_Some.
  split; [done | unfold zlen in *; by rewrite length_insert | |].
  - intros j1 e1 k H1 Hk1. assert (∃ e0, t !! j1 = Some e0 ∧ cls e0 = CUsed k) as (e0 & H0 & Hk0).
    { apply list_lookup_insert_Some in H1 as [(<- & <- & _)|[_ H1]]; eauto. }
    destruct (Hp j1 e0 k H0 Hk0) as (d & Hd & E & Hn). exists d. split_and!; [lia.. | done |].
    intros i e' Hi He'. apply list_lookup_insert_Some in He' as [(_ & <- & _)|[_ He']]; eauto.
  - intros j1 j2 e1 e2 k H1 H2 K1 K2.
    assert (∀ j0 e0, <[j:=x]> t !! j0 = Some e0 → cls e0 = CUsed k →
                     ∃ e', t !! j0 = Some e' ∧ cls e' = CUsed k) as Hb.
    { intros j0 e0 He0 Hk0. apply list_lookup_insert_Some in He0 as [(<- & <- & _)|[_ ?]]; eauto. }
    destruct (Hb _ _ H1 K1) as (? & ? & ?), (Hb _ _ H2 K2) as (? & ? & ?). eauto.
Qed.

(** Storing a fresh key at a slot reached through non-empty slots. *)
Lemma chain_store t cap k d x :
  chain t cap → ¬ has_key t k → 0 ≤ d < cap → cls x = CUsed k →
  (∀ k', cls <$> t !! pslot cap (mix k) d ≠ Some (CUsed k')) →
  (∀ i e, 0 ≤ i < d → t !! pslot cap (mix k) i = Some e → nonempty e) →
  chain (<[pslot cap (mix k) d := x]> t) cap.
Proof.
  intros [Hc Hl Hp Hu] Habs Hd Hx Hj Hpath. set (j := pslot cap (mix k) d) in *.
  assert (nonempty x) as Hnx by (unfold nonempty; congruence).
  split; [done | unfold zlen in *; by rewrite length_insert | |].
  - intros j1 e1 k1 H1 K1. apply list_lookup_insert_Some in H1 as [(<- & <- & _)|[Hne H1]].
    + assert (k1 = k) as -> by congruence. exists d. split_and!; [lia.. | done |].
      intros i e' Hi He'. apply list_lookup_insert_Some in He' as [(_ & <- & _)|[_ ?]]; eauto.
    + destruct (Hp j1 e1 k1 H1 K1) as (d1 & ? & E & Hn). exists d1. split_and!; [lia.. | done |].
      intros i e' Hi He'. apply list_lookup_insert_Some in He' as [(_ & <- & _)|[_ ?]]; eauto.
  - intros j1 j2 e1 e2 k1 H1 H2 K1 K2.
    apply list_lookup_insert_Some in H1 as [(<- & <- & _)|[N1 H1]];
    apply list_lookup_insert_Some in H2 as [(<- & <- & _)|[N2 H2]]; [done | | | eauto].
    all: exfalso; apply Habs; assert (k1 = k) as -> by congruence; unfold has_key; eauto.
Qed.
End Chain.
