(* ===== verification/StreamTable.v ===== *)
(** The session's stream table: [mux_stream], [st_find], [st_grow],
    [st_insert] and the slot half of [st_remove] of libmux/src/session.c.

    [stab] groups the four table fields of [struct mux_session] (tab, tab_cap,
    tab_count, tab_tombs).  A [mux_stream *] into the table is its index. *)

From stdpp Require Import base list numbers gmap.
From Stdlib Require Import ZArith Lia.
From S2P Require Import Prelude Frame Probe.

Inductive slot_t := SLOT_EMPTY | SLOT_USED | SLOT_TOMB.
Inductive life_t := LIFE_OPEN | LIFE_HCL_LOCAL | LIFE_HCL_REMOTE.

#[export] Instance slot_eq_dec : EqDecision slot_t.
Proof. solve_decision. Defined.
#[export] Instance life_eq_dec : EqDecision life_t.
Proof. solve_decision. Defined.

Record mux_stream := mk_stream {
  st_sid : Z;
  st_slot : slot_t;
  st_life : life_t;
  st_send_blocked : bool;
  st_send_win : Z;
  st_recv_win : Z;
  st_recv_pending : Z;
}.

Definition eta_stream (e : mux_stream) : mux_stream :=
  mk_stream (st_sid e) (st_slot e) (st_life e) (st_send_blocked e) (st_send_win e)
    (st_recv_win e) (st_recv_pending e).

#[export] Instance upd_st_slot : Update st_slot.
Proof. derive_update eta_stream st_slot. Defined.
#[export] Instance upd_st_life : Update st_life.
Proof. derive_update eta_stream st_life. Defined.
#[export] Instance upd_st_send_blocked : Update st_send_blocked.
Proof. derive_update eta_stream st_send_blocked. Defined.
#[export] Instance upd_st_send_win : Update st_send_win.
Proof. derive_update eta_stream st_send_win. Defined.
#[export] Instance upd_st_recv_win : Update st_recv_win.
Proof. derive_update eta_stream st_recv_win. Defined.
#[export] Instance upd_st_recv_pending : Update st_recv_pending.
Proof. derive_update eta_stream st_recv_pending. Defined.

Record stab := mk_stab {
  t_tab : list mux_stream;
  t_cap : Z;
  t_count : Z;
  t_tombs : Z;
}.

Definition stab_zero : stab := mk_stab [] 0 0 0.

(** An all-zero record: a calloc'd slot. *)
Definition stream_zero : mux_stream := mk_stream 0 SLOT_EMPTY LIFE_OPEN false 0 0 0.

(** [memset(dst, 0, ...); dst->sid = sid; dst->slot = SLOT_USED;] *)
Definition stream_fresh (sid : Z) : mux_stream :=
  mk_stream sid SLOT_USED LIFE_OPEN false 0 0 0.

Definition mix_sid (sid : Z) : Z := mix sid.

(** The probe loop of [st_find], [n] probes left. *)
Fixpoint st_find_loop (tab : list mux_stream) (mask sid i : Z) (n : nat) : option nat :=
  match n with
  | O => None
  | S n' =>
      match tab !! Z.to_nat i with
      | None => None
      | Some e =>
          if decide (st_slot e = SLOT_EMPTY) then None
          else if bool_decide (st_slot e = SLOT_USED) && (st_sid e =? sid)
          then Some (Z.to_nat i)
          else st_find_loop tab mask sid (Z.land (i + 1) mask) n'
      end
  end.

Definition st_find (t : stab) (sid : Z) : option nat :=
  if t_cap t =? 0 then None else
  let mask := t_cap t - 1 in
  st_find_loop (t_tab t) mask sid (Z.land (mix_sid sid) mask) (Z.to_nat (t_cap t)).

(** [while (nt[j].slot == SLOT_USED) j = (j + 1) & nmask;]  As many steps as
    the table has slots are enough ([rehash_step] below). *)
Fixpoint rehash_slot (nt : list mux_stream) (nmask j : Z) (n : nat) : Z :=
  match n with
  | O => j
  | S n' =>
      if bool_decide (st_slot <$> nt !! Z.to_nat j = Some SLOT_USED)
      then rehash_slot nt nmask (Z.land (j + 1) nmask) n' else j
  end.

(** One iteration of the copy loop of [st_grow]. *)
Definition rehash_one (ncap : Z) (nt : list mux_stream) (e : mux_stream) : list mux_stream :=
  if decide (st_slot e = SLOT_USED) then
    let nmask := ncap - 1 in
    let j := rehash_slot nt nmask (Z.land (mix_sid (st_sid e)) nmask) (Z.to_nat ncap) in
    <[Z.to_nat j := e]> nt
  else nt.

Definition st_grow (h : heap) (t : stab) (want_cap : Z) : Z * heap * stab :=
  let ncap := if negb (t_cap t =? 0) then t_cap t else 64 in
  let ncap := dbl_until dbl_fuel ncap want_cap in
  let '(ok, h) := alloc h in
  if negb ok then (MUX_ERR_NOMEM, h, t) else
  let nt := replicate (Z.to_nat ncap) stream_zero in
  let nt := foldl (rehash_one ncap) nt (t_tab t) in
  (0, h, mk_stab nt ncap (t_count t) 0).

(** The probe loop of [st_insert]: the destination slot and whether it is a
    reused tombstone; [None] when no slot is empty. *)
Fixpoint st_insert_loop (tab : list mux_stream) (mask i : Z) (first_tomb : option nat)
  (n : nat) : option (nat * bool) :=
  match n with
  | O => None
  | S n' =>
      match tab !! Z.to_nat i with
      | None => None
      | Some e =>
          if decide (st_slot e = SLOT_EMPTY) then
            match first_tomb with
            | Some tb => Some (tb, true)
            | None => Some (Z.to_nat i, false)
            end
          else
            let first_tomb :=
              if bool_decide (st_slot e = SLOT_TOMB) && bool_decide (first_tomb = None)
              then Some (Z.to_nat i) else first_tomb in
            st_insert_loop tab mask (Z.land (i + 1) mask) first_tomb n'
      end
  end.

(** The half of [st_insert] after the rehash. *)
Definition st_place (t : stab) (sid : Z) : option nat * stab :=
  let mask := t_cap t - 1 in
  match st_insert_loop (t_tab t) mask (Z.land (mix_sid sid) mask) None (Z.to_nat (t_cap t)) with
  | None => (None, t)
  | Some (dst, reused) =>
      (Some dst,
       mk_stab (<[dst := stream_fresh sid]> (t_tab t)) (t_cap t) (t_count t + 1)
         (if reused then t_tombs t - 1 else t_tombs t))
  end.

Definition st_insert (h : heap) (t : stab) (sid : Z) : option nat * heap * stab :=
  let '(r, h, t) :=
    if (t_count t + t_tombs t + 1) * 4 >=? t_cap t * 3 then
      let want := (t_count t + 1) * 2 in
      let want := if want <? 64 then 64 else want in
      st_grow h t want
    else (0, h, t) in
  if negb (r =? 0) then (None, h, t) else
  let '(o, t) := st_place t sid in (o, h, t).

(** [st_remove] on the table fields: the slot becomes a tombstone. *)
Definition stab_remove (t : stab) (j : nat) : stab :=
  mk_stab (alter (fun e => e <| st_send_blocked := false |> <| st_slot := SLOT_TOMB |>) j (t_tab t))
    (t_cap t) (t_count t - 1) (t_tombs t + 1).

(** [p->field = ...] through a table pointer [p = &tab[j]]. *)
Definition stab_modify (t : stab) (j : nat) (f : mux_stream -> mux_stream) : stab :=
  mk_stab (alter f j (t_tab t)) (t_cap t) (t_count t) (t_tombs t).

(** ** Specification: a finite map from stream id to record *)

Definition is_used (e : mux_stream) : bool := bool_decide (st_slot e = SLOT_USED).
Definition is_tomb (e : mux_stream) : bool := bool_decide (st_slot e = SLOT_TOMB).

Definition cls (e : mux_stream) : cell :=
  match st_slot e with
  | SLOT_EMPTY => CEmpty
  | SLOT_TOMB => CTomb
  | SLOT_USED => CUsed (st_sid e)
  end.

(** The live streams of the table, as a map. *)
Definition stab_map (t : stab) : gmap Z mux_stream :=
  list_to_map ((fun e => (st_sid e, e)) <$> filter (fun e => is_used e = true) (t_tab t)).

Record stab_wf (t : stab) : Prop := {
  wf_chain : chain cls (t_tab t) (t_cap t);
  wf_count : t_count t = cnt is_used (t_tab t);
  wf_tombs : t_tombs t = cnt is_tomb (t_tab t);
  wf_load : (t_count t + t_tombs t) * 4 < t_cap t * 3;
}.

(** ** The map view *)

(** A record is stored for key [k]. *)
Definition stored (tab : list mux_stream) (k : Z) (e : mux_stream) : Prop :=
  e ∈ tab ∧ cls e = CUsed k.

Definition uniq_keys (tab : list mux_stream) : Prop :=
  ∀ j j' e e' k, tab !! j = Some e → tab !! j' = Some e' →
    cls e = CUsed k → cls e' = CUsed k → j = j'.

Lemma chain_uniq_keys tab cap : chain cls tab cap → uniq_keys tab.
Proof. intros H. exact (chain_uniq _ _ _ H). Qed.

#[export] Hint Resolve chain_uniq_keys : core.

Lemma cls_used e k : cls e = CUsed k ↔ is_used e = true ∧ st_sid e = k.
Proof.
  unfold cls, is_used. rewrite bool_decide_eq_true.
  destruct (st_slot e); naive_solver.
Qed.

Lemma stored_uniq tab k e e' : uniq_keys tab → stored tab k e → stored tab k e' → e = e'.
Proof.
  intros Hu [[j Hj]%list_elem_of_lookup K] [[j' Hj']%list_elem_of_lookup K'].
  assert (j = j') as <- by by eapply Hu. congruence.
Qed.

Lemma stab_map_lookup t k e :
  uniq_keys (t_tab t) → stab_map t !! k = Some e ↔ stored (t_tab t) k e.
Proof.
  intros Hu. unfold stab_map.
  assert (∀ k e, (k, e) ∈ ((λ e, (st_sid e, e)) <$> filter (λ e, is_used e = true) (t_tab t))
            ↔ stored (t_tab t) k e) as Hel.
  { intros k' e'. unfold stored. rewrite cls_used, list_elem_of_fmap.
    setoid_rewrite list_elem_of_filter. naive_solver. }
  split.
  - intros H%elem_of_list_to_map_2. by apply Hel.
  - intros H. apply elem_of_list_to_map_1'; [| by apply Hel].
    intros y Hy%Hel. by eapply stored_uniq.
Qed.

(** Maps agree when they store the same records. *)
Lemma stab_map_ext t (m : gmap Z mux_stream) :
  uniq_keys (t_tab t) →
  (∀ k e, m !! k = Some e ↔ stored (t_tab t) k e) → stab_map t = m.
Proof.
  intros Hu Hm. apply map_eq. intros k. apply option_eq. intros e.
  by rewrite stab_map_lookup, Hm.
Qed.

(** Replacing slot [j]: what is stored afterwards. *)
Lemma stored_insert tab j x k e :
  uniq_keys tab → (j < length tab)%nat →
  stored (<[j := x]> tab) k e ↔
  (e = x ∧ cls x = CUsed k) ∨
  (stored tab k e ∧ ∀ k', cls <$> tab !! j = Some (CUsed k') → k ≠ k').
Proof.
  intros Hu Hj. unfold stored. rewrite !list_elem_of_lookup. split.
  - intros [[i Hi] K]. apply list_lookup_insert_Some in Hi as [(<- & <- & _)|[Hne Hi]]; [by left |].
    right. split; [eauto |]. intros k' Hk' <-. apply fmap_Some in Hk' as (e' & He' & E).
    apply Hne. by eapply Hu.
  - intros [[-> K]|[[[i Hi] K] Hk]].
    + split; [| done]. exists j. by apply list_lookup_insert_eq.
    + split; [| done]. exists i. rewrite list_lookup_insert_ne; [done |].
      intros <-. rewrite Hi in Hk. simpl in Hk. rewrite K in Hk. by apply (Hk k).
Qed.

(** ** Lookup *)

Definition find_step (sid : Z) (e : mux_stream) : option bool :=
  if decide (st_slot e = SLOT_EMPTY) then Some false
  else if bool_decide (st_slot e = SLOT_USED) && (st_sid e =? sid) then Some true
  else None.

Lemma st_find_loop_scan tab cap sid h d n :
  pow2 cap →
  st_find_loop tab (cap - 1) sid ((h + d) mod cap) n =
  match scan tab cap h (find_step sid) d n with Some (j, true) => Some j | _ => None end.
Proof.
  intros Hc. revert d. induction n as [|n IH]; intros d; [done |]. simpl.
  fold (pslot cap h d). destruct (tab !! pslot cap h d) as [e|]; [| done].
  unfold find_step. case_decide; [done |]. destruct (bool_decide _ && _); [done |].
  rewrite probe_next by done. apply IH.
Qed.

Lemma find_step_true sid e : find_step sid e = Some true ↔ cls e = CUsed sid.
Proof.
  unfold find_step, cls. case_decide as E; [rewrite E; done |].
  destruct (st_slot e); simpl; [done | | done].
  destruct (Z.eqb_spec (st_sid e) sid); split; congruence.
Qed.

(** [st_find] returns the slot of the key, and NULL exactly when it has none. *)
Lemma st_find_spec t k j :
  chain cls (t_tab t) (t_cap t) →
  st_find t k = Some j ↔ ∃ e, t_tab t !! j = Some e ∧ cls e = CUsed k.
Proof.
  intros [Hc Hl Hp Hu]. pose proof (pow2_pos _ Hc) as Hpos. unfold st_find.
  destruct (Z.eqb_spec (t_cap t) 0); [lia |]. rewrite land_mask by done.
  rewrite <- (Z.add_0_r (mix_sid k)), st_find_loop_scan by done. unfold mix_sid.
  set (s := scan _ _ _ _ _ _). split.
  - destruct s as [[j' []]|] eqn:E; [| done | done]. intros [= ->].
    apply scan_Some in E as (d & _ & _ & (e & He & Hf) & _); [| done | done].
    apply find_step_true in Hf. eauto.
  - intros (e & He & K). destruct (Hp j e k He K) as (d & Hd & <- & Hn).
    subst s. rewrite (scan_at _ _ _ _ Hpos Hl 0 _ d e true); [done | lia | done | |].
    + by apply find_step_true.
    + intros i e' Hi He'. pose proof (Hn i e' Hi He') as Hne. unfold find_step.
      case_decide as E; [unfold nonempty, cls in Hne; by rewrite E in Hne |].
      destruct (bool_decide _ && _) eqn:B; [| done]. exfalso.
      assert (cls e' = CUsed k) as K'.
      { apply cls_used. unfold is_used. apply andb_true_iff in B as [-> ->%Z.eqb_eq]. done. }
      pose proof (Hu _ _ _ _ _ He' He K' K) as Ei. apply pslot_inj in Ei; lia.
Qed.

Lemma st_find_None t k :
  chain cls (t_tab t) (t_cap t) → st_find t k = None ↔ ¬ has_key cls (t_tab t) k.
Proof.
  intros Hc. rewrite eq_None_not_Some. unfold has_key, is_Some.
  setoid_rewrite (st_find_spec t k _ Hc). naive_solver.
Qed.

(** ** Insertion *)

(** Where the insertion loop stops, given an empty slot ahead of it. *)
Lemma st_insert_loop_spec tab cap h d ft n :
  pow2 cap → zlen tab = cap → 0 ≤ d → d + Z.of_nat n = cap →
  (∀ i e, 0 ≤ i < d → tab !! pslot cap h i = Some e → nonempty cls e) →
  match ft with
  | None => True
  | Some tb => ∃ d0 e, 0 ≤ d0 < d ∧ tb = pslot cap h d0 ∧ tab !! tb = Some e ∧ is_tomb e = true
  end →
  (∃ d1 e, d ≤ d1 < cap ∧ tab !! pslot cap h d1 = Some e ∧ st_slot e = SLOT_EMPTY) →
  ∃ d1 e reused,
    st_insert_loop tab (cap - 1) ((h + d) mod cap) ft n = Some (pslot cap h d1, reused) ∧
    0 ≤ d1 < cap ∧ tab !! pslot cap h d1 = Some e ∧
    st_slot e = (if reused : bool then SLOT_TOMB else SLOT_EMPTY) ∧
    (∀ i e, 0 ≤ i < d1 → tab !! pslot cap h i = Some e → nonempty cls e).
Proof.
  intros Hc Hl. revert d ft. induction n as [|n IH];
    intros d ft Hd Hn Hne Hft (d1 & e1 & Hd1 & He1 & Hs1); [lia |].
  simpl. fold (pslot cap h d).
  destruct (pslot_lookup tab cap h (pow2_pos _ Hc) Hl d) as [e E]. rewrite E.
  case_decide as Hs.
  - destruct ft as [tb|].
    + destruct Hft as (d0 & e0 & ? & -> & He0 & Ht). exists d0, e0, true.
      split_and!; [done | lia | lia | done | by apply bool_decide_eq_true in Ht |].
      intros i e' Hi. apply Hne. lia.
    + exists d, e, false. split_and!; try done; lia.
  - rewrite probe_next by done. apply IH; [lia | lia | | |].
    + intros i e' Hi He'. destruct (decide (i = d)) as [->|]; [| apply (Hne i); done || lia].
      rewrite E in He'. simplify_eq. unfold nonempty, cls. by destruct (st_slot e').
    + destruct (bool_decide_reflect (st_slot e = SLOT_TOMB)) as [Ht|]; simpl.
      * destruct ft as [tb|]; simpl.
        -- destruct Hft as (d0 & e0 & ? & Hft). exists d0, e0. split; [lia | done].
        -- exists d, e. split_and!; [lia | lia | done | done |]. by apply bool_decide_eq_true.
      * destruct ft as [tb|]; [| done].
        destruct Hft as (d0 & e0 & ? & Hft). exists d0, e0. split; [lia | done].
    + exists d1, e1. split; [| done]. destruct (decide (d1 = d)) as [->|]; [| lia].
      rewrite E in He1. by simplify_eq.
Qed.

(** A table below its load factor has an empty slot. *)
Lemma empty_slot_exists tab :
  cnt is_used tab + cnt is_tomb tab < zlen tab →
  ∃ j e, tab !! j = Some e ∧ st_slot e = SLOT_EMPTY.
Proof.
  intros H.
  assert (∀ l, cnt (fun e => is_used e || is_tomb e) l = cnt is_used l + cnt is_tomb l) as Hs.
  { induction l as [|e l IH]; simpl; [done |]. rewrite IH. unfold is_used, is_tomb.
    destruct (st_slot e); simpl; lia. }
  rewrite <- Hs in H. apply cnt_lt_exists in H as (j & e & Hj & He). exists j, e.
  split; [done |]. unfold is_used, is_tomb in He. by destruct (st_slot e).
Qed.

(** The destination [st_insert] finds in a chained table with an empty slot. *)
Lemma st_insert_dst tab cap sid :
  chain cls tab cap → cnt is_used tab + cnt is_tomb tab < cap →
  ∃ d e reused,
    st_insert_loop tab (cap - 1) (Z.land (mix_sid sid) (cap - 1)) None (Z.to_nat cap) =
      Some (pslot cap (mix sid) d, reused) ∧
    0 ≤ d < cap ∧ tab !! pslot cap (mix sid) d = Some e ∧
    st_slot e = (if reused : bool then SLOT_TOMB else SLOT_EMPTY) ∧
    (∀ i e, 0 ≤ i < d → tab !! pslot cap (mix sid) i = Some e → nonempty cls e).
Proof.
  intros [Hc Hl _ _] Hlt. pose proof (pow2_pos _ Hc).
  rewrite land_mask by done. rewrite <- (Z.add_0_r (mix_sid sid)).
  apply st_insert_loop_spec; try done; [lia | lia |].
  destruct (empty_slot_exists tab) as (j & e & Hj & He); [lia |].
  destruct (pslot_surj cap (mix sid) j) as (d & Hd & Ed).
  { apply lookup_lt_Some in Hj. unfold zlen in Hl. lia. }
  exists d, e. unfold mix_sid. rewrite Ed. done.
Qed.

(** Storing the fresh record for an absent key. *)
Lemma stab_store_spec t sid d e reused :
  stab_wf t → ¬ has_key cls (t_tab t) sid →
  (t_count t + t_tombs t + 1) * 4 < t_cap t * 3 →
  0 ≤ d < t_cap t → t_tab t !! pslot (t_cap t) (mix sid) d = Some e →
  st_slot e = (if reused : bool then SLOT_TOMB else SLOT_EMPTY) →
  (∀ i e, 0 ≤ i < d → t_tab t !! pslot (t_cap t) (mix sid) i = Some e → nonempty cls e) →
  let t' := mk_stab (<[pslot (t_cap t) (mix sid) d := stream_fresh sid]> (t_tab t)) (t_cap t)
              (t_count t + 1) (if reused then t_tombs t - 1 else t_tombs t) in
  stab_wf t' ∧ stab_map t' = <[sid := stream_fresh sid]> (stab_map t).
Proof.
  intros [Hch Hco Hto Hld] Habs Hload Hd He Hs Hpath t'.
  set (j := pslot (t_cap t) (mix sid) d) in *.
  assert (chain cls (t_tab t') (t_cap t')) as Hch'.
  { apply (chain_store cls (t_tab t) (t_cap t) sid d); try done.
    intros k. change (pslot _ _ _) with j. rewrite He. simpl. unfold cls.
    rewrite Hs. by destruct reused. }
  assert (is_used e = false ∧ is_tomb e = reused) as [Hue Hte].
  { unfold is_used, is_tomb. rewrite Hs. by destruct reused. }
  split.
  - split; [exact Hch' | | |]; cbn [t_tab t_cap t_count t_tombs t'].
    + rewrite (cnt_insert _ _ _ _ _ He), Hue. simpl. lia.
    + rewrite (cnt_insert _ _ _ _ _ He), Hte. destruct reused; simpl; lia.
    + destruct reused; lia.
  - apply stab_map_ext; [by eapply chain_uniq_keys |]. intros k x. cbn [t_tab t'].
    rewrite stored_insert by (by eauto using lookup_lt_Some).
    rewrite lookup_insert. case_decide as Ek; [subst k |].
    + split; [intros [= <-]; by left |]. intros [[-> _]|[[Hx K] _]]; [done |].
      destruct Habs. apply list_elem_of_lookup in Hx as [i Hi]. by exists i, x.
    + rewrite stab_map_lookup by eauto. split.
      * intros Hx. right. split; [done |]. rewrite He. simpl. unfold cls. rewrite Hs.
        by destruct reused.
      * intros [[-> K]|[? _]]; [| done]. unfold cls, stream_fresh in K. simpl in K. congruence.
Qed.

(** ** Rehashing *)

Lemma rehash_slot_spec nt cap h d n :
  pow2 cap → zlen nt = cap → 0 ≤ d → d + Z.of_nat n = cap →
  (∀ i e, 0 ≤ i < d → nt !! pslot cap h i = Some e → is_used e = true) →
  (∃ d1 e, d ≤ d1 < cap ∧ nt !! pslot cap h d1 = Some e ∧ is_used e = false) →
  ∃ d1 e, 0 ≤ d1 < cap ∧
    rehash_slot nt (cap - 1) ((h + d) mod cap) n = (h + d1) mod cap ∧
    nt !! pslot cap h d1 = Some e ∧ is_used e = false ∧
    (∀ i e, 0 ≤ i < d1 → nt !! pslot cap h i = Some e → is_used e = true).
Proof.
  intros Hc Hl. revert d. induction n as [|n IH];
    intros d Hd Hn Hne (d1 & e1 & Hd1 & He1 & Hs1); [lia |].
  simpl. fold (pslot cap h d).
  destruct (pslot_lookup nt cap h (pow2_pos _ Hc) Hl d) as [e E]. rewrite E. simpl.
  destruct (is_used e) eqn:Hu.
  - rewrite bool_decide_eq_true_2 by (apply bool_decide_eq_true in Hu; congruence).
    rewrite probe_next by done. apply IH; [lia | lia | |].
    + intros i e' Hi He'. destruct (decide (i = d)) as [->|]; [| apply (Hne i); done || lia].
      rewrite E in He'. by simplify_eq.
    + exists d1, e1. split; [| done]. destruct (decide (d1 = d)) as [->|]; [| lia].
      rewrite E in He1. simplify_eq. congruence.
  - rewrite bool_decide_eq_false_2 by (apply bool_decide_eq_false in Hu; congruence).
    exists d, e. split_and!; done || lia.
Qed.

(** The state of the new table during the copy loop. *)
Record rehashing (nt : list mux_stream) (ncap : Z) : Prop := {
  rh_chain : chain cls nt ncap;
  rh_tombs : cnt is_tomb nt = 0;
}.

Lemma rehash_one_used nt ncap e k :
  rehashing nt ncap → cls e = CUsed k → ¬ has_key cls nt k → cnt is_used nt < ncap →
  let nt' := rehash_one ncap nt e in
  rehashing nt' ncap ∧ cnt is_used nt' = cnt is_used nt + 1 ∧
  (∀ k' e', stored nt' k' e' ↔ stored nt k' e' ∨ e' = e ∧ k' = k).
Proof.
  intros [Hch Hto] K Habs Hlt nt'. pose proof K as [Hu Hk]%cls_used.
  pose proof Hch as [Hc Hl _ _]. pose proof (pow2_pos _ Hc).
  destruct (cnt_lt_exists is_used nt) as (j & x & Hj & Hx); [lia |].
  destruct (pslot_surj ncap (mix k) j) as (d0 & Hd0 & Ed).
  { apply lookup_lt_Some in Hj. unfold zlen in Hl. lia. }
  destruct (rehash_slot_spec nt ncap (mix k) 0 (Z.to_nat ncap))
    as (d & y & Hd & Er & Hy & Huy & Hb); try done; [lia | lia | |].
  { exists d0, x. rewrite Ed. done. }
  assert (nt' = <[pslot ncap (mix k) d := e]> nt) as ->.
  { unfold nt', rehash_one. rewrite decide_True by by apply bool_decide_eq_true in Hu.
    rewrite Hk. unfold mix_sid. rewrite land_mask by done.
    rewrite <- (Z.add_0_r (mix k)) at 1. by rewrite Er. }
  assert (is_tomb y = false) as Hty by by eapply cnt_0.
  assert (is_tomb e = false) as Hte
    by (apply bool_decide_eq_true in Hu; by apply bool_decide_eq_false; rewrite Hu).
  assert (cls y = CEmpty) as Cy.
  { unfold cls, is_used, is_tomb in *. by destruct (st_slot y). }
  split_and!; [split | |].
  - apply chain_store; try done.
    + rewrite Hy. simpl. rewrite Cy. done.
    + intros i e' Hi He'. pose proof (Hb i e' Hi He') as U%bool_decide_eq_true.
      unfold nonempty, cls. by rewrite U.
  - rewrite (cnt_insert _ _ _ _ _ Hy), Hty, Hte, Hto. done.
  - rewrite (cnt_insert _ _ _ _ _ Hy), Huy, Hu. simpl. lia.
  - intros k' e'. rewrite stored_insert by eauto using lookup_lt_Some.
    rewrite Hy. simpl. rewrite Cy. split.
    + intros [[-> K']|[? _]]; [right | by left]. split; congruence.
    + intros [?|[-> ->]]; [right | by left]. split; [done |]. done.
Qed.

Lemma uniq_keys_cons e l : uniq_keys (e :: l) → uniq_keys l.
Proof.
  intros Hu j j' x x' k Hj Hj' K K'.
  assert (S j = S j') by (by eapply (Hu (S j) (S j'))). lia.
Qed.

Lemma stored_cons e l k x :
  stored (e :: l) k x ↔ (x = e ∧ cls e = CUsed k) ∨ stored l k x.
Proof. unfold stored. rewrite elem_of_cons. naive_solver. Qed.

(** The copy loop of [st_grow] moves exactly the used records. *)
Lemma rehash_all l nt ncap :
  rehashing nt ncap → uniq_keys l →
  (∀ e k, stored l k e → ¬ has_key cls nt k) →
  cnt is_used nt + cnt is_used l < ncap →
  let nt' := foldl (rehash_one ncap) nt l in
  rehashing nt' ncap ∧ cnt is_used nt' = cnt is_used nt + cnt is_used l ∧
  (∀ k e, stored nt' k e ↔ stored nt k e ∨ stored l k e).
Proof.
  revert nt. induction l as [|x l IH]; intros nt Hr Hu Hf Hlt; simpl.
  { split_and!; [done | lia |]. intros k e. unfold stored at 3. set_solver. }
  simpl in Hlt. pose proof (cnt_nonneg is_used l).
  destruct (is_used x) eqn:Ux; simpl in Hlt |- *.
  - assert (cls x = CUsed (st_sid x)) as Kx by by apply cls_used.
    assert (¬ has_key cls nt (st_sid x)) as Habs by (apply (Hf x), stored_cons; auto).
    destruct (rehash_one_used nt ncap x (st_sid x) Hr Kx Habs) as (Hr' & Hc' & Hs'); [lia |].
    destruct (IH (rehash_one ncap nt x) Hr') as (? & ? & Hs); [by eapply uniq_keys_cons | | lia |].
    + intros e k Hse (j & e' & Hj & K').
      assert (stored (rehash_one ncap nt x) k e') as [?|[-> ->]]%Hs'
        by (split; [by eapply list_elem_of_lookup_2 | done]).
      * apply (Hf e k); [apply stored_cons; by right |].
        destruct H0 as [[i Hi]%list_elem_of_lookup ?]. by exists i, e'.
      * destruct Hse as [[i Hi]%list_elem_of_lookup K].
        pose proof (Hu 0%nat (S i) x e (st_sid x) eq_refl Hi Kx K). done.
    + split_and!; [done | lia |]. intros k e. rewrite Hs, Hs', stored_cons.
      assert (cls x = CUsed k ↔ k = st_sid x) by (rewrite Kx; split; congruence). tauto.
  - assert (rehash_one ncap nt x = nt) as ->.
    { unfold rehash_one. apply bool_decide_eq_false in Ux. by rewrite decide_False. }
    destruct (IH nt Hr) as (? & ? & Hs); [by eapply uniq_keys_cons | | lia |].
    + intros e k Hse. apply (Hf e k), stored_cons. by right.
    + split_and!; [done | lia |]. intros k e. rewrite Hs, stored_cons.
      assert (cls x ≠ CUsed k) by (rewrite cls_used, Ux; intros [? _]; done). tauto.
Qed.

(** [st_grow]: the same streams in a larger table without tombstones. *)
Lemma st_grow_spec h t want :
  uniq_keys (t_tab t) → t_cap t = 0 ∨ pow2 (t_cap t) →
  t_count t = cnt is_used (t_tab t) → t_count t ≤ t_cap t → t_count t * 2 < want →
  64 ≤ want ≤ 2 ^ 64 * Z.max 1 (t_cap t) →
  ∃ r h' t', st_grow h t want = (r, h', t') ∧ (h = [] → r = 0 ∧ h' = []) ∧
    (r = MUX_ERR_NOMEM ∧ t' = t ∨
     r = 0 ∧ stab_wf t' ∧ stab_map t' = stab_map t ∧ t_count t' = t_count t ∧
     t_tombs t' = 0 ∧ want ≤ t_cap t').
Proof.
  intros Hu Hcap Hco Hle Hw Hr. unfold st_grow.
  set (n0 := if negb (t_cap t =? 0) then t_cap t else 64).
  assert (pow2 n0 ∧ Z.max 1 (t_cap t) ≤ n0) as [Hn0 Hn1].
  { subst n0. destruct (Z.eqb_spec (t_cap t) 0) as [E|E]; simpl.
    - split; [by exists 6 | lia].
    - destruct Hcap as [?|Hcap]; [done |]. pose proof (pow2_pos _ Hcap). split; [done | lia]. }
  set (n := dbl_until dbl_fuel n0 want).
  assert (want ≤ n) as Hn by (apply dbl_until_ge; unfold dbl_fuel; lia).
  assert (pow2 n) as Hpn by by apply pow2_dbl.
  destruct (rehash_all (t_tab t) (replicate (Z.to_nat n) stream_zero) n)
    as (Hrh & Hc & Hs); [split | done | | |].
  - by apply chain_replicate.
  - rewrite cnt_replicate. done.
  - intros e k _ (j & x & [-> _]%lookup_replicate & K). done.
  - rewrite cnt_replicate. simpl. lia.
  - set (nt := foldl _ _ _) in *.
    assert (stab_wf (mk_stab nt n (t_count t) 0)) as Hwf.
    { split; simpl; [apply Hrh | | symmetry; apply Hrh |].
      - rewrite Hc, cnt_replicate. simpl. lia.
      - lia. }
    assert (stab_map (mk_stab nt n (t_count t) 0) = stab_map t) as Hm.
    { apply stab_map_ext; [by eapply chain_uniq_keys, Hrh |]. intros k e.
      rewrite stab_map_lookup by done. simpl. rewrite Hs. split; [by right |].
      intros [[Hx K]|]; [| done]. apply elem_of_replicate in Hx as [-> _]. done. }
    destruct h as [|[] h]; simpl; do 3 eexists; (split; [done |]); split; try done; auto 10.
Qed.

(** ** The operations against the map *)

Lemma stab_count_lt t : stab_wf t → 0 ≤ t_count t < t_cap t ∧ 0 ≤ t_tombs t.
Proof.
  intros [_ Hc Ht Hl]. rewrite Hc, Ht in *.
  pose proof (cnt_nonneg is_used (t_tab t)). pose proof (cnt_nonneg is_tomb (t_tab t)). lia.
Qed.

(** The bounded probe always finds a slot for an absent key. *)
Lemma st_place_spec t sid :
  stab_wf t → stab_map t !! sid = None →
  (t_count t + t_tombs t + 1) * 4 < t_cap t * 3 →
  ∃ j t', st_place t sid = (Some j, t') ∧ stab_wf t' ∧
    t_tab t' !! j = Some (stream_fresh sid) ∧
    stab_map t' = <[sid := stream_fresh sid]> (stab_map t) ∧ t_count t' = t_count t + 1.
Proof.
  intros Hw Hm Hl. pose proof (stab_count_lt t Hw).
  pose proof (chain_uniq_keys _ _ (wf_chain t Hw)) as Hu.
  assert (¬ has_key cls (t_tab t) sid) as Habs.
  { intros (i & x & Hi & K). enough (stab_map t !! sid = Some x) by congruence.
    apply stab_map_lookup; [done |]. split; [by eapply list_elem_of_lookup_2 | done]. }
  unfold st_place.
  destruct (st_insert_dst (t_tab t) (t_cap t) sid) as (d & e & ru & -> & Hd & He & Hs & Hp);
    [apply Hw | rewrite <- (wf_count t), <- (wf_tombs t) by done; lia |].
  destruct (stab_store_spec t sid d e ru Hw) as [Hw' Hm']; try done.
  do 2 eexists. split; [done |]. split_and!; try done.
  apply list_lookup_insert_eq. by eapply lookup_lt_Some.
Qed.

Lemma st_insert_spec h t sid :
  stab_wf t → stab_map t !! sid = None →
  ∃ o h' t', st_insert h t sid = (o, h', t') ∧ (h = [] → o ≠ None ∧ h' = []) ∧
    (o = None ∧ t' = t ∨
     ∃ j, o = Some j ∧ stab_wf t' ∧ t_tab t' !! j = Some (stream_fresh sid) ∧
          stab_map t' = <[sid := stream_fresh sid]> (stab_map t) ∧
          t_count t' = t_count t + 1).
Proof.
  intros Hw Hm. pose proof (stab_count_lt t Hw) as [Hcl Htl].
  unfold st_insert. rewrite Z.geb_leb.
  destruct (Z.leb_spec (t_cap t * 3) ((t_count t + t_tombs t + 1) * 4)) as [Hg|Hg].
  - set (want := if (t_count t + 1) * 2 <? 64 then 64 else (t_count t + 1) * 2).
    assert (64 ≤ want ∧ t_count t * 2 + 2 ≤ want ∧ (want = 64 ∨ want = t_count t * 2 + 2)) as Hwant
      by (subst want; destruct (Z.ltb_spec ((t_count t + 1) * 2) 64); lia).
    destruct (st_grow_spec h t want) as (r & h' & t' & E & Hh & Hcase);
      [eapply chain_uniq_keys, Hw | right; apply Hw | apply Hw | lia | lia | lia |].
    rewrite E. destruct Hcase as [[-> ->]|(-> & Hw' & Hm' & Hc' & Ht' & Hcap')].
    + simpl. do 3 eexists. split; [done |]. split; [| by left]. intros ->.
      by destruct (Hh eq_refl).
    + rewrite Z.eqb_refl. simpl. rewrite <- Hm' in Hm |- *.
      destruct (st_place_spec t' sid Hw' Hm) as (j & t'' & -> & ? & ? & ? & ?); [lia |].
      do 3 eexists. split; [done |]. split; [intros ->; by destruct (Hh eq_refl) |].
      right. exists j. rewrite <- Hc'. done.
  - rewrite Z.eqb_refl. simpl.
    destruct (st_place_spec t sid Hw Hm Hg) as (j & t'' & -> & ?).
    do 3 eexists. split; [done |]. split; [done |]. right. by exists j.
Qed.

Lemma used_flags e : st_slot e = SLOT_USED → is_used e = true ∧ is_tomb e = false.
Proof. intros H. unfold is_used, is_tomb. by rewrite H. Qed.

Lemma tomb_flags e : st_slot e = SLOT_TOMB → is_used e = false ∧ is_tomb e = true.
Proof. intros H. unfold is_used, is_tomb. by rewrite H. Qed.

(** Writing through a pointer: the slot and key of the record stay. *)
Lemma stab_modify_spec t j e f :
  stab_wf t → t_tab t !! j = Some e → st_slot e = SLOT_USED →
  st_slot (f e) = SLOT_USED → st_sid (f e) = st_sid e →
  stab_wf (stab_modify t j f) ∧
  stab_map (stab_modify t j f) = <[st_sid e := f e]> (stab_map t) ∧
  t_tab (stab_modify t j f) = <[j := f e]> (t_tab t).
Proof.
  intros [Hch Hc Ht Hl] Hj Hs Hs' Hk.
  assert (alter f j (t_tab t) = <[j := f e]> (t_tab t)) as Ea by by apply list_alter_insert.
  assert (cls e = CUsed (st_sid e)) as K by (unfold cls; by rewrite Hs).
  assert (cls (f e) = CUsed (st_sid e)) as K' by (unfold cls; rewrite Hs'; by rewrite Hk).
  assert (chain cls (<[j := f e]> (t_tab t)) (t_cap t)) as Hch'.
  { apply (chain_update cls _ _ _ e); try done; [by unfold nonempty; rewrite K' |].
    intros k. congruence. }
  unfold stab_modify. rewrite Ea. split_and!; [split | | done]; simpl; try done.
  - destruct (used_flags e Hs) as [U1 U2], (used_flags (f e) Hs') as [U3 U4].
    rewrite (cnt_insert _ _ _ _ _ Hj), ?U1, ?U2, ?U3, ?U4. unfold b2z. lia.
  - destruct (used_flags e Hs) as [U1 U2], (used_flags (f e) Hs') as [U3 U4].
    rewrite (cnt_insert _ _ _ _ _ Hj), ?U1, ?U2, ?U3, ?U4. unfold b2z. lia.
  - apply stab_map_ext; [by eapply chain_uniq_keys |]. intros k x. simpl.
    rewrite stored_insert by eauto using lookup_lt_Some. rewrite Hj. simpl. rewrite K, K'.
    rewrite lookup_insert. case_decide as Ek; [subst k |].
    + split; [intros [= <-]; by left |]. intros [[-> _]|[_ Hne]]; [done |]. by destruct (Hne (st_sid e)).
    + rewrite stab_map_lookup by eauto. split; [| intros [[-> ?]|[? _]]; congruence || done].
      intros Hx. right. split; [done |]. congruence.
Qed.

Lemma stab_remove_spec t j e :
  stab_wf t → t_tab t !! j = Some e → st_slot e = SLOT_USED →
  stab_wf (stab_remove t j) ∧ stab_map (stab_remove t j) = delete (st_sid e) (stab_map t).
Proof.
  intros [Hch Hc Ht Hl] Hj Hs.
  set (x := e <| st_send_blocked := false |> <| st_slot := SLOT_TOMB |>).
  pose proof (list_alter_insert
    (fun e => e <| st_send_blocked := false |> <| st_slot := SLOT_TOMB |>) _ _ _ Hj) as Ea.
  assert (cls e = CUsed (st_sid e)) as K by (unfold cls; by rewrite Hs).
  assert (chain cls (<[j := x]> (t_tab t)) (t_cap t)) as Hch'
    by (by apply (chain_update cls _ _ _ e)).
  unfold stab_remove. rewrite Ea. cbv beta. fold x. split; [split |]; simpl; try done.
  - destruct (used_flags e Hs) as [U1 U2], (tomb_flags x eq_refl) as [U3 U4].
    rewrite (cnt_insert _ _ _ _ _ Hj), ?U1, ?U2, ?U3, ?U4. unfold b2z. lia.
  - destruct (used_flags e Hs) as [U1 U2], (tomb_flags x eq_refl) as [U3 U4].
    rewrite (cnt_insert _ _ _ _ _ Hj), ?U1, ?U2, ?U3, ?U4. unfold b2z. lia.
  - lia.
  - apply stab_map_ext; [by eapply chain_uniq_keys |]. intros k y. simpl.
    rewrite stored_insert by eauto using lookup_lt_Some. rewrite Hj. simpl. rewrite K.
    rewrite lookup_delete. case_decide as Ek; [subst k |].
    + split; [done |]. intros [[_ ?]|[_ Hne]]; [done |]. by destruct (Hne (st_sid e)).
    + rewrite stab_map_lookup by eauto. split; [| intros [[_ ?]|[? _]]; done].
      intros Hx. right. split; [done |]. congruence.
Qed.

(** [st_find] against the map. *)
Lemma st_find_map t k :
  stab_wf t →
  match st_find t k with
  | Some j => ∃ e, t_tab t !! j = Some e ∧ st_slot e = SLOT_USED ∧ st_sid e = k ∧
                   stab_map t !! k = Some e
  | None => stab_map t !! k = None
  end.
Proof.
  intros Hw. pose proof (wf_chain t Hw) as Hch. destruct (st_find t k) as [j|] eqn:E.
  - apply st_find_spec in E as (e & Hj & K); [| done]. exists e. pose proof K as [Hu Hk]%cls_used.
    split_and!; [done | by apply bool_decide_eq_true in Hu | done |].
    apply stab_map_lookup; [eauto |]. split; [by eapply list_elem_of_lookup_2 | done].
  - apply st_find_None in E; [| done]. apply eq_None_not_Some. intros [e He].
    apply stab_map_lookup in He as [[i Hi]%list_elem_of_lookup K]; [| eauto].
    apply E. by exists i, e.
Qed.

(** The table [mux_session_new] starts from. *)
Lemma stab_init_spec h want :
  64 ≤ want ≤ 2 ^ 64 →
  ∃ r h' t', st_grow h stab_zero want = (r, h', t') ∧ (h = [] → r = 0 ∧ h' = []) ∧
    (r = MUX_ERR_NOMEM ∨ r = 0 ∧ stab_wf t' ∧ stab_map t' = ∅ ∧ t_count t' = 0).
Proof.
  intros Hw. destruct (st_grow_spec h stab_zero want) as (r & h' & t' & E & Hh & Hc);
    simpl; [by intros j j' e | by left | done | done | lia | lia |].
  exists r, h', t'. split_and!; [done | done |].
  destruct Hc as [[-> _]|(-> & ? & -> & -> & _)]; [by left | by right].
Qed.

(** [tab_count] is the number of live streams. *)
Lemma stab_count_size t : stab_wf t → t_count t = Z.of_nat (size (stab_map t)).
Proof.
  intros Hw. rewrite (wf_count t Hw). pose proof (chain_uniq_keys _ _ (wf_chain t Hw)) as Hu.
  unfold stab_map. generalize dependent (t_tab t). clear. intros l Hu.
  induction l as [|e l IH]; [done |]. specialize (IH (uniq_keys_cons _ _ Hu)). simpl.
  rewrite IH. destruct (is_used e) eqn:E.
  - rewrite filter_cons_True, fmap_cons by done. cbn [list_to_map foldr curry uncurry].
    rewrite map_size_insert_None; [rewrite Nat2Z.inj_succ; unfold b2z; lia |].
    apply not_elem_of_list_to_map_1. rewrite <- list_fmap_compose.
    intros (x & Hk & Hx)%list_elem_of_fmap. simpl in Hk.
    apply list_elem_of_filter in Hx as [Ux [i Hi]%list_elem_of_lookup].
    assert (0%nat = S i); [| done].
    eapply (Hu 0%nat (S i) e x (st_sid e)); [done | done | by apply cls_used |].
    apply cls_used. by rewrite Hk.
  - rewrite filter_cons_False by (by rewrite E). done.
Qed.

(** ** Properties *)

(** Lookup and removal refine the map.  [st_find] returns a slot exactly
    for the live ids, and that slot holds the id's record; removing it deletes
    that id from the map, keeps the table well formed (every other stream stays
    reachable by its probe sequence past the tombstone) and counts one stream
    fewer. *)
Theorem table_find_remove t sid :
  stab_wf t →
  match st_find t sid with
  | None => stab_map t !! sid = None
  | Some j =>
      stab_map t !! sid = t_tab t !! j ∧ is_Some (stab_map t !! sid) ∧
      stab_wf (stab_remove t j) ∧
      stab_map (stab_remove t j) = delete sid (stab_map t) ∧
      t_count (stab_remove t j) = Z.of_nat (size (stab_map t)) - 1
  end.
Proof.
  intros Hw. pose proof (st_find_map t sid Hw) as Hf.
  destruct (st_find t sid) as [j|]; [| done]. destruct Hf as (e & Hj & Hs & <- & Hm).
  destruct (stab_remove_spec t j e Hw Hj Hs) as [Hw' Hm'].
  rewrite <- (stab_count_size t Hw), Hj, Hm. split_and!; done.
Qed.

(** Insertion refines the map.  For an absent id [st_insert] adds the
    zeroed record under that id and nothing else, through tombstone reuse and
    rehashing alike, and the returned slot is where [st_find] then finds it; it
    returns NULL only when the allocator failed, and then changes nothing. *)
Theorem table_insert h t sid :
  stab_wf t → stab_map t !! sid = None →
  let '(o, h', t') := st_insert h t sid in
  match o with
  | None => h ≠ [] ∧ t' = t
  | Some j =>
      stab_wf t' ∧ stab_map t' = <[sid := stream_fresh sid]> (stab_map t) ∧
      st_find t' sid = Some j
  end.
Proof.
  intros Hw Hm. destruct (st_insert_spec h t sid Hw Hm) as (o & h' & t' & -> & Hh & Hc).
  destruct Hc as [[-> ->]|(j & -> & Hw' & Hj & Hm' & _)].
  - split; [| done]. intros ->. by destruct (Hh eq_refl).
  - split_and!; [done | done |]. apply st_find_spec; [apply Hw' |]. by eexists.
Qed.

(** ** Witnesses *)

(** A table holding streams 1, 3 and 5, with stream 3 then removed. *)
Definition sample_stab : stab :=
  let ins t sid := (st_insert [] t sid).2 in
  stab_remove (ins (ins (ins (st_grow [] stab_zero 64).2 1) 3) 5)
    (default 0%nat (st_find (ins (ins (ins (st_grow [] stab_zero 64).2 1) 3) 5) 3)).

Lemma sample_stab_wf : stab_wf sample_stab.
Proof.
  unfold sample_stab.
  destruct (stab_init_spec [] 64) as (r0 & h0 & t0 & E0 & Hh0 & C0); [lia |].
  destruct (Hh0 eq_refl) as [-> ->]. destruct C0 as [?|(_ & W0 & M0 & _)]; [done |].
  rewrite E0. cbn [snd].
  destruct (st_insert_spec [] t0 1 W0) as (o1 & h1 & t1 & E1 & Hh1 & C1); [by rewrite M0 |].
  destruct (Hh1 eq_refl) as [N1 ->]. destruct C1 as [[? _]|(j1 & -> & W1 & _ & M1 & _)]; [done |].
  rewrite E1. cbn [snd].
  destruct (st_insert_spec [] t1 3 W1) as (o2 & h2 & t2 & E2 & Hh2 & C2);
    [by rewrite M1, lookup_insert_ne, M0 |].
  destruct (Hh2 eq_refl) as [N2 ->]. destruct C2 as [[? _]|(j2 & -> & W2 & _ & M2 & _)]; [done |].
  rewrite E2. cbn [snd].
  destruct (st_insert_spec [] t2 5 W2) as (o3 & h3 & t3 & E3 & Hh3 & C3);
    [by rewrite M2, lookup_insert_ne, M1, lookup_insert_ne, M0 |].
  destruct (Hh3 eq_refl) as [N3 ->]. destruct C3 as [[? _]|(j3 & -> & W3 & _ & M3 & _)]; [done |].
  rewrite E3. cbn [snd].
  pose proof (st_find_map t3 3 W3) as F. destruct (st_find t3 3) as [j|].
  - destruct F as (e & Hj & Hs & _). by apply (stab_remove_spec t3 j e).
  - exfalso. rewrite M3, M2, lookup_insert_ne, lookup_insert_eq in F; done.
Qed.

Lemma table_find_remove_witness :
  match st_find sample_stab 5 with
  | None => stab_map sample_stab !! 5 = None
  | Some j => stab_map (stab_remove sample_stab j) = delete 5 (stab_map sample_stab)
  end.
Proof.
  pose proof (table_find_remove sample_stab 5 sample_stab_wf) as H.
  destruct (st_find sample_stab 5); [apply H | exact H].
Defined.

Lemma table_insert_witness :
  let '(o, h', t') := st_insert [] sample_stab 3 in
  match o with
  | None => @nil bool ≠ [] ∧ t' = sample_stab
  | Some j =>
      stab_wf t' ∧ stab_map t' = <[3 := stream_fresh 3]> (stab_map sample_stab) ∧
      st_find t' 3 = Some j
  end.
Proof. refine (table_insert [] sample_stab 3 sample_stab_wf _). vm_compute. reflexivity. Defined.

#[global] Arguments st_find : simpl never.
#[global] Arguments st_insert : simpl never.
#[global] Arguments st_grow : simpl never.
#[global] Arguments stab_remove : simpl never.
#[global] Arguments stab_modify : simpl never.
#[global] Arguments stab_map : simpl never.
