(* ===== verification/Session.v ===== *)
(** The session state machine of libmux/src/session.c: its state, its frame
    handlers and the public API of libmux/include/mux.h.

    [mux_session] has the fields of [struct mux_session]; the four table fields
    are grouped in [s_tab], and [s_heap] is the allocator oracle the session's
    calls consume.  A handler takes the session and returns it; an API call
    returns its result beside it.  [int]/[uint8_t] truth values are [bool]s.
    Signed 64-bit windows are plain integers: SessionInv shows that they stay
    far from the ends of int64_t.  A [mux_stream *] is an index into the table.
    The NULL-handle and NULL-out-parameter tests of the API have no
    counterpart: a session is always present; nullable data pointers are
    views. *)

From stdpp Require Import base list numbers gmap.
From Stdlib Require Import ZArith Lia.
From S2P Require Import Prelude Frame OutBuf EventQueue StreamTable.

Definition MUX_DEFAULT_INIT_WINDOW : Z := 256 * 1024.
Definition MUX_DEFAULT_SESSION_WINDOW : Z := 16 * 1024 * 1024.
Definition MUX_DEFAULT_MAX_STREAMS : Z := 65536.
Definition MUX_DEFAULT_HEARTBEAT_MS : Z := 15000.
Definition MUX_MAX_DATA_FRAME : Z := 64 * 1024.
Definition MUX_MAX_META : Z := 8192.
Definition MUX_DEFAULT_MAX_OUT_BUFFER : Z := 64 * 1024 * 1024.
Definition MUX_EVENT_QUEUE_SOFT_CAP : Z := 4096.
Definition HELLO_BLOB_MAX : Z := 256.

Inductive mux_role := MUX_DIALER | MUX_ACCEPTOR.

#[export] Instance mux_role_eq_dec : EqDecision mux_role.
Proof. solve_decision. Defined.

Record mux_config := mk_config {
  c_init_window : Z;
  c_session_window : Z;
  c_max_streams : Z;
  c_heartbeat_ms : Z;
  c_keepalive_timeout_ms : Z;
  c_weight : Z;
  c_max_out_buffer : Z;
  c_peer_id : view; c_peer_id_len : Z;
  c_auth : view; c_auth_len : Z;
  c_nonce : view; c_nonce_len : Z;
}.

Record mux_session := mk_session {
  s_role : mux_role;
  s_dead : bool;
  s_init_window : Z;
  s_session_window : Z;
  s_max_streams : Z;
  s_peer_init_window : Z;
  s_peer_max_streams : Z;
  s_send_win : Z;
  s_recv_win : Z;
  s_recv_pending : Z;
  s_blocked_count : Z;
  s_peer_hello_seen : bool;
  s_hello_sent : bool;
  s_local_goaway : bool;
  s_peer_id : view; s_peer_id_len : Z;
  s_auth : view; s_auth_len : Z;
  s_nonce : view; s_nonce_len : Z;
  s_weight : Z;
  s_next_local_sid : Z;
  s_max_remote_sid : Z;
  s_tab : stab;
  s_heartbeat_ms : Z;
  s_keepalive_timeout_ms : Z;
  s_timer_started : bool;
  s_ping_outstanding : bool;
  s_ping_due_ms : Z;
  s_ping_sent_ms : Z;
  s_ping_nonce : Z;
  s_max_out_buffer : Z;
  s_out : outbuf;
  s_q : evq;
  s_heap : heap;
}.

Definition eta_session (s : mux_session) : mux_session :=
  mk_session (s_role s) (s_dead s) (s_init_window s) (s_session_window s)
    (s_max_streams s) (s_peer_init_window s) (s_peer_max_streams s) (s_send_win s)
    (s_recv_win s) (s_recv_pending s) (s_blocked_count s) (s_peer_hello_seen s)
    (s_hello_sent s) (s_local_goaway s) (s_peer_id s) (s_peer_id_len s) (s_auth s)
    (s_auth_len s) (s_nonce s) (s_nonce_len s) (s_weight s) (s_next_local_sid s)
    (s_max_remote_sid s) (s_tab s) (s_heartbeat_ms s) (s_keepalive_timeout_ms s)
    (s_timer_started s) (s_ping_outstanding s) (s_ping_due_ms s) (s_ping_sent_ms s)
    (s_ping_nonce s) (s_max_out_buffer s) (s_out s) (s_q s) (s_heap s).

#[export] Instance upd_s_dead : Update s_dead.
Proof. derive_update eta_session s_dead. Defined.
#[export] Instance upd_s_peer_init_window : Update s_peer_init_window.
Proof. derive_update eta_session s_peer_init_window. Defined.
#[export] Instance upd_s_peer_max_streams : Update s_peer_max_streams.
Proof. derive_update eta_session s_peer_max_streams. Defined.
#[export] Instance upd_s_send_win : Update s_send_win.
Proof. derive_update eta_session s_send_win. Defined.
#[export] Instance upd_s_recv_win : Update s_recv_win.
Proof. derive_update eta_session s_recv_win. Defined.
#[export] Instance upd_s_recv_pending : Update s_recv_pending.
Proof. derive_update eta_session s_recv_pending. Defined.
#[export] Instance upd_s_blocked_count : Update s_blocked_count.
Proof. derive_update eta_session s_blocked_count. Defined.
#[export] Instance upd_s_peer_hello_seen : Update s_peer_hello_seen.
Proof. derive_update eta_session s_peer_hello_seen. Defined.
#[export] Instance upd_s_hello_sent : Update s_hello_sent.
Proof. derive_update eta_session s_hello_sent. Defined.
#[export] Instance upd_s_local_goaway : Update s_local_goaway.
Proof. derive_update eta_session s_local_goaway. Defined.
#[export] Instance upd_s_peer_id : Update s_peer_id.
Proof. derive_update eta_session s_peer_id. Defined.
#[export] Instance upd_s_peer_id_len : Update s_peer_id_len.
Proof. derive_update eta_session s_peer_id_len. Defined.
#[export] Instance upd_s_auth : Update s_auth.
Proof. derive_update eta_session s_auth. Defined.
#[export] Instance upd_s_auth_len : Update s_auth_len.
Proof. derive_update eta_session s_auth_len. Defined.
#[export] Instance upd_s_nonce : Update s_nonce.
Proof. derive_update eta_session s_nonce. Defined.
#[export] Instance upd_s_nonce_len : Update s_nonce_len.
Proof. derive_update eta_session s_nonce_len. Defined.
#[export] Instance upd_s_next_local_sid : Update s_next_local_sid.
Proof. derive_update eta_session s_next_local_sid. Defined.
#[export] Instance upd_s_max_remote_sid : Update s_max_remote_sid.
Proof. derive_update eta_session s_max_remote_sid. Defined.
#[export] Instance upd_s_tab : Update s_tab.
Proof. derive_update eta_session s_tab. Defined.
#[export] Instance upd_s_timer_started : Update s_timer_started.
Proof. derive_update eta_session s_timer_started. Defined.
#[export] Instance upd_s_ping_outstanding : Update s_ping_outstanding.
Proof. derive_update eta_session s_ping_outstanding. Defined.
#[export] Instance upd_s_ping_due_ms : Update s_ping_due_ms.
Proof. derive_update eta_session s_ping_due_ms. Defined.
#[export] Instance upd_s_ping_sent_ms : Update s_ping_sent_ms.
Proof. derive_update eta_session s_ping_sent_ms. Defined.
#[export] Instance upd_s_ping_nonce : Update s_ping_nonce.
Proof. derive_update eta_session s_ping_nonce. Defined.
#[export] Instance upd_s_out : Update s_out.
Proof. derive_update eta_session s_out. Defined.
#[export] Instance upd_s_q : Update s_q.
Proof. derive_update eta_session s_q. Defined.
#[export] Instance upd_s_heap : Update s_heap.
Proof. derive_update eta_session s_heap. Defined.

(** ** Session primitives *)

(** [p->field = ...] for [p = &s->tab[j]]. *)
Definition st_modify (s : mux_session) (j : nat) (f : mux_stream -> mux_stream) : mux_session :=
  s <| s_tab ::= fun t => stab_modify t j f |>.

(** [s->tab[j]] *)
Definition st_at (s : mux_session) (j : nat) : mux_stream :=
  default stream_zero (t_tab (s_tab s) !! j).

Definition set_blocked (s : mux_session) (j : nat) (blocked : bool) : mux_session :=
  if blocked && negb (st_send_blocked (st_at s j)) then
    st_modify s j (fun e => e <| st_send_blocked := true |>)
      <| s_blocked_count ::= fun n => n + 1 |>
  else if negb blocked && st_send_blocked (st_at s j) then
    st_modify s j (fun e => e <| st_send_blocked := false |>)
      <| s_blocked_count ::= fun n => n - 1 |>
  else s.

(** [(void)evq_push(&s->q, &e);] *)
Definition push (s : mux_session) (e : mux_event) : mux_session :=
  let '(_, h, q) := evq_push (s_heap s) (s_q s) e in
  s <| s_q := q |> <| s_heap := h |>.

Definition ev_simple (s : mux_session) (t : mux_event_type) (sid : Z) : mux_session :=
  push s (event_zero t sid).

Definition raise_fatal (s : mux_session) (code : Z) : mux_session :=
  if s_dead s then s else push (s <| s_dead := true |>) (EV_FATAL code).

Definition emit (s : mux_session) (type flags sid : Z) (payload : view) (plen : Z)
  : Z * mux_session :=
  let '(r, h, o) := ob_reserve (s_heap s) (s_out s) (MUX_HEADER_SIZE + plen) (s_max_out_buffer s) in
  let s := s <| s_out := o |> <| s_heap := h |> in
  if negb (r =? 0) then (MUX_ERR_NOSPACE, raise_fatal s MUX_CODE_INTERNAL) else
  let '(n, o) := ob_craft (s_out s) type flags sid payload plen in
  if n <? 0 then (n, s) else (0, s <| s_out := o |>).

Definition st_remove (s : mux_session) (j : nat) : mux_session :=
  let s := if st_send_blocked (st_at s j)
           then s <| s_blocked_count ::= fun n => n - 1 |> else s in
  s <| s_tab ::= fun t => stab_remove t j |>.

Definition close_stream (s : mux_session) (j : nat) : mux_session := st_remove s j.

(** ** Construction *)

(** [dup_blob]: the copy, NULL when there is nothing to copy or no memory. *)
Definition dup_blob (h : heap) (p : view) (n : Z) : view * heap :=
  if bool_decide (p = None) || (n =? 0) then (None, h) else
  let '(ok, h) := alloc h in
  (if ok then Some (ztake n (vbytes p)) else None, h).

Definition nz (v dflt : Z) : Z := if negb (v =? 0) then v else dflt.

(** ** Handshake *)

Definition put_u32_tlv (buf : view) (cap off t v : Z) : Z * view :=
  mux_tlv_put buf cap off t (Some (be_put32 v)) 4.

(** The state of [send_hello]'s TLV chain: the buffer and the offset, or the
    negative code it returns with. *)
Abbreviation tlv_chain := (Z + (view * Z))%type.

(** The macros TLV_U32 and TLV_BLOB. *)
Definition TLV_U32 (c : tlv_chain) (t v : Z) : tlv_chain :=
  match c with
  | inl e => inl e
  | inr (blob, off) =>
      let '(r, blob) := put_u32_tlv blob 1024 off t v in
      if r <? 0 then inl r else inr (blob, r)
  end.

Definition TLV_BLOB (c : tlv_chain) (t : Z) (p : view) (n : Z) : tlv_chain :=
  match c with
  | inl e => inl e
  | inr (blob, off) =>
      if negb (n =? 0) then
        let '(r, blob) := mux_tlv_put blob 1024 off t p (u16 n) in
        if r <? 0 then inl r else inr (blob, r)
      else c
  end.

(** The TLVs of a HELLO, in order. *)
Definition hello_blob (s : mux_session) : tlv_chain :=
  let c := inr (Some (replicate 1024 0), 0) in
  let c := TLV_U32 c MUX_TLV_WEIGHT (s_weight s) in
  let c := TLV_U32 c MUX_TLV_MAX_STREAMS (s_max_streams s) in
  let c := TLV_U32 c MUX_TLV_INIT_WINDOW (s_init_window s) in
  let c := TLV_U32 c MUX_TLV_SESSION_WINDOW (s_session_window s) in
  let c := TLV_U32 c MUX_TLV_HEARTBEAT_MS (s_heartbeat_ms s) in
  let c := TLV_BLOB c MUX_TLV_PEER_ID (s_peer_id s) (s_peer_id_len s) in
  let c := TLV_BLOB c MUX_TLV_AUTH (s_auth s) (s_auth_len s) in
  TLV_BLOB c MUX_TLV_NONCE (s_nonce s) (s_nonce_len s).

Definition send_hello (s : mux_session) (ack : bool) : Z * mux_session :=
  match hello_blob s with
  | inl r => (r, s)
  | inr (blob, off) =>
      let '(e, s) := emit s (if ack then MUX_T_HELLO_ACK else MUX_T_HELLO) 0
                       MUX_SID_CONTROL blob (u32 off) in
      (e, if e =? 0 then s <| s_hello_sent := true |> else s)
  end.

(** [if (len) { s->f = dup_blob(p, len); if (!s->f) goto fail; s->f_len = len; }]:
    the stored copy and its length, [None] for the failure exit. *)
Definition new_blob (h : heap) (p : view) (len : Z) : option (view * Z * heap) :=
  if negb (len =? 0) then
    match dup_blob h p len with
    | (None, _) => None
    | (Some d, h) => Some (Some d, len, h)
    end
  else Some (None, 0, h).

(** The calloc'd record with the scalar assignments of [mux_session_new]. *)
Definition session_init (h : heap) (cfg : mux_config) (role : mux_role) : mux_session :=
  let hb := c_heartbeat_ms cfg in
  let session_window := nz (c_session_window cfg) MUX_DEFAULT_SESSION_WINDOW in
  mk_session role false
    (nz (c_init_window cfg) MUX_DEFAULT_INIT_WINDOW)
    session_window
    (nz (c_max_streams cfg) MUX_DEFAULT_MAX_STREAMS)
    MUX_DEFAULT_INIT_WINDOW MUX_DEFAULT_MAX_STREAMS
    MUX_DEFAULT_SESSION_WINDOW session_window 0 0
    false false false
    None 0 None 0 None 0 (c_weight cfg)
    (match role with MUX_DIALER => 1 | MUX_ACCEPTOR => 2 end) 0
    stab_zero hb
    (if negb (c_keepalive_timeout_ms cfg =? 0) then c_keepalive_timeout_ms cfg
     else if negb (hb =? 0) then u32 (hb * 3) else 0)
    false false 0 0 0
    (nz (c_max_out_buffer cfg) MUX_DEFAULT_MAX_OUT_BUFFER)
    ob_empty evq_empty h.

Definition mux_session_new (h : heap) (cfg : mux_config) (role : mux_role) : option mux_session :=
  if (c_peer_id_len cfg >? HELLO_BLOB_MAX) || (c_auth_len cfg >? HELLO_BLOB_MAX)
     || (c_nonce_len cfg >? HELLO_BLOB_MAX) then None else
  let '(ok, h) := alloc h in
  if negb ok then None else
  let s := session_init h cfg role in
  '(p, n, h) ← new_blob (s_heap s) (c_peer_id cfg) (c_peer_id_len cfg);
  let s := s <| s_peer_id := p |> <| s_peer_id_len := n |> <| s_heap := h |> in
  '(p, n, h) ← new_blob (s_heap s) (c_auth cfg) (c_auth_len cfg);
  let s := s <| s_auth := p |> <| s_auth_len := n |> <| s_heap := h |> in
  '(p, n, h) ← new_blob (s_heap s) (c_nonce cfg) (c_nonce_len cfg);
  let s := s <| s_nonce := p |> <| s_nonce_len := n |> <| s_heap := h |> in
  let want := s_max_streams s * 2 in
  let want := if want <? 64 then 64 else want in
  let '(r, h, t) := st_grow (s_heap s) (s_tab s) want in
  let s := s <| s_tab := t |> <| s_heap := h |> in
  if negb (r =? 0) then None else
  match role with
  | MUX_DIALER =>
      let '(r, s) := send_hello s false in
      if negb (r =? 0) then None else Some s
  | MUX_ACCEPTOR => Some s
  end.

(** ** Flow-control crediting *)

(** [credit_emit]: the session and the values of [*win] and [*pending].  Each
    round credits up to 2^32-1 bytes, so [pending / 0xFFFFFFFF + 1] rounds are
    enough ([credit_emit_spec]). *)
Fixpoint credit_loop (fuel : nat) (s : mux_session) (sid win pending : Z)
  : mux_session * Z * Z :=
  match fuel with
  | O => (s, win, pending)
  | S k =>
      if pending >? 0 then
        let chunk := if pending >? 0xFFFFFFFF then 0xFFFFFFFF else u32 pending in
        let '(r, s) := emit s MUX_T_WINDOW_UPDATE 0 sid (Some (be_put32 chunk)) 4 in
        if negb (r =? 0) then (s, win, pending)
        else credit_loop k s sid (win + chunk) (pending - chunk)
      else (s, win, pending)
  end.

Definition credit_emit (s : mux_session) (sid win pending : Z) : mux_session * Z * Z :=
  credit_loop (Z.to_nat (pending / 0xFFFFFFFF + 1)) s sid win pending.

Definition credit_stream (s : mux_session) (j : nat) : mux_session :=
  let st := st_at s j in
  if st_recv_pending st <=? 0 then s else
  if st_recv_pending st * 2 <? s_init_window s then s else
  let '(s, win, pending) := credit_emit s (st_sid st) (st_recv_win st) (st_recv_pending st) in
  st_modify s j (fun e => e <| st_recv_win := win |> <| st_recv_pending := pending |>).

Definition credit_session (s : mux_session) : mux_session :=
  if s_recv_pending s <=? 0 then s else
  if s_recv_pending s * 2 <? s_session_window s then s else
  let '(s, win, pending) := credit_emit s MUX_SID_CONTROL (s_recv_win s) (s_recv_pending s) in
  s <| s_recv_win := win |> <| s_recv_pending := pending |>.

(** ** Frame handlers *)

(** [fl & F] as a truth value. *)
Definition has_flag (fl f : Z) : bool := negb (Z.land fl f =? 0).

(** The [emit] of an RST frame with an error code, its result ignored. *)
Definition emit_rst (s : mux_session) (sid code : Z) : mux_session :=
  snd (emit s MUX_T_DATA MUX_F_RST sid (Some (be_put32 code)) 4).

(** The SYN branch of [on_data]. *)
Definition on_syn (s : mux_session) (f : mux_frame_t) : mux_session :=
  let fl := f_flags f in
  if negb (s_peer_hello_seen s) then raise_fatal s MUX_CODE_PROTOCOL else
  let want_odd := match s_role s with MUX_DIALER => 0 | MUX_ACCEPTOR => 1 end in
  if negb (Z.land (f_sid f) 1 =? want_odd) then raise_fatal s MUX_CODE_PROTOCOL else
  if f_sid f =? MUX_SID_CONTROL then raise_fatal s MUX_CODE_PROTOCOL else
  if bool_decide (st_find (s_tab s) (f_sid f) ≠ None) then raise_fatal s MUX_CODE_PROTOCOL else
  if f_sid f <=? s_max_remote_sid s then raise_fatal s MUX_CODE_PROTOCOL else
  if f_len f >? MUX_MAX_META then raise_fatal s MUX_CODE_PROTOCOL else
  if (t_count (s_tab s) >=? s_max_streams s) || s_local_goaway s then
    emit_rst s (f_sid f) MUX_CODE_REFUSED <| s_max_remote_sid := f_sid f |>
  else
  let '(o, h, t) := st_insert (s_heap s) (s_tab s) (f_sid f) in
  let s := s <| s_tab := t |> <| s_heap := h |> in
  match o with
  | None => raise_fatal s MUX_CODE_INTERNAL
  | Some j =>
      let s := st_modify s j (fun e => e <| st_life := LIFE_OPEN |>
                                         <| st_send_win := s_peer_init_window s |>
                                         <| st_recv_win := s_init_window s |>) in
      let s := s <| s_max_remote_sid := f_sid f |> in
      let s := push s (EV_STREAM_OPENED (f_sid f) (f_payload f) (f_len f)) in
      if has_flag fl MUX_F_RST then close_stream (ev_simple s MUX_EV_STREAM_RESET (f_sid f)) j else
      if has_flag fl MUX_F_FIN then
        ev_simple (st_modify s j (fun e => e <| st_life := LIFE_HCL_REMOTE |>))
          MUX_EV_STREAM_CLOSED (f_sid f)
      else s
  end.

(** The FIN tail of [on_data]. *)
Definition on_fin (s : mux_session) (f : mux_frame_t) (j : nat) : mux_session :=
  if has_flag (f_flags f) MUX_F_FIN then
    let s := ev_simple s MUX_EV_STREAM_CLOSED (f_sid f) in
    if decide (st_life (st_at s j) = LIFE_HCL_LOCAL) then close_stream s j
    else st_modify s j (fun e => e <| st_life := LIFE_HCL_REMOTE |>)
  else s.

(** Abort of one stream by the receiver: RST on the wire, RESET to the host. *)
Definition abort_stream (s : mux_session) (sid code : Z) (j : nat) : mux_session :=
  let s := emit_rst s sid code in
  let s := ev_simple s MUX_EV_STREAM_RESET sid in
  close_stream s j.

Definition on_data (s : mux_session) (f : mux_frame_t) : mux_session :=
  let fl := f_flags f in
  if has_flag fl MUX_F_SYN then on_syn s f else
  if f_sid f =? MUX_SID_CONTROL then raise_fatal s MUX_CODE_PROTOCOL else
  match st_find (s_tab s) (f_sid f) with
  | None => s
  | Some j =>
      if has_flag fl MUX_F_RST then
        let code := if f_len f >=? 4 then be_get32 (vbytes (f_payload f)) else MUX_CODE_NO_ERROR in
        close_stream (push s (EV_STREAM_RESET (f_sid f) code)) j
      else if f_len f >? 0 then
        if decide (st_life (st_at s j) = LIFE_HCL_REMOTE) then
          abort_stream s (f_sid f) MUX_CODE_PROTOCOL j
        else if f_len f >? s_recv_win s then raise_fatal s MUX_CODE_FLOW_CONTROL
        else if f_len f >? st_recv_win (st_at s j) then
          abort_stream s (f_sid f) MUX_CODE_FLOW_CONTROL j
        else
          let s := st_modify s j (fun e => e <| st_recv_win ::= fun w => w - f_len f |>) in
          let s := s <| s_recv_win ::= fun w => w - f_len f |> in
          let s := push s (EV_STREAM_DATA (f_sid f) (f_payload f) (f_len f)) in
          on_fin s f j
      else on_fin s f j
  end.

(** One iteration of the sweep of [on_window_update]. *)
Definition wake_one (s : mux_session) (i : nat) : mux_session :=
  let st := st_at s i in
  if bool_decide (st_slot st = SLOT_USED) && st_send_blocked st && (st_send_win st >? 0) then
    ev_simple (set_blocked s i false) MUX_EV_WRITABLE (st_sid st)
  else s.

Definition wake_sweep (s : mux_session) : mux_session :=
  foldl wake_one s (seq 0 (Z.to_nat (t_cap (s_tab s)))).

(** The connection-window half of [on_window_update]. *)
Definition grant_session (s : mux_session) (credit : Z) : mux_session :=
  let was_blocked := s_send_win s <=? 0 in
  let s := s <| s_send_win ::= fun w => w + credit |> in
  if s_send_win s >? Z.shiftl 1 48 then raise_fatal s MUX_CODE_FLOW_CONTROL else
  if was_blocked && (s_send_win s >? 0) && (s_blocked_count s >? 0) then wake_sweep s else s.

(** The stream-window half, for the stream [sid] at slot [j]. *)
Definition grant_stream (s : mux_session) (sid : Z) (j : nat) (credit : Z) : mux_session :=
  let s := st_modify s j (fun e => e <| st_send_win ::= fun w => w + credit |>) in
  if st_send_win (st_at s j) >? Z.shiftl 1 48 then raise_fatal s MUX_CODE_FLOW_CONTROL else
  if st_send_blocked (st_at s j) && (st_send_win (st_at s j) >? 0) && (s_send_win s >? 0) then
    ev_simple (set_blocked s j false) MUX_EV_WRITABLE sid
  else s.

Definition on_window_update (s : mux_session) (f : mux_frame_t) : mux_session :=
  if negb (f_len f =? 4) then raise_fatal s MUX_CODE_PROTOCOL else
  let credit := be_get32 (vbytes (f_payload f)) in
  if f_sid f =? MUX_SID_CONTROL then grant_session s credit else
  match st_find (s_tab s) (f_sid f) with
  | None => s
  | Some j => grant_stream s (f_sid f) j credit
  end.

Definition on_ping (s : mux_session) (f : mux_frame_t) : mux_session :=
  if negb (f_sid f =? MUX_SID_CONTROL) || negb (f_len f =? 8) then
    raise_fatal s MUX_CODE_PROTOCOL else
  if has_flag (f_flags f) MUX_F_ACK then s <| s_ping_outstanding := false |> else
  snd (emit s MUX_T_PING MUX_F_ACK MUX_SID_CONTROL (f_payload f) 8).

Definition on_goaway (s : mux_session) (f : mux_frame_t) : mux_session :=
  if negb (f_sid f =? MUX_SID_CONTROL) then raise_fatal s MUX_CODE_PROTOCOL else
  if f_len f <? 8 then raise_fatal s MUX_CODE_PROTOCOL else
  push s (EV_GOAWAY (be_get32 (vbytes (f_payload f)))
                    (be_get32 (zdrop 4 (vbytes (f_payload f))))).

Definition on_capacity (s : mux_session) (f : mux_frame_t) : mux_session :=
  if negb (f_sid f =? MUX_SID_CONTROL) then raise_fatal s MUX_CODE_PROTOCOL else
  if negb (f_len f =? 4) then raise_fatal s MUX_CODE_PROTOCOL else
  push s (EV_CAPACITY (be_get32 (vbytes (f_payload f)))).

(** One TLV of a HELLO: the switch of [on_hello]. *)
Definition hello_tlv (s : mux_session) (e : hello_ev) (t : Z) (val : view) (vlen : Z)
  : mux_session * hello_ev :=
  let v32 := be_get32 (vbytes val) in
  if t =? MUX_TLV_WEIGHT then
    (s, if vlen =? 4 then e <| h_weight := v32 |> else e)
  else if t =? MUX_TLV_MAX_STREAMS then
    if vlen =? 4 then (s <| s_peer_max_streams := v32 |>, e <| h_max_streams := v32 |>) else (s, e)
  else if t =? MUX_TLV_INIT_WINDOW then
    if vlen =? 4 then (s <| s_peer_init_window := v32 |>, e <| h_init_window := v32 |>) else (s, e)
  else if t =? MUX_TLV_SESSION_WINDOW then
    (if vlen =? 4 then s <| s_send_win := v32 |> else s, e)
  else if t =? MUX_TLV_PEER_ID then
    (s, e <| h_peer_id := val |> <| h_peer_id_len := vlen |>)
  else if t =? MUX_TLV_AUTH then
    (s, e <| h_auth := val |> <| h_auth_len := vlen |>)
  else if t =? MUX_TLV_NONCE then
    (s, e <| h_nonce := val |> <| h_nonce_len := vlen |>)
  else (s, e).

(** The TLV loop of [on_hello]: [false] for the error exit.  Every TLV takes at
    least 4 bytes, so one round per payload byte and one for the end suffice. *)
Fixpoint hello_loop (fuel : nat) (s : mux_session) (e : hello_ev) (payload : view)
  (len cursor : Z) : bool * mux_session * hello_ev :=
  match fuel with
  | O => (false, s, e)
  | S k =>
      match mux_tlv_next payload len cursor with
      | TlvEnd => (true, s, e)
      | TlvErr _ => (false, s, e)
      | TlvItem t val vlen cursor =>
          let '(s, e) := hello_tlv s e t val vlen in
          hello_loop k s e payload len cursor
      end
  end.

Definition on_hello (s : mux_session) (f : mux_frame_t) (ack : bool) : mux_session :=
  if negb (f_sid f =? MUX_SID_CONTROL) then raise_fatal s MUX_CODE_PROTOCOL else
  if s_peer_hello_seen s then raise_fatal s MUX_CODE_PROTOCOL else
  let '(ok, s, e) :=
    hello_loop (S (Z.to_nat (f_len f))) s hello_zero (f_payload f) (f_len f) 0 in
  if negb ok then raise_fatal s MUX_CODE_PROTOCOL else
  let s := s <| s_peer_hello_seen := true |> in
  let s := push s (EV_PEER_HELLO e) in
  if negb ack && bool_decide (s_role s = MUX_ACCEPTOR) && negb (s_hello_sent s)
  then snd (send_hello s true) else s.

Definition process_frame (s : mux_session) (f : mux_frame_t) : mux_session :=
  let ty := f_type f in
  if negb (s_peer_hello_seen s) && negb (ty =? MUX_T_HELLO) && negb (ty =? MUX_T_HELLO_ACK) then
    raise_fatal s MUX_CODE_PROTOCOL
  else if ty =? MUX_T_DATA then on_data s f
  else if ty =? MUX_T_WINDOW_UPDATE then on_window_update s f
  else if ty =? MUX_T_PING then on_ping s f
  else if ty =? MUX_T_GOAWAY then on_goaway s f
  else if ty =? MUX_T_HELLO then on_hello s f false
  else if ty =? MUX_T_HELLO_ACK then on_hello s f true
  else if ty =? MUX_T_CAPACITY then on_capacity s f
  else raise_fatal s MUX_CODE_PROTOCOL.

(** ** Public API *)

(** The parse loop of [mux_recv]: the final cursor and session.  Every frame
    takes at least 12 bytes, so one round per input byte is enough. *)
Fixpoint recv_loop (fuel : nat) (s : mux_session) (buf : bytes) (len cursor : Z)
  : Z * mux_session :=
  match fuel with
  | O => (cursor, s)
  | S k =>
      if cursor <? len then
        if q_count (s_q s) >=? MUX_EVENT_QUEUE_SOFT_CAP then (cursor, s) else
        match mux_parse (Some (zdrop cursor buf)) (len - cursor) with
        | inl r => (cursor, if r =? MUX_ERR_SHORT then s else raise_fatal s MUX_CODE_PROTOCOL)
        | inr (f, consumed) =>
            let s := process_frame s f in
            if s_dead s then (cursor, s) else recv_loop k s buf len (cursor + consumed)
        end
      else (cursor, s)
  end.

Definition mux_recv (s : mux_session) (buf : view) (len : Z) : Z * mux_session :=
  if bool_decide (buf = None) && negb (len =? 0) then (MUX_ERR_PARAM, s) else
  if s_dead s then (MUX_ERR_STATE, s) else
  recv_loop (Z.to_nat len) s (vbytes buf) len 0.

Definition mux_open (s : mux_session) (meta : view) (meta_len : Z) : Z * mux_session :=
  if s_dead s then (MUX_ERR_STATE, s) else
  if negb (s_peer_hello_seen s) then (MUX_ERR_STATE, s) else
  if s_local_goaway s then (MUX_ERR_STATE, s) else
  if meta_len >? MUX_MAX_META then (MUX_ERR_PARAM, s) else
  if t_count (s_tab s) >=? s_peer_max_streams s then (MUX_ERR_NOMEM, s) else
  let sid := s_next_local_sid s in
  if sid =? MUX_SID_CONTROL then (MUX_ERR_STATE, s) else
  let s := s <| s_next_local_sid := u32 (sid + 2) |> in
  let '(o, h, t) := st_insert (s_heap s) (s_tab s) sid in
  let s := s <| s_tab := t |> <| s_heap := h |> in
  match o with
  | None => (MUX_ERR_NOMEM, s)
  | Some j =>
      let s := st_modify s j (fun e => e <| st_life := LIFE_OPEN |>
                                         <| st_send_win := s_peer_init_window s |>
                                         <| st_recv_win := s_init_window s |>) in
      let '(r, s) := emit s MUX_T_DATA MUX_F_SYN sid
                       (if negb (meta_len =? 0) then meta else None) (u32 meta_len) in
      if negb (r =? 0) then (MUX_ERR_NOMEM, st_remove s j) else (sid, s)
  end.

(** The chunking loop of [mux_write]: the bytes placed.  Each round places at
    least one byte and all but the last MUX_MAX_DATA_FRAME of them. *)
Fixpoint write_loop (fuel : nat) (s : mux_session) (sid : Z) (p : bytes) (want sent : Z)
  : Z * mux_session :=
  match fuel with
  | O => (sent, s)
  | S k =>
      if sent <? want then
        let chunk := want - sent in
        let chunk := if chunk >? MUX_MAX_DATA_FRAME then MUX_MAX_DATA_FRAME else chunk in
        let '(r, s) := emit s MUX_T_DATA 0 sid (Some (zdrop sent p)) (u32 chunk) in
        if negb (r =? 0) then (sent, s) else write_loop k s sid p want (sent + chunk)
      else (sent, s)
  end.

Definition mux_write (s : mux_session) (sid : Z) (p : view) (n : Z) : Z * mux_session :=
  if bool_decide (p = None) && negb (n =? 0) then (MUX_ERR_PARAM, s) else
  if s_dead s then (MUX_ERR_STATE, s) else
  match st_find (s_tab s) sid with
  | None => (MUX_ERR_NOSTREAM, s)
  | Some j =>
      if decide (st_life (st_at s j) = LIFE_HCL_LOCAL) then (MUX_ERR_STATE, s) else
      let room := st_send_win (st_at s j) in
      let room := if s_send_win s <? room then s_send_win s else room in
      if room <=? 0 then (0, set_blocked s j true) else
      let want := if to_i64 n >? room then room else n in
      let '(sent, s) :=
        write_loop (Z.to_nat (want / MUX_MAX_DATA_FRAME + 1)) s sid (vbytes p) want 0 in
      let s := st_modify s j (fun e => e <| st_send_win ::= fun w => w - sent |>) in
      let s := s <| s_send_win ::= fun w => w - sent |> in
      let s := if (sent <? n) && ((st_send_win (st_at s j) <=? 0) || (s_send_win s <=? 0))
               then set_blocked s j true else s in
      (sent, s)
  end.

Definition mux_close (s : mux_session) (sid : Z) : Z * mux_session :=
  if s_dead s then (MUX_ERR_STATE, s) else
  match st_find (s_tab s) sid with
  | None => (MUX_ERR_NOSTREAM, s)
  | Some j =>
      if decide (st_life (st_at s j) = LIFE_HCL_LOCAL) then (MUX_OK, s) else
      let '(r, s) := emit s MUX_T_DATA MUX_F_FIN sid None 0 in
      if negb (r =? 0) then (MUX_ERR_NOMEM, s) else
      if decide (st_life (st_at s j) = LIFE_HCL_REMOTE) then (MUX_OK, close_stream s j)
      else (MUX_OK, st_modify s j (fun e => e <| st_life := LIFE_HCL_LOCAL |>))
  end.

Definition mux_reset (s : mux_session) (sid code : Z) : Z * mux_session :=
  if s_dead s then (MUX_ERR_STATE, s) else
  match st_find (s_tab s) sid with
  | None => (MUX_OK, s)
  | Some j => (MUX_OK, close_stream (emit_rst s sid code) j)
  end.

Definition mux_consume (s : mux_session) (sid n : Z) : Z * mux_session :=
  if s_dead s then (MUX_ERR_STATE, s) else
  if n =? 0 then (MUX_OK, s) else
  let s := s <| s_recv_pending ::= fun p => p + to_i64 n |> in
  let s := credit_session s in
  match st_find (s_tab s) sid with
  | None => (MUX_OK, s)
  | Some j =>
      let s := st_modify s j (fun e => e <| st_recv_pending ::= fun p => p + to_i64 n |>) in
      (MUX_OK, credit_stream s j)
  end.

Definition mux_send_capacity (s : mux_session) (weight : Z) : Z * mux_session :=
  if s_dead s then (MUX_ERR_STATE, s) else
  emit s MUX_T_CAPACITY 0 MUX_SID_CONTROL (Some (be_put32 weight)) 4.

Definition mux_goaway (s : mux_session) (reason : Z) : Z * mux_session :=
  if s_dead s then (MUX_ERR_STATE, s) else
  let s := s <| s_local_goaway := true |> in
  emit s MUX_T_GOAWAY 0 MUX_SID_CONTROL
    (Some (be_put32 reason ++ be_put32 (s_max_remote_sid s))) 8.

(** The PING half of [mux_on_timer]. *)
Definition timer_ping (s : mux_session) (now_ms : Z) : mux_session :=
  let b := be_put32 (u32 (Z.shiftr (s_ping_nonce s) 32)) ++ be_put32 (u32 (s_ping_nonce s)) in
  let '(r, s) := emit s MUX_T_PING 0 MUX_SID_CONTROL (Some b) 8 in
  if r =? 0 then
    s <| s_ping_outstanding := true |> <| s_ping_sent_ms := now_ms |>
      <| s_ping_nonce ::= fun n => u64 (n + 1) |>
      <| s_ping_due_ms := u64 (now_ms + s_heartbeat_ms s) |>
  else s.

Definition mux_on_timer (s : mux_session) (now_ms : Z) : Z * mux_session :=
  if s_dead s || (s_heartbeat_ms s =? 0) then (UINT64_MAX, s) else
  if negb (s_timer_started s) then
    let s := s <| s_timer_started := true |>
               <| s_ping_due_ms := u64 (now_ms + s_heartbeat_ms s) |> in
    (s_ping_due_ms s, s)
  else
  if s_ping_outstanding s && negb (s_keepalive_timeout_ms s =? 0)
     && (u64 (now_ms - s_ping_sent_ms s) >=? s_keepalive_timeout_ms s)
  then (UINT64_MAX, raise_fatal s MUX_CODE_INTERNAL) else
  let s := if now_ms >=? s_ping_due_ms s then timer_ping s now_ms else s in
  let next := s_ping_due_ms s in
  if s_ping_outstanding s && negb (s_keepalive_timeout_ms s =? 0) then
    let deadline := u64 (s_ping_sent_ms s + s_keepalive_timeout_ms s) in
    (if deadline <? next then deadline else next, s)
  else (next, s).

Definition mux_send_buf (s : mux_session) : bytes * Z := ob_send_buf (s_out s).

Definition mux_out_pending (s : mux_session) : Z := ob_out_pending (s_out s).

Definition mux_send_advance (s : mux_session) (n : Z) : mux_session :=
  s <| s_out ::= fun o => ob_send_advance o n |>.

Definition mux_next_event (s : mux_session) : option mux_event * mux_session :=
  let '(o, q) := evq_pop (s_q s) in (o, s <| s_q := q |>).

#[global] Arguments emit : simpl never.
#[global] Arguments push : simpl never.
#[global] Arguments raise_fatal : simpl never.
#[global] Arguments process_frame : simpl never.
#[global] Arguments nz : simpl never.
#[global] Arguments dup_blob : simpl never.
#[global] Arguments new_blob : simpl never.
#[global] Arguments send_hello : simpl never.
