(* ===== verification/SessionIO.v ===== *)
(** What the session's output primitives ([push], [ev_simple], [raise_fatal],
    [emit], [send_hello], [credit_emit]) may do to a session: append frames to
    the output buffer, append events to the queue and kill the session, and
    leave every other field alone.  [io_step] is that contract; it is a
    preorder, so a handler that performs several of them satisfies it too, and
    the theorems on handlers are proved against it. *)

From stdpp Require Import base list numbers gmap.
From Stdlib Require Import ZArith Lia.
From S2P Require Import Prelude Frame OutBuf EventQueue StreamTable Session.

(** ** The wire as a list of frames *)

Record wframe := mk_wframe { w_type : Z; w_flags : Z; w_sid : Z; w_payload : bytes }.

Definition wframe_ok (w : wframe) : Prop :=
  hdr_ok (w_type w) (w_flags w) (w_sid w) ∧ zlen (w_payload w) ≤ MUX_MAX_PAYLOAD.

Definition enc (w : wframe) : bytes :=
  frame_bytes (w_type w) (w_flags w) (w_sid w) (w_payload w).

Definition wire (ws : list wframe) : bytes := concat (enc <$> ws).

Lemma wire_app ws ws' : wire (ws ++ ws') = wire ws ++ wire ws'.
Proof. unfold wire. by rewrite fmap_app, concat_app. Qed.

Lemma wire_one w : wire [w] = enc w.
Proof. unfold wire. simpl. by rewrite app_nil_r. Qed.

(** ** Event accounting *)

(** Payload bytes an event hands to the host. *)
Definition ev_bytes (e : mux_event) : Z :=
  match e with EV_STREAM_DATA _ _ n => n | _ => 0 end.

Definition ev_is_fatal (e : mux_event) : Z :=
  match e with EV_FATAL _ => 1 | _ => 0 end.

(** Sum of a measure over a list of events. *)
Fixpoint ev_sum (f : mux_event -> Z) (evs : list mux_event) : Z :=
  match evs with [] => 0 | e :: evs => f e + ev_sum f evs end.

Lemma ev_sum_app f l k : ev_sum f (l ++ k) = ev_sum f l + ev_sum f k.
Proof. induction l; simpl; lia. Qed.

Abbreviation events s := (evq_items (s_q s)).
Abbreviation outp s := (pending (s_out s)).

(** FATAL events queued, plus the one the session may still raise. *)
Definition fatal_budget (s : mux_session) : Z :=
  ev_sum ev_is_fatal (events s) + if s_dead s then 0 else 1.

(** ** The contract *)

(** The fields the output primitives do not touch. *)
Definition core (s : mux_session) : mux_session :=
  s <| s_dead := false |> <| s_out := ob_empty |> <| s_q := evq_empty |> <| s_heap := [] |>.

Record io_wf (s : mux_session) : Prop := {
  io_limit : 0 < s_max_out_buffer s < 2 ^ 32;
  io_ob : ob_wf (s_max_out_buffer s) (s_out s);
  io_evq : evq_wf (s_q s);
}.

Record io_facts (s s' : mux_session) : Prop := {
  io_core : core s' = core s;
  io_wf' : io_wf s';
  io_dead : s_dead s = true → s_dead s' = true;
  io_out : ∃ ws, Forall wframe_ok ws ∧ outp s' = outp s ++ wire ws;
  io_evs : ∃ evs, events s' = events s ++ evs ∧ Forall (fun e => ev_bytes e = 0) evs;
  io_fatal : fatal_budget s' ≤ fatal_budget s;
  io_heap : s_heap s = [] → s_heap s' = [] ∧ fatal_budget s' = fatal_budget s;
}.

Definition io_step (s s' : mux_session) : Prop := io_wf s → io_facts s s'.

#[export] Instance io_step_preorder : PreOrder io_step.
Proof.
  split.
  - intros s Hw. split; auto; try done; eexists []; by rewrite app_nil_r.
  - intros s1 s2 s3 H1 H2 Hw. destruct (H1 Hw) as [C1 W1 D1 O1 E1 F1 P1].
    destruct (H2 W1) as [C2 W2 D2 O2 E2 F2 P2]. split; auto; try congruence; try lia.
    + destruct O1 as (ws1 & ? & O1), O2 as (ws2 & ? & O2). exists (ws1 ++ ws2).
      rewrite O2, O1, wire_app, (assoc_L (++)). split; [by apply Forall_app | done].
    + destruct E1 as (e1 & E1 & ?), E2 as (e2 & E2 & ?). exists (e1 ++ e2).
      rewrite E2, E1, (assoc_L (++)). split; [done | by apply Forall_app].
    + intros Hh. destruct (P1 Hh) as [Hh' E]. destruct (P2 Hh') as [? E']. split; congruence.
Qed.

Lemma io_step_trans s1 s2 s3 : io_step s1 s2 → io_step s2 s3 → io_step s1 s3.
Proof. apply PreOrder_Transitive. Qed.

(** Two sessions with equal cores agree on every core field. *)
Lemma core_field {A} (f : mux_session → A) s s' :
  (∀ x, f x = f (core x)) → core s' = core s → f s' = f s.
Proof. intros Hf E. by rewrite (Hf s'), E, <- Hf. Qed.

(** ** The primitives meet it *)

Lemma push_facts s e :
  io_wf s →
  core (push s e) = core s ∧ io_wf (push s e) ∧ s_dead (push s e) = s_dead s ∧
  s_out (push s e) = s_out s ∧
  (events (push s e) = events s ++ [e] ∨ events (push s e) = events s ∧ s_heap s ≠ []) ∧
  (s_heap s = [] → s_heap (push s e) = []).
Proof.
  intros [Hl Ho Hq]. unfold push.
  destruct (evq_push_spec (s_heap s) (s_q s) e Hq) as (r & h & q & -> & Hq' & Hh & Hc).
  split_and!; [done | by split | done | done | |].
  - cbn. destruct Hc as [[_ ->]|[-> ->]]; [by left |]. right. split; [done |]. intros E.
    by destruct (Hh E).
  - intros E. by destruct (Hh E).
Qed.

Lemma push_step s e : ev_bytes e = 0 → ev_is_fatal e = 0 → io_step s (push s e).
Proof.
  intros Hb Hf Hw. destruct (push_facts s e Hw) as (C & W & D & O & E & H).
  assert (fatal_budget (push s e) = fatal_budget s) as FB.
  { unfold fatal_budget. rewrite D. destruct E as [->|[-> _]]; [| done].
    rewrite ev_sum_app. simpl. lia. }
  split; auto; [by rewrite D | | | lia].
  - exists []. rewrite O, app_nil_r. done.
  - destruct E as [->|[-> _]]; [exists [e] | exists []]; rewrite ?app_nil_r; auto.
Qed.

Lemma ev_simple_step s t sid : t ≠ MUX_EV_FATAL → io_step s (ev_simple s t sid).
Proof. intros. apply push_step; by destruct t. Qed.

Lemma raise_fatal_step s code : io_step s (raise_fatal s code).
Proof.
  unfold raise_fatal. destruct (s_dead s) eqn:Hd; [reflexivity |]. intros Hw.
  assert (io_wf (s <| s_dead := true |>)) as Hw' by (destruct Hw; by split).
  destruct (push_facts _ (EV_FATAL code) Hw') as (C & W & D & O & E & H).
  assert (fatal_budget (push (s <| s_dead := true |>) (EV_FATAL code)) ≤ fatal_budget s ∧
          (s_heap s = [] →
           fatal_budget (push (s <| s_dead := true |>) (EV_FATAL code)) = fatal_budget s)) as [F1 F2].
  { unfold fatal_budget. rewrite D, Hd. simpl.
    destruct E as [->|[-> Hne]]; [rewrite ev_sum_app; simpl; lia |]. simpl in *. split; [lia | done]. }
  split; [exact C | exact W | congruence | | | exact F1 | by auto].
  - exists []. rewrite O, app_nil_r. done.
  - destruct E as [->|[-> _]]; [exists [EV_FATAL code] | exists []]; rewrite ?app_nil_r; auto.
Qed.

Lemma raise_fatal_dead s code : s_dead (raise_fatal s code) = true.
Proof.
  unfold raise_fatal. destruct (s_dead s) eqn:Hd; [done |]. unfold push.
  by destruct (evq_push _ _ _) as [[r h] q].
Qed.

(** [emit], exactly: the frame is appended, or the session dies. *)
Lemma emit_spec s ty fl sid payload plen :
  hdr_ok ty fl sid → 0 ≤ plen ≤ zlen (vbytes payload) → plen ≤ MUX_MAX_PAYLOAD → io_wf s →
  let w := mk_wframe ty fl sid (ztake plen (vbytes payload)) in
  ∃ r s', emit s ty fl sid payload plen = (r, s') ∧ io_facts s s' ∧
    (r = 0 ∧ outp s' = outp s ++ enc w ∧ events s' = events s ∧ s_dead s' = s_dead s ∨
     r = MUX_ERR_NOSPACE ∧ s_dead s' = true ∧ outp s' = outp s ∧
     (s_heap s ≠ [] ∨ s_max_out_buffer s < mux_out_pending s + MUX_HEADER_SIZE + plen)).
Proof.
  intros Hok Hp Hm Hw w. pose proof Hw as [Hl Ho Hq]. unfold emit.
  destruct (ob_reserve _ _ _ _) as [[r h] o] eqn:E.
  apply ob_reserve_spec in E as (Ho' & Hpe & Hroom & Hr & Hh); auto; [| unfold MUX_HEADER_SIZE; lia].
  set (s1 := s <| s_out := o |> <| s_heap := h |>).
  assert (io_facts s s1) as S1.
  { split; [done | by split | done | | | apply Z.le_refl | by auto].
    - exists []. simpl. rewrite Hpe, app_nil_r. done.
    - exists []. by rewrite app_nil_r. }
  destruct (Z.eqb_spec r 0) as [->|Hne]; simpl.
  - destruct (ob_craft_spec (s_max_out_buffer s) o ty fl sid payload plen) as (o' & -> & Ho'' & Hpe');
      auto. simpl. exists 0, (s1 <| s_out := o' |>). split; [done |].
    rewrite Hpe in Hpe'. split; [| by left].
    split; [done | by split | done | | | apply Z.le_refl | by auto].
    + exists [w]. rewrite wire_one. split; [| done]. constructor; [| done].
      split; [done |]. simpl. rewrite zlen_ztake; lia.
    + exists []. by rewrite app_nil_r.
  - exists MUX_ERR_NOSPACE, (raise_fatal s1 MUX_CODE_INTERNAL). split; [done |].
    split; [exact (io_step_trans s s1 _ (fun _ => S1) (raise_fatal_step s1 _) Hw) |].
    right. split_and!; [done | apply raise_fatal_dead | |].
    + unfold raise_fatal. destruct (s_dead s1) eqn:Hd; [done |].
      destruct (push_facts (s1 <| s_dead := true |>) (EV_FATAL MUX_CODE_INTERNAL))
        as (_ & _ & _ & -> & _); [by split | done].
    + unfold mux_out_pending. destruct Hr as [?|[[_ ?]|[_ ?]]]; [done | right; lia | by left].
Qed.

Lemma emit_step s ty fl sid payload plen :
  hdr_ok ty fl sid → 0 ≤ plen ≤ zlen (vbytes payload) → plen ≤ MUX_MAX_PAYLOAD →
  io_step s (snd (emit s ty fl sid payload plen)).
Proof.
  intros Hok Hp Hm Hw.
  by destruct (emit_spec s ty fl sid payload plen Hok Hp Hm Hw) as (r & s' & -> & ? & _).
Qed.
