(* ===== verification/Handshake.v ===== *)
(** The HELLO exchange: what [send_hello] puts on the wire, what [on_hello]
    makes of it, and the round trip between the two. *)

From stdpp Require Import base list numbers gmap.
From Stdlib Require Import ZArith Lia.
From S2P Require Import Prelude Frame OutBuf EventQueue StreamTable Session SessionIO.

(** ** The HELLO payload as a list of TLVs *)

Definition tlvs_bytes (l : list (Z * bytes)) : bytes :=
  concat ((fun tv => tlv_bytes (fst tv) (snd tv)) <$> l).

(** An optional blob: absent when its length is 0. *)
Definition blob_tlv (t : Z) (p : view) : list (Z * bytes) :=
  match vbytes p with [] => [] | bs => [(t, bs)] end.

Definition hello_tlvs (s : mux_session) : list (Z * bytes) :=
  [(MUX_TLV_WEIGHT, be_put32 (s_weight s));
   (MUX_TLV_MAX_STREAMS, be_put32 (s_max_streams s));
   (MUX_TLV_INIT_WINDOW, be_put32 (s_init_window s));
   (MUX_TLV_SESSION_WINDOW, be_put32 (s_session_window s));
   (MUX_TLV_HEARTBEAT_MS, be_put32 (s_heartbeat_ms s))]
  ++ blob_tlv MUX_TLV_PEER_ID (s_peer_id s)
  ++ blob_tlv MUX_TLV_AUTH (s_auth s)
  ++ blob_tlv MUX_TLV_NONCE (s_nonce s).

(** A stored identity blob: its length field is its length, within the cap. *)
Definition blob_ok (p : view) (n : Z) : Prop := n = zlen (vbytes p) ∧ n ≤ HELLO_BLOB_MAX.

Record hello_wf (s : mux_session) : Prop := {
  hw_peer_id : blob_ok (s_peer_id s) (s_peer_id_len s);
  hw_auth : blob_ok (s_auth s) (s_auth_len s);
  hw_nonce : blob_ok (s_nonce s) (s_nonce_len s);
}.

Lemma tlvs_bytes_app l k : tlvs_bytes (l ++ k) = tlvs_bytes l ++ tlvs_bytes k.
Proof. unfold tlvs_bytes. by rewrite fmap_app, concat_app. Qed.

Lemma tlvs_bytes_cons t v l : tlvs_bytes ((t, v) :: l) = tlv_bytes t v ++ tlvs_bytes l.
Proof. done. Qed.

(** ** Crafting *)

(** The chain holds exactly [bs] so far. *)
Definition chain_holds (c : tlv_chain) (bs : bytes) : Prop :=
  ∃ b, c = inr (Some b, zlen bs) ∧ zlen b = 1024 ∧ ztake (zlen bs) b = bs.

Lemma chain_put b bs t p n :
  zlen b = 1024 → ztake (zlen bs) b = bs → n = zlen (vbytes p) → zlen bs + 4 + n ≤ 1024 →
  ∃ b', mux_tlv_put (Some b) 1024 (zlen bs) t p n = (zlen bs + 4 + n, Some b') ∧
        zlen b' = 1024 ∧
        ztake (zlen bs + 4 + n) b' = bs ++ tlv_bytes t (vbytes p).
Proof.
  intros Hb Ht -> Hr. pose proof (zlen_nonneg bs). pose proof (zlen_nonneg (vbytes p)).
  eexists. split; [apply tlv_put_spec; lia |].
  split; [rewrite mem_write_len; zlen_lia |]. unfold mem_write. rewrite Ht, (assoc_L (++)).
  apply ztake_app. zlen_lia.
Qed.

Lemma chain_u32 c bs t v :
  chain_holds c bs → zlen bs + 8 ≤ 1024 →
  chain_holds (TLV_U32 c t v) (bs ++ tlv_bytes t (be_put32 v)).
Proof.
  intros (b & -> & Hb & Ht) Hr. unfold TLV_U32, put_u32_tlv. pose proof (zlen_nonneg bs).
  destruct (chain_put b bs t (Some (be_put32 v)) 4) as (b' & -> & Hb' & Ht'); try done; [lia |].
  destruct (Z.ltb_spec (zlen bs + 4 + 4) 0); [lia |].
  assert (zlen (bs ++ tlv_bytes t (be_put32 v)) = zlen bs + 4 + 4) as L by (autorewrite with zlen; lia).
  exists b'. by rewrite L.
Qed.

Lemma chain_blob c bs t p n :
  chain_holds c bs → blob_ok p n → zlen bs + 4 + HELLO_BLOB_MAX ≤ 1024 →
  chain_holds (TLV_BLOB c t p n) (bs ++ tlvs_bytes (blob_tlv t p)).
Proof.
  intros (b & -> & Hb & Ht) [-> Hm] Hr. unfold TLV_BLOB, blob_tlv, HELLO_BLOB_MAX in *.
  pose proof (zlen_nonneg bs). pose proof (zlen_nonneg (vbytes p)).
  destruct (Z.eqb_spec (zlen (vbytes p)) 0) as [E|E]; cbn [negb].
  - destruct (vbytes p) as [|x l]; [| rewrite zlen_cons in E; pose proof (zlen_nonneg l); lia].
    exists b. by rewrite app_nil_r.
  - unfold u16. rewrite Z.mod_small by lia.
    destruct (chain_put b bs t p (zlen (vbytes p))) as (b' & -> & Hb' & Ht'); try done; [lia |].
    destruct (Z.ltb_spec (zlen bs + 4 + zlen (vbytes p)) 0); [lia |].
    destruct (vbytes p) as [|x l] eqn:Ep; [done |]. rewrite <- Ep in *.
    rewrite tlvs_bytes_cons, app_nil_r. exists b'.
    assert (zlen (bs ++ tlv_bytes t (vbytes p)) = zlen bs + 4 + zlen (vbytes p)) as ->
      by (autorewrite with zlen; lia). done.
Qed.

Lemma blob_tlv_len t p n :
  blob_ok p n → 0 ≤ zlen (tlvs_bytes (blob_tlv t p)) ≤ 4 + HELLO_BLOB_MAX.
Proof.
  intros [-> Hm]. unfold blob_tlv, HELLO_BLOB_MAX in *.
  destruct (vbytes p) as [|x l] eqn:Ep; [split; vm_compute; done |].
  rewrite <- Ep in *.
  rewrite tlvs_bytes_cons, app_nil_r, tlv_bytes_len. pose proof (zlen_nonneg (vbytes p)). lia.
Qed.

(** [send_hello]'s buffer ends up holding the TLVs, and never overflows. *)
Lemma hello_blob_spec s :
  hello_wf s → chain_holds (hello_blob s) (tlvs_bytes (hello_tlvs s)) ∧
               0 ≤ zlen (tlvs_bytes (hello_tlvs s)) ≤ 820.
Proof.
  intros [Hp Ha Hn]. unfold hello_blob, hello_tlvs.
  pose proof (blob_tlv_len MUX_TLV_PEER_ID _ _ Hp) as Lp.
  pose proof (blob_tlv_len MUX_TLV_AUTH _ _ Ha) as La.
  pose proof (blob_tlv_len MUX_TLV_NONCE _ _ Hn) as Ln.
  rewrite !tlvs_bytes_app. unfold HELLO_BLOB_MAX in *.
  set (u := tlvs_bytes [_; _; _; _; _]).
  assert (zlen u = 40) as Lu by done.
  set (c5 := TLV_U32 _ MUX_TLV_HEARTBEAT_MS _).
  assert (chain_holds c5 u) as H5.
  { assert (chain_holds (inr (Some (replicate 1024 0), 0)) []) as H0
      by (by exists (replicate 1024 0)).
    exact (chain_u32 _ _ _ _ (chain_u32 _ _ _ _ (chain_u32 _ _ _ _ (chain_u32 _ _ _ _
      (chain_u32 _ _ _ _ H0 ltac:(done)) ltac:(done)) ltac:(done)) ltac:(done)) ltac:(done)). }
  split.
  - rewrite !(assoc_L (++)).
    apply chain_blob; [apply chain_blob; [apply chain_blob |..] |..]; try done;
      unfold HELLO_BLOB_MAX; rewrite ?zlen_app; lia.
  - rewrite !zlen_app. lia.
Qed.
