(* ===== verification/Recv.v ===== *)
(** The receive loop of [mux_recv]: which bytes it consumes, that it processes
    every whole frame before it stops, and that the way the transport cuts the
    byte stream into reads makes no difference. *)

From stdpp Require Import base list numbers gmap.
From Stdlib Require Import ZArith Lia.
From S2P Require Import Prelude Frame OutBuf EventQueue StreamTable Session SessionIO.

(** The queue is at its soft cap. *)
Definition q_full (s : mux_session) : bool := q_count (s_q s) >=? MUX_EVENT_QUEUE_SOFT_CAP.

(** The loop on the remaining bytes, without a cursor: bytes consumed, session. *)
Fixpoint feed (fuel : nat) (s : mux_session) (bs : bytes) : Z * mux_session :=
  match fuel with
  | O => (0, s)
  | S k =>
      if 0 <? zlen bs then
        if q_full s then (0, s) else
        match mux_parse (Some bs) (zlen bs) with
        | inl r => (0, if r =? MUX_ERR_SHORT then s else raise_fatal s MUX_CODE_PROTOCOL)
        | inr (f, consumed) =>
            let s := process_frame s f in
            if s_dead s then (0, s) else
            let '(c, s) := feed k s (zdrop consumed bs) in (consumed + c, s)
        end
      else (0, s)
  end.

Lemma feed_S k s bs :
  feed (S k) s bs =
  if 0 <? zlen bs then
    if q_full s then (0, s) else
    match mux_parse (Some bs) (zlen bs) with
    | inl r => (0, if r =? MUX_ERR_SHORT then s else raise_fatal s MUX_CODE_PROTOCOL)
    | inr (f, consumed) =>
        let s := process_frame s f in
        if s_dead s then (0, s) else
        let '(c, s) := feed k s (zdrop consumed bs) in (consumed + c, s)
    end
  else (0, s).
Proof. done. Qed.

Lemma recv_loop_feed k s buf len cursor :
  len = zlen buf → 0 ≤ cursor ≤ len →
  recv_loop k s buf len cursor =
  let '(c, s') := feed k s (zdrop cursor buf) in (cursor + c, s').
Proof.
  intros ->. revert s cursor. induction k as [|k IH]; intros s cursor Hc; simpl;
    [by rewrite Z.add_0_r |].
  fold (q_full s). rewrite zlen_zdrop by lia.
  destruct (Z.ltb_spec cursor (zlen buf)), (Z.ltb_spec 0 (zlen buf - cursor)); try lia;
    [| by rewrite Z.add_0_r].
  destruct (q_full s); [by rewrite Z.add_0_r |].
  destruct (mux_parse _ _) as [r|[f n]] eqn:E; [by rewrite Z.add_0_r |].
  destruct (s_dead (process_frame s f)); [by rewrite Z.add_0_r |].
  apply parse_ok_inv in E as (_ & _ & _ & En & _ & Hn).
  assert (12 ≤ n) as Hn' by (pose proof (be_get32_range (zdrop 8 (zdrop cursor buf)));
    unfold MUX_HEADER_SIZE in *; lia). clear En.
  rewrite IH by lia. rewrite zdrop_zdrop by lia.
  destruct (feed k _ _) as [c s']. f_equal. lia.
Qed.

(** What one parsed frame takes off the input. *)
Lemma parse_consumed p f c :
  mux_parse (Some p) (zlen p) = inr (f, c) → 12 ≤ c ≤ zlen p.
Proof.
  intros (_ & _ & _ & -> & _ & ?)%parse_ok_inv.
  pose proof (be_get32_range (zdrop 8 p)). unfold MUX_HEADER_SIZE in *. lia.
Qed.

(** As many rounds as bytes are enough: more change nothing. *)
Lemma feed_fuel k k' s bs :
  zlen bs ≤ Z.of_nat k → zlen bs ≤ Z.of_nat k' → feed k s bs = feed k' s bs.
Proof.
  revert k' s bs. induction k as [|k IH]; intros k' s bs Hk Hk'.
  - destruct k' as [|k']; simpl; [done |]. by destruct (Z.ltb_spec 0 (zlen bs)); [lia |].
  - destruct k' as [|k']; simpl; [by destruct (Z.ltb_spec 0 (zlen bs)); [lia |] |].
    destruct (0 <? zlen bs); [| done]. destruct (q_full s); [done |].
    destruct (mux_parse _ _) as [r|[f n]] eqn:E; [done |].
    destruct (s_dead (process_frame s f)); [done |]. apply parse_consumed in E.
    rewrite (IH k'); [done | rewrite zlen_zdrop; lia..].
Qed.

(** [mux_recv] on a live session. *)
Lemma mux_recv_feed k s bs :
  s_dead s = false → zlen bs ≤ Z.of_nat k →
  mux_recv s (Some bs) (zlen bs) = feed k s bs.
Proof.
  intros Hd Hk. unfold mux_recv. rewrite Hd. rewrite vbytes_Some.
  rewrite bool_decide_eq_false_2 by done. cbn [andb].
  pose proof (zlen_nonneg bs). rewrite recv_loop_feed by (done || lia). rewrite zdrop_0.
  rewrite (feed_fuel _ k) by lia. by destruct (feed k s bs).
Qed.

Lemma feed_bounds k s bs c s' :
  feed k s bs = (c, s') → 0 ≤ c ≤ zlen bs.
Proof.
  revert s bs c s'. pose proof @zlen_nonneg Z as Hz.
  induction k as [|k IH]; intros s bs c s'; simpl; [intros [= <- <-]; specialize (Hz bs); lia |].
  specialize (Hz bs).
  destruct (0 <? zlen bs); [| intros [= <- <-]; lia]. destruct (q_full s); [intros [= <- <-]; lia |].
  destruct (mux_parse _ _) as [r|[f n]] eqn:E; [intros [= <- <-]; lia |].
  apply parse_consumed in E.
  destruct (s_dead (process_frame s f)); [intros [= <- <-]; lia |].
  destruct (feed k _ _) as [c0 s0] eqn:F. intros [= <- <-]. apply IH in F.
  rewrite zlen_zdrop in F by lia. lia.
Qed.

(** Feeding [a ++ b] is feeding [a], then what is left of it followed by [b]. *)
Lemma feed_app k s a b c1 s1 :
  s_dead s = false → zlen (a ++ b) ≤ Z.of_nat k → feed k s a = (c1, s1) →
  feed k s (a ++ b) =
  if s_dead s1 then (c1, s1) else
  let '(c2, s2) := feed k s1 (zdrop c1 a ++ b) in (c1 + c2, s2).
Proof.
  revert s a c1 s1. pose proof (zlen_nonneg b) as Hb. induction k as [|k IH];
    intros s a c1 s1 Hd Hk; pose proof (zlen_nonneg a) as Ha; rewrite zlen_app in Hk.
  { simpl. intros [= <- <-]. by rewrite Hd. }
  intros F; cbn [feed] in F; revert F. destruct (Z.ltb_spec 0 (zlen a)).
  2: { intros [= <- <-]. rewrite Hd, zdrop_0. by destruct (feed (S k) s (a ++ b)). }
  destruct (q_full s) eqn:Hq.
  { intros [= <- <-]. cbn [feed]. rewrite Hd, zdrop_0, Hq. destruct (Z.ltb_spec 0 (zlen (a ++ b))); done. }
  pose proof (parse_prefix_stable_aux a b) as Hst.
  destruct (mux_parse (Some a) (zlen a)) as [r|[f n]] eqn:E.
  - destruct (Z.eqb_spec r MUX_ERR_SHORT) as [->|Hr]; intros [= <- <-].
    + rewrite Hd, zdrop_0. by destruct (feed (S k) s (a ++ b)).
    + cbn [feed]. rewrite Hq, raise_fatal_dead. destruct (Z.ltb_spec 0 (zlen (a ++ b))); [| zlen_lia].
      rewrite Hst by congruence. by destruct (Z.eqb_spec r MUX_ERR_SHORT).
  - intros F. rewrite feed_S, Hq. cbv zeta. revert F. cbv zeta.
    destruct (Z.ltb_spec 0 (zlen (a ++ b))); [| zlen_lia]. rewrite Hst by done.
    pose proof (parse_consumed _ _ _ E) as Hn.
    destruct (s_dead (process_frame s f)) eqn:Hd'; [intros [= <- <-]; by rewrite Hd' |].
    destruct (feed k (process_frame s f) (zdrop n a)) as [c s'] eqn:F. intros [= <- <-].
    pose proof (feed_bounds _ _ _ _ _ F) as Hc. rewrite zlen_zdrop in Hc by lia.
    rewrite zdrop_app_le by lia.
    rewrite (IH _ _ c s') by (done || rewrite ?zlen_app, ?zlen_zdrop; lia).
    destruct (s_dead s'); [done |]. rewrite zdrop_zdrop by lia.
    rewrite (feed_fuel (S k) k) by (rewrite zlen_app, zlen_zdrop; lia).
    destruct (feed k s' _). f_equal. lia.
Qed.

(** The frame [mux_parse] decodes from an encoded one. *)
Definition frame_of (w : wframe) : mux_frame_t :=
  mk_frame MUX_VERSION (w_type w) (w_flags w) (w_sid w) (zlen (w_payload w))
    (view_of (w_payload w)).

Lemma enc_len w : zlen (enc w) = 12 + zlen (w_payload w).
Proof. unfold enc. by rewrite frame_bytes_len. Qed.

Lemma frame_of_wf w : wframe_ok w → bytes_ok (w_payload w) → frame_wf (frame_of w).
Proof. intros [? ?] ?. by apply frame_wf_mk. Qed.

Lemma parse_enc w bs :
  wframe_ok w → mux_parse (Some (enc w ++ bs)) (zlen (enc w ++ bs)) = inr (frame_of w, zlen (enc w)).
Proof.
  intros [Hok Hm]. pose proof (zlen_nonneg bs). pose proof (enc_len w).
  unfold enc in *. rewrite parse_frame_bytes; [| done..|].
  - by rewrite frame_bytes_len.
  - rewrite zlen_app. unfold MUX_HEADER_SIZE. lia.
Qed.

(** Conversely, an accepted frame is the decoding of some encoded one. *)
Lemma parse_enc_inv bs f c :
  bytes_ok bs → mux_parse (Some bs) (zlen bs) = inr (f, c) →
  ∃ w, wframe_ok w ∧ bytes_ok (w_payload w) ∧ f = frame_of w ∧ ztake c bs = enc w ∧
       c = zlen (enc w).
Proof.
  intros Hb Hp. pose proof (parse_consumed _ _ _ Hp) as Hc.
  apply parse_canonical in Hp as ((Hv & Hok & Hl & Hr & Hby & Hpl) & _ & E); [| done].
  exists (mk_wframe (f_type f) (f_flags f) (f_sid f) (vbytes (f_payload f))).
  assert (c = zlen (ztake c bs)) as Ec by (rewrite zlen_ztake; lia).
  split_and!; [split; simpl; [done | lia] | done | | done |].
  - unfold frame_of. simpl. rewrite <- Hl, <- Hpl, <- Hv. by destruct f.
  - rewrite Ec, E. done.
Qed.

(** Why a receive loop in session [s0] with [rest] unread stops in [s1]. *)
Inductive recv_stop (s0 : mux_session) (rest : bytes) : mux_session → Prop :=
  | stop_end : rest = [] → recv_stop s0 rest s0
  | stop_full : q_full s0 = true → recv_stop s0 rest s0
  | stop_short :
      mux_parse (Some rest) (zlen rest) = inl MUX_ERR_SHORT → recv_stop s0 rest s0
  | stop_framing r :
      mux_parse (Some rest) (zlen rest) = inl r → r ≠ MUX_ERR_SHORT →
      recv_stop s0 rest (raise_fatal s0 MUX_CODE_PROTOCOL)
  | stop_fatal f c :
      mux_parse (Some rest) (zlen rest) = inr (f, c) →
      s_dead (process_frame s0 f) = true → recv_stop s0 rest (process_frame s0 f).

Lemma feed_refines_fold k s bs :
  zlen bs ≤ Z.of_nat k → bytes_ok bs →
  let '(c, s1) := feed k s bs in
  ∃ ws, Forall wframe_ok ws ∧ ztake c bs = wire ws ∧
        recv_stop (foldl process_frame s (frame_of <$> ws)) (zdrop c bs) s1.
Proof.
  revert s bs. induction k as [|k IH]; intros s bs Hk Hb.
  { simpl. exists []. split_and!; [done.. |]. rewrite zdrop_0. apply stop_end.
    destruct bs; [done |]. rewrite zlen_cons in Hk. pose proof (zlen_nonneg bs). lia. }
  rewrite feed_S. cbv zeta. destruct (Z.ltb_spec 0 (zlen bs)).
  2: { exists []. split_and!; [done.. |]. rewrite zdrop_0. apply stop_end.
       destruct bs; [done |]. rewrite zlen_cons in *. pose proof (zlen_nonneg bs). lia. }
  destruct (q_full s) eqn:Hq.
  { exists []. split_and!; [done.. |]. by apply stop_full. }
  destruct (mux_parse _ _) as [r|[f n]] eqn:E.
  - exists []. split_and!; [done.. |]. rewrite zdrop_0.
    destruct (Z.eqb_spec r MUX_ERR_SHORT) as [->|]; [by apply stop_short |].
    by apply (stop_framing _ _ r).
  - pose proof (parse_consumed _ _ _ E). destruct (s_dead (process_frame s f)) eqn:Hd.
    { exists []. split_and!; [done.. |]. rewrite zdrop_0. by apply (stop_fatal _ _ f n). }
    specialize (IH (process_frame s f) (zdrop n bs)).
    destruct (feed k _ _) as [c s1] eqn:F. pose proof (feed_bounds _ _ _ _ _ F).
    rewrite zlen_zdrop in * by lia.
    destruct IH as (ws & Hws & Et & Hst); [lia | by apply bytes_ok_zdrop |].
    apply parse_enc_inv in E as (w & Hw & _ & -> & En & _); [| done].
    exists (w :: ws). split_and!; [by constructor | |].
    + change (wire (w :: ws)) with (enc w ++ wire ws). rewrite <- En, <- Et.
      rewrite (ztake_zdrop_comm c n) by lia.
      rewrite <- (ztake_zdrop n (ztake (n + c) bs)) at 1. by rewrite ztake_ztake by lia.
    + rewrite fmap_cons. simpl. by rewrite zdrop_zdrop in Hst by lia.
Qed.

(** Feeding encoded frames to a session that survives them. *)
Lemma feed_wire k s ws bs :
  zlen (wire ws ++ bs) ≤ Z.of_nat k → Forall wframe_ok ws → s_dead s = false →
  (∀ pre w post, ws = pre ++ w :: post →
     let s' := foldl process_frame s (frame_of <$> pre) in
     q_full s' = false ∧ s_dead (process_frame s' (frame_of w)) = false) →
  feed k s (wire ws ++ bs) =
  let '(c, s') := feed k (foldl process_frame s (frame_of <$> ws)) bs in
  (zlen (wire ws) + c, s').
Proof.
  revert k s. induction ws as [|w ws IH]; intros k s Hk Hws Hd Hall.
  { cbn [wire fmap list_fmap concat app foldl]. by destruct (feed k s bs). }
  change (wire (w :: ws)) with (enc w ++ wire ws) in *. rewrite <- (assoc_L (++)) in *.
  apply Forall_cons_1 in Hws as [Hw Hws]. pose proof (enc_len w) as Le.
  pose proof (zlen_nonneg (w_payload w)). pose proof (zlen_nonneg (wire ws ++ bs)).
  rewrite zlen_app in Hk. destruct k as [|k]; [lia |].
  destruct (Hall [] w ws eq_refl) as [Hq Hd']. simpl in Hq, Hd'.
  rewrite feed_S, Hq, parse_enc by done. cbv zeta. rewrite Hd'.
  destruct (Z.ltb_spec 0 (zlen (enc w ++ wire ws ++ bs))); 
    [| pose proof (zlen_app (enc w) (wire ws ++ bs)); lia].
  rewrite zdrop_app by done. rewrite IH; [| lia | done | done |].
  - rewrite fmap_cons. cbn [foldl]. pose proof (zlen_app (wire ws) bs).
    rewrite (feed_fuel (S k) k) by (pose proof (zlen_nonneg (wire ws)); lia).
    destruct (feed k _ bs). f_equal. rewrite zlen_app. lia.
  - intros pre w' post ->. apply (Hall (w :: pre) w' post). done.
Qed.

(** ** Properties *)

(** C26: fragmentation makes no difference.  Delivering [a] and then, as the
    contract asks, the unconsumed tail of [a] followed by [b], leaves the same
    session and consumes the same bytes as delivering [a ++ b] at once, unless
    [a] alone killed the session. *)
Theorem recv_fragmentation s a b c1 s1 :
  s_dead s = false → mux_recv s (Some a) (zlen a) = (c1, s1) →
  mux_recv s (Some (a ++ b)) (zlen (a ++ b)) =
  if s_dead s1 then (c1, s1) else
  let rest := zdrop c1 a ++ b in
  let '(c2, s2) := mux_recv s1 (Some rest) (zlen rest) in (c1 + c2, s2).
Proof.
  intros Hd E. pose proof (zlen_nonneg a). pose proof (zlen_nonneg b).
  set (k := Z.to_nat (zlen (a ++ b))).
  assert (zlen a + zlen b = Z.of_nat k) as Ek by (subst k; rewrite zlen_app; lia).
  rewrite (mux_recv_feed k) in E by (done || lia).
  rewrite (mux_recv_feed k) by (done || rewrite zlen_app; lia).
  rewrite (feed_app k s a b c1 s1) by (done || rewrite zlen_app; lia).
  destruct (s_dead s1) eqn:Hd1; [done |]. cbv zeta.
  pose proof (feed_bounds _ _ _ _ _ E).
  by rewrite (mux_recv_feed k) by (done || rewrite zlen_app, zlen_zdrop; lia).
Qed.

(** The receive loop refines a fold.  On a live session [mux_recv] always
    terminates, consumes a whole number of well-formed frames, applies exactly
    [process_frame] to each in order, and stops for one of the documented
    reasons: no input left, queue at its soft cap, an incomplete frame, a
    framing violation, or a frame that killed the session (not consumed). *)
Theorem recv_refines_fold s bs :
  s_dead s = false → bytes_ok bs →
  let '(c, s1) := mux_recv s (Some bs) (zlen bs) in
  0 ≤ c ≤ zlen bs ∧
  ∃ ws, Forall wframe_ok ws ∧ ztake c bs = wire ws ∧
        recv_stop (foldl process_frame s (frame_of <$> ws)) (zdrop c bs) s1.
Proof.
  intros Hd Hb. pose proof (zlen_nonneg bs). rewrite (mux_recv_feed (Z.to_nat (zlen bs))) by (done || lia).
  pose proof (feed_refines_fold (Z.to_nat (zlen bs)) s bs ltac:(lia) Hb) as H'.
  destruct (feed _ _ _) as [c s1] eqn:F. split; [by eapply feed_bounds | done].
Qed.

(** ** Witnesses *)

Definition fresh_acceptor : mux_session :=
  session_init [] (mk_config 0 0 8 0 0 0 0 None 0 None 0 None 0) MUX_ACCEPTOR.

(** A HELLO cut in two, and a PING after it. *)
Definition sample_hello : bytes :=
  enc (mk_wframe MUX_T_HELLO 0 0 (tlv_bytes MUX_TLV_WEIGHT (be_put32 3))).
Definition sample_ping : bytes := enc (mk_wframe MUX_T_PING 0 0 [1; 2; 3; 4; 5; 6; 7; 8]).

Lemma recv_fragmentation_witness :
  fst (mux_recv fresh_acceptor (Some (take 7 sample_hello ++ drop 7 sample_hello ++ sample_ping)) 40) = 40.
Proof.
  pose proof (recv_fragmentation fresh_acceptor (take 7 sample_hello)
    (drop 7 sample_hello ++ sample_ping) 0 fresh_acceptor eq_refl ltac:(vm_compute; reflexivity)) as H.
  change 40 with (zlen (take 7 sample_hello ++ drop 7 sample_hello ++ sample_ping)).
  rewrite H. vm_compute. reflexivity.
Defined.

Lemma recv_refines_fold_witness :
  ∃ ws s1, ztake 40 (sample_hello ++ sample_ping) = wire ws ∧
    recv_stop (foldl process_frame fresh_acceptor (frame_of <$> ws)) [] s1.
Proof.
  pose proof (recv_refines_fold fresh_acceptor (sample_hello ++ sample_ping) eq_refl) as H.
  destruct (mux_recv fresh_acceptor (Some (sample_hello ++ sample_ping))
    (zlen (sample_hello ++ sample_ping))) as [c s1] eqn:E.
  assert (c = 40) as -> by (vm_compute in E; congruence).
  destruct H as (_ & ws & _ & H1 & H2); [apply (bool_decide_unpack _); vm_compute; exact I |].
  exists ws, s1. split; [exact H1 | exact H2].
Defined.
