(* ===== verification/SessionInv.v ===== *)
(** The session invariant.

    [session_wf] says what holds of every session between API calls: the output
    buffer, event ring and stream table are well formed, every flow-control
    window is in range, [blocked_count] counts the blocked streams, stream ids
    are fresh, and no stream of a live session is marked blocked while both its
    windows are open (no lost wakeup).  [op_step] is what any operation that
    does not consume host-side data does to a session; it is a preorder, and
    every handler and API call is shown to be one in SessionOps. *)

From stdpp Require Import base list numbers gmap.
From Stdlib Require Import ZArith Lia.
From S2P Require Import Prelude Frame OutBuf EventQueue Probe StreamTable Session SessionIO Handshake.

Abbreviation streams s := (stab_map (s_tab s)).

(** ** Counting blocked streams *)

Definition blocked (ke : Z * mux_stream) : Prop := st_send_blocked (snd ke) = true.

#[export] Instance blocked_dec ke : Decision (blocked ke).
Proof. unfold blocked. apply _. Defined.

Definition bcount (m : gmap Z mux_stream) : Z := Z.of_nat (size (filter blocked m)).

Lemma bcount_empty : bcount ∅ = 0.
Proof. unfold bcount. by rewrite map_filter_empty, map_size_empty. Qed.

Lemma bcount_delete m k e :
  m !! k = Some e → bcount (delete k m) = bcount m - b2z (st_send_blocked e).
Proof.
  intros Hk. unfold bcount. rewrite map_filter_delete. destruct (st_send_blocked e) eqn:E.
  - assert (filter blocked m !! k = Some e) as Hf by by apply map_lookup_filter_Some.
    rewrite map_size_delete_Some by eauto.
    pose proof (map_size_non_empty_iff (filter blocked m)) as [_ Hne].
    assert (size (filter blocked m) ≠ 0%nat).
    { apply Hne. intros He. by rewrite He, lookup_empty in Hf. }
    unfold b2z. lia.
  - rewrite map_size_delete_None; [unfold b2z; lia |].
    apply map_lookup_filter_None. right. intros x Hx. unfold blocked. simpl. congruence.
Qed.

Lemma bcount_insert_new m k x :
  m !! k = None → bcount (<[k := x]> m) = bcount m + b2z (st_send_blocked x).
Proof.
  intros Hk. unfold bcount. destruct (st_send_blocked x) eqn:E.
  - rewrite map_filter_insert_True by done. rewrite map_size_insert_None; [unfold b2z; lia |].
    apply map_lookup_filter_None. by left.
  - rewrite map_filter_insert_False by (unfold blocked; simpl; congruence).
    rewrite delete_id by done. unfold b2z. lia.
Qed.

Lemma bcount_insert m k e x :
  m !! k = Some e →
  bcount (<[k := x]> m) = bcount m - b2z (st_send_blocked e) + b2z (st_send_blocked x).
Proof.
  intros Hk. rewrite <- insert_delete_eq, bcount_insert_new by by rewrite lookup_delete_eq.
  by rewrite (bcount_delete m k e).
Qed.

Lemma bcount_zero m k e : m !! k = Some e → bcount m ≤ 0 → st_send_blocked e = false.
Proof.
  intros Hk Hb. destruct (st_send_blocked e) eqn:E; [| done]. exfalso.
  assert (filter blocked m !! k = Some e) as Hf by by apply map_lookup_filter_Some.
  assert (filter blocked m = ∅) as He by (apply map_size_empty_inv; unfold bcount in Hb; lia).
  by rewrite He, lookup_empty in Hf.
Qed.

(** ** The invariant *)

(** The configuration, fixed at construction. *)
Definition static (s : mux_session) :=
  ((s_role s, s_init_window s, s_session_window s, s_max_streams s),
   (s_weight s, s_heartbeat_ms s, s_keepalive_timeout_ms s, s_max_out_buffer s),
   (s_peer_id s, s_peer_id_len s, s_auth s, s_auth_len s, s_nonce s, s_nonce_len s)).

Record static_wf (s : mux_session) : Prop := {
  sw_init_window : 0 < s_init_window s < 2 ^ 32;
  sw_session_window : 0 < s_session_window s < 2 ^ 32;
  sw_max_streams : 0 < s_max_streams s < 2 ^ 32;
  sw_weight : 0 ≤ s_weight s < 2 ^ 32;
  sw_heartbeat : 0 ≤ s_heartbeat_ms s < 2 ^ 32;
  sw_keepalive : 0 ≤ s_keepalive_timeout_ms s < 2 ^ 32;
  sw_hello : hello_wf s;
}.

Lemma static_wf_eq s s' : static s' = static s → static_wf s → static_wf s'.
Proof.
  unfold static. intros [= E1 E2 E3 E4 E5 E6 E7 E8 E9 E10 E11 E12 E13 E14] [? ? ? ? ? ? [? ? ?]].
  split; [rewrite ?E2, ?E3, ?E4, ?E5, ?E6, ?E7; done .. |].
  split; rewrite ?E9, ?E10, ?E11, ?E12, ?E13, ?E14; done.
Qed.

(** A live stream record.  2^48 is the ceiling [on_window_update] enforces. *)
Record stream_ok (k : Z) (e : mux_stream) : Prop := {
  so_key : 0 < k < 2 ^ 32;
  so_send : 0 ≤ st_send_win e < 2 ^ 49;
  so_recv : 0 ≤ st_recv_win e;
  so_pend : 0 ≤ st_recv_pending e;
}.

(** The parity of the ids the session allocates. *)
Definition local_parity (r : mux_role) : Z :=
  match r with MUX_DIALER => 1 | MUX_ACCEPTOR => 0 end.

(** The next id is fresh: above every live id of its parity (or 0, exhausted);
    and every live id of the peer's parity is at most the highest one seen. *)
Definition sid_fresh (s : mux_session) : Prop :=
  0 ≤ s_next_local_sid s < 2 ^ 32 ∧ Z.land (s_next_local_sid s) 1 = local_parity (s_role s) ∧
  (s_next_local_sid s = 0 ∨
   ∀ k, is_Some (streams s !! k) → Z.land k 1 = local_parity (s_role s) →
        k < s_next_local_sid s) ∧
  (∀ k, is_Some (streams s !! k) → Z.land k 1 ≠ local_parity (s_role s) →
        k ≤ s_max_remote_sid s).

Record flow_wf (s : mux_session) : Prop := {
  fw_tab : stab_wf (s_tab s);
  fw_streams : map_Forall stream_ok (streams s);
  fw_blocked : s_blocked_count s = bcount (streams s);
  fw_send : 0 ≤ s_send_win s < 2 ^ 49;
  fw_recv : 0 ≤ s_recv_win s;
  fw_pend : 0 ≤ s_recv_pending s;
  fw_peer : 0 ≤ s_peer_init_window s < 2 ^ 32 ∧ 0 ≤ s_peer_max_streams s < 2 ^ 32;
  fw_sid : sid_fresh s;
  fw_remote : 0 ≤ s_max_remote_sid s < 2 ^ 32;
  fw_early : s_peer_hello_seen s = false → streams s = ∅;
  fw_cap : t_count (s_tab s) ≤ Z.max (s_max_streams s) (s_peer_max_streams s);
}.

(** A blocked stream waits for a window that is indeed closed. *)
Definition stream_live (sess_win : Z) (e : mux_stream) : Prop :=
  st_send_win e ≤ 2 ^ 48 ∧
  (st_send_blocked e = true → st_send_win e ≤ 0 ∨ sess_win ≤ 0).

Definition live_ok (s : mux_session) : Prop :=
  s_dead s = false →
  s_send_win s ≤ 2 ^ 48 ∧ map_Forall (fun _ e => stream_live (s_send_win s) e) (streams s).

Record session_wf (s : mux_session) : Prop := {
  wf_io : io_wf s;
  wf_static : static_wf s;
  wf_flow : flow_wf s;
  wf_live : live_ok s;
}.

(** ** What an operation does *)

(** Receive-side credit: granted to the peer, owed to it, or queued for the
    host.  DATA moves it from the first to the third. *)
Definition balance (s : mux_session) : Z :=
  s_recv_win s + s_recv_pending s + ev_sum ev_bytes (events s).

Record op_facts (s s' : mux_session) : Prop := {
  op_wf : session_wf s';
  op_static : static s' = static s;
  op_dead : s_dead s = true → s_dead s' = true;
  op_out : ∃ ws, Forall wframe_ok ws ∧ outp s' = outp s ++ wire ws;
  op_evs : ∃ evs, events s' = events s ++ evs ∧ Forall (fun e => 0 ≤ ev_bytes e) evs;
  op_fatal : fatal_budget s' ≤ fatal_budget s;
  op_balance : balance s' ≤ balance s;
  op_heap : s_heap s = [] →
    s_heap s' = [] ∧ fatal_budget s' = fatal_budget s ∧ balance s' = balance s;
}.

Definition op_step (s s' : mux_session) : Prop := session_wf s → op_facts s s'.

Lemma op_step_refl s : op_step s s.
Proof. intros Hw. split; auto; try done; eexists []; by rewrite app_nil_r. Qed.

Lemma op_step_trans s1 s2 s3 : op_step s1 s2 → op_step s2 s3 → op_step s1 s3.
Proof.
  intros H1 H2 Hw. destruct (H1 Hw) as [W1 S1 D1 O1 E1 F1 B1 P1].
  destruct (H2 W1) as [W2 S2 D2 O2 E2 F2 B2 P2]. split; auto; try congruence; try lia.
  - destruct O1 as (ws1 & ? & O1), O2 as (ws2 & ? & O2). exists (ws1 ++ ws2).
    rewrite O2, O1, wire_app, (assoc_L (++)). split; [by apply Forall_app | done].
  - destruct E1 as (e1 & E1 & ?), E2 as (e2 & E2 & ?). exists (e1 ++ e2).
    rewrite E2, E1, (assoc_L (++)). split; [done | by apply Forall_app].
  - intros Hh. destruct (P1 Hh) as (Hh' & E & E'). destruct (P2 Hh') as (? & ? & ?).
    split_and!; congruence.
Qed.

#[export] Instance op_step_preorder : PreOrder op_step.
Proof. split; [exact op_step_refl | exact op_step_trans]. Qed.

(** ** The output primitives preserve the invariant *)

Lemma flow_wf_core s : flow_wf s ↔ flow_wf (core s).
Proof.
  split; intros [H1 H2 H3 H4 H5 H6 H7 H8 H9 H10 H11];
    [exact (Build_flow_wf (core s) H1 H2 H3 H4 H5 H6 H7 H8 H9 H10 H11)
    | exact (Build_flow_wf s H1 H2 H3 H4 H5 H6 H7 H8 H9 H10 H11)].
Qed.

Lemma ev_sum_0 evs : Forall (fun e => ev_bytes e = 0) evs → ev_sum ev_bytes evs = 0.
Proof. induction 1; simpl; lia. Qed.

Lemma live_ok_mono s s' :
  (s_dead s = true → s_dead s' = true) → s_send_win s' = s_send_win s →
  streams s' = streams s → live_ok s → live_ok s'.
Proof.
  intros Hd Hs Hm Hl Hd'. rewrite Hs, Hm. apply Hl. destruct (s_dead s); [| done].
  by rewrite Hd in Hd'.
Qed.

Lemma io_facts_op s s' : io_facts s s' → op_step s s'.
Proof.
  intros [C W D O E F P] [Wi Ws Wf Wl].
  assert (static s' = static s) as Es by (by apply (core_field static)).
  split; auto.
  - split; [done | by apply (static_wf_eq s) | |].
    + apply (proj2 (flow_wf_core s')). rewrite C. by apply (proj1 (flow_wf_core s)).
    + apply (live_ok_mono s); [done | by apply (core_field s_send_win) | | done].
      by apply (core_field (fun s => streams s)).
  - destruct E as (evs & E & Hz). exists evs. split; [done |].
    eapply Forall_impl; [exact Hz |]. cbn. lia.
  - destruct E as (evs & E & Z0). apply ev_sum_0 in Z0. unfold balance.
    rewrite E, ev_sum_app, (core_field s_recv_win s s'), (core_field s_recv_pending s s') by done. lia.
  - intros Hh. destruct (P Hh) as [? ?]. split_and!; try done. destruct E as (evs & E & Z0).
    apply ev_sum_0 in Z0. unfold balance.
    rewrite E, ev_sum_app, (core_field s_recv_win s s'), (core_field s_recv_pending s s') by done. lia.
Qed.

Lemma io_op s s' : io_step s s' → op_step s s'.
Proof. intros H Hw. by apply io_facts_op; [apply H, Hw |]. Qed.

(** A step that only touches bookkeeping fields. *)
Lemma quiet_op s s' :
  (session_wf s → flow_wf s' ∧ live_ok s') → static s' = static s → s_dead s' = s_dead s →
  s_out s' = s_out s → s_q s' = s_q s → (s_heap s = [] → s_heap s' = []) →
  s_recv_win s' + s_recv_pending s' = s_recv_win s + s_recv_pending s →
  op_step s s'.
Proof.
  intros Hf Es Ed Eo Eq Eh Er Hw. destruct (Hf Hw) as [Hf' Hl']. destruct Hw as [[Wl Wo Wq] Ws _ _].
  assert (s_max_out_buffer s' = s_max_out_buffer s) as El by (unfold static in Es; by simplify_eq).
  assert (balance s' = balance s) as Eb by (unfold balance; rewrite Eq; lia).
  assert (fatal_budget s' = fatal_budget s) as Ef by (unfold fatal_budget; by rewrite Eq, Ed).
  split; try done; try lia.
  - split; [split; by rewrite ?El, ?Eo, ?Eq | by apply (static_wf_eq s) | done | done].
  - congruence.
  - exists []. by rewrite Eo, app_nil_r.
  - exists []. by rewrite Eq, app_nil_r.
  - intros Hh. split_and!; auto.
Qed.

(** Sequencing: the second step may rely on the invariant of the start. *)
Lemma op_seq s s1 s2 : op_step s s1 → (session_wf s → op_step s1 s2) → op_step s s2.
Proof. intros H1 H2 Hw. exact (op_step_trans s s1 s2 H1 (H2 Hw) Hw). Qed.

(** ** Stream records through table pointers *)

(** [j] points to the live record [e] of stream [k]. *)
Definition found (s : mux_session) (j : nat) (k : Z) (e : mux_stream) : Prop :=
  t_tab (s_tab s) !! j = Some e ∧ st_slot e = SLOT_USED ∧ st_sid e = k.

Lemma found_at s j k e : found s j k e → st_at s j = e.
Proof. intros [H _]. unfold st_at. by rewrite H. Qed.

Lemma found_streams s j k e : stab_wf (s_tab s) → found s j k e → streams s !! k = Some e.
Proof.
  intros Hw (Hj & Hs & Hk). apply stab_map_lookup; [eapply chain_uniq_keys, Hw |].
  split; [by eapply list_elem_of_lookup_2 |]. unfold cls. by rewrite Hs, Hk.
Qed.

Lemma st_find_found s k j :
  stab_wf (s_tab s) → st_find (s_tab s) k = Some j → ∃ e, found s j k e.
Proof.
  intros Hw H. pose proof (st_find_map (s_tab s) k Hw) as Hf. rewrite H in Hf.
  destruct Hf as (e & ? & ? & ? & _). by exists e.
Qed.

Lemma st_find_absent s k :
  stab_wf (s_tab s) → st_find (s_tab s) k = None → streams s !! k = None.
Proof. intros Hw H. pose proof (st_find_map (s_tab s) k Hw) as Hf. by rewrite H in Hf. Qed.

(** The output primitives do not move the table. *)
Lemma core_found s s' j k e : core s' = core s → found s j k e → found s' j k e.
Proof. intros C. unfold found. by rewrite (core_field s_tab s s'). Qed.

Lemma st_modify_found s j k e f :
  stab_wf (s_tab s) → found s j k e → st_slot (f e) = SLOT_USED → st_sid (f e) = st_sid e →
  stab_wf (s_tab (st_modify s j f)) ∧ streams (st_modify s j f) = <[k := f e]> (streams s) ∧
  found (st_modify s j f) j k (f e).
Proof.
  intros Hw (Hj & Hs & Hk) Hs' Hk'.
  destruct (stab_modify_spec (s_tab s) j e f Hw Hj Hs Hs' Hk') as (Hw' & Hm & Ht).
  rewrite <- Hk. split_and!; [done | done |]. unfold found.
  change (s_tab (st_modify s j f)) with (stab_modify (s_tab s) j f). rewrite Ht.
  split_and!; [apply list_lookup_insert_eq; by eapply lookup_lt_Some | done | by rewrite Hk'].
Qed.

(** The fields [flow_wf] reads that stream updates leave alone. *)
Definition ids (s : mux_session) :=
  (s_role s, s_next_local_sid s, s_max_remote_sid s, s_peer_hello_seen s, s_max_streams s,
   s_peer_init_window s, s_peer_max_streams s).

Lemma sid_fresh_mono s s' :
  ids s' = ids s → (∀ k, is_Some (streams s' !! k) → is_Some (streams s !! k)) →
  sid_fresh s → sid_fresh s'.
Proof.
  unfold ids, sid_fresh. intros [= E1 E2 E3 _ _ _ _] Hk (? & ? & Hf & Hm). rewrite E1, E2, E3.
  split_and!; [lia | lia | done | | intros k Hk'; by apply Hm, Hk].
  destruct Hf as [?|Hf]; [by left | right]. intros k Hk'. by apply Hf, Hk.
Qed.

Section StreamUpdate.
Context (s s' : mux_session) (k : Z) (e : mux_stream).
Hypothesis Hwf : flow_wf s.
Hypothesis Hk : streams s !! k = Some e.
Hypothesis Htab : stab_wf (s_tab s').
Hypothesis Hids : ids s' = ids s.
Hypothesis Hsend : 0 ≤ s_send_win s' < 2 ^ 49.
Hypothesis Hrecv : 0 ≤ s_recv_win s' ∧ 0 ≤ s_recv_pending s'.

Lemma flow_wf_update e' :
  streams s' = <[k := e']> (streams s) → t_count (s_tab s') = t_count (s_tab s) →
  s_blocked_count s' = s_blocked_count s - b2z (st_send_blocked e) + b2z (st_send_blocked e') →
  stream_ok k e' → flow_wf s'.
Proof.
  intros Hm Hc Hb Hok. destruct Hwf. pose proof Hids as Hi. unfold ids in Hi.
  injection Hi as E1 E2 E3 E4 E5 E6 E7. split; try done.
  - rewrite Hm. by apply map_Forall_insert_2.
  - rewrite Hm, Hb, fw_blocked0. by rewrite (bcount_insert _ k e).
  - apply Hrecv.
  - apply Hrecv.
  - by rewrite E6, E7.
  - apply (sid_fresh_mono s); [done | | done]. intros i. rewrite Hm, lookup_insert_is_Some.
    intros [<-|[_ ?]]; [by rewrite Hk | done].
  - by rewrite E3.
  - rewrite E4. intros He. rewrite (fw_early0 He) in Hk. done.
  - by rewrite Hc, E5, E7.
Qed.

Lemma flow_wf_delete :
  streams s' = delete k (streams s) → t_count (s_tab s') = t_count (s_tab s) - 1 →
  s_blocked_count s' = s_blocked_count s - b2z (st_send_blocked e) → flow_wf s'.
Proof.
  intros Hm Hc Hb. destruct Hwf. pose proof Hids as Hi. unfold ids in Hi.
  injection Hi as E1 E2 E3 E4 E5 E6 E7. split; try done.
  - rewrite Hm. by apply map_Forall_delete.
  - rewrite Hm, Hb, fw_blocked0. by rewrite (bcount_delete _ k e).
  - apply Hrecv.
  - apply Hrecv.
  - by rewrite E6, E7.
  - apply (sid_fresh_mono s); [done | | done]. intros i. rewrite Hm.
    intros [_ ?]%lookup_delete_is_Some. done.
  - by rewrite E3.
  - rewrite E4. intros He. rewrite (fw_early0 He) in Hk. done.
  - rewrite Hc, E5, E7. lia.
Qed.
End StreamUpdate.

(** ** Steps on one stream *)

(** Assignments to a record that open no send window and keep its flags. *)
Lemma modify_op s j k e f :
  found s j k e → st_slot (f e) = SLOT_USED → st_sid (f e) = st_sid e →
  st_send_blocked (f e) = st_send_blocked e →
  (stream_ok k e → stream_ok k (f e)) → st_send_win (f e) ≤ st_send_win e →
  op_step s (st_modify s j f).
Proof.
  intros Hj Hs Hk Hb Hok Hle. apply quiet_op; try done. intros [Hio Hst Hf Hl].
  destruct (st_modify_found s j k e f (fw_tab s Hf) Hj Hs Hk) as (Hw' & Hm & _).
  pose proof (found_streams s j k e (fw_tab s Hf) Hj) as Hke. split.
  - eapply (flow_wf_update s _ k e Hf Hke Hw'); try done; [apply Hf | split; apply Hf | |].
    + cbn. rewrite Hb. lia.
    + apply Hok, Hf, Hke.
  - intros Hd. destruct (Hl Hd) as [Hsw Hsl]. split; [done |].
    rewrite Hm. apply map_Forall_insert_2; [| done]. destruct (Hsl k e Hke) as [H1 H2].
    split; [lia |]. rewrite Hb. intros B. destruct (H2 B); [left; lia | by right].
Qed.

Lemma st_remove_streams s j k e :
  stab_wf (s_tab s) → found s j k e →
  stab_wf (s_tab (st_remove s j)) ∧ streams (st_remove s j) = delete k (streams s) ∧
  t_count (s_tab (st_remove s j)) = t_count (s_tab s) - 1 ∧
  s_blocked_count (st_remove s j) = s_blocked_count s - b2z (st_send_blocked e).
Proof.
  intros Hw Hj. pose proof (found_at s j k e Hj) as Ea. destruct Hj as (Hj & Hs & Hk).
  destruct (stab_remove_spec (s_tab s) j e Hw Hj Hs) as [Hw' Hm]. rewrite Hk in Hm.
  unfold st_remove. rewrite Ea. destruct (st_send_blocked e); simpl; split_and!; try done; lia.
Qed.

Lemma st_remove_rest s j :
  static (st_remove s j) = static s ∧ ids (st_remove s j) = ids s ∧
  s_dead (st_remove s j) = s_dead s ∧ s_out (st_remove s j) = s_out s ∧
  s_q (st_remove s j) = s_q s ∧ s_heap (st_remove s j) = s_heap s ∧
  s_recv_win (st_remove s j) = s_recv_win s ∧ s_recv_pending (st_remove s j) = s_recv_pending s ∧
  s_send_win (st_remove s j) = s_send_win s.
Proof. unfold st_remove. by destruct (st_send_blocked (st_at s j)). Qed.

Lemma close_op s j k e : found s j k e → op_step s (close_stream s j).
Proof.
  intros Hj. unfold close_stream.
  destruct (st_remove_rest s j) as (E1 & E2 & E3 & E4 & E5 & E6 & E7 & E8 & E9).
  apply quiet_op; try done; [| congruence | lia]. intros [Hio Hst Hf Hl].
  destruct (st_remove_streams s j k e (fw_tab s Hf) Hj) as (Hw' & Hm & Hc & Hb).
  pose proof (found_streams s j k e (fw_tab s Hf) Hj) as Hke. split.
  - eapply (flow_wf_delete s _ k e Hf Hke Hw'); try done; rewrite ?E7, ?E8, ?E9;
      [apply Hf | split; apply Hf].
  - unfold live_ok. rewrite E3, E9, Hm. intros Hd. destruct (Hl Hd).
    split; [done |]. by apply map_Forall_delete.
Qed.

(** [set_blocked] on a live stream. *)
Lemma set_blocked_spec s j k e b :
  stab_wf (s_tab s) → found s j k e →
  let s' := set_blocked s j b in
  let e' := e <| st_send_blocked := b |> in
  stab_wf (s_tab s') ∧ streams s' = <[k := e']> (streams s) ∧ found s' j k e' ∧
  t_count (s_tab s') = t_count (s_tab s) ∧
  s_blocked_count s' = s_blocked_count s - b2z (st_send_blocked e) + b2z b.
Proof.
  intros Hw Hj. pose proof (found_at s j k e Hj) as Ea.
  pose proof (found_streams s j k e Hw Hj) as Hke. simpl. unfold set_blocked. rewrite Ea.
  assert (st_send_blocked e = b → e <| st_send_blocked := b |> = e) as Hid
    by (intros <-; by destruct e).
  destruct (st_modify_found s j k e (fun e => e <| st_send_blocked := b |>) Hw Hj)
    as (Hw' & Hm & Hj'); [apply Hj | done |].
  destruct b, (st_send_blocked e) eqn:E; cbn [andb negb].
  1, 4: rewrite Hid by done; rewrite insert_id by done; split_and!; try done; cbn; lia.
  - split_and!; try done; cbn; lia.
  - split_and!; try done; cbn; lia.
Qed.

Lemma set_blocked_rest s j b :
  let s' := set_blocked s j b in
  static s' = static s ∧ ids s' = ids s ∧ s_dead s' = s_dead s ∧ s_out s' = s_out s ∧
  s_q s' = s_q s ∧ s_heap s' = s_heap s ∧ s_recv_win s' = s_recv_win s ∧
  s_recv_pending s' = s_recv_pending s ∧ s_send_win s' = s_send_win s.
Proof. unfold set_blocked. by destruct b, (st_send_blocked (st_at s j)). Qed.

(** Raising the flag when a window is closed, or lowering it at any time. *)
Lemma set_blocked_op s j k e b :
  found s j k e → (b = true → st_send_win e ≤ 0 ∨ s_send_win s ≤ 0) →
  op_step s (set_blocked s j b).
Proof.
  intros Hj Hb. destruct (set_blocked_rest s j b) as (E1 & E2 & E3 & E4 & E5 & E6 & E7 & E8 & E9).
  apply quiet_op; try done; [| congruence | lia]. intros [Hio Hst Hf Hl].
  destruct (set_blocked_spec s j k e b (fw_tab s Hf) Hj) as (Hw' & Hm & _ & Hc & Hbc).
  pose proof (found_streams s j k e (fw_tab s Hf) Hj) as Hke. split.
  - eapply (flow_wf_update s _ k e Hf Hke Hw'); try done; rewrite ?E7, ?E8, ?E9;
      [apply Hf | split; apply Hf |]. destruct (fw_streams s Hf k e Hke). by split.
  - unfold live_ok. rewrite E3, E9, Hm. intros Hd. destruct (Hl Hd) as [Hsw Hsl].
    split; [done |]. apply map_Forall_insert_2; [| done].
    destruct (Hsl k e Hke) as [H1 H2]. split; [done |]. simpl. exact Hb.
Qed.
