(* ===== verification/SessionOps.v ===== *)
(** Every frame handler and every API call of the session preserves the
    session invariant and is an [op_step]. *)

From stdpp Require Import base list numbers gmap.
From Stdlib Require Import ZArith Lia.
From S2P Require Import Prelude Frame OutBuf EventQueue Probe StreamTable Session SessionIO Handshake Recv SessionInv.

(** ** Output primitives *)

Lemma io_found s s' j k e : io_step s s' → session_wf s → found s j k e → found s' j k e.
Proof. intros H Hw. eapply core_found. apply H, Hw. Qed.

Lemma hdr_ok_small ty fl sid :
  0 ≤ ty < 256 → 0 ≤ fl < 65536 → 0 ≤ sid < 2 ^ 32 → hdr_ok ty fl sid.
Proof. done. Qed.

Lemma emit_rst_io s sid code : 0 ≤ sid < 2 ^ 32 → io_step s (emit_rst s sid code).
Proof.
  intros. apply emit_step; [by apply hdr_ok_small | by rewrite vbytes_Some, be_put32_len | done].
Qed.

Lemma raise_fatal_op s code : op_step s (raise_fatal s code).
Proof. apply io_op, raise_fatal_step. Qed.

Lemma ev_simple_op s t sid : t ≠ MUX_EV_FATAL → op_step s (ev_simple s t sid).
Proof. intros. by apply io_op, ev_simple_step. Qed.

Lemma push_op s e : ev_bytes e = 0 → ev_is_fatal e = 0 → op_step s (push s e).
Proof. intros. by apply io_op, push_step. Qed.

#[export] Hint Resolve raise_fatal_op op_step_refl : core.

(** A primitive, then a step on a stream found before it. *)
Lemma io_then_stream s s1 s2 j k e :
  io_step s s1 → found s j k e → (found s1 j k e → op_step s1 s2) → op_step s s2.
Proof.
  intros H1 Hj H2. apply (op_seq s s1); [by apply io_op |]. intros Hw.
  apply H2. by eapply io_found.
Qed.

Lemma abort_op s k code j e :
  found s j k e → 0 ≤ k < 2 ^ 32 → op_step s (abort_stream s k code j).
Proof.
  intros Hj Hk. unfold abort_stream.
  eapply io_then_stream; [| exact Hj | intros Hj'; by eapply close_op].
  etrans; [by apply emit_rst_io | by apply ev_simple_step].
Qed.

(** ** DATA *)

Lemma on_fin_op s f j k e : found s j k e → op_step s (on_fin s f j).
Proof.
  intros Hj. unfold on_fin. destruct (has_flag _ _); [| auto].
  apply (io_then_stream s (ev_simple s MUX_EV_STREAM_CLOSED (f_sid f)) _ j k e);
    [by apply ev_simple_step | exact Hj |]. intros Hj'. case_decide; [by eapply close_op |].
  eapply modify_op; [exact Hj' | apply Hj | done | done | | done]. intros []; by split.
Qed.

(** Accepting payload: both receive windows are debited, one event queued. *)
Definition accept_data (s : mux_session) (f : mux_frame_t) (j : nat) : mux_session :=
  push (st_modify s j (fun e => e <| st_recv_win ::= fun w => w - f_len f |>)
          <| s_recv_win ::= fun w => w - f_len f |>)
    (EV_STREAM_DATA (f_sid f) (f_payload f) (f_len f)).

Lemma debit_recv_wf s j k e n :
  session_wf s → found s j k e → 0 ≤ n ≤ st_recv_win e → n ≤ s_recv_win s →
  let s' := st_modify s j (fun e => e <| st_recv_win ::= fun w => w - n |>)
              <| s_recv_win ::= fun w => w - n |> in
  session_wf s' ∧ found s' j k (e <| st_recv_win ::= fun w => w - n |>).
Proof.
  intros [Hio Hst Hf Hl] Hj Hn Hn' s'.
  destruct (st_modify_found s j k e (fun e => e <| st_recv_win ::= fun w => w - n |>) (fw_tab s Hf) Hj)
    as (Hw' & Hm & Hj'); [apply Hj | done |].
  pose proof (found_streams s j k e (fw_tab s Hf) Hj) as Hke.
  destruct (fw_streams s Hf k e Hke) as [? ? ? ?]. split; [| exact Hj'].
  split; [by destruct Hio | by apply (static_wf_eq s) | |].
  - eapply (flow_wf_update s s' k e Hf Hke Hw'); try done; [apply Hf | split; cbn | cbn; lia |].
    + lia.
    + apply Hf.
    + split; cbn; done || lia.
  - intros Hd. destruct (Hl Hd) as [? Hsl]. split; [done |].
    change (streams s') with (streams (st_modify s j (fun e => e <| st_recv_win ::= fun w => w - n |>))).
    rewrite Hm. apply map_Forall_insert_2; [| done]. exact (Hsl k e Hke).
Qed.

Lemma accept_data_op s f j k e :
  found s j k e → 0 ≤ f_len f ≤ st_recv_win e → f_len f ≤ s_recv_win s →
  op_step s (accept_data s f j) ∧
  (session_wf s → ∃ e', found (accept_data s f j) j k e').
Proof.
  intros Hj Hn Hn'. set (s1 := st_modify s j (fun e => e <| st_recv_win ::= fun w => w - f_len f |>)
              <| s_recv_win ::= fun w => w - f_len f |>).
  assert (session_wf s → session_wf s1 ∧ found s1 j k (e <| st_recv_win ::= fun w => w - f_len f |>))
    as H1 by (intros Hw; by apply debit_recv_wf).
  change (accept_data s f j) with (push s1 (EV_STREAM_DATA (f_sid f) (f_payload f) (f_len f))).
  split; intros Hw; destruct (H1 Hw) as [Hw1 Hj1];
    destruct (push_facts s1 (EV_STREAM_DATA (f_sid f) (f_payload f) (f_len f)) (wf_io s1 Hw1))
      as (C & W & D & O & E & H); [| eexists; by eapply core_found].
  set (s2 := push s1 _) in *.
  assert (fatal_budget s2 = fatal_budget s) as EF.
  { unfold fatal_budget. rewrite D. destruct E as [->|[-> _]]; [| done].
    rewrite ev_sum_app. cbn [ev_sum ev_is_fatal]. cbn. lia. }
  assert (s_recv_win s2 = s_recv_win s - f_len f ∧ s_recv_pending s2 = s_recv_pending s) as [Er Ep]
    by (by rewrite (core_field s_recv_win s1 s2), (core_field s_recv_pending s1 s2)).
  destruct Hw1 as [? Hst1 Hf1 Hl1]. split.
  - split; [done | | |].
    + apply (static_wf_eq s1); [by apply (core_field static) | done].
    + apply (proj2 (flow_wf_core s2)). rewrite C. by apply (proj1 (flow_wf_core s1)).
    + apply (live_ok_mono s1); [by rewrite D | by apply (core_field s_send_win) | | done].
      by apply (core_field (fun s => streams s)).
  - transitivity (static s1); [by apply (core_field static) | done].
  - by rewrite D.
  - exists []. by rewrite O, app_nil_r.
  - destruct E as [->|[-> _]]; [eexists | by exists []; rewrite app_nil_r].
    split; [done |]. constructor; [cbn; lia | done].
  - lia.
  - unfold balance. rewrite Er, Ep. change (events s) with (events s1).
    destruct E as [->|[-> _]]; rewrite ?ev_sum_app; cbn [ev_sum ev_bytes]; lia.
  - intros Hh. split_and!; [by apply H | done |]. unfold balance. rewrite Er, Ep.
    change (events s) with (events s1).
    destruct E as [->|[_ Hne]]; [rewrite ev_sum_app; cbn [ev_sum ev_bytes]; lia | done].
Qed.

(** ** Opening streams *)

(** [st_insert] followed by assignments to the fresh record. *)
Lemma insert_stream_spec s k f :
  stab_wf (s_tab s) → streams s !! k = None →
  st_slot (f (stream_fresh k)) = SLOT_USED → st_sid (f (stream_fresh k)) = k →
  ∃ o h t, st_insert (s_heap s) (s_tab s) k = (o, h, t) ∧ (s_heap s = [] → o ≠ None ∧ h = []) ∧
    let s1 := s <| s_tab := t |> <| s_heap := h |> in
    (o = None ∧ t = s_tab s ∨
     ∃ j, o = Some j ∧ let s2 := st_modify s1 j f in
       stab_wf (s_tab s2) ∧ streams s2 = <[k := f (stream_fresh k)]> (streams s) ∧
       found s2 j k (f (stream_fresh k)) ∧ t_count (s_tab s2) = t_count (s_tab s) + 1).
Proof.
  intros Hw Hk Hs Hi.
  destruct (st_insert_spec (s_heap s) (s_tab s) k Hw Hk) as (o & h & t & E & Hh & Hc).
  exists o, h, t. split_and!; [done | done |]. intros s1.
  destruct Hc as [?|(j & -> & Hw' & Hj & Hm & Hct)]; [by left | right]. exists j. split; [done |].
  assert (found s1 j k (stream_fresh k)) as Hf by done.
  destruct (st_modify_found s1 j k (stream_fresh k) f Hw' Hf Hs Hi) as (Hw2 & Hm2 & Hf2).
  split_and!; [done | | done | done]. rewrite Hm2. change (streams s1) with (stab_map t).
  by rewrite Hm, insert_insert_eq.
Qed.

(** A new, unblocked stream in the table. *)
Lemma flow_wf_insert s s' k e :
  flow_wf s → streams s !! k = None → stab_wf (s_tab s') →
  streams s' = <[k := e]> (streams s) → t_count (s_tab s') = t_count (s_tab s) + 1 →
  t_count (s_tab s) < Z.max (s_max_streams s) (s_peer_max_streams s) →
  s_blocked_count s' = s_blocked_count s → st_send_blocked e = false → stream_ok k e →
  s_peer_hello_seen s' = true → sid_fresh s' → 0 ≤ s_max_remote_sid s' < 2 ^ 32 →
  s_send_win s' = s_send_win s → s_recv_win s' = s_recv_win s →
  s_recv_pending s' = s_recv_pending s → s_max_streams s' = s_max_streams s →
  s_peer_init_window s' = s_peer_init_window s → s_peer_max_streams s' = s_peer_max_streams s →
  flow_wf s'.
Proof.
  intros [] Hk Hw Hm Hc Hcap Hb He Hok Hh Hs Hr E1 E2 E3 E4 E5 E6.
  split; rewrite ?E1, ?E2, ?E3, ?E4, ?E5, ?E6; try done.
  - rewrite Hm. by apply map_Forall_insert_2.
  - rewrite Hm, bcount_insert_new, He, Hb by done. unfold b2z. lia.
  - congruence.
  - lia.
Qed.

(** The record both [on_syn] and [mux_open] set up. *)
Definition open_record (s : mux_session) (e : mux_stream) : mux_stream :=
  e <| st_life := LIFE_OPEN |> <| st_send_win := s_peer_init_window s |>
    <| st_recv_win := s_init_window s |>.

(** Opening stream [k] in session [s]; [g] sets the id counters. *)
Lemma open_op s k t h j g :
  let s2 := st_modify (s <| s_tab := t |> <| s_heap := h |>) j (open_record s) in
  (session_wf s → stab_wf (s_tab s2) ∧
     streams s2 = <[k := open_record s (stream_fresh k)]> (streams s) ∧
     t_count (s_tab s2) = t_count (s_tab s) + 1) →
  (s_heap s = [] → h = []) → streams s !! k = None → 0 < k < 2 ^ 32 →
  s_peer_hello_seen s = true → t_count (s_tab s) < Z.max (s_max_streams s) (s_peer_max_streams s) →
  (flow_wf s → sid_fresh (g s2)) → (flow_wf s → 0 ≤ s_max_remote_sid (g s2) < 2 ^ 32) →
  (∀ x, ∃ n r, g x = x <| s_next_local_sid := n |> <| s_max_remote_sid := r |>) →
  op_step s (g s2).
Proof.
  intros s2 Hs2 Hh Hk Hkr Hhs Hcap Hsid Hrem Hg. destruct (Hg s2) as (n & r & Eg).
  apply quiet_op; rewrite ?Eg; try done. rewrite <- Eg. intros [Hio Hst Hf Hl].
  destruct (Hs2 ltac:(by split)) as (Hw & Hm & Hc).
  destruct (fw_peer s Hf) as [Hp _]. pose proof (sw_init_window s Hst).
  assert (streams (g s2) = streams s2) as Es by by rewrite Eg.
  split.
  - eapply (flow_wf_insert s _ k (open_record s (stream_fresh k))); auto; rewrite ?Es, ?Eg; try done.
    split; cbn; lia.
  - unfold live_ok. rewrite Es, Hm, Eg. intros Hd. destruct (Hl Hd) as [? Hsl].
    split; [done |]. apply map_Forall_insert_2; [| done]. split; cbn; [lia | done].
Qed.

Lemma remote_fresh s s' k :
  flow_wf s → (∀ i, is_Some (streams s' !! i) → i = k ∨ is_Some (streams s !! i)) →
  s_role s' = s_role s → s_next_local_sid s' = s_next_local_sid s →
  s_max_remote_sid s < k → s_max_remote_sid s' = k → Z.land k 1 ≠ local_parity (s_role s) →
  sid_fresh s'.
Proof.
  intros Hf Hm Er En Hlt Ek Hp. destruct (fw_sid s Hf) as (? & ? & Hc & Hr). unfold sid_fresh.
  rewrite Er, En, Ek. split_and!; try done; try lia.
  - destruct Hc as [?|Hc]; [by left | right]. intros i [->|Hi]%Hm Hpi; [done | by apply Hc].
  - intros i [->|Hi]%Hm Hpi; [lia |]. specialize (Hr i Hi Hpi). lia.
Qed.

Lemma role_parity r k :
  Z.land k 1 = match r with MUX_DIALER => 0 | MUX_ACCEPTOR => 1 end →
  Z.land k 1 ≠ local_parity r.
Proof. by destruct r; intros ->. Qed.

(** The tail of [on_syn] once the stream is in the table. *)
Lemma on_syn_tail_op s sid fl meta n j k e :
  found s j k e →
  let s1 := push s (EV_STREAM_OPENED sid meta n) in
  op_step s
    (if has_flag fl MUX_F_RST then close_stream (ev_simple s1 MUX_EV_STREAM_RESET sid) j else
     if has_flag fl MUX_F_FIN then
       ev_simple (st_modify s1 j (fun e => e <| st_life := LIFE_HCL_REMOTE |>)) MUX_EV_STREAM_CLOSED sid
     else s1).
Proof.
  intros Hj s1. assert (io_step s s1) as S1 by by apply push_step. destruct (has_flag fl MUX_F_RST).
  { eapply io_then_stream; [| exact Hj | intros; by eapply close_op].
    etrans; [done | by apply ev_simple_step]. }
  destruct (has_flag fl MUX_F_FIN); [| by apply io_op].
  eapply io_then_stream; [exact S1 | exact Hj |]. intros Hj'.
  etrans; [| by apply ev_simple_op].
  eapply modify_op; [exact Hj' | apply Hj | done | done | | done]. intros []; by split.
Qed.

Lemma refuse_op s sid :
  0 < sid < 2 ^ 32 → s_max_remote_sid s < sid → Z.land sid 1 ≠ local_parity (s_role s) →
  op_step s (emit_rst s sid MUX_CODE_REFUSED <| s_max_remote_sid := sid |>).
Proof.
  intros Hs Hlt Hp. assert (io_step s (emit_rst s sid MUX_CODE_REFUSED)) as Hio
    by (apply emit_rst_io; lia).
  eapply op_seq; [by apply io_op |]. intros Hw0. destruct (Hio (wf_io s Hw0)) as [C _ _ _ _ _ _].
  apply quiet_op; try done. intros [_ _ Hf Hl]. split; [| exact Hl].
  pose proof Hf as []. split; try done; [| cbn; lia].
  apply (remote_fresh (emit_rst s sid MUX_CODE_REFUSED) _ sid); try done; [by right | |].
  - by rewrite (core_field s_max_remote_sid s).
  - by rewrite (core_field s_role s).
Qed.

Lemma on_syn_op s f : frame_wf f → op_step s (on_syn s f).
Proof.
  intros (_ & (_ & _ & Hsid) & _) Hw. revert Hw. change (op_step s (on_syn s f)). unfold on_syn.
  destruct (s_peer_hello_seen s) eqn:Hhs; cbn [negb]; [| auto].
  destruct (Z.eqb_spec (Z.land (f_sid f) 1)
    match s_role s with MUX_DIALER => 0 | MUX_ACCEPTOR => 1 end) as [Hpar|]; cbn [negb]; [| auto].
  unfold MUX_SID_CONTROL. destruct (Z.eqb_spec (f_sid f) 0); [auto |].
  destruct (bool_decide_reflect (st_find (s_tab s) (f_sid f) ≠ None)) as [|Hfi]; [auto |].
  destruct (Z.leb_spec (f_sid f) (s_max_remote_sid s)); [auto |].
  destruct (f_len f >? MUX_MAX_META); [auto |].
  destruct ((t_count (s_tab s) >=? s_max_streams s) || s_local_goaway s) eqn:Hcap.
  { apply refuse_op; [lia | lia | by apply role_parity]. }
  apply orb_false_iff in Hcap as [Hcap _]. rewrite Z.geb_leb in Hcap. apply Z.leb_gt in Hcap.
  intros Hw. pose proof (wf_flow s Hw) as Hf.
  assert (streams s !! f_sid f = None) as Hk.
  { apply st_find_absent; [apply Hf |]. by destruct (st_find _ _); [destruct Hfi |]. }
  destruct (insert_stream_spec s (f_sid f) (open_record s) (fw_tab s Hf) Hk)
    as (o & h & t & -> & Hh & Hc); [done | done |]. cbv zeta in Hc.
  destruct Hc as [[-> ->]|(j & -> & Hw2 & Hm & Hj & Hct)].
  - revert Hw. change (op_step s (raise_fatal (s <| s_tab := s_tab s |> <| s_heap := h |>) MUX_CODE_INTERNAL)).
    etrans; [| apply raise_fatal_op]. apply quiet_op; try done; [| naive_solver].
    intros [_ _ [] Hl]. by split; [split |].
  - eapply (op_step_trans s _ _); [| eapply on_syn_tail_op; exact Hj | exact Hw].
    apply (open_op s (f_sid f) t h j (fun x => x <| s_max_remote_sid := f_sid f |>));
      [done | intros Eh; apply (Hh Eh) | done | lia | done | lia | | intros; cbn; lia
      | intros x; exists (s_next_local_sid x), (f_sid f); by destruct x].
    intros _. apply (remote_fresh s _ (f_sid f)); try done; [| by apply role_parity].
    intros i Hi. assert (is_Some (<[f_sid f := open_record s (stream_fresh (f_sid f))]> (streams s) !! i))
      as [->|[_ ?]]%lookup_insert_is_Some by (rewrite <- Hm; exact Hi); auto.
Qed.

Lemma has_len f : frame_wf f → 0 ≤ f_len f.
Proof. intros (_ & _ & _ & ? & _). lia. Qed.

Lemma on_data_op s f : frame_wf f → op_step s (on_data s f).
Proof.
  intros Hfw. unfold on_data. destruct (has_flag (f_flags f) MUX_F_SYN); [by apply on_syn_op |].
  destruct (f_sid f =? MUX_SID_CONTROL); [auto |].
  destruct (st_find (s_tab s) (f_sid f)) as [j|] eqn:Hfi; [| auto].
  intros Hw. destruct (st_find_found s (f_sid f) j (fw_tab s (wf_flow s Hw)) Hfi) as [e Hj].
  revert Hw. rewrite (found_at _ _ _ _ Hj). pose proof (has_len f Hfw).
  assert (0 ≤ f_sid f < 2 ^ 32) as Hsid by apply Hfw.
  match goal with |- session_wf s → op_facts s ?s' => change (op_step s s') end.
  destruct (has_flag (f_flags f) MUX_F_RST).
  { eapply io_then_stream; [| exact Hj | intros; by eapply close_op]. by apply push_step. }
  destruct (Z.gtb_spec (f_len f) 0); [| by eapply on_fin_op].
  case_decide; [by eapply abort_op |].
  destruct (Z.gtb_spec (f_len f) (s_recv_win s)); [auto |].
  destruct (Z.gtb_spec (f_len f) (st_recv_win e)); [by eapply abort_op |].
  destruct (accept_data_op s f j (f_sid f) e Hj) as [Hop Hj']; [lia | lia |].
  apply (op_seq _ _ _ Hop). intros Hw. destruct (Hj' Hw) as [e' He']. by eapply on_fin_op.
Qed.

(** ** WINDOW_UPDATE: the sweep over blocked streams *)

(** The sweep has visited the first [n] slots of [s0]'s table. *)
Record swept (s0 : mux_session) (n : nat) (s : mux_session) : Prop := {
  sp_same : static s = static s0 ∧ ids s = ids s0 ∧ s_dead s = s_dead s0 ∧ s_out s = s_out s0 ∧
    s_send_win s = s_send_win s0 ∧ s_recv_win s = s_recv_win s0 ∧
    s_recv_pending s = s_recv_pending s0 ∧ t_cap (s_tab s) = t_cap (s_tab s0);
  sp_io : io_wf s;
  sp_flow : flow_wf s;
  sp_wins : ∀ k e, streams s !! k = Some e →
    ∃ e0, streams s0 !! k = Some e0 ∧ st_send_win e = st_send_win e0;
  sp_done : ∀ i e, (i < n)%nat → t_tab (s_tab s) !! i = Some e → st_slot e = SLOT_USED →
    st_send_blocked e = true → st_send_win e ≤ 0;
  sp_evs : ∃ evs, events s = events s0 ++ evs ∧
    Forall (fun e => ev_bytes e = 0 ∧ ev_is_fatal e = 0) evs;
  sp_heap : s_heap s0 = [] → s_heap s = [];
  sp_woken : s_heap s0 = [] → ∀ k e0, streams s0 !! k = Some e0 → st_send_blocked e0 = true →
    ∃ e, streams s !! k = Some e ∧
      (st_send_blocked e = true ∨
       st_send_blocked e = false ∧ 0 < st_send_win e ∧ EV_WRITABLE k ∈ events s);
}.

Lemma set_blocked_slots s j b i :
  t_cap (s_tab (set_blocked s j b)) = t_cap (s_tab s) ∧
  (i ≠ j → t_tab (s_tab (set_blocked s j b)) !! i = t_tab (s_tab s) !! i).
Proof.
  unfold set_blocked. destruct b, (st_send_blocked (st_at s j)); cbn; split; try done;
    intros; by apply list_lookup_alter_ne.
Qed.

Lemma wake_skip s0 n s :
  swept s0 n s →
  bool_decide (st_slot (st_at s n) = SLOT_USED) && st_send_blocked (st_at s n)
    && (st_send_win (st_at s n) >? 0) = false →
  swept s0 (S n) s.
Proof.
  intros [A B C D E F G W] Hc. split; try done. intros i e Hi Hte Hu Hb.
  destruct (decide (i = n)) as [->|]; [| apply (E i e); done || lia].
  unfold st_at in Hc. rewrite Hte in Hc. cbn in Hc. rewrite Hu, Hb in Hc. cbn in Hc.
  destruct (Z.gtb_spec (st_send_win e) 0); [done | lia].
Qed.

Lemma wake_one_swept s0 n s : swept s0 n s → swept s0 (S n) (wake_one s n).
Proof.
  intros Hsw. unfold wake_one.
  destruct (bool_decide _ && _ && _) eqn:Hc; [| by apply wake_skip].
  apply andb_true_iff in Hc as [[Hu%bool_decide_eq_true Hb]%andb_true_iff Hwin].
  destruct Hsw as [(E1 & E2 & E3 & E4 & E5 & E6 & E7 & E8) Hio Hf Hwins Hdone Hev Hh Hwk].
  destruct (t_tab (s_tab s) !! n) as [e|] eqn:He; [| unfold st_at in Hu; by rewrite He in Hu].
  assert (st_at s n = e) as Ea by (unfold st_at; by rewrite He). rewrite Ea in *.
  assert (found s n (st_sid e) e) as Hj by done. set (k := st_sid e) in *.
  destruct (set_blocked_rest s n false) as (R1 & R2 & R3 & R4 & R5 & R6 & R7 & R8 & R9).
  destruct (set_blocked_spec s n k e false (fw_tab s Hf) Hj) as (Hw1 & Hm1 & Hj1 & Hc1 & Hb1).
  destruct (set_blocked_slots s n false n) as [Hcap _]. set (s1 := set_blocked s n false) in *.
  pose proof (found_streams s n k e (fw_tab s Hf) Hj) as Hke.
  assert (flow_wf s1) as Hf1.
  { eapply (flow_wf_update s s1 k e Hf Hke Hw1); try done; rewrite ?R7, ?R8, ?R9;
      [apply Hf | split; apply Hf |]. destruct (fw_streams s Hf k e Hke). by split. }
  assert (io_wf s1) as Hio1.
  { unfold static in R1. injection R1 as ? ? ? ? ? ? ? R1 _ _ _ _ _ _.
    destruct Hio. split; by rewrite ?R1, ?R4, ?R5. }
  destruct (push_facts s1 (EV_WRITABLE k) Hio1) as (C & W & D & O & E & H).
  change (ev_simple s1 MUX_EV_WRITABLE k) with (push s1 (EV_WRITABLE k)).
  set (s2 := push s1 (EV_WRITABLE k)) in *.
  assert (s_tab s2 = s_tab s1) as Et by by apply (core_field s_tab). split.
  - rewrite (core_field static s1 s2), (core_field ids s1 s2), D, O, Et, (core_field s_send_win s1 s2),
      (core_field s_recv_win s1 s2), (core_field s_recv_pending s1 s2) by done.
    split_and!; congruence.
  - done.
  - apply (proj2 (flow_wf_core s2)). rewrite C. by apply (proj1 (flow_wf_core s1)).
  - rewrite Et. intros k' e'. rewrite Hm1, lookup_insert. case_decide as Ek; [subst k' | by apply Hwins].
    intros [= <-]. by apply (Hwins k e).
  - rewrite Et. intros i e' Hi He' Hu' Hb'. destruct (decide (i = n)) as [->|].
    + destruct Hj1 as [Hj1 _]. rewrite Hj1 in He'. by simplify_eq.
    + destruct (set_blocked_slots s n false i) as [_ Hne]. fold s1 in Hne.
      rewrite Hne in He' by done. apply (Hdone i e'); done || lia.
  - destruct Hev as (evs & Ev & Hz). rewrite R5 in E. destruct E as [->|[-> _]].
    + exists (evs ++ [EV_WRITABLE k]). rewrite Ev, (assoc_L (++)). split; [done |].
      apply Forall_app. auto.
    + by exists evs.
  - intros Hh0. apply H. rewrite R6. auto.
  - intros Hh0 k' e0 He0 Hb0. rewrite Et, Hm1.
    destruct E as [Ev2|[_ []]]; [| by rewrite R6, Hh].
    assert (∀ x, x ∈ events s ∨ x = EV_WRITABLE k → x ∈ events s2) as Hin
      by (intros x; rewrite Ev2, R5, elem_of_app, list_elem_of_singleton; tauto).
    destruct (decide (k' = k)) as [->|].
    + eexists. rewrite lookup_insert_eq. split; [done |]. right. cbn.
      destruct (Z.gtb_spec (st_send_win e) 0); [auto | done].
    + destruct (Hwk Hh0 k' e0 He0 Hb0) as (e' & He' & Hb'). exists e'.
      rewrite lookup_insert_ne by done. split; [done |].
      destruct Hb' as [|(? & ? & ?)]; [by left | right; auto].
Qed.

Lemma wake_sweep_swept s :
  io_wf s → flow_wf s →
  swept s (Z.to_nat (t_cap (s_tab s))) (wake_sweep s).
Proof.
  intros Hio Hf. unfold wake_sweep. generalize (Z.to_nat (t_cap (s_tab s))). intros n.
  induction n as [|n IH].
  - simpl. split; try done; [eauto | lia | by exists []; rewrite app_nil_r | eauto].
  - rewrite seq_S, foldl_app. by apply wake_one_swept.
Qed.

(** After the sweep every blocked stream has its own window closed. *)
Lemma swept_live s0 s :
  swept s0 (Z.to_nat (t_cap (s_tab s0))) s → 0 ≤ s_send_win s0 ≤ 2 ^ 48 →
  map_Forall (fun _ e => st_send_win e ≤ 2 ^ 48) (streams s0) → live_ok s.
Proof.
  intros [(_ & _ & _ & _ & E5 & _ & _ & E8) _ Hf Hwins Hdone _ _ _] Hs Hle Hd. rewrite E5.
  split; [lia |]. intros k e Hke. split.
  - destruct (Hwins k e Hke) as (e0 & He0 & ->). by apply (Hle k e0).
  - intros Hb. left. pose proof (wf_chain _ (fw_tab s Hf)) as Hch.
    apply stab_map_lookup in Hke as [[i Hi]%list_elem_of_lookup Hc]; [| by eapply chain_uniq_keys].
    apply (Hdone i e); [| done | | done].
    + rewrite <- E8. pose proof (chain_len _ _ _ Hch) as L. apply lookup_lt_Some in Hi.
      unfold zlen in L. lia.
    + unfold cls in Hc. by destruct (st_slot e).
Qed.

(** Failing the session after a bookkeeping update. *)
Lemma kill_op s s1 code :
  (session_wf s → flow_wf s1) → static s1 = static s → s_dead s1 = s_dead s →
  s_out s1 = s_out s → s_q s1 = s_q s → s_heap s1 = s_heap s →
  s_recv_win s1 + s_recv_pending s1 = s_recv_win s + s_recv_pending s →
  op_step s (raise_fatal s1 code).
Proof.
  intros Hf Es Ed Eo Eq Eh Er Hw. specialize (Hf Hw). destruct Hw as [[Wl Wo Wq] Ws _ _].
  assert (s_max_out_buffer s1 = s_max_out_buffer s) as El by (unfold static in Es; by simplify_eq).
  assert (io_wf s1) as Hio by (split; by rewrite ?El, ?Eo, ?Eq).
  destruct (raise_fatal_step s1 code Hio) as [C W D O E F P].
  assert (fatal_budget s1 = fatal_budget s) as Ef by (unfold fatal_budget; by rewrite Eq, Ed).
  assert (∃ evs, events (raise_fatal s1 code) = events s ++ evs ∧ ev_sum ev_bytes evs = 0 ∧
            Forall (fun e => 0 ≤ ev_bytes e) evs) as (evs & Ev & Z0 & Hnn).
  { destruct E as (evs & E & Z0). exists evs. rewrite E, Eq. split_and!; [done | by apply ev_sum_0 |].
    eapply Forall_impl; [exact Z0 |]. cbn. lia. }
  assert (balance (raise_fatal s1 code) = balance s) as Eb.
  { unfold balance. rewrite Ev, ev_sum_app, (core_field s_recv_win s1 (raise_fatal s1 code)),
      (core_field s_recv_pending s1 (raise_fatal s1 code)) by done. lia. }
  split; try lia.
  - split; [done | | | by intros Hd; rewrite raise_fatal_dead in Hd].
    + apply (static_wf_eq s); [| done]. by rewrite (core_field static s1 (raise_fatal s1 code)).
    + apply (proj2 (flow_wf_core _)). rewrite C. by apply (proj1 (flow_wf_core s1)).
  - by rewrite (core_field static s1 (raise_fatal s1 code)).
  - intros _. apply raise_fatal_dead.
  - destruct O as (ws & ? & O). exists ws. by rewrite O, Eo.
  - by exists evs.
  - rewrite <- Eh. intros Hh. destruct (P Hh). split_and!; congruence.
Qed.

Lemma wake_sweep_op s c :
  let s1 := s <| s_send_win ::= fun w => w + c |> in
  s_dead s = false → 0 ≤ c < 2 ^ 32 → s_send_win s1 ≤ 2 ^ 48 → op_step s (wake_sweep s1).
Proof.
  intros s1 Hd Hc Hle Hw. destruct Hw as [Hio Hst Hf Hl]. destruct (Hl Hd) as [_ Hsl].
  assert (s_send_win s + c ≤ 2 ^ 48) as Hle' by exact Hle.
  assert (flow_wf s1) as Hf1 by (destruct Hf; split; try done; cbn; lia).
  assert (io_wf s1) as Hio1 by (destruct Hio; by split).
  pose proof (wake_sweep_swept s1 Hio1 Hf1) as Hsw.
  assert (live_ok (wake_sweep s1)) as Hl'.
  { eapply swept_live; [exact Hsw | split; [apply Hf1 | done] |]. intros k e Hke. by apply (Hsl k e). }
  destruct Hsw as [(E1 & E2 & E3 & E4 & E5 & E6 & E7 & E8) Hio' Hf' _ _ (evs & Ev & Hz) Hh _].
  assert (ev_sum ev_bytes evs = 0 ∧ ev_sum ev_is_fatal evs = 0) as [Z1 Z2]
    by (clear -Hz; induction Hz as [|e evs [? ?] _ [? ?]]; cbn [ev_sum]; lia).
  assert (balance (wake_sweep s1) = balance s) as Eb.
  { unfold balance. rewrite Ev, ev_sum_app, E6, E7. cbn. lia. }
  assert (fatal_budget (wake_sweep s1) = fatal_budget s) as Efb.
  { unfold fatal_budget. rewrite Ev, ev_sum_app, E3. cbn. lia. }
  split; try done; try lia.
  - split; [done | by apply (static_wf_eq s) | done | done].
  - rewrite E3. done.
  - exists []. by rewrite E4, app_nil_r.
  - exists evs. split; [done |]. eapply Forall_impl; [exact Hz |]. cbn. lia.
  - auto.
Qed.

Lemma credit_stream_wf s j k e c :
  session_wf s → found s j k e → 0 ≤ c < 2 ^ 32 → st_send_win e ≤ 2 ^ 48 →
  let f := fun e : mux_stream => e <| st_send_win ::= fun w => w + c |> in
  flow_wf (st_modify s j f) ∧ found (st_modify s j f) j k (f e) ∧
  streams (st_modify s j f) = <[k := f e]> (streams s).
Proof.
  intros [_ _ Hf _] Hj Hc Hle f.
  destruct (st_modify_found s j k e f (fw_tab s Hf) Hj) as (Hw & Hm & Hj'); [apply Hj | done |].
  pose proof (found_streams s j k e (fw_tab s Hf) Hj) as Hke. split; [| done].
  eapply (flow_wf_update s _ k e Hf Hke Hw); try done; [apply Hf | split; apply Hf | cbn; lia |].
  destruct (fw_streams s Hf k e Hke). split; cbn; done || lia.
Qed.

Lemma grant_session_op s c :
  s_dead s = false → 0 ≤ c < 2 ^ 32 → op_step s (grant_session s c).
Proof.
  intros Hd Hc. unfold grant_session. change (Z.shiftl 1 48) with (2 ^ 48). cbv zeta.
  set (s1 := s <| s_send_win ::= fun w => w + c |>).
  assert (session_wf s → flow_wf s1) as Hf1.
  { intros [_ _ [] Hl]. destruct (Hl Hd). split; try done; cbn; lia. }
  destruct (Z.gtb_spec (s_send_win s1) (2 ^ 48)); [by apply kill_op |].
  destruct ((s_send_win s <=? 0) && (s_send_win s1 >? 0) && (s_blocked_count s1 >? 0)) eqn:Hsw.
  { by apply wake_sweep_op. }
  apply quiet_op; try done. intros Hw. split; [by apply Hf1 |]. destruct Hw as [_ _ Hf Hl].
  intros _. destruct (Hl Hd) as [? Hsl]. split; [done |]. intros k e Hke.
  destruct (Hsl k e Hke) as [? Hb]. split; [done |]. intros B. specialize (Hb B).
  apply andb_false_iff in Hsw as [[Hsw|Hsw]%andb_false_iff|Hsw].
  - apply Z.leb_gt in Hsw. left. lia.
  - right. destruct (Z.gtb_spec (s_send_win s1) 0); done || lia.
  - destruct (Z.gtb_spec (s_blocked_count s1) 0) as [|Hb0]; [done |]. cbn in Hb0.
    rewrite (fw_blocked s Hf) in Hb0. by rewrite (bcount_zero _ k e Hke Hb0) in B.
Qed.

(** The outcome of a stream credit that does not overflow the window. *)
Lemma grant_stream_woken s j k e c :
  session_wf s → s_dead s = false → found s j k e → 0 ≤ c < 2 ^ 32 →
  let e1 := e <| st_send_win ::= fun w => w + c |> in
  let s1 := st_modify s j (fun e => e <| st_send_win ::= fun w => w + c |>) in
  st_send_win e1 ≤ 2 ^ 48 →
  st_send_blocked e1 && (st_send_win e1 >? 0) && (s_send_win s1 >? 0) = true →
  let s2 := set_blocked s1 j false in
  op_step s s2 ∧ s_dead s2 = false ∧ s_heap s2 = s_heap s ∧ s_send_win s2 = s_send_win s ∧
  streams s2 = <[k := e1 <| st_send_blocked := false |>]> (streams s).
Proof.
  intros Hw Hd Hj Hc e1 s1 Hle1 Hc2 s2.
  pose proof (found_streams s j k e (fw_tab s (wf_flow s Hw)) Hj) as Hke.
  destruct (wf_live s Hw Hd) as [Hsw Hsl]. destruct (Hsl _ e Hke) as [Hle Hbl].
  destruct (credit_stream_wf s j k e c Hw Hj Hc Hle) as (Hf1 & Hj1 & Hm1). fold s1 in Hf1, Hj1, Hm1.
  destruct (set_blocked_rest s1 j false) as (R1 & R2 & R3 & R4 & R5 & R6 & R7 & R8 & R9).
  destruct (set_blocked_spec s1 j k e1 false (fw_tab s1 Hf1) Hj1) as (Hw2 & Hm2 & _ & Hc2' & Hb2).
  fold s2 in R1, R2, R3, R4, R5, R6, R7, R8, R9, Hw2, Hm2, Hc2', Hb2.
  pose proof (found_streams s1 j _ e1 (fw_tab s1 Hf1) Hj1) as Hke1.
  rewrite Hm1, insert_insert_eq in Hm2. split_and!; [| by rewrite R3 | by rewrite R6 | by rewrite R9 | done].
  apply quiet_op; try done; [| by rewrite R6 | by rewrite R7, R8]. intros _. split.
  - eapply (flow_wf_update s1 _ k e1 Hf1 Hke1 Hw2); try done; rewrite ?R7, ?R8, ?R9, ?Hm2, ?Hm1,
      ?insert_insert_eq; try done; [apply Hf1 | split; apply Hf1 |].
    destruct (fw_streams s1 Hf1 _ e1 Hke1). by split.
  - unfold live_ok. rewrite R9, Hm2. intros _. split; [done |].
    apply map_Forall_insert_2; [| done]. split; [exact Hle1 | done].
Qed.

Lemma grant_stream_op s k j e c :
  s_dead s = false → found s j k e → 0 ≤ c < 2 ^ 32 → op_step s (grant_stream s k j c).
Proof.
  intros Hd Hj Hc Hw.
  pose proof (found_streams s j _ e (fw_tab s (wf_flow s Hw)) Hj) as Hke.
  destruct (wf_live s Hw Hd) as [Hsw Hsl]. destruct (Hsl _ e Hke) as [Hle Hbl].
  destruct (credit_stream_wf s j k e c Hw Hj Hc Hle) as (Hf1 & Hj1 & Hm1).
  pose proof (grant_stream_woken s j k e c Hw Hd Hj Hc) as Hwk.
  unfold grant_stream. change (Z.shiftl 1 48) with (2 ^ 48). cbv zeta in *.
  set (s1 := st_modify s j _) in *. rewrite (found_at _ _ _ _ Hj1).
  revert Hw. match goal with |- session_wf s → op_facts s ?s' => change (op_step s s') end.
  set (e1 := e <| st_send_win ::= fun w => w + c |>) in *.
  assert (st_send_win e1 = st_send_win e + c ∧ st_send_blocked e1 = st_send_blocked e) as [Ew Eb] by done.
  destruct (Z.gtb_spec (st_send_win e1) (2 ^ 48)) as [|Hle1]; [by apply kill_op |].
  destruct (st_send_blocked e1 && (st_send_win e1 >? 0) && (s_send_win s1 >? 0)) eqn:Hc2.
  - etrans; [by apply Hwk | by apply ev_simple_op].
  - apply quiet_op; try done. intros _. split; [done |]. intros _. rewrite Hm1.
    split; [done |]. apply map_Forall_insert_2; [| done]. split; [done |]. intros B.
    rewrite B in Hc2. apply andb_false_iff in Hc2 as [Hc2|Hc2]; [left | right]; cbn in Hc2.
    + destruct (Z.gtb_spec (st_send_win e1) 0); done || lia.
    + change (s_send_win s1) with (s_send_win s) in *.
      destruct (Z.gtb_spec (s_send_win s) 0); done || lia.
Qed.

Lemma on_window_update_op s f :
  s_dead s = false → op_step s (on_window_update s f).
Proof.
  intros Hd. unfold on_window_update. destruct (f_len f =? 4); cbn [negb]; [| auto].
  pose proof (be_get32_range (vbytes (f_payload f))) as Hc. cbv zeta.
  destruct (f_sid f =? MUX_SID_CONTROL); [by apply grant_session_op |].
  destruct (st_find (s_tab s) (f_sid f)) as [j|] eqn:Hfi; [| auto]. intros Hw.
  destruct (st_find_found s (f_sid f) j (fw_tab s (wf_flow s Hw)) Hfi) as [e Hj].
  by eapply grant_stream_op.
Qed.

(** ** Control frames *)

Lemma on_ping_op s f : frame_wf f → op_step s (on_ping s f).
Proof.
  intros (_ & _ & Hl & _). unfold on_ping.
  destruct (f_sid f =? MUX_SID_CONTROL); cbn [negb orb]; [| auto].
  destruct (Z.eqb_spec (f_len f) 8); cbn [negb]; [| auto]. destruct (has_flag _ _).
  - apply quiet_op; try done. intros [_ _ [] Hlv]. by split; [split |].
  - apply io_op, emit_step; [by apply hdr_ok_small | lia | done].
Qed.

Lemma on_goaway_op s f : op_step s (on_goaway s f).
Proof.
  unfold on_goaway. destruct (negb _); [auto |]. destruct (f_len f <? 8); [auto |]. by apply push_op.
Qed.

Lemma on_capacity_op s f : op_step s (on_capacity s f).
Proof. unfold on_capacity. do 2 (destruct (negb _); [auto |]). by apply push_op. Qed.

(** ** HELLO *)

(** [send_hello] crafts the TLVs of the session and nothing else. *)
Lemma send_hello_spec s (ack : bool) :
  io_wf s → hello_wf s →
  let w := mk_wframe (if ack then MUX_T_HELLO_ACK else MUX_T_HELLO) 0 0 (tlvs_bytes (hello_tlvs s)) in
  ∃ r s1, send_hello s ack = (r, if r =? 0 then s1 <| s_hello_sent := true |> else s1) ∧
    io_facts s s1 ∧
    (r = 0 ∧ outp s1 = outp s ++ enc w ∧ events s1 = events s ∧ s_dead s1 = s_dead s ∨
     r = MUX_ERR_NOSPACE ∧ s_dead s1 = true ∧
     (s_heap s ≠ [] ∨ s_max_out_buffer s < mux_out_pending s + MUX_HEADER_SIZE + 820)).
Proof.
  intros Hio Hh w. unfold send_hello.
  destruct (hello_blob_spec s Hh) as [(b & -> & Hb & Ht) Hl].
  unfold MUX_SID_CONTROL. rewrite u32_id by lia.
  destruct (emit_spec s (if ack then MUX_T_HELLO_ACK else MUX_T_HELLO) 0 0 (Some b)
    (zlen (tlvs_bytes (hello_tlvs s)))) as (r & s1 & -> & Hs1 & Hc);
    [by destruct ack | rewrite vbytes_Some; lia | unfold MUX_MAX_PAYLOAD; lia | done |].
  rewrite vbytes_Some, Ht in Hc. exists r, s1. split_and!; [done | done |].
  destruct Hc as [?|(-> & ? & _ & Hc)]; [by left | right]. split_and!; [done | done |].
  destruct Hc; [by left | right; lia].
Qed.

Lemma hello_sent_op s : op_step s (s <| s_hello_sent := true |>).
Proof. apply quiet_op; try done. intros [_ _ [] Hlv]. by split; [split |]. Qed.

Lemma send_hello_op s ack : op_step s (snd (send_hello s ack)).
Proof.
  intros Hw. destruct (send_hello_spec s ack (wf_io s Hw)) as (r & s1 & -> & Hs1 & _);
    [apply Hw |]. cbn [snd]. apply io_facts_op in Hs1. destruct (r =? 0); [| by apply Hs1].
  exact (op_step_trans s s1 _ Hs1 (hello_sent_op s1) Hw).
Qed.

(** Peer parameters may change while no stream exists. *)
Lemma hello_param_op s s' :
  s_peer_hello_seen s = false → static s' = static s → s_dead s' = s_dead s →
  s_out s' = s_out s → s_q s' = s_q s → s_heap s' = s_heap s → s_tab s' = s_tab s →
  s_recv_win s' = s_recv_win s → s_recv_pending s' = s_recv_pending s →
  s_blocked_count s' = s_blocked_count s →
  s_peer_hello_seen s' = false → s_next_local_sid s' = s_next_local_sid s →
  s_max_remote_sid s' = s_max_remote_sid s →
  (flow_wf s → 0 ≤ s_peer_init_window s' < 2 ^ 32 ∧ 0 ≤ s_peer_max_streams s' < 2 ^ 32) →
  (s_send_win s' = s_send_win s ∨ 0 ≤ s_send_win s' < 2 ^ 32) →
  op_step s s'.
Proof.
  intros Hh E1 E2 E3 E4 E5 E6 E7 E8 E9 Hh' E10 E11 Hp Hsend. apply quiet_op; try done; [| congruence | lia].
  intros [_ Hst Hf Hl]. pose proof (fw_early s Hf Hh) as Hemp.
  assert (t_count (s_tab s) = 0) as Hcnt
    by (rewrite stab_count_size, Hemp by apply Hf; by rewrite map_size_empty).
  assert (s_max_streams s' = s_max_streams s ∧ s_role s' = s_role s) as [Em Er]
    by (unfold static in E1; by simplify_eq).
  destruct (Hp Hf). destruct Hf. split.
  - split; rewrite ?E6, ?E7, ?E8, ?E9, ?E11, ?Hemp; try done.
    + by rewrite <- Hemp.
    + lia.
    + unfold sid_fresh. by rewrite Er, E6, E10, E11.
    + pose proof (sw_max_streams s Hst). lia.
  - unfold live_ok. rewrite E6, Hemp, E2. intros Hd. destruct (Hl Hd) as [? _].
    split; [lia | done].
Qed.

Lemma hello_tlv_op s e t val vlen :
  s_peer_hello_seen s = false →
  let s' := fst (hello_tlv s e t val vlen) in op_step s s' ∧ s_peer_hello_seen s' = false.
Proof.
  intros Hh. cbv zeta. pose proof (be_get32_range (vbytes val)). unfold hello_tlv.
  assert (flow_wf s → 0 ≤ s_peer_init_window s < 2 ^ 32 ∧ 0 ≤ s_peer_max_streams s < 2 ^ 32)
    as Hp by apply fw_peer.
  repeat (destruct (t =? _); [destruct (vlen =? 4); cbn [fst]; split; auto;
    apply hello_param_op; auto; cbn; auto; intros Hf; destruct (Hp Hf); auto |]).
  split; auto.
Qed.

Lemma hello_loop_op fuel s e payload len cursor :
  s_peer_hello_seen s = false →
  let '(_, s', _) := hello_loop fuel s e payload len cursor in
  op_step s s' ∧ s_peer_hello_seen s' = false.
Proof.
  revert s e cursor. induction fuel as [|fuel IH]; intros s e cursor Hh; simpl; [auto |].
  destruct (mux_tlv_next payload len cursor) as [|code|t val vlen c]; [auto | auto |].
  destruct (hello_tlv_op s e t val vlen Hh) as [Hop Hh'].
  destruct (hello_tlv s e t val vlen) as [s1 e1]. simpl in *.
  specialize (IH s1 e1 c Hh'). destruct (hello_loop fuel s1 e1 payload len c) as [[ok s'] e'].
  destruct IH as [IH ?]. split; [by etrans | done].
Qed.

Lemma hello_seen_op s : op_step s (s <| s_peer_hello_seen := true |>).
Proof. apply quiet_op; try done. intros [_ _ [] Hlv]. by split; [split |]. Qed.

Lemma on_hello_op s f ack : op_step s (on_hello s f ack).
Proof.
  unfold on_hello. destruct (negb _); [auto |].
  destruct (s_peer_hello_seen s) eqn:Hh; [auto |].
  pose proof (hello_loop_op (S (Z.to_nat (f_len f))) s hello_zero (f_payload f) (f_len f) 0 Hh) as Hop.
  destruct (hello_loop _ _ _ _ _ _) as [[ok s1] e]. destruct Hop as [Hop _].
  etrans; [exact Hop |]. destruct ok; cbn [negb]; [| auto].
  etrans; [apply hello_seen_op |]. etrans; [by apply (push_op _ (EV_PEER_HELLO e)) |].
  destruct (negb ack && _ && _); [apply send_hello_op | auto].
Qed.

(** ** One frame *)

Lemma process_frame_op s f : frame_wf f → s_dead s = false → op_step s (process_frame s f).
Proof.
  intros Hf Hd. unfold process_frame. destruct (negb _ && _ && _); [auto |].
  repeat (destruct (f_type f =? _);
    [auto using on_data_op, on_window_update_op, on_ping_op, on_goaway_op, on_hello_op, on_capacity_op |]).
  auto.
Qed.
