(* ===== verification/SessionApi.v ===== *)
(** The public API: every call preserves the session invariant; the exact
    effect of the writing, crediting and opening loops. *)

From stdpp Require Import base list numbers gmap.
From Stdlib Require Import ZArith Lia.
From S2P Require Import Prelude Frame OutBuf EventQueue Probe StreamTable Session SessionIO Handshake Recv SessionInv SessionOps.

(** ** mux_recv *)

Lemma feed_op k s bs : bytes_ok bs → s_dead s = false → op_step s (snd (feed k s bs)).
Proof.
  revert s bs. induction k as [|k IH]; intros s bs Hb Hd; [cbn; auto |].
  rewrite feed_S. cbv zeta. destruct (0 <? zlen bs); [| auto]. destruct (q_full s); [auto |].
  destruct (mux_parse _ _) as [r|[f c]] eqn:E; [cbn; destruct (r =? _); auto |].
  assert (frame_wf f) as Hf.
  { apply parse_enc_inv in E as (w & ? & ? & -> & _); [| done]. by apply frame_of_wf. }
  pose proof (process_frame_op s f Hf Hd) as Hp.
  destruct (s_dead (process_frame s f)) eqn:Hd'; [done |].
  specialize (IH (process_frame s f) (zdrop c bs) (bytes_ok_zdrop _ _ Hb) Hd').
  destruct (feed k _ _) as [c' s']. by etrans.
Qed.

Lemma mux_recv_op s bs : bytes_ok bs → op_step s (snd (mux_recv s (Some bs) (zlen bs))).
Proof.
  intros Hb. destruct (s_dead s) eqn:Hd.
  - unfold mux_recv. by rewrite Hd, bool_decide_eq_false_2.
  - pose proof (zlen_nonneg bs). rewrite (mux_recv_feed (Z.to_nat (zlen bs))) by (done || lia).
    by apply feed_op.
Qed.

(** ** mux_open *)

Lemma land_1 x : Z.land x 1 = x mod 2.
Proof. exact (Z.land_ones x 1 ltac:(lia)). Qed.

Lemma local_fresh s s' k :
  flow_wf s → k = s_next_local_sid s → k ≠ 2 ^ 32 - 1 → k ≠ 0 →
  (∀ i, is_Some (streams s' !! i) → i = k ∨ is_Some (streams s !! i)) →
  s_role s' = s_role s → s_next_local_sid s' = u32 (k + 2) →
  s_max_remote_sid s' = s_max_remote_sid s → sid_fresh s'.
Proof.
  intros Hf Ek Hk Hk0 Hm Er En Em. destruct (fw_sid s Hf) as (Hr & Hp & Hc & Hrem). unfold sid_fresh.
  rewrite Er, En, Em. pose proof (u32_range (k + 2)). split_and!; [lia | lia | | |].
  3: { intros i [->|Hi]%Hm Hpi; [| by apply Hrem]. by rewrite Ek in Hpi. }
  - rewrite <- Hp, <- Ek, !land_1. unfold u32.
    rewrite Z.mod_mod_divide by by exists (2 ^ 31).
    replace (k + 2) with (k + 1 * 2) by lia. by rewrite Z.mod_add.
  - destruct (decide (k + 2 < 2 ^ 32)).
    + right. rewrite u32_id by lia. intros i [->|Hi]%Hm Hpi; [lia |].
      destruct Hc as [?|Hc]; [lia |]. specialize (Hc i Hi Hpi). lia.
    + left. replace (k + 2) with (2 ^ 32) by lia. done.
Qed.

(** An id of the peer's parity above the highest one seen is not in use. *)
Lemma remote_sid_absent s k :
  flow_wf s → Z.land k 1 ≠ local_parity (s_role s) → s_max_remote_sid s < k → streams s !! k = None.
Proof.
  intros Hf Hp Hlt. destruct (fw_sid s Hf) as (_ & _ & _ & Hr). apply eq_None_not_Some. intros Hs.
  specialize (Hr _ Hs Hp). lia.
Qed.

(** The id allocated next is not in use. *)
Lemma next_sid_absent s :
  flow_wf s → s_next_local_sid s ≠ 0 → streams s !! s_next_local_sid s = None.
Proof.
  intros Hf H0. destruct (fw_sid s Hf) as (_ & Hp & Hc & _). apply eq_None_not_Some. intros Hs.
  destruct Hc as [?|Hc]; [done |]. specialize (Hc _ Hs Hp). lia.
Qed.

Lemma mux_open_op s meta n :
  n = zlen (vbytes meta) → s_next_local_sid s ≠ 2 ^ 32 - 1 →
  op_step s (snd (mux_open s meta n)).
Proof.
  intros Hn Hsid. unfold mux_open. destruct (s_dead s); [auto |].
  destruct (s_peer_hello_seen s) eqn:Hhs; cbn [negb]; [| auto].
  destruct (s_local_goaway s); [auto |].
  destruct (Z.gtb_spec n MUX_MAX_META) as [|Hmeta]; [auto |]. rewrite Z.geb_leb.
  destruct (Z.leb_spec (s_peer_max_streams s) (t_count (s_tab s))) as [|Hcap]; [auto |].
  unfold MUX_SID_CONTROL. destruct (Z.eqb_spec (s_next_local_sid s) 0) as [|H0]; [auto |].
  intros Hw. pose proof (wf_flow s Hw) as Hf. pose proof (zlen_nonneg (vbytes meta)).
  pose proof (next_sid_absent s Hf H0) as Hk. destruct (fw_sid s Hf) as (Hsr & _).
  set (k := s_next_local_sid s) in *. set (s0 := s <| s_next_local_sid := u32 (k + 2) |>).
  destruct (insert_stream_spec s0 k (open_record s) (fw_tab s Hf) Hk)
    as (o & h & t & E & Hh & Hc); [done | done |]. cbv zeta in Hc. rewrite E.
  destruct Hc as [[-> ->]|(j & -> & Hw2 & Hm & Hj & Hct)].
  - revert Hw. apply quiet_op; try done; [| naive_solver]. intros [_ _ [] Hl].
    split; [| exact Hl]. split; try done. apply (local_fresh s _ k); try done. by right.
  - set (s2 := st_modify (s0 <| s_tab := t |> <| s_heap := h |>) j (open_record s)) in *.
    assert (op_step s s2) as Hop.
    { assert (s2 = st_modify (s <| s_tab := t |> <| s_heap := h |>) j (open_record s)
                <| s_next_local_sid := u32 (k + 2) |>) as -> by reflexivity.
      apply (open_op s k t h j (fun x => x <| s_next_local_sid := u32 (k + 2) |>));
        [done | intros Eh; apply (Hh Eh) | done | lia | done | lia | | intros; cbn; apply Hf
        | intros x; exists (u32 (k + 2)), (s_max_remote_sid x); by destruct x].
      intros _. apply (local_fresh s _ k); try done.
      intros i. rewrite (Hm : streams _ = _). intros [->|[_ ?]]%lookup_insert_is_Some; auto. }
    revert Hw. match goal with |- session_wf s → op_facts s ?s' => change (op_step s s') end.
    set (pl := if negb (n =? 0) then meta else None).
    assert (vbytes pl = vbytes meta) as Epl.
    { subst pl n. destruct (Z.eqb_spec (zlen (vbytes meta)) 0) as [E0|]; [| done]. cbn [negb].
      destruct (vbytes meta) as [|x l]; [done |]. rewrite zlen_cons in E0.
      pose proof (zlen_nonneg l). lia. }
    unfold MUX_MAX_META in *. rewrite u32_id by lia.
    assert (io_step s2 (snd (emit s2 MUX_T_DATA MUX_F_SYN k pl n))) as Hio.
    { apply emit_step; [by apply hdr_ok_small | rewrite Epl; lia | unfold MUX_MAX_PAYLOAD; lia]. }
    change (st_modify _ j _) with s2. destruct (emit s2 _ _ _ _ _) as [r s3]. cbn [snd] in Hio.
    etrans; [exact Hop |]. destruct (negb (r =? 0)); [| by apply io_op].
    eapply io_then_stream; [exact Hio | exact Hj |]. intros Hj'. by eapply close_op.
Qed.

(** ** mux_write *)

(** A DATA chunk of stream [sid]. *)
Definition data_frame (sid : Z) (w : wframe) : Prop :=
  w_type w = MUX_T_DATA ∧ w_flags w = 0 ∧ w_sid w = sid ∧
  0 < zlen (w_payload w) ≤ MUX_MAX_DATA_FRAME.

Lemma outp_len s : io_wf s → zlen (outp s) = mux_out_pending s.
Proof. intros [_ Ho _]. by eapply pending_len. Qed.

(** The chunking loop places a prefix of the data, cut into frames, and stops
    short only by killing the session. *)
Lemma write_loop_spec fuel s sid p want sent :
  io_wf s → 0 ≤ sid < 2 ^ 32 → 0 ≤ sent ≤ want → want ≤ zlen p →
  want - sent ≤ Z.of_nat fuel * MUX_MAX_DATA_FRAME →
  ∃ sent' s' ws, write_loop fuel s sid p want sent = (sent', s') ∧ io_facts s s' ∧
    sent ≤ sent' ≤ want ∧ outp s' = outp s ++ wire ws ∧ Forall (data_frame sid) ws ∧
    (length ws ≤ fuel)%nat ∧
    concat (w_payload <$> ws) = ztake (sent' - sent) (zdrop sent p) ∧
    (sent' = want ∧ s_dead s' = s_dead s ∧ events s' = events s ∨
     sent' < want ∧ s_dead s' = true ∧
     (s_heap s ≠ [] ∨
      s_max_out_buffer s < mux_out_pending s + (want - sent) + MUX_HEADER_SIZE * Z.of_nat fuel)).
Proof.
  revert s sent. induction fuel as [|fuel IH]; intros s sent Hw Hsid Hs Hp Hf.
  { exists sent, s, []. rewrite app_nil_r. replace (sent - sent) with 0 by lia.
    split_and!; try done; try (cbn; lia);
      [by apply (reflexivity (R := io_step)) | left; split_and!; auto; lia]. }
  cbn [write_loop]. destruct (Z.ltb_spec sent want).
  2: { exists sent, s, []. rewrite app_nil_r. replace (sent - sent) with 0 by lia.
       split_and!; try done; try (cbn; lia);
         [by apply (reflexivity (R := io_step)) | left; split_and!; auto; lia]. }
  unfold MUX_MAX_DATA_FRAME in *.
  set (chunk := if want - sent >? 64 * 1024 then 64 * 1024 else want - sent).
  assert (0 < chunk ≤ 64 * 1024 ∧ chunk ≤ want - sent ∧ (chunk = 64 * 1024 ∨ chunk = want - sent)) as Hck
    by (subst chunk; destruct (Z.gtb_spec (want - sent) (64 * 1024)); lia).
  clearbody chunk. rewrite u32_id by lia.
  destruct (emit_spec s MUX_T_DATA 0 sid (Some (zdrop sent p)) chunk)
    as (r & s1 & -> & F1 & Hc); [done | rewrite vbytes_Some, zlen_zdrop; lia
      | unfold MUX_MAX_PAYLOAD; lia | done |].
  rewrite vbytes_Some in Hc. set (w := mk_wframe MUX_T_DATA 0 sid (ztake chunk (zdrop sent p))) in Hc.
  assert (zlen (w_payload w) = chunk) as Lw by (cbn; rewrite zlen_ztake; [done | rewrite zlen_zdrop; lia]).
  destruct Hc as [(-> & Ho1 & Ev1 & D1)|(-> & D1 & Ho1 & Hlim)].
  - cbn [Z.eqb negb]. rewrite Z.eqb_refl. cbn [negb].
    destruct (IH s1 (sent + chunk)) as (sent' & s' & ws & E & F2 & Hr & Ho & Hd & Hct & Hcat & Hcase);
      [apply F1 | done | lia | lia | lia |].
    exists sent', s', (w :: ws). split_and!; [done | | lia | lia | | | cbn; lia | |].
    + exact (io_step_trans s s1 s' (fun _ => F1) (fun _ => F2) Hw).
    + rewrite Ho, Ho1, <- (assoc_L (++)). done.
    + constructor; [| done]. unfold data_frame, MUX_MAX_DATA_FRAME. split_and!; try done; lia.
    + rewrite fmap_cons. cbn [concat]. rewrite Hcat.
      change (w_payload w) with (ztake chunk (zdrop sent p)). rewrite <- zdrop_zdrop by lia.
      rewrite (ztake_zdrop_comm (sent' - (sent + chunk)) chunk) by lia.
      replace (chunk + (sent' - (sent + chunk))) with (sent' - sent) by lia.
      rewrite <- (ztake_zdrop chunk (ztake (sent' - sent) (zdrop sent p))) at 2.
      by rewrite ztake_ztake by lia.
    + destruct Hcase as [(? & ? & ?)|(? & ? & Hlim)]; [left; split_and!; congruence | right].
      split_and!; [done | done |]. destruct Hlim as [Hh|Hlim].
      * left. intros Hh0. by destruct (io_heap _ _ F1 Hh0).
      * right. rewrite <- (outp_len s1), Ho1, zlen_app, enc_len, Lw, (outp_len s) in Hlim by (done || apply F1).
        rewrite (core_field s_max_out_buffer s s1) in Hlim by (done || apply F1).
        unfold MUX_HEADER_SIZE in *. lia.
  - exists sent, s1, []. rewrite app_nil_r. replace (sent - sent) with 0 by lia.
    split_and!; try done; try (cbn; lia). right. split_and!; [done | done |].
    destruct Hlim as [?|Hlim]; [by left | right]. unfold MUX_HEADER_SIZE in *. lia.
Qed.

(** Debiting both send windows. *)
Definition debit_send (s : mux_session) (j : nat) (n : Z) : mux_session :=
  st_modify s j (fun e => e <| st_send_win ::= fun w => w - n |>)
    <| s_send_win ::= fun w => w - n |>.

Lemma debit_send_op s j k e n :
  found s j k e → 0 ≤ n ≤ st_send_win e → n ≤ s_send_win s →
  op_step s (debit_send s j n) ∧
  (session_wf s → found (debit_send s j n) j k (e <| st_send_win ::= fun w => w - n |>)).
Proof.
  intros Hj Hn Hn'.
  assert (session_wf s → stab_wf (s_tab (debit_send s j n)) ∧
    streams (debit_send s j n) = <[k := e <| st_send_win ::= fun w => w - n |>]> (streams s) ∧
    found (debit_send s j n) j k (e <| st_send_win ::= fun w => w - n |>)) as Hm.
  { intros [_ _ Hf _].
    destruct (st_modify_found s j k e (fun e => e <| st_send_win ::= fun w => w - n |>)
      (fw_tab s Hf) Hj) as (? & ? & ?); [apply Hj | done | done]. }
  split; [| intros Hw; apply Hm, Hw]. apply quiet_op; try done. intros Hw.
  destruct (Hm Hw) as (Hw' & Hms & _). destruct Hw as [_ _ Hf Hl].
  pose proof (found_streams s j k e (fw_tab s Hf) Hj) as Hke. split.
  - eapply (flow_wf_update s _ k e Hf Hke Hw'); try done; [| split; apply Hf | cbn; lia |].
    + pose proof (fw_send s Hf). cbn. lia.
    + destruct (fw_streams s Hf k e Hke). split; cbn; done || lia.
  - intros Hd. destruct (Hl Hd) as [Hs Hsl]. rewrite Hms.
    assert (s_send_win (debit_send s j n) = s_send_win s - n) as -> by done.
    split; [lia |]. apply map_Forall_insert_2.
    + destruct (Hsl k e Hke) as [? Hb]. split; cbn; [lia |]. intros B. specialize (Hb B). lia.
    + intros i x Hi. destruct (Hsl i x Hi) as [? Hb]. split; [done |]. intros B. specialize (Hb B). lia.
Qed.

Lemma write_fuel want :
  0 ≤ want → want ≤ Z.of_nat (Z.to_nat (want / MUX_MAX_DATA_FRAME + 1)) * MUX_MAX_DATA_FRAME.
Proof.
  intros. unfold MUX_MAX_DATA_FRAME. pose proof (Z.div_mod want (64 * 1024)).
  pose proof (Z.mod_pos_bound want (64 * 1024)). pose proof (Z.div_pos want (64 * 1024)). lia.
Qed.

(** The body of [mux_write] on a stream with room. *)
Lemma mux_write_room s sid p n j e :
  session_wf s → found s j sid e → n = zlen p → n < 2 ^ 63 → s_dead s = false →
  st_life e ≠ LIFE_HCL_LOCAL → st_find (s_tab s) sid = Some j →
  let room := Z.min (st_send_win e) (s_send_win s) in
  let want := Z.min n room in
  0 < room →
  ∃ sent s1 ws, io_facts s s1 ∧ found s1 j sid e ∧ 0 ≤ sent ≤ want ∧
    outp s1 = outp s ++ wire ws ∧ Forall (data_frame sid) ws ∧
    zlen ws ≤ want / MUX_MAX_DATA_FRAME + 1 ∧
    concat (w_payload <$> ws) = ztake sent p ∧
    (sent = want ∧ s_dead s1 = false ∧ events s1 = events s ∨
     sent < want ∧ s_dead s1 = true ∧
     (s_heap s ≠ [] ∨ s_max_out_buffer s < mux_out_pending s + want +
        MUX_HEADER_SIZE * (want / MUX_MAX_DATA_FRAME + 1))) ∧
    let s2 := debit_send s1 j sent in
    mux_write s sid (Some p) n =
      (sent, if (sent <? n) && ((st_send_win e - sent <=? 0) || (s_send_win s - sent <=? 0))
             then set_blocked s2 j true else s2).
Proof.
  intros Hw Hj Hn Hn63 Hd Hlife Hfi room want Hroom. pose proof (zlen_nonneg p).
  pose proof (found_streams s j sid e (fw_tab s (wf_flow s Hw)) Hj) as Hke.
  destruct (fw_streams s (wf_flow s Hw) sid e Hke) as [Hk _ _ _].
  destruct (write_loop_spec (Z.to_nat (want / MUX_MAX_DATA_FRAME + 1)) s sid p want 0)
    as (sent & s1 & ws & E & F & Hs & Ho & Hdf & Hct & Hcat & Hcase);
    [apply Hw | lia | lia | lia | rewrite Z.sub_0_r; apply write_fuel; lia |].
  rewrite Z.sub_0_r, zdrop_0 in Hcat. exists sent, s1, ws.
  assert (found s1 j sid e) as Hj1 by (eapply core_found; [apply F | done]).
  assert (0 ≤ want / MUX_MAX_DATA_FRAME) as Hdiv
    by (apply Z.div_pos; [lia | unfold MUX_MAX_DATA_FRAME; lia]).
  split_and!; try done; try lia.
  - unfold zlen. lia.
  - rewrite Z.sub_0_r, Hd in Hcase. destruct Hcase as [?|(? & ? & Hlim)]; [by left | right].
    split_and!; [done | done |]. destruct Hlim as [?|Hlim]; [by left | right].
    by rewrite Z2Nat.id in Hlim by lia.
  - unfold mux_write. rewrite bool_decide_eq_false_2 by done. cbn [andb]. rewrite Hd, Hfi.
    rewrite (found_at _ _ _ _ Hj), decide_False by done.
    assert ((if s_send_win s <? st_send_win e then s_send_win s else st_send_win e) = room) as ->
      by (subst room; destruct (Z.ltb_spec (s_send_win s) (st_send_win e)); lia).
    destruct (Z.leb_spec room 0); [lia |]. rewrite to_i64_id by lia.
    assert ((if n >? room then room else n) = want) as ->
      by (subst want; destruct (Z.gtb_spec n room); lia).
    rewrite vbytes_Some, E. fold (debit_send s1 j sent).
    assert (session_wf s1) as Hw1 by (by apply (op_wf s), io_facts_op).
    destruct (st_modify_found s1 j sid e (fun e => e <| st_send_win ::= fun w => w - sent |>)
      (fw_tab s1 (wf_flow s1 Hw1)) Hj1) as (_ & _ & Hj2); [apply Hj | done |].
    assert (st_at (debit_send s1 j sent) j = e <| st_send_win ::= fun w => w - sent |>) as ->
      by exact (found_at _ _ _ _ Hj2).
    assert (s_send_win (debit_send s1 j sent) = s_send_win s - sent) as ->
      by (cbn; by rewrite (core_field s_send_win s s1) by (done || apply F)).
    done.
Qed.

Lemma mux_write_op s sid p :
  zlen p < 2 ^ 63 → op_step s (snd (mux_write s sid (Some p) (zlen p))).
Proof.
  intros Hn Hw.
  destruct (s_dead s) eqn:Hd; [by unfold mux_write; rewrite bool_decide_eq_false_2, Hd by done; apply op_step_refl |].
  destruct (st_find (s_tab s) sid) as [j|] eqn:Hfi;
    [| unfold mux_write; rewrite bool_decide_eq_false_2, Hd, Hfi by done; by apply op_step_refl].
  destruct (st_find_found s sid j (fw_tab s (wf_flow s Hw)) Hfi) as [e Hj].
  destruct (decide (st_life e = LIFE_HCL_LOCAL)).
  { unfold mux_write. rewrite bool_decide_eq_false_2, Hd, Hfi, (found_at _ _ _ _ Hj) by done.
    rewrite decide_True by done. by apply op_step_refl. }
  destruct (decide (0 < Z.min (st_send_win e) (s_send_win s))) as [Hroom|Hroom].
  - destruct (mux_write_room s sid p (zlen p) j e) as
      (sent & s1 & ws & F & Hj1 & Hs & _ & _ & _ & _ & _ & ->); try done. cbn [snd].
    assert (s_send_win s1 = s_send_win s) as Es by (apply (core_field s_send_win); [done | apply F]).
    destruct (debit_send_op s1 j sid e sent Hj1) as [Hop Hj2]; [lia | lia |].
    revert Hw. match goal with |- _ → op_facts s ?s' => change (op_step s s') end.
    eapply op_seq; [exact (io_facts_op s s1 F) |]. intros Hw.
    assert (session_wf s1) as Hw1 by (by apply (op_wf s), io_facts_op).
    destruct ((sent <? zlen p) && _) eqn:Hc; [| exact Hop].
    etrans; [exact Hop |]. eapply set_blocked_op; [by apply Hj2 |]. intros _. cbn. rewrite Es.
    apply andb_true_iff in Hc as [_ [?%Z.leb_le|?%Z.leb_le]%orb_true_iff]; [by left | by right].
  - unfold mux_write. rewrite bool_decide_eq_false_2, Hd, Hfi, (found_at _ _ _ _ Hj) by done.
    rewrite decide_False by done. cbn [andb].
    destruct (Z.leb_spec (if s_send_win s <? st_send_win e then s_send_win s else st_send_win e) 0) as [Hle|];
      [| destruct (Z.ltb_spec (s_send_win s) (st_send_win e)); lia].
    apply (set_blocked_op s j sid e true Hj); [| done]. intros _. lia.
Qed.

(** ** mux_close, mux_reset, mux_send_capacity, mux_goaway *)

Lemma mux_close_op s sid : op_step s (snd (mux_close s sid)).
Proof.
  unfold mux_close. destruct (s_dead s); [auto |].
  destruct (st_find (s_tab s) sid) as [j|] eqn:Hfi; [| auto]. intros Hw.
  destruct (st_find_found s sid j (fw_tab s (wf_flow s Hw)) Hfi) as [e Hj].
  pose proof (found_streams s j sid e (fw_tab s (wf_flow s Hw)) Hj) as Hke.
  destruct (fw_streams s (wf_flow s Hw) sid e Hke) as [Hk _ _ _].
  revert Hw. match goal with |- _ → op_facts s ?s' => change (op_step s s') end.
  case_decide; [auto |].
  assert (io_step s (snd (emit s MUX_T_DATA MUX_F_FIN sid None 0))) as Hio.
  { apply emit_step; [apply hdr_ok_small; done || lia | done | done]. }
  destruct (emit s MUX_T_DATA MUX_F_FIN sid None 0) as [r s1]. cbn [snd] in Hio.
  destruct (negb (r =? 0)); [by apply io_op |].
  eapply io_then_stream; [exact Hio | exact Hj |]. intros Hj1.
  case_decide; [by eapply close_op |].
  eapply modify_op; [exact Hj1 | apply Hj | done | done | | done]. intros []; by split.
Qed.

Lemma mux_reset_op s sid code : op_step s (snd (mux_reset s sid code)).
Proof.
  unfold mux_reset. destruct (s_dead s); [auto |].
  destruct (st_find (s_tab s) sid) as [j|] eqn:Hfi; [| auto]. intros Hw.
  destruct (st_find_found s sid j (fw_tab s (wf_flow s Hw)) Hfi) as [e Hj].
  pose proof (found_streams s j sid e (fw_tab s (wf_flow s Hw)) Hj) as Hke.
  destruct (fw_streams s (wf_flow s Hw) sid e Hke) as [Hk _ _ _]. revert Hw. cbn [snd].
  eapply io_then_stream; [| exact Hj | intros; by eapply close_op]. apply emit_rst_io. lia.
Qed.

Lemma mux_send_capacity_op s weight : op_step s (snd (mux_send_capacity s weight)).
Proof.
  unfold mux_send_capacity. destruct (s_dead s); [auto |].
  apply io_op, emit_step; [by apply hdr_ok_small | by rewrite vbytes_Some, be_put32_len | done].
Qed.

Lemma mux_goaway_op s reason : op_step s (snd (mux_goaway s reason)).
Proof.
  unfold mux_goaway. destruct (s_dead s); [auto |].
  etrans; [| apply io_op, emit_step; [by apply hdr_ok_small | | done]].
  - apply quiet_op; try done. intros [_ _ [] Hlv]. by split; [split |].
  - rewrite vbytes_Some, zlen_app, !be_put32_len. done.
Qed.

(** ** mux_consume *)

(** The crediting loop moves credit from [pending] to [win], one frame per
    chunk, and leaves some pending only by killing the session. *)
Lemma credit_loop_spec fuel s sid win pending :
  io_wf s → 0 ≤ sid < 2 ^ 32 → pending ≤ Z.of_nat fuel * 0xFFFFFFFF →
  ∃ s' win' pending', credit_loop fuel s sid win pending = (s', win', pending') ∧
    io_facts s s' ∧ win' + pending' = win + pending ∧ win ≤ win' ∧
    (0 ≤ pending → 0 ≤ pending') ∧
    (pending' ≤ 0 ∨ s_dead s' = true).
Proof.
  revert s win pending. induction fuel as [|fuel IH]; intros s win pending Hw Hsid Hf.
  { exists s, win, pending.
    split_and!; [done | by apply (reflexivity (R := io_step)) | lia | lia | lia | left; lia]. }
  cbn [credit_loop]. destruct (Z.gtb_spec pending 0).
  2: { exists s, win, pending.
       split_and!; [done | by apply (reflexivity (R := io_step)) | lia | lia | lia | left; lia]. }
  set (chunk := if pending >? 0xFFFFFFFF then _ else _).
  assert (0 < chunk ≤ 0xFFFFFFFF ∧ chunk ≤ pending ∧ (chunk = 0xFFFFFFFF ∨ chunk = pending)) as Hck.
  { subst chunk. destruct (Z.gtb_spec pending 0xFFFFFFFF); [lia |]. rewrite u32_id by lia. lia. }
  clearbody chunk.
  destruct (emit_spec s MUX_T_WINDOW_UPDATE 0 sid (Some (be_put32 chunk)) 4)
    as (r & s1 & -> & F1 & Hc); [done | by rewrite vbytes_Some, be_put32_len | done | done |].
  destruct Hc as [(-> & _)|(-> & D1 & _)].
  - rewrite Z.eqb_refl. cbn [negb].
    destruct (IH s1 (win + chunk) (pending - chunk)) as (s' & win' & pend' & -> & F2 & Hs & Hle & Hp & Hc);
      [apply F1 | done | lia |].
    exists s', win', pend'. split_and!; [done | | lia | lia | intros; apply Hp; lia | done].
    exact (io_step_trans s s1 s' (fun _ => F1) (fun _ => F2) Hw).
  - cbn. exists s1, win, pending. split_and!; [done | done | lia | lia | lia | by right].
Qed.

Lemma credit_emit_spec s sid win pending :
  io_wf s → 0 ≤ sid < 2 ^ 32 → 0 < pending →
  ∃ s' win' pending', credit_emit s sid win pending = (s', win', pending') ∧
    io_facts s s' ∧ win' + pending' = win + pending ∧ win ≤ win' ∧ 0 ≤ pending' ∧
    (pending' = 0 ∨ s_dead s' = true).
Proof.
  intros Hw Hs Hp. unfold credit_emit.
  destruct (credit_loop_spec (Z.to_nat (pending / 0xFFFFFFFF + 1)) s sid win pending)
    as (s' & w & p & E & F & Hsum & Hle & Hp' & Hc); [done | done | |].
  { pose proof (Z.div_mod pending 0xFFFFFFFF). pose proof (Z.mod_pos_bound pending 0xFFFFFFFF).
    pose proof (Z.div_pos pending 0xFFFFFFFF). lia. }
  exists s', w, p. split_and!; auto; try lia. specialize (Hp' ltac:(lia)).
  destruct Hc; [left; lia | by right].
Qed.

Lemma credit_session_op s : op_step s (credit_session s).
Proof.
  unfold credit_session. destruct (Z.leb_spec (s_recv_pending s) 0); [auto |].
  destruct (_ * 2 <? _); [auto |]. intros Hw.
  destruct (credit_emit_spec s MUX_SID_CONTROL (s_recv_win s) (s_recv_pending s) (wf_io s Hw))
    as (s1 & w & p & -> & F & Hs & Hle & Hp & _); [done | lia |].
  assert (s_recv_win s1 = s_recv_win s ∧ s_recv_pending s1 = s_recv_pending s) as [E1 E2]
    by (destruct F as [C _ _ _ _ _ _]; split;
        [by apply (core_field s_recv_win) | by apply (core_field s_recv_pending)]).
  pose proof (fw_recv s (wf_flow s Hw)).
  eapply (op_step_trans s s1); [by apply io_facts_op | | done].
  apply quiet_op; try done; [| cbn; lia]. intros [_ _ [] Hl]. split; [| exact Hl].
  split; try done; cbn; lia.
Qed.

Lemma credit_stream_op s j k e : found s j k e → op_step s (credit_stream s j).
Proof.
  intros Hj. unfold credit_stream. rewrite (found_at _ _ _ _ Hj).
  destruct (Z.leb_spec (st_recv_pending e) 0); [auto |]. destruct (_ * 2 <? _); [auto |].
  intros Hw. pose proof (found_streams s j k e (fw_tab s (wf_flow s Hw)) Hj) as Hke.
  destruct (fw_streams s (wf_flow s Hw) k e Hke) as [Hk Hsw Hrw Hrp].
  replace (st_sid e) with k by (symmetry; apply Hj).
  destruct (credit_emit_spec s k (st_recv_win e) (st_recv_pending e) (wf_io s Hw))
    as (s1 & w & p & -> & F & Hs & Hle & Hp & _); [lia | lia |].
  assert (found s1 j k e) as Hj1 by (eapply core_found; [apply F | done]).
  eapply (op_step_trans s s1); [by apply io_facts_op | | done].
  eapply modify_op; [exact Hj1 | apply Hj | done | done | | done]. intros _. split; cbn; done || lia.
Qed.

(** The host hands back [n] bytes: the debt to the peer grows by [n]. *)
Definition owe (s : mux_session) (n : Z) : mux_session := s <| s_recv_pending ::= fun p => p + n |>.

Lemma owe_wf s n : 0 ≤ n → session_wf s → session_wf (owe s n).
Proof.
  intros Hn [[] Hst [] Hl]. split; [by split | by apply (static_wf_eq s) | | exact Hl].
  split; try done. cbn. lia.
Qed.

Lemma mux_consume_op s sid n :
  0 ≤ n < 2 ^ 63 → s_dead s = false → op_step (owe s n) (snd (mux_consume s sid n)).
Proof.
  intros Hn Hd. unfold mux_consume. rewrite Hd, to_i64_id by lia.
  destruct (Z.eqb_spec n 0) as [->|].
  { assert (owe s 0 = s) as ->; [| auto]. transitivity (eta_session s); [| by destruct s].
    unfold owe, upd, upd_s_recv_pending, eta_session. by rewrite Z.add_0_r. }
  fold (owe s n). eapply op_seq; [apply credit_session_op |]. intros Hw0.
  pose proof (op_wf _ _ (credit_session_op (owe s n) Hw0)) as Hw. clear Hw0.
  set (s1 := credit_session (owe s n)) in *.
  destruct (st_find (s_tab s1) sid) as [j|] eqn:Hfi; [| auto].
  destruct (st_find_found s1 sid j (fw_tab s1 (wf_flow s1 Hw)) Hfi) as [e Hj].
  destruct (st_modify_found s1 j sid e (fun e => e <| st_recv_pending ::= fun p => p + n |>)
    (fw_tab s1 (wf_flow s1 Hw)) Hj) as (_ & _ & Hj2); [apply Hj | done |].
  cbn [snd]. etrans; [| eapply credit_stream_op; exact Hj2].
  eapply modify_op; [exact Hj | apply Hj | done | done | | done]. intros []. split; cbn; done || lia.
Qed.

(** ** mux_on_timer, and the host's drain calls *)

(** Timer fields are outside the invariant. *)
Lemma timer_fields_op s b1 b2 d sn n :
  op_step s (s <| s_timer_started := b1 |> <| s_ping_outstanding := b2 |> <| s_ping_due_ms := d |>
               <| s_ping_sent_ms := sn |> <| s_ping_nonce := n |>).
Proof. apply quiet_op; try done. intros [_ _ [] Hlv]. by split; [split |]. Qed.

Lemma timer_ping_op s now : op_step s (timer_ping s now).
Proof.
  unfold timer_ping. set (b := _ ++ _).
  assert (io_step s (snd (emit s MUX_T_PING 0 MUX_SID_CONTROL (Some b) 8))) as Hio.
  { apply emit_step; [by apply hdr_ok_small | | done].
    subst b. rewrite vbytes_Some, zlen_app, !be_put32_len. done. }
  destruct (emit s _ _ _ _ _) as [r s1]. cbn [snd] in Hio.
  destruct (r =? 0); [| by apply io_op]. etrans; [by apply io_op |].
  exact (timer_fields_op s1 (s_timer_started s1) true (u64 (now + s_heartbeat_ms s1)) now
           (u64 (s_ping_nonce s1 + 1))).
Qed.

Lemma mux_on_timer_op s now : op_step s (snd (mux_on_timer s now)).
Proof.
  unfold mux_on_timer. destruct (s_dead s || _); [auto |].
  destruct (s_timer_started s); cbn [negb].
  - destruct (s_ping_outstanding s && _ && _); [cbn [snd]; auto |].
    set (s1 := if now >=? s_ping_due_ms s then timer_ping s now else s).
    assert (op_step s s1) as H1 by (subst s1; destruct (now >=? s_ping_due_ms s); [apply timer_ping_op | auto]).
    by destruct (s_ping_outstanding s1 && _).
  - exact (timer_fields_op s true (s_ping_outstanding s) (u64 (now + s_heartbeat_ms s))
             (s_ping_sent_ms s) (s_ping_nonce s)).
Qed.

Lemma send_advance_pending limit o n :
  ob_wf limit o → 0 ≤ n →
  ob_wf limit (ob_send_advance o n) ∧ pending (ob_send_advance o n) = zdrop n (pending o).
Proof. intros Ho Hn. by destruct (send_advance_spec limit o n Ho Hn) as (? & ? & _). Qed.

Lemma mux_send_advance_wf s n :
  0 ≤ n → session_wf s →
  session_wf (mux_send_advance s n) ∧ outp (mux_send_advance s n) = zdrop n (outp s).
Proof.
  intros Hn [[Hl Ho Hq] Hst [] Hlv].
  destruct (send_advance_pending _ _ n Ho Hn) as [Ho' Hp]. split; [| done].
  split; [by split | by apply (static_wf_eq s) | by split | exact Hlv].
Qed.

Lemma mux_next_event_wf s :
  session_wf s →
  let '(o, s') := mux_next_event s in
  session_wf s' ∧ o = head (events s) ∧ events s' = tail (events s).
Proof.
  intros [[Hl Ho Hq] Hst [] Hlv]. pose proof (evq_pop_spec (s_q s) Hq) as Hp. unfold mux_next_event.
  destruct (evq_pop (s_q s)) as [o q]. destruct Hp as (Hq' & ? & ?). split; [| done].
  split; [by split | by apply (static_wf_eq s) | by split | exact Hlv].
Qed.
