(* ===== verification/SessionSys.v ===== *)
(** Sessions under a host: construction, the step relation of every API call,
    the reachable states, and the safety theorems that hold in all of them. *)

From stdpp Require Import base list numbers gmap.
From Stdlib Require Import ZArith Lia.
From S2P Require Import Prelude Frame OutBuf EventQueue Probe StreamTable Session SessionIO Handshake Recv SessionInv SessionOps SessionApi.

(** ** Construction *)

(** [len] bytes are readable at a non-NULL blob pointer. *)
Definition blob_arg_ok (p : view) (len : Z) : Prop :=
  0 ≤ len ∧ (p = None ∨ len ≤ zlen (vbytes p)).

(** A configuration: its integers are uint32_t values. *)
Record config_ok (c : mux_config) : Prop := {
  co_windows : 0 ≤ c_init_window c < 2 ^ 32 ∧ 0 ≤ c_session_window c < 2 ^ 32;
  co_streams : 0 ≤ c_max_streams c < 2 ^ 32;
  co_timers : 0 ≤ c_heartbeat_ms c < 2 ^ 32 ∧ 0 ≤ c_keepalive_timeout_ms c < 2 ^ 32;
  co_weight : 0 ≤ c_weight c < 2 ^ 32;
  co_out : 0 ≤ c_max_out_buffer c < 2 ^ 32;
  co_blobs : blob_arg_ok (c_peer_id c) (c_peer_id_len c) ∧ blob_arg_ok (c_auth c) (c_auth_len c)
    ∧ blob_arg_ok (c_nonce c) (c_nonce_len c);
}.

Lemma new_blob_spec h p len :
  blob_arg_ok p len → len ≤ HELLO_BLOB_MAX →
  match new_blob h p len with
  | None => h ≠ [] ∨ (p = None ∧ 0 < len)
  | Some (d, n, h') =>
      blob_ok d n ∧ vbytes d = ztake len (vbytes p) ∧ (h = [] → h' = [])
  end.
Proof.
  intros [H0 Hp] Hm. unfold new_blob, dup_blob.
  destruct (Z.eqb_spec len 0) as [->|]; cbn [negb].
  { by split_and!. }
  destruct p as [bs|]; [| right; split; [done | lia]].
  rewrite bool_decide_eq_false_2 by done. cbn [orb]. destruct Hp as [|Hp]; [done |].
  rewrite vbytes_Some in *. destruct h as [|[] h]; cbn [alloc]; [| | by left].
  all: split_and!; try done; split; [| done]; by rewrite vbytes_Some, zlen_ztake by lia.
Qed.

(** What a constructed session looks like. *)
Record session_new_facts (h : heap) (cfg : mux_config) (role : mux_role) (s : mux_session) : Prop := {
  nf_wf : session_wf s;
  nf_role : s_role s = role;
  nf_alive : s_dead s = false;
  nf_evs : events s = [];
  nf_out : outp s = match role with
    | MUX_DIALER => enc (mk_wframe MUX_T_HELLO 0 0 (tlvs_bytes (hello_tlvs s)))
    | MUX_ACCEPTOR => [] end;
  nf_hello : s_peer_hello_seen s = false ∧
    s_hello_sent s = match role with MUX_DIALER => true | MUX_ACCEPTOR => false end;
  nf_recv : s_recv_win s = s_session_window s ∧ s_recv_pending s = 0;
  nf_params : s_init_window s = nz (c_init_window cfg) MUX_DEFAULT_INIT_WINDOW ∧
    s_session_window s = nz (c_session_window cfg) MUX_DEFAULT_SESSION_WINDOW ∧
    s_max_streams s = nz (c_max_streams cfg) MUX_DEFAULT_MAX_STREAMS ∧
    s_weight s = c_weight cfg ∧
    vbytes (s_peer_id s) = ztake (c_peer_id_len cfg) (vbytes (c_peer_id cfg)) ∧
    vbytes (s_auth s) = ztake (c_auth_len cfg) (vbytes (c_auth cfg)) ∧
    vbytes (s_nonce s) = ztake (c_nonce_len cfg) (vbytes (c_nonce cfg)) ∧
    s_max_out_buffer s = nz (c_max_out_buffer cfg) MUX_DEFAULT_MAX_OUT_BUFFER;
  nf_heap : h = [] → s_heap s = [];
}.

Lemma nz_range v d : 0 ≤ v < 2 ^ 32 → 0 < d < 2 ^ 32 → 0 < nz v d < 2 ^ 32.
Proof. intros. unfold nz. destruct (Z.eqb_spec v 0); cbn; lia. Qed.

(** The session before [send_hello], blobs and table in place. *)
Definition session_ready (cfg : mux_config) (role : mux_role) (p1 : view) (n1 : Z) (p2 : view)
  (n2 : Z) (p3 : view) (n3 : Z) (t : stab) (h : heap) : mux_session :=
  session_init h cfg role <| s_peer_id := p1 |> <| s_peer_id_len := n1 |>
    <| s_auth := p2 |> <| s_auth_len := n2 |> <| s_nonce := p3 |> <| s_nonce_len := n3 |>
    <| s_tab := t |>.

Lemma session_ready_wf cfg role p1 n1 p2 n2 p3 n3 t h :
  config_ok cfg → blob_ok p1 n1 → blob_ok p2 n2 → blob_ok p3 n3 → stab_wf t → stab_map t = ∅ →
  t_count t = 0 → session_wf (session_ready cfg role p1 n1 p2 n2 p3 n3 t h).
Proof.
  intros [[? ?] ? [? ?] ? ? _] Hb1 Hb2 Hb3 Ht Hm Hc.
  pose proof (nz_range (c_init_window cfg) MUX_DEFAULT_INIT_WINDOW).
  pose proof (nz_range (c_session_window cfg) MUX_DEFAULT_SESSION_WINDOW).
  pose proof (nz_range (c_max_streams cfg) MUX_DEFAULT_MAX_STREAMS).
  pose proof (nz_range (c_max_out_buffer cfg) MUX_DEFAULT_MAX_OUT_BUFFER).
  assert (0 < MUX_DEFAULT_INIT_WINDOW < 2 ^ 32 ∧ 0 < MUX_DEFAULT_SESSION_WINDOW < 2 ^ 32 ∧
          0 < MUX_DEFAULT_MAX_STREAMS < 2 ^ 32 ∧ 0 < MUX_DEFAULT_MAX_OUT_BUFFER < 2 ^ 32) by done.
  split.
  - split; [cbn; lia | apply ob_empty_wf; cbn; lia | apply evq_empty_wf].
  - split; cbn; try lia; [| by split].
    destruct (Z.eqb_spec (c_keepalive_timeout_ms cfg) 0); cbn; [| lia].
    destruct (Z.eqb_spec (c_heartbeat_ms cfg) 0); cbn; [lia |]. apply u32_range.
  - split; cbn; rewrite ?Hm; try done; try lia.
    unfold sid_fresh. cbn. rewrite Hm. destruct role; cbn; split_and!; try done;
      (by intros k [] || by right; intros k []).
  - intros _. cbn. rewrite Hm. done.
Qed.

(** A configuration [mux_session_new] refuses for a reason of its own: a blob
    over the cap, a NULL blob of nonzero length, or (dialer) an output ceiling
    that cannot hold the HELLO. *)
Definition config_refused (cfg : mux_config) (role : mux_role) : Prop :=
  HELLO_BLOB_MAX < c_peer_id_len cfg ∨ HELLO_BLOB_MAX < c_auth_len cfg ∨
  HELLO_BLOB_MAX < c_nonce_len cfg ∨
  (c_peer_id cfg = None ∧ 0 < c_peer_id_len cfg) ∨ (c_auth cfg = None ∧ 0 < c_auth_len cfg) ∨
  (c_nonce cfg = None ∧ 0 < c_nonce_len cfg) ∨
  (role = MUX_DIALER ∧ nz (c_max_out_buffer cfg) MUX_DEFAULT_MAX_OUT_BUFFER < MUX_HEADER_SIZE + 820).

(** The dialer's greeting on a ready session. *)
Lemma dialer_hello_spec (h0 : heap) s :
  session_wf s → s_role s = MUX_DIALER → outp s = [] → events s = [] → s_dead s = false →
  s_peer_hello_seen s = false → (h0 = [] → s_heap s = []) →
  let '(r, s') := send_hello s false in
  (r = 0 → session_wf s' ∧ s_dead s' = false ∧ events s' = [] ∧ s_hello_sent s' = true ∧
     outp s' = enc (mk_wframe MUX_T_HELLO 0 0 (tlvs_bytes (hello_tlvs s))) ∧
     core s' = core s <| s_hello_sent := true |> ∧ (h0 = [] → s_heap s' = [])) ∧
  (r ≠ 0 → h0 ≠ [] ∨ s_max_out_buffer s < MUX_HEADER_SIZE + 820).
Proof.
  intros Hw Hr Ho He Hd Hh Hh0.
  destruct (send_hello_spec s false (wf_io s Hw)) as (r & s1 & -> & F & Hc); [apply Hw |].
  split.
  - intros ->. rewrite Z.eqb_refl. destruct Hc as [(_ & Ho1 & He1 & Hd1)|(? & _)]; [| done].
    rewrite Ho in Ho1. split_and!.
    + by apply (op_wf s1), hello_sent_op, (op_wf s), io_facts_op.
    + cbn. congruence.
    + cbn. congruence.
    + done.
    + done.
    + assert (core (s1 <| s_hello_sent := true |>) = core s1 <| s_hello_sent := true |>) as -> by done.
      by rewrite (io_core _ _ F).
    + intros E. cbn. by apply (io_heap _ _ F), Hh0.
  - intros Hne. destruct Hc as [(-> & _)|(_ & _ & [Hh'|Hlim])]; [done | left; by auto | right].
    pose proof (outp_len s (wf_io s Hw)) as L. rewrite Ho, zlen_nil in L. lia.
Qed.

Lemma mux_session_new_spec h cfg role :
  config_ok cfg →
  match mux_session_new h cfg role with
  | Some s => session_new_facts h cfg role s
  | None => h ≠ [] ∨ config_refused cfg role
  end.
Proof.
  intros Hcfg. pose proof (co_blobs cfg Hcfg) as (B1 & B2 & B3). unfold mux_session_new, config_refused.
  destruct (Z.gtb_spec (c_peer_id_len cfg) HELLO_BLOB_MAX); [cbn [orb]; tauto |].
  destruct (Z.gtb_spec (c_auth_len cfg) HELLO_BLOB_MAX); [cbn [orb]; tauto |].
  destruct (Z.gtb_spec (c_nonce_len cfg) HELLO_BLOB_MAX); [cbn [orb]; tauto |]. cbn [orb].
  destruct (alloc h) as [ok h0] eqn:Eh. assert (h = [] → ok = true ∧ h0 = []) as Hh0
    by (intros ->; by simplify_eq/=).
  destruct ok; cbn [negb]; [| left; intros E; by destruct (Hh0 E)].
  pose proof (new_blob_spec h0 _ _ B1) as N1. specialize (N1 ltac:(lia)). cbn [s_heap session_init].
  destruct (new_blob h0 _ _) as [[[p1 n1] h1]|]; cbn [mbind option_bind];
    [| destruct N1 as [N1|?]; [left; intros E; by destruct (Hh0 E) | auto 10]].
  destruct N1 as (K1 & V1 & Hh1). cbn [s_heap].
  pose proof (new_blob_spec h1 _ _ B2) as N2. specialize (N2 ltac:(lia)).
  change (s_heap (_ <| s_heap := h1 |>)) with h1.
  destruct (new_blob h1 _ _) as [[[p2 n2] h2]|]; cbn [mbind option_bind];
    [| destruct N2 as [N2|?]; [left; intros E; naive_solver | auto 10]].
  destruct N2 as (K2 & V2 & Hh2).
  pose proof (new_blob_spec h2 _ _ B3) as N3. specialize (N3 ltac:(lia)).
  change (s_heap (_ <| s_heap := h2 |>)) with h2.
  destruct (new_blob h2 _ _) as [[[p3 n3] h3]|]; cbn [mbind option_bind];
    [| destruct N3 as [N3|?]; [left; intros E; naive_solver | auto 10]].
  destruct N3 as (K3 & V3 & Hh3). cbv zeta.
  change (s_heap (_ <| s_heap := h3 |>)) with h3. cbn [s_tab].
  match goal with |- context [st_grow h3 (s_tab ?x) ?w] =>
    change (s_tab x) with stab_zero; set (want := w) end.
  assert (64 ≤ want ≤ 2 ^ 64) as Hwant.
  { subst want. match goal with |- context [s_max_streams ?x * 2] =>
      change (s_max_streams x) with (nz (c_max_streams cfg) MUX_DEFAULT_MAX_STREAMS) end.
    pose proof (nz_range _ MUX_DEFAULT_MAX_STREAMS (co_streams cfg Hcfg) ltac:(done)).
    destruct (Z.ltb_spec (nz (c_max_streams cfg) MUX_DEFAULT_MAX_STREAMS * 2) 64); lia. }
  destruct (stab_init_spec h3 want Hwant) as (r & h4 & t & -> & Hh4 & Ht).
  assert (h = [] → h4 = []) as Hh by (intros E; apply Hh4, Hh3, Hh2, Hh1, (Hh0 E)).
  destruct Ht as [->|(-> & Wt & Mt & Ct)].
  { cbn. left. intros E. destruct Hh4 as [? _]; [naive_solver | done]. }
  rewrite Z.eqb_refl. cbn [negb].
  match goal with |- context [send_hello ?x false] =>
    change x with (session_ready cfg role p1 n1 p2 n2 p3 n3 t h4) end.
  match goal with |- match match role with MUX_DIALER => _ | MUX_ACCEPTOR => Some ?x end with _ => _ end =>
    change x with (session_ready cfg role p1 n1 p2 n2 p3 n3 t h4) end.
  pose proof (session_ready_wf cfg role p1 n1 p2 n2 p3 n3 t h4 Hcfg K1 K2 K3 Wt Mt Ct) as Hw.
  set (s := session_ready cfg role p1 n1 p2 n2 p3 n3 t h4) in *. destruct role.
  - pose proof (dialer_hello_spec h s Hw eq_refl eq_refl eq_refl eq_refl eq_refl Hh) as Hsp.
    destruct (send_hello s false) as [r s']. destruct Hsp as [Hok Hko].
    destruct (Z.eqb_spec r 0) as [E|E]; cbn [negb];
      [| destruct (Hko E) as [?|?]; [by left | right; right; right; right; right; right; right; done]].
    destruct (Hok E) as (Hw' & Hd' & He' & Hs' & Ho' & C & Hh').
    assert (∀ {A} (f : mux_session → A), (∀ x, f x = f (core x)) →
              (∀ x, f x = f (x <| s_hello_sent := true |>)) → f s' = f s) as Hfld.
    { intros A f Hf Hf'. by rewrite (Hf s'), C, <- Hf', <- Hf. }
    split; [done | by rewrite (Hfld _ s_role) | done | done | | | | | done].
    + rewrite Ho'. do 3 f_equal. symmetry. by apply Hfld.
    + split; [by rewrite (Hfld _ s_peer_hello_seen) | done].
    + by rewrite (Hfld _ s_recv_win), (Hfld _ s_session_window), (Hfld _ s_recv_pending).
    + by rewrite (Hfld _ s_init_window), (Hfld _ s_session_window), (Hfld _ s_max_streams),
        (Hfld _ s_weight), (Hfld _ s_peer_id), (Hfld _ s_auth), (Hfld _ s_nonce), (Hfld _ s_max_out_buffer).
  - by split.
Qed.

(** ** A host driving a session *)

(** The session, the bytes handed to the transport so far, the payload bytes
    received from events and not yet consumed, the FATAL events received. *)
Record host := mk_host {
  h_sess : mux_session;
  h_sent : bytes;
  h_held : Z;
  h_fatals : Z;
}.

(** An API call that is not a drain or a consume. *)
Inductive api_call (s : mux_session) : mux_session → Prop :=
  | api_recv bs : bytes_ok bs → api_call s (snd (mux_recv s (Some bs) (zlen bs)))
  | api_open meta : s_next_local_sid s ≠ 2 ^ 32 - 1 →
      api_call s (snd (mux_open s meta (zlen (vbytes meta))))
  | api_write sid p : zlen p < 2 ^ 63 → api_call s (snd (mux_write s sid (Some p) (zlen p)))
  | api_close sid : api_call s (snd (mux_close s sid))
  | api_reset sid code : api_call s (snd (mux_reset s sid code))
  | api_capacity weight : api_call s (snd (mux_send_capacity s weight))
  | api_goaway reason : api_call s (snd (mux_goaway s reason))
  | api_timer now : api_call s (snd (mux_on_timer s now)).

(** Any call in any order; the host never consumes more than it received. *)
Inductive host_step : host → host → Prop :=
  | step_call s s' sent held fatals :
      api_call s s' → host_step (mk_host s sent held fatals) (mk_host s' sent held fatals)
  | step_consume s sid n sent held fatals :
      s_dead s = false → 0 ≤ n ≤ held → n < 2 ^ 63 →
      host_step (mk_host s sent held fatals)
                (mk_host (snd (mux_consume s sid n)) sent (held - n) fatals)
  | step_advance s n sent held fatals :
      0 ≤ n →
      host_step (mk_host s sent held fatals)
                (mk_host (mux_send_advance s n) (sent ++ ztake n (fst (mux_send_buf s))) held fatals)
  | step_event s s' e sent held fatals :
      mux_next_event s = (Some e, s') →
      host_step (mk_host s sent held fatals)
                (mk_host s' sent (held + ev_bytes e) (fatals + ev_is_fatal e)).

Definition host_start (s : mux_session) : host := mk_host s [] 0 0.

(** A host state some run leads to, from a freshly constructed session. *)
Definition reachable (h0 : heap) (cfg : mux_config) (role : mux_role) (x : host) : Prop :=
  ∃ s, mux_session_new h0 cfg role = Some s ∧ rtc host_step (host_start s) x.

(** ** The host-level invariant *)

(** The equalities hold when no allocation ever fails ([h0 = []]); a failed one
    may lose an event. *)
Record host_ok (h0 : heap) (win : Z) (x : host) : Prop := {
  ho_wf : session_wf (h_sess x);
  ho_win : s_session_window (h_sess x) = win;
  ho_held : 0 ≤ h_held x;
  ho_heap : h0 = [] → s_heap (h_sess x) = [];
  ho_credit : balance (h_sess x) + h_held x ≤ win ∧
    (h0 = [] → balance (h_sess x) + h_held x = win);
  ho_fatal : h_fatals x + fatal_budget (h_sess x) ≤ 1 ∧
    (h0 = [] → h_fatals x + fatal_budget (h_sess x) = 1);
  ho_wire : ∃ ws, Forall wframe_ok ws ∧ h_sent x ++ outp (h_sess x) = wire ws;
  ho_bytes : Forall (fun e => 0 ≤ ev_bytes e) (events (h_sess x));
}.

Lemma api_call_op s s' : api_call s s' → op_step s s'.
Proof.
  destruct 1; auto using mux_recv_op, mux_open_op, mux_write_op, mux_close_op, mux_reset_op,
    mux_send_capacity_op, mux_goaway_op, mux_on_timer_op.
Qed.

(** An operation that changes the host's holdings by [d] and its balance by [-d]. *)
Lemma host_ok_op h0 win s s1 s' sent held fatals d :
  host_ok h0 win (mk_host s sent held fatals) →
  op_step s1 s' → session_wf s1 → static s1 = static s → events s1 = events s →
  outp s1 = outp s → s_dead s1 = s_dead s → s_heap s1 = s_heap s →
  balance s1 = balance s + d → 0 ≤ held - d →
  host_ok h0 win (mk_host s' sent (held - d) fatals).
Proof.
  intros [Hw Hwin Hh Hheap [Hc Hc'] [Hf Hf'] (ws & Hws & Ew) Hb] Hop Hw1 Es Ee Eo Ed Eh Eb Hd.
  cbn [h_sess h_sent h_held h_fatals] in *. destruct (Hop Hw1) as [W S D (ws' & Hws' & O) (evs & E & Hnn) F B P].
  assert (fatal_budget s1 = fatal_budget s) as EF by (unfold fatal_budget; by rewrite Ee, Ed).
  split; cbn [h_sess h_sent h_held h_fatals]; try lia.
  - done.
  - rewrite <- Hwin. rewrite Es in S. unfold static in S. by simplify_eq.
  - intros H0. apply P. rewrite Eh. auto.
  - split; [lia |]. intros H0. destruct P as (_ & _ & P); [rewrite Eh; auto |].
    specialize (Hc' H0). lia.
  - split; [lia |]. intros H0. destruct P as (_ & P & _); [rewrite Eh; auto |].
    specialize (Hf' H0). lia.
  - exists (ws ++ ws'). rewrite O, Eo, wire_app, (assoc_L (++)), Ew. split; [by apply Forall_app | done].
  - rewrite E, Ee. by apply Forall_app.
Qed.

Lemma host_ok_advance h0 win s sent held fatals n :
  0 ≤ n → host_ok h0 win (mk_host s sent held fatals) →
  host_ok h0 win (mk_host (mux_send_advance s n) (sent ++ ztake n (outp s)) held fatals).
Proof.
  intros Hn [Hw Hwin Hh Hheap Hc Hf (ws & Hws & Ew) Hb]. cbn [h_sess h_sent h_held h_fatals] in *.
  destruct (mux_send_advance_wf s n Hn Hw) as [Hw' Ho].
  split; try done. exists ws. cbn [h_sess h_sent]. rewrite Ho, <- (assoc_L (++)).
  change (pending (s_out s)) with (outp s). by rewrite ztake_zdrop.
Qed.

Lemma host_ok_event h0 win s s' e sent held fatals :
  mux_next_event s = (Some e, s') → host_ok h0 win (mk_host s sent held fatals) →
  host_ok h0 win (mk_host s' sent (held + ev_bytes e) (fatals + ev_is_fatal e)).
Proof.
  intros E [Hw Hwin Hh Hheap Hc Hf (ws & Hws & Ew) Hb]. cbn [h_sess h_sent h_held h_fatals] in *.
  pose proof (mux_next_event_wf s Hw) as Hp. rewrite E in Hp. destruct Hp as (Hw' & Hhd & Htl).
  assert (∃ q, s' = s <| s_q := q |>) as [q Es].
  { unfold mux_next_event in E. destruct (evq_pop (s_q s)) as [o q]. simplify_eq. by exists q. }
  destruct (events s) as [|e0 evs] eqn:Eev; [done |]. cbn in Hhd, Htl. simplify_eq.
  assert (balance s = balance (s <| s_q := q |>) + ev_bytes e0) as EB
    by (unfold balance; rewrite Eev; cbn; lia).
  assert (fatal_budget s = fatal_budget (s <| s_q := q |>) + ev_is_fatal e0) as EF
    by (unfold fatal_budget; rewrite Eev; cbn; lia).
  apply Forall_cons_1 in Hb as [? Hb].
  destruct Hc as [Hc Hc'], Hf as [Hf Hf'].
  split; cbn [h_sess h_sent h_held h_fatals]; try done; try lia; [| | by exists ws].
  - split; [lia |]. intros H0. specialize (Hc' H0). lia.
  - split; [lia |]. intros H0. specialize (Hf' H0). lia.
Qed.

Lemma host_ok_step h0 win x x' : host_step x x' → host_ok h0 win x → host_ok h0 win x'.
Proof.
  intros [s s' sent held fatals Hc|s sid n sent held fatals Hd Hn Hn'|s n sent held fatals Hn
         |s s' e sent held fatals He] Hok.
  - replace held with (held - 0) by lia.
    eapply (host_ok_op h0 win s s s'); try done; [by apply api_call_op | apply Hok | lia | ].
    pose proof (ho_held _ _ _ Hok). cbn in *. lia.
  - eapply (host_ok_op h0 win s (owe s n)); try done; [apply mux_consume_op; done || lia | | | lia].
    + apply owe_wf; [lia | apply Hok].
    + unfold balance. cbn. lia.
  - by apply host_ok_advance.
  - by eapply host_ok_event.
Qed.

Lemma reachable_ok h0 cfg role x :
  config_ok cfg → reachable h0 cfg role x →
  host_ok h0 (nz (c_session_window cfg) MUX_DEFAULT_SESSION_WINDOW) x.
Proof.
  intros Hcfg (s & Hnew & Hr). pose proof (mux_session_new_spec h0 cfg role Hcfg) as Hs.
  rewrite Hnew in Hs. destruct Hs as [Hw Hro Hd He Ho Hh [Hr1 Hr2] Hp Hheap].
  destruct Hp as (_ & Hsw & _).
  revert x Hr. refine (rtc_ind_r (R := host_step) _ (host_start s) _ _);
    [| intros; by eapply host_ok_step].
  split; cbn [h_sess h_sent h_held h_fatals host_start]; try done.
  - unfold balance. rewrite He, Hr1, Hr2, Hsw. cbn. lia.
  - unfold fatal_budget. rewrite He, Hd. cbn. lia.
  - rewrite Ho. destruct role; [| by exists []].
    exists [mk_wframe MUX_T_HELLO 0 0 (tlvs_bytes (hello_tlvs s))]. rewrite wire_one.
    split; [| done]. constructor; [| done]. split; [done |]. cbn [w_payload].
    destruct (hello_blob_spec s) as [_ Hl]; [apply Hw |]. unfold MUX_MAX_PAYLOAD. lia.
  - by rewrite He.
Qed.

(** ** A dead session *)

(** The frames and events of a dead session are final. *)
Lemma dead_call s s' : s_dead s = true → api_call s s' → s' = s.
Proof.
  intros Hd [bs|meta|sid p|sid|sid code|w|r|now].
  1, 3: unfold mux_recv, mux_write; rewrite bool_decide_eq_false_2 by done; cbn [andb]; by rewrite Hd.
  all: unfold mux_open, mux_close, mux_reset, mux_send_capacity, mux_goaway, mux_on_timer;
    by rewrite Hd.
Qed.

(** What stays fixed from [x] to [x'] when [x] is dead. *)
Record dead_after (x x' : host) : Prop := {
  da_dead : s_dead (h_sess x') = true;
  da_bytes : h_sent x' ++ outp (h_sess x') = h_sent x ++ outp (h_sess x);
  da_events : ∃ popped, events (h_sess x) = popped ++ events (h_sess x');
  da_tab : s_tab (h_sess x') = s_tab (h_sess x);
}.

Lemma dead_step x0 x x' :
  session_wf (h_sess x) → dead_after x0 x → host_step x x' → dead_after x0 x'.
Proof.
  intros Hw [Hd Hb (po & He) Ht] Hs. destruct Hs as [s s' sent held fatals Hc
    |s sid n sent held fatals Hal Hn Hn'|s n sent held fatals Hn|s s' e sent held fatals Ev];
    cbn [h_sess h_sent] in *.
  - apply dead_call in Hc as ->; [| done]. split; try done. by exists po.
  - congruence.
  - destruct (mux_send_advance_wf s n Hn Hw) as [_ Ho]. split; try done; [| by exists po].
    cbn [h_sess h_sent]. rewrite Ho, <- Hb, <- (assoc_L (++)).
    change (fst (mux_send_buf s)) with (outp s). by rewrite ztake_zdrop.
  - pose proof (mux_next_event_wf s Hw) as Hp. rewrite Ev in Hp. destruct Hp as (_ & Hhd & Htl).
    assert (∃ q, s' = s <| s_q := q |>) as [q ->].
    { unfold mux_next_event in Ev. destruct (evq_pop (s_q s)) as [o q]. simplify_eq. by exists q. }
    split; try done. exists (po ++ [e]). cbn [h_sess]. rewrite He, Htl, <- (assoc_L (++)).
    destruct (events s); [done |]. by simplify_eq/=.
Qed.

(** ** Properties *)


(** C2: bounded buffering.  Whatever the peer sends on however many streams, the
    payload bytes queued as events or held by the host never exceed the
    connection window; and while no allocation fails, credit is conserved: what
    the peer may still send, what it is owed, what is queued and what the host
    holds always sum to exactly the configured connection window. *)
Theorem bounded_buffering h0 cfg role x :
  config_ok cfg → reachable h0 cfg role x →
  let s := h_sess x in
  let W := nz (c_session_window cfg) MUX_DEFAULT_SESSION_WINDOW in
  let queued := ev_sum ev_bytes (events s) in
  0 ≤ queued ∧ queued + h_held x ≤ W ∧ 0 ≤ s_recv_win s ≤ W ∧
  (h0 = [] → s_recv_win s + s_recv_pending s + queued + h_held x = W).
Proof.
  intros Hc Hr s W queued.
  destruct (reachable_ok h0 cfg role x Hc Hr) as [[_ _ [] _] _ Hh _ [Hcr Hcr'] _ _ Hnn].
  unfold balance in *. fold s in Hcr, Hcr', Hnn, fw_recv, fw_pend. fold queued W in Hcr, Hcr'.
  assert (0 ≤ queued) as Hq by (subst queued; clear -Hnn; induction Hnn; cbn; lia).
  split_and!; try lia. intros H0. specialize (Hcr' H0). lia.
Qed.

(** Everything a session ever puts on the wire is a sequence of well-formed
    frames: the bytes already sent followed by the pending ones are the encoding
    of a list of frames with valid headers and lengths. *)
Theorem wire_is_frames h0 cfg role x :
  config_ok cfg → reachable h0 cfg role x →
  ∃ ws, Forall wframe_ok ws ∧ h_sent x ++ fst (mux_send_buf (h_sess x)) = wire ws.
Proof. intros Hc Hr. by destruct (reachable_ok h0 cfg role x Hc Hr). Qed.

(** One FATAL.  A host never sees more than one MUX_EV_FATAL, and (while no
    allocation fails) one has been queued exactly when the session is dead. *)
Theorem fatal_once h0 cfg role x :
  config_ok cfg → reachable h0 cfg role x →
  let total := h_fatals x + ev_sum ev_is_fatal (events (h_sess x)) in
  total ≤ 1 ∧ (h0 = [] → (s_dead (h_sess x) = true ↔ total = 1)).
Proof.
  intros Hc Hr total. destruct (reachable_ok h0 cfg role x Hc Hr) as [_ _ _ _ _ [Hf Hf'] _ _].
  unfold fatal_budget in *. subst total. destruct (s_dead (h_sess x)).
  - split; [lia |]. intros H0. specialize (Hf' H0). split; [lia | done].
  - split; [lia |]. intros H0. specialize (Hf' H0). split; [done | lia].
Qed.

(** Death is final.  From a dead reachable state no continuation of the run
    revives the session, puts another byte on the wire, queues another event or
    changes the stream table; only pending bytes and events are drained. *)
Theorem dead_is_final h0 cfg role x x' :
  config_ok cfg → reachable h0 cfg role x → s_dead (h_sess x) = true →
  rtc host_step x x' → dead_after x x'.
Proof.
  intros Hc (s & Hnew & Hr) Hd Hx.
  assert (rtc host_step (host_start s) x' ∧ dead_after x x') as [_ ?]; [| done].
  revert x' Hx. refine (rtc_ind_r (R := host_step) _ x _ _).
  - split; [done |]. split; try done. by exists [].
  - intros y z Hxy Hyz [Hry Hda]. split; [by eapply rtc_r |].
    eapply dead_step; [| exact Hda | exact Hyz].
    apply (reachable_ok h0 cfg role y Hc). by exists s.
Qed.

(** No lost wakeup.  In every reachable state of a live session, a stream
    that is marked blocked (owed a WRITABLE event) really has its own or the
    connection send window closed, so the WINDOW_UPDATE that reopens the last
    closed one is still to come; and [blocked_count] is the number of such
    streams. *)
Theorem no_lost_wakeup h0 cfg role x k e :
  config_ok cfg → reachable h0 cfg role x →
  let s := h_sess x in
  s_dead s = false → stab_map (s_tab s) !! k = Some e →
  (st_send_blocked e = true → st_send_win e = 0 ∨ s_send_win s = 0) ∧
  s_blocked_count s = bcount (stab_map (s_tab s)).
Proof.
  intros Hc Hr s Hd Hk. destruct (reachable_ok h0 cfg role x Hc Hr) as [[_ _ Hf Hl] _ _ _ _ _ _ _].
  fold s in Hf, Hl. destruct (Hl Hd) as [_ Hsl]. destruct (Hsl k e Hk) as [_ Hb].
  destruct (fw_streams s Hf k e Hk) as [_ ? _ _]. pose proof (fw_send s Hf).
  split; [| apply Hf]. intros B. destruct (Hb B); [left | right]; lia.
Qed.

(** ** Witnesses *)

Definition sample_cfg : mux_config :=
  mk_config 0 0 8 1000 0 5 0 (Some [1; 2; 3]) 3 None 0 None 0.

Lemma sample_cfg_ok : config_ok sample_cfg.
Proof.
  split; cbn; try lia. unfold blob_arg_ok. cbn. split_and!; try lia; [by right | by left | by left].
Qed.

Definition sample_dialer : mux_session :=
  default (session_init [] sample_cfg MUX_DIALER) (mux_session_new [] sample_cfg MUX_DIALER).

Lemma sample_dialer_new : mux_session_new [] sample_cfg MUX_DIALER = Some sample_dialer.
Proof. vm_compute. reflexivity. Qed.

(** A HELLO_ACK that advertises a 4-byte stream window. *)
Definition sample_ack : bytes :=
  enc (mk_wframe MUX_T_HELLO_ACK 0 0 (tlv_bytes MUX_TLV_INIT_WINDOW (be_put32 4))).

(** The dialer reads it, opens stream 1 and writes 10 bytes, 4 of which fit. *)
Definition sample_s1 : mux_session := snd (mux_recv sample_dialer (Some sample_ack) (zlen sample_ack)).
Definition sample_s2 : mux_session := snd (mux_open sample_s1 None (zlen (vbytes None))).
Definition sample_s3 : mux_session :=
  snd (mux_write sample_s2 1 (Some (replicate 10 7)) (zlen (replicate 10 7))).
(** Then a header with a bad version kills the session. *)
Definition sample_s4 : mux_session :=
  snd (mux_recv sample_s3 (Some (replicate 12 0)) (zlen (replicate 12 0))).

Definition at_start (s : mux_session) : host := mk_host s [] 0 0.

Lemma sample_reachable3 : reachable [] sample_cfg MUX_DIALER (at_start sample_s3).
Proof.
  exists sample_dialer. split; [exact sample_dialer_new |].
  unfold at_start, sample_s3, sample_s2, sample_s1.
  eapply rtc_l; [apply step_call, (api_recv _ sample_ack) |].
  { apply (bool_decide_unpack _). vm_compute. exact I. }
  eapply rtc_l; [apply step_call, (api_open _ None) |]; [vm_compute; discriminate |].
  eapply rtc_l; [apply step_call, (api_write _ 1 (replicate 10 7)) |]; [vm_compute; reflexivity |].
  apply rtc_refl.
Qed.

Lemma sample_reachable4 : reachable [] sample_cfg MUX_DIALER (at_start sample_s4).
Proof.
  destruct sample_reachable3 as (s & Hs & Hr). exists s. split; [done |].
  eapply rtc_r; [exact Hr |]. unfold at_start, sample_s4.
  apply step_call, (api_recv _ (replicate 12 0)).
  apply (bool_decide_unpack _). vm_compute. exact I.
Qed.

Lemma sample_reachable2 : reachable [] sample_cfg MUX_DIALER (at_start sample_s2).
Proof.
  exists sample_dialer. split; [exact sample_dialer_new |].
  unfold at_start, sample_s2, sample_s1.
  eapply rtc_l; [apply step_call, (api_recv _ sample_ack) |].
  { apply (bool_decide_unpack _). vm_compute. exact I. }
  eapply rtc_l; [apply step_call, (api_open _ None) |]; [vm_compute; discriminate |].
  apply rtc_refl.
Qed.

(** An acceptor that has read the dialer's HELLO and SYN. *)
Definition sample_acceptor : mux_session :=
  default (session_init [] sample_cfg MUX_ACCEPTOR) (mux_session_new [] sample_cfg MUX_ACCEPTOR).
Definition sample_syn : bytes := outp sample_s2.
Definition sample_b : mux_session := snd (mux_recv sample_acceptor (Some sample_syn) (zlen sample_syn)).

Lemma sample_acceptor_new : mux_session_new [] sample_cfg MUX_ACCEPTOR = Some sample_acceptor.
Proof. vm_compute. reflexivity. Qed.

Lemma sample_reachable_b : reachable [] sample_cfg MUX_ACCEPTOR (at_start sample_b).
Proof.
  exists sample_acceptor. split; [exact sample_acceptor_new |]. unfold at_start, sample_b.
  apply rtc_once, step_call, (api_recv _ sample_syn).
  apply (bool_decide_unpack _). vm_compute. exact I.
Qed.

(** Conversion should not run the sample sessions. *)
#[global] Strategy opaque [sample_dialer sample_s1 sample_s2 sample_s3 sample_s4
  sample_acceptor sample_syn sample_b].

Lemma sample_wf2 : session_wf sample_s2.
Proof. exact (ho_wf _ _ _ (reachable_ok _ _ _ _ sample_cfg_ok sample_reachable2)). Qed.
Lemma sample_wf3 : session_wf sample_s3.
Proof. exact (ho_wf _ _ _ (reachable_ok _ _ _ _ sample_cfg_ok sample_reachable3)). Qed.
Lemma sample_wf_b : session_wf sample_b.
Proof. exact (ho_wf _ _ _ (reachable_ok _ _ _ _ sample_cfg_ok sample_reachable_b)). Qed.


Lemma bounded_buffering_witness :
  s_recv_win sample_s3 + s_recv_pending sample_s3 + ev_sum ev_bytes (events sample_s3) + 0
  = MUX_DEFAULT_SESSION_WINDOW.
Proof.
  exact (proj2 (proj2 (proj2 (bounded_buffering [] sample_cfg MUX_DIALER _ sample_cfg_ok
           sample_reachable3))) eq_refl).
Defined.

Lemma wire_is_frames_witness :
  ∃ ws, Forall wframe_ok ws ∧ [] ++ fst (mux_send_buf sample_s3) = wire ws.
Proof. exact (wire_is_frames [] sample_cfg MUX_DIALER _ sample_cfg_ok sample_reachable3). Defined.

Lemma fatal_once_witness : s_dead sample_s4 = true ↔ 0 + ev_sum ev_is_fatal (events sample_s4) = 1.
Proof.
  exact (proj2 (fatal_once [] sample_cfg MUX_DIALER _ sample_cfg_ok sample_reachable4) eq_refl).
Defined.

Lemma dead_is_final_witness :
  dead_after (at_start sample_s4) (at_start (snd (mux_goaway sample_s4 0))).
Proof.
  apply (dead_is_final [] sample_cfg MUX_DIALER _ _ sample_cfg_ok sample_reachable4);
    [vm_compute; reflexivity |].
  apply rtc_once, step_call, api_goaway.
Defined.

Lemma no_lost_wakeup_witness :
  ∃ e, stab_map (s_tab sample_s3) !! 1 = Some e ∧ st_send_blocked e = true ∧
       (st_send_win e = 0 ∨ s_send_win sample_s3 = 0).
Proof.
  destruct (stab_map (s_tab sample_s3) !! 1) as [e|] eqn:E; [| vm_compute in E; discriminate].
  exists e. split; [reflexivity |].
  assert (st_send_blocked e = true) as B by (vm_compute in E; injection E as <-; reflexivity).
  split; [exact B |].
  refine (proj1 (no_lost_wakeup [] sample_cfg MUX_DIALER _ 1 e sample_cfg_ok sample_reachable3 _ E) B).
  vm_compute. reflexivity.
Defined.
