(* ===== verification/SessionFlow.v ===== *)
(** Contracts of single operations on a session that satisfies the invariant:
    when a blocked writer is woken, what [mux_write] accepts and sends, and how
    a stream that overruns its window is contained. *)

From stdpp Require Import base list numbers gmap.
From Stdlib Require Import ZArith Lia.
From S2P Require Import Prelude Frame OutBuf EventQueue Probe StreamTable Session SessionIO Handshake Recv SessionInv SessionOps SessionApi SessionSys.

(** ** Waking blocked writers *)

(** The two ways a stream that was blocked may be after a WINDOW_UPDATE. *)
Definition woken_or_waiting (s' : mux_session) (k : Z) : Prop :=
  ∃ e', stab_map (s_tab s') !! k = Some e' ∧
    (st_send_blocked e' = true ∧ (st_send_win e' = 0 ∨ s_send_win s' = 0) ∨
     st_send_blocked e' = false ∧ 0 < st_send_win e' ∧ 0 < s_send_win s' ∧
     EV_WRITABLE k ∈ events s').

Lemma still_blocked s k e :
  session_wf s → s_dead s = false → streams s !! k = Some e → st_send_blocked e = true →
  woken_or_waiting s k.
Proof.
  intros Hw Hd Hk Hb. exists e. split; [done |]. left. split; [done |].
  destruct (wf_live s Hw Hd) as [_ Hsl]. destruct (Hsl k e Hk) as [_ Hl].
  destruct (fw_streams s (wf_flow s Hw) k e Hk) as [_ ? _ _]. pose proof (fw_send s (wf_flow s Hw)).
  destruct (Hl Hb); [left | right]; lia.
Qed.

Lemma grant_session_wakes s c k e :
  session_wf s → s_dead s = false → s_heap s = [] → 0 ≤ c < 2 ^ 32 →
  s_dead (grant_session s c) = false → streams s !! k = Some e → st_send_blocked e = true →
  woken_or_waiting (grant_session s c) k.
Proof.
  intros Hw Hd Hh Hc Hd' Hk Hb. pose proof (op_wf _ _ (grant_session_op s c Hd Hc Hw)) as Hw'.
  revert Hd' Hw'. unfold grant_session. change (Z.shiftl 1 48) with (2 ^ 48). cbv zeta.
  set (s1 := s <| s_send_win ::= fun w => w + c |>).
  destruct (Z.gtb_spec (s_send_win s1) (2 ^ 48)) as [|Hle]; [by rewrite raise_fatal_dead |].
  destruct (_ && _ && _) eqn:Hsw; intros Hd' Hw'; [| by apply (still_blocked s1 k e)].
  assert (0 < s_send_win s1) as Hpos.
  { apply andb_true_iff in Hsw as [[_ Hsw]%andb_true_iff _].
    destruct (Z.gtb_spec (s_send_win s1) 0); done || lia. }
  assert (0 ≤ s_send_win s1 < 2 ^ 49) as Hr by lia.
  destruct Hw as [[] Hst [] Hl]. destruct (wake_sweep_swept s1) as [Hsame _ _ _ _ _ _ Hwk];
    [by split | by split |].
  destruct (Hwk Hh k e Hk Hb) as (e' & He' & [Hb'|(Hb' & Hpe & Hev)]).
  - by apply (still_blocked (wake_sweep s1) k e').
  - exists e'. split; [done |]. right. destruct Hsame as (_ & _ & _ & _ & -> & _). done.
Qed.

Lemma grant_stream_wakes s k0 j e0 c k e :
  session_wf s → s_dead s = false → s_heap s = [] → found s j k0 e0 → 0 ≤ c < 2 ^ 32 →
  s_dead (grant_stream s k0 j c) = false → streams s !! k = Some e → st_send_blocked e = true →
  woken_or_waiting (grant_stream s k0 j c) k.
Proof.
  intros Hw Hd Hh Hj Hc Hd' Hk Hb.
  pose proof (op_wf _ _ (grant_stream_op s k0 j e0 c Hd Hj Hc Hw)) as Hw'.
  pose proof (found_streams s j k0 e0 (fw_tab s (wf_flow s Hw)) Hj) as Hke.
  destruct (wf_live s Hw Hd) as [_ Hsl]. destruct (Hsl _ e0 Hke) as [Hle _].
  destruct (credit_stream_wf s j k0 e0 c Hw Hj Hc Hle) as (_ & Hj1 & Hm1).
  pose proof (grant_stream_woken s j k0 e0 c Hw Hd Hj Hc) as Hwk.
  revert Hd' Hw'. unfold grant_stream. change (Z.shiftl 1 48) with (2 ^ 48). cbv zeta in *.
  set (s1 := st_modify s j _) in *. rewrite (found_at _ _ _ _ Hj1).
  set (e1 := e0 <| st_send_win ::= fun w => w + c |>) in *.
  assert (∃ e', streams s1 !! k = Some e' ∧ st_send_blocked e' = true) as (e' & He' & Hb').
  { rewrite Hm1. destruct (decide (k = k0)) as [->|].
    - rewrite lookup_insert_eq. eexists. split; [done |]. by simplify_eq.
    - rewrite lookup_insert_ne by done. by exists e. }
  destruct (Z.gtb_spec (st_send_win e1) (2 ^ 48)) as [|Hle1]; [by rewrite raise_fatal_dead |].
  destruct (_ && _ && _) eqn:Hc2; intros Hd' Hw'; [| by apply (still_blocked s1 k e')].
  destruct (Hwk Hle1 eq_refl) as (Hop & Hd2 & Hh2 & Hs2 & Hm2). set (s2 := set_blocked s1 j false) in *.
  change (ev_simple s2 MUX_EV_WRITABLE k0) with (push s2 (EV_WRITABLE k0)) in *.
  destruct (push_facts s2 (EV_WRITABLE k0)) as (C & _ & _ & _ & [Ev|[_ Hne]] & _);
    [apply (op_wf _ _ (Hop Hw)) | | by rewrite Hh2 in Hne].
  assert (streams (push s2 (EV_WRITABLE k0)) = streams s2) as Es
    by (by apply (core_field (fun s => streams s))).
  destruct (decide (k = k0)) as [->|].
  - eexists. rewrite Es, Hm2, lookup_insert_eq. split; [done |]. right.
    rewrite (core_field s_send_win s2 (push s2 (EV_WRITABLE k0))), Hs2, Ev by done.
    apply andb_true_iff in Hc2 as [[_ H1]%andb_true_iff H2].
    destruct (Z.gtb_spec (st_send_win e1) 0), (Z.gtb_spec (s_send_win s1) 0); try done.
    split_and!; try done. apply elem_of_app. right. by apply list_elem_of_singleton.
  - apply (still_blocked _ k e); [done | done | | done]. by rewrite Es, Hm2, lookup_insert_ne.
Qed.

(** C25: wakeups are delivered, exactly when due.  When a WINDOW_UPDATE arrives
    on a live session, every stream that was blocked is afterwards either still
    blocked because its own or the connection window is still closed, or both
    windows are open, it is no longer blocked and a WRITABLE event for it is in
    the queue; whichever of the two windows the credit was for, including a
    stream blocked on the connection window alone. *)
Theorem wakeup_delivered s f k e :
  session_wf s → s_dead s = false → s_heap s = [] →
  s_dead (on_window_update s f) = false →
  stab_map (s_tab s) !! k = Some e → st_send_blocked e = true →
  woken_or_waiting (on_window_update s f) k.
Proof.
  intros Hw Hd Hh. unfold on_window_update.
  destruct (f_len f =? 4); cbn [negb]; [| by rewrite raise_fatal_dead].
  pose proof (be_get32_range (vbytes (f_payload f))) as Hc. cbv zeta.
  destruct (f_sid f =? MUX_SID_CONTROL); [by apply grant_session_wakes |].
  destruct (st_find (s_tab s) (f_sid f)) as [j|] eqn:Hfi; [| by apply still_blocked].
  destruct (st_find_found s (f_sid f) j (fw_tab s (wf_flow s Hw)) Hfi) as [e0 Hj].
  by eapply grant_stream_wakes.
Qed.

(** ** Writing *)

Lemma streams_found s k e :
  stab_wf (s_tab s) → streams s !! k = Some e →
  ∃ j, st_find (s_tab s) k = Some j ∧ found s j k e.
Proof.
  intros Hw Hk. pose proof (st_find_map (s_tab s) k Hw) as Hf.
  destruct (st_find (s_tab s) k) as [j|]; [| congruence].
  destruct Hf as (e' & Hj & Hs & Hi & Hm). exists j. split; [done |]. by simplify_eq.
Qed.

(** [mux_write] with room in the output buffer, exactly. *)
Lemma write_spec s sid p e :
  session_wf s → s_dead s = false → s_heap s = [] →
  stab_map (s_tab s) !! sid = Some e → st_life e ≠ LIFE_HCL_LOCAL → zlen p < 2 ^ 63 →
  let want := Z.min (zlen p) (Z.min (st_send_win e) (s_send_win s)) in
  mux_out_pending s + want + MUX_HEADER_SIZE * (want / MUX_MAX_DATA_FRAME + 1)
    ≤ s_max_out_buffer s →
  ∃ s' ws e',
    mux_write s sid (Some p) (zlen p) = (want, s') ∧ s_dead s' = false ∧
    outp s' = outp s ++ wire ws ∧ Forall (data_frame sid) ws ∧
    zlen ws ≤ want / MUX_MAX_DATA_FRAME + 1 ∧ concat (w_payload <$> ws) = ztake want p ∧
    stab_map (s_tab s') !! sid = Some e' ∧ st_send_win e' = st_send_win e - want ∧
    s_send_win s' = s_send_win s - want ∧ (want < zlen p → st_send_blocked e' = true).
Proof.
  intros Hw Hd Hh Hk Hlife Hn want Hroom. pose proof (wf_flow s Hw) as Hf.
  destruct (streams_found s sid e (fw_tab s Hf) Hk) as (j & Hfi & Hj).
  destruct (fw_streams s Hf sid e Hk) as [_ Hsw _ _]. pose proof (fw_send s Hf) as Hss.
  pose proof (zlen_nonneg p).
  destruct (decide (0 < Z.min (st_send_win e) (s_send_win s))) as [Hr|Hr].
  - destruct (mux_write_room s sid p (zlen p) j e Hw Hj eq_refl Hn Hd Hlife Hfi Hr)
      as (sent & s1 & ws & F & Hj1 & Hs & Ho & Hdf & Hct & Hcat & Hcase & ->).
    destruct Hcase as [(-> & Hd1 & _)|(_ & _ & [?|?])]; [| done | exfalso; unfold want in Hroom; lia].
    fold want. fold want in Hs, Hcat, Hct.
    assert (session_wf s1) as Hw1 by (by apply (op_wf s), io_facts_op).
    assert (s_send_win s1 = s_send_win s) as Es by (apply (core_field s_send_win); [done | apply F]).
    destruct (debit_send_op s1 j sid e want Hj1) as [Hop Hj2]; [lia | lia |].
    specialize (Hj2 Hw1). pose proof (op_wf _ _ (Hop Hw1)) as Hw2.
    set (s2 := debit_send s1 j want) in *. set (e2 := e <| st_send_win ::= fun w => w - want |>) in *.
    destruct (_ && _) eqn:Hb.
    + destruct (set_blocked_spec s2 j sid e2 true (fw_tab s2 (wf_flow s2 Hw2)) Hj2) as (Hw3 & Hm3 & _).
      destruct (set_blocked_rest s2 j true) as (_ & _ & R3 & R4 & _ & _ & _ & _ & R9).
      do 3 eexists. split; [done |]. rewrite R3, R4, R9, Hm3, lookup_insert_eq.
      split_and!; try done. cbn. lia.
    + do 3 eexists. split; [done |]. rewrite (found_streams s2 j sid e2 (fw_tab s2 (wf_flow s2 Hw2)) Hj2).
      split_and!; try done; [cbn; lia |]. intros Hlt. cbn. apply andb_false_iff in Hb.
      destruct (Z.ltb_spec want (zlen p)), (Z.leb_spec (st_send_win e - want) 0),
        (Z.leb_spec (s_send_win s - want) 0); cbn in Hb; destruct Hb; done || lia.
  - assert (want = 0) as E0 by lia. rewrite E0 in *.
    assert (mux_write s sid (Some p) (zlen p) = (0, set_blocked s j true)) as ->.
    { unfold mux_write. rewrite bool_decide_eq_false_2, Hd, Hfi, (found_at _ _ _ _ Hj) by done.
      rewrite decide_False by done. cbn [andb].
      destruct (Z.leb_spec (if s_send_win s <? st_send_win e then s_send_win s else st_send_win e) 0);
        [done | destruct (Z.ltb_spec (s_send_win s) (st_send_win e)); lia]. }
    destruct (set_blocked_spec s j sid e true (fw_tab s Hf) Hj) as (_ & Hm3 & _).
    destruct (set_blocked_rest s j true) as (_ & _ & R3 & R4 & _ & _ & _ & _ & R9).
    exists (set_blocked s j true), []. eexists. split; [done |].
    rewrite R3, R4, R9, Hm3, lookup_insert_eq, app_nil_r, ztake_0. split_and!; try done; cbn; lia.
Qed.

(** C27: the write contract.  On a live stream that has not sent FIN, with room in
    the output buffer, [mux_write] accepts exactly as many bytes as the caller
    has, the stream window and the connection window allow; it appends DATA
    frames of at most 64 KiB whose payloads concatenate to exactly that prefix
    of the data, debits both windows by that amount, and when it accepted less
    than offered it marks the stream blocked, so that a WRITABLE event follows. *)
Theorem write_contract s sid p e :
  session_wf s → s_dead s = false → s_heap s = [] →
  stab_map (s_tab s) !! sid = Some e → st_life e ≠ LIFE_HCL_LOCAL → zlen p < 2 ^ 63 →
  let want := Z.min (zlen p) (Z.min (st_send_win e) (s_send_win s)) in
  mux_out_pending s + want + MUX_HEADER_SIZE * (want / MUX_MAX_DATA_FRAME + 1)
    ≤ s_max_out_buffer s →
  ∃ s' ws e',
    mux_write s sid (Some p) (zlen p) = (want, s') ∧ s_dead s' = false ∧
    outp s' = outp s ++ wire ws ∧ Forall (data_frame sid) ws ∧
    concat (w_payload <$> ws) = ztake want p ∧
    stab_map (s_tab s') !! sid = Some e' ∧ st_send_win e' = st_send_win e - want ∧
    s_send_win s' = s_send_win s - want ∧ (want < zlen p → st_send_blocked e' = true).
Proof.
  intros Hw Hd Hh Hk Hlife Hn want Hroom.
  destruct (write_spec s sid p e) as (s' & ws & e' & ? & ? & ? & ? & _ & ?); try done.
  exists s', ws, e'. done.
Qed.

(** ** Receiving *)

(** The frame of a DATA chunk. *)
Definition is_data (f : mux_frame_t) (sid : Z) : Prop :=
  f_type f = MUX_T_DATA ∧ f_flags f = 0 ∧ f_sid f = sid.

(** A stream that may receive [n] more bytes. *)
Definition can_receive (s : mux_session) (sid n : Z) : Prop :=
  s_peer_hello_seen s = true ∧ n ≤ s_recv_win s ∧
  ∃ e, streams s !! sid = Some e ∧ st_life e ≠ LIFE_HCL_REMOTE ∧ n ≤ st_recv_win e.

(** In-window data is delivered as one event, and leaves the rest of the credit. *)
Lemma data_accepted s f sid n :
  session_wf s → s_dead s = false → s_heap s = [] → frame_wf f → is_data f sid → sid ≠ 0 →
  0 < f_len f ≤ n → can_receive s sid n →
  let s' := process_frame s f in
  session_wf s' ∧ s_dead s' = false ∧ s_heap s' = [] ∧ can_receive s' sid (n - f_len f) ∧
  events s' = events s ++ [EV_STREAM_DATA sid (f_payload f) (f_len f)] ∧ outp s' = outp s.
Proof.
  intros Hw Hd Hh Hfw (Ht & Hfl & Hsid) Hne Hlen (Hhs & Hrw & e & Hk & Hlife & Hre) s'.
  destruct (streams_found s sid e (fw_tab s (wf_flow s Hw)) Hk) as (j & Hfi & Hj).
  assert (s' = accept_data s f j) as ->.
  { subst s'. unfold process_frame, on_data, on_fin, has_flag.
    rewrite Hhs, Ht, Hfl, Hsid, Hfi, (found_at _ _ _ _ Hj). cbn [negb andb].
    change (MUX_T_DATA =? MUX_T_DATA) with true. change (negb (Z.land 0 _ =? 0)) with false. cbv iota.
    unfold MUX_SID_CONTROL. destruct (Z.eqb_spec sid 0); [done |].
    rewrite decide_False by done.
    destruct (Z.gtb_spec (f_len f) 0), (Z.gtb_spec (f_len f) (s_recv_win s)),
      (Z.gtb_spec (f_len f) (st_recv_win e)); try lia.
    unfold accept_data. by rewrite Hsid. }
  destruct (accept_data_op s f j sid e Hj) as [Hop _]; [lia | lia |].
  destruct (debit_recv_wf s j sid e (f_len f) Hw Hj) as [Hw1 Hj1]; [lia | lia |].
  destruct (Hop Hw) as [Hw' _ _ _ _ _ _ Hheap]. destruct (Hheap Hh) as (Hh' & _ & _).
  unfold accept_data in *. set (s1 := _ <| s_recv_win ::= _ |>) in *.
  destruct (push_facts s1 (EV_STREAM_DATA (f_sid f) (f_payload f) (f_len f)) (wf_io s1 Hw1))
    as (C & _ & D & O & [Ev|[_ Hx]] & _); [| done]. rewrite Hsid in *.
  split_and!; try done; [by rewrite D | | by rewrite O].
  unfold can_receive. set (s2 := push s1 _) in *.
  rewrite (core_field s_peer_hello_seen s1 s2), (core_field s_recv_win s1 s2),
    (core_field (fun s => streams s) s1 s2) by done.
  split_and!; [done | cbn; lia |].
  eexists. rewrite (found_streams s1 j sid _ (fw_tab s1 (wf_flow s1 Hw1)) Hj1).
  split_and!; [done | done | cbn; lia].
Qed.

Lemma wframe_data_ok sid w :
  0 < sid < 2 ^ 32 → data_frame sid w → wframe_ok w ∧ is_data (frame_of w) sid.
Proof.
  intros Hs (Ht & Hf & Hi & Hl). unfold wframe_ok, is_data. cbn. rewrite Ht, Hf, Hi.
  unfold MUX_MAX_DATA_FRAME, MUX_MAX_PAYLOAD in *.
  split_and!; try done; [apply hdr_ok_small; done || lia | lia].
Qed.

(** The event a DATA frame becomes. *)
Definition data_event (sid : Z) (w : wframe) : mux_event :=
  EV_STREAM_DATA sid (view_of (w_payload w)) (zlen (w_payload w)).

Lemma data_fold sid ws s n :
  Forall (data_frame sid) ws → Forall (fun w => bytes_ok (w_payload w)) ws → 0 < sid < 2 ^ 32 →
  session_wf s → s_dead s = false → s_heap s = [] →
  zlen (concat (w_payload <$> ws)) ≤ n → can_receive s sid n →
  let s' := foldl process_frame s (frame_of <$> ws) in
  session_wf s' ∧ s_dead s' = false ∧ s_heap s' = [] ∧
  can_receive s' sid (n - zlen (concat (w_payload <$> ws))) ∧
  events s' = events s ++ (data_event sid <$> ws) ∧ outp s' = outp s.
Proof.
  intros Hws Hby Hs. revert s n. induction Hws as [|w ws Hw Hws IH]; intros s n Hwf Hd Hh Hn Hc; cbn zeta.
  { rewrite !fmap_nil. cbn [foldl concat]. rewrite zlen_nil, Z.sub_0_r, app_nil_r. done. }
  apply Forall_cons_1 in Hby as [Hb Hby]. rewrite !fmap_cons in *. cbn [foldl concat] in *.
  rewrite zlen_app in *. pose proof (zlen_nonneg (concat (w_payload <$> ws))).
  destruct (wframe_data_ok sid w Hs Hw) as [Hok Hid].
  destruct (data_accepted s (frame_of w) sid n) as (W & D & H' & Hc' & Ev & O); try done;
    [by apply frame_of_wf | lia | destruct Hw as (_ & _ & _ & ?); cbn; lia |].
  cbn [f_len frame_of] in Hc'.
  destruct (IH Hby (process_frame s (frame_of w)) (n - zlen (w_payload w)) W D H')
    as (? & ? & ? & Hc2 & Ev2 & O2); [lia | done |].
  split_and!; try done.
  - by replace (n - (zlen (w_payload w) + zlen (concat (w_payload <$> ws))))
      with (n - zlen (w_payload w) - zlen (concat (w_payload <$> ws))) by lia.
  - rewrite Ev2, Ev, <- (assoc_L (++)). done.
  - by rewrite O2.
Qed.

(** ** End to end *)

(** The payload an event hands to the host. *)
Definition ev_data (e : mux_event) : bytes :=
  match e with EV_STREAM_DATA _ d _ => vbytes d | _ => [] end.

Lemma q_full_false s n : io_wf s → zlen (events s) = n → n < MUX_EVENT_QUEUE_SOFT_CAP → q_full s = false.
Proof.
  intros [_ _ Hq] Hn Hlt. unfold q_full. rewrite evq_items_len in Hn by (destruct Hq; lia).
  rewrite Z.geb_leb. apply Z.leb_gt. lia.
Qed.

(** Delivering the frames of one write to a peer that can take them. *)
Lemma recv_data b sid ws n :
  Forall (data_frame sid) ws → Forall (fun w => bytes_ok (w_payload w)) ws → 0 < sid < 2 ^ 32 →
  session_wf b → s_dead b = false → s_heap b = [] →
  zlen (concat (w_payload <$> ws)) ≤ n → can_receive b sid n →
  zlen (events b) + zlen ws ≤ MUX_EVENT_QUEUE_SOFT_CAP →
  ∃ b', mux_recv b (Some (wire ws)) (zlen (wire ws)) = (zlen (wire ws), b') ∧ s_dead b' = false ∧
        events b' = events b ++ (data_event sid <$> ws).
Proof.
  intros Hws Hby Hs Hw Hd Hh Hn Hc Hq. pose proof (zlen_nonneg (wire ws)).
  destruct (data_fold sid ws b n Hws Hby Hs Hw Hd Hh Hn Hc) as (_ & Hd' & _ & _ & Ev & _).
  exists (foldl process_frame b (frame_of <$> ws)). split_and!; [| done | done].
  set (k := Z.to_nat (zlen (wire ws))). rewrite (mux_recv_feed k) by (done || lia).
  rewrite <- (app_nil_r (wire ws)) at 1. rewrite feed_wire; [| rewrite app_nil_r; lia | | done |].
  - assert (∀ k s, feed k s [] = (0, s)) as Hnil by (by intros [|]).
    rewrite Hnil. f_equal. lia.
  - eapply Forall_impl; [exact Hws |]. intros w Hw'. by apply (wframe_data_ok sid).
  - intros pre w post ->. rewrite fmap_app, concat_app, zlen_app in Hn.
    apply Forall_app in Hws as [Hw1 [Hw2 _]%Forall_cons_1], Hby as [Hb1 [Hb2 _]%Forall_cons_1].
    rewrite fmap_cons in Hn. cbn [concat] in Hn. rewrite zlen_app in Hn.
    pose proof (zlen_nonneg (concat (w_payload <$> post))).
    pose proof (zlen_nonneg (w_payload w)).
    destruct (data_fold sid pre b n Hw1 Hb1 Hs Hw Hd Hh) as (Wp & Dp & Hp & Cp & Evp & _); [lia | done |].
    destruct (wframe_data_ok sid w Hs Hw2) as [Hok Hid]. split.
    + eapply q_full_false; [apply Wp | exact eq_refl |]. rewrite Evp, zlen_app. rewrite zlen_app, zlen_cons in Hq.
      unfold zlen at 2. rewrite length_fmap. fold (zlen pre). pose proof (zlen_nonneg post). lia.
    + eapply (data_accepted _ (frame_of w) sid); try done; [by apply frame_of_wf | lia |].
      destruct Hw2 as (_ & _ & _ & ?). cbn. lia.
Qed.

Lemma concat_bytes_ok ws p :
  bytes_ok p → concat (w_payload <$> ws) = p → Forall (fun w => bytes_ok (w_payload w)) ws.
Proof.
  revert p. induction ws as [|w ws IH]; intros p Hp E; [done |]. rewrite fmap_cons in E. cbn in E.
  subst p. apply bytes_ok_app in Hp as [? ?]. constructor; [done | by eapply IH].
Qed.

(** C3: end-to-end delivery.  What one session's [mux_write] accepts, the peer's
    [mux_recv] of the bytes it queued delivers completely, unchanged and in
    order, as DATA events of that stream and nothing else, provided the peer's
    stream is open for receiving with windows that cover it (which is what the
    sender's windows promise) and its event queue has room. *)
Theorem data_delivery a b sid p e :
  session_wf a → s_dead a = false → s_heap a = [] →
  stab_map (s_tab a) !! sid = Some e → st_life e ≠ LIFE_HCL_LOCAL → bytes_ok p → zlen p < 2 ^ 63 →
  let want := Z.min (zlen p) (Z.min (st_send_win e) (s_send_win a)) in
  mux_out_pending a + want + MUX_HEADER_SIZE * (want / MUX_MAX_DATA_FRAME + 1)
    ≤ s_max_out_buffer a →
  session_wf b → s_dead b = false → s_heap b = [] → can_receive b sid want →
  zlen (events b) + want / MUX_MAX_DATA_FRAME + 1 ≤ MUX_EVENT_QUEUE_SOFT_CAP →
  ∃ a' bs b' evs,
    mux_write a sid (Some p) (zlen p) = (want, a') ∧ outp a' = outp a ++ bs ∧
    mux_recv b (Some bs) (zlen bs) = (zlen bs, b') ∧ s_dead b' = false ∧
    events b' = events b ++ evs ∧
    Forall (fun ev => ∃ d, ev = EV_STREAM_DATA sid (view_of d) (zlen d)) evs ∧
    concat (ev_data <$> evs) = ztake want p.
Proof.
  intros Hwa Hda Hha Hk Hlife Hbp Hn want Hroom Hwb Hdb Hhb Hc Hq.
  destruct (write_spec a sid p e) as (a' & ws & e' & Ew & _ & Ho & Hws & Hct & Hcat & _); try done.
  fold want in Ew, Hct, Hcat. destruct (fw_streams a (wf_flow a Hwa) sid e Hk) as [Hs Hsw _ _].
  pose proof (fw_send a (wf_flow a Hwa)). pose proof (zlen_nonneg p).
  destruct (recv_data b sid ws want) as (b' & Er & Hd' & Ev); try done.
  - eapply concat_bytes_ok; [| exact Hcat]. by apply bytes_ok_ztake.
  - rewrite Hcat, zlen_ztake by lia. done.
  - lia.
  - exists a', (wire ws), b', (data_event sid <$> ws). split_and!; try done.
    + apply Forall_fmap, Forall_true. intros w. by exists (w_payload w).
    + rewrite <- Hcat, <- list_fmap_compose. f_equal. apply list_fmap_ext. intros i w _. cbn.
      apply vbytes_view_of.
Qed.

(** ** Witnesses *)

(** Stream 1 of the sample dialer before and after its write. *)
Definition sample_e2 : mux_stream := default stream_zero (stab_map (s_tab sample_s2) !! 1).
Definition sample_e3 : mux_stream := default stream_zero (stab_map (s_tab sample_s3) !! 1).

Definition sample_wu : mux_frame_t :=
  frame_of (mk_wframe MUX_T_WINDOW_UPDATE 0 1 (be_put32 6)).

Lemma wakeup_delivered_witness : woken_or_waiting (on_window_update sample_s3 sample_wu) 1.
Proof.
  apply (wakeup_delivered sample_s3 sample_wu 1 sample_e3 sample_wf3); vm_compute; reflexivity.
Defined.

Lemma write_contract_witness :
  ∃ s' ws e', mux_write sample_s2 1 (Some (replicate 10 7)) 10 = (4, s') ∧
    outp s' = outp sample_s2 ++ wire ws ∧ concat (w_payload <$> ws) = [7; 7; 7; 7] ∧
    stab_map (s_tab s') !! 1 = Some e' ∧ st_send_blocked e' = true.
Proof.
  destruct (write_contract sample_s2 1 (replicate 10 7) sample_e2 sample_wf2)
    as (s' & ws & e' & H1 & _ & H2 & _ & H3 & H4 & _ & _ & H5);
    [vm_compute; (reflexivity || discriminate || (intros H; discriminate H)) .. |].
  exists s', ws, e'. split_and!; [exact H1 | exact H2 | exact H3 | exact H4 | exact (H5 eq_refl)].
Defined.

Lemma data_delivery_witness :
  ∃ bs b' evs, mux_recv sample_b (Some bs) (zlen bs) = (zlen bs, b') ∧
    events b' = events sample_b ++ evs ∧ concat (ev_data <$> evs) = [7; 7; 7; 7].
Proof.
  destruct (data_delivery sample_s2 sample_b 1 (replicate 10 7) sample_e2 sample_wf2)
    as (a' & bs & b' & evs & _ & _ & H1 & _ & H2 & _ & H3);
    [vm_compute; reflexivity | vm_compute; reflexivity | vm_compute; reflexivity
    | vm_compute; discriminate | apply (bool_decide_unpack _); vm_compute; exact I
    | vm_compute; reflexivity | vm_compute; discriminate | exact sample_wf_b
    | vm_compute; reflexivity | vm_compute; reflexivity | | vm_compute; discriminate |].
  - split; [vm_compute; reflexivity |]. split; [vm_compute; discriminate |].
    exists (default stream_zero (stab_map (s_tab sample_b) !! 1)).
    split_and!; [vm_compute; reflexivity | vm_compute; discriminate | vm_compute; discriminate].
  - exists bs, b', evs. split_and!; [exact H1 | exact H2 | exact H3].
Defined.
