(* ===== verification/Connect.v ===== *)
(** Two sessions joined by a transport: the handshake, and opening a stream. *)

From stdpp Require Import base list numbers gmap.
From Stdlib Require Import ZArith Lia.
From S2P Require Import Prelude Frame OutBuf EventQueue Probe StreamTable Session SessionIO Handshake Recv SessionInv SessionOps SessionApi SessionSys SessionFlow.

(** ** Reading a HELLO back *)

Definition tlv_ok (tv : Z * bytes) : Prop := 0 ≤ fst tv < 2 ^ 16 ∧ zlen (snd tv) < 2 ^ 16.

(** [on_hello]'s switch on a TLV given by its bytes. *)
Definition tlv_step (se : mux_session * hello_ev) (tv : Z * bytes) : mux_session * hello_ev :=
  hello_tlv (fst se) (snd se) (fst tv) (view_of (snd tv)) (zlen (snd tv)).

(** The TLV loop runs the switch over the encoded list, in order. *)
Lemma hello_loop_tlvs fuel s e pre l :
  Forall tlv_ok l → (length l < fuel)%nat →
  hello_loop fuel s e (Some (pre ++ tlvs_bytes l)) (zlen (pre ++ tlvs_bytes l)) (zlen pre) =
  (true, fst (foldl tlv_step (s, e) l), snd (foldl tlv_step (s, e) l)).
Proof.
  intros Hl. revert fuel s e pre. induction Hl as [|[t v] l [Ht Hv] Hl IH]; intros fuel s e pre Hf.
  - destruct fuel; [cbn in Hf; lia |]. cbn [hello_loop]. change (tlvs_bytes []) with (@nil Z).
    rewrite app_nil_r, tlv_next_end. done.
  - destruct fuel as [|fuel]; [cbn in Hf; lia |]. cbn [hello_loop length] in *.
    rewrite tlvs_bytes_cons. cbn [fst snd] in *. pose proof (zlen_nonneg (tlvs_bytes l)).
    rewrite tlv_next_at by (done || zlen_lia).
    change (foldl tlv_step (s, e) ((t, v) :: l))
      with (foldl tlv_step (hello_tlv s e t (view_of v) (zlen v)) l).
    destruct (hello_tlv s e t (view_of v) (zlen v)) as [s1 e1].
    rewrite (assoc_L (++)).
    replace (zlen pre + 4 + zlen v) with (zlen (pre ++ tlv_bytes t v)) by zlen_lia.
    apply IH. lia.
Qed.

(** The parameters a session announces, as the peer's host sees them. *)
Definition hello_params (s : mux_session) : hello_ev :=
  let f p := view_of (vbytes p) in
  mk_hello (s_weight s) (s_max_streams s) (s_init_window s)
    (f (s_peer_id s)) (zlen (vbytes (s_peer_id s))) (f (s_auth s)) (zlen (vbytes (s_auth s)))
    (f (s_nonce s)) (zlen (vbytes (s_nonce s))).

(** What they do to the receiving session. *)
Definition adopt (r s : mux_session) : mux_session :=
  r <| s_peer_max_streams := s_max_streams s |> <| s_peer_init_window := s_init_window s |>
    <| s_send_win := s_session_window s |>.

Lemma tlv_step_u32 s e t v :
  0 ≤ v < 2 ^ 32 →
  tlv_step (s, e) (t, be_put32 v) =
  if t =? MUX_TLV_WEIGHT then (s, e <| h_weight := v |>)
  else if t =? MUX_TLV_MAX_STREAMS then (s <| s_peer_max_streams := v |>, e <| h_max_streams := v |>)
  else if t =? MUX_TLV_INIT_WINDOW then (s <| s_peer_init_window := v |>, e <| h_init_window := v |>)
  else if t =? MUX_TLV_SESSION_WINDOW then (s <| s_send_win := v |>, e)
  else hello_tlv s e t (view_of (be_put32 v)) 4.
Proof.
  intros Hv. unfold tlv_step. cbn [fst snd]. rewrite be_put32_len. unfold hello_tlv at 1.
  rewrite vbytes_view_of, <- (app_nil_r (be_put32 v)), be_get32_put32, app_nil_r by done.
  rewrite !Z.eqb_refl. destruct (t =? MUX_TLV_WEIGHT) eqn:E1; [done |].
  destruct (t =? MUX_TLV_MAX_STREAMS) eqn:E2; [done |].
  destruct (t =? MUX_TLV_INIT_WINDOW) eqn:E3; [done |].
  destruct (t =? MUX_TLV_SESSION_WINDOW) eqn:E4; [done |].
  unfold hello_tlv. by rewrite E1, E2, E3, E4.
Qed.

Lemma blob_fold s e t p :
  (t = MUX_TLV_PEER_ID ∨ t = MUX_TLV_AUTH ∨ t = MUX_TLV_NONCE) →
  (t = MUX_TLV_PEER_ID → h_peer_id e = None ∧ h_peer_id_len e = 0) →
  (t = MUX_TLV_AUTH → h_auth e = None ∧ h_auth_len e = 0) →
  (t = MUX_TLV_NONCE → h_nonce e = None ∧ h_nonce_len e = 0) →
  foldl tlv_step (s, e) (blob_tlv t p) =
  (s, if t =? MUX_TLV_PEER_ID
      then e <| h_peer_id := view_of (vbytes p) |> <| h_peer_id_len := zlen (vbytes p) |>
      else if t =? MUX_TLV_AUTH
      then e <| h_auth := view_of (vbytes p) |> <| h_auth_len := zlen (vbytes p) |>
      else e <| h_nonce := view_of (vbytes p) |> <| h_nonce_len := zlen (vbytes p) |>).
Proof.
  intros Ht H1 H2 H3. unfold blob_tlv. destruct (vbytes p) as [|x l] eqn:E.
  - cbn [foldl]. f_equal. destruct e as [? ? ? pi pil au aul no nol]. cbn in *.
    destruct Ht as [-> | [-> | ->]]; cbn; [destruct H1 | destruct H2 | destruct H3]; by subst.
  - rewrite <- E. cbn [foldl]. unfold tlv_step. cbn [fst snd]. unfold hello_tlv.
    by destruct Ht as [-> | [-> | ->]].
Qed.

(** The whole HELLO payload: the announced parameters, exactly. *)
Lemma hello_fold r s :
  static_wf s → foldl tlv_step (r, hello_zero) (hello_tlvs s) = (adopt r s, hello_params s).
Proof.
  intros [Hiw Hsw Hms Hwt Hhb _ _]. unfold hello_tlvs. rewrite !foldl_app.
  assert (∀ r' e', foldl tlv_step (r', e') [(MUX_TLV_HEARTBEAT_MS, be_put32 (s_heartbeat_ms s))]
                   = (r', e')) as Hhbt.
  { intros r' e'. cbn [foldl]. by rewrite tlv_step_u32 by done. }
  change (foldl tlv_step (r, hello_zero) [?a; ?b; ?c; ?d; ?x])
    with (foldl tlv_step (tlv_step (tlv_step (tlv_step (tlv_step (r, hello_zero) a) b) c) d) [x]).
  rewrite (tlv_step_u32 r) by done. cbn [Z.eqb].
  change (MUX_TLV_WEIGHT =? MUX_TLV_WEIGHT) with true. cbv iota.
  rewrite tlv_step_u32 by lia. change (MUX_TLV_MAX_STREAMS =? MUX_TLV_WEIGHT) with false.
  change (MUX_TLV_MAX_STREAMS =? MUX_TLV_MAX_STREAMS) with true. cbv iota.
  rewrite tlv_step_u32 by lia. change (MUX_TLV_INIT_WINDOW =? MUX_TLV_WEIGHT) with false.
  change (MUX_TLV_INIT_WINDOW =? MUX_TLV_MAX_STREAMS) with false.
  change (MUX_TLV_INIT_WINDOW =? MUX_TLV_INIT_WINDOW) with true. cbv iota.
  rewrite tlv_step_u32 by lia. change (MUX_TLV_SESSION_WINDOW =? MUX_TLV_WEIGHT) with false.
  change (MUX_TLV_SESSION_WINDOW =? MUX_TLV_MAX_STREAMS) with false.
  change (MUX_TLV_SESSION_WINDOW =? MUX_TLV_INIT_WINDOW) with false.
  change (MUX_TLV_SESSION_WINDOW =? MUX_TLV_SESSION_WINDOW) with true. cbv iota.
  rewrite Hhbt, blob_fold by (tauto || done || (intros; split; reflexivity)).
  change (MUX_TLV_PEER_ID =? MUX_TLV_PEER_ID) with true. cbv iota.
  rewrite blob_fold by (tauto || done || (intros; split; reflexivity)).
  change (MUX_TLV_AUTH =? MUX_TLV_PEER_ID) with false.
  change (MUX_TLV_AUTH =? MUX_TLV_AUTH) with true. cbv iota.
  rewrite blob_fold by (tauto || done || (intros; split; reflexivity)). done.
Qed.

Lemma blob_tlvs_ok t p n : 0 ≤ t < 2 ^ 16 → blob_ok p n → Forall tlv_ok (blob_tlv t p).
Proof.
  intros Ht [-> Hn]. unfold blob_tlv, HELLO_BLOB_MAX in *. destruct (vbytes p) as [|x l] eqn:E; [done |].
  constructor; [| done]. split; cbn [fst snd]; lia.
Qed.

Lemma hello_tlvs_ok s : hello_wf s → Forall tlv_ok (hello_tlvs s).
Proof.
  intros [H1 H2 H3]. unfold hello_tlvs. rewrite !Forall_app.
  split_and!; [| by eapply blob_tlvs_ok; [| exact H1] | by eapply blob_tlvs_ok; [| exact H2]
               | by eapply blob_tlvs_ok; [| exact H3]].
  by repeat (constructor; [done |]).
Qed.

Lemma tlvs_count l : Z.of_nat (length l) ≤ zlen (tlvs_bytes l).
Proof.
  induction l as [|[t v] l IH]; [done |]. rewrite tlvs_bytes_cons, zlen_app, tlv_bytes_len. cbn [length].
  pose proof (zlen_nonneg v). lia.
Qed.

(** The greeting frame of a session. *)
Definition hello_frame (s : mux_session) (ack : bool) : wframe :=
  mk_wframe (if ack then MUX_T_HELLO_ACK else MUX_T_HELLO) 0 0 (tlvs_bytes (hello_tlvs s)).

Lemma hello_frame_ok s ack : hello_wf s → wframe_ok (hello_frame s ack).
Proof.
  intros Hh. destruct (hello_blob_spec s Hh) as [_ Hl]. split; [by destruct ack |].
  cbn [w_payload hello_frame]. unfold MUX_MAX_PAYLOAD. lia.
Qed.

(** The receiver once it has adopted the peer's parameters. *)
Definition greeted (r s : mux_session) : mux_session :=
  push (adopt r s <| s_peer_hello_seen := true |>) (EV_PEER_HELLO (hello_params s)).

Lemma on_hello_spec r s ack :
  static_wf s → s_peer_hello_seen r = false →
  process_frame r (frame_of (hello_frame s ack)) =
  let r1 := greeted r s in
  if negb ack && bool_decide (s_role r1 = MUX_ACCEPTOR) && negb (s_hello_sent r1)
  then snd (send_hello r1 true) else r1.
Proof.
  intros Hs Hr. set (pl := tlvs_bytes (hello_tlvs s)).
  assert (on_hello r (frame_of (hello_frame s ack)) ack =
          let r1 := greeted r s in
          if negb ack && bool_decide (s_role r1 = MUX_ACCEPTOR) && negb (s_hello_sent r1)
          then snd (send_hello r1 true) else r1) as <-.
  { unfold on_hello. cbn [f_sid f_len f_payload frame_of hello_frame w_sid w_payload].
    change (0 =? MUX_SID_CONTROL) with true. rewrite Hr. cbn [negb]. fold pl.
    assert (view_of pl = Some ([] ++ pl)) as -> by done. change pl with ([] ++ pl) at 1 2.
    pose proof (tlvs_count (hello_tlvs s)).
    rewrite (hello_loop_tlvs _ r hello_zero [] (hello_tlvs s));
      [| apply hello_tlvs_ok, Hs | change (zlen ([] ++ pl)) with (zlen pl); fold pl in H; lia].
    rewrite hello_fold by done. done. }
  unfold process_frame. cbn [f_type frame_of hello_frame w_type].
  by destruct ack; rewrite andb_false_r.
Qed.

(** A one-frame delivery to a session with room in its queue. *)
Lemma recv_one s w :
  s_dead s = false → wframe_ok w → io_wf s → zlen (events s) < MUX_EVENT_QUEUE_SOFT_CAP →
  s_dead (process_frame s (frame_of w)) = false →
  mux_recv s (Some (enc w)) (zlen (enc w)) = (zlen (enc w), process_frame s (frame_of w)).
Proof.
  intros Hd Hok Hio He Hd'. pose proof (zlen_nonneg (enc w)).
  rewrite (mux_recv_feed (Z.to_nat (zlen (enc w)))) by (done || lia).
  assert (enc w = wire [w] ++ []) as E by (by rewrite app_nil_r, wire_one).
  set (k := Z.to_nat _). rewrite E at 1. rewrite feed_wire.
  - cbn [fmap list_fmap foldl]. assert (∀ k s, feed k s [] = (0, s)) as -> by (by intros [|]).
    by rewrite wire_one, Z.add_0_r.
  - rewrite app_nil_r, wire_one. lia.
  - by constructor.
  - done.
  - intros [|? pre] w' post Ews; [| by destruct pre]. simplify_eq/=. split; [| done].
    by eapply q_full_false.
Qed.

Lemma greeted_facts r s :
  session_wf r → static_wf s → s_peer_hello_seen r = false → s_dead r = false → s_heap r = [] →
  events r = [] →
  let r1 := greeted r s in
  session_wf r1 ∧ s_dead r1 = false ∧ s_heap r1 = [] ∧ outp r1 = outp r ∧
  events r1 = [EV_PEER_HELLO (hello_params s)] ∧
  core r1 = core (adopt r s <| s_peer_hello_seen := true |>).
Proof.
  intros Hw Hs Hh Hd Hhp He r1. destruct (fw_peer r (wf_flow r Hw)) as [_ _].
  assert (op_step r (adopt r s)) as H1.
  { destruct Hs. apply hello_param_op; try done; cbn; [lia | right; lia]. }
  set (r0 := adopt r s <| s_peer_hello_seen := true |>).
  assert (session_wf r0) as Hw0.
  { exact (op_wf _ _ (op_step_trans r _ _ H1 (hello_seen_op (adopt r s)) Hw)). }
  destruct (push_facts r0 (EV_PEER_HELLO (hello_params s)) (wf_io r0 Hw0))
    as (C & _ & D & O & [Ev|[_ Hx]] & H); [| done].
  change r1 with (push r0 (EV_PEER_HELLO (hello_params s))). clear r1.
  split_and!; try done.
  - exact (op_wf _ _ (push_op r0 (EV_PEER_HELLO (hello_params s)) eq_refl eq_refl Hw0)).
  - by rewrite D.
  - by apply H.
  - by rewrite O.
  - rewrite Ev. change (events r0) with (events r). by rewrite He.
Qed.

(** The acceptor reads the dialer's greeting and replies with its own. *)
Lemma greet_acceptor cd ca d a :
  session_new_facts [] cd MUX_DIALER d → session_new_facts [] ca MUX_ACCEPTOR a →
  MUX_HEADER_SIZE + 820 ≤ nz (c_max_out_buffer ca) MUX_DEFAULT_MAX_OUT_BUFFER →
  ∃ a', mux_recv a (Some (outp d)) (zlen (outp d)) = (zlen (outp d), a') ∧ s_dead a' = false ∧
    events a' = [EV_PEER_HELLO (hello_params d)] ∧ outp a' = enc (hello_frame a true) ∧
    ∀ {A} (f : mux_session → A), (∀ x, f x = f (core x)) →
      (∀ x, f x = f (x <| s_hello_sent := true |>)) →
      f a' = f (adopt a d <| s_peer_hello_seen := true |>).
Proof.
  intros [Wd Rd Ad Ed Od [Hd1 Hd2] [Vd _] _ Pd] [Wa Ra Aa Ea Oa [Ha1 Ha2] [Va _] Ma Pa] Hlim.
  destruct Ma as (_ & _ & _ & _ & _ & _ & _ & Hmo).
  assert (Od' : outp d = enc (hello_frame d false)) by exact Od. clear Od.
  destruct (greeted_facts a d) as (Wg & Dg & Pg & Og & Eg & Cg); auto; [apply Wd |].
  set (g := greeted a d) in *.
  destruct (send_hello_spec g true (wf_io g Wg)) as (r & s1 & Es & F & Hc); [apply Wg |].
  destruct Hc as [(-> & Os & Evs & Ds)|(_ & _ & [Hx|Hx])]; [| done | exfalso].
  2: { rewrite <- (outp_len g (wf_io g Wg)), Og, Oa, zlen_nil in Hx.
       assert (s_max_out_buffer g = s_max_out_buffer a) as Em
         by exact (core_field s_max_out_buffer _ g (fun _ => eq_refl) Cg).
       lia. }
  rewrite Og, Oa in Os. rewrite Z.eqb_refl in Es. set (a' := s1 <| s_hello_sent := true |>) in *.
  assert (process_frame a (frame_of (hello_frame d false)) = a') as Ep.
  { rewrite on_hello_spec by (done || apply Wd). cbv zeta. fold g.
    rewrite (core_field s_role _ g (fun _ => eq_refl) Cg),
      (core_field s_hello_sent _ g (fun _ => eq_refl) Cg).
    change (s_role (adopt a d <| s_peer_hello_seen := true |>)) with (s_role a).
    change (s_hello_sent (adopt a d <| s_peer_hello_seen := true |>)) with (s_hello_sent a).
    rewrite Ra, Ha2, Es. done. }
  pose proof (recv_one a (hello_frame d false) Aa (hello_frame_ok d false (sw_hello d (wf_static d Wd)))
    (wf_io a Wa) ltac:(by rewrite Ea)) as R1. rewrite Ep in R1.
  assert (s_dead a' = false) as Da' by (rewrite <- Dg; exact Ds).
  exists a'. rewrite Od'. split_and!; [exact (R1 Da') | exact Da' | rewrite <- Eg; exact Evs | |].
  - change (outp a') with (outp s1). rewrite Os. cbn [app]. unfold hello_frame. do 2 f_equal.
    f_equal. exact (core_field hello_tlvs _ g (fun _ => eq_refl) Cg).
  - intros A f Hf Hf'. transitivity (f s1); [symmetry; apply Hf' |].
    transitivity (f g); [apply (core_field f); [done | apply F] | by apply (core_field f)].
Qed.

(** The dialer reads the reply. *)
Lemma greet_dialer cd ca d a :
  session_new_facts [] cd MUX_DIALER d → session_new_facts [] ca MUX_ACCEPTOR a →
  let bs := enc (hello_frame a true) in
  ∃ d', mux_recv d (Some bs) (zlen bs) = (zlen bs, d') ∧ s_dead d' = false ∧
    events d' = [EV_PEER_HELLO (hello_params a)] ∧
    ∀ {A} (f : mux_session → A), (∀ x, f x = f (core x)) →
      f d' = f (adopt d a <| s_peer_hello_seen := true |>).
Proof.
  intros [Wd Rd Ad Ed Od [Hd1 Hd2] [Vd _] _ Pd] [Wa Ra Aa Ea Oa [Ha1 Ha2] [Va _] Ma Pa] bs. subst bs.
  destruct (greeted_facts d a) as (Wh & Dh & Ph & Oh & Eh & Ch); auto; [apply Wa |].
  set (h := greeted d a) in *.
  assert (process_frame d (frame_of (hello_frame a true)) = h) as Ep'
    by (rewrite on_hello_spec by (done || apply Wa); done).
  pose proof (recv_one d (hello_frame a true) Ad (hello_frame_ok a true (sw_hello a (wf_static a Wa)))
    (wf_io d Wd) ltac:(by rewrite Ed)) as R2. rewrite Ep' in R2.
  exists h. split_and!; [exact (R2 Dh) | exact Dh | exact Eh |].
  intros A f Hf. by apply (core_field f).
Qed.

(** Both directions together. *)
Lemma handshake_spec cd ca d a :
  config_ok cd → config_ok ca →
  mux_session_new [] cd MUX_DIALER = Some d → mux_session_new [] ca MUX_ACCEPTOR = Some a →
  MUX_HEADER_SIZE + 820 ≤ nz (c_max_out_buffer ca) MUX_DEFAULT_MAX_OUT_BUFFER →
  ∃ a' d',
    mux_recv a (Some (outp d)) (zlen (outp d)) = (zlen (outp d), a') ∧
    mux_recv d (Some (outp a')) (zlen (outp a')) = (zlen (outp a'), d') ∧
    s_dead a' = false ∧ s_dead d' = false ∧
    events a' = [EV_PEER_HELLO (hello_params d)] ∧ events d' = [EV_PEER_HELLO (hello_params a)] ∧
    s_send_win a' = s_recv_win d' ∧ s_send_win d' = s_recv_win a' ∧
    s_peer_init_window a' = s_init_window d' ∧ s_peer_init_window d' = s_init_window a' ∧
    s_peer_max_streams a' = s_max_streams d' ∧ s_peer_max_streams d' = s_max_streams a' ∧
    s_peer_hello_seen a' = true ∧ s_peer_hello_seen d' = true.
Proof.
  intros Hcd Hca Hd Ha Hlim.
  pose proof (mux_session_new_spec [] cd MUX_DIALER Hcd) as Fd. rewrite Hd in Fd.
  pose proof (mux_session_new_spec [] ca MUX_ACCEPTOR Hca) as Fa. rewrite Ha in Fa.
  destruct (greet_acceptor cd ca d a Fd Fa Hlim) as (a' & R1 & Da & Ea & Oa & Hfa).
  destruct (greet_dialer cd ca d a Fd Fa) as (d' & R2 & Dd & Ed & Hfd). rewrite <- Oa in R2.
  destruct (nf_recv _ _ _ _ Fd) as [Vd _], (nf_recv _ _ _ _ Fa) as [Va _].
  exists a', d'. split_and!; [exact R1 | exact R2 | exact Da | exact Dd | exact Ea | exact Ed | ..].
  - rewrite (Hfa _ s_send_win), (Hfd _ s_recv_win) by done. symmetry. exact Vd.
  - rewrite (Hfd _ s_send_win), (Hfa _ s_recv_win) by done. symmetry. exact Va.
  - by rewrite (Hfa _ s_peer_init_window), (Hfd _ s_init_window).
  - by rewrite (Hfd _ s_peer_init_window), (Hfa _ s_init_window).
  - by rewrite (Hfa _ s_peer_max_streams), (Hfd _ s_max_streams).
  - by rewrite (Hfd _ s_peer_max_streams), (Hfa _ s_max_streams).
  - by rewrite (Hfa _ s_peer_hello_seen).
  - by rewrite (Hfd _ s_peer_hello_seen).
Qed.

(** C4: the handshake agrees.  Between any two sessions built from valid
    configurations, delivering the dialer's greeting to the acceptor and the
    acceptor's reply to the dialer completes the handshake: every byte is
    consumed, neither side fails, each host gets exactly one PEER_HELLO event
    with the peer's configured parameters, and each side's send windows and
    stream cap equal the peer's receive windows and cap. *)
Theorem handshake_agreement cd ca d a :
  config_ok cd → config_ok ca →
  mux_session_new [] cd MUX_DIALER = Some d → mux_session_new [] ca MUX_ACCEPTOR = Some a →
  MUX_HEADER_SIZE + 820 ≤ nz (c_max_out_buffer ca) MUX_DEFAULT_MAX_OUT_BUFFER →
  ∃ a' d',
    mux_recv a (Some (outp d)) (zlen (outp d)) = (zlen (outp d), a') ∧
    mux_recv d (Some (outp a')) (zlen (outp a')) = (zlen (outp a'), d') ∧
    s_dead a' = false ∧ s_dead d' = false ∧
    events a' = [EV_PEER_HELLO (hello_params d)] ∧ events d' = [EV_PEER_HELLO (hello_params a)] ∧
    s_send_win a' = s_recv_win d' ∧ s_send_win d' = s_recv_win a' ∧
    s_peer_init_window a' = s_init_window d' ∧ s_peer_init_window d' = s_init_window a' ∧
    s_peer_max_streams a' = s_max_streams d' ∧ s_peer_max_streams d' = s_max_streams a' ∧
    s_peer_hello_seen a' = true ∧ s_peer_hello_seen d' = true.
Proof. apply handshake_spec. Qed.

(** ** Opening a stream *)

(** [mux_open] when nothing stands in its way. *)
Lemma mux_open_spec a meta :
  let n := zlen (vbytes meta) in
  let sid := s_next_local_sid a in
  session_wf a → s_dead a = false → s_heap a = [] → s_peer_hello_seen a = true →
  s_local_goaway a = false → n ≤ MUX_MAX_META → t_count (s_tab a) < s_peer_max_streams a →
  sid ≠ 0 → sid ≠ 2 ^ 32 - 1 →
  mux_out_pending a + MUX_HEADER_SIZE + n ≤ s_max_out_buffer a →
  ∃ a', mux_open a meta n = (sid, a') ∧ s_dead a' = false ∧
    outp a' = outp a ++ enc (mk_wframe MUX_T_DATA MUX_F_SYN sid (vbytes meta)) ∧
    streams a' = <[sid := open_record a (stream_fresh sid)]> (streams a).
Proof.
  intros n sid Hw Hd Hh Hhs Hga Hn Hcap H0 H1 Hroom. unfold mux_open. rewrite Hd, Hhs, Hga.
  cbn [negb]. pose proof (zlen_nonneg (vbytes meta)). rewrite Z.geb_leb.
  destruct (Z.gtb_spec n MUX_MAX_META), (Z.leb_spec (s_peer_max_streams a) (t_count (s_tab a))); try lia.
  fold sid. unfold MUX_SID_CONTROL. destruct (Z.eqb_spec sid 0); [done |].
  pose proof (wf_flow a Hw) as Hf. pose proof (next_sid_absent a Hf H0) as Hk. fold sid in Hk.
  destruct (fw_sid a Hf) as (Hsr & _). fold sid in Hsr.
  set (a0 := a <| s_next_local_sid := u32 (sid + 2) |>).
  destruct (insert_stream_spec a0 sid (open_record a) (fw_tab a Hf) Hk)
    as (o & h & t & -> & Hh' & Hc); [done | done |]. cbv zeta in Hc.
  destruct Hc as [[-> _]|(j & -> & Hw2 & Hm & Hj & _)]; [by destruct (Hh' Hh) |].
  set (a2 := st_modify (a0 <| s_tab := t |> <| s_heap := h |>) j (open_record a)) in *.
  change (st_modify _ j _) with a2.
  set (pl := if negb (n =? 0) then meta else None).
  assert (vbytes pl = vbytes meta) as Epl.
  { subst pl n. destruct (Z.eqb_spec (zlen (vbytes meta)) 0) as [E0|]; [| done]. cbn [negb].
    destruct (vbytes meta) as [|x l]; [done |]. rewrite zlen_cons in E0. pose proof (zlen_nonneg l). lia. }
  unfold MUX_MAX_META in *. rewrite u32_id by lia.
  destruct (emit_spec a2 MUX_T_DATA MUX_F_SYN sid pl n) as (r & a3 & -> & F & Hc);
    [by apply hdr_ok_small | rewrite Epl; lia | unfold MUX_MAX_PAYLOAD; lia | by destruct Hw as [[] _ _ _] |].
  destruct Hc as [(-> & Ho & _ & Hd3)|(_ & _ & _ & [Hx|Hx])].
  - rewrite Z.eqb_refl. cbn [negb]. exists a3. split_and!; [done | by rewrite Hd3 | |].
    + rewrite Ho, Epl, ztake_all by lia. done.
    + rewrite (core_field (fun s => streams s) a2 a3) by (done || apply F). exact Hm.
  - change (s_heap a2) with h in Hx. by destruct (Hh' Hh).
  - change (s_max_out_buffer a2) with (s_max_out_buffer a) in Hx.
    change (mux_out_pending a2) with (mux_out_pending a) in Hx. lia.
Qed.

(** An acceptable SYN. *)
Lemma on_syn_spec b sid pl :
  session_wf b → s_dead b = false → s_heap b = [] → s_peer_hello_seen b = true →
  Z.land sid 1 = match s_role b with MUX_DIALER => 0 | MUX_ACCEPTOR => 1 end →
  sid ≠ 0 → s_max_remote_sid b < sid → zlen pl ≤ MUX_MAX_META →
  t_count (s_tab b) < s_max_streams b → s_local_goaway b = false →
  let b' := process_frame b (frame_of (mk_wframe MUX_T_DATA MUX_F_SYN sid pl)) in
  s_dead b' = false ∧
  events b' = events b ++ [EV_STREAM_OPENED sid (view_of pl) (zlen pl)] ∧
  streams b' = <[sid := open_record b (stream_fresh sid)]> (streams b).
Proof.
  intros Hw Hd Hh Hhs Hp H0 Hlt Hn Hcap Hga b'. pose proof (wf_flow b Hw) as Hf.
  pose proof (remote_sid_absent b sid Hf (role_parity _ _ Hp) Hlt) as Hk.
  destruct (insert_stream_spec b sid (open_record b) (fw_tab b Hf) Hk)
    as (o & h & t & E & Hh' & Hc); [done | done |]. cbv zeta in Hc.
  destruct Hc as [[-> _]|(j & -> & Hw2 & Hm & Hj & _)]; [by destruct (Hh' Hh) |].
  destruct (Hh' Hh) as [_ ->].
  set (b2 := st_modify (b <| s_tab := t |> <| s_heap := [] |>) j (open_record b)) in *.
  assert (b' = push (b2 <| s_max_remote_sid := sid |>) (EV_STREAM_OPENED sid (view_of pl) (zlen pl))) as ->.
  { subst b'. unfold process_frame, on_data, on_syn, has_flag.
    cbn [f_type f_flags f_sid f_len f_payload frame_of w_type w_flags w_sid w_payload].
    rewrite Hhs. cbn [negb andb]. change (MUX_T_DATA =? MUX_T_DATA) with true.
    change (negb (Z.land MUX_F_SYN MUX_F_SYN =? 0)) with true.
    change (negb (Z.land MUX_F_SYN MUX_F_RST =? 0)) with false.
    change (negb (Z.land MUX_F_SYN MUX_F_FIN =? 0)) with false. cbv iota.
    rewrite Hp, Z.eqb_refl. cbn [negb]. unfold MUX_SID_CONTROL.
    destruct (Z.eqb_spec sid 0); [done |].
    rewrite bool_decide_eq_false_2.
    2: { pose proof (st_find_map (s_tab b) sid (fw_tab b Hf)) as Hfm. intros Hx. apply Hx.
         destruct (st_find (s_tab b) sid) as [i|]; [| done].
         destruct Hfm as (x & _ & _ & _ & Hfm). congruence. }
    destruct (Z.leb_spec sid (s_max_remote_sid b)), (Z.gtb_spec (zlen pl) MUX_MAX_META); try lia.
    rewrite Z.geb_leb. destruct (Z.leb_spec (s_max_streams b) (t_count (s_tab b))); [lia |].
    rewrite Hga, E. done. }
  destruct (push_facts (b2 <| s_max_remote_sid := sid |>) (EV_STREAM_OPENED sid (view_of pl) (zlen pl)))
    as (C & _ & D & _ & [Ev|[_ Hx]] & _); [by destruct Hw as [[] _ _ _] | | done].
  split_and!; [by rewrite D | by rewrite Ev |].
  rewrite (core_field (fun s => streams s) (b2 <| s_max_remote_sid := sid |>)) by done. exact Hm.
Qed.

(** C28: opening a stream.  When [mux_open] succeeds, the bytes it queued make
    the peer's host see exactly one STREAM_OPENED event with the same id and the
    same metadata; both tables then hold that stream, and each side's send
    window for it equals the other side's receive window. *)
Theorem open_delivery a b meta :
  let n := zlen (vbytes meta) in
  let sid := s_next_local_sid a in
  session_wf a → s_dead a = false → s_heap a = [] → s_peer_hello_seen a = true →
  s_local_goaway a = false → n ≤ MUX_MAX_META → t_count (s_tab a) < s_peer_max_streams a →
  sid ≠ 0 → sid ≠ 2 ^ 32 - 1 →
  mux_out_pending a + MUX_HEADER_SIZE + n ≤ s_max_out_buffer a →
  session_wf b → s_dead b = false → s_heap b = [] → s_peer_hello_seen b = true →
  s_role b ≠ s_role a → s_max_remote_sid b < sid → t_count (s_tab b) < s_max_streams b →
  s_local_goaway b = false → zlen (events b) < MUX_EVENT_QUEUE_SOFT_CAP →
  s_peer_init_window a = s_init_window b → s_peer_init_window b = s_init_window a →
  ∃ a' bs b' ea eb,
    mux_open a meta n = (sid, a') ∧ outp a' = outp a ++ bs ∧
    mux_recv b (Some bs) (zlen bs) = (zlen bs, b') ∧ s_dead a' = false ∧ s_dead b' = false ∧
    events b' = events b ++ [EV_STREAM_OPENED sid (view_of (vbytes meta)) n] ∧
    stab_map (s_tab a') = <[sid := ea]> (stab_map (s_tab a)) ∧
    stab_map (s_tab b') = <[sid := eb]> (stab_map (s_tab b)) ∧
    st_send_win ea = st_recv_win eb ∧ st_send_win eb = st_recv_win ea.
Proof.
  intros n sid Hwa Hda Hha Hhsa Hga Hn Hca H0 H1 Hroom Hwb Hdb Hhb Hhsb Hrole Hlt Hcb Hgb Hq E1 E2.
  destruct (mux_open_spec a meta) as (a' & Eo & Hda' & Ho & Hma); try done. fold n sid in Eo, Ho, Hma.
  set (w := mk_wframe MUX_T_DATA MUX_F_SYN sid (vbytes meta)) in *.
  destruct (fw_sid a (wf_flow a Hwa)) as (Hsr & Hpar & _). fold sid in Hsr, Hpar.
  destruct (on_syn_spec b sid (vbytes meta)) as (Hdb' & Hev & Hmb); try done.
  { rewrite Hpar. by destruct (s_role a), (s_role b). }
  exists a', (enc w), (process_frame b (frame_of w)). do 2 eexists.
  split_and!; [exact Eo | exact Ho | | done | done | exact Hev | exact Hma | exact Hmb | |].
  - apply recv_one; try done; [| apply Hwb]. split; [by apply hdr_ok_small |].
    cbn [w_payload w]. unfold MUX_MAX_META, MUX_MAX_PAYLOAD in *. lia.
  - done.
  - done.
Qed.

(** ** Witnesses *)

Lemma handshake_agreement_witness :
  ∃ a' d', mux_recv sample_acceptor (Some (outp sample_dialer)) (zlen (outp sample_dialer))
             = (zlen (outp sample_dialer), a') ∧
    s_send_win a' = s_recv_win d' ∧ events a' = [EV_PEER_HELLO (hello_params sample_dialer)].
Proof.
  destruct (handshake_agreement sample_cfg sample_cfg sample_dialer sample_acceptor
    sample_cfg_ok sample_cfg_ok sample_dialer_new sample_acceptor_new)
    as (a' & d' & H1 & _ & _ & _ & H2 & _ & H3 & _); [vm_compute; discriminate |].
  exists a', d'. split_and!; [exact H1 | exact H3 | exact H2].
Defined.

(** The two samples after a complete handshake. *)
Definition sample_greeting : bytes := outp sample_dialer.
Definition sample_acc1 : mux_session :=
  snd (mux_recv sample_acceptor (Some sample_greeting) (zlen sample_greeting)).
Definition sample_reply : bytes := outp sample_acc1.
Definition sample_dial1 : mux_session :=
  snd (mux_recv sample_dialer (Some sample_reply) (zlen sample_reply)).

Lemma sample_acc1_wf : session_wf sample_acc1.
Proof.
  assert (reachable [] sample_cfg MUX_ACCEPTOR (at_start sample_acc1)) as Hr.
  { exists sample_acceptor. split; [exact sample_acceptor_new |]. unfold at_start, sample_acc1.
    apply rtc_once, step_call, (api_recv _ sample_greeting).
    apply (bool_decide_unpack _). vm_compute. exact I. }
  exact (ho_wf _ _ _ (reachable_ok _ _ _ _ sample_cfg_ok Hr)).
Qed.

Lemma sample_dial1_wf : session_wf sample_dial1.
Proof.
  assert (reachable [] sample_cfg MUX_DIALER (at_start sample_dial1)) as Hr.
  { exists sample_dialer. split; [exact sample_dialer_new |]. unfold at_start, sample_dial1.
    apply rtc_once, step_call, (api_recv _ sample_reply).
    apply (bool_decide_unpack _). vm_compute. exact I. }
  exact (ho_wf _ _ _ (reachable_ok _ _ _ _ sample_cfg_ok Hr)).
Qed.

#[global] Strategy opaque [sample_greeting sample_acc1 sample_reply sample_dial1].

Lemma open_delivery_witness :
  ∃ a' bs b', mux_open sample_dial1 (Some [9; 8]) 2 = (1, a') ∧ outp a' = outp sample_dial1 ++ bs ∧
    mux_recv sample_acc1 (Some bs) (zlen bs) = (zlen bs, b') ∧
    events b' = events sample_acc1 ++ [EV_STREAM_OPENED 1 (Some [9; 8]) 2].
Proof.
  destruct (open_delivery sample_dial1 sample_acc1 (Some [9; 8]))
    as (a' & bs & b' & ea & eb & H1 & H2 & H3 & _ & _ & H4 & _);
    [first [exact sample_dial1_wf | exact sample_acc1_wf | vm_compute; (reflexivity || discriminate)] .. |].
  exists a', bs, b'. split_and!; [exact H1 | exact H2 | exact H3 | exact H4].
Defined.

(** ** The end of the id space *)

(** A dialer with stream 1 open whose next id is the last odd one, as after
    [2^31 - 2] further opens. *)
Definition worn_dialer : mux_session :=
  snd (mux_open sample_dial1 None 0) <| s_next_local_sid := 2 ^ 32 - 1 |>.

Definition live_with (sid : Z) (s : mux_session) : Z :=
  cnt (fun e => is_used e && (st_sid e =? sid)) (t_tab (s_tab s)).

(** A dialer's stream ids wrap around.  The exhaustion test of [mux_open]
    catches id 0 only, which odd ids never reach: after [2^32 - 1] the next
    stream gets id 1, here while stream 1 is still open, and the table then has
    two live records of that id. *)
Theorem sid_reuse :
  let '(r1, s1) := mux_open worn_dialer None 0 in
  let '(r2, s2) := mux_open s1 None 0 in
  r1 = 2 ^ 32 - 1 ∧ r2 = 1 ∧ live_with 1 worn_dialer = 1 ∧ live_with 1 s2 = 2.
Proof. vm_compute. auto. Qed.
