(* ===== verification/Keepalive.v ===== *)
(** The keepalive timer: [mux_on_timer] driven, as documented, at exactly the
    deadlines it returns, with a transport that drains the output and a peer
    that never answers. *)

From stdpp Require Import base list numbers gmap.
From Stdlib Require Import ZArith Lia.
From S2P Require Import Prelude Frame OutBuf EventQueue Probe StreamTable Session SessionIO Handshake Recv SessionInv SessionOps SessionApi SessionSys SessionFlow Connect.

(** [n] calls, each at the deadline the previous one returned, starting at
    [now]; everything queued is sent in between. *)
Fixpoint timer_run (n : nat) (s : mux_session) (now : Z) : Z * mux_session :=
  match n with
  | O => (now, s)
  | S n =>
      let '(next, s) := mux_on_timer s now in
      timer_run n (mux_send_advance s (mux_out_pending s)) next
  end.

(** The state between two calls when nothing comes back: a PING was sent [hb]
    before the due time, which is now. *)
Record silent (s : mux_session) (now : Z) : Prop := {
  si_wf : session_wf s;
  si_alive : s_dead s = false;
  si_heap : s_heap s = [];
  si_hb : 0 < s_heartbeat_ms s;
  si_out : MUX_HEADER_SIZE + 8 ≤ s_max_out_buffer s;
  si_empty : outp s = [];
  si_started : s_timer_started s = true;
  si_due : s_ping_due_ms s = now;
  si_sent : s_ping_outstanding s = true → s_ping_sent_ms s + s_heartbeat_ms s = now;
  si_now : 0 ≤ s_ping_sent_ms s ∧ s_heartbeat_ms s ≤ now;
}.

(** Sending one PING with room for it. *)
Lemma timer_ping_spec s now :
  session_wf s → s_dead s = false → s_heap s = [] → outp s = [] →
  MUX_HEADER_SIZE + 8 ≤ s_max_out_buffer s →
  ∃ s1, timer_ping s now =
      s1 <| s_ping_outstanding := true |> <| s_ping_sent_ms := now |>
         <| s_ping_nonce ::= fun n => u64 (n + 1) |>
         <| s_ping_due_ms := u64 (now + s_heartbeat_ms s1) |> ∧
    io_facts s s1 ∧ s_dead s1 = false.
Proof.
  intros Hw Hd Hh Ho Hm. unfold timer_ping. set (b := _ ++ _).
  assert (zlen b = 8) as Lb by (subst b; by rewrite zlen_app, !be_put32_len).
  destruct (emit_spec s MUX_T_PING 0 MUX_SID_CONTROL (Some b) 8 ) as (r & s1 & -> & F & Hc);
    [by apply hdr_ok_small | rewrite vbytes_Some; lia | done | apply Hw |].
  destruct Hc as [(-> & _ & _ & Hd1)|(_ & _ & _ & [?|Hx])]; [| done | exfalso].
  - exists s1. rewrite Z.eqb_refl. split_and!; [done | done | congruence].
  - rewrite <- (outp_len s (wf_io s Hw)), Ho, zlen_nil in Hx. lia.
Qed.

Lemma drain_empty s :
  session_wf s → session_wf (mux_send_advance s (mux_out_pending s)) ∧
  outp (mux_send_advance s (mux_out_pending s)) = [].
Proof.
  intros Hw. pose proof (outp_len s (wf_io s Hw)) as L. pose proof (zlen_nonneg (outp s)).
  destruct (mux_send_advance_wf s (mux_out_pending s)) as [Hw' Ho]; [lia | done |].
  split; [done |]. rewrite Ho. apply zdrop_all. lia.
Qed.

(** One round with a timeout longer than the heartbeat: a fresh PING, and the
    clock of the outstanding one is reset. *)
Lemma timer_round s now :
  silent s now → s_heartbeat_ms s < s_keepalive_timeout_ms s →
  now + s_heartbeat_ms s + s_keepalive_timeout_ms s < 2 ^ 64 →
  ∃ s1, mux_on_timer s now = (now + s_heartbeat_ms s, s1) ∧
    silent (mux_send_advance s1 (mux_out_pending s1)) (now + s_heartbeat_ms s) ∧
    s_ping_outstanding s1 = true ∧
    s_heartbeat_ms s1 = s_heartbeat_ms s ∧ s_keepalive_timeout_ms s1 = s_keepalive_timeout_ms s.
Proof.
  intros [Hw Hd Hh Hhb Hm Ho Hst Hdue Hsent [Hs0 Hnow]] Hlt Hr. unfold mux_on_timer.
  rewrite Hd, Hst, Hdue. cbn [negb orb]. destruct (Z.eqb_spec (s_heartbeat_ms s) 0); [lia |].
  assert (s_ping_outstanding s && negb (s_keepalive_timeout_ms s =? 0)
          && (u64 (now - s_ping_sent_ms s) >=? s_keepalive_timeout_ms s) = false) as ->.
  { destruct (s_ping_outstanding s); [| done]. specialize (Hsent eq_refl). cbn [andb].
    rewrite u64_id by lia. rewrite Z.geb_leb. apply andb_false_iff. right. apply Z.leb_gt. lia. }
  rewrite Z.geb_leb, Z.leb_refl. cbv zeta.
  destruct (timer_ping_spec s now Hw Hd Hh Ho Hm) as (s1 & Ep & F & Hd1).
  pose proof (op_wf _ _ (timer_ping_op s now Hw)) as Hw2. rewrite Ep in *.
  set (s2 := _ <| s_ping_due_ms := _ |>) in *.
  assert (s_heartbeat_ms s2 = s_heartbeat_ms s ∧ s_keepalive_timeout_ms s2 = s_keepalive_timeout_ms s ∧
          s_timer_started s2 = s_timer_started s ∧ s_max_out_buffer s2 = s_max_out_buffer s)
    as (E1 & E2 & E3 & E4).
  { destruct F as [C _ _ _ _ _ _]. split_and!;
      [exact (core_field s_heartbeat_ms s s1 (fun _ => eq_refl) C)
      | exact (core_field s_keepalive_timeout_ms s s1 (fun _ => eq_refl) C)
      | exact (core_field s_timer_started s s1 (fun _ => eq_refl) C)
      | exact (core_field s_max_out_buffer s s1 (fun _ => eq_refl) C)]. }
  assert (s_ping_outstanding s2 = true ∧ s_ping_sent_ms s2 = now ∧
          s_ping_due_ms s2 = u64 (now + s_heartbeat_ms s2)) as (E5 & E6 & E7) by done.
  rewrite E5, E6, E7, E1, E2. rewrite !u64_id by lia.
  destruct (Z.eqb_spec (s_keepalive_timeout_ms s) 0); [lia |]. cbn [negb andb].
  destruct (Z.ltb_spec (now + s_keepalive_timeout_ms s) (now + s_heartbeat_ms s)); [lia |].
  exists s2. split_and!; try done. destruct (drain_empty s2 Hw2) as [Hw3 Ho3].
  destruct (io_heap _ _ F Hh) as [Hh1 _].
  assert (s_ping_due_ms s2 = now + s_heartbeat_ms s) as E7' by (rewrite E7, E1; apply u64_id; lia).
  split; try done.
  - change (0 < s_heartbeat_ms s2). lia.
  - change (MUX_HEADER_SIZE + 8 ≤ s_max_out_buffer s2). lia.
  - change (s_timer_started s2 = true). congruence.
  - intros _. change (s_ping_sent_ms s2 + s_heartbeat_ms s2 = now + s_heartbeat_ms s). lia.
  - change (0 ≤ s_ping_sent_ms s2 ∧ s_heartbeat_ms s2 ≤ now + s_heartbeat_ms s). lia.
Qed.

Lemma timer_rounds n s now :
  silent s now → s_heartbeat_ms s < s_keepalive_timeout_ms s →
  now + (Z.of_nat n + 1) * s_heartbeat_ms s + s_keepalive_timeout_ms s < 2 ^ 64 →
  let '(next, s') := timer_run n s now in
  next = now + Z.of_nat n * s_heartbeat_ms s ∧ silent s' next.
Proof.
  revert s now. induction n as [|n IH]; intros s now Hs Hlt Hr.
  - cbn [timer_run]. split; [lia | done].
  - cbn [timer_run]. pose proof (si_hb s now Hs).
    destruct (timer_round s now Hs Hlt) as (s1 & -> & Hs1 & _ & E1 & E2); [nia |].
    specialize (IH _ _ Hs1). change (s_heartbeat_ms (mux_send_advance s1 _)) with (s_heartbeat_ms s1) in IH.
    change (s_keepalive_timeout_ms (mux_send_advance s1 _)) with (s_keepalive_timeout_ms s1) in IH.
    rewrite E1, E2 in IH. specialize (IH Hlt ltac:(nia)).
    destruct (timer_run n _ _) as [next s']. destruct IH as [-> ?]. split; [nia | done].
Qed.

(** C33: with a timeout no longer than the heartbeat, a silent peer is detected on
    time.  When the PING just sent stays unanswered, the call returns the
    instant [sent + timeout] as its deadline, and the call at that instant kills
    the session with a FATAL event. *)
Theorem keepalive_detects s now :
  session_wf s → s_dead s = false → s_heap s = [] → outp s = [] →
  MUX_HEADER_SIZE + 8 ≤ s_max_out_buffer s → s_timer_started s = true →
  s_ping_outstanding s = false → 0 < s_keepalive_timeout_ms s < s_heartbeat_ms s →
  0 ≤ s_ping_due_ms s ≤ now → now + s_heartbeat_ms s < 2 ^ 64 →
  let '(next, s1) := mux_on_timer s now in
  next = now + s_keepalive_timeout_ms s ∧ s_dead s1 = false ∧
  let '(_, s2) := mux_on_timer s1 next in
  s_dead s2 = true ∧ events s2 = events s1 ++ [EV_FATAL MUX_CODE_INTERNAL].
Proof.
  intros Hw Hd Hh Ho Hm Hst Hout Hto Hdue Hr. unfold mux_on_timer at 1.
  rewrite Hd, Hst, Hout. cbn [negb orb andb]. destruct (Z.eqb_spec (s_heartbeat_ms s) 0); [lia |].
  rewrite Z.geb_leb. destruct (Z.leb_spec (s_ping_due_ms s) now); [| lia]. cbv zeta.
  destruct (timer_ping_spec s now Hw Hd Hh Ho Hm) as (s1 & Ep & F & Hd1).
  pose proof (op_wf _ _ (timer_ping_op s now Hw)) as Hw2. rewrite Ep in *.
  set (s2 := _ <| s_ping_due_ms := _ |>) in *.
  destruct (io_heap _ _ F Hh) as [Hh1 _]. destruct F as [C _ _ _ _ _ _].
  assert (s_heartbeat_ms s2 = s_heartbeat_ms s) as E1
    by exact (core_field s_heartbeat_ms s s1 (fun _ => eq_refl) C).
  assert (s_keepalive_timeout_ms s2 = s_keepalive_timeout_ms s) as E2
    by exact (core_field s_keepalive_timeout_ms s s1 (fun _ => eq_refl) C).
  assert (s_timer_started s2 = true) as E3
    by (transitivity (s_timer_started s); [exact (core_field s_timer_started s s1 (fun _ => eq_refl) C) | done]).
  assert (s_ping_outstanding s2 = true ∧ s_ping_sent_ms s2 = now ∧
          s_ping_due_ms s2 = u64 (now + s_heartbeat_ms s2)) as (E5 & E6 & E7) by done.
  rewrite E5, E6, E7, E1, E2, !u64_id by lia.
  destruct (Z.eqb_spec (s_keepalive_timeout_ms s) 0); [lia |]. cbn [negb andb].
  destruct (Z.ltb_spec (now + s_keepalive_timeout_ms s) (now + s_heartbeat_ms s)); [| lia].
  assert (s_dead s2 = false) as Hd2 by exact Hd1. split_and!; [done | done |].
  unfold mux_on_timer. rewrite Hd2, E1, E2, E3, E5, E6. cbn [negb orb andb].
  destruct (Z.eqb_spec (s_heartbeat_ms s) 0), (Z.eqb_spec (s_keepalive_timeout_ms s) 0); try lia.
  cbn [negb andb]. rewrite u64_id by lia. rewrite Z.geb_leb.
  destruct (Z.leb_spec (s_keepalive_timeout_ms s) (now + s_keepalive_timeout_ms s - now)); [| lia].
  split; [apply raise_fatal_dead |]. unfold raise_fatal. rewrite Hd2.
  destruct (push_facts (s2 <| s_dead := true |>) (EV_FATAL MUX_CODE_INTERNAL))
    as (_ & _ & _ & _ & [->|[_ Hx]] & _); [by destruct Hw2 as [[] _ _ _] | done | by destruct Hx].
Qed.

(** With a timeout longer than the heartbeat (the default is three times it)
    a silent peer is never detected.  However often [mux_on_timer] is called at
    the deadlines it returns, each call sends another PING, which restarts the
    timeout of the unanswered one, so the session stays alive. *)
Theorem keepalive_never_fires n s now :
  session_wf s → s_dead s = false → s_heap s = [] → outp s = [] →
  MUX_HEADER_SIZE + 8 ≤ s_max_out_buffer s → s_timer_started s = false →
  s_ping_outstanding s = false → s_ping_sent_ms s = 0 →
  0 < s_heartbeat_ms s < s_keepalive_timeout_ms s → 0 ≤ now →
  now + (Z.of_nat n + 2) * s_heartbeat_ms s + s_keepalive_timeout_ms s < 2 ^ 64 →
  s_dead (snd (timer_run (S n) s now)) = false.
Proof.
  intros Hw Hd Hh Ho Hm Hst Hout Hsent Hto Hnow Hr. cbn [timer_run]. unfold mux_on_timer.
  rewrite Hd, Hst. cbn [negb orb]. destruct (Z.eqb_spec (s_heartbeat_ms s) 0); [lia |].
  set (s1 := s <| s_timer_started := true |> <| s_ping_due_ms := _ |>).
  change (s_ping_due_ms s1) with (u64 (now + s_heartbeat_ms s)). rewrite u64_id by nia.
  assert (session_wf s1) as Hw1.
  { exact (op_wf _ _ (timer_fields_op s true (s_ping_outstanding s) (u64 (now + s_heartbeat_ms s))
             (s_ping_sent_ms s) (s_ping_nonce s) Hw)). }
  destruct (drain_empty s1 Hw1) as [Hw2 Ho2].
  pose proof (timer_rounds n (mux_send_advance s1 (mux_out_pending s1)) (now + s_heartbeat_ms s)) as Hn.
  destruct (timer_run n _ _) as [next s']. destruct Hn as [_ Hsil]; [| cbn; lia | cbn; nia | apply Hsil].
  split; [done | done | done | cbn; lia | done | done | done | cbn; apply u64_id; nia
         | cbn; congruence | cbn; lia].
Qed.

(** ** Witnesses *)

(** The handshaken sample dialer, drained (heartbeat 1000, timeout 3000). *)
Definition sample_idle : mux_session := mux_send_advance sample_dial1 (mux_out_pending sample_dial1).

Lemma sample_idle_wf : session_wf sample_idle.
Proof. apply (drain_empty sample_dial1 sample_dial1_wf). Qed.

Lemma keepalive_never_fires_witness : s_dead (snd (timer_run 101 sample_idle 5000)) = false.
Proof.
  apply (keepalive_never_fires 100 sample_idle 5000 sample_idle_wf);
    vm_compute; (reflexivity || discriminate || (split; (reflexivity || discriminate))).
Defined.

(** An acceptor with heartbeat 1000 and timeout 300, its timer started at 0. *)
Definition sample_ka_cfg : mux_config := mk_config 0 0 8 1000 300 5 0 None 0 None 0 None 0.
Definition sample_ka_new : mux_session :=
  default (session_init [] sample_ka_cfg MUX_ACCEPTOR) (mux_session_new [] sample_ka_cfg MUX_ACCEPTOR).
Definition sample_ka : mux_session := snd (mux_on_timer sample_ka_new 0).

Lemma sample_ka_wf : session_wf sample_ka.
Proof.
  assert (config_ok sample_ka_cfg) as Hc.
  { split; cbn; try lia. unfold blob_arg_ok. cbn. split_and!; try lia; by left. }
  assert (reachable [] sample_ka_cfg MUX_ACCEPTOR (at_start sample_ka)) as Hr.
  { exists sample_ka_new. split; [vm_compute; reflexivity |]. unfold at_start, sample_ka.
    apply rtc_once, step_call, api_timer. }
  exact (ho_wf _ _ _ (reachable_ok _ _ _ _ Hc Hr)).
Qed.

#[global] Strategy opaque [sample_ka sample_ka_new].

Lemma keepalive_detects_witness :
  let '(next, s1) := mux_on_timer sample_ka 1000 in
  next = 1300 ∧ s_dead s1 = false ∧
  let '(_, s2) := mux_on_timer s1 next in
  s_dead s2 = true ∧ events s2 = events s1 ++ [EV_FATAL MUX_CODE_INTERNAL].
Proof.
  apply (keepalive_detects sample_ka 1000 sample_ka_wf);
    vm_compute; (reflexivity || discriminate || (split; (reflexivity || discriminate))).
Defined.
