(* ===== verification/Auth.v ===== *)
(** Tunnel authentication, common/auth.c: SHA-256 over a streaming context,
    HMAC-SHA256, the constant-time comparison and the pre-shared-key proof.

    A 32-bit word is a [Z] below [2^32] and every addition wraps.  The arrays a
    function fills from left to right ([w], the output) are lists built in that
    order.  A [sha256_ctx] lives in uninitialised stack memory and
    [sha256_init] does not clear its [buf]: the functions take the initial
    context as an argument, and the theorems hold for every content of it. *)

From stdpp Require Import base list numbers.
From Stdlib Require Import ZArith Lia.
From S2P Require Import Prelude Frame.

Definition SHA256_DIGEST_LEN : Z := 32.

Record sha256_ctx := mk_sha256_ctx {
  sc_state : list Z;
  sc_bitlen : Z;
  sc_buf : bytes;
  sc_buflen : Z;
}.

(** ** The compression function *)

Definition ror (x n : Z) : Z := Z.lor (Z.shiftr x n) (u32 (Z.shiftl x (32 - n))).

Definition K : list Z :=
  [0x428a2f98; 0x71374491; 0xb5c0fbcf; 0xe9b5dba5] ++ [0x3956c25b; 0x59f111f1; 0x923f82a4; 0xab1c5ed5] ++
  [0xd807aa98; 0x12835b01; 0x243185be; 0x550c7dc3] ++ [0x72be5d74; 0x80deb1fe; 0x9bdc06a7; 0xc19bf174] ++
  [0xe49b69c1; 0xefbe4786; 0x0fc19dc6; 0x240ca1cc] ++ [0x2de92c6f; 0x4a7484aa; 0x5cb0a9dc; 0x76f988da] ++
  [0x983e5152; 0xa831c66d; 0xb00327c8; 0xbf597fc7] ++ [0xc6e00bf3; 0xd5a79147; 0x06ca6351; 0x14292967] ++
  [0x27b70a85; 0x2e1b2138; 0x4d2c6dfc; 0x53380d13] ++ [0x650a7354; 0x766a0abb; 0x81c2c92e; 0x92722c85] ++
  [0xa2bfe8a1; 0xa81a664b; 0xc24b8b70; 0xc76c51a3] ++ [0xd192e819; 0xd6990624; 0xf40e3585; 0x106aa070] ++
  [0x19a4c116; 0x1e376c08; 0x2748774c; 0x34b0bcb5] ++ [0x391c0cb3; 0x4ed8aa4a; 0x5b9cca4f; 0x682e6ff3] ++
  [0x748f82ee; 0x78a5636f; 0x84c87814; 0x8cc70208] ++ [0x90befffa; 0xa4506ceb; 0xbef9a3f7; 0xc67178f2].

(** [w[i]] for [i < 16]: the block read as big-endian words. *)
Definition w_load (p : bytes) (i : Z) : Z :=
  u32 (Z.lor (Z.lor (Z.lor (Z.shiftl (rd p (i * 4)) 24) (Z.shiftl (rd p (i * 4 + 1)) 16))
                    (Z.shiftl (rd p (i * 4 + 2)) 8))
             (rd p (i * 4 + 3))).

(** [w[i]] for [i ≥ 16], from the words before it. *)
Definition w_expand (w : list Z) (i : Z) : Z :=
  let s0 := Z.lxor (Z.lxor (ror (rd w (i - 15)) 7) (ror (rd w (i - 15)) 18))
                   (Z.shiftr (rd w (i - 15)) 3) in
  let s1 := Z.lxor (Z.lxor (ror (rd w (i - 2)) 17) (ror (rd w (i - 2)) 19))
                   (Z.shiftr (rd w (i - 2)) 10) in
  u32 (rd w (i - 16) + s0 + rd w (i - 7) + s1).

(** The two loops that fill [w], each storing the next word. *)
Fixpoint w_fill (f : list Z -> Z -> Z) (n : nat) (w : list Z) : list Z :=
  match n with
  | O => w
  | S n => w_fill f n (w ++ [f w (zlen w)])
  end.

Definition schedule (p : bytes) : list Z :=
  w_fill w_expand 48 (w_fill (fun _ => w_load p) 16 []).

(** The working variables, in the order a, b, d2, d, e, f, g, h. *)
Definition vars : Type := Z * Z * Z * Z * Z * Z * Z * Z.

Definition not32 (x : Z) : Z := Z.lxor x (2 ^ 32 - 1).

Definition sha_round (v : vars) (k w : Z) : vars :=
  let '(a, b, d2, d, e, f, g, h) := v in
  let S1 := Z.lxor (Z.lxor (ror e 6) (ror e 11)) (ror e 25) in
  let ch := Z.lxor (Z.land e f) (Z.land (not32 e) g) in
  let t1 := u32 (h + S1 + ch + k + w) in
  let S0 := Z.lxor (Z.lxor (ror a 2) (ror a 13)) (ror a 22) in
  let maj := Z.lxor (Z.lxor (Z.land a b) (Z.land a d2)) (Z.land b d2) in
  let t2 := u32 (S0 + maj) in
  (u32 (t1 + t2), a, b, d2, u32 (d + t1), e, f, g).

Fixpoint sha_rounds (n : nat) (i : Z) (w : list Z) (v : vars) : vars :=
  match n with
  | O => v
  | S n => sha_rounds n (i + 1) w (sha_round v (rd K i) (rd w i))
  end.

Definition vars_of (st : list Z) : vars :=
  (rd st 0, rd st 1, rd st 2, rd st 3, rd st 4, rd st 5, rd st 6, rd st 7).

Definition add_vars (st : list Z) (v : vars) : list Z :=
  let '(a, b, d2, d, e, f, g, h) := v in
  [u32 (rd st 0 + a); u32 (rd st 1 + b); u32 (rd st 2 + d2); u32 (rd st 3 + d);
   u32 (rd st 4 + e); u32 (rd st 5 + f); u32 (rd st 6 + g); u32 (rd st 7 + h)].

(** The state after one block. *)
Definition compress (st : list Z) (p : bytes) : list Z :=
  add_vars st (sha_rounds 64 0 (schedule p) (vars_of st)).

Definition sha256_block (c : sha256_ctx) (p : bytes) : sha256_ctx :=
  mk_sha256_ctx (compress (sc_state c) p) (sc_bitlen c) (sc_buf c) (sc_buflen c).

(** ** The streaming interface *)

Definition sha256_iv : list Z :=
  [0x6a09e667; 0xbb67ae85; 0x3c6ef372; 0xa54ff53a;
   0x510e527f; 0x9b05688c; 0x1f83d9ab; 0x5be0cd19].

Definition sha256_init (c : sha256_ctx) : sha256_ctx :=
  mk_sha256_ctx sha256_iv 0 (sc_buf c) 0.

(** The loop of [sha256_update]; an iteration copies at least one byte while
    [buflen < 64], so the length of the data is enough fuel. *)
Fixpoint update_loop (fuel : nat) (c : sha256_ctx) (p : bytes) (len : Z) : sha256_ctx :=
  match fuel with
  | O => c
  | S fuel =>
      if len >? 0 then
        let take := 64 - sc_buflen c in
        let take := if take >? len then len else take in
        let c := mk_sha256_ctx (sc_state c) (sc_bitlen c)
                   (mem_write (sc_buf c) (sc_buflen c) (ztake take p)) (sc_buflen c + take) in
        let c := if sc_buflen c =? 64
                 then let c := sha256_block c (sc_buf c) in
                      mk_sha256_ctx (sc_state c) (sc_bitlen c) (sc_buf c) 0
                 else c in
        update_loop fuel c (zdrop take p) (len - take)
      else c
  end.

Definition sha256_update (c : sha256_ctx) (data : bytes) (len : Z) : sha256_ctx :=
  let c := mk_sha256_ctx (sc_state c) (u64 (sc_bitlen c + u64 (len * 8))) (sc_buf c) (sc_buflen c) in
  update_loop (Z.to_nat len) c data len.

(** [while (c->buflen != 56)]; [buflen] runs through 0..63, so 64 steps. *)
Fixpoint pad_loop (fuel : nat) (c : sha256_ctx) : sha256_ctx :=
  match fuel with
  | O => c
  | S fuel => if negb (sc_buflen c =? 56) then pad_loop fuel (sha256_update c [0] 1) else c
  end.

Definition be_bytes64 (v : Z) : bytes :=
  (fun i => u8 (Z.shiftr v (56 - i * 8))) <$> [0; 1; 2; 3; 4; 5; 6; 7].

Definition word_bytes (x : Z) : bytes :=
  [u8 (Z.shiftr x 24); u8 (Z.shiftr x 16); u8 (Z.shiftr x 8); u8 x].

Definition sha256_final (c : sha256_ctx) : sha256_ctx * bytes :=
  let bitlen := sc_bitlen c in
  let c := sha256_update c [0x80] 1 in
  let c := pad_loop 64 c in
  let c := sha256_update c (be_bytes64 bitlen) 8 in
  (c, concat ((fun i => word_bytes (rd (sc_state c) i)) <$> [0; 1; 2; 3; 4; 5; 6; 7])).

(** [c] is the function's own stack context. *)
Definition sha256 (c : sha256_ctx) (data : bytes) (len : Z) : bytes :=
  let c := sha256_init c in
  let c := sha256_update c data len in
  snd (sha256_final c).

(** ** HMAC and the proof *)

(** The 64-byte key block: zeroed, then the key or its digest stored at 0.
    [ck] is the stack context of the nested [sha256]. *)
Definition key_block (ck : sha256_ctx) (key : bytes) (keylen : Z) : bytes :=
  let k := replicate 64 0 in
  if keylen >? 64 then mem_write k 0 (sha256 ck key keylen)
  else if keylen >? 0 then mem_write k 0 (ztake keylen key) else k.

Definition hmac_sha256 (ck c : sha256_ctx) (key : bytes) (keylen : Z)
  (msg : bytes) (msglen : Z) : bytes :=
  let k := key_block ck key keylen in
  let ipad := (fun b => u8 (Z.lxor b 0x36)) <$> k in
  let opad := (fun b => u8 (Z.lxor b 0x5c)) <$> k in
  let c := sha256_init c in
  let c := sha256_update c ipad 64 in
  let c := sha256_update c msg msglen in
  let '(c, inner) := sha256_final c in
  let c := sha256_init c in
  let c := sha256_update c opad 64 in
  let c := sha256_update c inner SHA256_DIGEST_LEN in
  snd (sha256_final c).

(** [diff |= x[i] ^ y[i]] over the [n] bytes. *)
Fixpoint ct_loop (n : nat) (i diff : Z) (a b : bytes) : Z :=
  match n with
  | O => diff
  | S n => ct_loop n (i + 1) (Z.lor diff (u8 (Z.lxor (rd a i) (rd b i)))) a b
  end.

Definition ct_equal (a b : bytes) (n : Z) : bool := ct_loop (Z.to_nat n) 0 0 a b =? 0.

(** "mux/v1/auth" *)
Definition auth_ctx : bytes := [109; 117; 120; 47; 118; 49; 47; 97; 117; 116; 104].

(** [msg] is the uninitialised 11 + 256 byte stack buffer. *)
Definition auth_msg (msg nonce : bytes) (nonce_len : Z) : bytes * Z :=
  let msg := mem_write msg 0 auth_ctx in
  let nonce_len := if nonce_len >? 256 then 256 else nonce_len in
  let msg := if nonce_len =? 0 then msg else mem_write msg 11 (ztake nonce_len nonce) in
  (msg, 11 + nonce_len).

Definition mux_auth_proof (ck c : sha256_ctx) (msg : bytes)
  (token : bytes) (token_len : Z) (nonce : bytes) (nonce_len : Z) : bytes :=
  let '(msg, mlen) := auth_msg msg nonce nonce_len in
  hmac_sha256 ck c token token_len msg mlen.

(** What these functions find on the stack when a host calls them. *)
Record stack := mk_stack { sk_key : sha256_ctx; sk_ctx : sha256_ctx; sk_msg : bytes }.

#[global] Arguments compress : simpl never.
#[global] Arguments update_loop : simpl never.

(** ** Specification *)

(** The state after the first [n] 64-byte blocks of a message. *)
Fixpoint fold_blocks (n : nat) (st : list Z) (m : bytes) : list Z :=
  match n with
  | O => st
  | S n => fold_blocks n (compress st (ztake 64 m)) (zdrop 64 m)
  end.

(** FIPS 180-4 padding: a one bit, the fewest zeros, the bit length. *)
Definition sha_pad (m : bytes) : bytes :=
  m ++ [0x80] ++ replicate (Z.to_nat ((55 - zlen m) mod 64)) 0 ++ be_bytes64 (8 * zlen m).

Definition digest (st : list Z) : bytes :=
  concat ((fun i => word_bytes (rd st i)) <$> [0; 1; 2; 3; 4; 5; 6; 7]).

Definition SHA256 (m : bytes) : bytes :=
  digest (fold_blocks (Z.to_nat (zlen (sha_pad m) / 64)) sha256_iv (sha_pad m)).

(** RFC 2104 over it. *)
Definition hmac_key (key : bytes) : bytes :=
  let k := if zlen key >? 64 then SHA256 key else key in
  k ++ replicate (Z.to_nat (64 - zlen k)) 0.

Definition xor_pad (x : Z) (k : bytes) : bytes := (fun b => u8 (Z.lxor b x)) <$> k.

Definition HMAC (key msg : bytes) : bytes :=
  SHA256 (xor_pad 0x5c (hmac_key key) ++ SHA256 (xor_pad 0x36 (hmac_key key) ++ msg)).

(** ** The context represents the bytes absorbed so far *)

Record absorbed (c : sha256_ctx) (m : bytes) : Prop := {
  ab_buf : zlen (sc_buf c) = 64;
  ab_split : ∃ n bs, m = bs ++ ztake (sc_buflen c) (sc_buf c) ∧ zlen bs = 64 * Z.of_nat n ∧
                     sc_state c = fold_blocks n sha256_iv bs;
  ab_len : 0 ≤ sc_buflen c < 64;
}.

Lemma fold_blocks_app n st bs blk :
  zlen bs = 64 * Z.of_nat n → zlen blk = 64 →
  fold_blocks (S n) st (bs ++ blk) = compress (fold_blocks n st bs) blk.
Proof.
  revert st bs. induction n as [|n IH]; intros st bs Hb Hk.
  - destruct bs; [| rewrite zlen_cons in Hb; pose proof (zlen_nonneg bs); lia].
    simpl. by rewrite ztake_all by lia.
  - change (fold_blocks (S (S n)) st (bs ++ blk))
      with (fold_blocks (S n) (compress st (ztake 64 (bs ++ blk))) (zdrop 64 (bs ++ blk))).
    rewrite ztake_app_le, zdrop_app_le by lia. rewrite IH; [done | | done].
    rewrite zlen_zdrop by lia. lia.
Qed.

Lemma absorbed_mod c m : absorbed c m → sc_buflen c = zlen m mod 64.
Proof.
  intros [Hb (n & bs & -> & Hl & _) Hr]. rewrite zlen_app, Hl, zlen_ztake by lia.
  rewrite Z.mul_comm, Z.add_comm, Z.mod_add by lia. by rewrite Z.mod_small.
Qed.

(** A whole number of blocks has been folded completely. *)
Lemma absorbed_state c m N :
  absorbed c m → zlen m = 64 * Z.of_nat N → sc_state c = fold_blocks N sha256_iv m.
Proof.
  intros [Hb (n & bs & -> & Hl & ->) Hr] HN. rewrite zlen_app, zlen_ztake in HN by lia.
  replace (sc_buflen c) with 0 by lia. rewrite ztake_0, app_nil_r. f_equal. lia.
Qed.

Lemma update_loop_absorbs fuel c m p :
  absorbed c m → zlen p ≤ Z.of_nat fuel →
  absorbed (update_loop fuel c p (zlen p)) (m ++ p) ∧
  sc_bitlen (update_loop fuel c p (zlen p)) = sc_bitlen c.
Proof.
  revert c m p. induction fuel as [|fuel IH]; intros c m p Hab Hf; unfold update_loop; fold update_loop;
    pose proof (zlen_nonneg p).
  - destruct p; [by rewrite app_nil_r | rewrite zlen_cons in *; pose proof (zlen_nonneg p); lia].
  - rewrite Z.gtb_ltb. destruct (Z.ltb_spec 0 (zlen p)) as [Hp|Hp].
    2:{ destruct p; [by rewrite app_nil_r | rewrite zlen_cons in *; pose proof (zlen_nonneg p); lia]. }
    destruct Hab as [Hb (n & bs & -> & Hl & Hst) Hr].
    set (tk := if 64 - sc_buflen c >? zlen p then zlen p else 64 - sc_buflen c).
    assert (0 < tk ≤ zlen p ∧ tk ≤ 64 - sc_buflen c ∧ (tk < 64 - sc_buflen c → tk = zlen p)) as Ht
      by (subst tk; rewrite Z.gtb_ltb; destruct (Z.ltb_spec (zlen p) (64 - sc_buflen c)); lia).
    clearbody tk. cbv zeta. cbn [sc_buflen sc_state sc_bitlen sc_buf].
    set (buf := mem_write (sc_buf c) (sc_buflen c) (ztake tk p)).
    assert (ztake (sc_buflen c + tk) buf = ztake (sc_buflen c) (sc_buf c) ++ ztake tk p) as Eb.
    { unfold buf, mem_write. rewrite (assoc_L (++)). apply ztake_app.
      rewrite zlen_app, !zlen_ztake by lia. done. }
    assert (zlen buf = 64) as Hb' by (unfold buf; rewrite mem_write_len; rewrite ?zlen_ztake; lia).
    replace (zlen p - tk) with (zlen (zdrop tk p)) by (rewrite zlen_zdrop; lia).
    assert ((bs ++ ztake (sc_buflen c) (sc_buf c)) ++ p
            = (bs ++ ztake (sc_buflen c + tk) buf) ++ zdrop tk p) as ->
      by (rewrite Eb, <- !(assoc_L (++)), (ztake_zdrop tk p); done).
    assert (zlen (zdrop tk p) ≤ Z.of_nat fuel) as Hf' by (rewrite zlen_zdrop; lia).
    destruct (Z.eqb_spec (sc_buflen c + tk) 64) as [E|E].
    + apply (IH (mk_sha256_ctx (compress (sc_state c) buf) (sc_bitlen c) buf 0)); [| done].
      split; cbn; [done | | lia]. rewrite E. rewrite (ztake_all 64) by lia.
      exists (S n), (bs ++ buf). rewrite ztake_0, app_nil_r. split_and!; [done | |].
      * rewrite zlen_app. lia.
      * by rewrite fold_blocks_app, Hst.
    + apply (IH (mk_sha256_ctx (sc_state c) (sc_bitlen c) buf (sc_buflen c + tk))); [| done].
      split; cbn; [done | | lia]. by exists n, bs.
Qed.

(** [sha256_update] absorbs its data, whatever the cut into calls, and counts
    the bits modulo [2^64]. *)
Lemma update_absorbs c m p :
  absorbed c m → sc_bitlen c = u64 (8 * zlen m) →
  absorbed (sha256_update c p (zlen p)) (m ++ p) ∧
  sc_bitlen (sha256_update c p (zlen p)) = u64 (8 * zlen (m ++ p)).
Proof.
  intros Hab Hbl. unfold sha256_update. set (c' := mk_sha256_ctx _ _ _ _).
  assert (absorbed c' m) as Hab' by (destruct Hab; by split).
  destruct (update_loop_absorbs (Z.to_nat (zlen p)) c' m p Hab') as [? ->];
    [pose proof (zlen_nonneg p); lia |]. split; [done |]. cbn.
  rewrite Hbl, zlen_app. unfold u64. rewrite <- Z.add_mod by lia. f_equal. lia.
Qed.

Lemma init_absorbs c :
  zlen (sc_buf c) = 64 →
  absorbed (sha256_init c) [] ∧ sc_bitlen (sha256_init c) = u64 (8 * zlen ([] : bytes)).
Proof.
  intros. split; [| done]. split; cbn; [done | | lia]. by exists 0%nat, [].
Qed.

(** The padding loop stops at 56, after the fewest zero bytes. *)
Lemma pad_loop_absorbs k fuel c m :
  absorbed c m → sc_bitlen c = u64 (8 * zlen m) →
  (zlen m + Z.of_nat k) mod 64 = 56 → (k < 64)%nat → (k ≤ fuel)%nat →
  absorbed (pad_loop fuel c) (m ++ replicate k 0).
Proof.
  revert fuel c m. induction k as [|k IH]; intros fuel c m Hab Hbl Hm Hk Hf.
  - rewrite app_nil_r. destruct fuel; [done |]. simpl.
    rewrite (absorbed_mod c m Hab). rewrite Z.add_0_r in Hm. by rewrite Hm.
  - destruct fuel as [|fuel]; [lia |]. simpl. rewrite (absorbed_mod c m Hab).
    destruct (Z.eqb_spec (zlen m mod 64) 56) as [E|E].
    { exfalso. pose proof (Z.div_mod (zlen m) 64). pose proof (Z.div_mod (zlen m + Z.of_nat (S k)) 64). lia. }
    destruct (update_absorbs c m [0] Hab Hbl) as [Hab' Hbl']. cbn [negb].
    change (zlen [0]) with 1 in *. rewrite (cons_middle 0 m). change (0 :: replicate k 0) with ([0] ++ replicate k 0).
    rewrite (assoc_L (++)). apply IH; try done; try lia.
    rewrite <- Hm. f_equal. rewrite zlen_app. change (zlen [0]) with 1. lia.
Qed.

Lemma be_bytes64_len v : zlen (be_bytes64 v) = 8.
Proof. done. Qed.

Lemma sha_pad_len m : ∃ N, zlen (sha_pad m) = 64 * Z.of_nat N.
Proof.
  unfold sha_pad. rewrite !zlen_app, be_bytes64_len. unfold zlen at 2 3. rewrite length_replicate.
  change (length [128]) with 1%nat.
  pose proof (Z.mod_pos_bound (55 - zlen m) 64). pose proof (Z.div_mod (55 - zlen m) 64).
  pose proof (zlen_nonneg m). rewrite Z2Nat.id by lia.
  exists (Z.to_nat (- ((55 - zlen m) / 64) + 1)). lia.
Qed.

(** [sha256_final] computes the digest of the padded message. *)
Lemma final_spec c m :
  absorbed c m → sc_bitlen c = u64 (8 * zlen m) → zlen m < 2 ^ 61 →
  (sha256_final c).2 = SHA256 m ∧ zlen (sc_buf (sha256_final c).1) = 64.
Proof.
  intros Hab Hbl Hm. unfold sha256_final. cbv zeta. cbn [fst snd].
  set (k := Z.to_nat ((55 - zlen m) mod 64)).
  pose proof (Z.mod_pos_bound (55 - zlen m) 64). pose proof (zlen_nonneg m).
  destruct (update_absorbs c m [128] Hab Hbl) as [Hab1 Hbl1]. change (zlen [128]) with 1 in *.
  assert (absorbed (pad_loop 64 (sha256_update c [128] 1)) ((m ++ [128]) ++ replicate k 0)) as Hab2.
  { apply pad_loop_absorbs; try done; [| subst k; lia | subst k; lia].
    rewrite zlen_app. change (zlen [128]) with 1. subst k.
    pose proof (Z.div_mod (55 - zlen m) 64). rewrite Z2Nat.id by lia.
    replace (zlen m + 1 + (55 - zlen m) mod 64) with (56 + - ((55 - zlen m) / 64) * 64) by lia.
    by rewrite Z_mod_plus_full. }
  set (c2 := pad_loop 64 _) in *. rewrite Hbl, u64_id by lia.
  assert (absorbed (sha256_update c2 (be_bytes64 (8 * zlen m)) 8) (sha_pad m)) as [Hb Hs Hr].
  { unfold sha_pad. fold k. rewrite !(assoc_L (++)). unfold sha256_update.
    set (c3 := mk_sha256_ctx _ _ _ _). assert (absorbed c3 ((m ++ [128]) ++ replicate k 0)) by (by destruct Hab2).
    change 8 with (zlen (be_bytes64 (8 * zlen m))) at 3.
    apply update_loop_absorbs; [done |]. rewrite be_bytes64_len. lia. }
  split; [| done]. unfold SHA256, digest. destruct (sha_pad_len m) as [N HN].
  rewrite (absorbed_state _ (sha_pad m) N (Build_absorbed _ _ Hb Hs Hr) HN).
  replace (Z.to_nat (zlen (sha_pad m) / 64)) with N; [done |].
  rewrite HN, Z.mul_comm, Z.div_mul by lia. lia.
Qed.

Lemma word_bytes_len x : zlen (word_bytes x) = 4.
Proof. done. Qed.

Lemma digest_len st : zlen (digest st) = 32.
Proof. unfold digest. simpl. done. Qed.

Lemma digest_ok st : bytes_ok (digest st).
Proof.
  apply Forall_concat, Forall_fmap, Forall_true. intros i.
  unfold word_bytes. cbn. repeat constructor; apply u8_range.
Qed.

(** ** Streaming *)

(** The calls of [sha256_update] on successive chunks. *)
Definition update_all (c : sha256_ctx) (chunks : list bytes) : sha256_ctx :=
  foldl (fun c p => sha256_update c p (zlen p)) c chunks.

Lemma update_all_absorbs c m chunks :
  absorbed c m → sc_bitlen c = u64 (8 * zlen m) →
  absorbed (update_all c chunks) (m ++ concat chunks) ∧
  sc_bitlen (update_all c chunks) = u64 (8 * zlen (m ++ concat chunks)).
Proof.
  revert c m. induction chunks as [|p chunks IH]; intros c m Hab Hbl; simpl.
  - by rewrite app_nil_r.
  - destruct (update_absorbs c m p Hab Hbl). rewrite (assoc_L (++)). by apply IH.
Qed.

Lemma hash_chunks c chunks :
  zlen (sc_buf c) = 64 → zlen (concat chunks) < 2 ^ 61 →
  (sha256_final (update_all (sha256_init c) chunks)).2 = SHA256 (concat chunks) ∧
  zlen (sc_buf (sha256_final (update_all (sha256_init c) chunks)).1) = 64.
Proof.
  intros Hb Hl. destruct (init_absorbs c Hb) as [H1 H2].
  destruct (update_all_absorbs _ _ chunks H1 H2) as [? ?]. by apply final_spec.
Qed.

Lemma sha256_spec c m : zlen (sc_buf c) = 64 → zlen m < 2 ^ 61 → sha256 c m (zlen m) = SHA256 m.
Proof.
  intros Hb Hl. destruct (hash_chunks c [m] Hb) as [E _]; [by rewrite concat_cons, app_nil_r |].
  rewrite concat_cons, app_nil_r in E. exact E.
Qed.

(** C40: however a message of less than [2^61] bytes is cut into
    [sha256_update] calls, and whatever the context's memory held before
    [sha256_init], [sha256_final] stops and returns the FIPS 180-4 digest: the
    compression function folded over the 64-byte blocks of the message with
    the standard padding.  The digest has 32 bytes. *)
Theorem sha256_streaming c chunks :
  zlen (sc_buf c) = 64 → zlen (concat chunks) < 2 ^ 61 →
  let d := (sha256_final (update_all (sha256_init c) chunks)).2 in
  d = SHA256 (concat chunks) ∧ zlen d = SHA256_DIGEST_LEN ∧ bytes_ok d.
Proof.
  intros Hb Hl d. subst d. destruct (hash_chunks c chunks Hb Hl) as [-> _].
  split_and!; [done | apply digest_len | apply digest_ok].
Qed.

Definition sample_ctx : sha256_ctx := mk_sha256_ctx [] 77 (replicate 64 99) 3.

Definition abc_digest : bytes :=
  [0xba; 0x78; 0x16; 0xbf; 0x8f; 0x01; 0xcf; 0xea; 0x41; 0x41; 0x40; 0xde; 0x5d; 0xae; 0x22; 0x23;
   0xb0; 0x03; 0x61; 0xa3; 0x96; 0x17; 0x7a; 0x9c; 0xb4; 0x10; 0xff; 0x61; 0xf2; 0x00; 0x15; 0xad].

(** The standard's "abc", in two calls. *)
Lemma sha256_streaming_witness :
  (sha256_final (update_all (sha256_init sample_ctx) [[97]; [98; 99]])).2 = abc_digest ∧
  zlen abc_digest = SHA256_DIGEST_LEN.
Proof.
  destruct (sha256_streaming sample_ctx [[97]; [98; 99]]) as (E & L & _); [done | done |].
  split; [| done]. transitivity (SHA256 (concat [[97]; [98; 99]])); [exact E | vm_compute; reflexivity].
Defined.

(** ** The compression function against the standard's equations *)

(** Rotation of a 32-bit word, by arithmetic. *)
Definition ROTR (n x : Z) : Z := x / 2 ^ n + x mod 2 ^ n * 2 ^ (32 - n).
Definition SHR (n x : Z) : Z := x / 2 ^ n.
Definition xor3 (x y z : Z) : Z := Z.lxor (Z.lxor x y) z.

Definition sigma0 x := xor3 (ROTR 7 x) (ROTR 18 x) (SHR 3 x).
Definition sigma1 x := xor3 (ROTR 17 x) (ROTR 19 x) (SHR 10 x).
Definition Sigma0 x := xor3 (ROTR 2 x) (ROTR 13 x) (ROTR 22 x).
Definition Sigma1 x := xor3 (ROTR 6 x) (ROTR 11 x) (ROTR 25 x).
Definition Ch x y z := Z.lxor (Z.land x y) (Z.land (2 ^ 32 - 1 - x) z).
Definition Maj x y z := xor3 (Z.land x y) (Z.land x z) (Z.land y z).

Definition is_word (x : Z) : Prop := 0 ≤ x < 2 ^ 32.

Lemma ror_ROTR x n : is_word x → 0 < n < 32 → ror x n = ROTR n x.
Proof.
  intros [? ?] Hn. unfold ror, ROTR.
  assert (2 ^ 32 = 2 ^ (32 - n) * 2 ^ n) as E by (rewrite <- Z.pow_add_r by lia; f_equal; lia).
  rewrite Z.shiftr_div_pow2, Z.shiftl_mul_pow2 by lia. unfold u32. rewrite E.
  rewrite (Z.mul_comm x), Z.mul_mod_distr_l by lia.
  rewrite Z.lor_comm, (lor_add _ _ (32 - n)); [lia | lia | | by exists (x mod 2 ^ n); lia].
  split; [apply Z.div_pos; lia |]. apply Z.div_lt_upper_bound; lia.
Qed.

Lemma not32_sub x : is_word x → not32 x = 2 ^ 32 - 1 - x.
Proof.
  intros Hx. unfold not32. enough (Z.lxor x (2 ^ 32 - 1) + x = 2 ^ 32 - 1) by lia.
  rewrite Z.add_nocarry_lxor.
  - by rewrite Z.lxor_comm, <- Z.lxor_assoc, Z.lxor_nilpotent, Z.lxor_0_l.
  - apply Z.bits_inj'. intros i Hi. rewrite Z.land_spec, Z.lxor_spec, Z.bits_0.
    change (2 ^ 32 - 1) with (Z.ones 32). destruct (Z.lt_ge_cases i 32).
    + rewrite Z.ones_spec_low by lia. by destruct (Z.testbit x i).
    + rewrite <- (Z.mod_small x (2 ^ 32)), Z.mod_pow2_bits_high by (done || lia).
      by rewrite andb_false_r.
Qed.

Lemma w_fill_S f n w : w_fill f (S n) w = w_fill f n (w ++ [f w (zlen w)]).
Proof. done. Qed.

(** A filled array keeps its prefix, and each stored word is computed from the
    words before it. *)
Lemma w_fill_spec f n w :
  let w' := w_fill f n w in
  zlen w' = zlen w + Z.of_nat n ∧ (∃ k, w' = w ++ k) ∧
  (∀ t, zlen w ≤ t < zlen w' → rd w' t = f (ztake t w') t).
Proof.
  revert w. induction n as [|n IH]; intros w w'; subst w'.
  - simpl. split_and!; [lia | exists []; by rewrite app_nil_r | lia].
  - rewrite w_fill_S. set (x := f w (zlen w)).
    destruct (IH (w ++ [x])) as (HL & [k Hk] & HR). rewrite zlen_app in HL, HR. change (zlen [x]) with 1 in *.
    split_and!; [lia | exists ([x] ++ k); by rewrite (assoc_L (++)) |].
    intros t Ht. destruct (decide (t = zlen w)) as [->|]; [| apply HR; lia].
    rewrite Hk, <- (assoc_L (++)), ztake_app by done. unfold rd. rewrite lookup_app_r by (unfold zlen; lia).
    unfold zlen. rewrite Nat2Z.id, Nat.sub_diag. done.
Qed.

Lemma rd_ztake (w : list Z) t i : 0 ≤ i < t → rd (ztake t w) i = rd w i.
Proof. intros. unfold rd, ztake. by rewrite lookup_take_lt by lia. Qed.

Lemma schedule_spec p :
  zlen (schedule p) = 64 ∧
  (∀ t, 0 ≤ t < 16 → rd (schedule p) t = w_load p t) ∧
  (∀ t, 16 ≤ t < 64 → rd (schedule p) t = w_expand (schedule p) t).
Proof.
  unfold schedule. set (w0 := w_fill _ 16 []).
  destruct (w_fill_spec (fun _ => w_load p) 16 []) as (L0 & _ & R0). fold w0 in L0, R0.
  destruct (w_fill_spec w_expand 48 w0) as (L & [k E] & R). set (w := w_fill w_expand 48 w0) in *.
  rewrite zlen_nil in *. split_and!; [lia | |].
  - intros t Ht. rewrite E, rd_app by lia. apply R0. lia.
  - intros t Ht. rewrite R by lia. unfold w_expand. rewrite !rd_ztake by lia. done.
Qed.

Lemma rd_word (w : list Z) t : Forall is_word w → is_word (rd w t).
Proof.
  intros H. unfold rd. destruct (w !! Z.to_nat t) eqn:E; [| by split].
  exact (Forall_lookup_1 _ _ _ _ H E).
Qed.

Lemma schedule_words p : Forall is_word (schedule p).
Proof.
  apply Forall_lookup_2. intros i x Hi. destruct (schedule_spec p) as (L & R0 & R).
  pose proof (lookup_lt_Some _ _ _ Hi). unfold zlen in L.
  assert (rd (schedule p) (Z.of_nat i) = x) as <- by (unfold rd; by rewrite Nat2Z.id, Hi).
  destruct (Z.lt_ge_cases (Z.of_nat i) 16); [rewrite R0 by lia | rewrite R by lia]; apply u32_range.
Qed.

(** [sha256_block] implements the standard's equations.  The 64 schedule
    words are the block's big-endian words followed by
    [W_t = sigma1(W_{t-2}) + W_{t-7} + sigma0(W_{t-15}) + W_{t-16}], one round
    is [T1]/[T2] with the standard's functions, rotations by shifts and ors
    being true 32-bit rotations, and all words stay below [2^32]. *)
Theorem sha256_block_fips p a b c d e f g h k w :
  bytes_ok p → zlen p = 64 → is_word a → is_word e →
  let W := schedule p in
  zlen W = 64 ∧ Forall is_word W ∧
  (∀ t, 0 ≤ t < 16 → rd W t = rd p (4*t) * 2^24 + rd p (4*t+1) * 2^16 + rd p (4*t+2) * 2^8 + rd p (4*t+3)) ∧
  (∀ t, 16 ≤ t < 64 →
     rd W t = (sigma1 (rd W (t-2)) + rd W (t-7) + sigma0 (rd W (t-15)) + rd W (t-16)) mod 2^32) ∧
  let T1 := h + Sigma1 e + Ch e f g + k + w in
  let T2 := Sigma0 a + Maj a b c in
  sha_round (a, b, c, d, e, f, g, h) k w =
  ((T1 + T2) mod 2^32, a, b, c, (d + T1) mod 2^32, e, f, g).
Proof.
  intros Hp Hl Ha He W. subst W. destruct (schedule_spec p) as (L & R0 & R).
  pose proof (schedule_words p) as Hw. split_and!; [done | done | | |].
  - intros t Ht. rewrite R0 by done. unfold w_load. rewrite !(Z.mul_comm t).
    assert (∀ i, 0 ≤ i < 64 → is_byte (rd p i)) as B.
    { intros i Hi. unfold rd. destruct (p !! Z.to_nat i) eqn:E; [| by split].
      exact (Forall_lookup_1 _ _ _ _ Hp E). }
    apply be32_arith; apply B; lia.
  - intros t Ht. rewrite R by done. unfold w_expand, sigma1, sigma0, xor3, SHR, u32.
    rewrite !ror_ROTR by (lia || by apply rd_word). rewrite !Z.shiftr_div_pow2 by lia.
    f_equal. lia.
  - unfold sha_round, Sigma1, Sigma0, Ch, Maj, xor3. rewrite !ror_ROTR by (assumption || lia).
    rewrite not32_sub by assumption. unfold u32. cbv zeta.
    rewrite <- Z.add_mod by lia. rewrite Zplus_mod_idemp_r. done.
Qed.

Lemma sha256_block_fips_witness :
  rd (schedule (replicate 64 1)) 63 =
  (sigma1 (rd (schedule (replicate 64 1)) 61) + rd (schedule (replicate 64 1)) 56 +
   sigma0 (rd (schedule (replicate 64 1)) 48) + rd (schedule (replicate 64 1)) 47) mod 2^32.
Proof.
  apply (sha256_block_fips (replicate 64 1) 1 2 3 4 5 6 7 8 9 10); try done.
  by apply (bool_decide_unpack (bytes_ok (replicate 64 1))).
Defined.

(** ** HMAC *)

Lemma zlen_replicate (n : nat) (x : Z) : zlen (replicate n x) = Z.of_nat n.
Proof. unfold zlen. by rewrite length_replicate. Qed.

Lemma mem_write_zeros k : zlen k ≤ 64 → mem_write (replicate 64 0) 0 k = k ++ replicate (Z.to_nat (64 - zlen k)) 0.
Proof.
  intros. rewrite mem_write_0. f_equal. unfold zdrop. rewrite drop_replicate. f_equal.
  pose proof (zlen_nonneg k). lia.
Qed.

Lemma SHA256_len m : zlen (SHA256 m) = 32.
Proof. apply digest_len. Qed.

Lemma SHA256_ok m : bytes_ok (SHA256 m).
Proof. apply digest_ok. Qed.

#[global] Opaque SHA256.

Lemma key_block_spec ck key :
  zlen (sc_buf ck) = 64 → zlen key < 2 ^ 61 → key_block ck key (zlen key) = hmac_key key.
Proof.
  intros Hb Hl. unfold key_block, hmac_key. rewrite !Z.gtb_ltb. cbv zeta.
  destruct (Z.ltb_spec 64 (zlen key)).
  - rewrite sha256_spec by done. apply mem_write_zeros. rewrite SHA256_len. lia.
  - destruct (Z.ltb_spec 0 (zlen key)).
    + rewrite ztake_all by lia. by apply mem_write_zeros.
    + destruct key; [done | rewrite zlen_cons in *; pose proof (zlen_nonneg key); lia].
Qed.

Lemma hmac_key_len key : zlen (hmac_key key) = 64.
Proof.
  unfold hmac_key. cbv zeta. set (k := if zlen key >? 64 then _ else _).
  assert (zlen k ≤ 64) by (subst k; rewrite Z.gtb_ltb; destruct (Z.ltb_spec 64 (zlen key)); rewrite ?SHA256_len; lia).
  rewrite zlen_app, zlen_replicate. pose proof (zlen_nonneg k). lia.
Qed.

Lemma xor_pad_len x k : zlen (xor_pad x k) = zlen k.
Proof. unfold xor_pad, zlen. by rewrite length_fmap. Qed.

Lemma hmac_spec ck c key msg :
  zlen (sc_buf ck) = 64 → zlen (sc_buf c) = 64 → zlen key < 2 ^ 61 → zlen msg < 2 ^ 61 - 64 →
  hmac_sha256 ck c key (zlen key) msg (zlen msg) = HMAC key msg.
Proof.
  intros Hck Hc Hk Hm. unfold hmac_sha256, HMAC. rewrite key_block_spec by done. cbv zeta.
  fold (xor_pad 0x36 (hmac_key key)). fold (xor_pad 0x5c (hmac_key key)).
  set (ip := xor_pad 0x36 _). set (op := xor_pad 0x5c _).
  assert (zlen ip = 64) as Hip by (subst ip; by rewrite xor_pad_len, hmac_key_len).
  assert (zlen op = 64) as Hop by (subst op; by rewrite xor_pad_len, hmac_key_len).
  destruct (hash_chunks c [ip; msg] Hc) as [E1 B1].
  { rewrite !concat_cons, app_nil_r, zlen_app. lia. }
  unfold update_all in E1, B1. cbn [foldl] in E1, B1. rewrite Hip in E1, B1.
  destruct (sha256_final (sha256_update (sha256_update (sha256_init c) ip 64) msg (zlen msg)))
    as [c1 inner]. cbn [fst snd] in E1, B1. subst inner.
  rewrite !concat_cons, app_nil_r.
  destruct (hash_chunks c1 [op; SHA256 (ip ++ msg)] B1) as [E2 _].
  { rewrite !concat_cons, app_nil_r, zlen_app, SHA256_len. lia. }
  unfold update_all in E2. cbn [foldl] in E2. rewrite Hop, SHA256_len in E2.
  rewrite !concat_cons, app_nil_r in E2. exact E2.
Qed.

(** [hmac_sha256] computes RFC 2104's HMAC over SHA-256 for every key and
    message length, hashing keys longer than a block first, independently of
    what its stack contexts held. *)
Theorem hmac_rfc2104 ck c key msg :
  zlen (sc_buf ck) = 64 → zlen (sc_buf c) = 64 → zlen key < 2 ^ 61 → zlen msg < 2 ^ 61 - 64 →
  hmac_sha256 ck c key (zlen key) msg (zlen msg) = HMAC key msg ∧ zlen (HMAC key msg) = 32.
Proof. intros. split; [by apply hmac_spec | apply SHA256_len]. Qed.

(** RFC 4231, test case 2. *)
Definition jefe : bytes := [74; 101; 102; 101].
Definition jefe_msg : bytes :=
  [119; 104; 97; 116; 32; 100; 111; 32; 121; 97; 32; 119; 97; 110; 116; 32;
   102; 111; 114; 32; 110; 111; 116; 104; 105; 110; 103; 63].
Definition jefe_mac : bytes :=
  [0x5b; 0xdc; 0xc1; 0x46; 0xbf; 0x60; 0x75; 0x4e; 0x6a; 0x04; 0x24; 0x26; 0x08; 0x95; 0x75; 0xc7;
   0x5a; 0x00; 0x3f; 0x08; 0x9d; 0x27; 0x39; 0x83; 0x9d; 0xec; 0x58; 0xb9; 0x64; 0xec; 0x38; 0x43].

Lemma hmac_rfc2104_witness : HMAC jefe jefe_msg = jefe_mac ∧ zlen jefe_mac = 32.
Proof.
  destruct (hmac_rfc2104 sample_ctx sample_ctx jefe jefe_msg) as [E _];
    [reflexivity | reflexivity | reflexivity | reflexivity |].
  split; [| reflexivity]. rewrite <- E. vm_compute. reflexivity.
Defined.

(** ** Comparison and proof *)

Lemma lor_zero a b : Z.lor a b = 0 ↔ a = 0 ∧ b = 0.
Proof. apply Z.lor_eq_0_iff. Qed.

Lemma byte_diff x y : is_byte x → is_byte y → u8 (Z.lxor x y) = 0 ↔ x = y.
Proof.
  intros Hx Hy. assert (is_byte (Z.lxor x y)) as [? ?].
  { unfold is_byte in *. split; [apply Z.lxor_nonneg; lia |].
    destruct (decide (Z.lxor x y = 0)) as [->|]; [done |].
    assert (0 < Z.lxor x y) by (pose proof (proj2 (Z.lxor_nonneg x y)); lia).
    change 256 with (2 ^ 8). apply Z.log2_lt_pow2; [done |].
    apply Z.le_lt_trans with (Z.max (Z.log2 x) (Z.log2 y)); [apply Z.log2_lxor; lia |].
    assert (∀ z, 0 ≤ z < 256 → Z.log2 z < 8) as B.
    { intros z Hz. destruct (decide (z = 0)) as [->|]; [done |]. apply Z.log2_lt_pow2; lia. }
    apply Z.max_lub_lt; apply B; lia. }
  unfold u8. rewrite Z.mod_small by (change (2 ^ 8) with 256; lia). split; [apply Z.lxor_eq | intros ->; apply Z.lxor_nilpotent].
Qed.

Lemma rd_byte p i : bytes_ok p → is_byte (rd p i).
Proof.
  intros H. unfold rd. destruct (p !! Z.to_nat i) eqn:E; [| by split]. exact (Forall_lookup_1 _ _ _ _ H E).
Qed.

Lemma ct_loop_zero n i diff a b :
  bytes_ok a → bytes_ok b →
  ct_loop n i diff a b = 0 ↔ diff = 0 ∧ ∀ j, i ≤ j < i + Z.of_nat n → rd a j = rd b j.
Proof.
  intros Ha Hb. revert i diff. induction n as [|n IH]; intros i diff; cbn [ct_loop].
  - split; [intros ->; split; [done | lia] | by intros []].
  - rewrite IH, lor_zero, byte_diff by (by apply rd_byte). split.
    + intros ((Hd & E) & R). split; [done |]. intros j Hj.
      destruct (decide (j = i)) as [->|]; [done | apply R; lia].
    + intros (Hd & R). split_and!; [done | apply R; lia | intros j Hj; apply R; lia].
Qed.

Lemma rd_ext (a b : bytes) :
  zlen a = zlen b → (∀ j, 0 ≤ j < zlen a → rd a j = rd b j) → a = b.
Proof.
  intros L H. apply list_eq_same_length with (length a); [unfold zlen in L; lia | done |].
  intros i x y Hi Ha Hb. specialize (H (Z.of_nat i)). unfold rd in H. rewrite Nat2Z.id, Ha, Hb in H.
  apply H. unfold zlen. lia.
Qed.

(** The constant-time comparison decides equality of the first [n] bytes. *)
Lemma ct_equal_spec a b n :
  bytes_ok a → bytes_ok b → 0 ≤ n → n ≤ zlen a → n ≤ zlen b →
  ct_equal a b n = true ↔ ztake n a = ztake n b.
Proof.
  intros Ha Hb Hn La Lb. unfold ct_equal. rewrite Z.eqb_eq, ct_loop_zero by done.
  rewrite Z.add_0_l, Z2Nat.id by done. split.
  - intros [_ R]. apply rd_ext; rewrite !zlen_ztake by lia; [done |]. intros j Hj.
    rewrite !rd_ztake by lia. by apply R.
  - intros E. split; [done |]. intros j Hj. by rewrite <- (rd_ztake a n), <- (rd_ztake b n), E by lia.
Qed.

(** [sha256_update] reads only the first [len] bytes. *)
Lemma update_loop_take fuel c p len :
  0 ≤ len → sc_buflen c < 64 → update_loop fuel c p len = update_loop fuel c (ztake len p) len.
Proof.
  revert c p len. induction fuel as [|fuel IH]; intros c p len Hl Hb; [done |].
  unfold update_loop; fold update_loop. rewrite !(Z.gtb_ltb len). destruct (Z.ltb_spec 0 len); [| done].
  set (tk := if 64 - sc_buflen c >? len then len else 64 - sc_buflen c).
  assert (0 < tk ≤ len ∧ tk ≤ 64 - sc_buflen c) as Ht
    by (subst tk; rewrite Z.gtb_ltb; destruct (Z.ltb_spec len (64 - sc_buflen c)); lia).
  clearbody tk. cbv zeta. rewrite ztake_ztake by lia.
  replace (zdrop tk (ztake len p)) with (ztake (len - tk) (zdrop tk p))
    by (rewrite ztake_zdrop_comm by lia; do 2 f_equal; lia).
  apply IH; [lia |]. cbn [sc_buflen]. destruct (Z.eqb_spec (sc_buflen c + tk) 64); cbn; lia.
Qed.

Lemma hmac_take ck c key keylen msg len :
  0 ≤ len → zlen (sc_buf c) = 64 → zlen (key_block ck key keylen) = 64 →
  hmac_sha256 ck c key keylen msg len = hmac_sha256 ck c key keylen (ztake len msg) len.
Proof.
  intros Hl Hb Hk. unfold hmac_sha256. cbv zeta.
  fold (xor_pad 0x36 (key_block ck key keylen)). set (ip := xor_pad 0x36 _).
  assert (zlen ip = 64) as Hip by (subst ip; by rewrite xor_pad_len).
  destruct (init_absorbs c Hb) as [H1 H2]. destruct (update_absorbs _ [] ip H1 H2) as [[_ _ Hr] _].
  rewrite Hip in Hr. set (c1 := sha256_update (sha256_init c) ip 64) in *.
  assert (sha256_update c1 msg len = sha256_update c1 (ztake len msg) len) as ->; [| done].
  unfold sha256_update. apply update_loop_take; [done |]. cbn. lia.
Qed.

Lemma auth_msg_spec msg nonce :
  zlen msg = 267 → let '(m, mlen) := auth_msg msg nonce (zlen nonce) in
  ztake mlen m = auth_ctx ++ ztake 256 nonce ∧ mlen = zlen (auth_ctx ++ ztake 256 nonce).
Proof.
  intros Hm. unfold auth_msg. cbv zeta. rewrite Z.gtb_ltb. pose proof (zlen_nonneg nonce).
  set (n := if 256 <? zlen nonce then 256 else zlen nonce).
  assert (0 ≤ n ≤ zlen nonce ∧ n ≤ 256 ∧ ztake n nonce = ztake 256 nonce) as (Hn & Hn' & E).
  { subst n. destruct (Z.ltb_spec 256 (zlen nonce)); [| rewrite !ztake_all by lia];
      (split_and!; [lia | lia | lia | done]). }
  clearbody n. assert (zlen auth_ctx = 11) as La by done.
  rewrite <- E, zlen_app, La, zlen_ztake by lia. split; [| done].
  destruct (Z.eqb_spec n 0) as [->|].
  - by rewrite ztake_0, app_nil_r, mem_write_0, ztake_app.
  - rewrite mem_write_merge by (rewrite ?La; lia). rewrite mem_write_0. apply ztake_app.
    by rewrite zlen_app, La, zlen_ztake by lia.
Qed.

Lemma auth_proof_spec ck c msg token nonce :
  zlen (sc_buf ck) = 64 → zlen (sc_buf c) = 64 → zlen msg = 267 → zlen token < 2 ^ 61 →
  mux_auth_proof ck c msg token (zlen token) nonce (zlen nonce) = HMAC token (auth_ctx ++ ztake 256 nonce).
Proof.
  intros Hck Hc Hm Ht. unfold mux_auth_proof. pose proof (auth_msg_spec msg nonce Hm) as E.
  destruct (auth_msg msg nonce (zlen nonce)) as [m mlen]. destruct E as [E L].
  rewrite hmac_take, E, L; [| rewrite L; apply zlen_nonneg | done | by rewrite key_block_spec, hmac_key_len].
  apply hmac_spec; try done. rewrite zlen_app. change (zlen auth_ctx) with 11.
  assert (zlen (ztake 256 nonce) ≤ 256) by (unfold zlen, ztake; rewrite length_take; lia). lia.
Qed.

(** The tunnel proof is HMAC-SHA256 under the token of the context string
    followed by the nonce, of which only the first 256 bytes count; stale
    stack memory never leaks into it.  In particular two nonces with the same
    first 256 bytes have the same proof. *)
Theorem auth_proof_hmac ck c msg token nonce :
  zlen (sc_buf ck) = 64 → zlen (sc_buf c) = 64 → zlen msg = 267 → zlen token < 2 ^ 61 →
  mux_auth_proof ck c msg token (zlen token) nonce (zlen nonce)
    = HMAC token (auth_ctx ++ ztake 256 nonce) ∧
  (∀ tail ck' c' msg', zlen (sc_buf ck') = 64 → zlen (sc_buf c') = 64 → zlen msg' = 267 →
     256 ≤ zlen nonce →
     mux_auth_proof ck' c' msg' token (zlen token) (nonce ++ tail) (zlen (nonce ++ tail))
       = mux_auth_proof ck c msg token (zlen token) nonce (zlen nonce)).
Proof.
  intros. split; [by apply auth_proof_spec |]. intros tail ck' c' msg' ? ? ? ?.
  by rewrite !auth_proof_spec, ztake_app_le.
Qed.

Definition sample_token : bytes := [115; 101; 99; 114; 101; 116].

Lemma auth_proof_hmac_witness :
  mux_auth_proof sample_ctx sample_ctx (replicate 267 0) sample_token (zlen sample_token)
    [222; 173; 190; 239] (zlen [222; 173; 190; 239])
  = HMAC sample_token (auth_ctx ++ ztake 256 [222; 173; 190; 239]).
Proof.
  exact (proj1 (auth_proof_hmac sample_ctx sample_ctx (replicate 267 0) sample_token [222; 173; 190; 239]
           eq_refl eq_refl eq_refl eq_refl)).
Defined.
