(* ===== verification/Host.v ===== *)
(** What the models of the host programs (edge-peer, libpeer, relay) share: a
    state monad with failure, and sockets as scripts.

    [ST S] is the monad of operations on a host's state: [None] is a C run
    without a defined outcome (a freed object, an index out of range, a map
    operation without result, a loop that exhausts its fuel), so that a theorem
    which yields [Some] excludes them all. *)

From stdpp Require Import base list numbers.
From Stdlib Require Import ZArith Lia.
From S2P Require Import Prelude.

Definition ST (S A : Type) : Type := S -> option (A * S).

#[export] Instance ST_ret S : MRet (ST S) := fun A a s => Some (a, s).
#[export] Instance ST_bind S : MBind (ST S) := fun A B f m s =>
  match m s with None => None | Some (a, s) => f a s end.

Definition undef {S A} : ST S A := fun _ => None.
Definition gets {S A} (f : S -> A) : ST S A := fun s => Some (f s, s).
Definition modify {S} (f : S -> S) : ST S unit := fun s => Some (tt, f s).

(** [if (b) m] *)
Definition when_ {S} (b : bool) (m : ST S unit) : ST S unit := if b then m else mret tt.

(** A socket is the script of what the coming calls on it return. *)
Inductive write_res := WROTE (n : Z) | WRITE_AGAIN | WRITE_ERROR.
Inductive read_res := READ (bs : bytes) | READ_EOF | READ_AGAIN | READ_ERROR.

(** The bytes a read script delivers. *)
Definition script_bytes (rs : list read_res) : Z :=
  foldr (fun r n => match r with READ bs => zlen bs + n | _ => n end) 0 rs.

Lemma script_bytes_nonneg rs : 0 ≤ script_bytes rs.
Proof.
  unfold script_bytes. induction rs as [|[bs| | |] rs IH]; cbn [foldr]; try lia. pose proof (zlen_nonneg bs). lia.
Qed.

(** A read takes [n] bytes off the script, the rest comes with the next one. *)
Lemma script_bytes_read n bs rs :
  0 ≤ n ≤ zlen bs →
  script_bytes (if n <? zlen bs then READ (zdrop n bs) :: rs else rs) + n = script_bytes (READ bs :: rs).
Proof.
  intros Hn. unfold script_bytes. destruct (Z.ltb_spec n (zlen bs)); cbn [foldr]; [rewrite zlen_zdrop by lia |]; lia.
Qed.

(** ** Equations of the monad *)

Section Equations.
Context {S : Type}.

Lemma bind_some {A B} (m : ST S A) (f : A → ST S B) s a s' :
  m s = Some (a, s') → (m ≫= f) s = f a s'.
Proof. intros E. unfold mbind, ST_bind. by rewrite E. Qed.

Lemma bind_inv {A B} (m : ST S A) (f : A → ST S B) s b s' :
  (m ≫= f) s = Some (b, s') → ∃ a s1, m s = Some (a, s1) ∧ f a s1 = Some (b, s').
Proof. unfold mbind, ST_bind. destruct (m s) as [[a s1]|]; [eauto | done]. Qed.

Lemma when_true (m : ST S unit) : when_ true m = m.
Proof. done. Qed.

Lemma when_false (m : ST S unit) s : when_ false m s = Some (tt, s).
Proof. done. Qed.
End Equations.

(** ** Weakest preconditions

    [wp m Q s]: [m] has a defined outcome from [s], which satisfies [Q]. *)

Definition wp {S A} (m : ST S A) (Q : A -> S -> Prop) (s : S) : Prop :=
  match m s with Some (a, s') => Q a s' | None => False end.

Section WP.
Context {S A B : Type}.
Implicit Types (m : ST S A) (Q : B → S → Prop) (s : S).

Lemma wp_ret (a : B) Q s : Q a s → wp (mret a) Q s.
Proof. done. Qed.

Lemma wp_bind m (f : A → ST S B) Q s : wp m (fun a s' => wp (f a) Q s') s → wp (m ≫= f) Q s.
Proof. unfold wp, mbind, ST_bind. by destruct (m s) as [[a s']|]. Qed.

Lemma wp_gets (f : S → B) Q s : Q (f s) s → wp (gets f) Q s.
Proof. done. Qed.

Lemma wp_modify (f : S → S) (Q : unit → S → Prop) s : Q tt (f s) → wp (modify f) Q s.
Proof. done. Qed.

Lemma wp_when b (m : ST S unit) (Q : unit → S → Prop) s :
  (b = true → wp m Q s) → (b = false → Q tt s) → wp (when_ b m) Q s.
Proof. destruct b; [by auto |]. intros _ H. by apply H. Qed.

Lemma wp_mono m (Q Q' : A → S → Prop) s : wp m Q s → (∀ a s', Q a s' → Q' a s') → wp m Q' s.
Proof. unfold wp. destruct (m s) as [[a s']|]; auto. Qed.

Lemma wp_assoc {C} m (f : A → ST S B) (g : B → ST S C) (Q : C → S → Prop) s :
  wp ((m ≫= f) ≫= g) Q s → wp (m ≫= fun a => f a ≫= g) Q s.
Proof. unfold wp, mbind, ST_bind. by destruct (m s) as [[a s']|]. Qed.

Lemma wp_run m (Q : A → S → Prop) s : wp m Q s ↔ ∃ a s', m s = Some (a, s') ∧ Q a s'.
Proof. unfold wp. destruct (m s) as [[a s']|]; naive_solver. Qed.
End WP.

(** The next primitive of the program. *)
Ltac wp1 :=
  lazymatch goal with
  | |- wp (_ ≫= _) _ _ => apply wp_bind
  | |- wp (gets _) _ _ => apply wp_gets
  | |- wp (modify _) _ _ => apply wp_modify
  | |- wp (mret _) _ _ => apply wp_ret
  end.
Ltac wps := repeat (wp1; cbv beta).
