(* ===== verification/Fifo.v ===== *)
(** The router's byte buffer ([buf_t], edge-peer/router.c): the bytes a stream
    owes the other tunnel while that one has no window.

    The storage is the whole allocation; the bytes a realloc adds are
    indeterminate in C and 0 here, and none is read before it is stored. *)

From stdpp Require Import base list numbers.
From Stdlib Require Import ZArith Lia.
From S2P Require Import Prelude.

Record buf_t := mk_buf { bf_data : bytes; bf_cap : Z; bf_head : Z; bf_len : Z }.

Definition buf_zero : buf_t := mk_buf [] 0 0 0.

(** [if (b->head == b->len) b->head = b->len = 0;] *)
Definition buf_rewind (b : buf_t) : buf_t :=
  if bf_head b =? bf_len b then mk_buf (bf_data b) (bf_cap b) 0 0 else b.

(** The memmove to the front. *)
Definition buf_shift (b : buf_t) : buf_t :=
  mk_buf (mem_write (bf_data b) 0 (ztake (bf_len b - bf_head b) (zdrop (bf_head b) (bf_data b))))
         (bf_cap b) 0 (bf_len b - bf_head b).

(** The growth of [buf_append]; [false] when realloc fails. *)
Definition buf_grow (h : heap) (b : buf_t) (n : Z) : bool * heap * buf_t :=
  let nc := if negb (bf_cap b =? 0) then bf_cap b else 4096 in
  let nc := dbl_until dbl_fuel nc (bf_len b + n) in
  let '(ok, h) := alloc h in
  if negb ok then (false, h, b) else
  (true, h, mk_buf (bf_data b ++ replicate (Z.to_nat (nc - bf_cap b)) 0) nc (bf_head b) (bf_len b)).

Definition buf_append (h : heap) (b : buf_t) (p : bytes) (n : Z) : Z * heap * buf_t :=
  if n =? 0 then (0, h, b) else
  let b := buf_rewind b in
  let b := if (bf_head b >? 0) && (bf_len b + n >? bf_cap b) then buf_shift b else b in
  let '(ok, h, b) := if bf_len b + n >? bf_cap b then buf_grow h b n else (true, h, b) in
  if negb ok then (-1, h, b) else
  (0, h, mk_buf (mem_write (bf_data b) (bf_len b) (ztake n p)) (bf_cap b) (bf_head b) (bf_len b + n)).

Definition buf_avail (b : buf_t) : Z := bf_len b - bf_head b.

(** The bytes available at [b->data + b->head]. *)
Definition buf_ptr (b : buf_t) : bytes := ztake (buf_avail b) (zdrop (bf_head b) (bf_data b)).

(** [pend->head += w; if (pend->head == pend->len) pend->head = pend->len = 0;] *)
Definition buf_drop (b : buf_t) (w : Z) : buf_t :=
  buf_rewind (mk_buf (bf_data b) (bf_cap b) (bf_head b + w) (bf_len b)).

(** ** Specification: a FIFO of bytes *)

Definition queued (b : buf_t) : bytes := buf_ptr b.

Record buf_wf (b : buf_t) : Prop := {
  bw_data : zlen (bf_data b) = bf_cap b;
  bw_head : 0 ≤ bf_head b ≤ bf_len b;
  bw_len : bf_len b ≤ bf_cap b;
}.

Lemma queued_len b : buf_wf b → zlen (queued b) = buf_avail b.
Proof.
  intros [Hd Hh Hl]. unfold queued, buf_ptr, buf_avail. rewrite zlen_ztake; [done |].
  rewrite zlen_zdrop; lia.
Qed.

Lemma buf_zero_wf : buf_wf buf_zero ∧ queued buf_zero = [].
Proof. split; [split; cbn; rewrite ?zlen_nil; lia | done]. Qed.

Lemma buf_rewind_spec b : buf_wf b → buf_wf (buf_rewind b) ∧ queued (buf_rewind b) = queued b.
Proof.
  intros Hw. pose proof (queued_len b Hw) as Hq. destruct Hw as [Hd Hh Hl]. unfold buf_rewind.
  destruct (Z.eqb_spec (bf_head b) (bf_len b)) as [E|]; [| done].
  split; [split; cbn; lia |]. unfold buf_avail in Hq. rewrite E, Z.sub_diag in Hq.
  destruct (queued b); [done |]. rewrite zlen_cons in Hq. pose proof (zlen_nonneg l). lia.
Qed.

Lemma buf_shift_spec b : buf_wf b → buf_wf (buf_shift b) ∧ queued (buf_shift b) = queued b.
Proof.
  intros Hw. pose proof (queued_len b Hw) as Hq. destruct Hw as [Hd Hh Hl].
  unfold buf_shift. fold (buf_avail b). fold (buf_ptr b). fold (queued b).
  unfold buf_avail in *. split.
  - split; cbn; [rewrite mem_write_len; lia | lia | lia].
  - unfold queued at 1, buf_ptr, buf_avail. cbn. rewrite Z.sub_0_r, zdrop_0, mem_write_0.
    by apply ztake_app.
Qed.

Lemma buf_grow_spec h b n ok h' b' :
  buf_wf b → bf_len b + n < 2 ^ 64 → buf_grow h b n = (ok, h', b') →
  buf_wf b' ∧ queued b' = queued b ∧ (h = [] → h' = [] ∧ ok = true) ∧
  (ok = true → bf_len b' + n ≤ bf_cap b').
Proof.
  intros [Hd Hh Hl] Hn. unfold buf_grow. set (n0 := if negb (bf_cap b =? 0) then bf_cap b else 4096).
  assert (1 ≤ n0 ∧ bf_cap b ≤ n0) as [? ?]
    by (subst n0; destruct (Z.eqb_spec (bf_cap b) 0); cbn; lia).
  pose proof (dbl_until_le dbl_fuel n0 (bf_len b + n) ltac:(lia)) as Hle.
  pose proof (dbl_until_ge dbl_fuel n0 (bf_len b + n)) as Hge.
  set (nc := dbl_until dbl_fuel n0 (bf_len b + n)) in *.
  destruct h as [|[] h]; cbn [alloc negb]; intros [= <- <- <-]; [| | by split_and!].
  all: split_and!; try done;
    [split; cbn; rewrite ?zlen_app; [unfold zlen at 2; rewrite length_replicate |..]; lia
    | unfold queued, buf_ptr, buf_avail; cbn; rewrite zdrop_app_le, ztake_app_le by (rewrite ?zlen_zdrop; lia); done
    | intros _; cbn; apply Hge; unfold dbl_fuel; change (2 ^ Z.of_nat 64) with 18446744073709551616; lia].
Qed.

(** Making room and storing: what every append ends with. *)
Lemma buf_store_spec h b p :
  buf_wf b → bf_len b + zlen p < 2 ^ 64 →
  ∃ ok h' b', (if bf_len b + zlen p >? bf_cap b then buf_grow h b (zlen p) else (true, h, b)) = (ok, h', b') ∧
    buf_wf b' ∧ queued b' = queued b ∧ (h = [] → h' = [] ∧ ok = true) ∧
    (ok = true → let b2 := mk_buf (mem_write (bf_data b') (bf_len b') p) (bf_cap b') (bf_head b') (bf_len b' + zlen p) in
       buf_wf b2 ∧ queued b2 = queued b ++ p).
Proof.
  intros Hw Hn. pose proof (zlen_nonneg p).
  assert (∃ ok h3 b3, (if bf_len b + zlen p >? bf_cap b then buf_grow h b (zlen p) else (true, h, b))
            = (ok, h3, b3) ∧ buf_wf b3 ∧ queued b3 = queued b ∧ (h = [] → h3 = [] ∧ ok = true) ∧
            (ok = true → bf_len b3 + zlen p ≤ bf_cap b3)) as (ok & h3 & b3 & E & Hw3 & Hq3 & Hh3 & Hr3).
  { rewrite Z.gtb_ltb. destruct (Z.ltb_spec (bf_cap b) (bf_len b + zlen p)).
    - destruct (buf_grow h b (zlen p)) as [[ok h3] b3] eqn:G.
      apply buf_grow_spec in G as (? & E3 & ? & ?); [| done | lia].
      exists ok, h3, b3. rewrite E3. done.
    - exists true, h, b. split_and!; auto. }
  exists ok, h3, b3. rewrite E. split_and!; try done. intros Hok. specialize (Hr3 Hok).
  pose proof (queued_len b3 Hw3) as Hl3. destruct Hw3 as [Hd Hh Hl]. split.
  - split; cbn; [rewrite mem_write_len; lia | lia | lia].
  - rewrite <- Hq3. unfold queued, buf_ptr, buf_avail in *. cbn. unfold mem_write.
    rewrite zdrop_app_le by (rewrite zlen_ztake; lia). rewrite (assoc_L (++)), ztake_app.
    + by rewrite (ztake_zdrop_comm (bf_len b3 - bf_head b3)), Zplus_minus by lia.
    + rewrite zlen_app, zlen_zdrop, zlen_ztake by (rewrite ?zlen_ztake; lia). lia.
Qed.

(** Appending: on success the bytes join the queue; on an allocation failure
    the queue is unchanged and the new bytes are lost. *)
Lemma buf_append_spec h b p :
  buf_wf b → bf_len b + zlen p < 2 ^ 64 →
  ∃ r h' b', buf_append h b p (zlen p) = (r, h', b') ∧ buf_wf b' ∧
    (r = 0 ∧ queued b' = queued b ++ p ∨ r = -1 ∧ queued b' = queued b ∧ h ≠ []) ∧
    (h = [] → h' = []).
Proof.
  intros Hw Hn. unfold buf_append. destruct (Z.eqb_spec (zlen p) 0) as [E|E].
  { destruct p; [| rewrite zlen_cons in E; pose proof (zlen_nonneg p); lia].
    exists 0, h, b. rewrite app_nil_r. split_and!; auto. }
  cbv zeta. destruct (buf_rewind_spec b Hw) as [Hw1 Hq1].
  assert (bf_len (buf_rewind b) ≤ bf_len b) as Hle1
    by (unfold buf_rewind; destruct Hw; destruct (_ =? _); cbn; lia).
  set (b1 := buf_rewind b) in *.
  set (b2 := if _ && _ then buf_shift b1 else b1).
  assert (buf_wf b2 ∧ queued b2 = queued b ∧ bf_len b2 ≤ bf_len b) as (Hw2 & Hq2 & Hle2).
  { subst b2. destruct (_ && _); [| by rewrite Hq1].
    destruct (buf_shift_spec b1 Hw1) as [? ->]. destruct Hw1. split_and!; [done | done | cbn; lia]. }
  destruct (buf_store_spec h b2 p Hw2) as (ok & h3 & b3 & -> & Hw3 & Hq3 & Hh3 & Hs); [lia |].
  rewrite ztake_all by lia. destruct ok; cbn [negb].
  - destruct (Hs eq_refl) as [Hw4 Hq4]. eexists 0, h3, _. split; [done |]. rewrite Hq2 in Hq4.
    split_and!; [exact Hw4 | by left | by intros [? ?]%Hh3].
  - exists (-1), h3, b3. split_and!; [done | done | right | by intros [? ?]%Hh3].
    split_and!; [done | congruence |]. intros ->. by destruct (Hh3 eq_refl).
Qed.

(** Dropping what the destination accepted. *)
Lemma buf_drop_spec b w :
  buf_wf b → 0 ≤ w ≤ buf_avail b → buf_wf (buf_drop b w) ∧ queued (buf_drop b w) = zdrop w (queued b).
Proof.
  intros [Hd Hh Hl] Hw. unfold buf_drop. set (b' := mk_buf _ _ _ _). unfold buf_avail in Hw.
  assert (buf_wf b') as Hw' by (split; cbn; lia). destruct (buf_rewind_spec b' Hw') as [? ->].
  split; [done |]. unfold queued, buf_ptr, buf_avail. cbn.
  rewrite <- (zdrop_zdrop w (bf_head b)), (ztake_zdrop_comm _ w) by lia. do 2 f_equal. lia.
Qed.
