(* ===== verification/Umap.v ===== *)
(** The router's map from stream id to route pointer ([umap], edge-peer/router.c):
    open addressing without tombstones.  Deletion empties the slot and puts the
    rest of the cluster back one entry at a time.

    A pointer is an opaque [Z].  [umap_put] and [umap_del] answer [None] where
    the C call has no defined outcome: a failed first [calloc] leaves a table
    without slots, which is then dereferenced, and probing a full table never
    stops.  [umap_put_total] and [umap_del_total] show that neither happens
    while the allocator succeeds. *)

From stdpp Require Import base list numbers gmap.
From Stdlib Require Import ZArith Lia.
From S2P Require Import Prelude Probe.

Record mslot := mk_mslot { ms_k : Z; ms_v : Z; ms_used : bool }.
Record umap := mk_umap { um_s : list mslot; um_cap : Z; um_count : Z }.

Definition mslot_zero : mslot := mk_mslot 0 0 false.
Definition umap_zero : umap := mk_umap [] 0 0.

Definition umix (k mask : Z) : Z := Z.land (mix k) mask.

(** [while (ns[j].used) j = (j + 1) & (nc - 1);] *)
Fixpoint ugrow_slot (ns : list mslot) (mask j : Z) (n : nat) : Z :=
  match n with
  | O => j
  | S n =>
      if bool_decide (ms_used <$> ns !! Z.to_nat j = Some true)
      then ugrow_slot ns mask (Z.land (j + 1) mask) n else j
  end.

(** One iteration of the copy loop of [umap_grow]. *)
Definition ugrow_one (nc : Z) (ns : list mslot) (e : mslot) : list mslot :=
  if negb (ms_used e) then ns else
  <[Z.to_nat (ugrow_slot ns (nc - 1) (umix (ms_k e) (nc - 1)) (Z.to_nat nc)) := e]> ns.

Definition umap_grow (h : heap) (m : umap) (want : Z) : heap * umap :=
  let nc := if negb (um_cap m =? 0) then um_cap m else 64 in
  let nc := dbl_until dbl_fuel nc want in
  let '(ok, h) := alloc h in
  if negb ok then (h, m) else
  let ns := foldl (ugrow_one nc) (replicate (Z.to_nat nc) mslot_zero) (um_s m) in
  (h, mk_umap ns nc (um_count m)).

(** The probe loop of [umap_put]: the slot it stops at. *)
Fixpoint uput_slot (s : list mslot) (mask k i : Z) (n : nat) : option nat :=
  match n with
  | O => None
  | S n =>
      match s !! Z.to_nat i with
      | None => None
      | Some e =>
          if negb (ms_used e) then Some (Z.to_nat i)
          else if ms_k e =? k then Some (Z.to_nat i)
          else uput_slot s mask k (Z.land (i + 1) mask) n
      end
  end.

(** The half of [umap_put] after the growth test. *)
Definition uput_store (m : umap) (k v : Z) : option umap :=
  if um_cap m =? 0 then None else
  let mask := um_cap m - 1 in
  match uput_slot (um_s m) mask k (umix k mask) (Z.to_nat (um_cap m)) with
  | None => None
  | Some j =>
      let used := bool_decide (ms_used <$> um_s m !! j = Some true) in
      Some (mk_umap (<[j := mk_mslot k v true]> (um_s m)) (um_cap m)
              (if used then um_count m else um_count m + 1))
  end.

Definition umap_put (h : heap) (m : umap) (k v : Z) : heap * option umap :=
  let '(h, m) :=
    if (um_count m + 1) * 4 >=? um_cap m * 3 then umap_grow h m ((um_count m + 1) * 2) else (h, m) in
  (h, uput_store m k v).

Fixpoint uget_loop (s : list mslot) (mask k i : Z) (n : nat) : option Z :=
  match n with
  | O => None
  | S n =>
      match s !! Z.to_nat i with
      | None => None
      | Some e =>
          if negb (ms_used e) then None
          else if ms_k e =? k then Some (ms_v e)
          else uget_loop s mask k (Z.land (i + 1) mask) n
      end
  end.

(** [None] is NULL. *)
Definition umap_get (m : umap) (k : Z) : option Z :=
  if um_cap m =? 0 then None else
  let mask := um_cap m - 1 in
  uget_loop (um_s m) mask k (umix k mask) (Z.to_nat (um_cap m)).

(** The search of [umap_del]: [inl] when it returns at an empty slot, [inr]
    with where it left the loop and whether it found the key.  An access out of
    the table leaves it too, and the loop that follows then has no outcome. *)
Fixpoint udel_find (s : list mslot) (mask k i : Z) (n : nat) : unit + Z * bool :=
  match n with
  | O => inr (i, false)
  | S n =>
      match s !! Z.to_nat i with
      | None => inr (i, false)
      | Some e =>
          if negb (ms_used e) then inl tt
          else if ms_k e =? k then inr (i, true)
          else udel_find s mask k (Z.land (i + 1) mask) n
      end
  end.

Definition mslot_clear (e : mslot) : mslot := mk_mslot (ms_k e) (ms_v e) false.

(** [while (m->s[j].used) { ...; umap_put(m, s.k, s.v); j = (j + 1) & mask; }] *)
Fixpoint udel_loop (h : heap) (m : umap) (mask j : Z) (n : nat) : heap * option umap :=
  match n with
  | O => (h, None)
  | S n =>
      match um_s m !! Z.to_nat j with
      | None => (h, None)
      | Some e =>
          if negb (ms_used e) then (h, Some m) else
          let m := mk_umap (<[Z.to_nat j := mslot_clear e]> (um_s m)) (um_cap m) (um_count m - 1) in
          let '(h, o) := umap_put h m (ms_k e) (ms_v e) in
          match o with
          | None => (h, None)
          | Some m => udel_loop h m mask (Z.land (j + 1) mask) n
          end
      end
  end.

Definition umap_del (h : heap) (m : umap) (k : Z) : heap * option umap :=
  if um_cap m =? 0 then (h, Some m) else
  let mask := um_cap m - 1 in
  match udel_find (um_s m) mask k (umix k mask) (Z.to_nat (um_cap m)) with
  | inl _ => (h, Some m)
  | inr (i, found) =>
      let m := if found : bool
               then mk_umap (alter mslot_clear (Z.to_nat i) (um_s m)) (um_cap m) (um_count m - 1)
               else m in
      udel_loop h m mask (Z.land (i + 1) mask) (S (Z.to_nat (um_cap m)))
  end.

(** ** Specification: a finite map from key to pointer *)

Definition mcls (e : mslot) : cell := if ms_used e then CUsed (ms_k e) else CEmpty.

(** [s] holds pointer [v] for key [k]. *)
Definition holds (s : list mslot) (k v : Z) : Prop :=
  ∃ j e, s !! j = Some e ∧ mcls e = CUsed k ∧ ms_v e = v.

Record umap_wf (m : umap) : Prop := {
  uw_empty : um_cap m = 0 → um_s m = [] ∧ um_count m = 0;
  uw_chain : um_cap m ≠ 0 → chain mcls (um_s m) (um_cap m);
  uw_count : um_count m = cnt ms_used (um_s m);
  uw_load : um_cap m ≠ 0 → um_count m * 4 < um_cap m * 3;
}.

(** [m] represents the map [g]. *)
Definition represents (m : umap) (g : gmap Z Z) : Prop :=
  umap_wf m ∧ ∀ k v, g !! k = Some v ↔ holds (um_s m) k v.

(** ** Probing *)

Lemma mcls_used e k : mcls e = CUsed k ↔ ms_used e = true ∧ ms_k e = k.
Proof. unfold mcls. destruct (ms_used e); naive_solver. Qed.

Lemma mcls_empty e : mcls e = CEmpty ↔ ms_used e = false.
Proof. unfold mcls. by destruct (ms_used e). Qed.

(** What stops [umap_put], [umap_get] and the search of [umap_del] alike. *)
Definition stop (k : Z) (e : mslot) : option bool :=
  if negb (ms_used e) then Some false else if ms_k e =? k then Some true else None.

Lemma stop_None k e : stop k e = None ↔ nonempty mcls e ∧ mcls e ≠ CUsed k.
Proof.
  unfold stop, nonempty, mcls. destruct (ms_used e); simpl; [| naive_solver].
  destruct (Z.eqb_spec (ms_k e) k); naive_solver.
Qed.

Section Walk.
Context (s : list mslot) (cap k : Z).
Hypothesis Hcap : pow2 cap.
Hypothesis Hlen : zlen s = cap.

Lemma uput_slot_scan h d n :
  uput_slot s (cap - 1) k ((h + d) mod cap) n = fst <$> scan s cap h (stop k) d n.
Proof.
  revert d. induction n as [|n IH]; intros d; [done |]. simpl. fold (pslot cap h d).
  destruct (pslot_lookup s cap h (pow2_pos _ Hcap) Hlen d) as [e E]. rewrite E. unfold stop.
  destruct (ms_used e); simpl; [| done]. destruct (ms_k e =? k); [done |].
  rewrite probe_next by done. apply IH.
Qed.

Lemma uget_loop_scan h d n :
  uget_loop s (cap - 1) k ((h + d) mod cap) n =
  match scan s cap h (stop k) d n with Some (j, true) => ms_v <$> s !! j | _ => None end.
Proof.
  revert d. induction n as [|n IH]; intros d; [done |]. simpl. fold (pslot cap h d).
  destruct (pslot_lookup s cap h (pow2_pos _ Hcap) Hlen d) as [e E]. rewrite E. unfold stop.
  destruct (ms_used e); simpl; [| done]. destruct (ms_k e =? k); [by rewrite E |].
  rewrite probe_next by done. apply IH.
Qed.

Lemma udel_find_scan h d n j b :
  scan s cap h (stop k) d n = Some (j, b) →
  udel_find s (cap - 1) k ((h + d) mod cap) n = if b then inr (Z.of_nat j, true) else inl tt.
Proof.
  revert d. induction n as [|n IH]; intros d; [done |]. simpl. fold (pslot cap h d).
  destruct (pslot_lookup s cap h (pow2_pos _ Hcap) Hlen d) as [e E]. rewrite E. unfold stop.
  destruct (ms_used e); simpl; [| by intros [= <- <-]]. destruct (ms_k e =? k).
  - intros [= <- <-]. unfold pslot. rewrite Z2Nat.id; [done |].
    by apply Z.mod_pos_bound, pow2_pos.
  - rewrite probe_next by done. apply IH.
Qed.

(** Scanning for an absent key stops at the first empty slot. *)
Lemma scan_absent d0 :
  ¬ has_key mcls s k → 0 ≤ d0 < cap → mcls <$> s !! pslot cap (mix k) d0 = Some CEmpty →
  ∃ d, 0 ≤ d ≤ d0 ∧ scan s cap (mix k) (stop k) 0 (Z.to_nat cap) = Some (pslot cap (mix k) d, false) ∧
       mcls <$> s !! pslot cap (mix k) d = Some CEmpty ∧
       ∀ i e, 0 ≤ i < d → s !! pslot cap (mix k) i = Some e → nonempty mcls e.
Proof.
  intros Habs Hd0 Hemp. pose proof (pow2_pos _ Hcap) as Hp.
  apply fmap_Some in Hemp as (e0 & He0 & Em). symmetry in Em. rewrite mcls_empty in Em.
  destruct (scan_finds s cap (mix k) (stop k) Hp Hlen 0 (Z.to_nat cap) d0 e0) as (j & r & E);
    [lia | done | unfold stop; by rewrite Em |].
  destruct (scan_Some _ _ _ _ Hp Hlen _ _ _ _ E) as (d & Hd & -> & (e & He & Hf) & Hb).
  assert (r = false ∧ mcls e = CEmpty) as [-> Hce].
  { unfold stop in Hf. destruct (ms_used e) eqn:U; simpl in Hf.
    - destruct (Z.eqb_spec (ms_k e) k); [| done]. exfalso. apply Habs. exists (pslot cap (mix k) d), e.
      split; [done |]. by apply mcls_used.
    - simplify_eq. split; [done |]. by apply mcls_empty. }
  exists d. split_and!; [lia | | done | by rewrite He; simpl; f_equal |].
  - destruct (Z.le_gt_cases d d0); [done |]. exfalso.
    specialize (Hb d0 e0 ltac:(lia) He0). unfold stop in Hb. by rewrite Em in Hb.
  - intros i e' Hi He'. specialize (Hb i e' ltac:(lia) He'). by apply stop_None in Hb as [? _].
Qed.

(** Scanning a chained table for a stored key stops at its slot. *)
Lemma scan_present j e :
  chain mcls s cap → s !! j = Some e → mcls e = CUsed k →
  scan s cap (mix k) (stop k) 0 (Z.to_nat cap) = Some (j, true).
Proof.
  intros [_ _ Hp Hu] Hj K. destruct (Hp j e k Hj K) as (d & Hd & <- & Hn).
  pose proof (pow2_pos _ Hcap) as Hpos.
  apply (scan_at s cap (mix k) (stop k) Hpos Hlen 0 _ d e); [lia | done | |].
  - unfold stop. apply mcls_used in K as [-> ->]. simpl. by rewrite Z.eqb_refl.
  - intros i e' Hi He'. apply stop_None. split; [by apply (Hn i) |]. intros K'.
    pose proof (Hu _ _ _ _ _ He' Hj K' K) as Ei. apply pslot_inj in Ei; lia.
Qed.
End Walk.

Lemma umix_home k cap : pow2 cap → umix k (cap - 1) = (mix k + 0) mod cap.
Proof. intros. unfold umix. by rewrite land_mask, Z.add_0_r. Qed.

(** Below its load factor a table has an empty slot. *)
Lemma empty_exists s : cnt ms_used s < zlen s → ∃ j, mcls <$> s !! j = Some CEmpty.
Proof.
  intros (j & e & Hj & He)%cnt_lt_exists. exists j. rewrite Hj. simpl. f_equal. by apply mcls_empty.
Qed.

Lemma empty_on_path s cap h j :
  zlen s = cap → mcls <$> s !! j = Some CEmpty → ∃ d, 0 ≤ d < cap ∧ pslot cap h d = j.
Proof.
  intros Hl Hj. apply pslot_surj. apply fmap_Some in Hj as (e & He & _). apply lookup_lt_Some in He.
  unfold zlen in Hl. lia.
Qed.

(** ** What the slots hold *)

Definition ukeys (s : list mslot) : Prop :=
  ∀ j j' e e' k, s !! j = Some e → s !! j' = Some e' →
    mcls e = CUsed k → mcls e' = CUsed k → j = j'.

Lemma holds_has s k v : holds s k v → has_key mcls s k.
Proof. intros (j & e & ? & ? & _). by exists j, e. Qed.

Lemma has_holds s k : has_key mcls s k → ∃ v, holds s k v.
Proof. intros (j & e & ? & ?). exists (ms_v e), j, e. done. Qed.

Lemma holds_write s j e x k v :
  ukeys s → s !! j = Some e →
  holds (<[j := x]> s) k v ↔
  (mcls x = CUsed k ∧ ms_v x = v) ∨ (holds s k v ∧ mcls e ≠ CUsed k).
Proof.
  intros Hu Hj. pose proof (lookup_lt_Some _ _ _ Hj). split.
  - intros (i & y & Hi & K & V). apply list_lookup_insert_Some in Hi as [(<- & <- & _)|[Hne Hi]]; [by left |].
    right. split; [by exists i, y |]. intros K'. apply Hne. by eapply Hu.
  - intros [[K V]|[(i & y & Hi & K & V) Hn]].
    + exists j, x. by rewrite list_lookup_insert_eq.
    + exists i, y. split_and!; [| done | done]. rewrite list_lookup_insert_ne; [done |].
      intros <-. congruence.
Qed.

(** Writing a key to a slot that was empty or already had it. *)
Lemma holds_put s j e k v k' v' :
  ukeys s → s !! j = Some e → (mcls e = CEmpty ∧ ¬ has_key mcls s k) ∨ mcls e = CUsed k →
  holds (<[j := mk_mslot k v true]> s) k' v' ↔ (k' = k ∧ v' = v) ∨ (k' ≠ k ∧ holds s k' v').
Proof.
  intros Hu Hj He. rewrite (holds_write s j e) by done. unfold mcls at 1. cbn.
  assert (k' = k → holds s k' v' → mcls e ≠ CUsed k' → False) as Hno.
  { intros -> Hh Hn. destruct He as [[_ Hk]|He]; [by apply Hk, (holds_has _ _ v') | done]. }
  assert (mcls e ≠ CUsed k' ∨ k' = k) as Hc.
  { destruct He as [[He _]|He]; rewrite He; [by left |].
    destruct (decide (k' = k)); [by right | left; congruence]. }
  naive_solver.
Qed.

(** Clearing a slot. *)
Lemma holds_clear s j e k k' v' :
  ukeys s → s !! j = Some e → mcls e = CUsed k →
  holds (<[j := mslot_clear e]> s) k' v' ↔ k' ≠ k ∧ holds s k' v'.
Proof.
  intros Hu Hj He. rewrite (holds_write s j e) by done. unfold mslot_clear at 1. unfold mcls at 1. cbn.
  rewrite He. naive_solver.
Qed.

(** A table without a key holds its entries under other keys. *)
Lemma holds_fresh s k k' v' : ¬ has_key mcls s k → holds s k' v' ↔ k' ≠ k ∧ holds s k' v'.
Proof.
  intros Hk. split; [| by intros []]. intros Hh. split; [| done]. intros ->.
  by apply Hk, (holds_has _ _ v').
Qed.

(** ** Growing *)

Lemma ugrow_slot_scan s cap k h d n j :
  pow2 cap → zlen s = cap →
  scan s cap h (stop k) d n = Some (j, false) →
  Z.to_nat (ugrow_slot s (cap - 1) ((h + d) mod cap) n) = j.
Proof.
  intros Hc Hl. revert d. induction n as [|n IH]; intros d; [done |]. simpl. fold (pslot cap h d).
  destruct (pslot_lookup s cap h (pow2_pos _ Hc) Hl d) as [e E]. rewrite E. unfold stop. simpl.
  destruct (ms_used e); simpl.
  - destruct (ms_k e =? k); [done |]. rewrite probe_next by done. apply IH.
  - by intros [= <-].
Qed.

Lemma ukeys_chain s cap : chain mcls s cap → ukeys s.
Proof. intros H. exact (chain_uniq _ _ _ H). Qed.

#[export] Hint Resolve ukeys_chain : core.

(** Storing a fresh key at the slot its scan stops at. *)
Lemma store_fresh s cap k v :
  chain mcls s cap → ¬ has_key mcls s k → cnt ms_used s < cap →
  ∃ j, scan s cap (mix k) (stop k) 0 (Z.to_nat cap) = Some (j, false) ∧
       chain mcls (<[j := mk_mslot k v true]> s) cap ∧
       cnt ms_used (<[j := mk_mslot k v true]> s) = cnt ms_used s + 1 ∧
       ms_used <$> s !! j = Some false ∧
       ∀ k' v', holds (<[j := mk_mslot k v true]> s) k' v' ↔ (k' = k ∧ v' = v) ∨ (k' ≠ k ∧ holds s k' v').
Proof.
  intros Hch Habs Hcnt. pose proof (chain_cap _ _ _ Hch) as Hc. pose proof (chain_len _ _ _ Hch) as Hl.
  destruct (empty_exists s) as [j0 Hj0]; [lia |].
  destruct (empty_on_path s cap (mix k) j0 Hl Hj0) as (d0 & Hd0 & Ed0). rewrite <- Ed0 in Hj0.
  destruct (scan_absent s cap k Hc Hl d0 Habs Hd0 Hj0) as (d & Hd & Es & Hem & Hpath).
  pose proof Hem as Hem'. apply fmap_Some in Hem' as (e & He & Ee). symmetry in Ee.
  exists (pslot cap (mix k) d). split_and!; [done | | | |].
  - apply chain_store; try done; [lia |]. intros k'. by rewrite Hem.
  - rewrite (cnt_insert _ _ _ _ _ He). apply mcls_empty in Ee. rewrite Ee. cbn. lia.
  - apply mcls_empty in Ee. rewrite He. simpl. by rewrite Ee.
  - intros k' v'. apply (holds_put s _ e); [by eauto | done | by left].
Qed.

Lemma ugrow_all nc l ns :
  chain mcls ns nc → ukeys l → cnt ms_used ns + cnt ms_used l < nc →
  (∀ k, has_key mcls l k → ¬ has_key mcls ns k) →
  let ns' := foldl (ugrow_one nc) ns l in
  chain mcls ns' nc ∧ cnt ms_used ns' = cnt ms_used ns + cnt ms_used l ∧
  ∀ k v, holds ns' k v ↔ holds ns k v ∨ holds l k v.
Proof.
  revert ns. induction l as [|e l IH]; intros ns Hch Hu Hcnt Hdis; cbn [foldl cnt].
  - split_and!; [done | lia |]. intros k v. split; [by left |]. intros [?|(j & e & Hj & _)]; [done |].
    by rewrite lookup_nil in Hj.
  - assert (ukeys l) as Hul by (intros j j' a a' k Ha Ha'; intros; enough (S j = S j') by lia; by eapply Hu).
    cbn [cnt] in Hcnt. pose proof (cnt_nonneg ms_used l).
    assert (∀ k v, holds (e :: l) k v ↔ (mcls e = CUsed k ∧ ms_v e = v) ∨ holds l k v) as Hcons.
    { intros k v. split.
      - intros ([|j] & a & Hj & ? & ?); simplify_eq/=; [by left | right; by exists j, a].
      - intros [[? ?]|(j & a & Hj & ? & ?)]; [by exists 0%nat, e | by exists (S j), a]. }
    destruct (ms_used e) eqn:U; cbn [b2z] in *.
    + assert (mcls e = CUsed (ms_k e)) as K by by apply mcls_used.
      assert (¬ has_key mcls ns (ms_k e)) as Habs by (apply Hdis; by exists 0%nat, e).
      destruct (store_fresh ns nc (ms_k e) (ms_v e) Hch Habs) as (j & Es & Hch' & Hc' & _ & Hh); [lia |].
      destruct Hch as [Hc Hl _ _].
      assert (mk_mslot (ms_k e) (ms_v e) true = e) as Ee by (destruct e; simpl in *; congruence).
      rewrite Ee in *.
      assert (ugrow_one nc ns e = <[j := e]> ns) as ->.
      { unfold ugrow_one. rewrite U, umix_home by done. cbn [negb].
        by rewrite (ugrow_slot_scan _ _ _ _ _ _ _ Hc Hl Es). }
      destruct (IH (<[j := e]> ns) Hch' Hul) as (C & N & R); [lia | |].
      { intros k (i & a & Hi & Ka) (v & Hv)%has_holds. apply Hh in Hv as [[-> _]|[_ Hv]].
        - enough (S i = 0)%nat by done. by eapply Hu.
        - apply (Hdis k); [by exists (S i), a | by eapply holds_has]. }
      split_and!; [done | lia |]. intros k v. rewrite R, Hh, Hcons, K.
      rewrite (holds_fresh ns (ms_k e) k v Habs). naive_solver.
    + assert (mcls e = CEmpty) as K by by apply mcls_empty.
      assert (ugrow_one nc ns e = ns) as -> by (unfold ugrow_one; by rewrite U).
      destruct (IH ns Hch Hul) as (C & N & R); [lia | |].
      { intros k (i & a & Hi & Ka). apply Hdis. by exists (S i), a. }
      split_and!; [done | lia |]. intros k v. rewrite R, Hcons, K. naive_solver.
Qed.

Lemma pow2_64 : pow2 64.
Proof. by exists 6. Qed.

(** The capacity the growth test leaves. *)
Lemma grow_cap m :
  umap_wf m → um_cap m * 3 ≤ (um_count m + 1) * 4 →
  let nc := dbl_until dbl_fuel (if negb (um_cap m =? 0) then um_cap m else 64) ((um_count m + 1) * 2) in
  pow2 nc ∧ (um_count m + 1) * 2 ≤ nc ∧ 64 ≤ nc * 64.
Proof.
  intros [H0 Hch Hco Hld] Hfull nc. pose proof (cnt_nonneg ms_used (um_s m)).
  assert (∀ n, pow2 n → um_count m < n → pow2 (dbl_until dbl_fuel n ((um_count m + 1) * 2)) ∧
            (um_count m + 1) * 2 ≤ dbl_until dbl_fuel n ((um_count m + 1) * 2)) as D.
  { intros n Hn Hlt. pose proof (pow2_pos _ Hn). split; [by apply pow2_dbl |].
    apply dbl_until_ge. unfold dbl_fuel. change (2 ^ Z.of_nat 64) with 18446744073709551616. lia. }
  subst nc. destruct (Z.eqb_spec (um_cap m) 0) as [E|E]; cbn [negb].
  - destruct (H0 E) as [_ Hc]. destruct (D 64 pow2_64); [lia |]. split_and!; [done | done | lia].
  - destruct (D (um_cap m)) as [Hp ?]; [apply (Hch E) | pose proof (Hld E); lia |].
    split_and!; [done | done | lia].
Qed.

Lemma umap_keys m : umap_wf m → ukeys (um_s m).
Proof.
  intros [H0 Hch _ _]. destruct (decide (um_cap m = 0)) as [E|E]; [| by eauto].
  destruct (H0 E) as [-> _]. intros j j' e e' k Hj. by rewrite lookup_nil in Hj.
Qed.

Lemma umap_grow_spec m :
  umap_wf m → um_cap m * 3 ≤ (um_count m + 1) * 4 →
  ∃ m', umap_grow [] m ((um_count m + 1) * 2) = ([], m') ∧ umap_wf m' ∧ um_cap m' ≠ 0 ∧
        um_count m' = um_count m ∧ (um_count m + 1) * 4 < um_cap m' * 3 ∧
        ∀ k v, holds (um_s m') k v ↔ holds (um_s m) k v.
Proof.
  intros Hw Hfull. destruct (grow_cap m Hw Hfull) as (Hp & Hge & _). unfold umap_grow. cbv zeta.
  set (nc := dbl_until _ _ _) in *. cbn [alloc negb].
  pose proof (cnt_nonneg ms_used (um_s m)) as Hn. pose proof (uw_count m Hw) as Hco.
  destruct (ugrow_all nc (um_s m) (replicate (Z.to_nat nc) mslot_zero)) as (C & N & R).
  - by apply chain_replicate.
  - by apply umap_keys.
  - rewrite cnt_replicate. cbn. lia.
  - intros k _ (j & e & Hj & K). apply lookup_replicate in Hj as [-> _]. done.
  - rewrite cnt_replicate in N. cbn in N. eexists. split; [done |]. cbn.
    pose proof (pow2_pos _ Hp). split_and!; [| lia | done | lia |].
    + split; cbn; [lia | done | lia | lia].
    + intros k v. rewrite R. split; [| by right]. intros [(j & e & Hj & K & _)|?]; [| done].
      apply lookup_replicate in Hj as [-> _]. done.
Qed.

(** ** Lookup, insertion *)

Lemma umap_get_spec m k v : umap_wf m → umap_get m k = Some v ↔ holds (um_s m) k v.
Proof.
  intros Hw. unfold umap_get. destruct (Z.eqb_spec (um_cap m) 0) as [E|E].
  - destruct (uw_empty m Hw E) as [-> _]. split; [done |]. intros (j & e & Hj & _). by rewrite lookup_nil in Hj.
  - pose proof (uw_chain m Hw E) as Hch.
    pose proof (chain_cap _ _ _ Hch) as Hc. pose proof (chain_len _ _ _ Hch) as Hl.
    rewrite umix_home, uget_loop_scan by done. split.
    + destruct (scan _ _ _ _ _ _) as [[j []]|] eqn:Es; [| done | done]. intros Hv.
      destruct (scan_Some _ _ _ _ (pow2_pos _ Hc) Hl _ _ _ _ Es) as (d & _ & _ & (e & He & Hf) & _).
      rewrite He in Hv. simpl in Hv. simplify_eq. exists j, e. split_and!; [done | | done].
      unfold stop in Hf. apply mcls_used. destruct (ms_used e); simplify_eq/=.
      destruct (Z.eqb_spec (ms_k e) k); [done |]. done.
    + intros (j & e & Hj & K & <-). rewrite (scan_present _ _ _ Hc Hl j e Hch Hj K). by rewrite Hj.
Qed.

(** The store half of [umap_put], on a table with room. *)
Lemma uput_store_spec m k v :
  umap_wf m → um_cap m ≠ 0 → (um_count m + 1) * 4 < um_cap m * 3 →
  ∃ m', uput_store m k v = Some m' ∧ umap_wf m' ∧ um_cap m' = um_cap m ∧
        (umap_get m k = None → um_count m' = um_count m + 1) ∧
        ∀ k' v', holds (um_s m') k' v' ↔ (k' = k ∧ v' = v) ∨ (k' ≠ k ∧ holds (um_s m) k' v').
Proof.
  intros Hw E Hload. pose proof (uw_chain m Hw E) as Hch. pose proof (uw_count m Hw) as Hco.
  pose proof (chain_cap _ _ _ Hch) as Hc. pose proof (chain_len _ _ _ Hch) as Hl.
  pose proof (cnt_nonneg ms_used (um_s m)).
  unfold uput_store. destruct (Z.eqb_spec (um_cap m) 0); [done |]. cbv zeta.
  rewrite umix_home, uput_slot_scan by done.
  destruct (umap_get m k) as [w|] eqn:G.
  - apply umap_get_spec in G as (j & e & Hj & K & _); [| done].
    rewrite (scan_present _ _ _ Hc Hl j e Hch Hj K). cbn [fmap option_fmap option_map fst].
    pose proof K as K'. apply mcls_used in K' as [U _]. rewrite Hj. simpl. rewrite U.
    rewrite bool_decide_true by done. eexists. split; [done |]. cbn. split_and!; [| done | done |].
    + split; cbn; [done | intros _ | | lia].
      * apply (chain_update _ _ _ _ e); [done | done | unfold nonempty; by rewrite (proj2 (mcls_used _ k)) |].
        intros k' Hk'. apply mcls_used in Hk' as [_ <-]. done.
      * rewrite (cnt_insert _ _ _ _ _ Hj), U. cbn. lia.
    + intros k' v'. apply (holds_put _ _ e); [by eauto | done | by right].
  - assert (¬ has_key mcls (um_s m) k) as Habs.
    { intros (v0 & Hv%umap_get_spec)%has_holds; [congruence | done]. }
    destruct (store_fresh (um_s m) (um_cap m) k v Hch Habs) as (j & Es & Hch' & Hc' & U & Hh); [lia |].
    rewrite Es. cbn [fmap option_fmap option_map fst]. rewrite U, bool_decide_false by done.
    eexists. split; [done |]. cbn. split_and!; [| done | done | done]. split; cbn; [done | done | lia | lia].
Qed.

(** While the allocator succeeds, [umap_put] returns and is map insertion. *)
Lemma umap_put_total m g k v :
  represents m g →
  ∃ m', umap_put [] m k v = ([], Some m') ∧ represents m' (<[k := v]> g) ∧
        (g !! k = None → um_count m' = um_count m + 1).
Proof.
  intros [Hw Hg]. unfold umap_put. rewrite Z.geb_leb.
  assert (∃ m1, (if um_cap m * 3 <=? (um_count m + 1) * 4
                 then umap_grow [] m ((um_count m + 1) * 2) else ([], m)) = ([], m1) ∧
            umap_wf m1 ∧ um_cap m1 ≠ 0 ∧ (um_count m1 + 1) * 4 < um_cap m1 * 3 ∧ um_count m1 = um_count m ∧
            ∀ k v, holds (um_s m1) k v ↔ holds (um_s m) k v) as (m1 & -> & Hw1 & E1 & L1 & C1 & R1).
  { pose proof (cnt_nonneg ms_used (um_s m)). pose proof (uw_count m Hw).
    destruct (Z.leb_spec (um_cap m * 3) ((um_count m + 1) * 4)).
    - destruct (umap_grow_spec m Hw) as (m1 & -> & ? & ? & Ec & ? & ?); [done |].
      exists m1. rewrite Ec. done.
    - exists m. split_and!; try done; lia. }
  destruct (uput_store_spec m1 k v Hw1 E1 L1) as (m2 & -> & Hw2 & _ & C2 & R2).
  exists m2. split; [done |]. split; [split; [done |] |].
  - intros k' v'. rewrite R2, R1, <- Hg, lookup_insert. case_decide; naive_solver.
  - intros Hk. rewrite <- C1. apply C2. apply eq_None_ne_Some. intros w Hv%umap_get_spec; [| done].
    apply R1, Hg in Hv. congruence.
Qed.

(** ** Deletion

    Slots are numbered from just behind an empty slot, which gets the last
    offset: then no probe path wraps around, a key's home never lies behind
    its slot, and the loop of [umap_del] walks the offsets upwards. *)

Section Lin.
Context (cap b : Z).
Hypothesis Hcap : pow2 cap.

Definition home (k : Z) : Z := (mix k - b) mod cap.

(** Chained, except that a slot at offset [j] or later may have holes of the
    emptied range [i, j) on its path. *)
Definition lin (s : list mslot) (i j : Z) : Prop :=
  ∀ o e k, 0 ≤ o < cap → s !! pslot cap b o = Some e → mcls e = CUsed k →
    home k ≤ o ∧ ∀ y e', home k ≤ y < o → s !! pslot cap b y = Some e' →
      nonempty mcls e' ∨ (j ≤ o ∧ i ≤ y < j).

Lemma home_range k : 0 ≤ home k < cap.
Proof. apply Z.mod_pos_bound, pow2_pos, Hcap. Qed.

Lemma pslot_home k d : pslot cap (mix k) d = pslot cap b (home k + d).
Proof.
  unfold pslot, home. f_equal. replace (b + ((mix k - b) mod cap + d)) with ((mix k - b) mod cap + (b + d)) by lia.
  rewrite Zplus_mod_idemp_l. f_equal. lia.
Qed.

Lemma pslot_wrap o : pslot cap b (o + cap) = pslot cap b o.
Proof.
  unfold pslot. f_equal. rewrite Z.add_assoc.
  pose proof (pow2_pos _ Hcap). replace (b + o + cap) with (b + o + 1 * cap) by lia. apply Z_mod_plus_full.
Qed.

Lemma chain_lin s :
  chain mcls s cap → mcls <$> s !! pslot cap b (cap - 1) = Some CEmpty → lin s 0 0.
Proof.
  intros [_ Hl Hp _] HE o e k Ho He K. destruct (Hp _ _ _ He K) as (d & Hd & Ed & Hn).
  pose proof (home_range k) as Hh. pose proof (pow2_pos _ Hcap) as Hpos. rewrite pslot_home in Ed.
  apply fmap_Some in HE as (eE & HE & CE).
  assert (home k + d < cap) as Hlt.
  { destruct (Z.lt_ge_cases (home k + d) cap); [done |]. exfalso.
    apply (Hn (cap - 1 - home k) eE); [lia | | done]. rewrite pslot_home.
    by replace (home k + (cap - 1 - home k)) with (cap - 1) by lia. }
  apply pslot_inj in Ed; [| lia | lia | lia]. split; [lia |]. intros y e' Hy He'. left.
  apply (Hn (y - home k) e'); [lia |]. rewrite pslot_home. by replace (home k + (y - home k)) with y by lia.
Qed.

(** When the walk meets an empty slot, no hole is left on any path. *)
Lemma lin_chain s i j :
  lin s i j → zlen s = cap → ukeys s → i ≤ j → mcls <$> s !! pslot cap b j = Some CEmpty →
  chain mcls s cap.
Proof.
  intros Hlin Hl Hu Hij HE. split; [done | done | | exact Hu]. intros x e k Hx K.
  pose proof (pow2_pos _ Hcap) as Hpos. apply fmap_Some in HE as (eE & HE & CE).
  destruct (pslot_surj cap b x) as (o & Ho & <-).
  { apply lookup_lt_Some in Hx. unfold zlen in Hl. lia. }
  destruct (Hlin o e k Ho Hx K) as [Hh Hn]. pose proof (home_range k). exists (o - home k).
  rewrite pslot_home. replace (home k + (o - home k)) with o by lia. split_and!; [lia | lia | done |].
  intros y e' Hy He'. rewrite pslot_home in He'. destruct (Hn (home k + y) e') as [?|[Hjo Hy']]; [lia | done | done |].
  exfalso. assert (o ≠ j) by (intros ->; rewrite HE in Hx; congruence).
  destruct (Hn j eE) as [Hne|[_ ?]]; [lia | done | by apply Hne | lia].
Qed.

(** Emptying the slot of the deleted key opens the first hole. *)
Lemma lin_clear s i e :
  lin s 0 0 → 0 ≤ i < cap → s !! pslot cap b i = Some e →
  lin (<[pslot cap b i := mslot_clear e]> s) i (i + 1).
Proof.
  intros Hlin Hi Hx o e1 k Ho He K. pose proof (pow2_pos _ Hcap) as Hpos.
  apply list_lookup_insert_Some in He as [(_ & <- & _)|[Hne He]]; [done |].
  destruct (Hlin o e1 k Ho He K) as [Hh Hn]. split; [done |]. intros y e' Hy He'.
  pose proof (home_range k). destruct (decide (y = i)) as [->|Hyi]; [right; lia |].
  apply list_lookup_insert_Some in He' as [(Ei & _)|[_ He']]; [apply pslot_inj in Ei; lia |].
  destruct (Hn y e' Hy He') as [?|?]; [by left | lia].
Qed.

(** Moving the entry at [j] to the first free slot of its path. *)
Lemma lin_move s i j e k v y0 :
  lin s i j → zlen s = cap → 0 ≤ i < j → j < cap - 1 → s !! pslot cap b j = Some e → mcls e = CUsed k →
  home k ≤ y0 ≤ j →
  let s1 := <[pslot cap b j := mslot_clear e]> s in
  (∀ y e', home k ≤ y < y0 → s1 !! pslot cap b y = Some e' → nonempty mcls e') →
  lin (<[pslot cap b y0 := mk_mslot k v true]> s1) i (j + 1).
Proof.
  intros Hlin Hl Hij Hj Hx K Hy0 s1 Hpath o e1 k1 Ho He1 K1. pose proof (pow2_pos _ Hcap) as Hpos.
  pose proof (home_range k) as Hhk. pose proof (home_range k1) as Hhk1.
  apply list_lookup_insert_Some in He1 as [(Ei & <- & _)|[Hne He1]].
  - apply pslot_inj in Ei; [| lia..]. subst o. injection K1 as <-. split; [lia |].
    intros y e' Hy He'. left. apply list_lookup_insert_Some in He' as [(Ei & _)|[_ He']]; [apply pslot_inj in Ei; lia |].
    by apply (Hpath y).
  - apply list_lookup_insert_Some in He1 as [(_ & <- & _)|[Hnj He1]]; [done |].
    destruct (Hlin o e1 k1 Ho He1 K1) as [Hh Hn]. split; [done |]. intros y e' Hy He'.
    assert (o ≠ j) by (intros ->; done).
    apply list_lookup_insert_Some in He' as [(_ & <- & _)|[_ He']]; [by left |].
    destruct (decide (y = j)) as [->|Hyj]; [right; lia |].
    apply list_lookup_insert_Some in He' as [(Ei & _)|[_ He']]; [apply pslot_inj in Ei; lia |].
    destruct (Hn y e' Hy He') as [?|?]; [by left | right; lia].
Qed.
End Lin.

(** The state of [umap_del]'s loop at offset [j], representing [g]. *)
Record walking (cap b i j : Z) (m : umap) (g : gmap Z Z) : Prop := {
  wk_cap : um_cap m = cap;
  wk_len : zlen (um_s m) = cap;
  wk_keys : ukeys (um_s m);
  wk_lin : lin cap b (um_s m) i j;
  wk_end : mcls <$> um_s m !! pslot cap b (cap - 1) = Some CEmpty;
  wk_count : um_count m = cnt ms_used (um_s m);
  wk_load : um_count m * 4 < cap * 3;
  wk_map : ∀ k v, g !! k = Some v ↔ holds (um_s m) k v;
}.

Lemma ukeys_clear s j e : ukeys s → s !! j = Some e → ukeys (<[j := mslot_clear e]> s).
Proof.
  intros Hu Hj x x' a a' k Hx Hx' K K'.
  apply list_lookup_insert_Some in Hx as [(_ & <- & _)|[_ Hx]]; [done |].
  apply list_lookup_insert_Some in Hx' as [(_ & <- & _)|[_ Hx']]; [done |]. by eapply Hu.
Qed.

Lemma ukeys_put s j k v : ukeys s → ¬ has_key mcls s k → ukeys (<[j := mk_mslot k v true]> s).
Proof.
  intros Hu Hk x x' a a' k' Hx Hx' K K'.
  apply list_lookup_insert_Some in Hx as [(<- & <- & _)|[N Hx]];
    apply list_lookup_insert_Some in Hx' as [(<- & <- & _)|[N' Hx']]; [done | | | by eapply Hu].
  - injection K as <-. destruct Hk. by exists x', a'.
  - injection K' as <-. destruct Hk. by exists x, a.
Qed.

(** One iteration of the loop. *)
Lemma udel_step cap b i j m g e :
  pow2 cap → walking cap b i j m g → 0 ≤ i < j → j < cap - 1 →
  um_s m !! pslot cap b j = Some e → ms_used e = true →
  ∃ m', umap_put [] (mk_umap (<[pslot cap b j := mslot_clear e]> (um_s m)) (um_cap m) (um_count m - 1))
          (ms_k e) (ms_v e) = ([], Some m') ∧ walking cap b i (j + 1) m' g ∧ um_count m' = um_count m.
Proof.
  intros Hc [Ecap Hl Hu Hlin HE Hco Hld Hg] Hij Hj Hx U. pose proof (pow2_pos _ Hc) as Hpos.
  assert (mcls e = CUsed (ms_k e)) as K by by apply mcls_used. set (k := ms_k e) in *.
  set (s1 := <[pslot cap b j := mslot_clear e]> (um_s m)).
  pose proof (lookup_lt_Some _ _ _ Hx) as Hlt. pose proof (home_range cap b Hc k) as Hhk.
  destruct (Hlin j e k ltac:(lia) Hx K) as [Hhj _].
  assert (∀ k' v', holds s1 k' v' ↔ k' ≠ k ∧ holds (um_s m) k' v') as H1
    by (intros; by apply holds_clear).
  assert (¬ has_key mcls s1 k) as Habs by (intros (v & Hv%H1)%has_holds; naive_solver).
  assert (zlen s1 = cap) as Hl1 by (unfold zlen, s1 in *; by rewrite length_insert).
  assert (cnt ms_used s1 = cnt ms_used (um_s m) - 1) as Hc1
    by (unfold s1; rewrite (cnt_insert _ _ _ _ _ Hx), U; cbn; lia).
  destruct (scan_absent s1 cap k Hc Hl1 (j - home cap b k)) as (d & Hd & Es & Hem & Hpath); [done | lia | |].
  { rewrite (pslot_home cap b). replace (home cap b k + (j - home cap b k)) with j by lia.
    unfold s1. by rewrite list_lookup_insert_eq by done. }
  pose proof Hem as Hem'. rewrite (pslot_home cap b) in Hem'. set (y0 := home cap b k + d) in *.
  apply fmap_Some in Hem' as (e0 & He0 & Ce0). symmetry in Ce0. pose proof Ce0 as U0. rewrite mcls_empty in U0.
  unfold umap_put. cbn [um_count um_cap]. rewrite Ecap, Z.geb_leb.
  destruct (Z.leb_spec (cap * 3) ((um_count m - 1 + 1) * 4)); [lia |].
  unfold uput_store. cbn [um_count um_cap um_s]. fold s1.
  destruct (Z.eqb_spec cap 0); [lia |]. cbv zeta. rewrite umix_home, uput_slot_scan, Es by done.
  cbn [fmap option_fmap option_map fst]. rewrite (pslot_home cap b). fold y0. rewrite He0.
  cbn [fmap option_fmap option_map]. rewrite U0, bool_decide_false by done.
  eexists. split; [done |]. assert (ukeys s1) as Hu1 by by apply ukeys_clear. split; [| cbn; lia].
  split; cbn [um_s um_cap um_count]; [done | unfold zlen in *; by rewrite length_insert | by apply ukeys_put | | | | lia |].
  - apply lin_move; try done; [lia |]. intros y e' Hy He'. apply (Hpath (y - home cap b k) e'); [lia |].
    rewrite (pslot_home cap b). by replace (home cap b k + (y - home cap b k)) with y by lia.
  - unfold s1. rewrite !list_lookup_insert_ne; [done | |]; intros Ei; apply pslot_inj in Ei; lia.
  - rewrite (cnt_insert _ _ _ _ _ He0), U0, Hc1. cbn. lia.
  - intros k' v'. rewrite (holds_put s1 _ e0), H1, Hg by (done || (left; done)).
    split; [| intros [[-> ->]|[_ [_ ?]]]; [by exists (pslot cap b j), e | done]].
    intros Hh. destruct (decide (k' = k)) as [->|]; [left | by right]. split; [done |].
    destruct Hh as (x & a & Ha & Ka & <-). pose proof (Hu _ _ _ _ _ Ha Hx Ka K) as ->. by simplify_eq.
Qed.

(** The loop stops, with a chained table again. *)
Lemma udel_loop_total n cap b i j m g :
  pow2 cap → walking cap b i j m g → 0 ≤ i < j → j ≤ cap - 1 → cap - j ≤ Z.of_nat n →
  ∃ m', udel_loop [] m (cap - 1) ((b + j) mod cap) n = ([], Some m') ∧ represents m' g ∧ um_count m' = um_count m.
Proof.
  intros Hc. revert j m. induction n as [|n IH]; intros j m Hwk Hij Hj Hn; [lia |].
  pose proof (pow2_pos _ Hc) as Hpos. cbn [udel_loop]. fold (pslot cap b j).
  destruct (pslot_lookup (um_s m) cap b Hpos (wk_len _ _ _ _ _ _ Hwk) j) as [e He]. rewrite He.
  destruct (ms_used e) eqn:U; cbn [negb].
  - assert (j ≠ cap - 1) as Hne.
    { intros ->. pose proof (wk_end _ _ _ _ _ _ Hwk) as HE. rewrite He in HE. simpl in HE.
      injection HE as HE. apply mcls_empty in HE. congruence. }
    destruct (udel_step cap b i j m g e) as (m' & -> & Hwk' & Ec); try done; [lia |].
    rewrite probe_next by done. rewrite <- Ec. apply IH; [done | lia..].
  - exists m. split; [done |]. split; [| done]. destruct Hwk as [Ecap Hl Hu Hlin HE Hco Hld Hg]. split; [| done].
    split; rewrite ?Ecap; [lia | intros _ | done | done].
    eapply lin_chain; try done; [lia |]. rewrite He. simpl. f_equal. by apply mcls_empty.
Qed.

(** Clearing the slot of a stored key starts the walk. *)
Lemma walking_start m g k v :
  represents m g → g !! k = Some v →
  let cap := um_cap m in
  ∃ x e b i, chain mcls (um_s m) cap ∧ 0 ≤ i < cap - 1 ∧ um_s m !! x = Some e ∧ mcls e = CUsed k ∧
    Z.land (Z.of_nat x + 1) (cap - 1) = (b + (i + 1)) mod cap ∧
    walking cap b i (i + 1) (mk_umap (<[x := mslot_clear e]> (um_s m)) cap (um_count m - 1)) (delete k g).
Proof.
  intros [Hw Hg] Hk cap. apply Hg in Hk as (x & e & Hx & K & _).
  assert (cap ≠ 0) as E. { intros E. destruct (uw_empty m Hw E) as [Hs _]. by rewrite Hs, lookup_nil in Hx. }
  pose proof (uw_chain m Hw E) as Hch. pose proof (uw_load m Hw E) as Hld. pose proof (uw_count m Hw) as Hco.
  fold cap in Hch, Hld. pose proof (chain_cap _ _ _ Hch) as Hc. pose proof (chain_len _ _ _ Hch) as Hl.
  pose proof (pow2_pos _ Hc) as Hpos. pose proof (cnt_nonneg ms_used (um_s m)).
  destruct (empty_exists (um_s m)) as [jE HE]; [lia |]. set (b := Z.of_nat jE + 1).
  assert (∃ i, 0 ≤ i < cap ∧ pslot cap b i = x) as (i & Hi & Ei).
  { apply pslot_surj. apply lookup_lt_Some in Hx. unfold zlen in Hl. lia. }
  assert (pslot cap b (cap - 1) = jE) as EE.
  { subst b. unfold pslot. apply fmap_Some in HE as (eE & HE & _). apply lookup_lt_Some in HE.
    replace (Z.of_nat jE + 1 + (cap - 1)) with (Z.of_nat jE + 1 * cap) by lia.
    unfold zlen in Hl. rewrite Z_mod_plus_full, Z.mod_small by lia. lia. }
  pose proof HE as HE'. rewrite <- EE in HE'. apply fmap_Some in HE as (eE & HE & CE).
  assert (i ≠ cap - 1) as Hne by (intros ->; rewrite EE in Ei; subst x; rewrite HE in Hx; congruence).
  exists x, e, b, i. split_and!; [done | lia | lia | done | done | |].
  { rewrite <- Ei. unfold pslot. rewrite Z2Nat.id by (apply Z.mod_pos_bound; lia). by apply probe_next. }
  pose proof K as U. apply mcls_used in U as [U _]. subst x.
  split; cbn [um_s um_cap um_count]; [done | unfold zlen in *; by rewrite length_insert | by eauto using ukeys_clear | | | | lia |].
  - apply lin_clear; try done. by apply chain_lin.
  - rewrite list_lookup_insert_ne; [done |]. intros Ej. apply pslot_inj in Ej; lia.
  - rewrite (cnt_insert _ _ _ _ _ Hx), U. cbn. lia.
  - intros k' v'. rewrite lookup_delete_Some, Hg, (holds_clear _ _ _ k) by (done || by eauto). naive_solver.
Qed.

(** While the allocator succeeds, [umap_del] returns and is map deletion. *)
Lemma umap_del_total m g k :
  represents m g →
  ∃ m', umap_del [] m k = ([], Some m') ∧ represents m' (delete k g) ∧
        (is_Some (g !! k) → um_count m' = um_count m - 1).
Proof.
  intros Hr. pose proof Hr as [Hw Hg]. unfold umap_del. destruct (Z.eqb_spec (um_cap m) 0) as [E|E].
  { exists m. split; [done |]. destruct (uw_empty m Hw E) as [Hs _].
    assert (∀ k v, ¬ holds (um_s m) k v) as Hno by (rewrite Hs; intros k' v' (j & e & Hj & _); by rewrite lookup_nil in Hj).
    split; [| intros [v Hv%Hg]; by apply Hno in Hv]. split; [done |].
    intros k' v'. rewrite lookup_delete_Some, Hg. naive_solver. }
  cbv zeta. destruct (g !! k) as [v|] eqn:G.
  - destruct (walking_start m g k v Hr G) as (x & e & b & i & Hch & Hi & Hx & K & El & Hwk).
    pose proof (chain_cap _ _ _ Hch) as Hc. pose proof (chain_len _ _ _ Hch) as Hl.
    rewrite umix_home by done. rewrite (udel_find_scan _ _ _ Hc Hl _ _ _ x true) by (by eapply scan_present).
    rewrite Nat2Z.id, (list_alter_insert _ _ _ _ Hx), El.
    destruct (udel_loop_total (S (Z.to_nat (um_cap m))) (um_cap m) b i (i + 1)
      (mk_umap (<[x := mslot_clear e]> (um_s m)) (um_cap m) (um_count m - 1)) (delete k g))
      as (m' & El' & Hr' & Ec); [done | done | lia | lia | lia |]. exists m'. cbn [um_count] in Ec. by split_and!.
  - pose proof (uw_chain m Hw E) as Hch. pose proof (uw_load m Hw E). pose proof (uw_count m Hw).
    pose proof (cnt_nonneg ms_used (um_s m)).
    pose proof (chain_cap _ _ _ Hch) as Hc. pose proof (chain_len _ _ _ Hch) as Hl. rewrite umix_home by done.
    assert (¬ has_key mcls (um_s m) k) as Habs by (intros (v0 & Hv%Hg)%has_holds; congruence).
    destruct (empty_exists (um_s m)) as [jE HE]; [lia |].
    destruct (empty_on_path (um_s m) (um_cap m) (mix k) jE Hl HE) as (d0 & Hd0 & Ed0). rewrite <- Ed0 in HE.
    destruct (scan_absent (um_s m) (um_cap m) k Hc Hl d0 Habs Hd0 HE) as (d & _ & Es & _).
    rewrite (udel_find_scan _ _ _ Hc Hl _ _ _ _ _ Es). exists m. split; [done |].
    split; [| by intros []]. split; [done |].
    intros k' v'. rewrite lookup_delete_Some, Hg, (holds_fresh _ _ k' v' Habs).
    split; [by intros [_ ?] |]. intros [? ?]. by split_and!.
Qed.

Lemma umap_zero_represents : represents umap_zero ∅.
Proof.
  split.
  - split; cbn; try done.
  - intros k v. split; [by rewrite lookup_empty |]. intros (j & e & Hj & _). by destruct j.
Qed.

(** ** Theorems *)

(** The operations the router performs on a map, and their effect on it. *)
Inductive umap_op := UPut (k v : Z) | UDel (k : Z).

Definition umap_run (m : umap) (o : umap_op) : option umap :=
  match o with
  | UPut k v => (umap_put [] m k v).2
  | UDel k => (umap_del [] m k).2
  end.

Definition gmap_run (g : gmap Z Z) (o : umap_op) : gmap Z Z :=
  match o with UPut k v => <[k := v]> g | UDel k => delete k g end.

Lemma umap_run_represents m g o :
  represents m g → ∃ m', umap_run m o = Some m' ∧ represents m' (gmap_run g o).
Proof.
  intros Hr. destruct o as [k v|k]; cbn [umap_run gmap_run].
  - destruct (umap_put_total m g k v Hr) as (m' & -> & ? & _). by exists m'.
  - destruct (umap_del_total m g k Hr) as (m' & -> & ? & _). by exists m'.
Qed.

(** The route map refines a finite map.  Starting from the zeroed struct,
    any sequence of [umap_put] and [umap_del] calls returns (no probe loop, no
    rehash and no cluster repair after a deletion runs forever), and every
    later [umap_get] answers as the finite map does: growth and the re-insertion
    of a cluster lose and duplicate nothing. *)
Theorem umap_refines ops :
  ∃ m, foldl (fun o op => m ← o; umap_run m op) (Some umap_zero) ops = Some m ∧
       ∀ k, umap_get m k = foldl gmap_run ∅ ops !! k.
Proof.
  assert (∀ m g, represents m g → ∃ m',
    foldl (fun o op => m ← o; umap_run m op) (Some m) ops = Some m' ∧ represents m' (foldl gmap_run g ops)) as H.
  { induction ops as [|o ops IH]; intros m g Hr; cbn [foldl mbind option_bind]; [by exists m |].
    destruct (umap_run_represents m g o Hr) as (m1 & -> & Hr1). by apply IH. }
  destruct (H umap_zero ∅ umap_zero_represents) as (m & E & Hw & Hg). exists m. split; [done |].
  intros k. apply option_eq. intros v. by rewrite umap_get_spec, Hg.
Qed.

(** When the allocator refuses the first table, [umap_put] has no defined
    result: [umap_grow] returns without reporting it and the NULL table is
    dereferenced. *)
Lemma umap_put_oom k v : umap_put [false] umap_zero k v = ([], None).
Proof. done. Qed.
