(* ===== verification/Router.v ===== *)
(** The edge-peer router, edge-peer/router.c: a pool of upstream edge tunnels
    and a pool of worker tunnels, each a session of libmux, and the routes that
    splice an edge's stream to a worker's.

    A [conn_t *] is a side and an index into its pool, a [route *] an address
    in [e_rt]; both are shared, so operations pass the whole [ep_state].  [R]
    is the monad of Host over it.  Logging is not modelled; the
    NULL-handle answers of the mux API are the default of [call]. *)

From stdpp Require Import base list numbers gmap.
From Stdlib Require Import ZArith Lia.
From S2P Require Import Prelude Frame OutBuf EventQueue Probe StreamTable Session Auth Host Fifo Umap.

(** ** State *)

Record ep_config := mk_ep_config {
  ec_token : view;
  ec_peer_id : view;
  ec_init_window : Z;
  ec_session_window : Z;
  ec_heartbeat_ms : Z;
}.

Record conn_t := mk_conn {
  cn_fd : Z;
  cn_connecting : bool;
  cn_mux : option mux_session;
  cn_ready : bool;
  cn_recv : bytes;
  cn_next_attempt : Z;
  cn_is_worker : bool;
  cn_weight : Z;
  cn_swrr_cw : Z;
  cn_inflight : Z;
  cn_routes : umap;
  cn_is_edge : bool;
  cn_nonce : bytes;
  cn_proof : bytes;
}.

Record route := mk_route {
  r_edge_idx : Z;
  r_up_sid : Z;
  r_worker_idx : Z;
  r_down_sid : Z;
  r_u2w : buf_t;
  r_w2u : buf_t;
  r_up_fin : bool;
  r_down_fin : bool;
  r_gone : bool;
}.

(** What the theorems observe besides the state: descriptors dialed and closed,
    and the streams asked of a worker's session. *)
Inductive ep_effect :=
  | EP_DIALED (fd : Z)
  | EP_CLOSED (fd : Z)
  | EP_OPENING (widx : Z).

Record ep_state := mk_ep {
  e_cfg : ep_config;
  e_edges : list conn_t;
  e_wk : list conn_t;
  e_rt : gmap Z route;
  e_brk : Z;
  e_heap : heap;
  e_log : list ep_effect;
}.

Definition eta_conn (c : conn_t) : conn_t :=
  mk_conn (cn_fd c) (cn_connecting c) (cn_mux c) (cn_ready c) (cn_recv c) (cn_next_attempt c)
    (cn_is_worker c) (cn_weight c) (cn_swrr_cw c) (cn_inflight c) (cn_routes c) (cn_is_edge c)
    (cn_nonce c) (cn_proof c).

Definition eta_route (r : route) : route :=
  mk_route (r_edge_idx r) (r_up_sid r) (r_worker_idx r) (r_down_sid r) (r_u2w r) (r_w2u r)
    (r_up_fin r) (r_down_fin r) (r_gone r).

Definition eta_ep (e : ep_state) : ep_state :=
  mk_ep (e_cfg e) (e_edges e) (e_wk e) (e_rt e) (e_brk e) (e_heap e) (e_log e).

#[export] Instance upd_cn_fd : Update cn_fd.
Proof. derive_update eta_conn cn_fd. Defined.
#[export] Instance upd_cn_connecting : Update cn_connecting.
Proof. derive_update eta_conn cn_connecting. Defined.
#[export] Instance upd_cn_mux : Update cn_mux.
Proof. derive_update eta_conn cn_mux. Defined.
#[export] Instance upd_cn_ready : Update cn_ready.
Proof. derive_update eta_conn cn_ready. Defined.
#[export] Instance upd_cn_recv : Update cn_recv.
Proof. derive_update eta_conn cn_recv. Defined.
#[export] Instance upd_cn_next_attempt : Update cn_next_attempt.
Proof. derive_update eta_conn cn_next_attempt. Defined.
#[export] Instance upd_cn_weight : Update cn_weight.
Proof. derive_update eta_conn cn_weight. Defined.
#[export] Instance upd_cn_swrr_cw : Update cn_swrr_cw.
Proof. derive_update eta_conn cn_swrr_cw. Defined.
#[export] Instance upd_cn_inflight : Update cn_inflight.
Proof. derive_update eta_conn cn_inflight. Defined.
#[export] Instance upd_cn_routes : Update cn_routes.
Proof. derive_update eta_conn cn_routes. Defined.
#[export] Instance upd_cn_nonce : Update cn_nonce.
Proof. derive_update eta_conn cn_nonce. Defined.
#[export] Instance upd_cn_proof : Update cn_proof.
Proof. derive_update eta_conn cn_proof. Defined.
#[export] Instance upd_r_u2w : Update r_u2w.
Proof. derive_update eta_route r_u2w. Defined.
#[export] Instance upd_r_w2u : Update r_w2u.
Proof. derive_update eta_route r_w2u. Defined.
#[export] Instance upd_r_up_fin : Update r_up_fin.
Proof. derive_update eta_route r_up_fin. Defined.
#[export] Instance upd_r_down_fin : Update r_down_fin.
Proof. derive_update eta_route r_down_fin. Defined.
#[export] Instance upd_r_gone : Update r_gone.
Proof. derive_update eta_route r_gone. Defined.
#[export] Instance upd_e_edges : Update e_edges.
Proof. derive_update eta_ep e_edges. Defined.
#[export] Instance upd_e_wk : Update e_wk.
Proof. derive_update eta_ep e_wk. Defined.
#[export] Instance upd_e_rt : Update e_rt.
Proof. derive_update eta_ep e_rt. Defined.
#[export] Instance upd_e_brk : Update e_brk.
Proof. derive_update eta_ep e_brk. Defined.
#[export] Instance upd_e_heap : Update e_heap.
Proof. derive_update eta_ep e_heap. Defined.
#[export] Instance upd_e_log : Update e_log.
Proof. derive_update eta_ep e_log. Defined.

(** ** The monad and the accessors *)

Abbreviation R := (ST ep_state).

Inductive side := EDGE | WORKER.

Definition pool (sd : side) (e : ep_state) : list conn_t :=
  match sd with EDGE => e_edges e | WORKER => e_wk e end.

Definition set_pool (sd : side) (l : list conn_t) (e : ep_state) : ep_state :=
  match sd with EDGE => e <| e_edges := l |> | WORKER => e <| e_wk := l |> end.

(** [0 <= idx && idx < n] of a pool. *)
Definition in_pool (sd : side) (i : Z) (e : ep_state) : bool :=
  (0 <=? i) && (i <? zlen (pool sd e)).

Definition conn (sd : side) (i : Z) : R conn_t := fun e =>
  if in_pool sd i e then (fun c => (c, e)) <$> pool sd e !! Z.to_nat i else None.

Definition set_conn (sd : side) (i : Z) (c : conn_t) : R unit :=
  modify (fun e => set_pool sd (<[Z.to_nat i := c]> (pool sd e)) e).

(** A mux API call on the session of a tunnel: [dflt] is its answer to NULL. *)
Definition call {A} (sd : side) (i : Z) (dflt : A) (f : mux_session -> A * mux_session) : R A :=
  c ← conn sd i;
  match cn_mux c with
  | None => mret dflt
  | Some s => let '(a, s) := f s in set_conn sd i (c <| cn_mux := Some s |>);; mret a
  end.

Definition has_mux (c : conn_t) : bool := match cn_mux c with Some _ => true | None => false end.

Definition note (x : ep_effect) : R unit := modify (fun e => e <| e_log ::= fun l => l ++ [x] |>).

(** [*r] and [r->f = ...]. *)
Definition deref (p : Z) : R route := fun e => (fun r => (r, e)) <$> e_rt e !! p.
Definition store (p : Z) (r : route) : R unit := modify (fun e => e <| e_rt ::= <[p := r]> |>).

Definition routes_put (sd : side) (i k p : Z) : R unit :=
  c ← conn sd i;
  h ← gets e_heap;
  let '(h, o) := umap_put h (cn_routes c) k p in
  match o with
  | None => undef
  | Some m => modify (fun e => e <| e_heap := h |>);; set_conn sd i (c <| cn_routes := m |>)
  end.

Definition routes_del (sd : side) (i k : Z) : R unit :=
  c ← conn sd i;
  h ← gets e_heap;
  let '(h, o) := umap_del h (cn_routes c) k in
  match o with
  | None => undef
  | Some m => modify (fun e => e <| e_heap := h |>);; set_conn sd i (c <| cn_routes := m |>)
  end.

(** ** Authentication *)

Definition auth_proof (k : stack) (token nonce : bytes) : bytes :=
  mux_auth_proof (sk_key k) (sk_ctx k) (sk_msg k) token (zlen token) nonce (zlen nonce).

(** [rnd] is what [os_random] delivers. *)
Definition conn_build_cfg (k : stack) (rnd : bytes) (cfg : ep_config) (c : conn_t)
  : conn_t * mux_config :=
  let hb := if negb (ec_heartbeat_ms cfg =? 0) then ec_heartbeat_ms cfg else 15000 in
  let pid_len := zlen (vbytes (ec_peer_id cfg)) in
  match ec_token cfg with
  | None =>
      (c, mk_config (ec_init_window cfg) (ec_session_window cfg) 0 hb 0 1 0
            (ec_peer_id cfg) pid_len None 0 None 0)
  | Some token =>
      let c := c <| cn_nonce := rnd |> in
      let c := c <| cn_proof := auth_proof k token (cn_nonce c) |> in
      (c, mk_config (ec_init_window cfg) (ec_session_window cfg) 0 hb 0 1 0
            (ec_peer_id cfg) pid_len (Some (cn_proof c)) 32 (Some (cn_nonce c)) 16)
  end.

Definition check_auth (k : stack) (cfg : ep_config) (h : hello_ev) : bool :=
  match ec_token cfg with
  | None => true
  | Some token =>
      let expect := mux_auth_proof (sk_key k) (sk_ctx k) (sk_msg k) token (zlen token)
                      (vbytes (h_nonce h)) (h_nonce_len h) in
      (h_auth_len h =? 32) && ct_equal expect (vbytes (h_auth h)) 32
  end.

(** ** Smooth weighted round robin *)

(** The loop of [pick_worker] from index [i]: the workers with their new
    current weights, the total, and the best index with its weight. *)
Fixpoint swrr_loop (ws : list conn_t) (i total best bestcw : Z) : list conn_t * Z * Z :=
  match ws with
  | [] => ([], total, best)
  | w :: ws =>
      if negb (cn_ready w) || (cn_weight w =? 0) then
        let '(ws, total, best) := swrr_loop ws (i + 1) total best bestcw in (w :: ws, total, best)
      else
        let w := w <| cn_swrr_cw ::= fun x => x + cn_weight w |> in
        let total := total + cn_weight w in
        let '(best, bestcw) :=
          if (best <? 0) || (cn_swrr_cw w >? bestcw) then (i, cn_swrr_cw w) else (best, bestcw) in
        let '(ws, total, best) := swrr_loop ws (i + 1) total best bestcw in (w :: ws, total, best)
  end.

Definition pick_worker_in (wk : list conn_t) : Z * list conn_t :=
  let '(wk, total, best) := swrr_loop wk 0 0 (-1) 0 in
  (best, if best >=? 0 then alter (fun w => w <| cn_swrr_cw ::= fun x => x - total |>) (Z.to_nat best) wk
         else wk).

Definition pick_worker : R Z := fun e =>
  let '(best, wk) := pick_worker_in (e_wk e) in Some (best, e <| e_wk := wk |>).

(** ** Routes *)

Definition route_new (eidx up_sid widx down_sid : Z) : R (option Z) :=
  h ← gets e_heap;
  let '(ok, h) := alloc h in
  modify (fun e => e <| e_heap := h |>);;
  if negb ok then mret None else
  p ← gets e_brk;
  modify (fun e => e <| e_brk := p + 1 |>);;
  store p (mk_route eidx up_sid widx down_sid buf_zero buf_zero false false false);;
  routes_put EDGE eidx up_sid p;;
  routes_put WORKER widx down_sid p;;
  w ← conn WORKER widx;
  set_conn WORKER widx (w <| cn_inflight := u32 (cn_inflight w + 1) |>);;
  mret (Some p).

Definition route_free (p : Z) : R unit :=
  r ← deref p;
  ie ← gets (in_pool EDGE (r_edge_idx r));
  when_ ie (routes_del EDGE (r_edge_idx r) (r_up_sid r));;
  iw ← gets (in_pool WORKER (r_worker_idx r));
  when_ iw
    (routes_del WORKER (r_worker_idx r) (r_down_sid r);;
     w ← conn WORKER (r_worker_idx r);
     when_ (negb (cn_inflight w =? 0))
       (set_conn WORKER (r_worker_idx r) (w <| cn_inflight := cn_inflight w - 1 |>)));;
  modify (fun e => e <| e_rt ::= delete p |>).

(** Which pending buffer of a route: [&r->u2w] or [&r->w2u]. *)
Inductive dir := U2W | W2U.

Definition get_pend (d : dir) (r : route) : buf_t := match d with U2W => r_u2w r | W2U => r_w2u r end.
Definition set_pend (d : dir) (b : buf_t) (r : route) : route :=
  match d with U2W => r <| r_u2w := b |> | W2U => r <| r_w2u := b |> end.

Definition pend_append (p : Z) (d : dir) (data : bytes) (n : Z) : R unit :=
  r ← deref p;
  h ← gets e_heap;
  let '(_, h, b) := buf_append h (get_pend d r) data n in
  modify (fun e => e <| e_heap := h |>);; store p (set_pend d b r).

Definition fwd (ssd : side) (si ssid : Z) (dsd : side) (di dsid : Z) (p : Z) (d : dir)
  (data : view) (len : Z) : R unit :=
  r ← deref p;
  if buf_avail (get_pend d r) >? 0 then pend_append p d (vbytes data) len else
  w ← call dsd di MUX_ERR_PARAM (fun s => mux_write s dsid data len);
  when_ (w >? 0) (call ssd si MUX_ERR_PARAM (fun s => mux_consume s ssid w);; mret tt);;
  let w := if w <? 0 then 0 else w in
  when_ (w <? len) (pend_append p d (zdrop w (vbytes data)) (len - w)).

(** The loop of [flush_pend]; an iteration removes at least one byte. *)
Fixpoint flush_loop (fuel : nat) (ssd : side) (si ssid : Z) (dsd : side) (di dsid : Z)
  (p : Z) (d : dir) : R unit :=
  match fuel with
  | O => undef
  | S fuel =>
      r ← deref p;
      let pend := get_pend d r in
      if buf_avail pend >? 0 then
        w ← call dsd di MUX_ERR_PARAM (fun s => mux_write s dsid (Some (buf_ptr pend)) (buf_avail pend));
        if w <=? 0 then mret tt else
        call ssd si MUX_ERR_PARAM (fun s => mux_consume s ssid w);;
        store p (set_pend d (buf_drop pend w) r);;
        flush_loop fuel ssd si ssid dsd di dsid p d
      else mret tt
  end.

Definition flush_pend (ssd : side) (si ssid : Z) (dsd : side) (di dsid : Z) (p : Z) (d : dir) : R unit :=
  r ← deref p;
  flush_loop (S (Z.to_nat (buf_avail (get_pend d r)))) ssd si ssid dsd di dsid p d.

Definition route_kill (p : Z) (rst_up rst_down : bool) : R unit :=
  r ← deref p;
  if r_gone r then mret tt else
  store p (r <| r_gone := true |>);;
  ie ← gets (in_pool EDGE (r_edge_idx r));
  when_ (rst_up && ie)
    (call EDGE (r_edge_idx r) MUX_ERR_PARAM (fun s => mux_reset s (r_up_sid r) MUX_CODE_INTERNAL);; mret tt);;
  when_ (rst_down && (0 <=? r_worker_idx r))
    (call WORKER (r_worker_idx r) MUX_ERR_PARAM (fun s => mux_reset s (r_down_sid r) MUX_CODE_INTERNAL);; mret tt);;
  route_free p.

(** ** Event handling *)

(** One event of an edge's session: the switch of [on_up_events]. *)
Definition on_up_event (k : stack) (eidx : Z) (ev : mux_event) : R unit :=
  match ev with
  | EV_PEER_HELLO h =>
      cfg ← gets e_cfg;
      if negb (check_auth k cfg h)
      then call EDGE eidx MUX_ERR_PARAM (fun s => mux_goaway s MUX_CODE_REFUSED);; mret tt
      else ed ← conn EDGE eidx; set_conn EDGE eidx (ed <| cn_ready := true |>)
  | EV_STREAM_OPENED sid meta meta_len =>
      widx ← pick_worker;
      if widx <? 0
      then call EDGE eidx MUX_ERR_PARAM (fun s => mux_reset s sid MUX_CODE_REFUSED);; mret tt else
      note (EP_OPENING widx);;
      ds ← call WORKER widx MUX_ERR_PARAM (fun s => mux_open s meta meta_len);
      if ds <? 0
      then call EDGE eidx MUX_ERR_PARAM (fun s => mux_reset s sid MUX_CODE_REFUSED);; mret tt else
      r ← route_new eidx sid widx (u32 ds);
      match r with
      | Some _ => mret tt
      | None =>
          call EDGE eidx MUX_ERR_PARAM (fun s => mux_reset s sid MUX_CODE_INTERNAL);;
          call WORKER widx MUX_ERR_PARAM (fun s => mux_reset s (u32 ds) MUX_CODE_INTERNAL);; mret tt
      end
  | EV_STREAM_DATA sid data data_len =>
      ed ← conn EDGE eidx;
      match umap_get (cn_routes ed) sid with
      | None => mret tt
      | Some p =>
          r ← deref p;
          if r_worker_idx r <? 0 then mret tt else
          fwd EDGE eidx (r_up_sid r) WORKER (r_worker_idx r) (r_down_sid r) p U2W data data_len
      end
  | EV_WRITABLE sid =>
      ed ← conn EDGE eidx;
      match umap_get (cn_routes ed) sid with
      | None => mret tt
      | Some p =>
          r ← deref p;
          when_ (0 <=? r_worker_idx r)
            (flush_pend WORKER (r_worker_idx r) (r_down_sid r) EDGE eidx (r_up_sid r) p W2U)
      end
  | EV_STREAM_CLOSED sid =>
      ed ← conn EDGE eidx;
      match umap_get (cn_routes ed) sid with
      | None => mret tt
      | Some p =>
          r ← deref p;
          if r_worker_idx r <? 0 then mret tt else
          flush_pend EDGE eidx (r_up_sid r) WORKER (r_worker_idx r) (r_down_sid r) p U2W;;
          call WORKER (r_worker_idx r) MUX_ERR_PARAM (fun s => mux_close s (r_down_sid r));;
          r ← deref p;
          store p (r <| r_up_fin := true |>);;
          when_ (r_down_fin r) (route_free p)
      end
  | EV_STREAM_RESET sid _ =>
      ed ← conn EDGE eidx;
      match umap_get (cn_routes ed) sid with
      | None => mret tt
      | Some p => route_kill p false true
      end
  | _ => mret tt
  end.

(** One event of a worker's session: the switch of [on_worker_events]. *)
Definition on_worker_event (k : stack) (widx : Z) (ev : mux_event) : R unit :=
  match ev with
  | EV_PEER_HELLO h =>
      cfg ← gets e_cfg;
      if negb (check_auth k cfg h)
      then call WORKER widx MUX_ERR_PARAM (fun s => mux_goaway s MUX_CODE_REFUSED);; mret tt
      else w ← conn WORKER widx;
           set_conn WORKER widx
             (w <| cn_ready := true |>
                <| cn_weight := if negb (h_weight h =? 0) then h_weight h else 1 |>
                <| cn_swrr_cw := 0 |>)
  | EV_CAPACITY weight =>
      w ← conn WORKER widx; set_conn WORKER widx (w <| cn_weight := weight |>)
  | EV_STREAM_DATA sid data data_len =>
      w ← conn WORKER widx;
      match umap_get (cn_routes w) sid with
      | None => mret tt
      | Some p =>
          r ← deref p;
          ie ← gets (in_pool EDGE (r_edge_idx r));
          if negb ie then mret tt else
          up ← conn EDGE (r_edge_idx r);
          when_ (has_mux up)
            (fwd WORKER widx (r_down_sid r) EDGE (r_edge_idx r) (r_up_sid r) p W2U data data_len)
      end
  | EV_WRITABLE sid =>
      w ← conn WORKER widx;
      match umap_get (cn_routes w) sid with
      | None => mret tt
      | Some p =>
          r ← deref p;
          ie ← gets (in_pool EDGE (r_edge_idx r));
          if negb ie then mret tt else
          up ← conn EDGE (r_edge_idx r);
          when_ (has_mux up)
            (flush_pend EDGE (r_edge_idx r) (r_up_sid r) WORKER widx (r_down_sid r) p U2W)
      end
  | EV_STREAM_CLOSED sid =>
      w ← conn WORKER widx;
      match umap_get (cn_routes w) sid with
      | None => mret tt
      | Some p =>
          r ← deref p;
          ie ← gets (in_pool EDGE (r_edge_idx r));
          if negb ie then mret tt else
          up ← conn EDGE (r_edge_idx r);
          if negb (has_mux up) then mret tt else
          flush_pend WORKER widx (r_down_sid r) EDGE (r_edge_idx r) (r_up_sid r) p W2U;;
          call EDGE (r_edge_idx r) MUX_ERR_PARAM (fun s => mux_close s (r_up_sid r));;
          r ← deref p;
          store p (r <| r_down_fin := true |>);;
          when_ (r_up_fin r) (route_free p)
      end
  | EV_STREAM_RESET sid _ =>
      w ← conn WORKER widx;
      match umap_get (cn_routes w) sid with
      | None => mret tt
      | Some p => route_kill p true false
      end
  | EV_STREAM_OPENED sid _ _ =>
      call WORKER widx MUX_ERR_PARAM (fun s => mux_reset s sid MUX_CODE_REFUSED);; mret tt
  | _ => mret tt
  end.

Definition on_event (k : stack) (sd : side) (i : Z) (ev : mux_event) : R unit :=
  match sd with EDGE => on_up_event k i ev | WORKER => on_worker_event k i ev end.

(** [while (mux_next_event(c->mux, &ev)) ...] *)
Fixpoint events_loop (fuel : nat) (k : stack) (sd : side) (i : Z) : R unit :=
  match fuel with
  | O => undef
  | S fuel =>
      ev ← call sd i None mux_next_event;
      match ev with
      | None => mret tt
      | Some ev => on_event k sd i ev;; events_loop fuel k sd i
      end
  end.

(** The events queued at the start, one that handling them may add (FATAL, at
    most once in the life of a session), and the call that finds none. *)
Definition events_fuel (sd : side) (i : Z) (e : ep_state) : nat :=
  match pool sd e !! Z.to_nat i with
  | Some c => match cn_mux c with Some s => Z.to_nat (q_count (s_q s)) + 2 | None => 1 end
  | None => 1
  end.

Definition on_up_events (k : stack) (eidx : Z) : R unit :=
  n ← gets (events_fuel EDGE eidx); events_loop n k EDGE eidx.

Definition on_worker_events (k : stack) (widx : Z) : R unit :=
  n ← gets (events_fuel WORKER widx); events_loop n k WORKER widx.

(** ** Losing a tunnel *)

(** The first loop of [drop_worker_routes] and [drop_edge_routes]: reset the
    other end of every route of the slots given. *)
Fixpoint reset_peers (sd : side) (slots : list mslot) : R unit :=
  match slots with
  | [] => mret tt
  | sl :: slots =>
      when_ (ms_used sl)
        (r ← deref (ms_v sl);
         let other := match sd with WORKER => EDGE | EDGE => WORKER end in
         let idx := match sd with WORKER => r_edge_idx r | EDGE => r_worker_idx r end in
         let sid := match sd with WORKER => r_up_sid r | EDGE => r_down_sid r end in
         io ← gets (in_pool other idx);
         when_ (negb (r_gone r) && io)
           (call other idx MUX_ERR_PARAM (fun s => mux_reset s sid MUX_CODE_INTERNAL);; mret tt));;
      reset_peers sd slots
  end.

(** The first used slot. *)
Fixpoint first_used (slots : list mslot) : option Z :=
  match slots with
  | [] => None
  | sl :: slots => if ms_used sl then Some (ms_v sl) else first_used slots
  end.

(** The second loop: free the first route until none is left. *)
Fixpoint free_routes (fuel : nat) (sd : side) (i : Z) : R unit :=
  match fuel with
  | O => undef
  | S fuel =>
      c ← conn sd i;
      match first_used (um_s (cn_routes c)) with
      | None => mret tt
      | Some p =>
          r ← deref p;
          store p (r <| r_gone := true |>);;
          route_free p;;
          free_routes fuel sd i
      end
  end.

Definition drop_routes (sd : side) (i : Z) : R unit :=
  c ← conn sd i;
  reset_peers sd (um_s (cn_routes c));;
  free_routes (S (Z.to_nat (um_count (cn_routes c)))) sd i.

Definition drop_worker_routes (widx : Z) : R unit := drop_routes WORKER widx.
Definition drop_edge_routes (eidx : Z) : R unit := drop_routes EDGE eidx.

(** ** Tunnel I/O, over scripted sockets *)

(** Result, the script left and the bytes given to the socket; an exhausted
    script is EAGAIN. *)
Fixpoint conn_flush (ws : list write_res) (sd : side) (i : Z) (sent : bytes)
  : R (Z * list write_res * bytes) :=
  '(b, len) ← call sd i ([], 0) (fun s => (mux_send_buf s, s));
  if negb (len >? 0) then mret (0, ws, sent) else
  match ws with
  | [] => mret (0, [], sent)
  | WROTE w :: ws =>
      if w >? 0 then
        call sd i tt (fun s => (tt, mux_send_advance s w));;
        conn_flush ws sd i (sent ++ ztake w b)
      else mret (-1, ws, sent)
  | WRITE_AGAIN :: ws => mret (0, ws, sent)
  | WRITE_ERROR :: ws => mret (-1, ws, sent)
  end.

Definition RECV_SIZE : Z := 262144.

(** [mux_recv] on the buffered bytes, then the events: its result. *)
Definition conn_pump (k : stack) (sd : side) (i : Z) : R Z :=
  c ← conn sd i;
  cc ← call sd i MUX_ERR_PARAM (fun s => mux_recv s (Some (cn_recv c)) (zlen (cn_recv c)));
  match sd with WORKER => on_worker_events k i | EDGE => on_up_events k i end;;
  mret cc.

(** [c->recv_len -= cc; memmove(c->recv, c->recv + cc, c->recv_len);] *)
Definition conn_keep (sd : side) (i cc : Z) : R unit :=
  c ← conn sd i; set_conn sd i (c <| cn_recv ::= zdrop cc |>).

Fixpoint conn_read (fuel : nat) (k : stack) (sd : side) (i : Z) (rs : list read_res)
  : R (Z * list read_res) :=
  match fuel with
  | O => undef
  | S fuel =>
      c ← conn sd i;
      let space := RECV_SIZE - zlen (cn_recv c) in
      if space =? 0 then
        cc ← conn_pump k sd i;
        if cc <? 0 then mret (-1, rs) else
        if cc >? 0 then conn_keep sd i cc;; conn_read fuel k sd i rs else mret (0, rs)
      else
      match rs with
      | READ bs :: rs =>
          let n := Z.min (zlen bs) space in
          let rs := if n <? zlen bs then READ (zdrop n bs) :: rs else rs in
          if n =? 0 then mret (-1, rs) else
          set_conn sd i (c <| cn_recv ::= fun b => b ++ ztake n bs |>);;
          cc ← conn_pump k sd i;
          if cc <? 0 then mret (-1, rs) else
          when_ (cc >? 0) (conn_keep sd i cc);;
          if n <? space then mret (0, rs) else conn_read fuel k sd i rs
      | READ_EOF :: rs => mret (-1, rs)
      | READ_AGAIN :: rs => mret (0, rs)
      | [] => mret (0, [])
      | READ_ERROR :: rs => mret (-1, rs)
      end
  end.

Definition conn_teardown (now : Z) (sd : side) (i : Z) : R unit :=
  c ← conn sd i;
  (if cn_is_worker c then drop_worker_routes i
   else if cn_is_edge c then drop_edge_routes i else mret tt);;
  c ← conn sd i;
  when_ (cn_fd c >=? 0) (note (EP_CLOSED (cn_fd c)));;
  set_conn sd i (c <| cn_mux := None |> <| cn_fd := -1 |> <| cn_connecting := false |>
                   <| cn_ready := false |> <| cn_recv := [] |> <| cn_inflight := 0 |>
                   <| cn_next_attempt := u64 (now + 500) |>).
