(* ===== verification/Balance.v ===== *)
(** Load balancing: [pick_worker] of edge-peer/router.c is smooth weighted
    round robin.  Over any run of picks with a fixed pool, a worker is never a
    whole pick ahead of its share, and every cycle of as many picks as the sum
    of the weights picks each worker exactly its weight and restores the
    balancing state. *)

From stdpp Require Import base list numbers gmap.
From Stdlib Require Import ZArith Lia.
From S2P Require Import Prelude Frame OutBuf EventQueue Probe StreamTable Session Auth Host Fifo Umap Router.

Definition eligible (w : conn_t) : bool := negb (negb (cn_ready w) || (cn_weight w =? 0)).

(** The weight a worker is balanced with. *)
Definition share (w : conn_t) : Z := if eligible w then cn_weight w else 0.

(** Its current weight, as far as it counts. *)
Definition credit (w : conn_t) : Z := if eligible w then cn_swrr_cw w else 0.

Fixpoint zsum {A} (f : A -> Z) (l : list A) : Z :=
  match l with [] => 0 | x :: l => f x + zsum f l end.

Definition bump (w : conn_t) : conn_t :=
  if eligible w then w <| cn_swrr_cw ::= fun x => x + cn_weight w |> else w.

Lemma zsum_ext {A} (f g : A → Z) l : (∀ x, f x = g x) → zsum f l = zsum g l.
Proof. intros H. induction l as [|x l IH]; cbn; [done |]. by rewrite H, IH. Qed.

Lemma zsum_add {A} (f g : A → Z) l : zsum (fun x => f x + g x) l = zsum f l + zsum g l.
Proof. induction l as [|x l IH]; cbn; lia. Qed.

Lemma zsum_fmap {A B} (f : B → Z) (g : A → B) l : zsum f (g <$> l) = zsum (fun x => f (g x)) l.
Proof. induction l as [|x l IH]; cbn; [done |]. by rewrite IH. Qed.

Lemma zsum_insert {A} (f : A → Z) l j x y :
  l !! j = Some x → zsum f (<[j := y]> l) = zsum f l - f x + f y.
Proof.
  revert j. induction l as [|z l IH]; intros [|j] Hj; simplify_eq/=; [lia |].
  rewrite (IH j) by done. lia.
Qed.

(** A positive sum has a positive term. *)
Lemma zsum_pos {A} (f : A → Z) l : 0 < zsum f l → ∃ j x, l !! j = Some x ∧ 0 < f x.
Proof.
  induction l as [|x l IH]; cbn; [lia |]. intros Hs.
  destruct (Z.lt_ge_cases 0 (f x)); [by exists 0%nat, x |].
  destruct IH as (j & y & ? & ?); [lia |]. by exists (S j), y.
Qed.

(** Terms that are pointwise at most those of an equal sum are equal. *)
Lemma zsum_le_eq {A} (f g : A → Z) l :
  (∀ j x, l !! j = Some x → f x ≤ g x) → zsum f l = zsum g l →
  ∀ j x, l !! j = Some x → f x = g x.
Proof.
  induction l as [|y l IH]; intros Hle Hs j x Hj; [done |]. cbn in Hs.
  assert (zsum f l ≤ zsum g l) as Hl.
  { clear -Hle. assert (∀ j x, l !! j = Some x → f x ≤ g x) as H by (intros j; apply (Hle (S j))).
    clear Hle. induction l as [|z l IH]; cbn; [lia |].
    pose proof (H 0%nat z eq_refl). specialize (IH (fun j => H (S j))). lia. }
  pose proof (Hle 0%nat y eq_refl). destruct j as [|j]; simplify_eq/=; [lia |].
  apply (IH (fun j => Hle (S j)) ltac:(lia) j x Hj).
Qed.

(** ** One pick *)

Lemma share_bump w : share (bump w) = share w.
Proof. unfold share, bump. destruct (eligible w) eqn:E; [| by rewrite E]. unfold eligible in *. cbn. by rewrite E. Qed.

Lemma credit_bump w : credit (bump w) = credit w + share w.
Proof.
  unfold credit, share, bump. destruct (eligible w) eqn:E; [| by rewrite E].
  unfold eligible in *. cbn. by rewrite E.
Qed.

Lemma eligible_bump w : eligible (bump w) = eligible w.
Proof. unfold bump. destruct (eligible w) eqn:E; [| done]. unfold eligible in *. cbn. done. Qed.

(** What the loop finds: the pool with every eligible worker credited, the
    total weight, and an index of maximal credit unless there is none. *)
Lemma swrr_loop_spec ws i total best bestcw :
  0 ≤ i →
  ∃ best', swrr_loop ws i total best bestcw = (bump <$> ws, total + zsum share ws, best') ∧
  ((best' = best ∧ ∀ j w, ws !! j = Some w → eligible w = true → 0 ≤ best ∧ credit (bump w) ≤ bestcw) ∨
   ∃ j w, ws !! j = Some w ∧ eligible w = true ∧ best' = i + Z.of_nat j ∧
          (0 ≤ best → bestcw < credit (bump w)) ∧
          ∀ j' w', ws !! j' = Some w' → eligible w' = true → credit (bump w') ≤ credit (bump w)).
Proof.
  revert i total best bestcw. induction ws as [|w ws IH]; intros i total best bestcw Hi; cbn [swrr_loop].
  { exists best. cbn. rewrite Z.add_0_r. split; [done |]. left. split; [done |]. intros j w Hj. done. }
  rewrite fmap_cons. cbn [zsum].
  assert (eligible w = negb (negb (cn_ready w) || (cn_weight w =? 0))) as Ee by done.
  destruct (negb (cn_ready w) || (cn_weight w =? 0)) eqn:E; cbn [negb] in Ee.
  - destruct (IH (i + 1) total best bestcw ltac:(lia)) as (b & -> & Hb). exists b. split.
    + replace (bump w) with w by (unfold bump; by rewrite Ee).
      replace (share w) with 0 by (unfold share; by rewrite Ee). by rewrite Z.add_0_l.
    + destruct Hb as [[-> H]|(j & x & Hj & Hx & -> & Hlt & H)].
      * left. split; [done |]. intros [|j] y Hy Ey; simplify_eq/=; [congruence |]. by apply (H j).
      * right. exists (S j), x. split_and!; [done | done | lia | done |].
        intros [|j'] y Hy Ey; simplify_eq/=; [congruence |]. by apply (H j').
  - assert (w <| cn_swrr_cw ::= λ x, x + cn_weight w |> = bump w) as Eb by (unfold bump; by rewrite Ee).
    assert (cn_weight (bump w) = share w) as Es by (unfold share; rewrite Ee; unfold bump; by rewrite Ee).
    assert (cn_swrr_cw (bump w) = credit (bump w)) as Ec by (unfold credit; by rewrite eligible_bump, Ee).
    cbv zeta. rewrite Eb, Es, Ec. rewrite Z.gtb_ltb.
    destruct ((best <? 0) || (bestcw <? credit (bump w))) eqn:Em.
    + destruct (IH (i + 1) (total + share w) i (credit (bump w)) ltac:(lia)) as (b & -> & Hb).
      exists b. split; [by rewrite Z.add_assoc |]. right.
      assert (0 ≤ best → bestcw < credit (bump w)) as Hup
        by (apply orb_true_iff in Em as [?%Z.ltb_lt|?%Z.ltb_lt]; lia).
      destruct Hb as [[-> H]|(j & x & Hj & Hx & -> & Hlt & H)].
      * exists 0%nat, w. split_and!; [done | done | lia | done |].
        intros [|j'] y Hy Ey; simplify_eq/=; [lia |]. by apply (H j').
      * exists (S j), x. split_and!; [done | done | lia | lia |].
        intros [|j'] y Hy Ey; simplify_eq/=; [lia |]. by apply (H j').
    + destruct (IH (i + 1) (total + share w) best bestcw ltac:(lia)) as (b & -> & Hb).
      exists b. split; [by rewrite Z.add_assoc |].
      apply orb_false_iff in Em as [Hb0%Z.ltb_ge Hcw%Z.ltb_ge].
      destruct Hb as [[-> H]|(j & x & Hj & Hx & -> & Hlt & H)].
      * left. split; [done |]. intros [|j'] y Hy Ey; simplify_eq/=; [done |]. by apply (H j').
      * right. exists (S j), x. split_and!; [done | done | lia | done |].
        intros [|j'] y Hy Ey; simplify_eq/=; [lia |]. by apply (H j').
Qed.

Definition settle (W : Z) (w : conn_t) : conn_t := w <| cn_swrr_cw ::= fun x => x - W |>.

(** With an eligible worker, the pick is one of maximal new credit. *)
Lemma pick_spec wk :
  0 < zsum share wk →
  ∃ b w, wk !! b = Some w ∧ eligible w = true ∧
    pick_worker_in wk = (Z.of_nat b, <[b := settle (zsum share wk) (bump w)]> (bump <$> wk)) ∧
    ∀ j' w', wk !! j' = Some w' → eligible w' = true → credit (bump w') ≤ credit (bump w).
Proof.
  intros HW. unfold pick_worker_in.
  destruct (swrr_loop_spec wk 0 0 (-1) 0 ltac:(lia)) as (b & -> & Hb). rewrite Z.add_0_l.
  destruct Hb as [[_ H]|(j & w & Hj & Hw & -> & _ & H)].
  - exfalso. destruct (zsum_pos share wk HW) as (j & w & Hj & Hs). unfold share in Hs.
    destruct (eligible w) eqn:E; [| lia]. destruct (H j w Hj E). lia.
  - exists j, w. rewrite Z.add_0_l, Z.geb_leb. destruct (Z.leb_spec 0 (Z.of_nat j)); [| lia].
    split_and!; [done | done | | done]. rewrite Nat2Z.id. f_equal.
    rewrite (list_alter_insert _ _ j (bump w)) by (by rewrite list_lookup_fmap, Hj). done.
Qed.

(** Without one, nothing is picked and nothing changes. *)
Lemma pick_none wk : (∀ w, w ∈ wk → eligible w = false) → pick_worker_in wk = (-1, wk).
Proof.
  intros H. unfold pick_worker_in. destruct (swrr_loop_spec wk 0 0 (-1) 0 ltac:(lia)) as (b & -> & Hb).
  assert (bump <$> wk = wk) as Eb.
  { clear -H. induction wk as [|w wk IH]; [done |]. rewrite fmap_cons, IH by (intros; apply H; by right).
    unfold bump. by rewrite (H w) by left. }
  rewrite Eb. destruct Hb as [[-> _]|(j & w & Hj & Hw & _)]; [done |].
  rewrite (H w) in Hw; [done |]. by eapply list_elem_of_lookup_2.
Qed.

(** ** A run of picks *)

Fixpoint pick_n (n : nat) (wk : list conn_t) : list Z * list conn_t :=
  match n with
  | O => ([], wk)
  | S n =>
      let '(ps, wk) := pick_n n wk in
      let '(p, wk) := pick_worker_in wk in (ps ++ [p], wk)
  end.

(** How often worker [i] was picked. *)
Definition times (i : nat) (ps : list Z) : Z := zsum (fun p => b2z (p =? Z.of_nat i)) ps.

Lemma times_app i ps p : times i (ps ++ [p]) = times i ps + b2z (p =? Z.of_nat i).
Proof. unfold times. induction ps as [|q ps IH]; cbn; lia. Qed.

(** The state of worker [i] after the picks [ps]. *)
Definition after (W : Z) (ps : list Z) (i : nat) (w : conn_t) : conn_t :=
  if eligible w
  then w <| cn_swrr_cw ::= fun x => x + zlen ps * cn_weight w - W * times i ps |> else w.

(** Updating the current weight only. *)
Lemma cw_ext w f g : f (cn_swrr_cw w) = g (cn_swrr_cw w) → w <| cn_swrr_cw ::= f |> = w <| cn_swrr_cw ::= g |>.
Proof. intros E. destruct w. unfold upd, upd_cn_swrr_cw. cbn in *. by rewrite E. Qed.

Lemma cw_same w f : f (cn_swrr_cw w) = cn_swrr_cw w → w <| cn_swrr_cw ::= f |> = w.
Proof. intros E. destruct w. unfold upd, upd_cn_swrr_cw. cbn in *. by rewrite E. Qed.

Lemma cw_comp w f g : w <| cn_swrr_cw ::= f |> <| cn_swrr_cw ::= g |> = w <| cn_swrr_cw ::= fun x => g (f x) |>.
Proof. by destruct w. Qed.

Lemma after_nil W i w : after W [] i w = w.
Proof.
  unfold after. destruct (eligible w); [| done]. apply cw_same.
  change (zlen (@nil Z)) with 0. change (times i []) with 0. lia.
Qed.

Lemma eligible_after W ps i w : eligible (after W ps i w) = eligible w.
Proof. unfold after. destruct (eligible w) eqn:E; [| done]. unfold eligible in *. cbn. done. Qed.

Lemma share_after W ps i w : share (after W ps i w) = share w.
Proof.
  unfold share. rewrite eligible_after. unfold after. by destruct (eligible w).
Qed.

Lemma credit_after W ps i w :
  eligible w = true → credit (after W ps i w) = credit w + zlen ps * share w - W * times i ps.
Proof. intros E. unfold credit, share. rewrite eligible_after. unfold after. by rewrite E. Qed.

Lemma zsum_share_after W ps wk k :
  zsum share (imap (fun i => after W ps (k + i)) wk) = zsum share wk.
Proof.
  revert k. induction wk as [|w wk IH]; intros k; [done |]. cbn [imap zsum]. rewrite share_after. f_equal.
  rewrite <- (IH (S k)). f_equal. apply imap_ext. intros i x _. cbn. f_equal. lia.
Qed.

(** One more pick, in terms of the start. *)
Lemma after_step W ps wk b w :
  wk !! b = Some w → eligible w = true →
  <[b := settle W (bump (after W ps b w))]> (bump <$> imap (after W ps) wk)
  = imap (after W (ps ++ [Z.of_nat b])) wk.
Proof.
  intros Hb E. pose proof (lookup_lt_Some _ _ _ Hb) as Hlt.
  apply list_eq. intros i. rewrite list_lookup_imap.
  destruct (decide (i = b)) as [->|Hne].
  - rewrite list_lookup_insert_eq by (by rewrite length_fmap, length_imap). rewrite Hb. cbn. f_equal.
    unfold bump. rewrite eligible_after, E. unfold after. rewrite E, times_app, Z.eqb_refl, zlen_app.
    unfold settle. rewrite !cw_comp. apply cw_ext. change (zlen [Z.of_nat b]) with 1. cbn. lia.
  - rewrite list_lookup_insert_ne by done. rewrite list_lookup_fmap, list_lookup_imap.
    destruct (wk !! i) as [x|] eqn:Hi; [| done]. cbn. f_equal. unfold bump. rewrite eligible_after.
    unfold after. destruct (eligible x); [| done]. rewrite times_app, zlen_app.
    destruct (Z.eqb_spec (Z.of_nat b) (Z.of_nat i)); [lia |]. rewrite !cw_comp. apply cw_ext.
    change (zlen [Z.of_nat b]) with 1. cbn. lia.
Qed.

(** The invariant of a balanced pool: credits add up to zero and none has
    fallen a whole cycle behind. *)
Definition balanced (W : Z) (wk : list conn_t) : Prop :=
  zsum share wk = W ∧ zsum credit wk = 0 ∧
  ∀ j w, wk !! j = Some w → eligible w = true → - W < credit w.

Lemma credit_settle W w : eligible w = true → credit (settle W w) = credit w - W.
Proof. intros E. unfold credit. assert (eligible (settle W w) = true) as -> by done. by rewrite E. Qed.

Lemma balanced_step W wk :
  0 < W → (∀ w, w ∈ wk → 0 ≤ cn_weight w) → balanced W wk → balanced W (pick_worker_in wk).2.
Proof.
  intros HW Hpos (HS & HC & HL). destruct (pick_spec wk) as (b & w & Hb & E & -> & Hmax); [lia |].
  cbn [snd]. rewrite HS. pose proof (lookup_lt_Some _ _ _ Hb) as Hlt.
  assert ((bump <$> wk) !! b = Some (bump w)) as Hb' by (by rewrite list_lookup_fmap, Hb).
  assert (eligible (bump w) = true) as E' by (by rewrite eligible_bump).
  assert (zsum credit (bump <$> wk) = W) as HC'.
  { rewrite zsum_fmap, (zsum_ext _ (fun x => credit x + share x)) by apply credit_bump.
    rewrite zsum_add. lia. }
  split_and!.
  - rewrite (zsum_insert _ _ _ _ _ Hb'), zsum_fmap, (zsum_ext _ share) by apply share_bump.
    assert (share (settle W (bump w)) = share (bump w)) as -> by done. lia.
  - rewrite (zsum_insert _ _ _ _ _ Hb'), credit_settle, HC' by done. lia.
  - intros j x Hj Ex. apply list_lookup_insert_Some in Hj as [(<- & <- & _)|[Hne Hj]].
    + rewrite credit_settle by done. enough (0 < credit (bump w)) by lia.
      destruct (zsum_pos credit (bump <$> wk)) as (j & y & Hj & Hy); [lia |].
      rewrite list_lookup_fmap in Hj. destruct (wk !! j) as [z|] eqn:Hz; simplify_eq/=.
      destruct (eligible z) eqn:Ez.
      * specialize (Hmax j z Hz Ez). lia.
      * exfalso. unfold credit in Hy. rewrite eligible_bump, Ez in Hy. lia.
    + rewrite list_lookup_fmap in Hj. destruct (wk !! j) as [z|] eqn:Hz; simplify_eq/=.
      rewrite eligible_bump in Ex. rewrite credit_bump. specialize (HL j z Hz Ex).
      assert (0 ≤ cn_weight z) by (by eapply Hpos, list_elem_of_lookup_2).
      assert (0 ≤ share z) by (unfold share; by rewrite Ex). lia.
Qed.

(** The weights of a pool are [uint32_t]s. *)
Definition weights_ok (wk : list conn_t) : Prop := ∀ w, w ∈ wk → 0 ≤ cn_weight w < 2 ^ 32.

Lemma weights_after W ps wk : weights_ok wk → weights_ok (imap (after W ps) wk).
Proof.
  intros H w (i & Hi)%list_elem_of_lookup. rewrite list_lookup_imap in Hi.
  destruct (wk !! i) as [x|] eqn:Hx; simplify_eq/=. assert (cn_weight (after W ps i x) = cn_weight x) as ->
    by (unfold after; by destruct (eligible x)). by eapply H, list_elem_of_lookup_2.
Qed.

(** The state of a run, from its picks alone. *)
Lemma pick_n_spec n wk W :
  weights_ok wk → 0 < W → balanced W wk →
  let '(ps, wk') := pick_n n wk in
  wk' = imap (after W ps) wk ∧ zlen ps = Z.of_nat n ∧ balanced W wk' ∧
  ∀ p, p ∈ ps → ∃ i w, p = Z.of_nat i ∧ wk !! i = Some w ∧ eligible w = true.
Proof.
  intros Hok HW Hbal. induction n as [|n IH]; cbn [pick_n].
  - split_and!; [| done | done | intros p Hp; by apply not_elem_of_nil in Hp].
    apply list_eq. intros i. rewrite list_lookup_imap. destruct (wk !! i); [| done]. cbn. by rewrite after_nil.
  - destruct (pick_n n wk) as [ps wk1]. destruct IH as (-> & Hl & Hb1 & Hel).
    pose proof (balanced_step W _ HW ltac:(intros w Hw; by apply (weights_after W ps wk Hok)) Hb1) as Hb2.
    destruct (pick_spec (imap (after W ps) wk)) as (b & w & Hb & E & Ep & _); [destruct Hb1; lia |].
    rewrite Ep in Hb2 |- *. destruct Hb1 as [HS _]. rewrite HS in *. cbn [snd] in Hb2.
    rewrite list_lookup_imap in Hb. destruct (wk !! b) as [x|] eqn:Hx; simplify_eq/=.
    rewrite eligible_after in E. rewrite after_step in * by done.
    split_and!; [done | rewrite zlen_app, Hl; change (zlen [_]) with 1; lia | done |].
    intros p [Hp|Hp%list_elem_of_singleton]%elem_of_app; [by apply Hel |]. subst p. by exists b, x.
Qed.

Lemma times_absent i ps : (Z.of_nat i ∉ ps) → times i ps = 0.
Proof.
  unfold times. induction ps as [|p ps IH]; cbn; [done |]. intros H. rewrite IH by (intros ?; apply H; by right).
  destruct (Z.eqb_spec p (Z.of_nat i)); [subst; destruct H; by left | done].
Qed.

(** Fresh credits are balanced. *)
Lemma fresh_balanced wk :
  (∀ w, w ∈ wk → eligible w = true → cn_swrr_cw w = 0) → 0 < zsum share wk →
  balanced (zsum share wk) wk.
Proof.
  intros H0 HW. assert (∀ w, w ∈ wk → credit w = 0) as Hc
    by (intros w Hw; unfold credit; destruct (eligible w) eqn:E; [by apply H0 | done]).
  split_and!; [done | | intros j w Hj _; rewrite Hc; [lia | by eapply list_elem_of_lookup_2]].
  clear -Hc. induction wk as [|w wk IH]; cbn; [done |].
  rewrite (Hc w) by left. rewrite IH; [done |]. intros x Hx. apply Hc. by right.
Qed.

(** The balancer never runs ahead of a worker's share.  From fresh
    credits, after any number [n] of picks with the pool unchanged, every pick
    is a ready worker of positive weight, and worker [i] has been picked fewer
    than [n * weight_i / W + 1] times, [W] the sum of the weights. *)
Theorem swrr_smooth wk n :
  weights_ok wk → (∀ w, w ∈ wk → eligible w = true → cn_swrr_cw w = 0) → 0 < zsum share wk →
  let '(ps, _) := pick_n n wk in
  zlen ps = Z.of_nat n ∧
  (∀ p, p ∈ ps → ∃ i w, p = Z.of_nat i ∧ wk !! i = Some w ∧ eligible w = true) ∧
  ∀ i w, wk !! i = Some w → times i ps * zsum share wk < Z.of_nat n * share w + zsum share wk.
Proof.
  intros Hok H0 HW. pose proof (fresh_balanced wk H0 HW) as Hbal.
  pose proof (pick_n_spec n wk _ Hok HW Hbal) as H. destruct (pick_n n wk) as [ps wk'].
  destruct H as (-> & Hl & (_ & _ & HL) & Hel). split_and!; [done | done |]. intros i w Hi.
  destruct (eligible w) eqn:E.
  - assert (imap (after (zsum share wk) ps) wk !! i = Some (after (zsum share wk) ps i w)) as Hi'
      by (by rewrite list_lookup_imap, Hi).
    specialize (HL i _ Hi'). rewrite eligible_after, credit_after, Hl in HL by done. specialize (HL E).
    assert (credit w = 0) by (unfold credit; rewrite E; eapply H0; [by eapply list_elem_of_lookup_2 | done]).
    lia.
  - rewrite times_absent; [assert (share w = 0) as -> by (unfold share; by rewrite E); lia |]. intros (j & x & Ej & Hj & Ex)%Hel.
    assert (i = j) as -> by lia. congruence.
Qed.

(** A multiple of [W] above [-W] is not negative. *)
Lemma mul_gap W a b : 0 < W → - W < W * a - W * b → b ≤ a.
Proof. intros HW H. destruct (Z.le_gt_cases b a); [done | nia]. Qed.

(** C39: every cycle is exact.  With the pool unchanged, [W] picks from fresh
    credits ([W] the sum of the weights) pick worker [i] exactly [weight_i]
    times, a draining or unauthenticated worker never, and leave the credits
    as they were, so the next cycle is the same. *)
Theorem swrr_fair wk :
  weights_ok wk → (∀ w, w ∈ wk → eligible w = true → cn_swrr_cw w = 0) → 0 < zsum share wk →
  let '(ps, wk') := pick_n (Z.to_nat (zsum share wk)) wk in
  wk' = wk ∧ ∀ i w, wk !! i = Some w → times i ps = share w.
Proof.
  intros Hok H0 HW. set (W := zsum share wk) in *. pose proof (fresh_balanced wk H0 HW) as Hbal.
  pose proof (pick_n_spec (Z.to_nat W) wk W Hok HW Hbal) as H. destruct (pick_n _ wk) as [ps wk'].
  destruct H as (-> & Hl & (_ & HC & HL) & Hel). rewrite Z2Nat.id in Hl by lia.
  assert (∀ i w, wk !! i = Some w → times i ps = share w) as Hex.
  { intros i w Hi. destruct (eligible w) eqn:E.
    - assert (∀ j x, imap (after W ps) wk !! j = Some x → 0 ≤ credit x) as Hnn.
      { intros j x Hj. rewrite list_lookup_imap in Hj. destruct (wk !! j) as [y|] eqn:Hy; [| done]. injection Hj as <-.
        destruct (eligible y) eqn:Ey; [| unfold credit; by rewrite eligible_after, Ey].
        specialize (HL j (after W ps j y)). rewrite list_lookup_imap, Hy, eligible_after in HL.
        specialize (HL eq_refl Ey). rewrite credit_after, Hl in HL |- * by done.
        assert (credit y = 0) by (unfold credit; rewrite Ey; eapply H0; [by eapply list_elem_of_lookup_2 | done]).
        pose proof (mul_gap W (share y) (times j ps) HW ltac:(lia)). nia. }
      assert (credit (after W ps i w) = 0) as Hz.
      { symmetry. apply (zsum_le_eq (fun _ => 0) credit (imap (after W ps) wk) Hnn) with i.
        - rewrite HC. clear. induction (imap _ wk); cbn; lia.
        - by rewrite list_lookup_imap, Hi. }
      rewrite credit_after, Hl in Hz by done.
      assert (credit w = 0) by (unfold credit; rewrite E; eapply H0; [by eapply list_elem_of_lookup_2 | done]).
      nia.
    - rewrite times_absent; [unfold share; by rewrite E |]. intros (j & x & Ej & Hj & Ex)%Hel.
      assert (i = j) as -> by lia. congruence. }
  split; [| done]. apply list_eq. intros i. rewrite list_lookup_imap. destruct (wk !! i) as [w|] eqn:Hi; [| done].
  cbn. f_equal. unfold after. destruct (eligible w) eqn:E; [| done]. apply cw_same.
  rewrite Hl, (Hex i w Hi). unfold share. rewrite E. lia.
Qed.

(** ** A pool of weights 5, 1, 0 (draining) and 1 *)

Definition sample_worker (weight : Z) : conn_t :=
  mk_conn 3 false None true [] 0 true weight 0 0 umap_zero false [] [].

Definition sample_pool : list conn_t := sample_worker <$> [5; 1; 0; 1].

Lemma sample_pool_ok : weights_ok sample_pool.
Proof. intros w Hw. unfold sample_pool in Hw. cbn in Hw. set_unfold. naive_solver lia. Qed.

Lemma sample_pool_fresh w : w ∈ sample_pool → eligible w = true → cn_swrr_cw w = 0.
Proof. intros Hw _. unfold sample_pool in Hw. cbn in Hw. set_unfold. naive_solver. Qed.

Lemma swrr_smooth_witness : (pick_n 3 sample_pool).1 = [0; 0; 1] ∧ times 0 [0; 0; 1] * 7 < 3 * 5 + 7.
Proof.
  pose proof (swrr_smooth sample_pool 3 sample_pool_ok sample_pool_fresh eq_refl) as H.
  destruct (pick_n 3 sample_pool) as [ps wk'] eqn:E.
  assert (ps = [0; 0; 1]) as -> by (vm_compute in E; congruence).
  destruct H as (_ & _ & H). split; [done |]. apply (H 0%nat (sample_worker 5)). done.
Defined.

Lemma swrr_fair_witness :
  (pick_n 7 sample_pool).1 = [0; 0; 1; 0; 3; 0; 0] ∧ (pick_n 7 sample_pool).2 = sample_pool.
Proof.
  pose proof (swrr_fair sample_pool sample_pool_ok sample_pool_fresh eq_refl) as H.
  change (Z.to_nat (zsum share sample_pool)) with 7%nat in H.
  assert ((pick_n 7 sample_pool).1 = [0; 0; 1; 0; 3; 0; 0]) as E by (vm_compute; reflexivity).
  destruct (pick_n 7 sample_pool) as [ps wk']. split; [exact E |]. exact (proj1 H).
Defined.
