(* ===== verification/Splice.v ===== *)
(** Forwarding through the router: [fwd] and [flush_pend] of edge-peer/router.c
    move a stream's bytes from one tunnel to the other in order, and credit the
    source for exactly what the destination accepted. *)

From stdpp Require Import base list numbers gmap.
From Stdlib Require Import ZArith Lia.
From S2P Require Import Prelude Frame OutBuf EventQueue Probe StreamTable Session SessionIO Handshake Recv SessionInv SessionOps SessionApi SessionSys SessionFlow Auth Host Fifo Umap Router Balance.

(** ** mux_write, in every case *)

(** Whatever the state of the stream, [mux_write] accepts a prefix of the data
    and sends exactly that prefix. *)
Lemma write_any s sid p :
  session_wf s → zlen p < 2 ^ 63 →
  ∃ w s' ws, mux_write s sid (Some p) (zlen p) = (w, s') ∧ session_wf s' ∧ w ≤ zlen p ∧
    outp s' = outp s ++ wire ws ∧ Forall (data_frame sid) ws ∧
    concat (w_payload <$> ws) = ztake (Z.max w 0) p.
Proof.
  intros Hw Hn. pose proof (op_wf _ _ (mux_write_op s sid p Hn Hw)) as Hw'. pose proof (zlen_nonneg p).
  assert (∀ w s', mux_write s sid (Some p) (zlen p) = (w, s') → w ≤ 0 → outp s' = outp s →
    ∃ w s' ws, mux_write s sid (Some p) (zlen p) = (w, s') ∧ session_wf s' ∧ w ≤ zlen p ∧
      outp s' = outp s ++ wire ws ∧ Forall (data_frame sid) ws ∧
      concat (w_payload <$> ws) = ztake (Z.max w 0) p) as Hnone.
  { intros w s' E Hw0 Ho. exists w, s', []. rewrite E in Hw'. rewrite app_nil_r, Z.max_r, ztake_0 by lia.
    split_and!; try done. lia. }
  destruct (s_dead s) eqn:Hd.
  { eapply (Hnone MUX_ERR_STATE s); [| done | done]. unfold mux_write. rewrite bool_decide_eq_false_2 by done.
    cbn [andb]. by rewrite Hd. }
  destruct (st_find (s_tab s) sid) as [j|] eqn:Hfi.
  2:{ eapply (Hnone MUX_ERR_NOSTREAM s); [| done | done]. unfold mux_write.
      rewrite bool_decide_eq_false_2 by done. cbn [andb]. by rewrite Hd, Hfi. }
  destruct (st_find_found s sid j (fw_tab s (wf_flow s Hw)) Hfi) as [e Hj].
  destruct (decide (st_life e = LIFE_HCL_LOCAL)) as [Hlife|Hlife].
  { eapply (Hnone MUX_ERR_STATE s); [| done | done]. unfold mux_write. rewrite bool_decide_eq_false_2 by done.
    cbn [andb]. by rewrite Hd, Hfi, (found_at _ _ _ _ Hj), decide_True. }
  destruct (decide (0 < Z.min (st_send_win e) (s_send_win s))) as [Hr|Hr].
  - destruct (mux_write_room s sid p (zlen p) j e Hw Hj eq_refl Hn Hd Hlife Hfi Hr)
      as (sent & s1 & ws & F & Hj1 & Hs & Ho & Hdf & _ & Hcat & _ & E).
    rewrite E in Hw'. eexists sent, _, ws. split; [exact E |]. cbn [snd] in Hw'.
    split_and!; [exact Hw' | lia | | done | by rewrite Z.max_l by lia].
    destruct (_ && _); [| exact Ho].
    destruct (set_blocked_rest (debit_send s1 j sent) j true) as (_ & _ & _ & -> & _). exact Ho.
  - eapply (Hnone 0 (set_blocked s j true)); [| done |].
    + unfold mux_write. rewrite bool_decide_eq_false_2 by done. cbn [andb].
      rewrite Hd, Hfi, (found_at _ _ _ _ Hj), decide_False by done.
      destruct (Z.leb_spec (if s_send_win s <? st_send_win e then s_send_win s else st_send_win e) 0);
        [done | destruct (Z.ltb_spec (s_send_win s) (st_send_win e)); lia].
    + destruct (set_blocked_rest s j true) as (_ & _ & _ & -> & _). done.
Qed.

(** ** Two tunnels and a route *)

(** In [e], the source tunnel has session [ss], the destination [sd] and the
    route at [p] is [r]. *)
Record splice (e : ep_state) (a : side) (i : Z) (b : side) (j p : Z)
  (ss sd : mux_session) (r : route) : Prop := {
  sp_src : ∃ c, 0 ≤ i ∧ pool a e !! Z.to_nat i = Some c ∧ cn_mux c = Some ss;
  sp_dst : ∃ c, 0 ≤ j ∧ pool b e !! Z.to_nat j = Some c ∧ cn_mux c = Some sd;
  sp_route : e_rt e !! p = Some r;
}.

Lemma conn_ok e a i c :
  0 ≤ i → pool a e !! Z.to_nat i = Some c → conn a i e = Some (c, e).
Proof.
  intros Hi Hc. unfold conn, in_pool. pose proof (lookup_lt_Some _ _ _ Hc) as Hlt.
  destruct (Z.leb_spec 0 i); [| lia]. destruct (Z.ltb_spec i (zlen (pool a e))); [| unfold zlen in *; lia].
  cbn. by rewrite Hc.
Qed.

#[export] Instance side_eq_dec : EqDecision side.
Proof. solve_decision. Defined.

Lemma pool_set a b l e : pool a (set_pool b l e) = if decide (a = b) then l else pool a e.
Proof. by destruct a, b. Qed.


(** A call on a tunnel replaces its session and nothing else. *)
Lemma call_ok {A} e a i c s (dflt : A) f :
  0 ≤ i → pool a e !! Z.to_nat i = Some c → cn_mux c = Some s →
  call a i dflt f e =
  Some ((f s).1, set_pool a (<[Z.to_nat i := c <| cn_mux := Some (f s).2 |>]> (pool a e)) e).
Proof.
  intros Hi Hc Hm. unfold call, mbind, ST_bind. rewrite (conn_ok e a i c) by done. rewrite Hm.
  by destruct (f s).
Qed.

Section Calls.
Context (a b : side) (i j p : Z).
Hypothesis Hab : a ≠ b.

Lemma call_src {A} e ss sd r (dflt : A) f :
  splice e a i b j p ss sd r →
  ∃ e', call a i dflt f e = Some ((f ss).1, e') ∧ splice e' a i b j p (f ss).2 sd r ∧
        e_rt e' = e_rt e ∧ e_heap e' = e_heap e.
Proof.
  intros [(c & Hi & Hc & Hm) (c' & Hj & Hc' & Hm') Hr]. eexists. split; [by apply call_ok |].
  split_and!; [| by destruct a | by destruct a]. split.
  - eexists. split; [done |]. rewrite pool_set, decide_True by done.
    rewrite list_lookup_insert_eq by (by eapply lookup_lt_Some). done.
  - exists c'. split; [done |]. by rewrite pool_set, decide_False by done.
  - by destruct a.
Qed.

Lemma call_dst {A} e ss sd r (dflt : A) f :
  splice e a i b j p ss sd r →
  ∃ e', call b j dflt f e = Some ((f sd).1, e') ∧ splice e' a i b j p ss (f sd).2 r ∧
        e_rt e' = e_rt e ∧ e_heap e' = e_heap e.
Proof.
  intros [(c & Hi & Hc & Hm) (c' & Hj & Hc' & Hm') Hr]. eexists. split; [by apply call_ok |].
  split_and!; [| by destruct b | by destruct b]. split.
  - exists c. split; [done |]. by rewrite pool_set, decide_False by done.
  - eexists. split; [done |]. rewrite pool_set, decide_True by done.
    rewrite list_lookup_insert_eq by (by eapply lookup_lt_Some). done.
  - by destruct b.
Qed.

Lemma store_splice e ss sd r r' :
  splice e a i b j p ss sd r →
  ∃ e', store p r' e = Some (tt, e') ∧ splice e' a i b j p ss sd r' ∧
        e_rt e' = <[p := r']> (e_rt e) ∧ e_heap e' = e_heap e.
Proof.
  intros [H1 H2 H3]. eexists. split; [done |]. split_and!; [| done | done].
  split; [by destruct a | by destruct b | cbn; by rewrite lookup_insert_eq].
Qed.
End Calls.

(** The source session after crediting each of [ns]. *)
Definition credit_all (sid : Z) (s : mux_session) (ns : list Z) : mux_session :=
  foldl (fun s n => (mux_consume s sid n).2) s ns.

(** The effect of forwarding [data]: of the bytes pending and [data], in that
    order, the prefix [acc] was sent on the destination's stream and the rest
    is pending; the source was credited in positive amounts that add up to the
    length of [acc]. *)
Record moved (e e' : ep_state) (a : side) (i ssid : Z) (b : side) (j dsid p : Z) (d : dir)
  (ss sd : mux_session) (r : route) (data : bytes) (sd' : mux_session) (pend' : buf_t) : Prop := {
  mv_acc : ∃ acc ns ws, queued (get_pend d r) ++ data = acc ++ queued pend' ∧
    outp sd' = outp sd ++ wire ws ∧ Forall (data_frame dsid) ws ∧ concat (w_payload <$> ws) = acc ∧
    splice e' a i b j p (credit_all ssid ss ns) sd' (set_pend d pend' r) ∧
    Forall (fun n => 0 < n) ns ∧ zsum (fun n => n) ns = zlen acc;
  mv_buf : buf_wf pend';
  mv_dst : session_wf sd';
  mv_rt : e_rt e' = <[p := set_pend d pend' r]> (e_rt e);
  mv_heap : e_heap e' = [];
}.

Lemma set_get_pend d r : set_pend d (get_pend d r) r = r.
Proof. by destruct d, r. Qed.

Lemma get_set_pend d b r : get_pend d (set_pend d b r) = b.
Proof. by destruct d, r. Qed.

Lemma set_set_pend d b b' r : set_pend d b' (set_pend d b r) = set_pend d b' r.
Proof. by destruct d, r. Qed.

Lemma deref_ok e p r : e_rt e !! p = Some r → deref p e = Some (r, e).
Proof. intros H. unfold deref. by rewrite H. Qed.

Section Forward.
Context (a : side) (i ssid : Z) (b : side) (j dsid p : Z) (d : dir).
Hypothesis Hab : a ≠ b.

Lemma pend_append_ok e ss sd r data :
  splice e a i b j p ss sd r → e_heap e = [] → buf_wf (get_pend d r) →
  bf_len (get_pend d r) + zlen data < 2 ^ 63 →
  ∃ e' pend', pend_append p d data (zlen data) e = Some (tt, e') ∧
    splice e' a i b j p ss sd (set_pend d pend' r) ∧
    e_rt e' = <[p := set_pend d pend' r]> (e_rt e) ∧ e_heap e' = [] ∧
    buf_wf pend' ∧ queued pend' = queued (get_pend d r) ++ data.
Proof.
  intros Hsp Hh Hb Hn. unfold pend_append, mbind, ST_bind.
  rewrite (deref_ok e p r) by apply Hsp. cbn [gets]. rewrite Hh.
  destruct (buf_append_spec [] (get_pend d r) data Hb) as (x & h' & b' & -> & Hb' & Hq & Hh'); [lia |].
  rewrite (Hh' eq_refl). destruct Hq as [[_ Hq]|(_ & _ & ?)]; [| done].
  unfold modify, gets. set (e1 := e <| e_heap := [] |>).
  assert (splice e1 a i b j p ss sd r) as Hsp1 by (destruct Hsp; split; [by destruct a | by destruct b | done]).
  destruct (store_splice a b i j p Hab e1 ss sd r (set_pend d b' r) Hsp1) as (e2 & -> & Hsp2 & Ert & Eh).
  by exists e2, b'.
Qed.

(** Nothing forwarded yet. *)
Lemma moved_none e ss sd r :
  splice e a i b j p ss sd r → e_heap e = [] → buf_wf (get_pend d r) → session_wf sd →
  moved e e a i ssid b j dsid p d ss sd r [] sd (get_pend d r).
Proof.
  intros Hsp Hh Hb Hw. split; try done.
  - exists [], [], []. rewrite !app_nil_r, set_get_pend. split_and!; done.
  - rewrite set_get_pend. symmetry. apply insert_id, Hsp.
Qed.

(** One write of the front of what is to go and the credit that follows it. *)
Lemma write_credit e ss sd r data :
  splice e a i b j p ss sd r → session_wf sd → zlen data < 2 ^ 63 →
  ∃ w e1 sd' ws, call b j MUX_ERR_PARAM (fun s => mux_write s dsid (Some data) (zlen data)) e = Some (w, e1) ∧
    mux_write sd dsid (Some data) (zlen data) = (w, sd') ∧
    session_wf sd' ∧ w ≤ zlen data ∧ splice e1 a i b j p ss sd' r ∧
    e_rt e1 = e_rt e ∧ e_heap e1 = e_heap e ∧
    outp sd' = outp sd ++ wire ws ∧ Forall (data_frame dsid) ws ∧
    concat (w_payload <$> ws) = ztake (Z.max w 0) data ∧
    ∃ e2, call a i MUX_ERR_PARAM (fun s => mux_consume s ssid w) e1 = Some ((mux_consume ss ssid w).1, e2) ∧
          splice e2 a i b j p (mux_consume ss ssid w).2 sd' r ∧ e_rt e2 = e_rt e ∧ e_heap e2 = e_heap e.
Proof.
  intros Hsp Hw Hn. destruct (write_any sd dsid data Hw Hn) as (w & sd' & ws & E & Hw' & Hle & Ho & Hdf & Hc).
  destruct (call_dst a b i j p Hab e ss sd r MUX_ERR_PARAM
    (fun s => mux_write s dsid (Some data) (zlen data)) Hsp) as (e1 & E1 & Hsp1 & Ert & Eh).
  rewrite E in E1, Hsp1. cbn [fst snd] in E1, Hsp1.
  destruct (call_src a b i j p Hab e1 ss sd' r MUX_ERR_PARAM (fun s => mux_consume s ssid w) Hsp1)
    as (e2 & E2 & Hsp2 & Ert2 & Eh2).
  exists w, e1, sd', ws. split_and!; try done. exists e2. split_and!; congruence || done.
Qed.

(** What the destination did not take joins the pending bytes. *)
Lemma fwd_rest e e1 ss sd r data w sd' ws ns :
  splice e a i b j p ss sd r → buf_wf (get_pend d r) → queued (get_pend d r) = [] →
  session_wf sd' → splice e1 a i b j p (credit_all ssid ss ns) sd' r →
  e_rt e1 = e_rt e → e_heap e1 = [] → 0 ≤ w ≤ zlen data → bf_len (get_pend d r) + zlen data < 2 ^ 63 →
  outp sd' = outp sd ++ wire ws → Forall (data_frame dsid) ws → concat (w_payload <$> ws) = ztake w data →
  Forall (fun n => 0 < n) ns → zsum (fun n => n) ns = w →
  ∃ e' pend', when_ (w <? zlen data) (pend_append p d (zdrop w data) (zlen data - w)) e1 = Some (tt, e') ∧
    moved e e' a i ssid b j dsid p d ss sd r data sd' pend'.
Proof.
  intros Hsp Hb Hq0 Hw' Hsp1 Ert1 Eh1 Hw Hn Ho Hdf Hc Hns Hsum.
  assert (0 ≤ bf_len (get_pend d r)) by (destruct Hb; lia).
  replace (zlen data - w) with (zlen (zdrop w data)) by (rewrite zlen_zdrop; lia).
  destruct (Z.ltb_spec w (zlen data)); cbn [when_].
  - destruct (pend_append_ok e1 (credit_all ssid ss ns) sd' r (zdrop w data) Hsp1) as
      (e2 & pend' & -> & Hsp2 & Ert2 & Eh2 & Hb2 & Hq2); [done | done | rewrite zlen_zdrop; lia |].
    exists e2, pend'. split; [done |]. split; try done; [| congruence].
    exists (ztake w data), ns, ws. rewrite Hq2, Hq0, app_nil_l, app_nil_l, ztake_zdrop, zlen_ztake by lia. done.
  - exists e1, (get_pend d r). split; [done |]. split; try done.
    + exists data, ns, ws. rewrite Hq0, app_nil_r, app_nil_l, set_get_pend.
      rewrite ztake_all in Hc by lia. split_and!; try done. lia.
    + rewrite set_get_pend, Ert1. symmetry. apply insert_id, Hsp.
Qed.

Lemma queued_nil pend : buf_wf pend → buf_avail pend ≤ 0 → queued pend = [].
Proof.
  intros Hb Hav. pose proof (queued_len _ Hb) as Hq. destruct (queued pend); [done |].
  rewrite zlen_cons in Hq. pose proof (zlen_nonneg l). lia.
Qed.

(** [fwd]. *)
Lemma fwd_moves e ss sd r data :
  splice e a i b j p ss sd r → e_heap e = [] → buf_wf (get_pend d r) → session_wf sd →
  bf_len (get_pend d r) + zlen data < 2 ^ 63 →
  ∃ e' sd' pend', fwd a i ssid b j dsid p d (Some data) (zlen data) e = Some (tt, e') ∧
    moved e e' a i ssid b j dsid p d ss sd r data sd' pend'.
Proof.
  intros Hsp Hh Hb Hw Hn. unfold fwd, mbind, ST_bind. rewrite (deref_ok e p r) by apply Hsp.
  rewrite Z.gtb_ltb. pose proof (zlen_nonneg data). assert (0 ≤ bf_len (get_pend d r)) by (destruct Hb; lia).
  destruct (Z.ltb_spec 0 (buf_avail (get_pend d r))) as [Hav|Hav].
  - rewrite vbytes_Some.
    destruct (pend_append_ok e ss sd r data Hsp Hh Hb Hn) as (e' & pend' & -> & Hsp' & Ert & Eh & Hb' & Hq').
    exists e', sd, pend'. split; [done |]. split; try done.
    exists [], [], []. rewrite app_nil_r. split_and!; done.
  - pose proof (queued_nil _ Hb Hav) as Hq0.
    destruct (write_credit e ss sd r data Hsp Hw) as
      (w & e1 & sd' & ws & -> & _ & Hw' & Hle & Hsp1 & Ert1 & Eh1 & Ho & Hdf & Hc & e2 & E2 & Hsp2 & Ert2 & Eh2); [lia |].
    rewrite vbytes_Some, Z.gtb_ltb. destruct (Z.ltb_spec 0 w); cbn [when_].
    + rewrite E2. unfold mret, ST_ret. destruct (Z.ltb_spec w 0); [lia |]. rewrite Z.max_l in Hc by lia.
      destruct (fwd_rest e e2 ss sd r data w sd' ws [w] Hsp Hb Hq0 Hw' Hsp2 Ert2) as (e' & pend' & -> & Hm);
        [congruence | lia | done | done | done | done | by constructor | cbn; lia | by exists e', sd', pend'].
    + unfold mret, ST_ret. rewrite Z.max_r in Hc by lia.
      replace (if w <? 0 then 0 else w) with 0 by (destruct (Z.ltb_spec w 0); lia).
      destruct (fwd_rest e e1 ss sd r data 0 sd' ws [] Hsp Hb Hq0 Hw' Hsp1 Ert1) as (e' & pend' & -> & Hm);
        [congruence | lia | done | done | done | done | done | done | by exists e', sd', pend'].
Qed.
(** The flush stopped because all was sent or the destination refused more. *)
Definition flushed (sd' : mux_session) (pend' : buf_t) : Prop :=
  queued pend' = [] ∨
  ∃ s w, mux_write s dsid (Some (queued pend')) (zlen (queued pend')) = (w, sd') ∧ w ≤ 0.

(** A write and its credit, followed by the rest of a flush. *)
Lemma moved_cons e e1 e' ss sd r w sd1 ws sd' pend' :
  let pend := get_pend d r in
  0 < w ≤ buf_avail pend → buf_wf pend →
  outp sd1 = outp sd ++ wire ws → Forall (data_frame dsid) ws →
  concat (w_payload <$> ws) = ztake w (queued pend) →
  e_rt e1 = <[p := set_pend d (buf_drop pend w) r]> (e_rt e) →
  moved e1 e' a i ssid b j dsid p d (mux_consume ss ssid w).2 sd1 (set_pend d (buf_drop pend w) r) [] sd' pend' →
  moved e e' a i ssid b j dsid p d ss sd r [] sd' pend'.
Proof.
  intros pend Hw Hb Ho Hdf Hc Ert [(acc & ns & ws' & Hq & Ho' & Hdf' & Hc' & Hsp & Hns & Hsum) Hb' Hw' Ert' Hh].
  destruct (buf_drop_spec pend w Hb) as [_ Hdrop]; [lia |]. rewrite get_set_pend, Hdrop in Hq.
  pose proof (queued_len pend Hb) as Hlen. rewrite set_set_pend in *.
  split; try done; [| by rewrite Ert', Ert, insert_insert_eq].
  exists (ztake w (queued pend) ++ acc), (w :: ns), (ws ++ ws').
  rewrite <- (assoc_L (++)), <- Hq, (assoc_L (++)), ztake_zdrop. rewrite fmap_app, concat_app, Hc, Hc'.
  rewrite Ho', Ho, wire_app, (assoc_L (++)), zlen_app, zlen_ztake by lia.
  split_and!; try done; [by apply Forall_app | constructor; [lia | done] | cbn; lia].
Qed.

Lemma flush_loop_moves fuel e ss sd r :
  splice e a i b j p ss sd r → e_heap e = [] → buf_wf (get_pend d r) → session_wf sd →
  buf_avail (get_pend d r) < Z.of_nat fuel → buf_avail (get_pend d r) < 2 ^ 63 →
  ∃ e' sd' pend', flush_loop fuel a i ssid b j dsid p d e = Some (tt, e') ∧
    moved e e' a i ssid b j dsid p d ss sd r [] sd' pend' ∧ flushed sd' pend'.
Proof.
  revert e ss sd r. induction fuel as [|fuel IH]; intros e ss sd r Hsp Hh Hb Hw Hf Hn;
    [assert (0 ≤ buf_avail (get_pend d r)) by (destruct Hb; unfold buf_avail; lia); lia |].
  cbn [flush_loop]. unfold mbind, ST_bind. rewrite (deref_ok e p r) by apply Hsp.
  pose proof (queued_len _ Hb) as Hq. rewrite Z.gtb_ltb. set (pend := get_pend d r) in *.
  destruct (Z.ltb_spec 0 (buf_avail pend)) as [Hav|Hav].
  2:{ exists e, sd, pend. split_and!; [done | by apply moved_none | left; by apply queued_nil]. }
  fold (queued pend). rewrite <- Hq.
  destruct (write_credit e ss sd r (queued pend) Hsp Hw) as
    (w & e1 & sd1 & ws & -> & Ew & Hw1 & Hle & Hsp1 & Ert1 & Eh1 & Ho & Hdf & Hc & e2 & E2 & Hsp2 & Ert2 & Eh2); [lia |].
  destruct (Z.leb_spec w 0).
  - subst pend. exists e1, sd1, (get_pend d r). rewrite Z.max_r, ztake_0 in Hc by lia. split_and!; [done | | right; by exists sd, w].
    split; try done; [| rewrite Ert1, (set_get_pend d r); symmetry; apply insert_id, Hsp | congruence].
    exists [], [], ws. rewrite app_nil_r, (set_get_pend d r). split_and!; done.
  - rewrite E2. destruct (buf_drop_spec pend w Hb) as [Hb2 Hq2]; [lia |].
    destruct (store_splice a b i j p Hab e2 _ sd1 r (set_pend d (buf_drop pend w) r) Hsp2)
      as (e3 & -> & Hsp3 & Ert3 & Eh3).
    assert (buf_avail (buf_drop pend w) = buf_avail pend - w) as Hav2
      by (rewrite <- (queued_len _ Hb2), Hq2, zlen_zdrop; lia).
    destruct (IH e3 (mux_consume ss ssid w).2 sd1 (set_pend d (buf_drop pend w) r) Hsp3) as
      (e' & sd' & pend' & -> & Hm & Hfl); [congruence | by rewrite get_set_pend | done
      | rewrite get_set_pend; lia | rewrite get_set_pend; lia |].
    exists e', sd', pend'. split_and!; [done | | done]. rewrite Z.max_l in Hc by lia.
    eapply moved_cons; [| done | exact Ho | done | done | | exact Hm]; [fold pend; lia |].
    by rewrite Ert3, Ert2.
Qed.

Lemma flush_moves e ss sd r :
  splice e a i b j p ss sd r → e_heap e = [] → buf_wf (get_pend d r) → session_wf sd →
  buf_avail (get_pend d r) < 2 ^ 63 →
  ∃ e' sd' pend', flush_pend a i ssid b j dsid p d e = Some (tt, e') ∧
    moved e e' a i ssid b j dsid p d ss sd r [] sd' pend' ∧ flushed sd' pend'.
Proof.
  intros Hsp Hh Hb Hw Hn. unfold flush_pend, mbind, ST_bind. rewrite (deref_ok e p r) by apply Hsp.
  apply flush_loop_moves; try done. pose proof (queued_len _ Hb). pose proof (zlen_nonneg (queued (get_pend d r))). lia.
Qed.
End Forward.

(** ** Theorems *)

(** C34: forwarding keeps order and couples flow control.  When a DATA event is
    forwarded between two tunnels ([e_heap e = []]: the allocator succeeds),
    what was pending followed by the new bytes is exactly what is sent on the
    destination stream, as DATA frames, followed by what is pending afterwards:
    nothing is lost, duplicated or reordered; and the source session is
    credited for exactly the bytes the destination accepted. *)
Theorem fwd_coupled e a i ssid b j dsid p d ss sd r data :
  a ≠ b → splice e a i b j p ss sd r → e_heap e = [] → buf_wf (get_pend d r) → session_wf sd →
  bf_len (get_pend d r) + zlen data < 2 ^ 63 →
  ∃ e' sd' pend', fwd a i ssid b j dsid p d (Some data) (zlen data) e = Some (tt, e') ∧
    moved e e' a i ssid b j dsid p d ss sd r data sd' pend'.
Proof. intros. by apply fwd_moves. Qed.

(** C35: flushing terminates, sends a prefix of the pending bytes in order,
    credits the source for exactly that prefix, and stops only when nothing is
    pending or the destination accepts no more. *)
Theorem flush_coupled e a i ssid b j dsid p d ss sd r :
  a ≠ b → splice e a i b j p ss sd r → e_heap e = [] → buf_wf (get_pend d r) → session_wf sd →
  buf_avail (get_pend d r) < 2 ^ 63 →
  ∃ e' sd' pend', flush_pend a i ssid b j dsid p d e = Some (tt, e') ∧
    moved e e' a i ssid b j dsid p d ss sd r [] sd' pend' ∧ flushed dsid sd' pend'.
Proof. intros. by apply flush_moves. Qed.

(** ** A concrete splice: stream 1 of an edge to stream 1 of a worker *)

Definition sample_conn (worker : bool) (s : mux_session) : conn_t :=
  mk_conn 3 false (Some s) true [] 0 worker 1 0 1 umap_zero (negb worker) [] [].

Definition sample_route (pend : bytes) : route :=
  mk_route 0 1 0 1 (mk_buf pend (zlen pend) 0 (zlen pend)) buf_zero false false false.

Definition sample_ep (pend : bytes) : ep_state :=
  mk_ep (mk_ep_config None None 0 0 0) [sample_conn false sample_b] [sample_conn true sample_s2]
    {[ 1 := sample_route pend ]} 2 [] [].

Lemma sample_splice pend :
  splice (sample_ep pend) EDGE 0 WORKER 0 1 sample_b sample_s2 (sample_route pend).
Proof.
  split; [by exists (sample_conn false sample_b) | by exists (sample_conn true sample_s2) | apply lookup_singleton_eq].
Qed.

Lemma sample_pend_wf pend : buf_wf (get_pend U2W (sample_route pend)).
Proof. pose proof (zlen_nonneg pend). split; cbn; lia. Qed.

Lemma fwd_coupled_witness :
  ∃ e' sd' pend', fwd EDGE 0 1 WORKER 0 1 1 U2W (Some (replicate 10 7)) 10 (sample_ep []) = Some (tt, e') ∧
    moved (sample_ep []) e' EDGE 0 1 WORKER 0 1 1 U2W sample_b sample_s2 (sample_route []) (replicate 10 7) sd' pend'.
Proof.
  exact (fwd_coupled (sample_ep []) EDGE 0 1 WORKER 0 1 1 U2W sample_b sample_s2 (sample_route []) (replicate 10 7)
    (ltac:(discriminate)) (sample_splice []) eq_refl (sample_pend_wf []) sample_wf2 eq_refl).
Defined.

Lemma flush_coupled_witness :
  ∃ e' sd' pend', flush_pend EDGE 0 1 WORKER 0 1 1 U2W (sample_ep [7; 8; 9]) = Some (tt, e') ∧
    moved (sample_ep [7; 8; 9]) e' EDGE 0 1 WORKER 0 1 1 U2W sample_b sample_s2 (sample_route [7; 8; 9]) [] sd' pend' ∧
    flushed 1 sd' pend'.
Proof.
  exact (flush_coupled (sample_ep [7; 8; 9]) EDGE 0 1 WORKER 0 1 1 U2W sample_b sample_s2 (sample_route [7; 8; 9])
    (ltac:(discriminate)) (sample_splice [7; 8; 9]) eq_refl
    (sample_pend_wf [7; 8; 9]) sample_wf2 eq_refl).
Defined.
