(* ===== verification/RouterAuth.v ===== *)
(** Authentication through the router: what [check_auth] of edge-peer/router.c
    accepts, the whole exchange between two tunnels that share a token, and two
    runs of the event handlers that the source's comments do not expect. *)

From stdpp Require Import base list numbers gmap.
From Stdlib Require Import ZArith Lia.
From S2P Require Import Prelude Frame OutBuf EventQueue Probe StreamTable Session SessionIO Handshake Recv SessionInv SessionOps SessionApi SessionSys SessionFlow Connect Auth Host Fifo Umap Router Balance Splice.

(** The arrays on the stack have their sizes. *)
Definition stack_ok (k : stack) : Prop :=
  zlen (sc_buf (sk_key k)) = 64 ∧ zlen (sc_buf (sk_ctx k)) = 64 ∧ zlen (sk_msg k) = 267.

(** The event's views have their lengths and hold bytes. *)
Definition hello_ok (h : hello_ev) : Prop :=
  h_nonce_len h = zlen (vbytes (h_nonce h)) ∧ h_auth_len h = zlen (vbytes (h_auth h)) ∧
  bytes_ok (vbytes (h_auth h)).

Lemma HMAC_ok key msg : bytes_ok (HMAC key msg) ∧ zlen (HMAC key msg) = 32.
Proof. split; [apply SHA256_ok | apply SHA256_len]. Qed.

(** The test both daemons end with: the right length and the right bytes. *)
Lemma mac_test m a n :
  bytes_ok m → zlen m = 32 → bytes_ok a → n = zlen a →
  (n =? 32) && ct_equal m a 32 = bool_decide (a = m).
Proof.
  intros Hm1 Hm2 Hb ->. destruct (Z.eqb_spec (zlen a) 32) as [E|E]; cbn [andb].
  - apply eq_bool_prop_intro, iff_sym.
    assert (ct_equal m a 32 = true ↔ a = m) as Hc.
    { rewrite ct_equal_spec by (done || lia). rewrite !ztake_all by lia. split; congruence. }
    destruct (ct_equal m a 32); destruct (bool_decide_reflect (a = m)); naive_solver.
  - symmetry. apply bool_decide_eq_false_2. by intros ->.
Qed.

Lemma check_auth_spec k cfg h token :
  stack_ok k → ec_token cfg = Some token → zlen token < 2 ^ 61 → hello_ok h →
  check_auth k cfg h =
  bool_decide (vbytes (h_auth h) = HMAC token (auth_ctx ++ ztake 256 (vbytes (h_nonce h)))).
Proof.
  intros (K1 & K2 & K3) Ht Hl (Hn & Ha & Hb). unfold check_auth. rewrite Ht, Hn, auth_proof_spec by done.
  destruct (HMAC_ok token (auth_ctx ++ ztake 256 (vbytes (h_nonce h)))) as [Hm1 Hm2].
  set (m := HMAC _ _) in *. clearbody m. by apply mac_test.
Qed.

(** With a token configured, [check_auth] accepts a HELLO exactly when the
    proof it carries is HMAC-SHA256 under the token of the context string and
    the nonce it carries; a missing, short or long proof is rejected. *)
Theorem check_auth_iff k cfg h token :
  stack_ok k → ec_token cfg = Some token → zlen token < 2 ^ 61 → hello_ok h →
  check_auth k cfg h = true ↔
  vbytes (h_auth h) = HMAC token (auth_ctx ++ ztake 256 (vbytes (h_nonce h))).
Proof. intros. by rewrite (check_auth_spec k cfg h token), bool_decide_eq_true. Qed.

(** ** Two tunnels *)

(** A router configuration with integers in range. *)
Definition ep_config_ok (c : ep_config) : Prop :=
  0 ≤ ec_init_window c < 2 ^ 32 ∧ 0 ≤ ec_session_window c < 2 ^ 32 ∧ 0 ≤ ec_heartbeat_ms c < 2 ^ 32.

Lemma build_cfg_spec k rnd cfg c token :
  stack_ok k → ep_config_ok cfg → ec_token cfg = Some token → zlen token < 2 ^ 61 → zlen rnd = 16 →
  let mc := (conn_build_cfg k rnd cfg c).2 in
  config_ok mc ∧ c_max_out_buffer mc = 0 ∧ vbytes (c_nonce mc) = rnd ∧ c_nonce_len mc = 16 ∧
  vbytes (c_auth mc) = HMAC token (auth_ctx ++ rnd) ∧ c_auth_len mc = 32.
Proof.
  intros (K1 & K2 & K3) (W1 & W2 & W3) Ht Hl Hr mc. subst mc. unfold conn_build_cfg. rewrite Ht.
  cbv zeta. cbn [fst snd cn_nonce cn_proof c_max_out_buffer c_nonce c_nonce_len c_auth c_auth_len vbytes default].
  change (cn_nonce (c <| cn_nonce := rnd |>)) with rnd.
  assert (auth_proof k token rnd = HMAC token (auth_ctx ++ rnd)) as Ep.
  { unfold auth_proof. rewrite auth_proof_spec by done. by rewrite ztake_all by lia. }
  match goal with |- context [cn_proof ?x] => change (cn_proof x) with (auth_proof k token rnd) end.
  match goal with |- context [cn_nonce ?x] => change (cn_nonce x) with rnd end.
  rewrite Ep. destruct (HMAC_ok token (auth_ctx ++ rnd)) as [_ Hm].
  clear Ep. revert Hm. generalize (HMAC token (auth_ctx ++ rnd)). intros m Hm.
  split_and!; try done. split; cbn; try lia.
  - destruct (Z.eqb_spec (ec_heartbeat_ms cfg) 0); cbn; lia.
  - pose proof (zlen_nonneg (vbytes (ec_peer_id cfg))). unfold blob_arg_ok. cbn.
    split_and!; try lia; right; lia.
Qed.

(** What a session built that way announces. *)
Lemma announced k rnd cfg c token role s :
  stack_ok k → ep_config_ok cfg → ec_token cfg = Some token → zlen token < 2 ^ 61 → zlen rnd = 16 →
  mux_session_new [] (conn_build_cfg k rnd cfg c).2 role = Some s →
  hello_ok (hello_params s) ∧ vbytes (h_nonce (hello_params s)) = rnd ∧
  vbytes (h_auth (hello_params s)) = HMAC token (auth_ctx ++ rnd).
Proof.
  intros Hk Hc Ht Hl Hr Hs. destruct (build_cfg_spec k rnd cfg c token) as (Hok & _ & N1 & N2 & A1 & A2); try done.
  pose proof (mux_session_new_spec [] _ role Hok) as F. rewrite Hs in F.
  destruct (nf_params _ _ _ _ F) as (_ & _ & _ & _ & _ & Fa & Fn & _).
  destruct (HMAC_ok token (auth_ctx ++ rnd)) as [Hm1 Hm2].
  rewrite N1, N2, ztake_all in Fn by lia. rewrite A1, A2, ztake_all in Fa by lia.
  unfold hello_ok, hello_params. cbn [h_nonce h_nonce_len h_auth h_auth_len].
  rewrite !vbytes_view_of, Fa, Fn. by split_and!.
Qed.

(** C37: authentication works end to end.  Two tunnels, each configured by
    [conn_build_cfg] with a token and a fresh 16-byte nonce, exchange their
    greetings; each side's host then gets one PEER_HELLO event, and
    [check_auth] accepts it exactly when the peer's proof is the one its own
    token gives: always when the tokens are equal. *)
Theorem auth_handshake kd ka k cfgd cfga cd ca rd ra td ta d a :
  stack_ok kd → stack_ok ka → stack_ok k → ep_config_ok cfgd → ep_config_ok cfga →
  ec_token cfgd = Some td → ec_token cfga = Some ta → zlen td < 2 ^ 61 → zlen ta < 2 ^ 61 →
  zlen rd = 16 → zlen ra = 16 →
  mux_session_new [] (conn_build_cfg kd rd cfgd cd).2 MUX_DIALER = Some d →
  mux_session_new [] (conn_build_cfg ka ra cfga ca).2 MUX_ACCEPTOR = Some a →
  ∃ a' d' hd ha,
    mux_recv a (Some (outp d)) (zlen (outp d)) = (zlen (outp d), a') ∧
    mux_recv d (Some (outp a')) (zlen (outp a')) = (zlen (outp a'), d') ∧
    events a' = [EV_PEER_HELLO hd] ∧ events d' = [EV_PEER_HELLO ha] ∧
    check_auth k cfga hd = bool_decide (HMAC td (auth_ctx ++ rd) = HMAC ta (auth_ctx ++ rd)) ∧
    check_auth k cfgd ha = bool_decide (HMAC ta (auth_ctx ++ ra) = HMAC td (auth_ctx ++ ra)).
Proof.
  intros Hkd Hka Hk Hcd Hca Htd Hta Hld Hla Hrd Hra Hd Ha.
  destruct (announced kd rd cfgd cd td MUX_DIALER d) as (Od & Nd & Ad); try done.
  destruct (announced ka ra cfga ca ta MUX_ACCEPTOR a) as (Oa & Na & Aa); try done.
  destruct (build_cfg_spec kd rd cfgd cd td) as (Okd & _); try done.
  destruct (build_cfg_spec ka ra cfga ca ta) as (Oka & Hmo & _); try done.
  destruct (handshake_spec _ _ d a Okd Oka Hd Ha) as (a' & d' & R1 & R2 & _ & _ & E1 & E2 & _);
    [rewrite Hmo; vm_compute; discriminate |].
  exists a', d', (hello_params d), (hello_params a). split_and!; [done | done | done | done | |].
  - by rewrite (check_auth_spec k cfga _ ta), Nd, Ad, ztake_all by (done || lia).
  - by rewrite (check_auth_spec k cfgd _ td), Na, Aa, ztake_all by (done || lia).
Qed.

(** ** Witnesses *)

Definition sample_stack : stack := mk_stack sample_ctx sample_ctx (replicate 267 0).
Definition sample_ep_cfg : ep_config := mk_ep_config (Some sample_token) (Some [101; 112]) 0 0 0.

Lemma sample_stack_ok : stack_ok sample_stack.
Proof. by split_and!. Qed.

Lemma sample_ep_cfg_ok : ep_config_ok sample_ep_cfg.
Proof. unfold ep_config_ok. cbn. lia. Qed.

Definition sample_hello : hello_ev :=
  mk_hello 1 8 4 None 0 (Some (HMAC sample_token (auth_ctx ++ [1; 2; 3]))) 32 (Some [1; 2; 3]) 3.

Lemma sample_hello_ok : hello_ok sample_hello.
Proof.
  destruct (HMAC_ok sample_token (auth_ctx ++ [1; 2; 3])) as [H1 H2].
  split_and!; [reflexivity | exact (eq_sym H2) | exact H1].
Qed.

Lemma check_auth_iff_witness : check_auth sample_stack sample_ep_cfg sample_hello = true.
Proof.
  apply (check_auth_iff sample_stack sample_ep_cfg sample_hello sample_token sample_stack_ok eq_refl eq_refl
           sample_hello_ok). reflexivity.
Defined.

Definition sample_tunnel : conn_t := sample_conn true sample_s2.

Definition auth_dialer : mux_session :=
  default sample_s2 (mux_session_new [] (conn_build_cfg sample_stack (replicate 16 1) sample_ep_cfg sample_tunnel).2 MUX_DIALER).
Definition auth_acceptor : mux_session :=
  default sample_s2 (mux_session_new [] (conn_build_cfg sample_stack (replicate 16 2) sample_ep_cfg sample_tunnel).2 MUX_ACCEPTOR).

Lemma auth_dialer_new :
  mux_session_new [] (conn_build_cfg sample_stack (replicate 16 1) sample_ep_cfg sample_tunnel).2 MUX_DIALER
  = Some auth_dialer.
Proof. apply default_Some. vm_compute. reflexivity. Qed.

Lemma auth_acceptor_new :
  mux_session_new [] (conn_build_cfg sample_stack (replicate 16 2) sample_ep_cfg sample_tunnel).2 MUX_ACCEPTOR
  = Some auth_acceptor.
Proof. apply default_Some. vm_compute. reflexivity. Qed.

#[global] Strategy opaque [auth_dialer auth_acceptor].

Lemma auth_handshake_witness :
  ∃ a' h, mux_recv auth_acceptor (Some (outp auth_dialer)) (zlen (outp auth_dialer))
            = (zlen (outp auth_dialer), a') ∧
    events a' = [EV_PEER_HELLO h] ∧ check_auth sample_stack sample_ep_cfg h = true.
Proof.
  destruct (auth_handshake sample_stack sample_stack sample_stack sample_ep_cfg sample_ep_cfg
    sample_tunnel sample_tunnel (replicate 16 1) (replicate 16 2) sample_token sample_token auth_dialer auth_acceptor
    sample_stack_ok sample_stack_ok sample_stack_ok sample_ep_cfg_ok sample_ep_cfg_ok
    eq_refl eq_refl eq_refl eq_refl eq_refl eq_refl auth_dialer_new auth_acceptor_new)
    as (a' & d' & hd & ha & R1 & _ & E1 & _ & C1 & _).
  exists a', hd. split_and!; [exact R1 | exact E1 |]. rewrite bool_decide_true in C1 by reflexivity. exact C1.
Defined.

(** ** A stream that comes with a rejected greeting *)

(** The edge answers with a HELLO_ACK without proof, then at once a SYN and
    three bytes on stream 2. *)
Definition rogue_bytes : bytes :=
  sample_ack ++ enc (mk_wframe MUX_T_DATA MUX_F_SYN 2 []) ++ enc (mk_wframe MUX_T_DATA 0 2 [1; 2; 3]).

Definition rogue_edge : mux_session := snd (mux_recv sample_dialer (Some rogue_bytes) (zlen rogue_bytes)).

(** One edge that has sent this, one ready worker. *)
Definition rogue_start : ep_state :=
  mk_ep sample_ep_cfg
    [mk_conn 3 false (Some rogue_edge) false [] 0 false 0 0 0 umap_zero true [] []]
    [mk_conn 4 false (Some sample_dial1) true [] 0 true 1 0 0 umap_zero false [] []]
    ∅ 1 [] [].

(** Is each edge ready; what each worker is sent; the routes' stream ids. *)
Definition observe (e : ep_state) : list bool * list (option bytes) * list (Z * Z) :=
  (cn_ready <$> e_edges e, (fun w => (fun s => fst (mux_send_buf s)) <$> cn_mux w) <$> e_wk e,
   (fun '(_, r) => (r_up_sid r, r_down_sid r)) <$> map_to_list (e_rt e)).


(** ** Bytes pending when the source closes *)

Definition map_one : umap := default umap_zero (umap_put [] umap_zero 1 1).2.

(** Stream 1 is spliced to a worker whose window for it is closed; six bytes
    wait in the route.  The worker's WINDOW_UPDATE has arrived but has not been
    read yet. *)
Definition closing_start : ep_state :=
  mk_ep (mk_ep_config None None 0 0 0)
    [mk_conn 3 false (Some sample_b) true [] 0 false 0 0 0 map_one true [] []]
    [mk_conn 4 false (Some sample_s3) true
       (enc (mk_wframe MUX_T_WINDOW_UPDATE 0 1 (be_put32 100))) 0 true 1 0 1 map_one false [] []]
    {[ 1 := sample_route (replicate 6 7) ]} 2 [] [].

Definition pending_of (e : ep_state) : option bytes := (fun r => queued (r_u2w r)) <$> e_rt e !! 1.

(** A FIN overtakes the bytes it should follow.  When the source stream
    closes while bytes wait for the worker's window, the worker is sent FIN at
    once; when its window opens, every later write on the stream is refused, so
    the pending bytes stay where they are and never reach the worker. *)
Theorem close_strands_pending :
  (fun '(_, e) => (pending_of e, observe e)) <$>
    (on_up_event sample_stack 0 (EV_STREAM_CLOSED 1);; conn_pump sample_stack WORKER 0) closing_start
  = Some (Some (replicate 6 7),
          ([true], [Some (fst (mux_send_buf sample_s3) ++ enc (mk_wframe MUX_T_DATA MUX_F_FIN 1 []))], [(1, 1)])).
Proof. vm_compute. reflexivity. Qed.
