(* ===== verification/Peer.v ===== *)
(** The worker-side library, libpeer/src/libpeer.c: one I/O thread owns a
    session and its socket, application threads use blocking or non-blocking
    calls on streams, and one mutex serialises both.

    Every function that runs with the mutex held is one atomic operation on
    [lp_client].  A blocking call waits on a condition variable until its loop
    condition fails: [lp_read], [lp_write] and [lp_accept] answer [None] while
    they would wait.  A [lp_stream *] is an address in [lc_streams]; the four
    intrusive lists (accept queue, pending work, ready, all) are lists of
    addresses in link order.  [lc_sig] records the condition variables
    signalled, [lc_wake] and [lc_notify] count the bytes written to the two
    self-pipes. *)

From stdpp Require Import base list numbers gmap.
From Stdlib Require Import ZArith Lia.
From S2P Require Import Prelude Frame OutBuf EventQueue Probe StreamTable Session Auth Host Fifo Umap.

Definition LP_WBUF_HIGH : Z := Z.shiftl 1 20.
Definition LP_AGAIN : Z := -2.
Definition LP_ACCEPT : Z := 1.
Definition LP_READABLE : Z := 2.
Definition LP_WRITABLE : Z := 4.
Definition LP_CLOSED : Z := 8.

(** ** State *)

Record lp_stream := mk_lp_stream {
  ls_sid : Z;
  ls_in_reg : bool;
  ls_rbuf : buf_t;
  ls_wbuf : buf_t;
  ls_consume_pending : Z;
  ls_eof : bool;
  ls_reset : bool;
  ls_app_closed : bool;
  ls_fin_sent : bool;
  ls_proto_done : bool;
  ls_meta : view;
  ls_meta_len : Z;
  ls_in_pending : bool;
  ls_ev_pending : Z;
  ls_in_ready : bool;
  ls_want_writable : bool;
}.

(** Condition variables: of a stream's reader, of its writer, of lp_accept. *)
Inductive cond := RCV (p : Z) | SND (p : Z) | ACCEPT_CV.

Record lp_config := mk_lp_config {
  lf_listen : bool;
  lf_token : view;
  lf_peer_id : view;
  lf_weight : Z;
  lf_init_window : Z;
  lf_session_window : Z;
  lf_heartbeat_ms : Z;
}.

Record lp_client := mk_lp_client {
  lc_cfg : lp_config;
  lc_stopping : bool;
  lc_fd : Z;
  lc_mux : option mux_session;
  lc_authed : bool;
  lc_nonce : bytes;
  lc_proof : bytes;
  lc_reg : umap;
  lc_accept : list Z;
  lc_pending : list Z;
  lc_all : list Z;
  lc_poll_mode : bool;
  lc_notified : bool;
  lc_ready : list Z;
  lc_recv : bytes;
  lc_streams : gmap Z lp_stream;
  lc_brk : Z;
  lc_heap : heap;
  lc_sig : list cond;
  lc_wake : Z;
  lc_notify : Z;
}.

Definition eta_stream (s : lp_stream) : lp_stream :=
  mk_lp_stream (ls_sid s) (ls_in_reg s) (ls_rbuf s) (ls_wbuf s) (ls_consume_pending s) (ls_eof s)
    (ls_reset s) (ls_app_closed s) (ls_fin_sent s) (ls_proto_done s) (ls_meta s) (ls_meta_len s)
    (ls_in_pending s) (ls_ev_pending s) (ls_in_ready s) (ls_want_writable s).

Definition eta_client (c : lp_client) : lp_client :=
  mk_lp_client (lc_cfg c) (lc_stopping c) (lc_fd c) (lc_mux c) (lc_authed c) (lc_nonce c) (lc_proof c)
    (lc_reg c) (lc_accept c) (lc_pending c) (lc_all c) (lc_poll_mode c) (lc_notified c) (lc_ready c)
    (lc_recv c) (lc_streams c) (lc_brk c) (lc_heap c) (lc_sig c) (lc_wake c) (lc_notify c).

#[export] Instance upd_ls_in_reg : Update ls_in_reg.
Proof. derive_update eta_stream ls_in_reg. Defined.
#[export] Instance upd_ls_rbuf : Update ls_rbuf.
Proof. derive_update eta_stream ls_rbuf. Defined.
#[export] Instance upd_ls_wbuf : Update ls_wbuf.
Proof. derive_update eta_stream ls_wbuf. Defined.
#[export] Instance upd_ls_consume_pending : Update ls_consume_pending.
Proof. derive_update eta_stream ls_consume_pending. Defined.
#[export] Instance upd_ls_eof : Update ls_eof.
Proof. derive_update eta_stream ls_eof. Defined.
#[export] Instance upd_ls_reset : Update ls_reset.
Proof. derive_update eta_stream ls_reset. Defined.
#[export] Instance upd_ls_app_closed : Update ls_app_closed.
Proof. derive_update eta_stream ls_app_closed. Defined.
#[export] Instance upd_ls_fin_sent : Update ls_fin_sent.
Proof. derive_update eta_stream ls_fin_sent. Defined.
#[export] Instance upd_ls_proto_done : Update ls_proto_done.
Proof. derive_update eta_stream ls_proto_done. Defined.
#[export] Instance upd_ls_meta : Update ls_meta.
Proof. derive_update eta_stream ls_meta. Defined.
#[export] Instance upd_ls_meta_len : Update ls_meta_len.
Proof. derive_update eta_stream ls_meta_len. Defined.
#[export] Instance upd_ls_in_pending : Update ls_in_pending.
Proof. derive_update eta_stream ls_in_pending. Defined.
#[export] Instance upd_ls_ev_pending : Update ls_ev_pending.
Proof. derive_update eta_stream ls_ev_pending. Defined.
#[export] Instance upd_ls_in_ready : Update ls_in_ready.
Proof. derive_update eta_stream ls_in_ready. Defined.
#[export] Instance upd_ls_want_writable : Update ls_want_writable.
Proof. derive_update eta_stream ls_want_writable. Defined.
#[export] Instance upd_lc_stopping : Update lc_stopping.
Proof. derive_update eta_client lc_stopping. Defined.
#[export] Instance upd_lc_fd : Update lc_fd.
Proof. derive_update eta_client lc_fd. Defined.
#[export] Instance upd_lc_mux : Update lc_mux.
Proof. derive_update eta_client lc_mux. Defined.
#[export] Instance upd_lc_authed : Update lc_authed.
Proof. derive_update eta_client lc_authed. Defined.
#[export] Instance upd_lc_nonce : Update lc_nonce.
Proof. derive_update eta_client lc_nonce. Defined.
#[export] Instance upd_lc_proof : Update lc_proof.
Proof. derive_update eta_client lc_proof. Defined.
#[export] Instance upd_lc_reg : Update lc_reg.
Proof. derive_update eta_client lc_reg. Defined.
#[export] Instance upd_lc_accept : Update lc_accept.
Proof. derive_update eta_client lc_accept. Defined.
#[export] Instance upd_lc_pending : Update lc_pending.
Proof. derive_update eta_client lc_pending. Defined.
#[export] Instance upd_lc_all : Update lc_all.
Proof. derive_update eta_client lc_all. Defined.
#[export] Instance upd_lc_poll_mode : Update lc_poll_mode.
Proof. derive_update eta_client lc_poll_mode. Defined.
#[export] Instance upd_lc_notified : Update lc_notified.
Proof. derive_update eta_client lc_notified. Defined.
#[export] Instance upd_lc_ready : Update lc_ready.
Proof. derive_update eta_client lc_ready. Defined.
#[export] Instance upd_lc_recv : Update lc_recv.
Proof. derive_update eta_client lc_recv. Defined.
#[export] Instance upd_lc_streams : Update lc_streams.
Proof. derive_update eta_client lc_streams. Defined.
#[export] Instance upd_lc_brk : Update lc_brk.
Proof. derive_update eta_client lc_brk. Defined.
#[export] Instance upd_lc_heap : Update lc_heap.
Proof. derive_update eta_client lc_heap. Defined.
#[export] Instance upd_lc_sig : Update lc_sig.
Proof. derive_update eta_client lc_sig. Defined.
#[export] Instance upd_lc_wake : Update lc_wake.
Proof. derive_update eta_client lc_wake. Defined.
#[export] Instance upd_lc_notify : Update lc_notify.
Proof. derive_update eta_client lc_notify. Defined.

(** ** Accessors *)

Abbreviation P := (ST lp_client).

(** [*st], [st->f = ...], [free(st)]. *)
Definition deref (p : Z) : P lp_stream := fun c => (fun s => (s, c)) <$> lc_streams c !! p.
Definition store (p : Z) (s : lp_stream) : P unit := modify (fun c => c <| lc_streams ::= <[p := s]> |>).
Definition update (p : Z) (f : lp_stream -> lp_stream) : P unit := s ← deref p; store p (f s).

Definition signal (v : cond) : P unit := modify (fun c => c <| lc_sig ::= fun l => l ++ [v] |>).

(** A mux API call on the session: [dflt] is its answer to NULL. *)
Definition call {A} (dflt : A) (f : mux_session -> A * mux_session) : P A := fun c =>
  match lc_mux c with
  | None => Some (dflt, c)
  | Some s => let '(a, s) := f s in Some (a, c <| lc_mux := Some s |>)
  end.

(** ** The byte buffers

    [buf_append] here rewinds only a non-empty offset; the rest is the code of
    the router's. *)

Definition lp_rewind (b : buf_t) : buf_t :=
  if (bf_head b >? 0) && (bf_head b =? bf_len b) then mk_buf (bf_data b) (bf_cap b) 0 0 else b.

Definition lp_buf_append (h : heap) (b : buf_t) (p : bytes) (n : Z) : Z * heap * buf_t :=
  if n =? 0 then (0, h, b) else
  let b := lp_rewind b in
  let b := if (bf_head b >? 0) && (bf_len b + n >? bf_cap b) then buf_shift b else b in
  let '(ok, h, b) := if bf_len b + n >? bf_cap b then buf_grow h b n else (true, h, b) in
  if negb ok then (-1, h, b) else
  (0, h, mk_buf (mem_write (bf_data b) (bf_len b) (ztake n p)) (bf_cap b) (bf_head b) (bf_len b + n)).

(** ** Registry *)

Definition reg_mix (sid mask : Z) : Z := umix sid mask.
Definition reg_grow (h : heap) (m : umap) (want : Z) : heap * umap := umap_grow h m want.

(** [reg_put]: the code of [umap_put], which on a fresh slot also sets
    [st->in_reg]. *)
Definition reg_put (sid p : Z) : P unit :=
  m ← gets lc_reg;
  h ← gets lc_heap;
  let '(h, o) := umap_put h m sid p in
  modify (fun c => c <| lc_heap := h |>);;
  match o with
  | None => undef
  | Some m' =>
      modify (fun c => c <| lc_reg := m' |>);;
      when_ (negb (um_count m' =? um_count m)) (update p (fun s => s <| ls_in_reg := true |>))
  end.

Definition reg_get (c : lp_client) (sid : Z) : option Z := umap_get (lc_reg c) sid.

(** [st->in_reg = 0] for every stream of the list. *)
Fixpoint clear_in_reg (ps : list Z) : P unit :=
  match ps with
  | [] => mret tt
  | p :: ps => update p (fun s => s <| ls_in_reg := false |>);; clear_in_reg ps
  end.

Definition reg_clear : P unit :=
  modify (fun c => c <| lc_reg ::= fun m => mk_umap (replicate (length (um_s m)) mslot_zero) (um_cap m) 0 |>);;
  ps ← gets lc_all;
  clear_in_reg ps.

(** ** Wake-ups *)

Definition io_wake : P unit := modify (fun c => c <| lc_wake ::= Z.add 1 |>).

Definition pending_push (p : Z) : P unit :=
  s ← deref p;
  if ls_in_pending s then mret tt else
  store p (s <| ls_in_pending := true |>);; modify (fun c => c <| lc_pending ::= cons p |>).

Definition notify_raise : P unit :=
  c ← gets id;
  if negb (lc_poll_mode c) || lc_notified c then mret tt else
  modify (fun c => c <| lc_notified := true |> <| lc_notify ::= Z.add 1 |>).

Definition ready_mark (p bits : Z) : P unit :=
  c ← gets id;
  if negb (lc_poll_mode c) then mret tt else
  update p (fun s => s <| ls_ev_pending ::= fun b => Z.lor b bits |>);;
  s ← deref p;
  when_ (negb (ls_in_ready s))
    (store p (s <| ls_in_ready := true |>);; modify (fun c => c <| lc_ready ::= cons p |>));;
  notify_raise.

(** ** Stream lifecycle *)

(** A store to a link field of the stream [o] points to, if any. *)
Definition touch (o : option Z) : P unit :=
  match o with Some p => deref p;; mret tt | None => mret tt end.

(** [st->all_prev] and [st->all_next] of the stream at [p]. *)
Fixpoint prev_of (p : Z) (l : list Z) : option Z :=
  match l with
  | q :: l => if bool_decide (head l = Some p) then Some q else prev_of p l
  | [] => None
  end.
Fixpoint next_of (p : Z) (l : list Z) : option Z :=
  match l with
  | q :: l => if q =? p then head l else next_of p l
  | [] => None
  end.

Definition lp_stream_zero (sid : Z) : lp_stream :=
  mk_lp_stream sid false buf_zero buf_zero 0 false false false false false None 0 false 0 false false.

Definition stream_new (sid : Z) (meta : view) (mlen : Z) : P (option Z) :=
  h ← gets lc_heap;
  let '(ok, h) := alloc h in
  modify (fun c => c <| lc_heap := h |>);;
  if negb ok then mret None else
  p ← gets lc_brk;
  modify (fun c => c <| lc_brk := p + 1 |>);;
  store p (lp_stream_zero sid);;
  when_ (negb (mlen =? 0))
    (h ← gets lc_heap;
     let '(ok, h) := alloc h in
     modify (fun c => c <| lc_heap := h |>);;
     when_ ok (update p (fun s => s <| ls_meta := Some (ztake mlen (vbytes meta)) |> <| ls_meta_len := mlen |>)));;
  hd ← gets (fun c => head (lc_all c));
  touch hd;;
  modify (fun c => c <| lc_all ::= cons p |>);;
  mret (Some p).

(** The search of [stream_try_free]: where it leaves the loop and whether the
    slot there is the stream's. *)
Fixpoint reg_find (s : list mslot) (mask sid i : Z) (n : nat) : Z * bool :=
  match n with
  | O => (i, false)
  | S n =>
      match s !! Z.to_nat i with
      | None => (i, false)
      | Some e =>
          if ms_used e && (ms_k e =? sid) then (i, true)
          else if negb (ms_used e) then (i, false)
          else reg_find s mask sid (Z.land (i + 1) mask) n
      end
  end.

(** The re-insertion of the cluster that follows. *)
Fixpoint reg_reput (mask j : Z) (n : nat) : P unit :=
  match n with
  | O => undef
  | S n =>
      m ← gets lc_reg;
      match um_s m !! Z.to_nat j with
      | None => undef
      | Some e =>
          if negb (ms_used e) then mret tt else
          modify (fun c => c <| lc_reg := mk_umap (<[Z.to_nat j := mslot_clear e]> (um_s m)) (um_cap m) (um_count m - 1) |>);;
          reg_put (ms_k e) (ms_v e);;
          reg_reput mask (Z.land (j + 1) mask) n
      end
  end.

Definition reg_remove (sid : Z) : P unit :=
  m ← gets lc_reg;
  let mask := um_cap m - 1 in
  let '(i, found) := reg_find (um_s m) mask sid (reg_mix sid mask) (Z.to_nat (um_cap m)) in
  when_ found
    (modify (fun c => c <| lc_reg := mk_umap (alter mslot_clear (Z.to_nat i) (um_s m)) (um_cap m) (um_count m - 1) |>));;
  reg_reput mask (Z.land (i + 1) mask) (S (Z.to_nat (um_cap m))).

Definition remove_all (p : Z) (l : list Z) : list Z := filter (fun q => q ≠ p) l.

Definition stream_try_free (p : Z) : P unit :=
  s ← deref p;
  if negb (ls_proto_done s && ls_app_closed s) then mret tt else
  if ls_in_pending s || ls_in_ready s then mret tt else
  when_ (ls_in_reg s) (reg_remove (ls_sid s));;
  l ← gets lc_all;
  touch (prev_of p l);;
  touch (next_of p l);;
  modify (fun c => c <| lc_all ::= remove_all p |> <| lc_streams ::= delete p |>).

(** ** I/O thread: session events *)

(** The comparison of the PEER_HELLO case. *)
Definition hello_authed (k : stack) (token : bytes) (h : hello_ev) : bool :=
  let expect := mux_auth_proof (sk_key k) (sk_ctx k) (sk_msg k) token (zlen token)
                  (vbytes (h_nonce h)) (h_nonce_len h) in
  (h_auth_len h =? SHA256_DIGEST_LEN) && ct_equal expect (vbytes (h_auth h)) SHA256_DIGEST_LEN.

Definition buf_append_to (p : Z) (get : lp_stream -> buf_t) (set : buf_t -> lp_stream -> lp_stream)
  (data : bytes) (n : Z) : P Z :=
  s ← deref p;
  h ← gets lc_heap;
  let '(r, h, b) := lp_buf_append h (get s) data n in
  modify (fun c => c <| lc_heap := h |>);; store p (set b s);; mret r.

Definition set_rbuf (b : buf_t) (s : lp_stream) : lp_stream := s <| ls_rbuf := b |>.
Definition set_wbuf (b : buf_t) (s : lp_stream) : lp_stream := s <| ls_wbuf := b |>.

(** One event: the switch of [handle_events]. *)
Definition handle_event (k : stack) (ev : mux_event) : P unit :=
  match ev with
  | EV_PEER_HELLO h =>
      c ← gets id;
      match lf_token (lc_cfg c) with
      | Some token =>
          modify (fun c => c <| lc_authed := hello_authed k token h |>);;
          when_ (negb (hello_authed k token h))
            (call MUX_ERR_PARAM (fun s => mux_goaway s MUX_CODE_REFUSED);; mret tt)
      | None => modify (fun c => c <| lc_authed := true |>)
      end
  | EV_STREAM_OPENED sid meta meta_len =>
      st ← stream_new sid meta meta_len;
      match st with
      | None => call MUX_ERR_PARAM (fun s => mux_reset s sid MUX_CODE_INTERNAL);; mret tt
      | Some p =>
          reg_put sid p;;
          tl ← gets (fun c => last (lc_accept c));
          touch tl;;
          modify (fun c => c <| lc_accept ::= fun l => l ++ [p] |>);;
          signal ACCEPT_CV;;
          notify_raise
      end
  | EV_STREAM_DATA sid data data_len =>
      c ← gets id;
      match reg_get c sid with
      | None => mret tt
      | Some p =>
          buf_append_to p ls_rbuf set_rbuf (vbytes data) data_len;;
          signal (RCV p);;
          ready_mark p LP_READABLE
      end
  | EV_STREAM_CLOSED sid =>
      c ← gets id;
      match reg_get c sid with
      | None => mret tt
      | Some p =>
          update p (fun s => s <| ls_eof := true |>);;
          s ← deref p;
          when_ (ls_fin_sent s) (store p (s <| ls_proto_done := true |>));;
          signal (RCV p);;
          ready_mark p (Z.lor LP_READABLE LP_CLOSED);;
          stream_try_free p
      end
  | EV_STREAM_RESET sid _ =>
      c ← gets id;
      match reg_get c sid with
      | None => mret tt
      | Some p =>
          update p (fun s => s <| ls_reset := true |> <| ls_eof := true |> <| ls_proto_done := true |>);;
          signal (RCV p);;
          signal (SND p);;
          ready_mark p (Z.lor LP_READABLE LP_CLOSED);;
          stream_try_free p
      end
  | EV_WRITABLE sid =>
      c ← gets id;
      match reg_get c sid with
      | None => mret tt
      | Some p =>
          s ← deref p;
          when_ (buf_avail (ls_wbuf s) >? 0) (pending_push p)
      end
  | _ => mret tt
  end.

Fixpoint events_loop (fuel : nat) (k : stack) : P unit :=
  match fuel with
  | O => undef
  | S fuel =>
      ev ← call None mux_next_event;
      match ev with
      | None => mret tt
      | Some ev => handle_event k ev;; events_loop fuel k
      end
  end.

(** The events queued, one that handling them may add (FATAL, once in the life
    of a session), and the call that finds none. *)
Definition events_fuel (c : lp_client) : nat :=
  match lc_mux c with Some s => Z.to_nat (q_count (s_q s)) + 2 | None => 1 end.

Definition handle_events (k : stack) : P unit :=
  n ← gets events_fuel; events_loop n k.

(** ** I/O thread: the application's requests *)

(** The loop of [flush_wbuf]; an iteration that goes on has sent a byte. *)
Fixpoint flush_wbuf_loop (fuel : nat) (p : Z) : P unit :=
  match fuel with
  | O => undef
  | S fuel =>
      s ← deref p;
      let b := ls_wbuf s in
      if buf_avail b >? 0 then
        w ← call MUX_ERR_PARAM (fun m => mux_write m (ls_sid s) (Some (buf_ptr b)) (buf_avail b));
        when_ (w >? 0) (store p (s <| ls_wbuf := buf_drop b w |>));;
        if w <=? 0 then mret tt else flush_wbuf_loop fuel p
      else mret tt
  end.

Definition flush_wbuf (p : Z) : P unit :=
  s ← deref p;
  flush_wbuf_loop (S (Z.to_nat (buf_avail (ls_wbuf s)))) p;;
  s ← deref p;
  when_ (buf_avail (ls_wbuf s) <=? LP_WBUF_HIGH / 2)
    (signal (SND p);;
     when_ (ls_want_writable s)
       (store p (s <| ls_want_writable := false |>);; ready_mark p LP_WRITABLE)).

Definition process_pending (p : Z) : P unit :=
  s ← deref p;
  when_ (ls_consume_pending s >? 0)
    (call MUX_ERR_PARAM (fun m => mux_consume m (ls_sid s) (ls_consume_pending s));;
     store p (s <| ls_consume_pending := 0 |>));;
  s ← deref p;
  when_ (buf_avail (ls_wbuf s) >? 0) (flush_wbuf p);;
  s ← deref p;
  when_ (ls_app_closed s && negb (ls_fin_sent s) && (buf_avail (ls_wbuf s) =? 0))
    (call MUX_ERR_PARAM (fun m => mux_close m (ls_sid s));;
     store p (s <| ls_fin_sent := true |>
                <| ls_proto_done := if ls_eof s then true else ls_proto_done s |>));;
  stream_try_free p.

(** ** I/O thread: the tunnel *)

Fixpoint tunnel_flush (ws : list write_res) (sent : bytes) : P (Z * list write_res * bytes) :=
  '(b, len) ← call ([], 0) (fun s => (mux_send_buf s, s));
  if negb (len >? 0) then mret (0, ws, sent) else
  match ws with
  | [] => mret (0, [], sent)
  | WROTE w :: ws =>
      if w >? 0 then
        call tt (fun s => (tt, mux_send_advance s w));; tunnel_flush ws (sent ++ ztake w b)
      else mret (-1, ws, sent)
  | WRITE_AGAIN :: ws => mret (0, ws, sent)
  | WRITE_ERROR :: ws => mret (-1, ws, sent)
  end.

Definition LP_RECV_SIZE : Z := 262144.

Definition tunnel_pump (k : stack) : P Z :=
  c ← gets id;
  cc ← call MUX_ERR_PARAM (fun s => mux_recv s (Some (lc_recv c)) (zlen (lc_recv c)));
  handle_events k;;
  if cc <? 0 then mret (-1) else
  when_ (cc >? 0) (modify (fun c => c <| lc_recv ::= zdrop cc |>));; mret 0.

Fixpoint tunnel_read (fuel : nat) (k : stack) (rs : list read_res) : P (Z * list read_res) :=
  match fuel with
  | O => undef
  | S fuel =>
      c ← gets id;
      let space := LP_RECV_SIZE - zlen (lc_recv c) in
      if space =? 0 then
        r ← tunnel_pump k;
        if r <? 0 then mret (-1, rs) else
        c' ← gets id;
        if zlen (lc_recv c') =? zlen (lc_recv c) then mret (0, rs) else tunnel_read fuel k rs
      else
      match rs with
      | READ bs :: rs =>
          let n := Z.min (zlen bs) space in
          let rs := if n <? zlen bs then READ (zdrop n bs) :: rs else rs in
          if n =? 0 then mret (-1, rs) else
          modify (fun c => c <| lc_recv ::= fun b => b ++ ztake n bs |>);;
          r ← tunnel_pump k;
          if r <? 0 then mret (-1, rs) else
          if n <? space then mret (0, rs) else tunnel_read fuel k rs
      | READ_EOF :: rs => mret (-1, rs)
      | READ_AGAIN :: rs => mret (0, rs)
      | [] => mret (0, [])
      | READ_ERROR :: rs => mret (-1, rs)
      end
  end.

(** ** Losing and making the session *)

(** The first loop of [session_down]. *)
Fixpoint down_mark (ps : list Z) : P unit :=
  match ps with
  | [] => mret tt
  | p :: ps =>
      update p (fun s => if negb (ls_proto_done s)
        then s <| ls_reset := true |> <| ls_eof := true |> <| ls_proto_done := true |> else s);;
      signal (RCV p);;
      signal (SND p);;
      ready_mark p (Z.lor LP_READABLE LP_CLOSED);;
      down_mark ps
  end.

Fixpoint clear_in_pending (ps : list Z) : P unit :=
  match ps with
  | [] => mret tt
  | p :: ps => update p (fun s => s <| ls_in_pending := false |>);; clear_in_pending ps
  end.

Fixpoint free_released (ps : list Z) : P unit :=
  match ps with
  | [] => mret tt
  | p :: ps => stream_try_free p;; free_released ps
  end.

Definition session_down : P unit :=
  ps ← gets lc_all; down_mark ps;;
  modify (fun c => c <| lc_pending := [] |>);;
  ps ← gets lc_all; clear_in_pending ps;;
  reg_clear;;
  modify (fun c => c <| lc_mux := None |> <| lc_fd := -1 |> <| lc_authed := false |> <| lc_recv := [] |>);;
  ps ← gets lc_all; free_released ps.

(** The configuration [session_up] builds; [rnd] is what [os_random] delivers. *)
Definition lp_build_cfg (k : stack) (rnd : bytes) (c : lp_client) : lp_client * mux_config :=
  let f := lc_cfg c in
  let hb := if negb (lf_heartbeat_ms f =? 0) then lf_heartbeat_ms f else 15000 in
  let wt := if negb (lf_weight f =? 0) then lf_weight f else 1 in
  let pid_len := zlen (vbytes (lf_peer_id f)) in
  match lf_token f with
  | None => (c, mk_config (lf_init_window f) (lf_session_window f) 0 hb 0 wt 0
                  (lf_peer_id f) pid_len None 0 None 0)
  | Some token =>
      let c := c <| lc_nonce := rnd |> in
      let c := c <| lc_proof := mux_auth_proof (sk_key k) (sk_ctx k) (sk_msg k) token (zlen token)
                                  (lc_nonce c) 16 |> in
      (c, mk_config (lf_init_window f) (lf_session_window f) 0 hb 0 wt 0
            (lf_peer_id f) pid_len (Some (lc_proof c)) 32 (Some (lc_nonce c)) 16)
  end.

(** [session_up] once the socket is connected: [fd < 0] when it is not; [h] is
    the allocator the session will use. *)
Definition session_up (k : stack) (rnd : bytes) (h : heap) (fd : Z) : P Z := fun c =>
  if fd <? 0 then Some (-1, c) else
  let role := if lf_listen (lc_cfg c) then MUX_ACCEPTOR else MUX_DIALER in
  let '(c, mc) := lp_build_cfg k rnd c in
  match mux_session_new h mc role with
  | None => Some (-1, c <| lc_mux := None |> <| lc_fd := -1 |>)
  | Some s => Some (0, c <| lc_mux := Some s |> <| lc_fd := fd |>)
  end.

(** ** I/O thread: the sections of [io_main] between unlocks *)

(** [while (p) { nx = p->pending_next; p->in_pending = 0; process_pending(c, p); p = nx; }] *)
Fixpoint work_loop (ps : list Z) : P unit :=
  match ps with
  | [] => mret tt
  | p :: ps => update p (fun s => s <| ls_in_pending := false |>);; process_pending p;; work_loop ps
  end.

Definition run_pending : P unit :=
  ps ← gets lc_pending;
  modify (fun c => c <| lc_pending := [] |>);;
  work_loop ps.

(** From the top of the loop (or the return of the wait in [session_up]) to the
    unlock before [poll]; [fd] is the socket just connected. *)
Definition io_before (k : stack) (rnd : bytes) (h : heap) (fd : Z) (ws : list write_res) : P unit :=
  c ← gets id;
  r ← (if lc_fd c <? 0 then session_up k rnd h fd else mret 0);
  if negb (r =? 0) then mret tt else
  run_pending;;
  c ← gets id;
  match lc_mux c with
  | None => mret tt
  | Some _ => '(r, _, _) ← tunnel_flush ws []; when_ (r <? 0) session_down
  end.

(** [tunnel_read] consumes a byte of the script, or the buffer, per iteration. *)
Definition read_fuel (rs : list read_res) : nat := Z.to_nat (2 * script_bytes rs + 2).

(** What [poll] reports: an error, the wake pipe, the tunnel readable (or hung
    up), the tunnel writable. *)
Record polled := mk_polled { po_err : bool; po_wake : bool; po_in : bool; po_out : bool }.

(** [mux_on_timer], the events it raises, and a last flush. *)
Definition io_timer (k : stack) (now : Z) (ws : list write_res) : P unit :=
  c ← gets id;
  match lc_mux c with
  | None => mret tt
  | Some _ =>
      call 0 (fun s => mux_on_timer s now);;
      handle_events k;;
      tunnel_flush ws [];; mret tt
  end.

(** From the lock after [poll] to the end of the iteration. *)
Definition io_after (k : stack) (po : polled) (rs : list read_res) (ws ws2 : list write_res) (now : Z) : P unit :=
  if po_err po then session_down else
  when_ (po_wake po) (modify (fun c => c <| lc_wake := 0 |>));;
  c ← gets id;
  '(r, _) ← (if (lc_fd c >=? 0) && po_in po then tunnel_read (read_fuel rs) k rs else mret (0, rs));
  if r <? 0 then session_down else
  c ← gets id;
  '(r, _, _) ← (if (lc_fd c >=? 0) && po_out po then tunnel_flush ws [] else mret (0, ws, []));
  if r <? 0 then session_down else
  io_timer k now ws2.

(** The graceful drain: the queued work, then flushes between waits, then the
    end of the session. *)
Definition io_drain : P unit :=
  c ← gets id;
  when_ (bool_decide (is_Some (lc_mux c)) && (lc_fd c >=? 0)) run_pending.

Definition io_drain_flush (ws : list write_res) : P Z :=
  c ← gets id;
  match lc_mux c with
  | None => mret 0
  | Some _ => '(r, _, _) ← tunnel_flush ws []; mret r
  end.

Definition io_exit : P unit := session_down;; signal ACCEPT_CV.

(** ** Public API *)

Definition lp_client_zero (cfg : lp_config) : lp_client :=
  mk_lp_client cfg false (-1) None false (replicate 16 0) (replicate 32 0) umap_zero [] [] [] false false []
    [] ∅ 1 [] [] 0 0.

(** [lp_disconnect] up to the join of the I/O thread. *)
Definition lp_stop : P unit := modify (fun c => c <| lc_stopping := true |>);; io_wake.

(** The rest of it: free what the application abandoned. *)
Fixpoint lp_free_all (ps : list Z) : P unit :=
  match ps with
  | [] => mret tt
  | p :: ps => deref p;; modify (fun c => c <| lc_streams ::= delete p |>);; lp_free_all ps
  end.
Definition lp_release : P unit := ps ← gets lc_all; lp_free_all ps.

(** [None] while it waits. *)
Definition lp_accept : P (option (option Z)) :=
  c ← gets id;
  match lc_accept c with
  | [] => mret (if lc_stopping c then Some None else None)
  | p :: l => deref p;; modify (fun c => c <| lc_accept := l |>);; mret (Some (Some p))
  end.

(** The common tail of [lp_read] and [lp_read_nb]. *)
Definition lp_take (p n : Z) : P (Z * bytes) :=
  s ← deref p;
  let avail := buf_avail (ls_rbuf s) in
  let take := if n <? avail then n else avail in
  store p (s <| ls_rbuf := buf_drop (ls_rbuf s) take |> <| ls_consume_pending ::= Z.add take |>);;
  pending_push p;;
  io_wake;;
  mret (take, ztake take (buf_ptr (ls_rbuf s))).

Definition lp_read (p n : Z) : P (option (Z * bytes)) :=
  if n =? 0 then mret (Some (0, [])) else
  s ← deref p;
  c ← gets id;
  if (buf_avail (ls_rbuf s) =? 0) && negb (ls_eof s) && negb (ls_reset s) && negb (lc_stopping c)
  then mret None else
  if ls_reset s then mret (Some (-1, [])) else
  if buf_avail (ls_rbuf s) =? 0 then mret (Some (0, [])) else
  r ← lp_take p n; mret (Some r).

(** The common tail of [lp_write] and [lp_write_nb]. *)
Definition lp_put (p : Z) (buf : bytes) (n : Z) : P Z :=
  r ← buf_append_to p ls_wbuf set_wbuf buf n;
  if negb (r =? 0) then mret (-1) else
  pending_push p;;
  io_wake;;
  mret n.

Definition lp_write (p : Z) (buf : bytes) (n : Z) : P (option Z) :=
  if n =? 0 then mret (Some 0) else
  s ← deref p;
  c ← gets id;
  if (buf_avail (ls_wbuf s) >=? LP_WBUF_HIGH) && negb (ls_reset s) && negb (ls_fin_sent s) && negb (lc_stopping c)
  then mret None else
  if ls_reset s || ls_fin_sent s || lc_stopping c then mret (Some (-1)) else
  r ← lp_put p buf n; mret (Some r).

Definition lp_close (p : Z) : P Z :=
  update p (fun s => s <| ls_app_closed := true |>);;
  pending_push p;;
  io_wake;;
  mret 0.

Definition lp_stream_meta (p : Z) : P (view * Z) := s ← deref p; mret (ls_meta s, ls_meta_len s).

(** ** Readiness API *)

Definition lp_fileno : P unit := modify (fun c => c <| lc_poll_mode := true |>).

Fixpoint poll_accept (room : nat) : P (list (Z * Z)) :=
  match room with
  | O => mret []
  | S room =>
      l ← gets lc_accept;
      match l with
      | [] => mret []
      | p :: l =>
          deref p;;
          modify (fun c => c <| lc_accept := l |>);;
          r ← poll_accept room; mret ((p, LP_ACCEPT) :: r)
      end
  end.

(** The fuel is the length of the ready list: an iteration pops one. *)
Fixpoint poll_ready (fuel room : nat) : P (list (Z * Z)) :=
  l ← gets lc_ready;
  match room, l with
  | O, _ | _, [] => mret []
  | S room', p :: l =>
      match fuel with
      | O => undef
      | S fuel =>
          s ← deref p;
          modify (fun c => c <| lc_ready := l |>);;
          store p (s <| ls_in_ready := false |> <| ls_ev_pending := 0 |>);;
          if ls_app_closed s then stream_try_free p;; poll_ready fuel room
          else r ← poll_ready fuel room'; mret ((p, ls_ev_pending s) :: r)
      end
  end.

Definition lp_poll (max : Z) : P (list (Z * Z)) :=
  if max <=? 0 then mret [] else
  modify (fun c => c <| lc_notify := 0 |> <| lc_notified := false |>);;
  acc ← poll_accept (Z.to_nat max);
  c ← gets id;
  rdy ← poll_ready (length (lc_ready c)) (Z.to_nat max - length acc);
  c ← gets id;
  when_ (negb (bool_decide (lc_accept c = [] ∧ lc_ready c = [])))
    (modify (fun c => c <| lc_notified := false |>);; notify_raise);;
  mret (acc ++ rdy).

Definition lp_read_nb (p n : Z) : P (Z * bytes) :=
  if n =? 0 then mret (0, []) else
  s ← deref p;
  if ls_reset s then mret (-1, []) else
  if buf_avail (ls_rbuf s) =? 0 then mret (if ls_eof s then 0 else LP_AGAIN, []) else
  lp_take p n.

Definition lp_write_nb (p : Z) (buf : bytes) (n : Z) : P Z :=
  if n =? 0 then mret 0 else
  s ← deref p;
  c ← gets id;
  if ls_reset s || ls_fin_sent s || lc_stopping c then mret (-1) else
  if buf_avail (ls_wbuf s) >=? LP_WBUF_HIGH
  then store p (s <| ls_want_writable := true |>);; mret LP_AGAIN else
  lp_put p buf n.
