(* ===== verification/SessionOpens.v ===== *)
(** What a call does to the event queue, whatever the state of the windows and
    the stream table: it appends events, the streams those open carry ids above
    every id seen before, and a DATA event carries as many bytes as it says.
    The hosts rely on this to key their own tables by stream id. *)

From stdpp Require Import base list numbers gmap.
From Stdlib Require Import ZArith Lia Sorted.
From S2P Require Import Prelude Frame OutBuf EventQueue Probe StreamTable Session SessionIO Handshake Recv.

(** ** Streams opened by a list of events *)

Definition ev_open (e : mux_event) : option Z :=
  match e with EV_STREAM_OPENED sid _ _ => Some sid | _ => None end.

Definition opened (evs : list mux_event) : list Z := omap ev_open evs.

Definition ev_sized (e : mux_event) : Prop :=
  match e with
  | EV_STREAM_DATA _ d n => n = zlen (vbytes d)
  | EV_STREAM_OPENED _ m n => n = zlen (vbytes m)
  | _ => True
  end.

(** Strictly increasing ids in the interval (lo, hi]. *)
Fixpoint climbs (lo : Z) (l : list Z) (hi : Z) : Prop :=
  match l with [] => lo ≤ hi | k :: l => lo < k ∧ climbs k l hi end.

Lemma climbs_app lo l mid l' hi : climbs lo l mid → climbs mid l' hi → climbs lo (l ++ l') hi.
Proof.
  revert lo. induction l as [|k l IH]; simpl; intros lo.
  - intros Hle. destruct l' as [|k' l']; simpl; [lia |]. intros [? ?]. split; [lia | done].
  - intros [? ?] ?. split; [done | by apply IH].
Qed.

Lemma climbs_bounds lo l hi : climbs lo l hi → lo ≤ hi ∧ ∀ k, k ∈ l → lo < k ≤ hi.
Proof.
  revert lo. induction l as [|x l IH]; simpl; intros lo H.
  - split; [lia |]. intros k Hk. by apply elem_of_nil in Hk.
  - destruct H as [Hlt H]. destruct (IH x H) as [Hle Hb]. split; [lia |].
    intros k [->|Hk]%elem_of_cons; [lia |]. specialize (Hb k Hk). lia.
Qed.

Lemma climbs_weaken lo lo' l hi : lo' ≤ lo → climbs lo l hi → climbs lo' l hi.
Proof. destruct l; simpl; [lia |]. intros ? [? ?]. split; [lia | done]. Qed.

(** ** The two contracts *)

Definition alive (s : mux_session) : Z := if s_dead s then 0 else 1.

(** A call that opens nothing and reports at most its own failure. *)
Record hush_facts (s s' : mux_session) : Prop := {
  hu_q : evq_wf (s_q s');
  hu_max : s_max_remote_sid s' = s_max_remote_sid s;
  hu_next : s_next_local_sid s' = s_next_local_sid s;
  hu_evs : ∃ evs, events s' = events s ++ evs ∧ opened evs = [] ∧ Forall ev_sized evs ∧
    zlen evs + alive s' ≤ alive s;
}.

(** Any call. *)
Record opens_facts (s s' : mux_session) : Prop := {
  of_q : evq_wf (s_q s');
  of_next : s_next_local_sid s' = s_next_local_sid s;
  of_evs : ∃ evs, events s' = events s ++ evs ∧ Forall ev_sized evs ∧
    climbs (s_max_remote_sid s) (opened evs) (s_max_remote_sid s');
}.

Definition hush (s s' : mux_session) : Prop := evq_wf (s_q s) → hush_facts s s'.
Definition opens (s s' : mux_session) : Prop := evq_wf (s_q s) → opens_facts s s'.

#[export] Instance hush_preorder : PreOrder hush.
Proof.
  split.
  - intros s Hq. split; [done.. |]. exists []. rewrite app_nil_r, zlen_nil. split_and!; [done .. | lia].
  - intros s1 s2 s3 H1 H2 Hq. destruct (H1 Hq) as [Q1 M1 N1 (e1 & E1 & O1 & Z1 & L1)].
    destruct (H2 Q1) as [Q2 M2 N2 (e2 & E2 & O2 & Z2 & L2)]. split; [done | congruence.. |].
    exists (e1 ++ e2). rewrite E2, E1, (assoc_L (++)). unfold opened in *. rewrite omap_app, O1, O2, zlen_app.
    split_and!; [done | done | by apply Forall_app | lia].
Qed.

#[export] Instance opens_preorder : PreOrder opens.
Proof.
  split.
  - intros s Hq. split; [done.. |]. exists []. rewrite app_nil_r. split_and!; [done .. | simpl; lia].
  - intros s1 s2 s3 H1 H2 Hq. destruct (H1 Hq) as [Q1 N1 (e1 & E1 & Z1 & C1)].
    destruct (H2 Q1) as [Q2 N2 (e2 & E2 & Z2 & C2)]. split; [done | congruence |]. exists (e1 ++ e2).
    rewrite E2, E1, (assoc_L (++)). unfold opened in *. rewrite omap_app.
    split_and!; [done | by apply Forall_app | by eapply climbs_app].
Qed.

Lemma hush_opens s s' : hush s s' → opens s s'.
Proof.
  intros H Hq. destruct (H Hq) as [Q M N (evs & E & O & Z & _)]. split; [done.. |]. exists evs.
  rewrite O, M. split_and!; [done .. | simpl; lia].
Qed.

(** An update of other fields. *)
Lemma keep_hush s s' :
  s_q s' = s_q s → s_max_remote_sid s' = s_max_remote_sid s → s_next_local_sid s' = s_next_local_sid s →
  s_dead s' = s_dead s → hush s s'.
Proof.
  intros Eq Em En Ed Hq. split; [by rewrite Eq | done.. |]. exists []. unfold alive.
  rewrite Eq, Ed, app_nil_r, zlen_nil. split_and!; [done .. | lia].
Qed.

Lemma keep_opens s s' :
  s_q s' = s_q s → s_max_remote_sid s' = s_max_remote_sid s → s_next_local_sid s' = s_next_local_sid s →
  opens s s'.
Proof.
  intros Eq Em En Hq. split; [by rewrite Eq | done |]. exists []. rewrite Eq, Em, app_nil_r.
  split_and!; [done .. | simpl; lia].
Qed.

Create HintDb opens.
#[export] Hint Extern 5 (hush _ _) => apply keep_hush; reflexivity : opens.
#[export] Hint Extern 6 (opens _ _) => apply keep_opens; reflexivity : opens.
#[export] Hint Resolve hush_opens : opens.

(** ** Output primitives *)

(** A push adds the event, or nothing when the allocator fails. *)
Lemma push_events s e :
  evq_wf (s_q s) →
  evq_wf (s_q (push s e)) ∧ s_max_remote_sid (push s e) = s_max_remote_sid s ∧
  s_next_local_sid (push s e) = s_next_local_sid s ∧
  s_dead (push s e) = s_dead s ∧ ∃ evs, events (push s e) = events s ++ evs ∧ (evs = [] ∨ evs = [e]).
Proof.
  intros Hq. unfold push. destruct (evq_push_spec (s_heap s) (s_q s) e Hq) as (r & h & q & -> & Hq' & _ & Hc).
  split_and!; [done .. |]. destruct Hc as [[_ E]|[_ ->]].
  - exists [e]. cbn. rewrite E. auto.
  - exists []. cbn. rewrite app_nil_r. auto.
Qed.

Lemma push_opens s e : ev_open e = None → ev_sized e → opens s (push s e).
Proof.
  intros He Hz Hq. destruct (push_events s e Hq) as (Q & M & N & _ & evs & E & Hc). split; [done.. |].
  exists evs. rewrite M. unfold opened. destruct Hc as [->| ->]; simpl; rewrite ?He; simpl; split_and!; auto; lia.
Qed.

Lemma ev_simple_opens s t sid :
  t ∈ [MUX_EV_STREAM_RESET; MUX_EV_STREAM_CLOSED; MUX_EV_WRITABLE] → opens s (ev_simple s t sid).
Proof. intros Ht. apply push_opens; set_unfold; naive_solver. Qed.

Lemma raise_fatal_hush s code : hush s (raise_fatal s code).
Proof.
  unfold raise_fatal. destruct (s_dead s) eqn:Hd; [reflexivity |]. intros Hq.
  assert (evq_wf (s_q (s <| s_dead := true |>))) as Hq' by exact Hq.
  destruct (push_events _ (EV_FATAL code) Hq') as (Q & M & N & D & evs & E & Hc).
  split; [exact Q | exact M | exact N |]. exists evs. split; [exact E |]. unfold alive. rewrite D, Hd. cbn [s_dead].
  destruct Hc as [->| ->]; rewrite ?zlen_cons, ?zlen_nil; split_and!; try done.
  by constructor.
Qed.

Lemma emit_hush s ty fl sid payload plen : hush s (snd (emit s ty fl sid payload plen)).
Proof.
  unfold emit. destruct (ob_reserve _ _ _ _) as [[r h] o]. destruct (negb (r =? 0)); cbn [snd].
  - etrans; [| apply raise_fatal_hush]. by apply keep_hush.
  - destruct (ob_craft _ _ _ _ _ _) as [n o']. by destruct (n <? 0); apply keep_hush.
Qed.

#[export] Hint Resolve push_opens ev_simple_opens raise_fatal_hush emit_hush : opens.

(** Names the session an [emit] leaves behind, with its contract. *)
Ltac after_emit H :=
  match goal with |- context [emit ?s ?ty ?fl ?sid ?p ?n] =>
    pose proof (emit_hush s ty fl sid p n) as H;
    destruct (emit s ty fl sid p n) as [? ?]; cbn [snd] in H end.

(** ** Calls of the host that report no event of their own *)

Lemma emit_rst_hush s sid code : hush s (emit_rst s sid code).
Proof. apply emit_hush. Qed.

Lemma set_blocked_hush s j b : hush s (set_blocked s j b).
Proof. unfold set_blocked. destruct (b && _); [| destruct (_ && _)]; by apply keep_hush. Qed.

Lemma st_remove_hush s j : hush s (st_remove s j).
Proof. unfold st_remove. by destruct (st_send_blocked _); apply keep_hush. Qed.

Lemma close_stream_hush s j : hush s (close_stream s j).
Proof. apply st_remove_hush. Qed.

#[export] Hint Resolve emit_rst_hush set_blocked_hush st_remove_hush close_stream_hush : opens.

Lemma credit_loop_hush fuel s sid win pending : hush s (credit_loop fuel s sid win pending).1.1.
Proof.
  revert s win pending. induction fuel as [|k IH]; intros s win pending; simpl; [reflexivity |].
  destruct (pending >? 0); [| reflexivity]. after_emit H. destruct (negb _); [done |]. etrans; [done | apply IH].
Qed.

Lemma credit_stream_hush s j : hush s (credit_stream s j).
Proof.
  unfold credit_stream. destruct (_ <=? 0); [reflexivity |]. destruct (_ <? _); [reflexivity |].
  unfold credit_emit. match goal with |- context [credit_loop ?n ?s ?i ?w ?p] =>
    pose proof (credit_loop_hush n s i w p) as H; destruct (credit_loop n s i w p) as [[s1 w1] p1] end.
  etrans; [exact H | auto with opens].
Qed.

Lemma credit_session_hush s : hush s (credit_session s).
Proof.
  unfold credit_session. destruct (_ <=? 0); [reflexivity |]. destruct (_ <? _); [reflexivity |].
  unfold credit_emit. match goal with |- context [credit_loop ?n ?s ?i ?w ?p] =>
    pose proof (credit_loop_hush n s i w p) as H; destruct (credit_loop n s i w p) as [[s1 w1] p1] end.
  etrans; [exact H | auto with opens].
Qed.

Lemma mux_consume_hush s sid n : hush s (mux_consume s sid n).2.
Proof.
  unfold mux_consume. destruct (s_dead s); [reflexivity |]. destruct (n =? 0); [reflexivity |].
  set (s1 := s <| s_recv_pending ::= _ |>).
  assert (hush s (credit_session s1)) as H by (etrans; [| apply credit_session_hush]; by apply keep_hush).
  destruct (st_find _ _) as [j|]; [| exact H]. cbn [snd]. etrans; [exact H |].
  etrans; [| apply credit_stream_hush]. auto with opens.
Qed.

Lemma write_loop_hush fuel s sid p want sent : hush s (write_loop fuel s sid p want sent).2.
Proof.
  revert s sent. induction fuel as [|k IH]; intros s sent; simpl; [reflexivity |].
  destruct (sent <? want); [| reflexivity]. after_emit H. destruct (negb _); [done |]. etrans; [done | apply IH].
Qed.

Lemma mux_write_hush s sid p n : hush s (mux_write s sid p n).2.
Proof.
  unfold mux_write. destruct (_ && _); [reflexivity |]. destruct (s_dead s); [reflexivity |].
  destruct (st_find _ _) as [j|]; [| reflexivity]. destruct (decide _); [reflexivity |]. cbv zeta.
  destruct (_ <=? 0); [apply set_blocked_hush |].
  match goal with |- context [write_loop ?a ?b ?c ?d ?e ?f] =>
    pose proof (write_loop_hush a b c d e f) as H; destruct (write_loop a b c d e f) as [sent s1] end.
  cbn [snd] in *. etrans; [exact H |].
  match goal with |- context [if ?b then _ else _] => destruct b end; [| auto with opens].
  etrans; [| apply set_blocked_hush]. auto with opens.
Qed.

Lemma mux_close_hush s sid : hush s (mux_close s sid).2.
Proof.
  unfold mux_close. destruct (s_dead s); [reflexivity |]. destruct (st_find _ _) as [j|]; [| reflexivity].
  destruct (decide _); [reflexivity |]. after_emit H. destruct (negb _); [done |].
  destruct (decide _); (etrans; [exact H |]); cbn [snd]; auto with opens.
Qed.

Lemma mux_reset_hush s sid code : hush s (mux_reset s sid code).2.
Proof.
  unfold mux_reset. destruct (s_dead s); [reflexivity |]. destruct (st_find _ _) as [j|]; [| reflexivity].
  cbn [snd]. etrans; [apply emit_rst_hush | apply close_stream_hush].
Qed.

Lemma mux_goaway_hush s reason : hush s (mux_goaway s reason).2.
Proof.
  unfold mux_goaway. destruct (s_dead s); [reflexivity |]. etrans; [| apply emit_hush]. auto with opens.
Qed.

Lemma mux_on_timer_hush s now : hush s (mux_on_timer s now).2.
Proof.
  assert (∀ s, hush s (timer_ping s now)) as Ht.
  { intros s'. unfold timer_ping. after_emit H. destruct (_ =? 0); [| done]. etrans; [exact H | auto with opens]. }
  unfold mux_on_timer. destruct (_ || _); [reflexivity |]. destruct (negb _); [cbn [snd]; auto with opens |].
  destruct (_ && _); [cbn [snd]; auto with opens |]. cbv zeta.
  destruct (now >=? _); destruct (_ && _); cbn [snd]; auto; reflexivity.
Qed.

Lemma mux_send_advance_hush s n : hush s (mux_send_advance s n).
Proof. by apply keep_hush. Qed.

(** The bytes [mux_write] accepts are at most those offered. *)
Lemma write_loop_le fuel s sid p want sent : sent ≤ want → (write_loop fuel s sid p want sent).1 ≤ want.
Proof.
  revert s sent. induction fuel as [|k IH]; intros s sent Hs; simpl; [done |].
  destruct (Z.ltb_spec sent want); [| done]. destruct (emit _ _ _ _ _ _) as [r s1].
  destruct (negb _); [done |]. apply IH. destruct (Z.gtb_spec (want - sent) MUX_MAX_DATA_FRAME); lia.
Qed.

Lemma to_i64_le n : 0 ≤ n → to_i64 n ≤ n.
Proof.
  intros Hn. unfold to_i64, to_signed. pose proof (Z.mod_le n (2 ^ 64) Hn ltac:(lia)).
  destruct (_ <? _); lia.
Qed.

Lemma mux_write_le s sid p n : 0 ≤ n → (mux_write s sid p n).1 ≤ n.
Proof.
  intros Hn. unfold mux_write. destruct (_ && _); [by transitivity 0 |]. destruct (s_dead s); [by transitivity 0 |].
  destruct (st_find _ _) as [j|]; [| by transitivity 0]. destruct (decide _); [by transitivity 0 |]. cbv zeta.
  set (room := if s_send_win s <? _ then _ else _). destruct (Z.leb_spec room 0); [done |].
  set (want := if to_i64 n >? room then room else n).
  assert (0 ≤ want ≤ n) as Hw.
  { unfold want. pose proof (to_i64_le n Hn). destruct (Z.gtb_spec (to_i64 n) room); lia. }
  pose proof (write_loop_le (Z.to_nat (want / MUX_MAX_DATA_FRAME + 1)) s sid (vbytes p) want 0 ltac:(lia)) as H1.
  destruct (write_loop _ _ _ _ _ _) as [sent s1]. cbn [fst] in *. lia.
Qed.

(** ** Frame handlers *)

(** SYN: the id is above every one seen, and becomes the highest. *)
Lemma on_syn_opens s f : f_len f = zlen (vbytes (f_payload f)) → opens s (on_syn s f).
Proof.
  intros Hlen. unfold on_syn. assert (∀ c, opens s (raise_fatal s c)) as Hf by auto with opens.
  destruct (negb (s_peer_hello_seen s)); [apply Hf |]. cbv zeta.
  destruct (negb (_ =? _)); [apply Hf |]. destruct (_ =? _); [apply Hf |]. destruct (bool_decide _); [apply Hf |].
  destruct (Z.leb_spec (f_sid f) (s_max_remote_sid s)); [apply Hf |].
  destruct (_ >? _); [apply Hf |]. destruct (_ || _).
  { intros Hq. destruct (emit_rst_hush s (f_sid f) MUX_CODE_REFUSED Hq) as [Q M N (evs & E & O & Z & _)].
    split; [exact Q | exact N |]. exists evs. split_and!; [exact E | done | rewrite O; cbn; lia]. }
  destruct (st_insert _ _ _) as [[[j|] h] t]; cbv zeta.
  2:{ apply hush_opens. etrans; [| apply raise_fatal_hush]. by apply keep_hush. }
  set (s1 := st_modify _ _ _). set (s2 := s1 <| s_max_remote_sid := f_sid f |>).
  assert (opens s (push s2 (EV_STREAM_OPENED (f_sid f) (f_payload f) (f_len f)))) as Hp.
  { intros Hq. assert (evq_wf (s_q s2)) as Hq2 by exact Hq.
    destruct (push_events s2 (EV_STREAM_OPENED (f_sid f) (f_payload f) (f_len f)) Hq2)
      as (Q & M & N & _ & evs & E & Hc). split; [done.. |]. exists evs. rewrite M. split; [exact E |].
    destruct Hc as [->| ->]; cbn; split; auto; lia. }
  destruct (has_flag _ MUX_F_RST).
  { etrans; [| apply hush_opens, close_stream_hush]. etrans; [exact Hp | apply ev_simple_opens; set_solver]. }
  destruct (has_flag _ MUX_F_FIN); [| exact Hp]. etrans; [exact Hp |].
  etrans; [| apply ev_simple_opens; set_solver]. by apply keep_opens.
Qed.

Lemma on_fin_opens s f j : opens s (on_fin s f j).
Proof.
  unfold on_fin. destruct (has_flag _ _); [| reflexivity]. destruct (decide _).
  - etrans; [| apply hush_opens, close_stream_hush]. apply ev_simple_opens; set_solver.
  - transitivity (ev_simple s MUX_EV_STREAM_CLOSED (f_sid f)); [| by apply keep_opens].
    apply ev_simple_opens; set_solver.
Qed.

Lemma abort_stream_opens s sid code j : opens s (abort_stream s sid code j).
Proof.
  unfold abort_stream. etrans; [| apply hush_opens, close_stream_hush].
  etrans; [apply hush_opens, emit_rst_hush | apply ev_simple_opens; set_solver].
Qed.

#[export] Hint Resolve on_syn_opens on_fin_opens abort_stream_opens : opens.

Lemma on_data_opens s f : f_len f = zlen (vbytes (f_payload f)) → opens s (on_data s f).
Proof.
  intros Hlen. unfold on_data. destruct (has_flag _ MUX_F_SYN); [auto with opens |].
  destruct (_ =? _); [auto with opens |]. destruct (st_find _ _) as [j|]; [| reflexivity].
  destruct (has_flag _ MUX_F_RST).
  { etrans; [| apply hush_opens, close_stream_hush]. by apply push_opens. }
  destruct (_ >? 0); [| auto with opens]. destruct (decide _); [auto with opens |].
  destruct (_ >? _); [auto with opens |]. destruct (_ >? _); [auto with opens |]. cbv zeta.
  etrans; [| apply on_fin_opens]. etrans; [| by apply push_opens]. by apply keep_opens.
Qed.

Lemma wake_one_opens s i : opens s (wake_one s i).
Proof.
  unfold wake_one. destruct (_ && _); [| reflexivity].
  etrans; [apply hush_opens, set_blocked_hush | apply ev_simple_opens; set_solver].
Qed.

Lemma wake_sweep_opens s : opens s (wake_sweep s).
Proof.
  unfold wake_sweep. generalize (seq 0 (Z.to_nat (t_cap (s_tab s)))). intros l. revert s.
  induction l as [|i l IH]; intros s; cbn [foldl]; [reflexivity |]. etrans; [apply wake_one_opens | apply IH].
Qed.

Lemma on_window_update_opens s f : opens s (on_window_update s f).
Proof.
  unfold on_window_update. destruct (negb _); [auto with opens |]. destruct (_ =? _).
  - unfold grant_session. destruct (_ >? _); [etrans; [| apply hush_opens, raise_fatal_hush]; by apply keep_opens |].
    destruct (_ && _); [| auto with opens]. etrans; [| apply wake_sweep_opens]. by apply keep_opens.
  - destruct (st_find _ _) as [j|]; [| reflexivity]. unfold grant_stream.
    destruct (_ >? _); [etrans; [| apply hush_opens, raise_fatal_hush]; by apply keep_opens |].
    destruct (_ && _); [| auto with opens]. etrans; [| apply ev_simple_opens; set_solver].
    etrans; [| apply hush_opens, set_blocked_hush]. by apply keep_opens.
Qed.

Lemma hello_loop_keeps fuel s e payload len cursor :
  let '(_, s', _) := hello_loop fuel s e payload len cursor in
  s_q s' = s_q s ∧ s_max_remote_sid s' = s_max_remote_sid s ∧ s_next_local_sid s' = s_next_local_sid s.
Proof.
  revert s e cursor. induction fuel as [|k IH]; intros s e cursor; simpl; [done |].
  destruct (mux_tlv_next _ _ _) as [|?|t val vlen c']; [done .. |].
  assert (s_q (hello_tlv s e t val vlen).1 = s_q s ∧
          s_max_remote_sid (hello_tlv s e t val vlen).1 = s_max_remote_sid s ∧
          s_next_local_sid (hello_tlv s e t val vlen).1 = s_next_local_sid s) as (Eq & Em & En).
  { unfold hello_tlv. repeat case_match; done. }
  destruct (hello_tlv s e t val vlen) as [s1 e1]. cbn [fst] in *. specialize (IH s1 e1 c').
  destruct (hello_loop k s1 e1 payload len c') as [[b s2] e2]. destruct IH as (? & ? & ?). split_and!; congruence.
Qed.

Lemma send_hello_hush s ack : hush s (send_hello s ack).2.
Proof.
  unfold send_hello. destruct (hello_blob s) as [r|[blob off]]; [reflexivity |]. after_emit H. cbn [snd].
  destruct (_ =? 0); [| exact H]. etrans; [exact H | auto with opens].
Qed.

Lemma on_hello_opens s f ack : opens s (on_hello s f ack).
Proof.
  unfold on_hello. destruct (negb _); [auto with opens |]. destruct (s_peer_hello_seen s); [auto with opens |].
  pose proof (hello_loop_keeps (S (Z.to_nat (f_len f))) s hello_zero (f_payload f) (f_len f) 0) as H.
  destruct (hello_loop _ _ _ _ _ _) as [[ok s1] e]. destruct H as (Eq & Em & En).
  assert (opens s s1) as H1 by by apply keep_opens. destruct (negb ok); [etrans; [exact H1 | auto with opens] |].
  cbv zeta. set (s2 := push _ _).
  assert (opens s s2) as H2.
  { etrans; [exact H1 |]. etrans; [| by apply push_opens]. by apply keep_opens. }
  destruct (_ && _); [| exact H2]. etrans; [exact H2 | apply hush_opens, send_hello_hush].
Qed.

Lemma process_frame_opens s f : f_len f = zlen (vbytes (f_payload f)) → opens s (process_frame s f).
Proof.
  intros Hlen. unfold process_frame. destruct (_ && _); [auto with opens |].
  destruct (_ =? MUX_T_DATA); [by apply on_data_opens |].
  destruct (_ =? MUX_T_WINDOW_UPDATE); [apply on_window_update_opens |].
  destruct (_ =? MUX_T_PING).
  { unfold on_ping. destruct (_ || _); [| destruct (has_flag _ _)]; auto with opens. }
  destruct (_ =? MUX_T_GOAWAY); [unfold on_goaway; repeat case_match; auto with opens; by apply push_opens |].
  destruct (_ =? MUX_T_HELLO); [apply on_hello_opens |].
  destruct (_ =? MUX_T_HELLO_ACK); [apply on_hello_opens |].
  destruct (_ =? MUX_T_CAPACITY); [unfold on_capacity; repeat case_match; auto with opens; by apply push_opens |].
  auto with opens.
Qed.

Lemma parse_sized p f c :
  mux_parse (Some p) (zlen p) = inr (f, c) → f_len f = zlen (vbytes (f_payload f)).
Proof.
  intros (_ & Hh & -> & Ec & _ & Hc)%parse_ok_inv. cbn [f_len f_payload].
  pose proof (be_get32_range (zdrop 8 p)).
  destruct (Z.gtb_spec (be_get32 (zdrop 8 p)) 0); cbn [vbytes default]; [| rewrite zlen_nil; lia].
  unfold vbytes. cbn. rewrite zlen_ztake; [done |]. unfold MUX_HEADER_SIZE in *. rewrite zlen_zdrop; lia.
Qed.

Lemma feed_opens k s bs : opens s (feed k s bs).2.
Proof.
  revert s bs. induction k as [|k IH]; intros s bs; [reflexivity |]. rewrite feed_S. cbv zeta.
  destruct (0 <? zlen bs); [| reflexivity]. destruct (q_full s); [reflexivity |].
  destruct (mux_parse _ _) as [r|[f c]] eqn:E.
  { cbn [snd]. destruct (_ =? _); [reflexivity | auto with opens]. }
  apply parse_sized in E. pose proof (process_frame_opens s f E) as Hp.
  destruct (s_dead _); [done |]. specialize (IH (process_frame s f) (zdrop c bs)).
  destruct (feed k _ _) as [c' s']. etrans; [exact Hp | exact IH].
Qed.

Lemma mux_recv_opens s bs : opens s (mux_recv s (Some bs) (zlen bs)).2.
Proof.
  destruct (s_dead s) eqn:Hd.
  - unfold mux_recv. rewrite Hd, bool_decide_eq_false_2 by done. reflexivity.
  - pose proof (zlen_nonneg bs). rewrite (mux_recv_feed (Z.to_nat (zlen bs))) by (done || lia). apply feed_opens.
Qed.

(** ** A new session *)

Lemma session_new_opens h cfg role s :
  mux_session_new h cfg role = Some s →
  evq_wf (s_q s) ∧ opened (events s) = [] ∧ Forall ev_sized (events s) ∧ s_max_remote_sid s = 0.
Proof.
  unfold mux_session_new. destruct (_ || _); [done |]. destruct (alloc h) as [ok h0]. destruct (negb ok); [done |].
  assert (∀ s, s_q s = evq_empty → s_max_remote_sid s = 0 →
    evq_wf (s_q s) ∧ opened (events s) = [] ∧ Forall ev_sized (events s) ∧ s_max_remote_sid s = 0) as Hz.
  { intros s' Eq Em. rewrite Eq. split_and!; [apply evq_empty_wf | done | done | done]. }
  intros ([[p1 n1] h1] & _ & E1)%bind_Some. cbv beta iota zeta in E1.
  apply bind_Some in E1 as ([[p2 n2] h2] & _ & E2). cbv beta iota zeta in E2.
  apply bind_Some in E2 as ([[p3 n3] h3] & _ & E3). cbv beta iota zeta in E3.
  destruct (st_grow _ _ _) as [[r h4] t]. destruct (negb (r =? 0)); [done |].
  destruct role; [| injection E3 as <-; by apply Hz].
  match type of E3 with context [send_hello ?s1 ?a] =>
    pose proof (send_hello_hush s1 a) as Hh; destruct (Hz s1 eq_refl eq_refl) as (Q1 & O1 & Z1 & M1);
    destruct (send_hello s1 a) as [r1 s2] end.
  cbn [snd] in Hh. destruct (negb (r1 =? 0)); [done |]. injection E3 as <-.
  destruct (Hh Q1) as [Q2 M2 _ (evs & E & O2 & Z2 & _)]. split_and!; [done | | | congruence].
  - rewrite E. unfold opened in *. by rewrite omap_app, O1, O2.
  - rewrite E. by apply Forall_app.
Qed.

(** The first id a session hands out. *)
Lemma session_new_next h cfg role s :
  mux_session_new h cfg role = Some s →
  s_next_local_sid s = match role with MUX_DIALER => 1 | MUX_ACCEPTOR => 2 end.
Proof.
  unfold mux_session_new. destruct (_ || _); [done |]. destruct (alloc h) as [ok h0]. destruct (negb ok); [done |].
  intros ([[p1 n1] h1] & _ & E1)%bind_Some. cbv beta iota zeta in E1.
  apply bind_Some in E1 as ([[p2 n2] h2] & _ & E2). cbv beta iota zeta in E2.
  apply bind_Some in E2 as ([[p3 n3] h3] & _ & E3). cbv beta iota zeta in E3.
  destruct (st_grow _ _ _) as [[r h4] t]. destruct (negb (r =? 0)); [done |].
  destruct role; [| by injection E3 as <-].
  match type of E3 with context [send_hello ?s1 ?a] =>
    pose proof (send_hello_hush s1 a) as Hh; assert (evq_wf (s_q s1)) as Hq by apply evq_empty_wf;
    destruct (send_hello s1 a) as [r1 s2] end.
  cbn [snd] in Hh. destruct (negb (r1 =? 0)); [done |]. injection E3 as <-. by destruct (Hh Hq) as [_ _ -> _].
Qed.

(** [mux_open] hands out the next id, which moves on by two; no event but its
    own failure is queued. *)
Lemma mux_open_next s meta n :
  let '(r, s') := mux_open s meta n in
  (r < 0 ∧ s' = s) ∨
  (s_next_local_sid s ≠ 0 ∧ (r < 0 ∨ r = s_next_local_sid s) ∧
   hush (s <| s_next_local_sid := u32 (s_next_local_sid s + 2) |>) s').
Proof.
  unfold mux_open. destruct (s_dead s); [by left |]. destruct (negb _); [by left |]. destruct (s_local_goaway s); [by left |].
  destruct (_ >? _); [by left |]. destruct (_ >=? _); [by left |].
  destruct (Z.eqb_spec (s_next_local_sid s) MUX_SID_CONTROL) as [|Hne]; [by left |]. cbv zeta.
  set (s1 := s <| s_next_local_sid := _ |>). destruct (st_insert _ _ _) as [[o h] t].
  destruct o as [j|]; [| right; split_and!; [done | by left | auto with opens]].
  after_emit H. destruct (negb _); right; (split_and!; [done | |]); try (by left); try (by right).
  - etrans; [| apply st_remove_hush]. etrans; [| exact H]. auto with opens.
  - etrans; [| exact H]. auto with opens.
Qed.
