(* ===== verification/PeerInv.v ===== *)
(** The invariant of a libpeer client, for every interleaving of the I/O
    thread's sections with application calls.

    The intrusive lists hold exactly the streams whose flag says so, and live
    ones only; the registry maps each registered id to its one stream; ids the
    session has yet to report are above the registered ones.  From that every
    pointer the library follows is live.  [inv] has four ghost arguments: the
    streams whose bookkeeping is in progress, the part of the pending list a
    section has detached, the handles the application holds, and whether
    readiness is signalled. *)

From stdpp Require Import base list numbers gmap.
From Stdlib Require Import ZArith Lia.
From S2P Require Import Prelude Frame OutBuf EventQueue Probe StreamTable Session SessionIO Handshake Recv SessionOpens Auth Host Fifo Umap Peer.

(** ** Lists of flagged streams *)

Abbreviation smap := (gmap Z lp_stream).

(** [l] lists, once each, the streams that satisfy [f]. *)
Definition flagged (f : lp_stream → bool) (l : list Z) (m : smap) : Prop :=
  NoDup l ∧ ∀ p, p ∈ l ↔ ∃ s, m !! p = Some s ∧ f s = true.

Section Flagged.
Context (f : lp_stream → bool).
Implicit Types (l : list Z) (m : smap) (p : Z) (s : lp_stream).

Lemma flagged_lookup l m p s : flagged f l m → m !! p = Some s → f s = true ↔ p ∈ l.
Proof. intros [_ H] Hp. rewrite H. naive_solver. Qed.

Lemma flagged_live l m p : flagged f l m → p ∈ l → ∃ s, m !! p = Some s ∧ f s = true.
Proof. intros [_ H] Hp. by apply H. Qed.

Lemma flagged_perm l l' m : l ≡ₚ l' → flagged f l m → flagged f l' m.
Proof. intros E [Hn H]. split; [by rewrite <- E |]. intros p. rewrite <- E. apply H. Qed.

Lemma flagged_same l m p s s' : m !! p = Some s → f s' = f s → flagged f l m → flagged f l (<[p := s']> m).
Proof.
  intros Hp Hf [Hn H]. split; [done |]. intros q. rewrite H. split; intros (x & Hx & Fx).
  - destruct (decide (q = p)) as [->|].
    + exists s'. rewrite lookup_insert_eq. split; [done | congruence].
    + exists x. by rewrite lookup_insert_ne.
  - apply lookup_insert_Some in Hx as [[<- <-]|[_ Hx]]; [exists s; split; congruence | by exists x].
Qed.

Lemma flagged_set l m p s s' :
  m !! p = Some s → f s = false → f s' = true → flagged f l m → flagged f (p :: l) (<[p := s']> m).
Proof.
  intros Hp Hf Hf' [Hn H]. split.
  - constructor; [| done]. intros (x & Hx & Fx)%H. congruence.
  - intros q. rewrite elem_of_cons, H. split.
    + intros [->|(x & Hx & Fx)]; [exists s'; by rewrite lookup_insert_eq |].
      exists x. rewrite lookup_insert_ne; [done |]. intros ->. congruence.
    + intros (x & [[<- _]|[_ Hx]]%lookup_insert_Some & Fx); [by left | right; by exists x].
Qed.

Lemma flagged_clear l m p s' : f s' = false → flagged f (p :: l) m → flagged f l (<[p := s']> m).
Proof.
  intros Hf' [Hn H]. apply NoDup_cons in Hn as [Hp Hn]. split; [done |]. intros q. split.
  - intros Hq. assert (q ∈ p :: l) as (x & Hx & Fx)%H by by right. exists x.
    rewrite lookup_insert_ne; [done |]. intros ->. done.
  - intros (x & [[<- <-]|[Hne Hx]]%lookup_insert_Some & Fx); [congruence |].
    assert (q ∈ p :: l) as Hq by (apply H; by exists x). apply elem_of_cons in Hq as [->|]; done.
Qed.

Lemma flagged_delete l m p s : m !! p = Some s → f s = false → flagged f l m → flagged f l (delete p m).
Proof.
  intros Hp Hf [Hn H]. split; [done |]. intros q. rewrite H. split; intros (x & Hx & Fx).
  - exists x. rewrite lookup_delete_ne; [done |]. intros ->. congruence.
  - apply lookup_delete_Some in Hx as [_ Hx]. by exists x.
Qed.

Lemma flagged_remove l m p : flagged f l m → flagged f (remove_all p l) (delete p m).
Proof.
  intros [Hn H]. unfold remove_all. split; [by apply NoDup_filter |]. intros q.
  rewrite list_elem_of_filter, H. split.
  - intros [Hne (x & Hx & Fx)]. exists x. by rewrite lookup_delete_ne.
  - intros (x & [Hne Hx]%lookup_delete_Some & Fx). split; [done | by exists x].
Qed.

Lemma flagged_fresh l m p s' :
  m !! p = None → flagged f l m → flagged f (if f s' then p :: l else l) (<[p := s']> m).
Proof.
  intros Hp [Hn H]. destruct (f s') eqn:Hf.
  - split.
    + constructor; [| done]. intros (x & Hx & _)%H. congruence.
    + intros q. rewrite elem_of_cons, H. split.
      * intros [->|(x & Hx & Fx)]; [exists s'; by rewrite lookup_insert_eq |].
        exists x. rewrite lookup_insert_ne; [done |]. intros ->. congruence.
      * intros (x & [[<- _]|[_ Hx]]%lookup_insert_Some & Fx); [by left | right; by exists x].
  - split; [done |]. intros q. rewrite H. split.
    + intros (x & Hx & Fx). exists x. rewrite lookup_insert_ne; [done |]. intros ->. congruence.
    + intros (x & [[<- <-]|[_ Hx]]%lookup_insert_Some & Fx); [congruence | by exists x].
Qed.
End Flagged.

(** ** The registry *)

(** The registry maps each id to the stream registered under it. *)
Definition registered (r : umap) (m : smap) : Prop :=
  ∃ g, represents r g ∧
    ∀ k p, g !! k = Some p ↔ ∃ s, m !! p = Some s ∧ ls_in_reg s = true ∧ ls_sid s = k.

(** Streams the session has yet to report have ids above the registered ones. *)
Definition fresh_opens (m : smap) (mx : option mux_session) : Prop :=
  match mx with
  | None => ∀ p s, m !! p = Some s → ls_in_reg s = false
  | Some x => evq_wf (s_q x) ∧ Forall ev_sized (events x) ∧
      ∃ lo, climbs lo (opened (events x)) (s_max_remote_sid x) ∧
        ∀ p s, m !! p = Some s → ls_in_reg s = true → ls_sid s ≤ lo
  end.

(** Both depend on the registration fields only. *)
Definition reg_same (m m' : smap) : Prop :=
  ∀ k p, (∃ s, m' !! p = Some s ∧ ls_in_reg s = true ∧ ls_sid s = k) ↔
         (∃ s, m !! p = Some s ∧ ls_in_reg s = true ∧ ls_sid s = k).

Lemma registered_same r m m' : reg_same m m' → registered r m → registered r m'.
Proof. intros H (g & Hr & Hg). exists g. split; [done |]. intros k p. by rewrite Hg, (H k p). Qed.

Lemma fresh_same m m' mx : reg_same m m' → fresh_opens m mx → fresh_opens m' mx.
Proof.
  intros H. destruct mx as [x|]; simpl.
  - intros (Q & Z & lo & C & L). split_and!; [done | done |]. exists lo. split; [done |]. intros p s Hp Hr.
    destruct (proj1 (H (ls_sid s) p)) as (s0 & H0 & R0 & E0); [by exists s |]. rewrite <- E0. by eapply L.
  - intros L p s Hp. destruct (ls_in_reg s) eqn:E; [| done].
    destruct (proj1 (H (ls_sid s) p)) as (s0 & H0 & R0 & E0); [by exists s |]. rewrite (L p s0 H0) in R0. done.
Qed.

Lemma reg_same_insert m p s s' :
  m !! p = Some s → ls_in_reg s' = ls_in_reg s → ls_sid s' = ls_sid s → reg_same m (<[p := s']> m).
Proof.
  intros Hp Er Es k q. split.
  - intros (x & [[<- <-]|[_ Hx]]%lookup_insert_Some & R & K); [exists s; split_and!; congruence | by exists x].
  - intros (x & Hx & R & K). destruct (decide (q = p)) as [->|].
    + exists s'. rewrite lookup_insert_eq. split_and!; [done | congruence | congruence].
    + exists x. by rewrite lookup_insert_ne.
Qed.

Lemma reg_same_fresh m p s' : m !! p = None → ls_in_reg s' = false → reg_same m (<[p := s']> m).
Proof.
  intros Hp Hr k q. split.
  - intros (x & [[<- <-]|[_ Hx]]%lookup_insert_Some & R & K); [congruence | by exists x].
  - intros (x & Hx & R & K). exists x. rewrite lookup_insert_ne; [done |]. intros ->. congruence.
Qed.

Lemma reg_same_delete m p s : m !! p = Some s → ls_in_reg s = false → reg_same m (delete p m).
Proof.
  intros Hp Hr k q. split.
  - intros (x & [_ Hx]%lookup_delete_Some & R & K). by exists x.
  - intros (x & Hx & R & K). exists x. rewrite lookup_delete_ne; [done |]. intros ->. congruence.
Qed.

(** ** The invariant *)

(** What holds of a stream at all times. *)
Record stream_ok (s : lp_stream) : Prop := {
  so_fin : ls_fin_sent s = true → ls_app_closed s = true ∧ buf_avail (ls_wbuf s) = 0;
  so_done : ls_proto_done s = ls_reset s || (ls_eof s && ls_fin_sent s);
  so_reset : ls_reset s = true → ls_eof s = true;
  so_events : ls_ev_pending s ≠ 0 → ls_in_ready s = true;
  so_bits : Z.testbit (ls_ev_pending s) 0 = false;
}.

(** What holds of a stream whose bookkeeping is not in progress: credit and the
    close are queued for the I/O thread, and a stream both sides are done with
    is queued for a pass that frees it. *)
Record settled (s : lp_stream) : Prop := {
  se_credit : 0 < ls_consume_pending s → ls_in_pending s = true ∨ ls_proto_done s = true;
  se_close : ls_app_closed s = true → ls_fin_sent s = true ∨ ls_in_pending s = true ∨
    buf_avail (ls_wbuf s) ≠ 0 ∨ ls_proto_done s = true;
  se_reap : ls_proto_done s = true → ls_app_closed s = true →
    ls_in_pending s = true ∨ ls_in_ready s = true;
}.

Definition unclosed (s : lp_stream) : bool := negb (ls_app_closed s).

Record inv (X : Z → Prop) (loc own : list Z) (arm : bool) (c : lp_client) : Prop := {
  iv_all : flagged (fun _ => true) (lc_all c) (lc_streams c);
  iv_pending : flagged ls_in_pending (lc_pending c ++ loc) (lc_streams c);
  iv_ready : flagged ls_in_ready (lc_ready c) (lc_streams c);
  iv_handles : flagged unclosed (lc_accept c ++ own) (lc_streams c);
  iv_brk : ∀ p, is_Some (lc_streams c !! p) → p < lc_brk c;
  iv_reg : registered (lc_reg c) (lc_streams c);
  iv_mux : fresh_opens (lc_streams c) (lc_mux c);
  iv_streams : ∀ p s, lc_streams c !! p = Some s → stream_ok s ∧ (X p ∨ settled s);
  iv_poll : lc_ready c ≠ [] → lc_poll_mode c = true;
  iv_notify : lc_notify c = b2z (lc_notified c);
  iv_armed : arm = true → lc_poll_mode c = true → lc_accept c ≠ [] ∨ lc_ready c ≠ [] → lc_notified c = true;
  iv_heap : lc_heap c = [];
  iv_fd : lc_fd c < 0 ↔ lc_mux c = None;
  iv_recv : zlen (lc_recv c) ≤ LP_RECV_SIZE;
}.

(** The fields the invariant does not mention. *)
Record inv_view (c c' : lp_client) : Prop := {
  vw_all : lc_all c' = lc_all c;
  vw_pending : lc_pending c' = lc_pending c;
  vw_ready : lc_ready c' = lc_ready c;
  vw_accept : lc_accept c' = lc_accept c;
  vw_streams : lc_streams c' = lc_streams c;
  vw_brk : lc_brk c' = lc_brk c;
  vw_reg : lc_reg c' = lc_reg c;
  vw_mux : lc_mux c' = lc_mux c;
  vw_poll : lc_poll_mode c' = lc_poll_mode c;
  vw_notified : lc_notified c' = lc_notified c;
  vw_notify : lc_notify c' = lc_notify c;
  vw_heap : lc_heap c' = lc_heap c;
  vw_fd : lc_fd c' = lc_fd c;
  vw_recv : lc_recv c' = lc_recv c;
}.

Lemma inv_other X loc own arm c c' : inv_view c c' → inv X loc own arm c → inv X loc own arm c'.
Proof.
  intros [E1 E2 E3 E4 E5 E6 E7 E8 E9 E10 E11 E12 E13 E14] [].
  split; rewrite ?E1, ?E2, ?E3, ?E4, ?E5, ?E6, ?E7, ?E8, ?E9, ?E10, ?E11, ?E12, ?E13, ?E14; done.
Qed.

Ltac same_view := split; reflexivity.

Lemma inv_mono (X X' : Z → Prop) loc own arm c : (∀ p, X p → X' p) → inv X loc own arm c → inv X' loc own arm c.
Proof.
  intros H []. split; try done. intros p s Hp. destruct (iv_streams0 p s Hp) as [? [?|?]]; auto.
Qed.

Lemma inv_arm X loc own arm arm' c :
  (arm' = true → arm = true) → inv X loc own arm c → inv X loc own arm' c.
Proof. intros Ha []. split; try done. auto. Qed.

(** Bookkeeping of [p] begins, and is done. *)
Definition opening (p : Z) (X : Z → Prop) : Z → Prop := fun q => q = p ∨ X q.
Definition closing (p : Z) (X : Z → Prop) : Z → Prop := fun q => q ≠ p ∧ X q.

Lemma inv_settle X loc own arm c p :
  (∀ s, lc_streams c !! p = Some s → settled s) → inv X loc own arm c → inv (closing p X) loc own arm c.
Proof.
  intros H []. split; try done. intros q s Hq. destruct (iv_streams0 q s Hq) as [Ho Hx]. split; [done |].
  destruct (decide (q = p)) as [->|]; [right; by apply H |]. destruct Hx; [by left | by right].
Qed.

(** A stream's other fields change. *)
Record same_flags (s s' : lp_stream) : Prop := {
  sf_sid : ls_sid s' = ls_sid s;
  sf_reg : ls_in_reg s' = ls_in_reg s;
  sf_pending : ls_in_pending s' = ls_in_pending s;
  sf_ready : ls_in_ready s' = ls_in_ready s;
  sf_closed : ls_app_closed s' = ls_app_closed s;
}.

Definition put_stream (p : Z) (s : lp_stream) (c : lp_client) : lp_client :=
  c <| lc_streams ::= <[p := s]> |>.

Lemma brk_insert (m : smap) p s s' b :
  m !! p = Some s → (∀ q, is_Some (m !! q) → q < b) → ∀ q, is_Some (<[p := s']> m !! q) → q < b.
Proof.
  intros Hp H q. destruct (decide (q = p)) as [->|].
  - intros _. apply H. by exists s.
  - rewrite lookup_insert_ne by done. apply H.
Qed.

Lemma streams_insert (m : smap) (X X' : Z → Prop) p s' :
  (∀ q s, m !! q = Some s → stream_ok s ∧ (X q ∨ settled s)) → (∀ q, q ≠ p → X q → X' q) →
  stream_ok s' → (X' p ∨ settled s') →
  ∀ q s, <[p := s']> m !! q = Some s → stream_ok s ∧ (X' q ∨ settled s).
Proof.
  intros H HX Ho Hx q s [[<- <-]|[Hne Hq]]%lookup_insert_Some; [done |].
  destruct (H q s Hq) as [? [?|?]]; auto.
Qed.

Lemma inv_put X loc own arm c p s s' :
  inv X loc own arm c → lc_streams c !! p = Some s → same_flags s s' → stream_ok s' → (X p ∨ settled s') →
  inv X loc own arm (put_stream p s' c).
Proof.
  intros [] Hp [E1 E2 E3 E4 E5] Ho Hx. unfold put_stream.
  assert (reg_same (lc_streams c) (<[p := s']> (lc_streams c))) as Hr by by apply (reg_same_insert _ _ s).
  split; cbn; try done.
  - by apply (flagged_same _ _ _ _ s).
  - by apply (flagged_same _ _ _ _ s).
  - by apply (flagged_same _ _ _ _ s).
  - apply (flagged_same _ _ _ _ s); [done | unfold unclosed; by rewrite E5 | done].
  - by eapply brk_insert.
  - by eapply registered_same.
  - by eapply fresh_same.
  - by eapply streams_insert.
Qed.

(** The session moves on. *)
Lemma inv_mux X loc own arm c x x' :
  inv X loc own arm c → lc_mux c = Some x → opens x x' → inv X loc own arm (c <| lc_mux := Some x' |>).
Proof.
  intros [] Hx Hop. split; cbn; try done; [| by rewrite iv_fd0, Hx]. rewrite Hx in iv_mux0. destruct iv_mux0 as (Q & Z & lo & C & L).
  destruct (Hop Q) as [Q' _ (evs & E & Z' & C')]. split_and!; [done | rewrite E; by apply Forall_app |].
  exists lo. split; [| done]. rewrite E. unfold opened in *. rewrite omap_app. by eapply climbs_app.
Qed.

(** ** Registry operations *)

Lemma put_same c p s : lc_streams c !! p = Some s → put_stream p s c = c.
Proof.
  intros Hp. transitivity (eta_client c); [| by destruct c]. unfold put_stream, upd, upd_lc_streams, eta_client.
  by rewrite insert_id.
Qed.

Lemma heap_same c : lc_heap c = [] → c <| lc_heap := [] |> = c.
Proof. destruct c. cbn. by intros ->. Qed.

Lemma in_reg_same s : ls_in_reg s = true → s <| ls_in_reg := true |> = s.
Proof. destruct s. cbn. by intros ->. Qed.

(** Registering a new stream under a fresh id. *)
Lemma reg_put_fresh c k p s :
  lc_heap c = [] → registered (lc_reg c) (lc_streams c) → lc_streams c !! p = Some s →
  ls_in_reg s = false → ls_sid s = k →
  (∀ q x, lc_streams c !! q = Some x → ls_in_reg x = true → ls_sid x ≠ k) →
  let s' := s <| ls_in_reg := true |> in
  ∃ r, reg_put k p c = Some (tt, put_stream p s' (c <| lc_reg := r |>)) ∧
       registered r (<[p := s']> (lc_streams c)).
Proof.
  intros Hh (g & Hr & Hg) Hp Hf Hk Hnew s'.
  assert (g !! k = None) as Hgk.
  { apply eq_None_ne_Some. intros q (x & Hx & R & K)%Hg. by apply (Hnew q x Hx R). }
  destruct (umap_put_total _ g k p Hr) as (r & E & Hr' & Hc). specialize (Hc Hgk). exists r. split.
  - unfold reg_put, mbind, ST_bind, gets, modify. cbn. rewrite Hh, E.
    destruct (Z.eqb_spec (um_count r) (um_count (lc_reg c))); [lia |]. cbn.
    unfold update, mbind, ST_bind, deref, store, modify. cbn. rewrite Hp. cbn. f_equal. f_equal.
    unfold put_stream. destruct c. cbn in *. by subst.
  - exists (<[k := p]> g). split; [done |]. intros k' q. rewrite lookup_insert_Some, Hg. split.
    + intros [[<- <-]|[Hne (x & Hx & R & K)]].
      * exists s'. by rewrite lookup_insert_eq.
      * exists x. rewrite lookup_insert_ne; [done |]. intros ->. congruence.
    + intros (x & [[<- <-]|[Hne Hx]]%lookup_insert_Some & R & K).
      * left. split; [exact (eq_trans (eq_sym Hk) K) | done].
      * right. split; [intros <-; by apply (Hnew q x) | by exists x].
Qed.

Lemma reg_find_scan s cap k h d n j b :
  pow2 cap → zlen s = cap → scan s cap h (stop k) d n = Some (j, b) →
  reg_find s (cap - 1) k ((h + d) mod cap) n = (Z.of_nat j, b).
Proof.
  intros Hc Hl. revert d. induction n as [|n IH]; intros d; [done |]. simpl. fold (pslot cap h d).
  destruct (pslot_lookup s cap h (pow2_pos _ Hc) Hl d) as [e E]. rewrite E. unfold stop.
  assert (Z.of_nat (pslot cap h d) = (h + d) mod cap) as Ep.
  { unfold pslot. rewrite Z2Nat.id; [done |]. by apply Z.mod_pos_bound, pow2_pos. }
  destruct (ms_used e); simpl; [| intros [= <- <-]; by rewrite Ep].
  destruct (ms_k e =? k); [intros [= <- <-]; by rewrite Ep |]. rewrite probe_next by done. apply IH.
Qed.

(** The walk that re-inserts a cluster moves registered streams only, whose
    [in_reg] is set already. *)
Lemma reg_reput_ok n cap b i j c g :
  pow2 cap → lc_heap c = [] → walking cap b i j (lc_reg c) g →
  (∀ k p, g !! k = Some p → ∃ s, lc_streams c !! p = Some s ∧ ls_in_reg s = true) →
  0 ≤ i < j → j ≤ cap - 1 → cap - j ≤ Z.of_nat n →
  ∃ r, reg_reput (cap - 1) ((b + j) mod cap) n c = Some (tt, c <| lc_reg := r |>) ∧ represents r g.
Proof.
  intros Hc Hh Hwk Hlive. revert j c Hh Hwk Hlive. induction n as [|n IH]; intros j c Hh Hwk Hlive Hij Hj Hn; [lia |].
  pose proof (pow2_pos _ Hc) as Hpos. cbn [reg_reput]. fold (pslot cap b j).
  unfold mbind, ST_bind, gets. cbn.
  destruct (pslot_lookup (um_s (lc_reg c)) cap b Hpos (wk_len _ _ _ _ _ _ Hwk) j) as [e He]. rewrite He.
  destruct (ms_used e) eqn:U; cbn [negb].
  - assert (j ≠ cap - 1) as Hne.
    { intros ->. pose proof (wk_end _ _ _ _ _ _ Hwk) as HE. rewrite He in HE. simpl in HE.
      injection HE as HE. apply mcls_empty in HE. congruence. }
    destruct (udel_step cap b i j (lc_reg c) g e) as (m' & Ep & Hwk' & Hco); try done; [lia |].
    destruct (Hlive (ms_k e) (ms_v e)) as (s & Hs & Rs).
    { apply (wk_map _ _ _ _ _ _ Hwk). exists (pslot cap b j), e. split_and!; [done | | done]. by apply mcls_used. }
    set (c' := c <| lc_reg := m' |>).
    assert (reg_put (ms_k e) (ms_v e)
      (c <| lc_reg := mk_umap (<[pslot cap b j := mslot_clear e]> (um_s (lc_reg c))) (um_cap (lc_reg c)) (um_count (lc_reg c) - 1) |>)
      = Some (tt, c')) as Erp.
    { unfold reg_put, mbind, ST_bind, gets, modify. cbn. rewrite Hh, Ep. cbn.
      destruct (Z.eqb_spec (um_count m') (um_count (lc_reg c) - 1)); [lia |]. cbn.
      unfold update, mbind, ST_bind, deref, store, modify. cbn. rewrite Hs. cbn.
      rewrite in_reg_same by done. f_equal. f_equal. subst c'. destruct c. cbn in *. subst.
      match goal with |- ?a = ?b => change (put_stream (ms_v e) s b = b) end. by apply put_same. }
    unfold modify. rewrite Erp. rewrite probe_next by done.
    destruct (IH (j + 1) c') as (r & -> & Hr); [done | done | done | lia.. |]. exists r. split; [| done]. by destruct c.
  - exists (lc_reg c). split; [by destruct c |]. destruct Hwk as [Ecap Hl Hu Hlin HE Hco Hld Hg]. split; [| done].
    split; rewrite ?Ecap; [lia | intros _ | done | done].
    eapply lin_chain; try done; [lia |]. rewrite He. simpl. f_equal. by apply mcls_empty.
Qed.

#[local] Arguments reg_reput : simpl never.

Lemma reg_remove_ok c p s :
  lc_heap c = [] → registered (lc_reg c) (lc_streams c) → lc_streams c !! p = Some s → ls_in_reg s = true →
  ∃ r, reg_remove (ls_sid s) c = Some (tt, c <| lc_reg := r |>) ∧ registered r (delete p (lc_streams c)).
Proof.
  intros Hh (g & Hr & Hg) Hp Hs. set (k := ls_sid s). assert (g !! k = Some p) as Hk by (apply Hg; by exists s).
  destruct (walking_start _ g k p Hr Hk) as (x & e & b & i & Hch & Hi & Hx & K & El & Hwk).
  pose proof (chain_cap _ _ _ Hch) as Hc. pose proof (chain_len _ _ _ Hch) as Hl.
  unfold reg_remove, mbind, ST_bind, gets. cbn. unfold reg_mix. rewrite umix_home by done.
  rewrite (reg_find_scan _ _ _ _ _ _ x true Hc Hl) by by eapply scan_present. cbn.
  unfold modify. rewrite Nat2Z.id, (list_alter_insert _ _ _ _ Hx), El. set (c1 := c <| lc_reg := _ |>).
  destruct (reg_reput_ok (S (Z.to_nat (um_cap (lc_reg c)))) (um_cap (lc_reg c)) b i (i + 1) c1 (delete k g))
    as (r & Er & Hr'); [done | done | done | | lia | lia | lia |].
  { intros k' q [_ (x' & Hx' & R & _)%Hg]%lookup_delete_Some. by exists x'. }
  exists r. split; [rewrite Er; by destruct c |]. exists (delete k g). split; [done |].
  intros k' q. rewrite lookup_delete_Some, Hg. split.
  - intros [Hne (x' & Hx' & R & K')]. exists x'. rewrite lookup_delete_ne; [done |]. intros ->.
    assert (x' = s) as -> by congruence. done.
  - intros (x' & [Hne Hx']%lookup_delete_Some & R & K'). split; [| by exists x']. intros <-.
    apply Hne. assert (g !! k = Some q) as Hq by (apply Hg; by exists x'). congruence.
Qed.
