(* ===== verification/PeerFrame.v ===== *)
(** libpeer: what the functions leave alone.

    [stays R m] says that [m] takes a client to one related by [R].  Most
    functions write neither the list of pending work nor the wake pipe nor
    [stopping], and only add signals; for them it holds of every [R] that such
    steps respect ([Frame]). *)

From stdpp Require Import base list numbers gmap.
From Stdlib Require Import ZArith Lia.
From S2P Require Import Prelude Frame OutBuf EventQueue Probe StreamTable Session Auth Host Fifo Umap Peer.

Implicit Types (c : lp_client).

(** A relation that holds of every step which does not touch the work, nor the
    request to stop. *)
Class Frame (R : relation lp_client) : Prop := {
  frame_pre :: PreOrder R;
  frame_step c c' : lc_sig c ⊆ lc_sig c' → lc_pending c' = lc_pending c → lc_wake c' = lc_wake c →
    lc_stopping c' = lc_stopping c → R c c';
}.

Definition stays (R : relation lp_client) {A} (m : P A) : Prop := ∀ c a c', m c = Some (a, c') → R c c'.

Section Stays.
Context `{Frame R}.

Lemma stays_ret {A} (a : A) : stays R (mret a).
Proof. intros c a' c' [= _ <-]. reflexivity. Qed.

Lemma stays_undef {A} : stays R (@undef lp_client A).
Proof. done. Qed.

Lemma stays_gets {A} (f : lp_client → A) : stays R (gets f).
Proof. intros c a' c' [= _ <-]. reflexivity. Qed.

Lemma stays_modify f : (∀ c, R c (f c)) → stays R (modify f).
Proof. intros Hf c a' c' [= _ <-]. apply Hf. Qed.

Lemma stays_bind {A B} (m : P A) (f : A → P B) : stays R m → (∀ a, stays R (f a)) → stays R (m ≫= f).
Proof. intros Hm Hf c b c' (a & c1 & E1 & E2)%bind_inv. etrans; [by eapply Hm | by eapply Hf]. Qed.

Lemma stays_when b (m : P unit) : stays R m → stays R (when_ b m).
Proof. intros Hm. destruct b; [done | apply stays_ret]. Qed.

Lemma stays_deref p : stays R (deref p).
Proof. intros c s c'. unfold deref. destruct (_ !! _); [| done]. intros [= _ <-]. reflexivity. Qed.

Lemma stays_call {A} (d : A) f : stays R (call d f).
Proof.
  intros c a c'. unfold call. destruct (lc_mux c) as [x|]; [| intros [= _ <-]; reflexivity].
  destruct (f x) as [b x']. intros [= _ <-]. by apply frame_step.
Qed.
End Stays.

Create HintDb stays.
#[export] Hint Resolve stays_ret stays_undef stays_gets stays_bind stays_when stays_deref stays_call : stays.
#[export] Hint Extern 0 (Frame _) => apply _ : stays.
#[export] Hint Extern 2 (stays _ (modify _)) =>
  apply stays_modify; intros []; apply frame_step; cbn; [first [done | set_solver] | done | done | done] : stays.
#[export] Hint Extern 4 (stays _ (match ?x with _ => _ end)) => destruct x : stays.
#[export] Hint Extern 4 (stays _ (if ?x then _ else _)) => destruct x : stays.

Section Functions.
Context `{Frame R}.

Lemma stays_store p s : stays R (store p s).
Proof. unfold store. auto with stays. Qed.
#[local] Hint Resolve stays_store : stays.

Lemma stays_update p f : stays R (update p f).
Proof. unfold update. auto with stays. Qed.

Lemma stays_signal v : stays R (signal v).
Proof. unfold signal. auto with stays. Qed.

Lemma stays_touch o : stays R (touch o).
Proof. destruct o; cbn; auto with stays. Qed.
#[local] Hint Resolve stays_update stays_signal stays_touch : stays.

Lemma stays_ready_mark p bits : stays R (ready_mark p bits).
Proof. unfold ready_mark, notify_raise. auto 20 with stays. Qed.

Lemma stays_reg_put k p : stays R (reg_put k p).
Proof.
  unfold reg_put. apply stays_bind; [auto with stays | intros m]. apply stays_bind; [auto with stays | intros h].
  destruct (umap_put h m k p) as [h' [m'|]]; auto 20 with stays.
Qed.

Lemma stays_reg_reput mask j n : stays R (reg_reput mask j n).
Proof.
  revert j. induction n as [|n IH]; intros j; cbn [reg_reput]; [auto with stays |].
  apply stays_bind; [auto with stays | intros m]. destruct (um_s m !! _) as [e|]; [| auto with stays].
  destruct (negb _); [auto with stays |]. apply stays_bind; [auto with stays | intros _].
  apply stays_bind; [apply stays_reg_put | intros _; apply IH].
Qed.

Lemma stays_try_free p : stays R (stream_try_free p).
Proof.
  unfold stream_try_free, reg_remove. apply stays_bind; [auto with stays | intros s].
  destruct (negb _); [auto with stays |]. destruct (_ || _); [auto with stays |].
  apply stays_bind; [| intros _; auto 20 with stays]. apply stays_when, stays_bind; [auto with stays | intros m].
  destruct (reg_find _ _ _ _ _) as [i found]. apply stays_bind; [auto with stays | intros _; apply stays_reg_reput].
Qed.
#[local] Hint Resolve stays_ready_mark stays_try_free : stays.

Lemma stays_clear ps : stays R (clear_in_pending ps) ∧ stays R (clear_in_reg ps) ∧ stays R (free_released ps).
Proof. induction ps as [|p ps (IH1 & IH2 & IH3)]; cbn; split_and!; auto with stays. Qed.

Lemma stays_flush_wbuf p : stays R (flush_wbuf p).
Proof.
  assert (∀ n, stays R (flush_wbuf_loop n p)) as Hl.
  { induction n as [|n IH]; cbn [flush_wbuf_loop]; [auto with stays |]. auto 20 with stays. }
  unfold flush_wbuf. auto 20 with stays.
Qed.
#[local] Hint Resolve stays_flush_wbuf : stays.

Lemma stays_process_pending p : stays R (process_pending p).
Proof. unfold process_pending. auto 20 with stays. Qed.
#[local] Hint Resolve stays_process_pending : stays.

Lemma stays_work_loop ps : stays R (work_loop ps).
Proof. induction ps as [|p ps IH]; cbn [work_loop]; auto with stays. Qed.

Lemma stays_tunnel_flush ws sent : stays R (tunnel_flush ws sent).
Proof.
  revert sent. induction ws as [|w ws IH]; intros sent; cbn [tunnel_flush]; (apply stays_bind; [auto with stays |]);
    intros [b len]; destruct (negb _); auto with stays.
Qed.

Lemma stays_poll_accept room : stays R (poll_accept room).
Proof. induction room as [|room IH]; cbn [poll_accept]; [auto with stays |]. auto 20 with stays. Qed.

Lemma stays_poll_ready fuel room : stays R (poll_ready fuel room).
Proof.
  revert room. induction fuel as [|fuel IH]; intros room; cbn [poll_ready]; (apply stays_bind; [auto with stays |]);
    intros l; destruct room, l; auto 20 with stays.
Qed.
#[local] Hint Resolve stays_poll_accept stays_poll_ready : stays.

Lemma stays_lp_poll max : stays R (lp_poll max).
Proof. unfold lp_poll, notify_raise. destruct (max <=? 0); auto 30 with stays. Qed.
End Functions.

#[export] Hint Resolve stays_store stays_update stays_signal stays_touch stays_ready_mark stays_reg_put stays_try_free
  stays_flush_wbuf stays_process_pending stays_work_loop stays_tunnel_flush stays_lp_poll : stays.
