(* ===== verification/PeerSteps.v ===== *)
(** Every operation of libpeer has a defined outcome and keeps the invariant of
    PeerInv: one lemma per function, in the order of the source. *)

From stdpp Require Import base list numbers gmap.
From Stdlib Require Import ZArith Lia.
From S2P Require Import Prelude Frame OutBuf EventQueue Probe StreamTable Session SessionIO Handshake Recv SessionOpens Auth Host Fifo Umap Peer PeerInv.

(** ** Frames *)

(** The operations on streams leave the tunnel alone. *)
Record fr (c c' : lp_client) : Prop := {
  fr_mux : lc_mux c' = lc_mux c;
  fr_fd : lc_fd c' = lc_fd c;
  fr_recv : lc_recv c' = lc_recv c;
  fr_all : lc_all c' = lc_all c;
}.

#[export] Instance fr_preorder : PreOrder fr.
Proof.
  split; [done |]. intros c1 c2 c3 [] []. split; congruence.
Qed.

(** One that may have freed the stream at [p]. *)
Record fr_free (p : Z) (c c' : lp_client) : Prop := {
  ff_mux : lc_mux c' = lc_mux c;
  ff_fd : lc_fd c' = lc_fd c;
  ff_recv : lc_recv c' = lc_recv c;
  ff_all : ∀ q, q ≠ p → q ∈ lc_all c → q ∈ lc_all c';
}.

Lemma fr_free_after p c1 c2 c3 : fr c1 c2 → fr_free p c2 c3 → fr_free p c1 c3.
Proof. intros [] []. split; try congruence. intros q. rewrite <- fr_all0. auto. Qed.

Lemma fr_free_none p c c' : fr c c' → fr_free p c c'.
Proof. intros []. split; try done. intros q. by rewrite fr_all0. Qed.

Section Steps.
Context (X : Z → Prop) (loc own : list Z) (arm : bool).
Implicit Types (c : lp_client) (s : lp_stream) (p : Z).

Abbreviation INV := (inv X loc own arm).

(** ** Accessors *)

Lemma wp_deref c p s (Q : lp_stream → lp_client → Prop) :
  lc_streams c !! p = Some s → Q s c → wp (deref p) Q c.
Proof. intros Hp HQ. unfold wp, deref. by rewrite Hp. Qed.

(** A dereference and what is done with the stream. *)
Lemma deref_inv {A} p (m : lp_stream → P A) c a c' :
  (s ← deref p; m s) c = Some (a, c') → ∃ s, lc_streams c !! p = Some s ∧ m s c = Some (a, c').
Proof.
  intros (s & c1 & E1 & E2)%bind_inv. unfold deref in E1. destruct (lc_streams c !! p) as [s0|]; [| done].
  injection E1 as <- <-. by exists s0.
Qed.

Lemma wp_store c p s (Q : unit → lp_client → Prop) : Q tt (put_stream p s c) → wp (store p s) Q c.
Proof. done. Qed.

Lemma wp_update c p s f (Q : unit → lp_client → Prop) :
  lc_streams c !! p = Some s → Q tt (put_stream p (f s) c) → wp (update p f) Q c.
Proof. intros Hp HQ. apply wp_bind. by eapply wp_deref. Qed.

Lemma put_lookup c p s : lc_streams (put_stream p s c) !! p = Some s.
Proof. apply lookup_insert_eq. Qed.

Lemma put_put c p s s' : put_stream p s' (put_stream p s c) = put_stream p s' c.
Proof. unfold put_stream. destruct c. cbn. unfold upd, upd_lc_streams. cbn. by rewrite insert_insert_eq. Qed.

Lemma put_fr c p s : fr c (put_stream p s c).
Proof. done. Qed.

Lemma all_live c p : INV c → p ∈ lc_all c → ∃ s, lc_streams c !! p = Some s.
Proof. intros H Hp. apply (flagged_live _ _ _ _ (iv_all _ _ _ _ _ H)) in Hp as (s & ? & _). by exists s. Qed.

Lemma live_all c p s : INV c → lc_streams c !! p = Some s → p ∈ lc_all c.
Proof. intros H Hp. by apply (flagged_lookup _ _ _ _ _ (iv_all _ _ _ _ _ H) Hp). Qed.

(** A link of a listed stream leads to a live one. *)
Lemma wp_touch c c' o (Q : unit → lp_client → Prop) :
  INV c → (∀ p, is_Some (lc_streams c !! p) → is_Some (lc_streams c' !! p)) →
  (∀ p, o = Some p → p ∈ lc_all c) → Q tt c' → wp (touch o) Q c'.
Proof.
  intros H Hl Ho HQ. destruct o as [p|]; [| done]. destruct (all_live c p H) as [s Hs]; [by apply Ho |].
  destruct (Hl p) as [s' Hs']; [by exists s |]. cbn [touch]. wp1. by eapply wp_deref.
Qed.

Lemma wp_signal c v (Q : unit → lp_client → Prop) :
  INV c → (∀ c', INV c' → lc_streams c' = lc_streams c → fr c c' → Q tt c') → wp (signal v) Q c.
Proof. intros H HQ. apply wp_modify, HQ; [| done | done]. eapply inv_other; [| exact H]. same_view. Qed.

Lemma wp_io_wake c (Q : unit → lp_client → Prop) :
  INV c → (∀ c', INV c' → lc_streams c' = lc_streams c → fr c c' → Q tt c') → wp io_wake Q c.
Proof. intros H HQ. apply wp_modify, HQ; [| done | done]. eapply inv_other; [| exact H]. same_view. Qed.

(** A session call that opens nothing. *)
Lemma wp_call {A} c x (dflt : A) f (Q : A → lp_client → Prop) :
  INV c → lc_mux c = Some x → hush x (f x).2 →
  (∀ c', INV c' → c' = c <| lc_mux := Some (f x).2 |> → Q (f x).1 c') →
  wp (call dflt f) Q c.
Proof.
  intros H Hx Hh HQ. unfold wp, call. rewrite Hx. destruct (f x) as [a x']. apply HQ; [| done].
  eapply inv_mux; [done | done | by apply hush_opens].
Qed.

(** A store that leaves the flags alone. *)
Lemma wp_put c p s s' (Q : unit → lp_client → Prop) :
  INV c → lc_streams c !! p = Some s → same_flags s s' → stream_ok s' → (X p ∨ settled s') →
  (∀ c', INV c' → lc_streams c' !! p = Some s' → fr c c' → Q tt c') → wp (store p s') Q c.
Proof.
  intros H Hp Hf Ho Hs HQ. apply wp_store, HQ; [by eapply inv_put | apply put_lookup | apply put_fr].
Qed.

(** ** Wake-ups *)

Lemma settled_pending s : ls_in_pending s = true → settled s.
Proof. intros E. split; auto. Qed.

(** A queued stream's bookkeeping is done. *)
Lemma wp_pending_push c p s (Q : unit → lp_client → Prop) :
  INV c → lc_streams c !! p = Some s →
  (∀ c', inv (closing p X) loc own arm c' → lc_streams c' !! p = Some (s <| ls_in_pending := true |>) →
         fr c c' → Q tt c') →
  wp (pending_push p) Q c.
Proof.
  intros H Hp HQ. apply wp_bind. eapply wp_deref; [done |]. destruct (ls_in_pending s) eqn:E.
  - apply wp_ret, HQ; [| | done].
    + apply inv_settle; [| done]. intros s' Hs'. assert (s' = s) as -> by congruence. by apply settled_pending.
    + rewrite Hp. f_equal. destruct s. cbn in *. by subst.
  - wps. apply wp_store, wp_modify, HQ; [| apply put_lookup | done].
    destruct H. set (s' := s <| ls_in_pending := true |>).
    assert (reg_same (lc_streams c) (<[p := s']> (lc_streams c))) as Hr by by apply (reg_same_insert _ _ s).
    destruct (iv_streams p s Hp) as [[] _].
    split; cbn; try done; try (by apply (flagged_same _ _ _ _ s)).
    + by apply (flagged_set _ _ _ _ s).
    + by eapply brk_insert.
    + by eapply registered_same.
    + by eapply fresh_same.
    + eapply streams_insert; [done | by split | by split | right; by apply settled_pending].
Qed.

Lemma wp_notify_raise c (Q : unit → lp_client → Prop) :
  INV c → (∀ c', inv X loc own true c' → lc_streams c' = lc_streams c → fr c c' → Q tt c') →
  wp notify_raise Q c.
Proof.
  intros H HQ. unfold notify_raise. wps. unfold id. destruct (lc_poll_mode c) eqn:Ep; cbn [negb orb].
  2:{ apply wp_ret, HQ; [| done | done]. destruct H. split; try done. intros _ E. congruence. }
  destruct (lc_notified c) eqn:En.
  - apply wp_ret, HQ; [| done | done]. destruct H. split; done.
  - apply wp_modify, HQ; [| done | done]. destruct H. split; cbn; try done. rewrite iv_notify, En. done.
Qed.

End Steps.

(** The readiness bookkeeping of a stream. *)
Definition marked (e : Z) (r : bool) (s : lp_stream) : lp_stream :=
  s <| ls_ev_pending := e |> <| ls_in_ready := r |>.

Lemma marked_id s : marked (ls_ev_pending s) (ls_in_ready s) s = s.
Proof. by destruct s. Qed.

Lemma marked_settled e r s : (ls_in_ready s = true → r = true) → settled s → settled (marked e r s).
Proof. intros Hr []. split; cbn; try done. intros ? ?. destruct (se_reap ltac:(done) ltac:(done)); auto. Qed.

Lemma marked_ok e r s :
  (e ≠ 0 → r = true) → Z.testbit e 0 = false → stream_ok s → stream_ok (marked e r s).
Proof. intros Hr Hb []. by split. Qed.

(** Queueing the stream at [p] for [lp_poll]. *)
Definition queue_ready (p e : Z) (s : lp_stream) (c : lp_client) : lp_client :=
  put_stream p (marked e true s) c <| lc_ready ::= fun l => if ls_in_ready s then l else p :: l |>.

Lemma inv_queue_ready X loc own arm c p s e :
  inv X loc own arm c → lc_streams c !! p = Some s → lc_poll_mode c = true → Z.testbit e 0 = false →
  inv X loc own false (queue_ready p e s c).
Proof.
  intros [] Hp Hm He. set (s' := marked e true s).
  assert (reg_same (lc_streams c) (<[p := s']> (lc_streams c))) as Hr by by apply (reg_same_insert _ _ s).
  destruct (iv_streams p s Hp) as [Ho Hx].
  split; cbn; try done; try (by apply (flagged_same _ _ _ _ s)).
  - destruct (ls_in_ready s) eqn:E; [by apply (flagged_same _ _ _ _ s) | by apply (flagged_set _ _ _ _ s)].
  - by eapply brk_insert.
  - by eapply registered_same.
  - by eapply fresh_same.
  - eapply streams_insert; [done | done | by apply marked_ok |].
    destruct Hx; [by left | right; by apply marked_settled].
Qed.

Lemma wp_ready_mark_at X loc own arm c p s bits (Q : unit → lp_client → Prop) :
  inv X loc own arm c → lc_streams c !! p = Some s → Z.testbit bits 0 = false →
  (∀ c' e r, inv X loc own arm c' → lc_streams c' = <[p := marked e r s]> (lc_streams c) →
     (ls_in_ready s = true → r = true) → fr c c' → Q tt c') →
  wp (ready_mark p bits) Q c.
Proof.
  intros H Hp Hbit HQ. unfold ready_mark. wps. unfold id. destruct (lc_poll_mode c) eqn:Ep; cbn [negb].
  2:{ apply wp_ret. apply (HQ c (ls_ev_pending s) (ls_in_ready s)); [done | | done | done].
      by rewrite marked_id, insert_id. }
  apply wp_bind. eapply wp_update; [done |]. apply wp_bind. eapply wp_deref; [apply put_lookup |].
  set (e := Z.lor (ls_ev_pending s) bits).
  assert (Z.testbit e 0 = false) as He.
  { unfold e. rewrite Z.lor_spec, Hbit, (so_bits s); [done |]. by eapply iv_streams. }
  pose proof (inv_queue_ready X loc own arm c p s e H Hp Ep He) as H1.
  assert (∀ c', inv X loc own true c' → lc_streams c' = lc_streams (queue_ready p e s c) →
    fr (queue_ready p e s c) c' → Q tt c') as HQ'.
  { intros c' H' E' F'. apply (HQ c' e true); [by eapply inv_arm | exact E' | done |].
    by transitivity (queue_ready p e s c). }
  destruct (ls_in_ready s) eqn:E.
  - wp1. eapply wp_when; cbn; [by rewrite E |]. intros _.
    assert (put_stream p (s <| ls_ev_pending ::= fun b => Z.lor b bits |>) c = queue_ready p e s c) as ->.
    { unfold queue_ready, marked. rewrite E. destruct s, c. cbn in *. by subst. }
    by eapply wp_notify_raise.
  - wp1. eapply wp_when; cbn; [| by rewrite E]. intros _. wps. apply wp_store, wp_modify. rewrite put_put.
    match goal with |- wp _ _ ?d => assert (d = queue_ready p e s c) as -> end.
    { unfold queue_ready, marked. rewrite E. destruct s, c. cbn in *. by subst. }
    by eapply wp_notify_raise.
Qed.

Lemma wp_ready_mark X loc own arm c p s bits (Q : unit → lp_client → Prop) :
  inv X loc own arm c → lc_streams c !! p = Some s → Z.testbit bits 0 = false →
  (∀ c' e r, inv X loc own arm c' → lc_streams c' !! p = Some (marked e r s) →
     (ls_in_ready s = true → r = true) → fr c c' → Q tt c') →
  wp (ready_mark p bits) Q c.
Proof.
  intros H Hp Hbit HQ. eapply wp_ready_mark_at; [exact H | exact Hp | exact Hbit |]. intros c' e r H' E' Hr F'.
  apply (HQ c' e r); [done | by rewrite E', lookup_insert_eq | done | done].
Qed.

(** A store of other fields, in the middle of a stream's bookkeeping or not. *)
Lemma opening_put X loc own arm c p s s' :
  inv X loc own arm c → lc_streams c !! p = Some s → same_flags s s' → stream_ok s' →
  inv (opening p X) loc own arm (put_stream p s' c).
Proof.
  intros H Hp Hf Ho. eapply inv_put; [| done | done | done | left; by left].
  eapply inv_mono; [| exact H]. by right.
Qed.

(** ** Stream lifecycle *)

Lemma prev_of_in p l q : prev_of p l = Some q → q ∈ l.
Proof.
  induction l as [|x l IH]; simpl; [done |]. case_bool_decide; [intros [= <-]; by left | right; auto].
Qed.

Lemma next_of_in p l q : next_of p l = Some q → q ∈ l.
Proof.
  induction l as [|x l IH]; simpl; [done |]. destruct (x =? p); [| right; auto].
  intros E%head_Some_elem_of. by right.
Qed.

(** Freeing the stream at [p]. *)
Definition drop_stream (p : Z) (r : umap) (c : lp_client) : lp_client :=
  c <| lc_reg := r |> <| lc_all ::= remove_all p |> <| lc_streams ::= delete p |>.

Lemma inv_drop X loc own arm c p s r :
  inv X loc own arm c → lc_streams c !! p = Some s → ls_app_closed s = true → ls_in_pending s = false →
  ls_in_ready s = false → registered r (delete p (lc_streams c)) →
  inv (closing p X) loc own arm (drop_stream p r c).
Proof.
  intros [] Hp Hc Hi Hr Hreg. split; cbn; try done; try (by apply (flagged_delete _ _ _ _ s)).
  - by apply flagged_remove.
  - apply (flagged_delete _ _ _ _ s); [done | unfold unclosed; by rewrite Hc | done].
  - intros q [x [_ Hx]%lookup_delete_Some]. apply iv_brk. by exists x.
  - destruct (lc_mux c) as [x|]; simpl in *.
    + destruct iv_mux as (Q & Z & lo & C & L). split_and!; [done | done |]. exists lo. split; [done |].
      intros q y [_ Hy]%lookup_delete_Some. by eapply L.
    + intros q y [_ Hy]%lookup_delete_Some. by eapply iv_mux.
  - intros q y [Hne Hy]%lookup_delete_Some. destruct (iv_streams q y Hy) as [? [?|?]]; split; auto. left. by split.
Qed.

(** [stream_try_free], for a stream that has no work left to queue. *)
Lemma wp_try_free_at X loc own arm c p s (Q : unit → lp_client → Prop) :
  inv X loc own arm c → lc_streams c !! p = Some s →
  (¬ (ls_proto_done s = true ∧ ls_app_closed s = true) → settled s) →
  (∀ c', inv (closing p X) loc own arm c' → fr_free p c c' → lc_streams c' ⊆ lc_streams c →
     lc_ready c' = lc_ready c → lc_notified c' = lc_notified c → lc_accept c' = lc_accept c → Q tt c') →
  wp (stream_try_free p) Q c.
Proof.
  intros H Hp Hs HQ. unfold stream_try_free. apply wp_bind. eapply wp_deref; [done |].
  assert (settled s → Q tt c) as Hkeep.
  { intros Hset. apply HQ; [| by apply fr_free_none | done ..]. apply inv_settle; [| done]. intros s' Hs'. congruence. }
  destruct (ls_proto_done s) eqn:Ed, (ls_app_closed s) eqn:Ec; cbn [andb negb];
    try (apply wp_ret, Hkeep, Hs; naive_solver).
  destruct (ls_in_pending s) eqn:Ei; [apply wp_ret, Hkeep; split; auto |].
  destruct (ls_in_ready s) eqn:Er; [apply wp_ret, Hkeep; split; rewrite ?Ed; auto |]. cbn [orb].
  pose proof H as [Hall _ _ _ _ Hreg _ _ _ _ _ Hheap _ _].
  assert (∃ r, wp (when_ (ls_in_reg s) (reg_remove (ls_sid s))) (fun _ c' => c' = c <| lc_reg := r |>) c ∧
               registered r (delete p (lc_streams c))) as (r & Hrm & Hr').
  { destruct (ls_in_reg s) eqn:Eg.
    - destruct (reg_remove_ok c p s) as (r & Er' & ?); [done .. |]. exists r. split; [| done].
      cbn [when_]. unfold wp. by rewrite Er'.
    - exists (lc_reg c). split; [by destruct c |]. eapply registered_same; [by eapply reg_same_delete | done]. }
  apply wp_bind. eapply wp_mono; [exact Hrm |]. intros _ c' ->. wps. cbn [lc_all].
  eapply wp_touch; [exact H | done | intros q; apply prev_of_in |]. wps.
  eapply wp_touch; [exact H | done | intros q; apply next_of_in |]. wps.
  apply HQ; [by eapply (inv_drop X _ _ _ c p s r) | | apply delete_subseteq | done ..]. split; try done. cbn. intros q Hne Hq.
  apply list_elem_of_filter. done.
Qed.

Lemma wp_try_free X loc own arm c p s (Q : unit → lp_client → Prop) :
  inv X loc own arm c → lc_streams c !! p = Some s →
  (¬ (ls_proto_done s = true ∧ ls_app_closed s = true) → settled s) →
  (∀ c', inv (closing p X) loc own arm c' → fr_free p c c' → Q tt c') →
  wp (stream_try_free p) Q c.
Proof. intros H Hp Hs HQ. eapply wp_try_free_at; [exact H | exact Hp | exact Hs |]. auto. Qed.

(** A new stream, which its creator owns until it is queued for accept. *)
Definition add_stream (s : lp_stream) (c : lp_client) : lp_client :=
  put_stream (lc_brk c) s c <| lc_brk := lc_brk c + 1 |> <| lc_all ::= cons (lc_brk c) |>.

Lemma brk_fresh X loc own arm c : inv X loc own arm c → lc_streams c !! lc_brk c = None.
Proof. intros H. apply eq_None_not_Some. intros Hs%(iv_brk _ _ _ _ _ H). lia. Qed.

Definition newborn (sid : Z) (m : view) (l : Z) : lp_stream :=
  lp_stream_zero sid <| ls_meta := m |> <| ls_meta_len := l |>.

Lemma inv_add X loc own arm c sid m l :
  inv X loc own arm c → inv X loc (lc_brk c :: own) arm (add_stream (newborn sid m l) c).
Proof.
  intros H. pose proof (brk_fresh _ _ _ _ _ H) as Hp. set (s := newborn sid m l). set (p := lc_brk c) in *.
  assert (reg_same (lc_streams c) (<[p := s]> (lc_streams c))) as Hr by by apply reg_same_fresh.
  destruct H. split; cbn; try done.
  - exact (flagged_fresh (fun _ => true) _ _ _ s Hp iv_all).
  - exact (flagged_fresh ls_in_pending _ _ _ s Hp iv_pending).
  - exact (flagged_fresh ls_in_ready _ _ _ s Hp iv_ready).
  - eapply flagged_perm; [apply Permutation_middle |].
    exact (flagged_fresh unclosed _ _ _ s Hp iv_handles).
  - intros q. fold p. destruct (decide (q = p)) as [->|]; [lia |]. rewrite lookup_insert_ne by done.
    intros Hq%iv_brk. unfold p. lia.
  - by eapply registered_same.
  - by eapply fresh_same.
  - eapply streams_insert; [done | done | | right]; split; cbn; (done || lia).
Qed.

Lemma wp_stream_new X loc own arm c sid meta n (Q : option Z → lp_client → Prop) :
  inv X loc own arm c →
  (∀ c' m l, inv X loc (lc_brk c :: own) arm c' → lc_streams c' = <[lc_brk c := newborn sid m l]> (lc_streams c) →
     lc_mux c' = lc_mux c → lc_fd c' = lc_fd c → lc_recv c' = lc_recv c → lc_accept c' = lc_accept c →
     Q (Some (lc_brk c)) c') →
  wp (stream_new sid meta n) Q c.
Proof.
  intros H HQ. pose proof (iv_heap _ _ _ _ _ H) as Hheap. pose proof (brk_fresh _ _ _ _ _ H) as Hp.
  unfold stream_new. wps. rewrite Hheap. cbn [alloc negb]. wps. apply wp_store. cbv beta.
  change (lc_brk (c <| lc_heap := [] |>)) with (lc_brk c). rewrite heap_same by done. set (p := lc_brk c) in *.
  assert (∀ m l, wp (hd ← gets (fun c => head (lc_all c)); touch hd;;
      modify (fun c => c <| lc_all ::= cons p |>);; mret (Some p)) Q
      (put_stream p (newborn sid m l) (c <| lc_brk := p + 1 |>))) as Hend.
  { intros m l. wps. eapply wp_touch; [exact H | | intros q; apply head_Some_elem_of |]; cbn.
    - intros q Hq. destruct (decide (q = p)) as [->|]; [rewrite lookup_insert_eq; eauto | by rewrite lookup_insert_ne].
    - wps. eapply HQ; [eapply inv_other; [| by apply (inv_add _ _ _ _ _ sid m l)]; same_view | done ..]. }
  wp1. apply wp_when; intros _; [| exact (Hend None 0)].
  wps. cbn [lc_heap]. change (lc_heap (put_stream p (lp_stream_zero sid) (c <| lc_brk := p + 1 |>))) with (lc_heap c).
  rewrite Hheap. cbn [alloc]. wps. apply wp_when; [| done]. intros _. rewrite heap_same by done.
  eapply wp_update; [apply put_lookup |]. rewrite put_put. apply (Hend (Some _) n).
Qed.

(** ** Session events *)

Lemma reg_get_live X loc own arm c k p :
  inv X loc own arm c → reg_get c k = Some p →
  ∃ s, lc_streams c !! p = Some s ∧ ls_in_reg s = true ∧ ls_sid s = k.
Proof.
  intros H Hk. destruct (iv_reg _ _ _ _ _ H) as (g & [Hw Hr] & Hg). apply Hg, Hr.
  by apply umap_get_spec in Hk.
Qed.

Lemma append_heap b p n : ∃ r b', lp_buf_append [] b p n = (r, [], b').
Proof.
  unfold lp_buf_append, buf_grow. destruct (n =? 0); [by do 2 eexists |]. cbv zeta. cbn [alloc negb].
  destruct (_ >? _); cbn [negb]; by do 2 eexists.
Qed.

(** Appending to a buffer of the stream at [p]. *)
Lemma wp_append X loc own arm c p s get set data n (Q : Z → lp_client → Prop) :
  inv X loc own arm c → lc_streams c !! p = Some s →
  (∀ b, same_flags s (set b s)) → (∀ b, stream_ok (set b s)) → (∀ b, X p ∨ settled (set b s)) →
  (∀ c' r b, inv X loc own arm c' → lc_streams c' !! p = Some (set b s) → fr c c' → Q r c') →
  wp (buf_append_to p get set data n) Q c.
Proof.
  intros H Hp Hf Ho Hs HQ. unfold buf_append_to. apply wp_bind. eapply wp_deref; [done |]. wps.
  rewrite (iv_heap _ _ _ _ _ H). destruct (append_heap (get s) data n) as (r & b & ->). wps.
  rewrite heap_same by apply H. apply wp_store. wps. eapply HQ; [by eapply inv_put | apply put_lookup | done].
Qed.

(** A new stream of a fresh id is registered, then queued for accept. *)
Definition next_open (k : Z) (c : lp_client) : Prop :=
  (∀ q s, lc_streams c !! q = Some s → ls_in_reg s = true → ls_sid s < k) ∧
  ∀ x, lc_mux c = Some x → climbs k (opened (events x)) (s_max_remote_sid x).

Lemma wp_reg_put X loc own arm c k p s (Q : unit → lp_client → Prop) :
  inv X loc own arm c → lc_streams c !! p = Some s → ls_in_reg s = false → ls_sid s = k → next_open k c →
  is_Some (lc_mux c) →
  (∀ c', inv X loc own arm c' → fr c c' → lc_accept c' = lc_accept c → Q tt c') →
  wp (reg_put k p) Q c.
Proof.
  intros H Hp Hr Hk [Hlt Hcl] [x Hx] HQ. pose proof H as [? ? ? ? ? Hreg Hmux ? ? ? ? Hheap ? ?].
  destruct (reg_put_fresh c k p s Hheap Hreg Hp Hr Hk) as (r & E & Hreg').
  { intros q y Hq R E. specialize (Hlt q y Hq R). lia. }
  unfold wp. rewrite E. apply HQ; [| done | done]. set (s' := s <| ls_in_reg := true |>).
  destruct (iv_streams p s Hp) as [[] Hs].
  split; cbn; try done; try (by apply (flagged_same _ _ _ _ s)).
  - by eapply brk_insert.
  - rewrite Hx in *. cbn in *. destruct Hmux as (Q1 & Z1 & _). split_and!; [done | done |]. exists k.
    split; [by apply Hcl |]. intros q y [[<- <-]|[_ Hq]]%lookup_insert_Some R; [cbn; lia |].
    specialize (Hlt q y Hq R). lia.
  - eapply streams_insert; [done | done | by split |]. destruct Hs as [|[]]; [by left | right; by split].
Qed.

(** Handing the creator's stream to the accept queue. *)
Lemma inv_enqueue X loc own arm c p :
  inv X loc (p :: own) arm c → inv X loc own false (c <| lc_accept ::= fun l => l ++ [p] |>).
Proof. intros []. split; cbn; try done. by rewrite <- (assoc_L (++)). Qed.

Lemma wp_opened X loc own arm c k sid meta n (Q : unit → lp_client → Prop) :
  inv X loc own arm c → is_Some (lc_mux c) → next_open sid c →
  (∀ c', inv X loc own arm c' → lc_mux c' = lc_mux c → lc_fd c' = lc_fd c → lc_recv c' = lc_recv c → Q tt c') →
  wp (handle_event k (EV_STREAM_OPENED sid meta n)) Q c.
Proof.
  intros H Hx [Hlt Hcl] HQ. cbn [handle_event]. wp1.
  eapply wp_stream_new; [exact H |]. intros c1 m l H1 Es Em Ef Er Ea. set (p := lc_brk c) in *.
  wp1. eapply (wp_reg_put _ _ _ _ _ _ p (newborn sid m l)); [exact H1 | by rewrite Es, lookup_insert_eq | done | done | | by rewrite Em |].
  { split; [| by rewrite Em]. intros q s. rewrite Es.
    intros [[<- <-]|[_ Hq]]%lookup_insert_Some R; [done | by eapply Hlt]. }
  intros c2 H2 [F1 F2 F3 F4] Ea2. wps. eapply wp_touch; [exact H2 | done | |].
  { intros q Hq%last_Some_elem_of.
    destruct (flagged_live _ _ _ q (iv_handles _ _ _ _ _ H2)) as (s & Hs & _); [apply elem_of_app; by left |].
    by eapply live_all. }
  wps. pose proof (inv_enqueue _ _ _ _ _ _ H2) as H3.
  eapply wp_signal; [exact H3 |]. intros c4 H4 _ [G1 G2 G3 G4].
  wps. eapply wp_notify_raise; [exact H4 |]. intros c5 H5 _ [G5 G6 G7 G8].
  apply HQ; [by eapply inv_arm | cbn in *; congruence ..].
Qed.

Lemma wp_event_data X loc own arm c p s data n (Q : unit → lp_client → Prop) :
  inv X loc own arm c → lc_streams c !! p = Some s →
  (∀ c', inv X loc own arm c' → fr c c' → Q tt c') →
  wp (buf_append_to p ls_rbuf set_rbuf data n;; signal (RCV p);; ready_mark p LP_READABLE) Q c.
Proof.
  intros H Hp HQ. destruct (iv_streams _ _ _ _ _ H p s Hp) as [[] Hs]. wp1.
  eapply wp_append; [exact H | exact Hp | done | done | |].
  { intros b. destruct Hs as [|[]]; [by left | right; by split]. }
  intros c1 _ b H1 Hp1 F1. wp1. eapply wp_signal; [exact H1 |]. intros c2 H2 E2 F2.
  eapply wp_ready_mark; [exact H2 | by rewrite E2 | done |]. intros c3 e r H3 _ _ F3. apply HQ; [done |].
  by transitivity c1; [| transitivity c2].
Qed.

(** Nothing in progress. *)
Definition calm : Z → Prop := fun _ => False.

Lemma calm_settled loc own arm c p s : inv calm loc own arm c → lc_streams c !! p = Some s → settled s.
Proof. intros H Hp. by destruct (iv_streams _ _ _ _ _ H p s Hp) as [_ [[]|?]]. Qed.

Lemma calm_close p loc own arm c : inv (closing p (opening p calm)) loc own arm c → inv calm loc own arm c.
Proof. apply inv_mono. intros q [Hne [->|[]]]. done. Qed.

(** The end of a stream's life as the peer announces it. *)
Lemma wp_event_end loc own arm c p s s' (sig : P unit) bits (Q : unit → lp_client → Prop) :
  inv calm loc own arm c → lc_streams c !! p = Some s → same_flags s s' → stream_ok s' →
  (∀ c (Q : unit → lp_client → Prop), inv (opening p calm) loc own arm c →
     (∀ c', inv (opening p calm) loc own arm c' → lc_streams c' = lc_streams c → fr c c' → Q tt c') → wp sig Q c) →
  (¬ (ls_proto_done s' = true ∧ ls_app_closed s' = true) → settled s') → Z.testbit bits 0 = false →
  (∀ c', inv calm loc own arm c' → fr_free p c c' → Q tt c') →
  wp (sig;; ready_mark p bits;; stream_try_free p) Q (put_stream p s' c).
Proof.
  intros H Hp Hf Ho Hsig Hset Hbits HQ. pose proof (opening_put _ _ _ _ _ _ _ _ H Hp Hf Ho) as H1.
  wp1. apply Hsig; [exact H1 |]. intros c2 H2 E2 F2.
  wp1. eapply wp_ready_mark; [exact H2 | rewrite E2; apply put_lookup | exact Hbits |]. intros c3 e r H3 Hp3 Hr F3.
  eapply wp_try_free; [exact H3 | exact Hp3 | |].
  { intros Hn. apply marked_settled; [done |]. by apply Hset. }
  intros c4 H4 F4. apply HQ; [by apply (calm_close p) |]. eapply fr_free_after; [| exact F4].
  transitivity c2; [| done]. by transitivity (put_stream p s' c).
Qed.

Lemma wp_closed loc own arm c p s k (Q : unit → lp_client → Prop) :
  inv calm loc own arm c → reg_get c k = Some p → lc_streams c !! p = Some s →
  (∀ c', inv calm loc own arm c' → fr_free p c c' → Q tt c') →
  ∀ st, wp (handle_event st (EV_STREAM_CLOSED k)) Q c.
Proof.
  intros H Hk Hp HQ st. cbn [handle_event]. wps. unfold id. rewrite Hk. wp1. eapply wp_update; [done |].
  wp1. eapply wp_deref; [apply put_lookup |].
  set (s' := s <| ls_eof := true |> <| ls_proto_done := ls_proto_done s || ls_fin_sent s |>).
  destruct (iv_streams _ _ _ _ _ H p s Hp) as [[Of Od Or Oe Ob] _]. pose proof (calm_settled _ _ _ _ _ _ H Hp) as [].
  assert (stream_ok s') as Ho'.
  { split; cbn; try done. rewrite Od. by destruct (ls_reset s), (ls_eof s), (ls_fin_sent s). }
  assert (wp (signal (RCV p);; ready_mark p (Z.lor LP_READABLE LP_CLOSED);; stream_try_free p) Q (put_stream p s' c)) as Hend.
  { eapply wp_event_end; [exact H | exact Hp | done | done | | | done | exact HQ].
    - intros c' Q' H' HQ'. by eapply wp_signal.
    - intros Hn. split; cbn in *; [| | naive_solver].
      + intros Hc. destruct (se_credit Hc) as [?|E]; [by left | right; by rewrite E].
      + intros Hc. destruct (se_close Hc) as [?|[?|[?|E]]]; auto. rewrite E. auto. }
  wp1. apply wp_when; intros Hfin; cbn in Hfin.
  - apply wp_store. rewrite put_put.
    assert (s <| ls_eof := true |> <| ls_proto_done := true |> = s') as ->; [| exact Hend].
    unfold s'. rewrite Hfin. destruct s. cbn. by rewrite orb_true_r.
  - assert (s <| ls_eof := true |> = s') as ->; [| exact Hend].
    unfold s'. rewrite Hfin. destruct s. cbn. by rewrite orb_false_r.
Qed.

Lemma wp_reset loc own arm c p s k code (Q : unit → lp_client → Prop) :
  inv calm loc own arm c → reg_get c k = Some p → lc_streams c !! p = Some s →
  (∀ c', inv calm loc own arm c' → fr_free p c c' → Q tt c') →
  ∀ st, wp (handle_event st (EV_STREAM_RESET k code)) Q c.
Proof.
  intros H Hk Hp HQ st. cbn [handle_event]. wps. unfold id. rewrite Hk. wp1. eapply wp_update; [done |].
  destruct (iv_streams _ _ _ _ _ H p s Hp) as [[] _].
  apply (wp_assoc _ (fun _ => signal (SND p))).
  eapply wp_event_end; [exact H | exact Hp | done | | | | done | exact HQ].
  - by split.
  - intros c' Q' H' HQ'. wp1. eapply wp_signal; [exact H' |]. intros c1 H1 E1 F1.
    eapply wp_signal; [exact H1 |]. intros c2 H2 E2 F2. apply HQ'; [done | congruence | by transitivity c1].
  - cbn. intros Hn. split; cbn; [auto | auto | naive_solver].
Qed.

(** The events that carry data, which no call of the host adds to. *)
Definition is_input (ev : mux_event) : bool := match ev with EV_STREAM_DATA _ _ _ => true | _ => false end.
Definition inputs (x : mux_session) : list mux_event := List.filter is_input (events x).

Lemma push_inputs x e : is_input e = false → evq_wf (s_q x) → inputs (push x e) = inputs x.
Proof.
  intros He Hq. destruct (push_events x e Hq) as (_ & _ & _ & _ & evs & E & Hc). unfold inputs.
  rewrite E, List.filter_app. destruct Hc as [->| ->]; cbn [List.filter]; [by rewrite app_nil_r |].
  by rewrite He, app_nil_r.
Qed.

Lemma goaway_inputs x code : evq_wf (s_q x) → inputs (mux_goaway x code).2 = inputs x.
Proof.
  intros Hq. unfold mux_goaway. destruct (s_dead x); [done |]. unfold emit.
  destruct (ob_reserve _ _ _ _) as [[r h] o]. destruct (negb (r =? 0)); cbn [snd].
  - unfold raise_fatal. destruct (s_dead _); [done |]. by rewrite push_inputs.
  - destruct (ob_craft _ _ _ _ _ _) as [n o']. by destruct (n <? 0).
Qed.

(** Whatever the event. *)
Lemma wp_handle_event loc own arm c x st ev (Q : unit → lp_client → Prop) :
  inv calm loc own arm c → lc_mux c = Some x →
  (∀ sid m n, ev = EV_STREAM_OPENED sid m n → next_open sid c) →
  (∀ c' x', inv calm loc own arm c' → lc_mux c' = Some x' → hush x x' → inputs x' = inputs x →
     lc_fd c' = lc_fd c → lc_recv c' = lc_recv c → Q tt c') →
  wp (handle_event st ev) Q c.
Proof.
  intros H Hx Hop HQ.
  assert (∀ c' p, inv calm loc own arm c' → fr_free p c c' → Q tt c') as HQf.
  { intros c' p H' []. apply (HQ c' x); [done | congruence | reflexivity | done ..]. }
  assert (∀ c', inv calm loc own arm c' → fr c c' → Q tt c') as HQs.
  { intros c' H' F. apply (HQf c' 0); [done | by apply fr_free_none]. }
  assert (Q tt c) as HQc by by apply (HQs c).
  destruct ev as [t|sid m n|sid d n|sid|sid code|sid|h|w|a b|code]; try exact HQc.
  - eapply wp_opened; [exact H | by exists x | by eapply Hop |]. intros c' H' Em Ef Er.
    apply (HQ c' x); [done | congruence | reflexivity | done ..].
  - cbn [handle_event]. wps. unfold id. destruct (reg_get c sid) as [p|] eqn:Hk; [| exact HQc].
    destruct (reg_get_live _ _ _ _ _ _ _ H Hk) as (s & Hp & _). by eapply wp_event_data; eauto.
  - destruct (reg_get c sid) as [p|] eqn:Hk; [| cbn [handle_event]; wps; unfold id; rewrite Hk; exact HQc].
    destruct (reg_get_live _ _ _ _ _ _ _ H Hk) as (s & Hp & _). by eapply wp_closed; eauto.
  - destruct (reg_get c sid) as [p|] eqn:Hk; [| cbn [handle_event]; wps; unfold id; rewrite Hk; exact HQc].
    destruct (reg_get_live _ _ _ _ _ _ _ H Hk) as (s & Hp & _). by eapply wp_reset; eauto.
  - cbn [handle_event]. wps. unfold id. destruct (reg_get c sid) as [p|] eqn:Hk; [| exact HQc].
    destruct (reg_get_live _ _ _ _ _ _ _ H Hk) as (s & Hp & _). wp1. eapply wp_deref; [done |].
    apply wp_when; [| done]. intros _. eapply wp_pending_push; [exact H | exact Hp |].
    intros c' H' _ F'. apply HQs; [| done]. eapply inv_mono; [| exact H']. by intros q [_ []].
  - cbn [handle_event]. wps. unfold id.
    assert (∀ b, inv calm loc own arm (c <| lc_authed := b |>)) as Ha.
    { intros b. eapply inv_other; [| exact H]. same_view. }
    destruct (lf_token (lc_cfg c)) as [token|]; wps; [| by apply HQs].
    apply wp_when; intros _; [| by apply HQs].
    wp1. eapply wp_call; [apply Ha | exact Hx | apply mux_goaway_hush |].
    intros c' H' ->. wps. eapply HQ; [exact H' | done | apply mux_goaway_hush | | done | done].
    apply goaway_inputs. pose proof (iv_mux _ _ _ _ _ H) as Hm. rewrite Hx in Hm. by destruct Hm.
Qed.

(** Taking the next event off the session's queue. *)
Lemma wp_next_event loc own arm c x (Q : option mux_event → lp_client → Prop) :
  inv calm loc own arm c → lc_mux c = Some x →
  (∀ c' x', inv calm loc own arm c' → lc_mux c' = Some x' → lc_fd c' = lc_fd c → lc_recv c' = lc_recv c →
     events x' = tail (events x) → alive x' = alive x →
     (∀ sid m n, head (events x) = Some (EV_STREAM_OPENED sid m n) → next_open sid c') →
     Q (head (events x)) c') →
  wp (call None mux_next_event) Q c.
Proof.
  intros H Hx HQ. unfold wp, call. rewrite Hx. unfold mux_next_event.
  pose proof H as [? ? ? ? ? ? Hm ? ? ? ? ? ? ?]. rewrite Hx in Hm. destruct Hm as (Hq & Hz & lo & Hc & Hlo).
  pose proof (evq_pop_spec (s_q x) Hq) as Hpop. destruct (evq_pop (s_q x)) as [o q].
  destruct Hpop as (Hq' & -> & Et). set (x' := x <| s_q := q |>).
  assert (∀ sid m n, head (events x) = Some (EV_STREAM_OPENED sid m n) →
            lo < sid ∧ climbs sid (opened (tail (events x))) (s_max_remote_sid x)) as Hop.
  { intros sid m n E. destruct (events x) as [|e evs]; [done |]. cbn in E. injection E as ->. exact Hc. }
  apply (HQ _ x'); try done.
  - split; cbn; try done; [| by rewrite iv_fd, Hx]. split_and!; [done | rewrite Et; by apply Forall_tail |].
    exists (match head (events x) with Some (EV_STREAM_OPENED sid _ _) => sid | _ => lo end). split.
    + rewrite Et. destruct (head (events x)) as [[]|] eqn:E; try (by eapply Hop);
        (destruct (events x) as [|e evs]; [by cbn in * |]; cbn in E; simplify_eq; exact Hc).
    + intros p s Hp Hr. specialize (Hlo p s Hp Hr).
      destruct (head (events x)) as [[]|] eqn:E; try done. destruct (Hop _ _ _ eq_refl). lia.
  - intros sid m n [Hlt Hcl]%Hop. split; cbn.
    + intros p s Hp Hr. specialize (Hlo p s Hp Hr). lia.
    + intros y [= <-]. cbn. by rewrite Et.
Qed.

Lemma wp_events_loop fuel st loc own arm c x (Q : unit → lp_client → Prop) :
  inv calm loc own arm c → lc_mux c = Some x → zlen (events x) + alive x < Z.of_nat fuel →
  (∀ c' x', inv calm loc own arm c' → lc_mux c' = Some x' → events x' = [] → lc_fd c' = lc_fd c →
     lc_recv c' = lc_recv c → Q tt c') →
  wp (events_loop fuel st) Q c.
Proof.
  revert c x. induction fuel as [|fuel IH]; intros c x H Hx Hn HQ.
  { pose proof (zlen_nonneg (events x)). unfold alive in Hn. destruct (s_dead x); lia. }
  cbn [events_loop]. wp1. eapply wp_next_event; [exact H | exact Hx |].
  intros c1 x1 H1 Hx1 Ef Er Ee Ea Hop. destruct (events x) as [|ev evs] eqn:Ev; cbn [head tail] in *.
  { by eapply HQ. }
  wp1. eapply wp_handle_event; [exact H1 | exact Hx1 | intros sid m n ->; by eapply Hop |].
  intros c2 x2 H2 Hx2 Hh _ Ef2 Er2.
  pose proof (iv_mux _ _ _ _ _ H1) as Hm. rewrite Hx1 in Hm. destruct Hm as (Hq1 & _).
  destruct (Hh Hq1) as [_ _ _ (evs' & E' & _ & _ & Hl)].
  eapply IH; [exact H2 | exact Hx2 | |].
  - rewrite E', Ee, zlen_app. rewrite zlen_cons in Hn. lia.
  - intros c3 x3 H3 Hx3 E3 Ef3 Er3. eapply HQ; [exact H3 | exact Hx3 | done | congruence | congruence].
Qed.

Lemma wp_handle_events st loc own arm c x (Q : unit → lp_client → Prop) :
  inv calm loc own arm c → lc_mux c = Some x →
  (∀ c' x', inv calm loc own arm c' → lc_mux c' = Some x' → events x' = [] → lc_fd c' = lc_fd c →
     lc_recv c' = lc_recv c → Q tt c') →
  wp (handle_events st) Q c.
Proof.
  intros H Hx HQ. unfold handle_events. wps. eapply wp_events_loop; [exact H | exact Hx | | exact HQ].
  unfold events_fuel. rewrite Hx. pose proof (iv_mux _ _ _ _ _ H) as Hm. rewrite Hx in Hm.
  destruct Hm as ((_ & Hc & _) & _). rewrite evq_items_len by lia. unfold alive. destruct (s_dead x); lia.
Qed.

(** ** The application's requests *)

(** Sending a stream's backlog changes its buffer only. *)
Lemma wp_flush_loop fuel X loc own arm c x p s (Q : unit → lp_client → Prop) :
  inv X loc own arm c → X p → lc_streams c !! p = Some s → lc_mux c = Some x → ls_fin_sent s = false →
  Z.max 0 (buf_avail (ls_wbuf s)) < Z.of_nat fuel →
  (∀ c' x' b, inv X loc own arm c' → lc_streams c' !! p = Some (s <| ls_wbuf := b |>) → lc_mux c' = Some x' →
     lc_all c' = lc_all c → Q tt c') →
  wp (flush_wbuf_loop fuel p) Q c.
Proof.
  revert c x s. induction fuel as [|fuel IH]; intros c x s H HX Hp Hx Hfin Hn HQ; cbn [flush_wbuf_loop]; [lia |].
  assert (∀ s', s' <| ls_wbuf := ls_wbuf s' |> = s') as Hid by by intros [].
  wp1. eapply wp_deref; [done |]. destruct (Z.gtb_spec (buf_avail (ls_wbuf s)) 0) as [Ha|Ha].
  2:{ apply wp_ret. apply (HQ c x (ls_wbuf s)); [done | by rewrite Hid | done | done]. }
  wp1. eapply wp_call; [exact H | exact Hx | apply mux_write_hush |]. intros c1 H1 E1. cbv beta.
  set (b := ls_wbuf s) in *. pose proof (mux_write_le x (ls_sid s) (Some (buf_ptr b)) (buf_avail b) ltac:(lia)) as Hw.
  destruct (mux_write _ _ _ _) as [w x1]. cbn [fst snd] in *.
  assert (lc_streams c1 !! p = Some s ∧ lc_mux c1 = Some x1 ∧ lc_all c1 = lc_all c) as (Hp1 & Hx1 & El1) by by rewrite E1.
  clear E1. destruct (iv_streams _ _ _ _ _ H p s Hp) as [[] _].
  destruct (Z.gtb_spec w 0) as [Hpos|Hnp]; cbn [when_]; wp1.
  - eapply wp_put; [exact H1 | exact Hp1 | done | | by left |].
    { split; cbn; try done. by rewrite Hfin. }
    intros c2 H2 Hp2 [F1 F2 F3 F4]. destruct (Z.leb_spec w 0); [lia |].
    eapply IH; [exact H2 | exact HX | exact Hp2 | rewrite F1; exact Hx1 | done | |].
    + cbn. unfold buf_drop, buf_rewind, buf_avail in *. cbn. destruct (_ =? _); cbn; lia.
    + intros c' x' b' H' Hp' Hx' El'. apply (HQ c' x' b'); [done | by destruct s | done | congruence].
  - wps. destruct (Z.leb_spec w 0); [| lia]. wps. apply (HQ c1 x1 b); [done | subst b; by rewrite Hid | done | done].
Qed.

(** [flush_wbuf]: the buffer, the readiness bookkeeping and the write interest. *)
Lemma wp_flush_wbuf X loc own arm c x p s (Q : unit → lp_client → Prop) :
  inv X loc own arm c → X p → lc_streams c !! p = Some s → lc_mux c = Some x → ls_fin_sent s = false →
  (∀ c' x' b e r w, inv X loc own arm c' →
     lc_streams c' !! p = Some (marked e r (s <| ls_wbuf := b |> <| ls_want_writable := w |>)) →
     lc_mux c' = Some x' → lc_all c' = lc_all c → Q tt c') →
  wp (flush_wbuf p) Q c.
Proof.
  intros H HX Hp Hx Hfin HQ. unfold flush_wbuf. wp1. eapply wp_deref; [done |]. wp1.
  eapply wp_flush_loop; [exact H | exact HX | exact Hp | exact Hx | done | lia |].
  intros c1 x1 b H1 Hp1 Hx1 El1. wp1. eapply wp_deref; [exact Hp1 |].
  destruct (iv_streams _ _ _ _ _ H1 p _ Hp1) as [[] _]. set (s1 := s <| ls_wbuf := b |>) in *.
  assert (∀ c', inv X loc own arm c' → lc_streams c' !! p = Some s1 → lc_mux c' = Some x1 →
            lc_all c' = lc_all c → Q tt c') as Hsame.
  { intros c' H' Hp' Hx' El'. apply (HQ c' x1 b (ls_ev_pending s) (ls_in_ready s) (ls_want_writable s)); [done | exact Hp' | done | done]. }
  apply wp_when; intros Ha; [| by apply Hsame].
  wp1. eapply wp_signal; [exact H1 |]. intros c2 H2 E2 [F1 F2 F3 F4].
  apply wp_when; intros Hww; [| apply Hsame; [done | by rewrite E2 | congruence | congruence]].
  wp1. eapply wp_put; [exact H2 | rewrite E2; exact Hp1 | done | by split | by left |].
  intros c3 H3 Hp3 [G1 G2 G3 G4]. eapply wp_ready_mark; [exact H3 | exact Hp3 | done |].
  intros c4 e r H4 Hp4 _ [K1 K2 K3 K4]. apply (HQ c4 x1 b e r false); [done | exact Hp4 | congruence | congruence].
Qed.

(** The close that [process_pending] sends, and the stream's end. *)
Lemma wp_finish loc own arm c x p s (Q : unit → lp_client → Prop) :
  inv (opening p calm) loc own arm c → lc_mux c = Some x → lc_streams c !! p = Some s →
  ls_consume_pending s ≤ 0 →
  (∀ c' x', inv calm loc own arm c' → lc_mux c' = Some x' → (∀ q, q ≠ p → q ∈ lc_all c → q ∈ lc_all c') → Q tt c') →
  wp (when_ (ls_app_closed s && negb (ls_fin_sent s) && (buf_avail (ls_wbuf s) =? 0))
        (call MUX_ERR_PARAM (fun m => mux_close m (ls_sid s));;
         store p (s <| ls_fin_sent := true |>
                    <| ls_proto_done := if ls_eof s then true else ls_proto_done s |>));;
      stream_try_free p) Q c.
Proof.
  intros H Hx Hp Hc HQ. destruct (iv_streams _ _ _ _ _ H p s Hp) as [[Of Od Or Oe Ob] _]. wp1.
  assert (∀ c' x' s', inv (opening p calm) loc own arm c' → lc_mux c' = Some x' → lc_streams c' !! p = Some s' →
    lc_all c' = lc_all c → ls_consume_pending s' ≤ 0 →
    (ls_app_closed s' = true → ls_fin_sent s' = true ∨ buf_avail (ls_wbuf s') ≠ 0) →
    wp (stream_try_free p) Q c') as Hend.
  { intros c' x' s' H' Hx' Hp' El Hc' Hf'. eapply wp_try_free; [exact H' | exact Hp' | |].
    - intros Hn. split; [lia | intros Ha; destruct (Hf' Ha); auto | naive_solver].
    - intros c2 H2 [F1 F2 F3 F4]. apply (HQ c2 x'); [by apply (calm_close p) | congruence |].
      intros q. rewrite <- El. apply F4. }
  apply wp_when; intros Hb.
  - apply andb_true_iff in Hb as [[Ha Hf]%andb_true_iff Hw%Z.eqb_eq]. apply negb_true_iff in Hf.
    wp1. eapply wp_call; [exact H | exact Hx | apply mux_close_hush |]. intros c1 H1 ->.
    eapply wp_put; [exact H1 | exact Hp | done | | left; by left |].
    + split; cbn; try done. rewrite Od, Hf. by destruct (ls_eof s), (ls_reset s).
    + intros c2 H2 Hp2 [F1 F2 F3 F4]. eapply (Hend c2); [exact H2 | exact F1 | exact Hp2 | exact F4 | done | by left].
  - apply (Hend c x s); [done .. |]. intros Ha. rewrite Ha in Hb. cbn in Hb.
    destruct (ls_fin_sent s); [by left |]. cbn in Hb. apply Z.eqb_neq in Hb. by right.
Qed.

Lemma wp_process_pending loc own arm c x p s (Q : unit → lp_client → Prop) :
  inv (opening p calm) loc own arm c → lc_mux c = Some x → lc_streams c !! p = Some s →
  (∀ c' x', inv calm loc own arm c' → lc_mux c' = Some x' → (∀ q, q ≠ p → q ∈ lc_all c → q ∈ lc_all c') → Q tt c') →
  wp (process_pending p) Q c.
Proof.
  intros H Hx Hp HQ. unfold process_pending. wp1. eapply wp_deref; [exact Hp |].
  assert (∀ c1 x1 s1, inv (opening p calm) loc own arm c1 → lc_mux c1 = Some x1 → lc_streams c1 !! p = Some s1 →
    lc_all c1 = lc_all c → ls_consume_pending s1 ≤ 0 →
    wp (s ← deref p; when_ (buf_avail (ls_wbuf s) >? 0) (flush_wbuf p);; s ← deref p;
        when_ (ls_app_closed s && negb (ls_fin_sent s) && (buf_avail (ls_wbuf s) =? 0))
        (call MUX_ERR_PARAM (fun m => mux_close m (ls_sid s));;
         store p (s <| ls_fin_sent := true |>
                    <| ls_proto_done := if ls_eof s then true else ls_proto_done s |>));;
        stream_try_free p) Q c1) as Hrest.
  { intros c1 x1 s1 H1 Hx1 Hp1 El Hc. wp1. eapply wp_deref; [exact Hp1 |].
    destruct (iv_streams _ _ _ _ _ H1 p s1 Hp1) as [[Of Od Or Oe Ob] _].
    wp1. apply wp_when; intros Ha.
    - eapply wp_flush_wbuf; [exact H1 | by left | exact Hp1 | exact Hx1 | |].
      { destruct (ls_fin_sent s1) eqn:E; [| done]. destruct (Of eq_refl) as [_ E0]. by rewrite E0 in Ha. }
      intros c2 x2 b e r w H2 Hp2 Hx2 El2. wp1. eapply wp_deref; [exact Hp2 |].
      eapply wp_finish; [exact H2 | exact Hx2 | exact Hp2 | exact Hc |].
      intros c' x' H' Hx' Hq. apply (HQ c' x'); [done | done |]. intros q. rewrite <- El, <- El2. apply Hq.
    - wp1. eapply wp_deref; [exact Hp1 |]. eapply wp_finish; [exact H1 | exact Hx1 | exact Hp1 | exact Hc |].
      intros c' x' H' Hx' Hq. apply (HQ c' x'); [done | done |]. intros q. rewrite <- El. apply Hq. }
  destruct (iv_streams _ _ _ _ _ H p s Hp) as [[Of Od Or Oe Ob] _]. wp1. apply wp_when; intros Hc.
  - wp1. eapply wp_call; [exact H | exact Hx | apply mux_consume_hush |]. intros c1 H1 ->.
    eapply wp_put; [exact H1 | exact Hp | done | by split | left; by left |].
    intros c2 H2 Hp2 [F1 F2 F3 F4]. eapply Hrest; [exact H2 | exact F1 | exact Hp2 | exact F4 | done].
  - eapply Hrest; [exact H | exact Hx | exact Hp | done |]. lia.
Qed.

(** Taking a stream off the detached list. *)
Lemma inv_unpend X loc own arm c p s :
  inv X (p :: loc) own arm c → lc_streams c !! p = Some s →
  inv (opening p X) loc own arm (put_stream p (s <| ls_in_pending := false |>) c).
Proof.
  intros [] Hp. set (s' := s <| ls_in_pending := false |>).
  assert (reg_same (lc_streams c) (<[p := s']> (lc_streams c))) as Hr by by apply (reg_same_insert _ _ s).
  destruct (iv_streams p s Hp) as [[] _].
  split; cbn; try done; try (by apply (flagged_same _ _ _ _ s)).
  - apply flagged_clear; [done |]. eapply flagged_perm; [| done]. symmetry. apply Permutation_middle.
  - by eapply brk_insert.
  - by eapply registered_same.
  - by eapply fresh_same.
  - eapply streams_insert; [done | intros q _ ?; by right | by split | left; by left].
Qed.

Lemma loc_live X loc own arm c p : inv X loc own arm c → p ∈ loc → ∃ s, lc_streams c !! p = Some s.
Proof.
  intros H Hp. destruct (flagged_live _ _ _ p (iv_pending _ _ _ _ _ H)) as (s & Hs & _);
    [apply elem_of_app; by right | by exists s].
Qed.

Lemma wp_work_loop ps own arm c x (Q : unit → lp_client → Prop) :
  inv calm ps own arm c → lc_mux c = Some x →
  (∀ c' x', inv calm [] own arm c' → lc_mux c' = Some x' → Q tt c') →
  wp (work_loop ps) Q c.
Proof.
  revert c x. induction ps as [|p ps IH]; intros c x H Hx HQ; cbn [work_loop]; [by apply (HQ c x) |].
  destruct (loc_live _ _ _ _ _ p H) as [s Hp]; [by left |]. wp1. eapply wp_update; [exact Hp |].
  wp1. eapply wp_process_pending; [by apply inv_unpend | exact Hx | apply put_lookup |].
  intros c' x' H' Hx' _. eapply IH; [exact H' | exact Hx' | exact HQ].
Qed.

Lemma wp_run_pending own arm c x (Q : unit → lp_client → Prop) :
  inv calm [] own arm c → lc_mux c = Some x →
  (∀ c' x', inv calm [] own arm c' → lc_mux c' = Some x' → Q tt c') →
  wp run_pending Q c.
Proof.
  intros H Hx HQ. unfold run_pending. wps. eapply wp_work_loop; [| exact Hx | exact HQ].
  destruct H. split; cbn; try done. by rewrite app_nil_r in iv_pending.
Qed.
