(* ===== verification/PeerIO.v ===== *)
(** libpeer: the tunnel, the sections of the I/O thread and the public API have
    a defined outcome and keep the invariant. *)

From stdpp Require Import base list numbers gmap.
From Stdlib Require Import ZArith Lia.
From S2P Require Import Prelude Frame OutBuf EventQueue Probe StreamTable Session SessionIO Handshake Recv SessionOpens Auth Host Fifo Umap Peer PeerInv PeerSteps.

(** ** The tunnel *)

Lemma wp_tunnel_flush X loc own arm ws sent c x (Q : Z * list write_res * bytes → lp_client → Prop) :
  inv X loc own arm c → lc_mux c = Some x →
  (∀ r c' x', inv X loc own arm c' → lc_mux c' = Some x' → Q r c') →
  wp (tunnel_flush ws sent) Q c.
Proof.
  revert sent c x. induction ws as [|w ws IH]; intros sent c x H Hx HQ; cbn [tunnel_flush]; wp1;
    (eapply wp_call; [exact H | exact Hx | reflexivity |]); intros c1 H1 E1; cbn [fst snd] in *;
    destruct (mux_send_buf x) as [b len]; (assert (lc_mux c1 = Some x) as Hx1 by by rewrite E1); clear E1.
  - destruct (negb _); by eapply HQ.
  - destruct (negb _); [by eapply HQ |]. destruct w as [n| |]; [| by eapply HQ ..].
    destruct (n >? 0); [| by eapply HQ]. wp1. eapply wp_call; [exact H1 | exact Hx1 | apply mux_send_advance_hush |].
    intros c2 H2 E2. eapply IH; [exact H2 | by rewrite E2 | exact HQ].
Qed.

Lemma inv_recv X loc own arm c bs :
  inv X loc own arm c → zlen bs ≤ LP_RECV_SIZE → inv X loc own arm (c <| lc_recv := bs |>).
Proof. intros [] Hb. by split. Qed.

Lemma wp_tunnel_pump st own arm c x (Q : Z → lp_client → Prop) :
  inv calm [] own arm c → lc_mux c = Some x →
  (∀ r c' x', inv calm [] own arm c' → lc_mux c' = Some x' → zlen (lc_recv c') ≤ zlen (lc_recv c) → Q r c') →
  wp (tunnel_pump st) Q c.
Proof.
  intros H Hx HQ. unfold tunnel_pump. wps. unfold id.
  unfold wp, call. rewrite Hx. pose proof (mux_recv_opens x (lc_recv c)) as Ho.
  destruct (mux_recv x (Some (lc_recv c)) (zlen (lc_recv c))) as [cc x1]. cbn [snd] in Ho.
  pose proof (inv_mux _ _ _ _ _ _ _ H Hx Ho) as H1. set (c1 := c <| lc_mux := Some x1 |>) in *.
  match goal with |- match ?m with _ => _ end => change (wp (handle_events st;;
    (if cc <? 0 then mret (-1) else when_ (cc >? 0) (modify (fun c => c <| lc_recv ::= zdrop cc |>));; mret 0)) Q c1) end.
  wp1. eapply wp_handle_events; [exact H1 | done |]. intros c2 x2 H2 Hx2 _ _ Er.
  destruct (cc <? 0); [apply (HQ (-1) c2 x2); [done | done | rewrite Er; done] |].
  wp1. apply wp_when; intros _; wps.
  - apply (HQ 0 _ x2); [| done | cbn; rewrite Er; apply zlen_zdrop_le].
    apply (inv_recv _ _ _ _ c2 (zdrop cc (lc_recv c2)) H2).
    pose proof (zlen_zdrop_le cc (lc_recv c2)). pose proof (iv_recv _ _ _ _ _ H2). lia.
  - apply (HQ 0 c2 x2); [done | done | rewrite Er; done].
Qed.

(** The read loop stops: every second iteration at least takes a byte off the
    socket. *)
Lemma wp_tunnel_read fuel st own arm rs c x (Q : Z * list read_res → lp_client → Prop) :
  inv calm [] own arm c → lc_mux c = Some x →
  2 * script_bytes rs + b2z (zlen (lc_recv c) =? LP_RECV_SIZE) < Z.of_nat fuel →
  (∀ r c' x', inv calm [] own arm c' → lc_mux c' = Some x' → Q r c') →
  wp (tunnel_read fuel st rs) Q c.
Proof.
  revert rs c x. induction fuel as [|fuel IH]; intros rs c x H Hx Hn HQ; cbn [tunnel_read].
  { pose proof (script_bytes_nonneg rs). destruct (_ =? _); cbn in Hn; lia. }
  pose proof (iv_recv _ _ _ _ _ H) as Hr. pose proof (zlen_nonneg (lc_recv c)) as Hr0.
  wps. unfold id. destruct (Z.eqb_spec (LP_RECV_SIZE - zlen (lc_recv c)) 0) as [Es|Es].
  - wp1. eapply wp_tunnel_pump; [exact H | exact Hx |]. intros r c1 x1 H1 Hx1 Hle.
    destruct (r <? 0); [by eapply HQ |]. wps. unfold id.
    destruct (Z.eqb_spec (zlen (lc_recv c1)) (zlen (lc_recv c))); [by eapply HQ |].
    eapply IH; [exact H1 | exact Hx1 | | exact HQ].
    destruct (Z.eqb_spec (zlen (lc_recv c)) LP_RECV_SIZE); [| lia].
    destruct (Z.eqb_spec (zlen (lc_recv c1)) LP_RECV_SIZE); [lia |]. cbn in *. lia.
  - destruct rs as [|[bs| | |] rs]; try by eapply HQ. cbv zeta. set (space := LP_RECV_SIZE - zlen (lc_recv c)) in *.
    pose proof (zlen_nonneg bs) as Hb. destruct (Z.eqb_spec (Z.min (zlen bs) space) 0) as [|Hpos]; [by eapply HQ |].
    set (n := Z.min (zlen bs) space) in *. set (rs' := if n <? zlen bs then _ else rs).
    wps. match goal with |- wp _ _ ?d => set (c1 := d) end.
    assert (inv calm [] own arm c1) as H1.
    { apply (inv_recv _ _ _ _ c (lc_recv c ++ ztake n bs) H). rewrite zlen_app, zlen_ztake by lia. lia. }
    eapply wp_tunnel_pump; [exact H1 | exact Hx |]. intros r c2 x2 H2 Hx2 _.
    destruct (r <? 0); [by eapply HQ |]. destruct (n <? space); [by eapply HQ |].
    eapply IH; [exact H2 | exact Hx2 | | exact HQ].
    pose proof (script_bytes_read n bs rs ltac:(lia)) as Eb. fold rs' in Eb.
    destruct (_ =? _) in Hn; destruct (_ =? _); cbn [b2z] in *; lia.
Qed.

(** ** Losing the session *)

Definition busy : Z → Prop := fun _ => True.

(** Every live stream is protocol-done. *)
Definition all_done (c : lp_client) : Prop :=
  ∀ p s, lc_streams c !! p = Some s → ls_proto_done s = true.

Definition abort (s : lp_stream) : lp_stream :=
  if negb (ls_proto_done s) then s <| ls_reset := true |> <| ls_eof := true |> <| ls_proto_done := true |> else s.

Lemma abort_ok s : stream_ok s → stream_ok (abort s) ∧ same_flags s (abort s) ∧ ls_proto_done (abort s) = true.
Proof.
  unfold abort. intros []. destruct (ls_proto_done s) eqn:E; cbn [negb]; (split_and!; [| by split | done]).
  - split; try done. by rewrite E.
  - by split.
Qed.

Lemma wp_down_mark ps own arm c (Q : unit → lp_client → Prop) :
  inv busy [] own arm c → (∀ p, p ∈ ps → p ∈ lc_all c) →
  (∀ p s, lc_streams c !! p = Some s → p ∈ ps ∨ ls_proto_done s = true) →
  (∀ c', inv busy [] own arm c' → all_done c' → lc_all c' = lc_all c → Q tt c') →
  wp (down_mark ps) Q c.
Proof.
  revert c. induction ps as [|p ps IH]; intros c H Hps Hd HQ; cbn [down_mark].
  { apply wp_ret, HQ; [done | | done]. intros p s Hp. destruct (Hd p s Hp) as [Hn|]; [| done].
    by apply elem_of_nil in Hn. }
  destruct (all_live _ _ _ _ c p H) as [s Hp]; [apply Hps; by left |]. wp1. eapply wp_update; [exact Hp |].
  fold (abort s). destruct (iv_streams _ _ _ _ _ H p s Hp) as [Ho _]. destruct (abort_ok s Ho) as (Ho' & Hf & Hdone).
  assert (inv busy [] own arm (put_stream p (abort s) c)) as H1 by (by eapply inv_put; try done; left).
  wp1. eapply wp_signal; [exact H1 |]. intros c2 H2 E2 F2. wp1. eapply wp_signal; [exact H2 |]. intros c3 H3 E3 F3.
  wp1. eapply (wp_ready_mark_at _ _ _ _ _ _ (abort s)); [exact H3 | rewrite E3, E2; apply put_lookup | done |].
  intros c4 e r H4 E4 _ F4. rewrite E3, E2 in E4.
  assert (lc_all c4 = lc_all c) as El by (rewrite (fr_all _ _ F4), (fr_all _ _ F3), (fr_all _ _ F2); done).
  apply IH; [done | intros q Hq; rewrite El; apply Hps; by right | | intros c' H' D' L'; apply HQ; [done | done | congruence]].
  intros q x. rewrite E4. cbn. intros [[<- <-]|[Hne [[<- <-]|[_ Hx]]%lookup_insert_Some]]%lookup_insert_Some;
    [by right | done |]. destruct (Hd q x Hx) as [[->|?]%elem_of_cons|?]; auto.
Qed.

(** The two clearing loops apply a function to every stream. *)
Fixpoint each_stream (f : lp_stream → lp_stream) (ps : list Z) : P unit :=
  match ps with [] => mret tt | p :: ps => update p f;; each_stream f ps end.

Lemma each_stream_eq f ps c :
  (∀ s, f (f s) = f s) → (∀ p, p ∈ ps → is_Some (lc_streams c !! p)) →
  ∃ m, each_stream f ps c = Some (tt, c <| lc_streams := m |>) ∧
       ∀ q, m !! q = (if decide (q ∈ ps) then f else id) <$> lc_streams c !! q.
Proof.
  intros Hf. revert c. induction ps as [|p ps IH]; intros c Hps; cbn [each_stream].
  { exists (lc_streams c). split; [by destruct c |]. intros q.
    destruct (decide _) as [Hq|_]; [by apply elem_of_nil in Hq |]. by destruct (lc_streams c !! q). }
  destruct (Hps p) as [s Hp]; [by left |].
  destruct (IH (put_stream p (f s) c)) as (m & E & Hm).
  { intros q Hq. cbn. destruct (decide (q = p)) as [->|]; [rewrite lookup_insert_eq; eauto |].
    rewrite lookup_insert_ne by done. apply Hps. by right. }
  exists m. split.
  - rewrite (bind_some _ _ _ tt (put_stream p (f s) c)); [by rewrite E; destruct c |].
    unfold update. rewrite (bind_some _ _ _ s c); [done |]. unfold deref. by rewrite Hp.
  - intros q. rewrite Hm. cbn. destruct (decide (q = p)) as [->|Hne].
    + rewrite lookup_insert_eq, Hp. rewrite (decide_True (P := p ∈ p :: ps)) by by left. cbn.
      destruct (decide _); cbn; by rewrite ?Hf.
    + rewrite lookup_insert_ne by done. assert (q ∈ p :: ps ↔ q ∈ ps) as Hiff by (rewrite elem_of_cons; naive_solver).
      by rewrite (decide_ext (q ∈ p :: ps) (q ∈ ps)).
Qed.

Lemma clear_in_pending_all ps : clear_in_pending ps = each_stream (fun s => s <| ls_in_pending := false |>) ps.
Proof. induction ps as [|p ps IH]; cbn; [done | by rewrite IH]. Qed.

Lemma clear_in_reg_all ps : clear_in_reg ps = each_stream (fun s => s <| ls_in_reg := false |>) ps.
Proof. induction ps as [|p ps IH]; cbn; [done | by rewrite IH]. Qed.

Lemma each_stream_fmap f c :
  (∀ s, f (f s) = f s) → flagged (fun _ => true) (lc_all c) (lc_streams c) →
  each_stream f (lc_all c) c = Some (tt, c <| lc_streams := f <$> lc_streams c |>).
Proof.
  intros Hf [_ Hall]. destruct (each_stream_eq f (lc_all c) c Hf) as (m & -> & Hm).
  { intros p (s & Hs & _)%Hall. by exists s. }
  do 2 f_equal. assert (m = f <$> lc_streams c) as ->; [| done]. apply map_eq. intros q.
  rewrite Hm, lookup_fmap. destruct (lc_streams c !! q) as [s|] eqn:Hq; [| by destruct (decide _)].
  rewrite decide_True; [done |]. apply Hall. by exists s.
Qed.

Lemma flagged_fmap f g l (m : smap) : (∀ s, f (g s) = f s) → flagged f l m → flagged f l (g <$> m).
Proof.
  intros Hg [Hn H]. split; [done |]. intros p. rewrite H. setoid_rewrite lookup_fmap_Some. split.
  - intros (s & Hs & F). exists (g s). rewrite Hg. eauto.
  - intros (s & (x & <- & Hx) & F). exists x. by rewrite Hg in F.
Qed.

(** The registry, emptied. *)
Definition reg_empty (m : umap) : umap := mk_umap (replicate (length (um_s m)) mslot_zero) (um_cap m) 0.

Lemma reg_empty_represents m : umap_wf m → represents (reg_empty m) ∅.
Proof.
  intros [H0 Hc Hn Hl].
  assert (∀ k v, ¬ holds (um_s (reg_empty m)) k v) as Hno.
  { intros k v (j & e & Hj & K & _). cbn in Hj. apply lookup_replicate in Hj as [-> _]. done. }
  split; [| intros k v; split; [by rewrite lookup_empty | intros Hh; by apply Hno in Hh]].
  split; cbn.
  - intros E. destruct (H0 E) as [-> _]. done.
  - intros E. pose proof (Hc E) as Hch. assert (length (um_s m) = Z.to_nat (um_cap m)) as ->.
    { pose proof (chain_len _ _ _ Hch). unfold zlen in *. lia. }
    apply chain_replicate; [by eapply chain_cap | done].
  - by rewrite cnt_replicate.
  - intros E. pose proof (chain_cap _ _ _ (Hc E)) as Hp. apply pow2_pos in Hp. lia.
Qed.

(** The client once the session is gone, before the last pass. *)
Definition detach (s : lp_stream) : lp_stream := s <| ls_in_pending := false |> <| ls_in_reg := false |>.

Definition downed (c : lp_client) : lp_client :=
  c <| lc_pending := [] |>
    <| lc_streams ::= fmap detach |>
    <| lc_reg ::= reg_empty |>
    <| lc_mux := None |> <| lc_fd := -1 |> <| lc_authed := false |> <| lc_recv := [] |>.

Lemma inv_downed own arm c : inv busy [] own arm c → inv busy [] own arm (downed c).
Proof.
  intros []. unfold downed. set (g := detach).
  assert (∀ p s, (g <$> lc_streams c) !! p = Some s → ∃ x, lc_streams c !! p = Some x ∧ s = g x) as Hg.
  { intros p s (x & <- & Hx)%lookup_fmap_Some. by exists x. }
  split; cbn; try done; try (by apply flagged_fmap).
  - split; [apply NoDup_nil_2 |]. intros p. rewrite elem_of_nil. split; [done |].
    by intros (s & (x & _ & ->)%Hg & F).
  - intros p (s & (x & Hx & _)%Hg). apply iv_brk. by exists x.
  - destruct iv_reg as (m & [Hw _] & _). exists ∅. split; [by apply reg_empty_represents |].
    intros k p. rewrite lookup_empty. split; [done |]. by intros (s & (x & _ & ->)%Hg & R & _).
  - by intros p s (x & _ & ->)%Hg.
  - intros p s (x & Hx & ->)%Hg. destruct (iv_streams p x Hx) as [[] _]. split; [by split | by left].
Qed.

Lemma wp_free_released ps own arm c (Q : unit → lp_client → Prop) :
  inv (fun q => q ∈ ps) [] own arm c → NoDup ps → (∀ p, p ∈ ps → p ∈ lc_all c) → all_done c →
  (∀ c', inv calm [] own arm c' → lc_mux c' = lc_mux c → all_done c' → Q tt c') →
  wp (free_released ps) Q c.
Proof.
  revert c. induction ps as [|p ps IH]; intros c H Hn Hps Hd HQ; cbn [free_released].
  { apply wp_ret, HQ; [| done | done]. eapply inv_mono; [| exact H]. intros q Hq. by apply elem_of_nil in Hq. }
  apply NoDup_cons in Hn as [Hnp Hn]. destruct (all_live _ _ _ _ c p H) as [s Hp]; [apply Hps; by left |].
  pose proof (Hd p s Hp) as Hds. wp1. eapply wp_try_free_at; [exact H | exact Hp | |].
  { intros Hno. split; naive_solver. }
  intros c1 H1 [F1 F2 F3 F4] Hsub _ _ _. apply IH; [| done | | | intros c' H' Em' D'; apply HQ; [done | congruence | done]].
  - eapply inv_mono; [| exact H1]. intros q [Hne [->|?]%elem_of_cons]; done.
  - intros q Hq. apply F4; [by intros -> | apply Hps; by right].
  - intros q x Hx. eapply Hd. by eapply lookup_weaken.
Qed.

Lemma wp_session_down own arm c (Q : unit → lp_client → Prop) :
  inv calm [] own arm c →
  (∀ c', inv calm [] own arm c' → lc_mux c' = None → all_done c' → Q tt c') →
  wp session_down Q c.
Proof.
  intros H HQ. unfold session_down. wps.
  eapply wp_down_mark; [by eapply inv_mono; [| exact H] | done | |].
  { intros p s Hp. left. by eapply live_all. }
  intros c1 H1 D1 El. wps. rewrite clear_in_pending_all. unfold wp at 1. rewrite each_stream_fmap; [| done | by apply H1].
  unfold reg_clear. wps. rewrite clear_in_reg_all. unfold wp at 1.
  rewrite each_stream_fmap; [| done | cbn; apply flagged_fmap; [done | apply H1]]. wps.
  pose proof (inv_downed own arm c1 H1) as H2.
  eapply (wp_mono _ (fun _ c' => inv calm [] own arm c' ∧ lc_mux c' = None ∧ all_done c')).
  2:{ intros [] c' (? & ? & ?). by apply HQ. }
  match goal with |- wp _ _ ?d => assert (d = downed c1) as Ed end.
  { unfold downed. destruct c1. cbn. f_equal. unfold upd, upd_lc_streams. cbn. by rewrite <- map_fmap_compose. }
  rewrite Ed. eapply wp_free_released.
  - destruct H2. split; try done. intros p s Hp. destruct (iv_streams p s Hp) as [Ho _]. split; [done |]. left.
    apply iv_all. by exists s.
  - apply (iv_all _ _ _ _ _ H1).
  - done.
  - intros p s (x & <- & Hx)%lookup_fmap_Some. by apply (D1 p x).
  - intros c' H' Em D'. split_and!; [exact H' | exact Em | exact D'].
Qed.

(** ** Making a session *)

Lemma build_cfg_keeps k rnd c :
  ∃ nonce proof, (lp_build_cfg k rnd c).1 = c <| lc_nonce := nonce |> <| lc_proof := proof |>.
Proof.
  unfold lp_build_cfg. destruct (lf_token (lc_cfg c)) as [token|]; cbn [fst].
  - by do 2 eexists.
  - exists (lc_nonce c), (lc_proof c). by destruct c.
Qed.

Lemma wp_session_up k rnd h fd own arm c (Q : Z → lp_client → Prop) :
  inv calm [] own arm c → lc_fd c < 0 →
  (∀ c', inv calm [] own arm c' → Q (-1) c') →
  (∀ c' x, inv calm [] own arm c' → lc_mux c' = Some x → Q 0 c') →
  wp (session_up k rnd h fd) Q c.
Proof.
  intros H Hfd HQ1 HQ2. unfold wp, session_up. destruct (Z.ltb_spec fd 0) as [|Hf]; [by apply HQ1 |].
  destruct (build_cfg_keeps k rnd c) as (nonce & proof & E). destruct (lp_build_cfg k rnd c) as [c1 mc].
  cbn [fst] in E. assert (inv calm [] own arm c1) as H1 by (subst c1; eapply inv_other; [| exact H]; same_view).
  assert (lc_mux c1 = None) as Hm by (subst c1; by apply (iv_fd _ _ _ _ _ H)). clear E.
  destruct (mux_session_new _ _ _) as [s|] eqn:En.
  - apply (HQ2 _ s); [| done]. apply session_new_opens in En as (Q1 & O1 & Z1 & M1).
    destruct H1. split; cbn; try done.
    + split_and!; [done | done |]. exists 0. rewrite O1, M1. split; [simpl; lia |].
      rewrite Hm in iv_mux. intros p x Hp Hr. by rewrite (iv_mux p x Hp) in Hr.
    + split; [lia | done].
  - apply HQ1. destruct H1. split; cbn; try done. by rewrite Hm in iv_mux.
Qed.

(** ** The sections of the I/O thread *)

Lemma wp_io_before k rnd h fd ws own arm c (Q : unit → lp_client → Prop) :
  inv calm [] own arm c → (∀ c', inv calm [] own arm c' → Q tt c') → wp (io_before k rnd h fd ws) Q c.
Proof.
  intros H HQ. unfold io_before. wps. unfold id.
  assert (∀ c x, inv calm [] own arm c → lc_mux c = Some x →
    wp (run_pending;; c ← gets id; match lc_mux c with None => mret tt
        | Some _ => '(r, _, _) ← tunnel_flush ws []; when_ (r <? 0) session_down end) Q c) as Hwork.
  { intros c0 x H0 Hx. wp1. eapply wp_run_pending; [exact H0 | exact Hx |]. intros c1 x1 H1 Hx1. wps. unfold id.
    rewrite Hx1. wp1. eapply wp_tunnel_flush; [exact H1 | exact Hx1 |]. intros [[r ?] ?] c2 x2 H2 Hx2.
    apply wp_when; intros _; [| by apply HQ]. eapply wp_session_down; [exact H2 |]. intros c3 H3 _ _. by apply HQ. }
  destruct (Z.ltb_spec (lc_fd c) 0) as [Hf|Hf].
  - eapply wp_session_up; [exact H | done | intros c' H'; by apply HQ |]. intros c' x H' Hx. by eapply Hwork.
  - wps. cbn [Z.eqb negb]. destruct (lc_mux c) as [x|] eqn:Hx.
    + by eapply Hwork.
    + apply (iv_fd _ _ _ _ _ H) in Hx. lia.
Qed.

Lemma wp_io_timer k now ws own arm c (Q : unit → lp_client → Prop) :
  inv calm [] own arm c → (∀ c', inv calm [] own arm c' → Q tt c') → wp (io_timer k now ws) Q c.
Proof.
  intros H HQ. unfold io_timer. wps. unfold id. destruct (lc_mux c) as [x|] eqn:Hx; [| by apply HQ].
  wp1. eapply wp_call; [exact H | exact Hx | apply mux_on_timer_hush |]. intros c1 H1 E1.
  wp1. eapply wp_handle_events; [exact H1 | by rewrite E1 |]. intros c2 x2 H2 Hx2 _ _ _.
  wp1. eapply wp_tunnel_flush; [exact H2 | exact Hx2 |]. intros r c3 x3 H3 _. wps. by apply HQ.
Qed.

Lemma wp_io_after k po rs ws ws2 now own arm c (Q : unit → lp_client → Prop) :
  inv calm [] own arm c → (∀ c', inv calm [] own arm c' → Q tt c') → wp (io_after k po rs ws ws2 now) Q c.
Proof.
  intros H HQ. unfold io_after.
  assert (∀ c, inv calm [] own arm c → wp session_down Q c) as Hdown.
  { intros c0 H0. eapply wp_session_down; [exact H0 |]. intros c1 H1 _ _. by apply HQ. }
  destruct (po_err po); [by apply Hdown |]. wp1.
  assert (∀ c, inv calm [] own arm c → lc_fd c >=? 0 = true → ∃ x, lc_mux c = Some x) as Hmux.
  { intros c0 H0 Hf. destruct (lc_mux c0) as [x|] eqn:E; [by exists x |]. apply (iv_fd _ _ _ _ _ H0) in E. lia. }
  eapply (wp_mono _ (fun _ c' => inv calm [] own arm c')).
  { apply wp_when; intros _; [| exact H]. wps. eapply inv_other; [| exact H]. same_view. }
  intros _ c1 H1. wps. unfold id. eapply (wp_mono _ (fun _ c' => inv calm [] own arm c')).
  { destruct (_ && _) eqn:Hc; [| exact H1]. apply andb_true_iff in Hc as [Hc _]. destruct (Hmux c1 H1 Hc) as [x Hx].
    eapply wp_tunnel_read; [exact H1 | exact Hx | | by intros ???].
    unfold read_fuel. pose proof (script_bytes_nonneg rs). destruct (_ =? _); cbn [b2z]; lia. }
  intros [r ?] c2 H2. destruct (r <? 0); [by apply Hdown |]. wps. unfold id.
  eapply (wp_mono _ (fun _ c' => inv calm [] own arm c')).
  { destruct (_ && _) eqn:Hc; [| exact H2]. apply andb_true_iff in Hc as [Hc _]. destruct (Hmux c2 H2 Hc) as [x Hx].
    eapply wp_tunnel_flush; [exact H2 | exact Hx | by intros ???]. }
  intros [[r2 ?] ?] c3 H3. destruct (r2 <? 0); [by apply Hdown |]. by eapply wp_io_timer.
Qed.

Lemma wp_io_drain own arm c (Q : unit → lp_client → Prop) :
  inv calm [] own arm c → (∀ c', inv calm [] own arm c' → Q tt c') → wp io_drain Q c.
Proof.
  intros H HQ. unfold io_drain. wps. unfold id. apply wp_when; intros Hb; [| by apply HQ].
  apply andb_true_iff in Hb as [[x Hx]%bool_decide_eq_true _]. eapply wp_run_pending; [exact H | exact Hx |].
  intros c' x' H' _. by apply HQ.
Qed.

Lemma wp_io_drain_flush ws own arm c (Q : Z → lp_client → Prop) :
  inv calm [] own arm c → (∀ r c', inv calm [] own arm c' → Q r c') → wp (io_drain_flush ws) Q c.
Proof.
  intros H HQ. unfold io_drain_flush. wps. unfold id. destruct (lc_mux c) as [x|] eqn:Hx; [| by apply HQ].
  wp1. eapply wp_tunnel_flush; [exact H | exact Hx |]. intros [[r ?] ?] c' x' H' _. by apply HQ.
Qed.

Lemma wp_io_exit own arm c (Q : unit → lp_client → Prop) :
  inv calm [] own arm c → (∀ c', inv calm [] own arm c' → lc_mux c' = None → all_done c' → Q tt c') →
  wp io_exit Q c.
Proof.
  intros H HQ. unfold io_exit. wp1. eapply wp_session_down; [exact H |]. intros c1 H1 Em D1.
  eapply wp_signal; [exact H1 |]. intros c2 H2 E2 F2. apply HQ; [done | by rewrite (fr_mux _ _ F2) |].
  intros p s. rewrite E2. apply D1.
Qed.

(** ** The public API *)

Lemma own_live X loc own arm c p :
  inv X loc own arm c → p ∈ own → ∃ s, lc_streams c !! p = Some s ∧ ls_app_closed s = false.
Proof.
  intros H Hp. destruct (flagged_live _ _ _ p (iv_handles _ _ _ _ _ H)) as (s & Hs & Hu);
    [apply elem_of_app; by right |]. exists s. split; [done |]. by apply negb_true_iff.
Qed.

(** Accepting moves the head of the queue to the application. *)
Lemma inv_accept X loc own arm c p l :
  inv X loc own arm c → lc_accept c = p :: l → inv X loc (p :: own) arm (c <| lc_accept := l |>).
Proof.
  intros [] E. rewrite E in *. split; cbn; try done.
  - eapply flagged_perm; [| exact iv_handles]. apply Permutation_middle.
  - intros Ha Hp Hc. apply iv_armed; [done | done |]. destruct Hc; auto.
Qed.

Lemma accept_live X loc own arm c p l :
  inv X loc own arm c → lc_accept c = p :: l → ∃ s, lc_streams c !! p = Some s.
Proof.
  intros H E. destruct (flagged_live _ _ _ p (iv_handles _ _ _ _ _ H)) as (s & Hs & _); [| by exists s].
  rewrite E. by left.
Qed.

Lemma wp_lp_accept X loc own arm c (Q : option (option Z) → lp_client → Prop) :
  inv X loc own arm c →
  (∀ r c', inv X loc (match r with Some (Some p) => p :: own | _ => own end) arm c' → Q r c') →
  wp lp_accept Q c.
Proof.
  intros H HQ. unfold lp_accept. wps. unfold id. destruct (lc_accept c) as [|p l] eqn:E.
  - apply wp_ret, HQ. by destruct (lc_stopping c).
  - destruct (accept_live _ _ _ _ _ _ _ H E) as [s Hs]. wp1. eapply wp_deref; [exact Hs |]. wps.
    apply HQ. by apply inv_accept.
Qed.

(** Queueing a stream for the I/O thread and waking it ends its bookkeeping. *)
Lemma wp_push_wake own arm c p s (r : Z) (Q : Z → lp_client → Prop) :
  inv (opening p calm) [] own arm c → lc_streams c !! p = Some s →
  (∀ c', inv calm [] own arm c' → Q r c') → wp (pending_push p;; io_wake;; mret r) Q c.
Proof.
  intros H Hp HQ. wp1. eapply wp_pending_push; [exact H | exact Hp |]. intros c1 H1 _ _.
  wp1. eapply wp_io_wake; [exact H1 |]. intros c2 H2 _ _. wps. apply HQ. by apply (calm_close p).
Qed.

Lemma wp_lp_take own arm c p n s (Q : Z * bytes → lp_client → Prop) :
  inv calm [] own arm c → lc_streams c !! p = Some s →
  (∀ r c', inv calm [] own arm c' → Q r c') → wp (lp_take p n) Q c.
Proof.
  intros H Hp HQ. unfold lp_take. wp1. eapply wp_deref; [exact Hp |]. set (take := if _ <? _ then _ else _).
  destruct (iv_streams _ _ _ _ _ H p s Hp) as [[] _]. wp1. apply wp_store.
  match goal with |- wp _ _ (put_stream p ?x c) => set (s' := x) end.
  assert (inv (opening p calm) [] own arm (put_stream p s' c)) as H1.
  { by eapply opening_put. }
  wp1. eapply wp_pending_push; [exact H1 | apply put_lookup |]. intros c1 H2 _ _.
  wp1. eapply wp_io_wake; [exact H2 |]. intros c2 H3 _ _. wps. apply HQ. by apply (calm_close p).
Qed.

Lemma wp_lp_read own arm c p n (Q : option (Z * bytes) → lp_client → Prop) :
  inv calm [] own arm c → p ∈ own → (∀ r c', inv calm [] own arm c' → Q r c') → wp (lp_read p n) Q c.
Proof.
  intros H Hp HQ. unfold lp_read. destruct (n =? 0); [by apply wp_ret, HQ |].
  destruct (own_live _ _ _ _ _ _ H Hp) as (s & Hs & _). wp1. eapply wp_deref; [exact Hs |]. wps. unfold id.
  destruct (_ && _); [by apply wp_ret, HQ |]. destruct (ls_reset s); [by apply wp_ret, HQ |].
  destruct (_ =? 0); [by apply wp_ret, HQ |]. wp1. eapply wp_lp_take; [exact H | exact Hs |].
  intros r c' H'. by apply wp_ret, HQ.
Qed.

Lemma wp_lp_read_nb own arm c p n (Q : Z * bytes → lp_client → Prop) :
  inv calm [] own arm c → p ∈ own → (∀ r c', inv calm [] own arm c' → Q r c') → wp (lp_read_nb p n) Q c.
Proof.
  intros H Hp HQ. unfold lp_read_nb. destruct (n =? 0); [by apply wp_ret, HQ |].
  destruct (own_live _ _ _ _ _ _ H Hp) as (s & Hs & _). wp1. eapply wp_deref; [exact Hs |].
  destruct (ls_reset s); [by apply wp_ret, HQ |]. destruct (_ =? 0); [by apply wp_ret, HQ |].
  by eapply wp_lp_take.
Qed.

Lemma wp_lp_put own arm c p s buf n (Q : Z → lp_client → Prop) :
  inv calm [] own arm c → lc_streams c !! p = Some s → ls_app_closed s = false →
  (∀ r c', inv calm [] own arm c' → Q r c') → wp (lp_put p buf n) Q c.
Proof.
  intros H Hs Hc HQ. unfold lp_put. destruct (iv_streams _ _ _ _ _ H p s Hs) as [[] _].
  pose proof (calm_settled _ _ _ _ _ _ H Hs) as []. wp1.
  eapply wp_append; [exact H | exact Hs | done | | |].
  - intros b. split; cbn; try done. intros Hf. destruct (so_fin Hf). congruence.
  - intros b. right. split; cbn; try done. congruence.
  - intros c1 r b H1 Hs1 _. destruct (negb _); [by apply wp_ret, HQ |].
    eapply wp_push_wake; [eapply inv_mono; [| exact H1]; by right | exact Hs1 |]. intros c2 H2. by apply HQ.
Qed.

Lemma wp_lp_write own arm c p buf n (Q : option Z → lp_client → Prop) :
  inv calm [] own arm c → p ∈ own → (∀ r c', inv calm [] own arm c' → Q r c') → wp (lp_write p buf n) Q c.
Proof.
  intros H Hp HQ. unfold lp_write. destruct (n =? 0); [by apply wp_ret, HQ |].
  destruct (own_live _ _ _ _ _ _ H Hp) as (s & Hs & Hc). wp1. eapply wp_deref; [exact Hs |]. wps. unfold id.
  destruct (_ && _); [by apply wp_ret, HQ |]. destruct (_ || _); [by apply wp_ret, HQ |].
  wp1. eapply wp_lp_put; [exact H | exact Hs | exact Hc |]. intros r c' H'. by apply wp_ret, HQ.
Qed.

Lemma wp_lp_write_nb own arm c p buf n (Q : Z → lp_client → Prop) :
  inv calm [] own arm c → p ∈ own → (∀ r c', inv calm [] own arm c' → Q r c') → wp (lp_write_nb p buf n) Q c.
Proof.
  intros H Hp HQ. unfold lp_write_nb. destruct (n =? 0); [by apply wp_ret, HQ |].
  destruct (own_live _ _ _ _ _ _ H Hp) as (s & Hs & Hc). wp1. eapply wp_deref; [exact Hs |]. wps. unfold id.
  destruct (_ || _); [by apply wp_ret, HQ |]. destruct (_ >=? _); [| by eapply wp_lp_put].
  destruct (iv_streams _ _ _ _ _ H p s Hs) as [[] _]. pose proof (calm_settled _ _ _ _ _ _ H Hs) as [].
  wp1. eapply wp_put; [exact H | exact Hs | done | by split | right; by split |]. intros c' H' _ _. by apply wp_ret, HQ.
Qed.

(** Releasing a handle. *)
Lemma remove_perm p (l : list Z) : NoDup l → p ∈ l → l ≡ₚ p :: remove_all p l.
Proof.
  intros Hn Hp. unfold remove_all. apply NoDup_Permutation; [done | |].
  - constructor; [| by apply NoDup_filter]. by intros [? _]%list_elem_of_filter.
  - intros x. rewrite elem_of_cons, list_elem_of_filter. destruct (decide (x = p)); naive_solver.
Qed.

Lemma inv_close own arm c p s :
  inv calm [] own arm c → p ∈ own → lc_streams c !! p = Some s →
  inv (opening p calm) [] (remove_all p own) arm (put_stream p (s <| ls_app_closed := true |>) c).
Proof.
  intros [] Hp Hs. set (s' := s <| ls_app_closed := true |>).
  assert (reg_same (lc_streams c) (<[p := s']> (lc_streams c))) as Hr by by apply (reg_same_insert _ _ s).
  destruct (iv_streams p s Hs) as [[] _].
  split; cbn; try done; try (by apply (flagged_same _ _ _ _ s)).
  - apply flagged_clear; [done |]. eapply flagged_perm; [| exact iv_handles].
    rewrite (remove_perm p own) at 1; [by rewrite <- Permutation_middle | | done].
    destruct iv_handles as [Hn _]. by apply NoDup_app in Hn as (_ & _ & ?).
  - by eapply brk_insert.
  - by eapply registered_same.
  - by eapply fresh_same.
  - eapply streams_insert; [done | intros q _ []; done | split; cbn; try done | left; by left].
    intros Hf. by destruct (so_fin Hf).
Qed.

Lemma wp_lp_close own arm c p (Q : Z → lp_client → Prop) :
  inv calm [] own arm c → p ∈ own → (∀ c', inv calm [] (remove_all p own) arm c' → Q 0 c') → wp (lp_close p) Q c.
Proof.
  intros H Hp HQ. unfold lp_close. destruct (own_live _ _ _ _ _ _ H Hp) as (s & Hs & _).
  wp1. eapply wp_update; [exact Hs |]. eapply wp_push_wake; [by apply inv_close | apply put_lookup | exact HQ].
Qed.

(** ** Readiness *)

Lemma inv_own_perm X loc own own' arm c : own ≡ₚ own' → inv X loc own arm c → inv X loc own' arm c.
Proof. intros E []. split; try done. eapply flagged_perm; [| done]. by rewrite E. Qed.

Lemma wp_poll_accept room own c (Q : list (Z * Z) → lp_client → Prop) :
  inv calm [] own false c →
  (∀ acc c', inv calm [] (acc.*1 ++ own) false c' → lc_notified c' = lc_notified c →
     (length acc = room ∨ lc_accept c' = []) → Forall (fun pe => pe.2 = LP_ACCEPT) acc →
     (length acc ≤ room)%nat → Q acc c') →
  wp (poll_accept room) Q c.
Proof.
  revert own c Q. induction room as [|room IH]; intros own c Q H HQ; cbn [poll_accept].
  { apply wp_ret, HQ; [done | done | by left | done | done]. }
  wps. destruct (lc_accept c) as [|p l] eqn:E; [apply wp_ret, HQ; [done | done | by right | done | cbn; lia] |].
  destruct (accept_live _ _ _ _ _ _ _ H E) as [s Hs]. wp1. eapply wp_deref; [exact Hs |]. wps.
  eapply IH; [by eapply inv_accept |]. intros acc c' H' En Hc Hf Hl. wps. apply HQ; cbn.
  - eapply inv_own_perm; [| exact H']. by rewrite <- Permutation_middle.
  - exact En.
  - destruct Hc; [left; lia | by right].
  - by constructor.
  - lia.
Qed.

(** Taking a stream off the ready list. *)
Lemma inv_unready own c p l s :
  inv calm [] own false c → lc_ready c = p :: l → lc_streams c !! p = Some s →
  inv (opening p calm) [] own false (put_stream p (marked 0 false s) (c <| lc_ready := l |>)).
Proof.
  intros [] E Hs. rewrite E in *. set (s' := marked 0 false s).
  assert (reg_same (lc_streams c) (<[p := s']> (lc_streams c))) as Hr by by apply (reg_same_insert _ _ s).
  destruct (iv_streams p s Hs) as [[] _].
  split; cbn; try done; try (by apply (flagged_same _ _ _ _ s)).
  - by apply flagged_clear.
  - by eapply brk_insert.
  - by eapply registered_same.
  - by eapply fresh_same.
  - eapply streams_insert; [done | intros q _ []; done | by split | left; by left].
  - intros _. by apply iv_poll.
Qed.

Lemma wp_poll_ready fuel room own c (Q : list (Z * Z) → lp_client → Prop) :
  inv calm [] own false c → (length (lc_ready c) ≤ fuel)%nat → (room ≠ 0%nat → lc_accept c = []) →
  (∀ rdy c', inv calm [] own false c' → lc_notified c' = lc_notified c →
     Forall (fun pe => pe.1 ∈ own ∧ Z.testbit pe.2 0 = false) rdy → Q rdy c') →
  wp (poll_ready fuel room) Q c.
Proof.
  revert room c Q. induction fuel as [|fuel IH]; intros room c Q H Hl Hacc HQ; cbn [poll_ready]; wps;
    destruct room as [|room']; try (by apply wp_ret, HQ);
    destruct (lc_ready c) as [|p l] eqn:E; try (by apply wp_ret, HQ);
    cbn in Hl; [lia |].
  destruct (flagged_live _ _ _ p (iv_ready _ _ _ _ _ H)) as (s & Hs & _); [rewrite E; by left |].
  wp1. eapply wp_deref; [exact Hs |]. wps. apply wp_store. pose proof (inv_unready own c p l s H E Hs) as H1.
  set (c1 := put_stream p (marked 0 false s) (c <| lc_ready := l |>)) in *.
  pose proof (calm_settled _ _ _ _ _ _ H Hs) as [Sc Sf Sr].
  match goal with |- wp _ _ ?d => assert (d = c1) as -> by (unfold c1, marked; by destruct s, c) end.
  destruct (ls_app_closed s) eqn:Ec.
  - wp1. eapply wp_try_free_at; [exact H1 | apply put_lookup | |].
    + intros Hn. split; cbn in *; [exact Sc | by auto | by naive_solver].
    + intros c2 H2 F2 _ Er En Ea. apply IH; [by apply (calm_close p) | rewrite Er; cbn; lia | by rewrite Ea |].
      intros rdy c' H' En' Hf. apply HQ; [done | by rewrite En', En | done].
  - wp1. assert (inv calm [] own false c1) as H2.
    { apply (calm_close p). apply inv_settle; [| exact H1]. intros x Hx.
      assert (x = marked 0 false s) as -> by (unfold c1 in Hx; rewrite put_lookup in Hx; congruence).
      split; cbn; [exact Sc | congruence | congruence]. }
    eapply IH; [exact H2 | cbn; lia | intros _; by apply Hacc |]. intros rdy c' H' En' Hf. wps.
    apply HQ; [done | exact En' |]. constructor; [| done]. cbn. split; [| by apply so_bits, (iv_streams _ _ _ _ _ H p s)].
    pose proof (proj1 (flagged_lookup _ _ _ _ _ (iv_handles _ _ _ _ _ H) Hs)) as Hin.
    unfold unclosed in Hin. rewrite Ec, Hacc in Hin by done. by apply Hin.
Qed.

(** The handles a poll hands out. *)
Definition accepted (out : list (Z * Z)) : list Z := (filter (fun pe => pe.2 = LP_ACCEPT) out).*1.

Lemma accepted_split acc rdy :
  Forall (fun pe : Z * Z => pe.2 = LP_ACCEPT) acc → Forall (fun pe : Z * Z => Z.testbit pe.2 0 = false) rdy →
  accepted (acc ++ rdy) = acc.*1.
Proof.
  intros Ha Hr. unfold accepted. induction Ha as [|pe acc E Ha IH]; cbn [app].
  - induction Hr as [|pe rdy E Hr IH]; [done |]. rewrite filter_cons_False; [done |].
    intros E'. by rewrite E' in E.
  - rewrite filter_cons_True by done. cbn. by rewrite IH.
Qed.

(** [lp_poll] reports handles the application holds or is just given, and
    leaves readiness signalled if anything remains. *)
Lemma wp_lp_poll own arm c max (Q : list (Z * Z) → lp_client → Prop) :
  inv calm [] own arm c →
  (∀ out c', inv calm [] (accepted out ++ own) ((0 <? max) || arm) c' →
     Forall (fun pe => pe.1 ∈ accepted out ++ own ∧ (pe.2 = LP_ACCEPT ∨ Z.testbit pe.2 0 = false)) out → Q out c') →
  wp (lp_poll max) Q c.
Proof.
  intros H HQ. unfold lp_poll. destruct (Z.leb_spec max 0) as [Hm|Hm].
  { apply wp_ret, HQ; [| done]. destruct (Z.ltb_spec 0 max); [lia | done]. }
  destruct (Z.ltb_spec 0 max) as [_|]; [| lia]. cbn [orb] in HQ. wps.
  match goal with |- wp _ _ ?d => set (c0 := d) end.
  assert (inv calm [] own false c0) as H0 by (destruct H; by split).
  eapply wp_poll_accept; [exact H0 |]. intros acc c1 H1 En1 Hend Hacc Hlen. wps. unfold id.
  eapply wp_poll_ready; [exact H1 | done | |].
  { intros Hr. destruct Hend; [lia | done]. }
  intros rdy c2 H2 En2 Hrdy. wps. unfold id.
  assert (Forall (fun pe : Z * Z => Z.testbit pe.2 0 = false) rdy) as Hb by (eapply Forall_impl; [exact Hrdy | by intros ? []]).
  pose proof (accepted_split acc rdy Hacc Hb) as Eacc.
  assert (Forall (fun pe => pe.1 ∈ acc.*1 ++ own ∧ (pe.2 = LP_ACCEPT ∨ Z.testbit pe.2 0 = false)) (acc ++ rdy)) as Hall.
  { apply Forall_app. split; [| eapply Forall_impl; [exact Hrdy | intros ? []; by auto]].
    apply Forall_forall. intros pe Hpe. split; [| left; by eapply Forall_forall in Hacc].
    apply elem_of_app. left. apply list_elem_of_fmap. by exists pe. }
  apply wp_when; intros Hne.
  - wps. eapply wp_notify_raise; [| intros c3 H3 _ _; wps; apply HQ; rewrite Eacc; done].
    assert (lc_notified c2 = false) as En by (rewrite En2, En1; done).
    eapply inv_other; [| exact H2]. by split.
  - wps. apply HQ; rewrite Eacc; [| done]. destruct H2. split; try done. intros _ _.
    apply negb_false_iff, bool_decide_eq_true in Hne as [-> ->]. naive_solver.
Qed.
