(* ===== verification/PeerSys.v ===== *)
(** libpeer as a system: any sequence of I/O-thread sections and application
    calls, each run with the mutex held.

    The application is any program that uses a handle only between the accept
    (or poll) that returned it and its close; everything else (order of calls,
    socket results, bytes received, buffer sizes, reconnects) is arbitrary. *)

From stdpp Require Import base list numbers gmap.
From Stdlib Require Import ZArith Lia.
From S2P Require Import Prelude Frame OutBuf EventQueue Probe StreamTable Session SessionIO Handshake Recv SessionOpens Auth Host Fifo Umap Peer PeerInv PeerFrame PeerSteps PeerIO.

(** ** Runs *)

Inductive lp_op :=
  | IO_BEFORE (k : stack) (rnd : bytes) (h : heap) (fd : Z) (ws : list write_res)
  | IO_AFTER (k : stack) (po : polled) (rs : list read_res) (ws ws2 : list write_res) (now : Z)
  | IO_DRAIN
  | IO_DRAIN_FLUSH (ws : list write_res)
  | IO_EXIT
  | APP_ACCEPT
  | APP_READ (p n : Z)
  | APP_READ_NB (p n : Z)
  | APP_WRITE (p : Z) (buf : bytes) (n : Z)
  | APP_WRITE_NB (p : Z) (buf : bytes) (n : Z)
  | APP_META (p : Z)
  | APP_CLOSE (p : Z)
  | APP_FILENO
  | APP_POLL (max : Z)
  | APP_STOP.

(** The client, the handles the application holds, and whether everything
    queued for [lp_poll] since it was enabled has been signalled. *)
Record sys := mk_sys { y_client : lp_client; y_own : list Z; y_armed : bool }.

Definition start (cfg : lp_config) : sys := mk_sys (lp_client_zero cfg) [] true.

(** An operation that leaves the handles alone. *)
Definition plain {A} (m : P A) (y : sys) : option sys :=
  match m (y_client y) with Some (_, c) => Some (mk_sys c (y_own y) (y_armed y)) | None => None end.

(** A call on a handle: not made by an application that does not hold it. *)
Definition held {A} (p : Z) (m : P A) (y : sys) : option sys :=
  if decide (p ∈ y_own y) then plain m y else Some y.

Definition exec (o : lp_op) (y : sys) : option sys :=
  let '(mk_sys c own arm) := y in
  match o with
  | IO_BEFORE k rnd h fd ws => plain (io_before k rnd h fd ws) y
  | IO_AFTER k po rs ws ws2 now => plain (io_after k po rs ws ws2 now) y
  | IO_DRAIN => plain io_drain y
  | IO_DRAIN_FLUSH ws => plain (io_drain_flush ws) y
  | IO_EXIT => plain io_exit y
  | APP_ACCEPT =>
      match lp_accept c with
      | Some (Some (Some p), c) => Some (mk_sys c (p :: own) arm)
      | Some (_, c) => Some (mk_sys c own arm)
      | None => None
      end
  | APP_READ p n => held p (lp_read p n) y
  | APP_READ_NB p n => held p (lp_read_nb p n) y
  | APP_WRITE p buf n => held p (lp_write p buf n) y
  | APP_WRITE_NB p buf n => held p (lp_write_nb p buf n) y
  | APP_META p => held p (lp_stream_meta p) y
  | APP_CLOSE p =>
      if decide (p ∈ own) then
        match lp_close p c with Some (_, c) => Some (mk_sys c (remove_all p own) arm) | None => None end
      else Some y
  | APP_FILENO =>
      match lp_fileno c with
      | Some (_, c') => Some (mk_sys c' own (if lc_poll_mode c then arm else bool_decide (lc_accept c = [])))
      | None => None
      end
  | APP_POLL max =>
      match lp_poll max c with
      | Some (out, c) => Some (mk_sys c (accepted out ++ own) ((0 <? max) || arm))
      | None => None
      end
  | APP_STOP => plain lp_stop y
  end.

Fixpoint run (ops : list lp_op) (y : sys) : option sys :=
  match ops with [] => Some y | o :: ops => y ← exec o y; run ops y end.

Definition sys_ok (y : sys) : Prop := inv calm [] (y_own y) (y_armed y) (y_client y).

Lemma start_ok cfg : sys_ok (start cfg).
Proof.
  split; cbn; try done.
  all: try (split; [apply NoDup_nil_2 |]; intros p; rewrite elem_of_nil; split; [done |];
            intros (s & Hs & _); by rewrite lookup_empty in Hs).
  - intros p [s Hs]. by rewrite lookup_empty in Hs.
  - exists ∅. split; [apply umap_zero_represents |]. intros k p. rewrite lookup_empty. split; [done |].
    intros (s & Hs & _). by rewrite lookup_empty in Hs.
Qed.

(** ** One operation *)

Lemma plain_ok {A} (m : P A) y :
  wp m (fun _ c' => inv calm [] (y_own y) (y_armed y) c') (y_client y) →
  ∃ y', plain m y = Some y' ∧ sys_ok y'.
Proof. unfold wp, plain. destruct (m (y_client y)) as [[a c']|]; [| done]. intros H. by eexists. Qed.

Lemma held_ok {A} (m : P A) p y :
  sys_ok y →
  (p ∈ y_own y → wp m (fun _ c' => inv calm [] (y_own y) (y_armed y) c') (y_client y)) →
  ∃ y', held p m y = Some y' ∧ sys_ok y'.
Proof. intros Hy H. unfold held. destruct (decide _); [apply plain_ok; auto | by exists y]. Qed.

Lemma inv_fileno own arm c :
  inv calm [] own arm c →
  inv calm [] own (if lc_poll_mode c then arm else bool_decide (lc_accept c = [])) (c <| lc_poll_mode := true |>).
Proof.
  intros []. split; cbn; try done. destruct (lc_poll_mode c) eqn:E; [by auto |].
  intros Ha%bool_decide_eq_true _ [?|Hr]; [done |]. by specialize (iv_poll Hr).
Qed.

Lemma exec_ok o y : sys_ok y → ∃ y', exec o y = Some y' ∧ sys_ok y'.
Proof.
  destruct y as [c own arm]. intros Hy. pose proof Hy as H. unfold sys_ok in H. cbn in H.
  destruct o; cbn [exec]; try (apply plain_ok; cbn); try (apply held_ok; [exact Hy | intros Hp; cbn in *]).
  - eapply wp_io_before; [exact H | auto].
  - eapply wp_io_after; [exact H | auto].
  - eapply wp_io_drain; [exact H | auto].
  - eapply wp_io_drain_flush; [exact H | auto].
  - eapply wp_io_exit; [exact H | auto].
  - pose proof (wp_lp_accept _ _ _ _ _ (fun r c' => inv calm [] (match r with Some (Some p) => p :: own | _ => own end) arm c') H (fun _ _ H => H)) as Hw.
    unfold wp in Hw. destruct (lp_accept c) as [[[[p|]|] c']|]; [by eexists .. | done].
  - eapply wp_lp_read; [exact H | done | auto].
  - eapply wp_lp_read_nb; [exact H | done | auto].
  - eapply wp_lp_write; [exact H | done | auto].
  - eapply wp_lp_write_nb; [exact H | done | auto].
  - destruct (own_live _ _ _ _ _ _ H Hp) as (s & Hs & _). unfold lp_stream_meta. wp1. by eapply wp_deref.
  - destruct (decide (p ∈ own)) as [Hp|]; [| by eexists].
    pose proof (wp_lp_close _ _ _ _ (fun _ c' => inv calm [] (remove_all p own) arm c') H Hp (fun _ H => H)) as Hw.
    unfold wp in Hw. destruct (lp_close p c) as [[r c']|]; [by eexists | done].
  - eexists. split; [done |]. by apply inv_fileno.
  - pose proof (wp_lp_poll _ _ _ max (fun out c' => inv calm [] (accepted out ++ own) ((0 <? max) || arm) c') H (fun _ _ H _ => H)) as Hw.
    unfold wp in Hw. destruct (lp_poll max c) as [[out c']|]; [by eexists | done].
  - unfold lp_stop. wps. eapply (wp_io_wake calm [] own arm); [| by intros ?].
    eapply inv_other; [| exact H]. same_view.
Qed.

Lemma run_ok ops y : sys_ok y → ∃ y', run ops y = Some y' ∧ sys_ok y'.
Proof.
  revert y. induction ops as [|o ops IH]; intros y H; cbn [run]; [by exists y |].
  destruct (exec_ok o y H) as (y1 & -> & H1). cbn [mbind option_bind]. by apply IH.
Qed.

(** ** Signals *)

(** An operation never takes back a signal. *)
Definition louder (c c' : lp_client) : Prop := lc_sig c ⊆ lc_sig c'.
Abbreviation noisy m := (stays louder m).

#[export] Instance louder_frame : Frame louder.
Proof. split; [| done]. split; [intros c; unfold louder; reflexivity | intros c1 c2 c3; unfold louder; set_solver]. Qed.

#[local] Hint Extern 3 (stays louder (modify _)) => apply stays_modify; intros []; unfold louder; cbn; reflexivity : stays.

(** Losing the session signals every waiting reader and writer. *)
Lemma down_mark_signals ps c c' p :
  down_mark ps c = Some (tt, c') → (p ∈ ps ∨ RCV p ∈ lc_sig c ∧ SND p ∈ lc_sig c) →
  RCV p ∈ lc_sig c' ∧ SND p ∈ lc_sig c'.
Proof.
  revert c. induction ps as [|q ps IH]; intros c; cbn [down_mark].
  { intros [= <-] [Hp|?]; [by apply elem_of_nil in Hp | done]. }
  intros E Hp. apply bind_inv in E as ([] & c1 & E1 & E). apply bind_inv in E as ([] & c2 & E2 & E).
  apply bind_inv in E as ([] & c3 & E3 & E). apply bind_inv in E as ([] & c4 & E4 & E).
  apply IH in E; [done |]. apply (stays_update (R := louder)) in E1.
  pose proof (stays_signal (R := louder) _ _ _ _ E2) as S2. pose proof (stays_signal (R := louder) _ _ _ _ E3) as S3.
  apply (stays_ready_mark (R := louder)) in E4. unfold louder in *.
  destruct Hp as [[->|Hp]%elem_of_cons|[HR HS]]; [right | by left | right; set_solver].
  injection E2 as <-. injection E3 as <-. cbn in *. set_solver.
Qed.

Lemma session_down_signals c c' p :
  session_down c = Some (tt, c') → p ∈ lc_all c → RCV p ∈ lc_sig c' ∧ SND p ∈ lc_sig c'.
Proof.
  unfold session_down. intros (ps & c1 & [= <- <-] & E)%bind_inv Hp. apply bind_inv in E as ([] & c2 & E2 & E).
  destruct (down_mark_signals _ _ _ p E2 (or_introl Hp)) as [HR HS].
  assert (lc_sig c2 ⊆ lc_sig c') as Hsub; [| set_solver].
  match type of E with ?m c2 = _ => assert (noisy m) as Hn; [| by eapply Hn] end.
  assert (∀ ps, noisy (clear_in_pending ps)) as N1 by apply stays_clear.
  assert (∀ ps, noisy (clear_in_reg ps)) as N2 by apply stays_clear.
  assert (∀ ps, noisy (free_released ps)) as N3 by apply stays_clear.
  unfold reg_clear. auto 20 with stays.
Qed.

(** ** Theorems *)

Lemma run_sys_ok cfg ops y : run ops (start cfg) = Some y → sys_ok y.
Proof. intros E. destruct (run_ok ops (start cfg) (start_ok cfg)) as (y' & E' & H). congruence. Qed.

(** C5: libpeer is memory safe under every interleaving.  Whatever the order of
    I/O-thread sections and application calls, whatever the peer sends, however
    sockets fail and however often the tunnel is re-made, each operation has a
    defined outcome: no freed stream is reached through a list link, the
    registry, an event or a held handle, no table operation diverges, every loop
    ends, and the receive buffer is never overrun; and the invariant of the
    client's lists, flags and registry holds again. *)
Theorem libpeer_safe cfg ops : ∃ y, run ops (start cfg) = Some y ∧ sys_ok y.
Proof. apply run_ok, start_ok. Qed.



(** [lp_poll] reports only handles the application may use: each stream it
    reports was handed out by an earlier accept or poll, or is handed out by this
    very call, and has not been closed; no handle is handed out twice. *)
Theorem poll_reports_held cfg ops y max out c :
  run ops (start cfg) = Some y → lp_poll max (y_client y) = Some (out, c) →
  Forall (fun pe => pe.1 ∈ accepted out ++ y_own y) out ∧ NoDup (accepted out ++ y_own y) ∧
  ∀ p, p ∈ accepted out ++ y_own y → ∃ s, lc_streams c !! p = Some s ∧ ls_app_closed s = false.
Proof.
  intros E%run_sys_ok Ep.
  pose proof (wp_lp_poll _ _ _ max (fun out c' => inv calm [] (accepted out ++ y_own y) ((0 <? max) || y_armed y) c' ∧
    Forall (fun pe => pe.1 ∈ accepted out ++ y_own y) out) E
    (fun _ _ H F => conj H (Forall_impl _ _ _ F (fun _ G => proj1 G)))) as Hw.
  unfold wp in Hw. rewrite Ep in Hw. destruct Hw as [H F]. split_and!; [exact F | | intros p; by eapply own_live].
  destruct (iv_handles _ _ _ _ _ H) as [Hn _]. by apply NoDup_app in Hn as (_ & _ & ?).
Qed.

(** C30: losing the tunnel releases every blocked call.  [session_down] signals
    the reader and the writer of every handle the application holds, and from
    then on [lp_read] and [lp_write] on it return an error instead of waiting. *)
Theorem down_unblocks cfg ops y :
  run ops (start cfg) = Some y →
  ∃ c, session_down (y_client y) = Some (tt, c) ∧
    ∀ p buf n, p ∈ y_own y → n ≠ 0 →
      RCV p ∈ lc_sig c ∧ SND p ∈ lc_sig c ∧
      lp_read p n c = Some (Some (-1, []), c) ∧ lp_write p buf n c = Some (Some (-1), c).
Proof.
  intros E%run_sys_ok.
  pose proof (wp_session_down _ _ _ (fun _ c => inv calm [] (y_own y) (y_armed y) c ∧ all_done c) E (fun _ H _ D => conj H D)) as Hw.
  apply wp_run in Hw as ([] & c & Ed & H & D). exists c. split; [done |]. intros p buf n Hp Hn.
  destruct (own_live _ _ _ _ _ _ E Hp) as (s0 & Hs0 & _).
  destruct (session_down_signals _ _ p Ed) as [HR HS]; [by eapply live_all |].
  destruct (own_live _ _ _ _ _ _ H Hp) as (s & Hs & Hc). split_and!; [done | done | |].
  all: assert (ls_reset s = true) as Hr.
  1, 3: destruct (iv_streams _ _ _ _ _ H p s Hs) as [[Of Od _ _ _] _]; rewrite (D p s Hs) in Od;
    destruct (ls_fin_sent s); [by destruct (Of eq_refl); congruence | by rewrite andb_false_r, orb_false_r in Od].
  - unfold lp_read. apply Z.eqb_neq in Hn as ->. rewrite (bind_some _ _ _ s c) by (unfold deref; by rewrite Hs).
    rewrite (bind_some _ _ _ c c) by done. by rewrite Hr, andb_false_r.
  - unfold lp_write. apply Z.eqb_neq in Hn as ->. rewrite (bind_some _ _ _ s c) by (unfold deref; by rewrite Hs).
    rewrite (bind_some _ _ _ c c) by done. by rewrite Hr, andb_false_r.
Qed.

Lemma lp_free_all_ok ps c :
  NoDup ps → (∀ p, p ∈ ps ↔ is_Some (lc_streams c !! p)) → ∃ c', lp_free_all ps c = Some (tt, c') ∧ lc_streams c' = ∅.
Proof.
  revert c. induction ps as [|p ps IH]; intros c Hn Hd; cbn [lp_free_all].
  { exists c. split; [done |]. apply map_empty. intros p. apply eq_None_not_Some. intros Hp%Hd.
    by apply elem_of_nil in Hp. }
  apply NoDup_cons in Hn as [Hp Hn]. destruct (proj1 (Hd p)) as [s Hs]; [by left |].
  rewrite (bind_some _ _ _ s c) by (unfold deref; by rewrite Hs).
  rewrite (bind_some _ _ _ tt (c <| lc_streams ::= delete p |>)) by done. apply IH; [done |]. intros q. cbn.
  destruct (decide (q = p)) as [->|Hne]; [rewrite lookup_delete_eq; split; [done | by intros []] |].
  rewrite lookup_delete_ne, <- Hd, elem_of_cons by done. naive_solver.
Qed.

(** C31: nothing leaks.  When the I/O thread ends and [lp_disconnect] releases
    what is left, every stream that was ever allocated has been freed. *)
Theorem no_leak cfg ops y :
  run ops (start cfg) = Some y →
  ∃ c c', io_exit (y_client y) = Some (tt, c) ∧ lp_release c = Some (tt, c') ∧ lc_streams c' = ∅.
Proof.
  intros E%run_sys_ok.
  pose proof (wp_io_exit _ _ _ (fun _ c => inv calm [] (y_own y) (y_armed y) c) E (fun _ H _ _ => H)) as Hw.
  apply wp_run in Hw as ([] & c & Ee & H). destruct (iv_all _ _ _ _ _ H) as [Hn Ha].
  destruct (lp_free_all_ok (lc_all c) c Hn) as (c' & Ef & Ec).
  { intros p. rewrite Ha. split; [intros (s & ? & _); by exists s | intros [s ?]; by exists s]. }
  exists c, c'. by split_and!.
Qed.

(** A dead session is kept.  When the session has failed (a keepalive
    timeout, a full output buffer) and its FATAL event has been taken, an
    iteration of the I/O loop in which the socket reports nothing leaves the
    session, the socket and every stream as they are: waiting calls go on
    waiting. *)
Theorem dead_tunnel_stays c x k w now :
  lc_mux c = Some x → s_dead x = true → q_count (s_q x) = 0 →
  ∃ c', io_after k (mk_polled false w false false) [] [] [] now c = Some (tt, c') ∧
        lc_mux c' = Some x ∧ lc_fd c' = lc_fd c ∧ lc_streams c' = lc_streams c ∧ lc_sig c' = lc_sig c.
Proof.
  intros Hx Hd Hq. assert (mux_next_event x = (None, x)) as En.
  { unfold mux_next_event, evq_pop. rewrite Hq. cbn. by destruct x. }
  set (c1 := if w then c <| lc_wake := 0 |> else c).
  assert (lc_mux c1 = Some x) as Hx1 by (unfold c1; by destruct w).
  assert (∀ d, lc_mux d = Some x → d <| lc_mux := Some x |> = d) as Hid by (intros [] E; cbn in *; by subst).
  exists c1. split; [| unfold c1; by destruct w].
  unfold io_after. cbn [po_err po_wake po_in po_out]. rewrite (bind_some _ _ _ tt c1) by (unfold c1; by destruct w).
  rewrite (bind_some _ _ _ c1 c1) by done. rewrite andb_false_r. rewrite (bind_some _ _ _ (0, []) c1) by done.
  cbv beta iota. destruct (Z.ltb_spec 0 0); [lia |]. rewrite (bind_some _ _ _ c1 c1) by done. rewrite andb_false_r.
  rewrite (bind_some _ _ _ (0, [], []) c1) by done. cbv beta iota. destruct (Z.ltb_spec 0 0); [lia |].
  unfold io_timer. rewrite (bind_some _ _ _ c1 c1) by done. rewrite Hx1.
  rewrite (bind_some _ _ _ UINT64_MAX c1).
  2:{ unfold call. rewrite Hx1. unfold mux_on_timer. rewrite Hd. cbn. by rewrite Hid. }
  rewrite (bind_some _ _ _ tt c1).
  2:{ unfold handle_events. rewrite (bind_some _ _ _ 2%nat c1) by (unfold gets, events_fuel; by rewrite Hx1, Hq).
      cbn [events_loop]. rewrite (bind_some _ _ _ None c1); [done |]. unfold call. by rewrite Hx1, En, Hid. }
  assert (∃ r, tunnel_flush [] [] c1 = Some (r, c1)) as [r Ef].
  { cbn [tunnel_flush]. unfold mbind, ST_bind, call. rewrite Hx1. destruct (mux_send_buf x) as [b len] eqn:Eb. cbn.
    rewrite Hid by done. destruct (negb _); by eexists. }
  by rewrite (bind_some _ _ _ r c1).
Qed.

(** ** Witnesses and counterexamples *)

(** What the I/O thread's stack holds, a listening worker without a token, a
    connection made, bytes received, the tunnel lost. *)
Definition k0 : stack := mk_stack sample_ctx sample_ctx [].
Definition listen_cfg : lp_config := mk_lp_config true None None 0 0 0 0.
Definition turn : lp_op := IO_BEFORE k0 [] [] 5 [].
Definition got (bs : bytes) : lp_op := IO_AFTER k0 (mk_polled false false true false) [READ bs] [] [] 0.
Definition lost : lp_op := IO_AFTER k0 (mk_polled false false true false) [READ_EOF] [] [] 0.

(** A greeting and the first stream; three bytes on it. *)
Definition greet : bytes := sample_hello ++ enc (mk_wframe MUX_T_DATA MUX_F_SYN 1 []).
Definition three : bytes := enc (mk_wframe MUX_T_DATA 0 1 [1; 2; 3]).

Definition sys_of (ops : list lp_op) : sys := default (start listen_cfg) (run ops (start listen_cfg)).

Lemma sys_of_run ops :
  match run ops (start listen_cfg) with Some _ => true | None => false end = true →
  run ops (start listen_cfg) = Some (sys_of ops).
Proof. apply default_Some. Qed.

(** One stream accepted, read and closed, its close not processed yet. *)
Definition closed_ops : list lp_op := [turn; got (greet ++ three); APP_ACCEPT; APP_READ 1 10; APP_CLOSE 1].
Definition closed_stream : lp_stream :=
  default (lp_stream_zero 0) (lc_streams (y_client (sys_of closed_ops)) !! 1).


(** Poll mode entered first, then a stream. *)
Definition polling_ops : list lp_op := [APP_FILENO; turn; got greet].


Definition polled_out : list (Z * Z) * lp_client :=
  default ([], lp_client_zero listen_cfg) (lp_poll 8 (y_client (sys_of polling_ops))).

Lemma poll_reports_held_witness : polled_out.1 = [(1, LP_ACCEPT)] ∧ NoDup (accepted polled_out.1 ++ []).
Proof.
  split; [vm_compute; reflexivity |].
  assert (y_own (sys_of polling_ops) = []) as Eo by (vm_compute; reflexivity).
  destruct (poll_reports_held listen_cfg polling_ops (sys_of polling_ops) 8 polled_out.1 polled_out.2) as (_ & H & _).
  - apply sys_of_run. vm_compute. reflexivity.
  - rewrite <- surjective_pairing. apply default_Some. vm_compute. reflexivity.
  - rewrite Eo in H. exact H.
Defined.

Definition reading_ops : list lp_op := [turn; got greet; APP_ACCEPT].

Lemma down_unblocks_witness :
  ∃ c, session_down (y_client (sys_of reading_ops)) = Some (tt, c) ∧ lp_read 1 10 c = Some (Some (-1, []), c).
Proof.
  destruct (down_unblocks listen_cfg reading_ops (sys_of reading_ops)) as (c & E & H).
  - apply sys_of_run. vm_compute. reflexivity.
  - exists c. split; [exact E |]. destruct (H 1 [] 10) as (_ & _ & R & _); [| discriminate | exact R].
    apply (bool_decide_unpack _). vm_compute. exact I.
Defined.

Lemma no_leak_witness :
  ∃ c c', io_exit (y_client (sys_of reading_ops)) = Some (tt, c) ∧ lp_release c = Some (tt, c') ∧ lc_streams c' = ∅.
Proof. apply (no_leak listen_cfg reading_ops). apply sys_of_run. vm_compute. reflexivity. Defined.

(** A session that a frame of an unknown version killed, its event taken. *)
Definition killed : sys := sys_of [turn; got (sample_hello ++ replicate 12 9)].
Definition killed_session : mux_session := default (session_init [] (lp_build_cfg k0 [] (y_client killed)).2 MUX_ACCEPTOR) (lc_mux (y_client killed)).

Lemma dead_tunnel_stays_witness :
  ∃ c', io_after k0 (mk_polled false false false false) [] [] [] 7 (y_client killed) = Some (tt, c') ∧
        lc_mux c' = Some killed_session.
Proof.
  destruct (dead_tunnel_stays (y_client killed) killed_session k0 false 7) as (c' & E & Em & _).
  - apply default_Some. vm_compute. reflexivity.
  - vm_compute. reflexivity.
  - vm_compute. reflexivity.
  - exists c'. split; [exact E | exact Em].
Defined.

(** A handle of the old tunnel acts on the new one.  A stream is read from,
    the tunnel is lost and re-made, the peer opens stream 1 anew, and the
    application closes the old handle: the I/O thread credits the new session
    with the 3 bytes of the old one and sends FIN on the new stream 1.  The new
    stream is not even accepted yet; what the application then writes to it
    stays in its backlog, every [mux_write] being refused. *)
Theorem stale_close :
  let before := [turn; got (greet ++ three); APP_ACCEPT; APP_READ 1 10; lost; turn; got greet] in
  let after := before ++ [APP_CLOSE 1; turn; APP_ACCEPT; APP_WRITE 2 [7; 8] 2; turn] in
  let new (y : sys) := lc_streams (y_client y) !! 2 in
  let view (y : sys) := (fun x => (fst (mux_send_buf x), s_recv_pending x)) <$> lc_mux (y_client y) in
  ∃ out, view (sys_of before) = Some (out, 0) ∧
    view (sys_of after) = Some (out ++ enc (mk_wframe MUX_T_DATA MUX_F_FIN 1 []), 3) ∧
    (fun s => (ls_sid s, ls_app_closed s, ls_fin_sent s, queued (ls_wbuf s))) <$> new (sys_of after)
      = Some (1, false, false, [7; 8]).
Proof.
  cbv zeta. eexists. split_and!; [vm_compute; reflexivity | vm_compute; reflexivity | vm_compute; reflexivity].
Qed.

(** [lp_fileno] does not report what is already queued.  A stream that
    arrived before the call waits to be accepted, and no byte is in the
    notification pipe: an event loop that waits for one does not wake. *)
Theorem fileno_misses_queue :
  let c := y_client (sys_of [turn; got greet; APP_FILENO]) in
  lc_accept c = [1] ∧ lc_poll_mode c = true ∧ lc_notify c = 0.
Proof. cbv zeta. split_and!; vm_compute; reflexivity. Qed.
