(* ===== verification/PeerData.v ===== *)
(** libpeer's data path: what the I/O thread sends for a stream, in which order,
    and what the application reads and writes. *)

From stdpp Require Import base list numbers gmap.
From Stdlib Require Import ZArith Lia.
From S2P Require Import Prelude Frame OutBuf EventQueue Probe StreamTable Session SessionIO Handshake Recv SessionInv SessionOps SessionApi SessionSys SessionFlow SessionOpens Auth Host Fifo Umap Router Balance Splice Peer PeerInv PeerSteps PeerIO PeerSys.

(** ** What the session calls put on the wire *)

(** The call appends frames that satisfy [F]. *)
Definition sends (F : wframe → Prop) (s s' : mux_session) : Prop :=
  io_wf s → io_wf s' ∧ ∃ ws, Forall F ws ∧ outp s' = outp s ++ wire ws.

#[export] Instance sends_preorder F : PreOrder (sends F).
Proof.
  split.
  - intros s Hw. split; [done |]. exists []. by rewrite app_nil_r.
  - intros s1 s2 s3 H1 H2 Hw. destruct (H1 Hw) as (W1 & ws1 & F1 & E1). destruct (H2 W1) as (W2 & ws2 & F2 & E2).
    split; [done |]. exists (ws1 ++ ws2). split; [by apply Forall_app |]. by rewrite E2, E1, wire_app, (assoc_L (++)).
Qed.

Lemma sends_same F s s' :
  s_out s' = s_out s → s_q s' = s_q s → s_max_out_buffer s' = s_max_out_buffer s → sends F s s'.
Proof.
  intros Eo Eq Em [Hl Ho Hq]. split; [split; rewrite ?Em, ?Eo, ?Eq; done |]. exists []. by rewrite Eo, app_nil_r.
Qed.

Lemma emit_sends (F : wframe → Prop) s ty fl sid p n :
  hdr_ok ty fl sid → 0 ≤ n ≤ zlen (vbytes p) → n ≤ MUX_MAX_PAYLOAD →
  F (mk_wframe ty fl sid (ztake n (vbytes p))) → sends F s (emit s ty fl sid p n).2.
Proof.
  intros Hh Hn Hm HF Hw. destruct (emit_spec s ty fl sid p n Hh Hn Hm Hw) as (r & s' & -> & Hf & Hc).
  cbn [snd]. split; [apply Hf |]. destruct Hc as [(_ & E & _)|(_ & _ & E & _)].
  - exists [mk_wframe ty fl sid (ztake n (vbytes p))]. rewrite E, wire_one. split; [| done]. by constructor.
  - exists []. by rewrite E, app_nil_r.
Qed.

Definition credit_frame (w : wframe) : Prop := w_type w = MUX_T_WINDOW_UPDATE.

Lemma credit_loop_sends fuel s sid win pending :
  0 ≤ sid < 2 ^ 32 → sends credit_frame s (credit_loop fuel s sid win pending).1.1.
Proof.
  intros Hs. revert s win pending. induction fuel as [|k IH]; intros s win pending; cbn [credit_loop]; [reflexivity |].
  destruct (pending >? 0); [| reflexivity]. set (chunk := if _ >? _ then _ else _).
  pose proof (emit_sends credit_frame s MUX_T_WINDOW_UPDATE 0 sid (Some (be_put32 chunk)) 4) as He.
  destruct (emit _ _ _ _ _ _) as [r s1]. cbn [snd] in He.
  assert (sends credit_frame s s1) as H1.
  { apply He; [by apply hdr_ok_small | by rewrite vbytes_Some, be_put32_len | done | done]. }
  destruct (negb _); [done |]. etrans; [exact H1 | apply IH].
Qed.

Lemma mux_consume_sends s sid n : session_wf s → 0 ≤ n < 2 ^ 63 → sends credit_frame s (mux_consume s sid n).2.
Proof.
  intros Hw Hn. unfold mux_consume. destruct (s_dead s) eqn:Hd; [reflexivity |].
  destruct (Z.eqb_spec n 0); [reflexivity |]. rewrite to_i64_id by lia. fold (owe s n).
  assert (sends credit_frame s (credit_session (owe s n))) as H1.
  { transitivity (owe s n); [by apply sends_same |]. unfold credit_session.
    destruct (_ <=? 0); [reflexivity |]. destruct (_ <? _); [reflexivity |]. unfold credit_emit.
    match goal with |- context [credit_loop ?f ?a ?b ?c ?d] =>
      pose proof (credit_loop_sends f a b c d) as Hc; destruct (credit_loop f a b c d) as [[s1 w1] p1] end.
    etrans; [by apply Hc | by apply sends_same]. }
  pose proof (op_wf _ _ (credit_session_op (owe s n) (owe_wf s n ltac:(lia) Hw))) as Hw1.
  set (s1 := credit_session (owe s n)) in *. destruct (st_find (s_tab s1) sid) as [j|] eqn:Hfi; [| exact H1].
  destruct (st_find_found s1 sid j (fw_tab s1 (wf_flow s1 Hw1)) Hfi) as [e Hj]. cbn [snd].
  destruct (st_modify_found s1 j sid e (fun e => e <| st_recv_pending ::= fun p => p + n |>)
    (fw_tab s1 (wf_flow s1 Hw1)) Hj) as (_ & _ & Hj2); [apply Hj | done |].
  pose proof (found_streams s1 j sid e (fw_tab s1 (wf_flow s1 Hw1)) Hj) as Hke.
  destruct (fw_streams s1 (wf_flow s1 Hw1) sid e Hke) as [Hk _ _ _].
  set (s2 := st_modify s1 j _) in *. transitivity s2; [etrans; [exact H1 | by apply sends_same] |].
  unfold credit_stream. destruct (_ <=? 0); [reflexivity |]. destruct (_ <? _); [reflexivity |]. unfold credit_emit.
  assert (st_sid (st_at s2 j) = sid) as -> by (rewrite (found_at _ _ _ _ Hj2); apply Hj2).
  match goal with |- context [credit_loop ?f ?a ?b ?c ?d] =>
    pose proof (credit_loop_sends f a b c d) as Hc; destruct (credit_loop f a b c d) as [[s3 w3] p3] end.
  etrans; [by apply Hc; lia | by apply sends_same].
Qed.

(** FIN, or nothing. *)
Definition fin_frame (sid : Z) : wframe := mk_wframe MUX_T_DATA MUX_F_FIN sid [].

Lemma mux_close_out s sid :
  session_wf s → ∃ fs, outp (mux_close s sid).2 = outp s ++ wire fs ∧ (fs = [] ∨ fs = [fin_frame sid]).
Proof.
  intros Hw. assert (∃ fs, outp s = outp s ++ wire fs ∧ (fs = [] ∨ fs = [fin_frame sid])) as Hnone.
  { exists []. rewrite app_nil_r. auto. }
  unfold mux_close. destruct (s_dead s); [done |]. destruct (st_find (s_tab s) sid) as [j|] eqn:Hfi; [| done].
  destruct (st_find_found s sid j (fw_tab s (wf_flow s Hw)) Hfi) as [e Hj]. destruct (decide _); [done |].
  pose proof (found_streams s j sid e (fw_tab s (wf_flow s Hw)) Hj) as Hke.
  destruct (fw_streams s (wf_flow s Hw) sid e Hke) as [Hk _ _ _].
  destruct (emit_spec s MUX_T_DATA MUX_F_FIN sid None 0) as (r & s1 & -> & _ & Hc);
    [apply hdr_ok_small; done || lia | done | done | apply Hw |].
  assert (∃ fs, outp s1 = outp s ++ wire fs ∧ (fs = [] ∨ fs = [fin_frame sid])) as H1.
  { destruct Hc as [(_ & E & _)|(_ & _ & E & _)].
    - exists [fin_frame sid]. rewrite wire_one. auto.
    - exists []. rewrite app_nil_r. auto. }
  destruct (negb _); [exact H1 |]. destruct (decide _); cbn [snd]; [| exact H1].
  unfold close_stream, st_remove. by destruct (st_send_blocked _).
Qed.

(** ** Sending a stream's backlog *)

(** The frames [ds] carry a prefix of the backlog of [b]; [b'] is the rest. *)
Definition drained (sid : Z) (b b' : buf_t) (ds : list wframe) : Prop :=
  buf_wf b' ∧ Forall (data_frame sid) ds ∧ concat (w_payload <$> ds) ++ queued b' = queued b.

Lemma put_mux c p s m : put_stream p s c <| lc_mux := m |> = put_stream p s (c <| lc_mux := m |>).
Proof. by destruct c. Qed.

Lemma flush_loop_order fuel c x p s :
  lc_mux c = Some x → session_wf x → lc_streams c !! p = Some s → buf_wf (ls_wbuf s) →
  buf_avail (ls_wbuf s) < 2 ^ 63 → buf_avail (ls_wbuf s) < Z.of_nat fuel →
  ∃ x' b ds, flush_wbuf_loop fuel p c = Some (tt, put_stream p (s <| ls_wbuf := b |>) (c <| lc_mux := Some x' |>)) ∧
    session_wf x' ∧ outp x' = outp x ++ wire ds ∧ drained (ls_sid s) (ls_wbuf s) b ds.
Proof.
  revert c x s. induction fuel as [|fuel IH]; intros c x s Hx Hw Hp Hb Ha Hn.
  { destruct Hb. unfold buf_avail in *. lia. }
  cbn [flush_wbuf_loop]. rewrite (bind_some _ _ _ s c) by (unfold deref; by rewrite Hp).
  assert (∀ c', lc_streams c' !! p = Some s → put_stream p (s <| ls_wbuf := ls_wbuf s |>) c' = c') as Hid.
  { intros c' Hc'. assert (s <| ls_wbuf := ls_wbuf s |> = s) as -> by by destruct s. by apply put_same. }
  set (b := ls_wbuf s) in *. pose proof (queued_len b Hb) as Hq.
  destruct (Z.gtb_spec (buf_avail b) 0) as [Hpos|Hz].
  2:{ exists x, b, []. rewrite Hid by done. rewrite app_nil_r. split_and!; [| done | done | by split_and!].
      rewrite <- Hx. by destruct c. }
  destruct (write_any x (ls_sid s) (buf_ptr b) Hw) as (w & x1 & ds & Ew & Hw1 & Hle & Eo & Hd & Ec);
    [fold (queued b); lia |]. rewrite (Hq : zlen (buf_ptr b) = _) in Ew, Hle.
  rewrite (bind_some _ _ _ w (c <| lc_mux := Some x1 |>)) by (unfold call; by rewrite Hx, Ew).
  destruct (Z.gtb_spec w 0) as [Hw0|Hw0]; cbn [when_].
  - rewrite (bind_some _ _ _ tt (put_stream p (s <| ls_wbuf := buf_drop b w |>) (c <| lc_mux := Some x1 |>))) by done.
    destruct (Z.leb_spec w 0); [lia |]. destruct (buf_drop_spec b w Hb) as [Hb' Hq']; [lia |].
    pose proof (queued_len _ Hb') as Hl'. rewrite Hq', zlen_zdrop in Hl' by lia.
    destruct (IH (put_stream p (s <| ls_wbuf := buf_drop b w |>) (c <| lc_mux := Some x1 |>)) x1 (s <| ls_wbuf := buf_drop b w |>))
      as (x2 & b2 & ds2 & E2 & Hw2 & Eo2 & Hb2 & Hd2 & Ec2); [done | done | apply put_lookup | done | cbn; lia | cbn; lia |].
    exists x2, b2, (ds ++ ds2). rewrite E2. split_and!; [| done | | split_and!; [done | by apply Forall_app |]].
    + by rewrite put_mux, put_put.
    + by rewrite Eo2, Eo, wire_app, (assoc_L (++)).
    + change (ls_wbuf (s <| ls_wbuf := buf_drop b w |>)) with (buf_drop b w) in Ec2.
      rewrite fmap_app, concat_app, <- (assoc_L (++)), Ec2, Ec, Hq', Z.max_l by lia. apply ztake_zdrop.
  - rewrite (bind_some _ _ _ tt (c <| lc_mux := Some x1 |>)) by done. destruct (Z.leb_spec w 0); [| lia].
    exists x1, b, ds. rewrite Hid by done. rewrite Z.max_r, ztake_0 in Ec by lia.
    split_and!; [done | done | done | split_and!; [done | done | by rewrite Ec]].
Qed.

(** ** Operations that leave the session and the backlogs alone *)

(** What the wire and the rest of a stream's requests depend on. *)
Definition core_of (s : lp_stream) : Z * buf_t * bool * bool * bool :=
  (ls_sid s, ls_wbuf s, ls_app_closed s, ls_fin_sent s, ls_eof s).

Definition kept (c c' : lp_client) : Prop :=
  lc_mux c' = lc_mux c ∧ ∀ q s', lc_streams c' !! q = Some s' → ∃ s, lc_streams c !! q = Some s ∧ core_of s = core_of s'.

#[export] Instance kept_preorder : PreOrder kept.
Proof.
  split; [split; eauto |]. intros c1 c2 c3 [M1 S1] [M2 S2]. split; [congruence |].
  intros q s3 (s2 & H2 & C2)%S2. destruct (S1 q s2 H2) as (s1 & H1 & C1). exists s1. split; [done | congruence].
Qed.

Lemma kept_sub c c' : lc_mux c' = lc_mux c → lc_streams c' ⊆ lc_streams c → kept c c'.
Proof. intros Em Hs. split; [done |]. intros q s Hq. exists s. split; [by eapply lookup_weaken | done]. Qed.

Lemma kept_put c p s s' : lc_streams c !! p = Some s → core_of s' = core_of s → kept c (put_stream p s' c).
Proof. intros Hp Hc. split; [done |]. cbn. intros q y [[<- <-]|[_ Hq]]%lookup_insert_Some; eauto. Qed.

Definition keeps {A} (m : P A) : Prop := ∀ c a c', m c = Some (a, c') → kept c c'.

Lemma keeps_ret {A} (a : A) : keeps (mret a).
Proof. by intros c a' c' [= _ <-]. Qed.

Lemma keeps_undef {A} : keeps (@undef lp_client A).
Proof. done. Qed.

Lemma keeps_gets {A} (f : lp_client → A) : keeps (gets f).
Proof. by intros c a' c' [= _ <-]. Qed.

Lemma keeps_modify f : (∀ c, lc_mux (f c) = lc_mux c ∧ lc_streams (f c) ⊆ lc_streams c) → keeps (modify f).
Proof. intros H c a' c' [= _ <-]. by apply kept_sub; apply H. Qed.

Lemma keeps_bind {A B} (m : P A) (f : A → P B) : keeps m → (∀ a, keeps (f a)) → keeps (m ≫= f).
Proof. intros Hm Hf c b c' (a & c1 & E1 & E2)%bind_inv. etrans; [by eapply Hm | by eapply Hf]. Qed.

Lemma keeps_when b m : keeps m → keeps (when_ b m).
Proof. intros Hm. destruct b; [done | apply keeps_ret]. Qed.

Lemma keeps_deref p : keeps (deref p).
Proof. intros c s c'. unfold deref. destruct (_ !! _); [| done]. by intros [= _ <-]. Qed.

Lemma keeps_update p f : (∀ s, core_of (f s) = core_of s) → keeps (update p f).
Proof. intros Hf c [] c' (s & Hp & [= <-])%deref_inv. by eapply kept_put. Qed.

Lemma keeps_signal v : keeps (signal v).
Proof. by apply keeps_modify. Qed.

Create HintDb keeps.
#[local] Hint Resolve keeps_ret keeps_undef keeps_gets keeps_bind keeps_when keeps_deref keeps_signal : keeps.
#[local] Hint Extern 2 (keeps (modify _)) => apply keeps_modify; intros []; done : keeps.
#[local] Hint Extern 2 (keeps (update _ _)) => apply keeps_update; intros []; done : keeps.
#[local] Hint Extern 4 (keeps (match ?x with _ => _ end)) => destruct x : keeps.
#[local] Hint Extern 4 (keeps (if ?x then _ else _)) => destruct x : keeps.

Lemma keeps_ready_mark p bits : keeps (ready_mark p bits).
Proof.
  unfold ready_mark, notify_raise. apply keeps_bind; [auto with keeps | intros c0]. destruct (negb _); [auto with keeps |].
  apply keeps_bind; [auto with keeps | intros _]. intros c a c' (s & Hp & ([] & c1 & E1 & E2)%bind_inv)%deref_inv.
  transitivity c1.
  - destruct (negb (ls_in_ready s)); injection E1 as <-; [| done].
    etrans; [by apply (kept_put c p s (s <| ls_in_ready := true |>)) | by apply kept_sub].
  - match type of E2 with ?m c1 = _ => assert (keeps m) as Hk by auto 20 with keeps end. by eapply Hk.
Qed.

Lemma keeps_reg_put k p : keeps (reg_put k p).
Proof.
  unfold reg_put. apply keeps_bind; [auto with keeps | intros m]. apply keeps_bind; [auto with keeps | intros h].
  destruct (umap_put h m k p) as [h' [m'|]]; auto 20 with keeps.
Qed.

Lemma keeps_reg_reput mask j n : keeps (reg_reput mask j n).
Proof.
  revert j. induction n as [|n IH]; intros j; cbn [reg_reput]; [auto with keeps |].
  apply keeps_bind; [auto with keeps | intros m]. destruct (um_s m !! _) as [e|]; [| auto with keeps].
  destruct (negb _); [auto with keeps |]. apply keeps_bind; [auto with keeps | intros _].
  apply keeps_bind; [apply keeps_reg_put | intros _; apply IH].
Qed.

Lemma keeps_try_free p : keeps (stream_try_free p).
Proof.
  assert (∀ o, keeps (touch o)) as Ht by (intros [q|]; cbn; auto with keeps).
  assert (keeps (modify (fun c => c <| lc_all ::= remove_all p |> <| lc_streams ::= delete p |>))) as Hm.
  { apply keeps_modify. intros c. split; [done |]. apply delete_subseteq. }
  unfold stream_try_free, reg_remove. apply keeps_bind; [auto with keeps | intros s].
  destruct (negb _); [auto with keeps |]. destruct (_ || _); [auto with keeps |].
  apply keeps_bind; [| intros _; auto 20 with keeps]. apply keeps_when, keeps_bind; [auto with keeps | intros m].
  destruct (reg_find _ _ _ _ _) as [i found]. apply keeps_bind; [auto with keeps | intros _; apply keeps_reg_reput].
Qed.

(** ** The order of a stream's requests on the wire *)

Lemma consume_wf x sid n : session_wf x → 0 ≤ n < 2 ^ 63 → session_wf (mux_consume x sid n).2.
Proof.
  intros Hw Hn. destruct (s_dead x) eqn:Hd; [unfold mux_consume; by rewrite Hd |].
  apply (op_wf _ _ (mux_consume_op x sid n Hn Hd (owe_wf x n ltac:(lia) Hw))).
Qed.

Lemma credit_order c x p s c1 :
  lc_mux c = Some x → session_wf x → lc_streams c !! p = Some s → ls_consume_pending s < 2 ^ 63 →
  when_ (ls_consume_pending s >? 0)
    (call MUX_ERR_PARAM (fun m => mux_consume m (ls_sid s) (ls_consume_pending s));;
     store p (s <| ls_consume_pending := 0 |>)) c = Some (tt, c1) →
  ∃ x1 s1 cs, lc_mux c1 = Some x1 ∧ session_wf x1 ∧ outp x1 = outp x ++ wire cs ∧ Forall credit_frame cs ∧
    lc_streams c1 !! p = Some s1 ∧ core_of s1 = core_of s.
Proof.
  intros Hx Hw Hp Hr E. destruct (Z.gtb_spec (ls_consume_pending s) 0); cbn [when_] in E.
  2:{ injection E as <-. exists x, s, []. rewrite app_nil_r. by split_and!. }
  pose proof (consume_wf x (ls_sid s) (ls_consume_pending s) Hw ltac:(lia)) as Hw1.
  destruct (mux_consume_sends x (ls_sid s) (ls_consume_pending s) Hw ltac:(lia) (wf_io x Hw)) as (_ & cs & Hc & Eo).
  apply bind_inv in E as (r & c0 & E0 & E). unfold call in E0. rewrite Hx in E0.
  destruct (mux_consume _ _ _) as [r0 x1]. injection E0 as _ <-. injection E as <-.
  exists x1, (s <| ls_consume_pending := 0 |>), cs. split_and!; [done | done | done | done | apply put_lookup | done].
Qed.

Lemma flush_order c x p s c' :
  lc_mux c = Some x → session_wf x → lc_streams c !! p = Some s → buf_wf (ls_wbuf s) →
  buf_avail (ls_wbuf s) < 2 ^ 63 → flush_wbuf p c = Some (tt, c') →
  ∃ x' b ds, lc_mux c' = Some x' ∧ session_wf x' ∧ outp x' = outp x ++ wire ds ∧
    drained (ls_sid s) (ls_wbuf s) b ds ∧
    ∀ s', lc_streams c' !! p = Some s' → core_of s' = core_of (s <| ls_wbuf := b |>).
Proof.
  intros Hx Hw Hp Hb Ha E. unfold flush_wbuf in E. rewrite (bind_some _ _ _ s c) in E by (unfold deref; by rewrite Hp).
  destruct (flush_loop_order (S (Z.to_nat (buf_avail (ls_wbuf s)))) c x p s) as (x1 & b & ds & El & Hw1 & Eo & Hd);
    [done | done | done | done | done | lia |].
  rewrite (bind_some _ _ _ _ _ El) in E. set (c1 := put_stream p (s <| ls_wbuf := b |>) (c <| lc_mux := Some x1 |>)) in *.
  apply deref_inv in E as (s1 & Hp1 & E). unfold c1 in Hp1. rewrite put_lookup in Hp1. injection Hp1 as <-.
  assert (kept c1 c') as [Em Hs'].
  { destruct (_ <=? _); cbn [when_] in E; [| by injection E as <-]. apply bind_inv in E as ([] & c2 & E2 & E).
    injection E2 as <-. destruct (ls_want_writable _); cbn [when_] in E; [| injection E as <-; by apply kept_sub].
    apply bind_inv in E as ([] & c3 & E3 & E). injection E3 as <-. etrans; [| by eapply keeps_ready_mark].
    etrans; [| eapply kept_put; [apply put_lookup | done]]. by apply kept_sub. }
  exists x1, b, ds. split_and!; [exact Em | done | done | done |]. intros s' (y & Hy & <-)%Hs'.
  unfold c1 in Hy. rewrite put_lookup in Hy. by injection Hy as <-.
Qed.

(** The close, and the end of the stream. *)
Lemma fin_order c x p s c' :
  lc_mux c = Some x → session_wf x → lc_streams c !! p = Some s →
  (when_ (ls_app_closed s && negb (ls_fin_sent s) && (buf_avail (ls_wbuf s) =? 0))
    (call MUX_ERR_PARAM (fun m => mux_close m (ls_sid s));;
     store p (s <| ls_fin_sent := true |> <| ls_proto_done := if ls_eof s then true else ls_proto_done s |>));;
   stream_try_free p) c = Some (tt, c') →
  ∃ x' fs, lc_mux c' = Some x' ∧ session_wf x' ∧ outp x' = outp x ++ wire fs ∧
    (fs = [] ∨ fs = [fin_frame (ls_sid s)] ∧ ls_app_closed s = true ∧ buf_avail (ls_wbuf s) = 0) ∧
    ∀ s', lc_streams c' !! p = Some s' → ls_wbuf s' = ls_wbuf s.
Proof.
  intros Hx Hw Hp E. apply bind_inv in E as ([] & c1 & E1 & [Em Hs]%keeps_try_free).
  destruct (_ && _ && _) eqn:Hb; cbn [when_] in E1.
  - apply andb_true_iff in Hb as [[Hc _]%andb_true_iff Ha%Z.eqb_eq].
    destruct (mux_close_out x (ls_sid s) Hw) as (fs & Eo & Hf). pose proof (op_wf _ _ (mux_close_op x (ls_sid s) Hw)) as Hw1.
    apply bind_inv in E1 as (r & c0 & E0 & E1). unfold call in E0. rewrite Hx in E0.
    destruct (mux_close x (ls_sid s)) as [r0 x1]. injection E0 as _ <-. injection E1 as <-.
    exists x1, fs. split_and!; [exact Em | done | done | naive_solver |].
    intros s' (y & Hy & Ec)%Hs. cbn in Hy. rewrite lookup_insert_eq in Hy. injection Hy as <-.
    unfold core_of in Ec. cbn in Ec. congruence.
  - injection E1 as <-. exists x, []. rewrite app_nil_r. split_and!; [congruence | done | done | by left |].
    intros s' (y & Hy & Ec)%Hs. unfold core_of in Ec. congruence.
Qed.

(** C7: what the application wrote reaches the wire in order, and the FIN comes
    last.  When the I/O thread processes a stream, it appends to the session's
    output the credit due to the peer, then DATA frames of that stream which
    together carry a prefix of the backlog, then, only if the application closed
    the stream and the whole backlog has gone, its FIN; what was not sent stays
    at the front of the backlog. *)
Theorem backlog_before_fin loc own arm c x p s :
  inv (opening p calm) loc own arm c → lc_mux c = Some x → session_wf x → lc_streams c !! p = Some s →
  buf_wf (ls_wbuf s) → buf_avail (ls_wbuf s) < 2 ^ 63 → ls_consume_pending s < 2 ^ 63 →
  ∃ c' x' cs ds fs rest, process_pending p c = Some (tt, c') ∧ lc_mux c' = Some x' ∧ session_wf x' ∧
    outp x' = outp x ++ wire (cs ++ ds ++ fs) ∧
    Forall credit_frame cs ∧ Forall (data_frame (ls_sid s)) ds ∧
    concat (w_payload <$> ds) ++ rest = queued (ls_wbuf s) ∧
    (fs = [] ∨ fs = [fin_frame (ls_sid s)] ∧ ls_app_closed s = true ∧ rest = []) ∧
    ∀ s', lc_streams c' !! p = Some s' → queued (ls_wbuf s') = rest.
Proof.
  intros H Hx Hw Hp Hb Ha Hr.
  pose proof (wp_process_pending loc own arm c x p s (fun _ _ => True) H Hx Hp (fun _ _ _ _ _ => I)) as Hwp.
  apply wp_run in Hwp as ([] & c' & E & _). pose proof E as E0. unfold process_pending in E.
  apply deref_inv in E as (s0 & Hs0 & E). assert (s0 = s) as -> by congruence.
  apply bind_inv in E as ([] & c1 & E1 & E). destruct (credit_order _ _ _ _ _ Hx Hw Hp Hr E1) as (x1 & s1 & cs & Hx1 & Hw1 & O1 & Hc & Hp1 & C1).
  unfold core_of in C1. injection C1 as Csid Cw Cc Cf Ce.
  apply deref_inv in E as (s1' & Hs1 & E). assert (s1' = s1) as -> by congruence. rewrite <- Cw in Hb, Ha.
  apply bind_inv in E as ([] & c2 & E2 & E). apply deref_inv in E as (s2 & Hp2 & E).
  assert (∃ x2 b ds, lc_mux c2 = Some x2 ∧ session_wf x2 ∧ outp x2 = outp x1 ++ wire ds ∧
            drained (ls_sid s1) (ls_wbuf s1) b ds ∧ core_of s2 = core_of (s1 <| ls_wbuf := b |>))
    as (x2 & b & ds & Hx2 & Hw2 & O2 & (Hb2 & Hd & Ed) & C2).
  { destruct (buf_avail (ls_wbuf s1) >? 0); cbn [when_] in E2.
    - destruct (flush_order _ _ _ _ _ Hx1 Hw1 Hp1 Hb Ha E2) as (x2 & b & ds & ? & ? & ? & ? & Hs2).
      exists x2, b, ds. split_and!; auto.
    - injection E2 as <-. exists x1, (ls_wbuf s1), []. rewrite app_nil_r.
      split_and!; [done | done | done | by split_and! |]. assert (s2 = s1) as -> by congruence. by destruct s1. }
  unfold core_of in C2. injection C2 as Dsid Dw Dc Df De.
  destruct (fin_order _ _ _ _ _ Hx2 Hw2 Hp2 E) as (x3 & fs & Hx3 & Hw3 & O3 & Hf & Hs3).
  exists c', x3, cs, ds, fs, (queued b). rewrite <- Csid, <- Cw.
  split_and!; [exact E0 | done | done | | done | done | done | |].
  - by rewrite O3, O2, O1, !wire_app, !(assoc_L (++)).
  - rewrite Dw, Dsid, Dc in Hf. destruct Hf as [->|(-> & Hcl & Hav)]; [by left | right]. cbn in Hcl.
    split_and!; [done | congruence |]. pose proof (queued_len b Hb2) as Hl. apply nil_length_inv. unfold zlen in Hl. cbn in Hav. lia.
  - intros s' Hs'. by rewrite (Hs3 s' Hs'), Dw.
Qed.

(** ** Witness *)

(** A client whose session has stream 1, with two bytes of backlog, closed by the
    application. *)
Definition linked : lp_client := lp_client_zero listen_cfg <| lc_mux := Some sample_b |> <| lc_fd := 5 |>.
Definition backlog : buf_t := mk_buf [7; 8] 2 0 2.
Definition closing_stream : lp_stream := newborn 1 None 0 <| ls_wbuf := backlog |> <| ls_app_closed := true |>.
Definition closing_client : lp_client :=
  put_stream 1 closing_stream (put_stream 1 (newborn 1 None 0 <| ls_wbuf := backlog |>) (add_stream (newborn 1 None 0) linked)).

Lemma linked_inv : inv calm [] [] true linked.
Proof.
  pose proof (start_ok listen_cfg) as []. split; try done. cbn. split_and!; [apply sample_wf_b | |].
  - assert (events sample_b = [EV_PEER_HELLO (default hello_zero (match events sample_b with EV_PEER_HELLO h :: _ => Some h | _ => None end)); EV_STREAM_OPENED 1 None 0]) as -> by (vm_compute; reflexivity).
    repeat constructor.
  - exists 0. split; [vm_compute; repeat split; discriminate |]. intros p s Hp. by rewrite lookup_empty in Hp.
Qed.

Lemma closing_inv : inv (opening 1 calm) [] [] true closing_client.
Proof.
  apply (inv_close [1]); [| by left | apply put_lookup].
  apply (inv_put _ _ _ _ _ _ (newborn 1 None 0)); [| apply (put_lookup linked) | done | by split | right; by split].
  apply (inv_add calm [] [] true linked), linked_inv.
Qed.

Lemma backlog_before_fin_witness : ∃ c', process_pending 1 closing_client = Some (tt, c').
Proof.
  destruct (backlog_before_fin [] [] true closing_client sample_b 1 closing_stream) as (c' & _ & _ & _ & _ & _ & E & _).
  - exact closing_inv.
  - done.
  - exact sample_wf_b.
  - apply put_lookup.
  - split; cbn; rewrite ?zlen_cons, ?zlen_nil; lia.
  - cbn. unfold buf_avail. cbn. lia.
  - cbn. lia.
  - exists c'. exact E.
Defined.
