(* ===== verification/EvLoop.v ===== *)
(** The readiness loop, common/evloop.c (epoll backend).

    An epoll instance is its interest list: the descriptors registered, each
    with an event mask and the caller's [udata].  [epoll_ctl] and the filtering
    of [epoll_wait] are the kernel's documented behaviour; which descriptors are
    ready is an argument.  [A] is the type of the pointers used as [udata]. *)

From stdpp Require Import base list numbers gmap.
From Stdlib Require Import ZArith Lia.
From S2P Require Import Prelude Probe.

Definition EPOLLIN : Z := 1.
Definition EPOLLOUT : Z := 4.
Definition EPOLLERR : Z := 8.
Definition EPOLLHUP : Z := 16.

Record epoll_event (A : Type) := mk_epoll { ep_events : Z; ep_data : A }.
#[global] Arguments mk_epoll {A} _ _.
#[global] Arguments ep_events {A} _.
#[global] Arguments ep_data {A} _.

(** [struct evloop]: the interest list of [epfd]. *)
Abbreviation evloop A := (gmap Z (epoll_event A)).

Record ev_event (A : Type) := mk_ev { ev_udata : A; ev_readable : bool; ev_writable : bool }.
#[global] Arguments mk_ev {A} _ _ _.
#[global] Arguments ev_udata {A} _.
#[global] Arguments ev_readable {A} _.
#[global] Arguments ev_writable {A} _.

Section Loop.
Context {A : Type}.
Implicit Types (l : evloop A) (ud : A).

(** [epoll_ctl]: [None] is success, [Some errno] a failure that changes
    nothing. *)
Inductive errno := ENOENT | EEXIST.

Definition ctl_add l (fd : Z) (ev : epoll_event A) : option errno * evloop A :=
  match l !! fd with Some _ => (Some EEXIST, l) | None => (None, <[fd := ev]> l) end.
Definition ctl_mod l (fd : Z) (ev : epoll_event A) : option errno * evloop A :=
  match l !! fd with Some _ => (None, <[fd := ev]> l) | None => (Some ENOENT, l) end.
Definition ctl_del l (fd : Z) : option errno * evloop A :=
  match l !! fd with Some _ => (None, delete fd l) | None => (Some ENOENT, l) end.

Definition evloop_new : evloop A := ∅.

Definition evloop_mask (want_read want_write : bool) : Z :=
  Z.lor (if want_read then EPOLLIN else 0) (if want_write then EPOLLOUT else 0).

Definition evloop_set l (fd : Z) (want_read want_write : bool) ud : Z * evloop A :=
  let ev := mk_epoll (evloop_mask want_read want_write) ud in
  match ctl_mod l fd ev with
  | (None, l) => (0, l)
  | (Some ENOENT, l) =>
      match ctl_add l fd ev with (None, l) => (0, l) | (Some _, l) => (-1, l) end
  | (Some _, l) => (-1, l)
  end.

Definition evloop_del l (fd : Z) : Z * evloop A :=
  match ctl_del l fd with (None, l) => (0, l) | (Some _, l) => (-1, l) end.

(** What the kernel reports of a ready descriptor: the conditions asked for,
    and errors and hang-ups always. *)
Definition reported l (fd revents : Z) : option (epoll_event A) :=
  match l !! fd with
  | None => None
  | Some e =>
      let r := Z.land revents (Z.lor (ep_events e) (Z.lor EPOLLERR EPOLLHUP)) in
      if r =? 0 then None else Some (mk_epoll r (ep_data e))
  end.

Definition evloop_event (e : epoll_event A) : ev_event A :=
  mk_ev (ep_data e)
    (negb (Z.land (ep_events e) (Z.lor EPOLLIN (Z.lor EPOLLHUP EPOLLERR)) =? 0))
    (negb (Z.land (ep_events e) EPOLLOUT =? 0)).

(** [evloop_wait] with [ready] the descriptors and conditions that are ready. *)
Definition evloop_wait l (max : nat) (ready : list (Z * Z)) : list (ev_event A) :=
  evloop_event <$> take (Nat.min max 1024) (omap (fun fr => reported l fr.1 fr.2) ready).

(** ** Lemmas *)

(** [evloop_set] never fails: it registers the descriptor or changes it. *)
Lemma evloop_set_eq l fd r w ud :
  evloop_set l fd r w ud = (0, <[fd := mk_epoll (evloop_mask r w) ud]> l).
Proof. unfold evloop_set, ctl_mod, ctl_add. by destruct (l !! fd) eqn:E; rewrite ?E. Qed.

Lemma evloop_del_eq l fd : (evloop_del l fd).2 = delete fd l.
Proof.
  unfold evloop_del, ctl_del. destruct (l !! fd) eqn:E; [done |]. symmetry. by apply delete_id.
Qed.

(** Only registered descriptors are reported. *)
Lemma evloop_wait_udata l max ready e :
  e ∈ evloop_wait l max ready → ∃ fd x, l !! fd = Some x ∧ ep_data x = ev_udata e.
Proof.
  unfold evloop_wait. intros (x & -> & Hx)%list_elem_of_fmap. apply elem_of_take in Hx as (i & Hx & _).
  apply list_elem_of_lookup_2, list_elem_of_omap in Hx as ([fd rv] & _ & Hr). unfold reported in Hr. cbn in Hr.
  destruct (l !! fd) as [y|] eqn:E; [| done]. exists fd, y. split; [done |].
  destruct (_ =? 0); [done |]. by injection Hr as <-.
Qed.

(** Writability is reported only where it was asked for. *)
Lemma reported_out l fd rv e x :
  reported l fd rv = Some e → l !! fd = Some x → Z.testbit (ep_events x) 2 = false → ev_writable (evloop_event e) = false.
Proof.
  unfold reported. intros H Hx Hb. rewrite Hx in H. destruct (_ =? 0); [done |]. injection H as <-. cbn.
  apply negb_false_iff, Z.eqb_eq, Z.bits_inj'. intros i _.
  rewrite !Z.land_spec, Z.lor_spec, Z.bits_0. change EPOLLOUT with (2 ^ 2).
  destruct (decide (i = 2)) as [->|Hi]; [rewrite Hb; cbn; by rewrite !andb_false_r |].
  rewrite (Z.pow2_bits_false 2) by lia. by rewrite andb_false_r.
Qed.
End Loop.
