(* ===== verification/Kqueue.v ===== *)
(** The readiness loop, common/evloop.c: the kqueue backend, and what both
    backends promise ([Poller]).

    A kqueue is its list of filters: for a descriptor and a filter, whether it is
    enabled, and its [udata].  [kevent] on that list is the kernel's documented
    behaviour; what has become ready is an argument. *)

From stdpp Require Import base list numbers gmap.
From Stdlib Require Import ZArith Lia.
From S2P Require Import Prelude EvLoop.

Definition EVFILT_READ : Z := -1.
Definition EVFILT_WRITE : Z := -2.
Definition EV_ADD : Z := 1.
Definition EV_DELETE : Z := 2.
Definition EV_ENABLE : Z := 4.
Definition EV_DISABLE : Z := 8.
Definition EV_EOF : Z := 32768.

Record knote (A : Type) := mk_knote { kn_enabled : bool; kn_udata : A }.
#[global] Arguments mk_knote {A} _ _.
#[global] Arguments kn_enabled {A} _.
#[global] Arguments kn_udata {A} _.

(** [struct evloop]: the filters of [kq]. *)
Abbreviation kqueue A := (gmap (Z * Z) (knote A)).

Record kevent (A : Type) := mk_kevent { ke_ident : Z; ke_filter : Z; ke_flags : Z; ke_udata : A }.
#[global] Arguments mk_kevent {A} _ _ _ _.
#[global] Arguments ke_ident {A} _.
#[global] Arguments ke_filter {A} _.
#[global] Arguments ke_flags {A} _.
#[global] Arguments ke_udata {A} _.

Section Kqueue.
Context {A : Type} `{EqDecision A}.
Implicit Types (l : kqueue A) (ud : A).

Definition has (flags bit : Z) : bool := negb (Z.land flags bit =? 0).

(** One change; [None] is the error of deleting or changing what is not there. *)
Definition kevent_change l (c : kevent A) : option (kqueue A) :=
  let key := (ke_ident c, ke_filter c) in
  if has (ke_flags c) EV_DELETE then
    match l !! key with Some _ => Some (delete key l) | None => None end
  else if has (ke_flags c) EV_ADD then
    Some (<[key := mk_knote (negb (has (ke_flags c) EV_DISABLE)) (ke_udata c)]> l)
  else None.

(** The change list; without room for events the first error ends the call. *)
Fixpoint kevent_changes l (cs : list (kevent A)) : Z * kqueue A :=
  match cs with
  | [] => (0, l)
  | c :: cs => match kevent_change l c with Some l => kevent_changes l cs | None => (-1, l) end
  end.

Definition kq_new : kqueue A := ∅.

Definition kq_set l (fd : Z) (want_read want_write : bool) ud : Z * kqueue A :=
  kevent_changes l
    [mk_kevent fd EVFILT_READ (Z.lor EV_ADD (if want_read then EV_ENABLE else EV_DISABLE)) ud;
     mk_kevent fd EVFILT_WRITE (Z.lor EV_ADD (if want_write then EV_ENABLE else EV_DISABLE)) ud].

(** The [udata] of a deletion is NULL and not used. *)
Definition kq_del l (fd : Z) (null : A) : Z * kqueue A :=
  (0, (kevent_changes l [mk_kevent fd EVFILT_READ EV_DELETE null; mk_kevent fd EVFILT_WRITE EV_DELETE null]).2).

(** What [kevent] returns of the descriptors and filters that are ready, each
    with its flags. *)
Definition kq_fired l (ready : list (Z * Z * Z)) : list (kevent A) :=
  omap (fun '(fd, filter, flags) =>
          kn ← l !! (fd, filter);
          if kn_enabled kn then Some (mk_kevent fd filter flags (kn_udata kn)) else None) ready.

Definition kq_readable (e : kevent A) : bool := (ke_filter e =? EVFILT_READ) || has (ke_flags e) EV_EOF.
Definition kq_writable (e : kevent A) : bool := ke_filter e =? EVFILT_WRITE.

(** The search for [ud] among the events so far, and the store. *)
Fixpoint merge (out : list (ev_event A)) ud (readable writable : bool) : list (ev_event A) :=
  match out with
  | [] => [mk_ev ud readable writable]
  | o :: out =>
      if decide (ev_udata o = ud) then mk_ev ud (ev_readable o || readable) (ev_writable o || writable) :: out
      else o :: merge out ud readable writable
  end.

(** Coalesce read and write readiness into one event. *)
Fixpoint coalesce (out : list (ev_event A)) (evs : list (kevent A)) : list (ev_event A) :=
  match evs with
  | [] => out
  | e :: evs => coalesce (merge out (ke_udata e) (kq_readable e) (kq_writable e)) evs
  end.

Definition kq_wait l (max : nat) (ready : list (Z * Z * Z)) : list (ev_event A) :=
  coalesce [] (take (Nat.min max 1024) (kq_fired l ready)).

(** ** Lemmas *)

Lemma kq_set_eq l fd r w ud :
  kq_set l fd r w ud = (0, <[(fd, EVFILT_WRITE) := mk_knote w ud]> (<[(fd, EVFILT_READ) := mk_knote r ud]> l)).
Proof. by destruct r, w. Qed.

(** Both filters of a descriptor, or neither. *)
Definition paired l : Prop :=
  ∀ fd, match l !! (fd, EVFILT_READ), l !! (fd, EVFILT_WRITE) with
        | Some r, Some w => kn_udata r = kn_udata w
        | None, None => True
        | _, _ => False
        end.

Lemma paired_new : paired kq_new.
Proof. intros fd. unfold kq_new. by rewrite !lookup_empty. Qed.

Lemma paired_set l fd r w ud : paired l → paired (kq_set l fd r w ud).2.
Proof.
  intros Hl f. rewrite kq_set_eq. cbn. specialize (Hl f). destruct (decide (f = fd)) as [->|Hf].
  - rewrite lookup_insert_ne, lookup_insert_eq, lookup_insert_eq; [done | done].
  - by rewrite !lookup_insert_ne by congruence.
Qed.

Lemma changes_delete l fd filter u cs :
  kevent_changes l (mk_kevent fd filter EV_DELETE u :: cs) =
  match l !! (fd, filter) with Some _ => kevent_changes (delete (fd, filter) l) cs | None => (-1, l) end.
Proof. cbn [kevent_changes]. unfold kevent_change. cbn. by destruct (l !! (fd, filter)). Qed.

Lemma kq_del_eq l fd null : paired l → (kq_del l fd null).2 = delete (fd, EVFILT_WRITE) (delete (fd, EVFILT_READ) l).
Proof.
  intros Hl. specialize (Hl fd). unfold kq_del. rewrite changes_delete.
  destruct (l !! (fd, EVFILT_READ)) as [kr|] eqn:Er, (l !! (fd, EVFILT_WRITE)) as [kw|] eqn:Ew; try done; cbn [snd].
  - rewrite changes_delete, lookup_delete_ne, Ew by done. done.
  - by rewrite (delete_id _ _ Er), (delete_id _ _ Ew).
Qed.

Lemma paired_del l fd null : paired l → paired (kq_del l fd null).2.
Proof.
  intros Hl f. rewrite kq_del_eq by done. specialize (Hl f). destruct (decide (f = fd)) as [->|Hf].
  - by rewrite lookup_delete_ne, lookup_delete_eq, lookup_delete_eq.
  - by rewrite !lookup_delete_ne by congruence.
Qed.
End Kqueue.

(** ** Coalescing *)

Section Coalesce.
Context {A : Type} `{EqDecision A}.
Implicit Types (l : kqueue A) (ud : A) (out : list (ev_event A)) (evs : list (kevent A)).

(** The first event of [ud]. *)
Fixpoint look out ud : option (bool * bool) :=
  match out with
  | [] => None
  | o :: out => if decide (ev_udata o = ud) then Some (ev_readable o, ev_writable o) else look out ud
  end.

Definition about ud evs : list (kevent A) := filter (fun k => ke_udata k = ud) evs.

(** What [ud] is due: every event about it contributes. *)
Definition due ud evs : option (bool * bool) :=
  match about ud evs with
  | [] => None
  | ks => Some (existsb kq_readable ks, existsb kq_writable ks)
  end.

Lemma merge_udata out ud r w : ev_udata <$> merge out ud r w = (ev_udata <$> out) ++ (if decide (ud ∈ ev_udata <$> out) then [] else [ud]).
Proof.
  induction out as [|o out IH]; [done |]. cbn [merge]. destruct (decide (ev_udata o = ud)) as [<-|Ho].
  - rewrite decide_True by by left. cbn. by rewrite app_nil_r.
  - cbn. f_equal. rewrite IH. f_equal. destruct (decide (ud ∈ ev_udata <$> out)) as [Hi|Hi].
    + rewrite decide_True; [done | by right].
    + rewrite decide_False; [done |]. by intros [|]%elem_of_cons.
Qed.

Lemma merge_NoDup out ud r w : NoDup (ev_udata <$> out) → NoDup (ev_udata <$> merge out ud r w).
Proof.
  intros Hn. rewrite merge_udata. destruct (decide _) as [|Hi]; [by rewrite app_nil_r |].
  apply NoDup_app. split_and!; [done | | by apply NoDup_singleton]. by intros x Hx ->%list_elem_of_singleton.
Qed.

Lemma look_merge out u r w ud :
  look (merge out u r w) ud =
  if decide (u = ud) then Some (match look out u with Some (r', w') => (r' || r, w' || w) | None => (r, w) end)
  else look out ud.
Proof.
  induction out as [|o out IH]; cbn; [done |]. destruct (decide (ev_udata o = u)) as [Ho|Ho]; cbn.
  - destruct (decide (u = ud)) as [<-|Hu]; [done |]. rewrite decide_False; [done | congruence].
  - rewrite IH. destruct (decide (u = ud)) as [<-|Hu]; [by rewrite decide_False | done].
Qed.

Lemma coalesce_app out evs1 evs2 : coalesce out (evs1 ++ evs2) = coalesce (coalesce out evs1) evs2.
Proof. revert out. induction evs1 as [|e evs1 IH]; intros out; cbn; [done | by rewrite IH]. Qed.

Lemma coalesce_spec evs :
  NoDup (ev_udata <$> coalesce [] evs) ∧ ∀ ud, look (coalesce [] evs) ud = due ud evs.
Proof.
  induction evs as [|e evs [IHn IH]] using rev_ind; [split; [constructor | done] |]. rewrite coalesce_app. cbn [coalesce].
  split; [by apply merge_NoDup |]. intros ud. rewrite look_merge. unfold due, about. rewrite filter_app.
  destruct (decide (ke_udata e = ud)) as [E|E].
  - rewrite E, IH. unfold due, about. rewrite filter_cons_True, filter_nil by done.
    destruct (filter _ evs) as [|k ks]; cbn; [by rewrite !orb_false_r |]. rewrite !existsb_app. cbn.
    by rewrite !orb_false_r, !orb_assoc.
  - rewrite filter_cons_False, filter_nil, app_nil_r by done. apply IH.
Qed.

Lemma look_elem out e : NoDup (ev_udata <$> out) → e ∈ out → look out (ev_udata e) = Some (ev_readable e, ev_writable e).
Proof.
  induction out as [|o out IH]; cbn; [by intros _ ?%elem_of_nil |]. intros [Ho Hn]%NoDup_cons [->|He]%elem_of_cons.
  - by rewrite decide_True.
  - rewrite decide_False; [by apply IH |]. intros E. apply Ho. rewrite E. by apply list_elem_of_fmap_2.
Qed.
End Coalesce.

(** ** The interface of evloop.h

    [L] is a backend's state, [R] what its kernel may find ready, [asked] the
    interest it holds for a descriptor. *)

Class Poller (L A R : Type) := {
  pl_wf : L → Prop;
  pl_new : L;
  pl_set : L → Z → bool → bool → A → Z * L;
  pl_del : L → Z → L;
  pl_wait : L → nat → R → list (ev_event A);
  pl_asked : L → Z → option (bool * bool * A);
  pl_new_ok : pl_wf pl_new ∧ ∀ fd, pl_asked pl_new fd = None;
  pl_set_ok : ∀ l fd r w ud, pl_wf l →
    (pl_set l fd r w ud).1 = 0 ∧ pl_wf (pl_set l fd r w ud).2 ∧
    ∀ f, pl_asked (pl_set l fd r w ud).2 f = if decide (f = fd) then Some (r, w, ud) else pl_asked l f;
  pl_del_ok : ∀ l fd, pl_wf l →
    pl_wf (pl_del l fd) ∧ ∀ f, pl_asked (pl_del l fd) f = if decide (f = fd) then None else pl_asked l f;
  pl_wait_len : ∀ l max rd, (length (pl_wait l max rd) ≤ Nat.min max 1024)%nat;
  pl_wait_ok : ∀ l max rd e, pl_wf l → e ∈ pl_wait l max rd →
    (∃ fd r w, pl_asked l fd = Some (r, w, ev_udata e)) ∧
    (ev_writable e = true → ∃ fd r, pl_asked l fd = Some (r, true, ev_udata e)) ∧
    ev_readable e || ev_writable e = true;
}.

(** *** epoll *)

Section Epoll.
Context {A : Type}.
Implicit Types (l : evloop A).

Definition epoll_wf l : Prop := ∀ fd e, l !! fd = Some e → ∃ r w, ep_events e = evloop_mask r w.

Definition epoll_asked l (fd : Z) : option (bool * bool * A) :=
  e ← l !! fd; Some (Z.testbit (ep_events e) 0, Z.testbit (ep_events e) 2, ep_data e).

Lemma mask_bits r w : Z.testbit (evloop_mask r w) 0 = r ∧ Z.testbit (evloop_mask r w) 2 = w.
Proof. by destruct r, w. Qed.

(** What is reported is not empty. *)
Lemma reported_some r w revents :
  Z.land revents (Z.lor (evloop_mask r w) (Z.lor EPOLLERR EPOLLHUP)) ≠ 0 →
  ev_readable (evloop_event (mk_epoll (Z.land revents (Z.lor (evloop_mask r w) (Z.lor EPOLLERR EPOLLHUP))) tt)) ||
  ev_writable (evloop_event (mk_epoll (Z.land revents (Z.lor (evloop_mask r w) (Z.lor EPOLLERR EPOLLHUP))) tt)) = true.
Proof.
  set (x := Z.land revents _). unfold evloop_event. cbn [ev_readable ev_writable ep_events].
  change (Z.lor EPOLLIN (Z.lor EPOLLHUP EPOLLERR)) with 25. change EPOLLOUT with 4. intros Hx.
  destruct (Z.eqb_spec (Z.land x 25) 0) as [E1|], (Z.eqb_spec (Z.land x 4) 0) as [E2|]; try done.
  destruct Hx. assert (Z.land x 29 = x) as <-.
  - unfold x. rewrite <- Z.land_assoc. f_equal. by destruct r, w.
  - change 29 with (Z.lor 25 4). by rewrite Z.land_lor_distr_r, E1, E2.
Qed.

Lemma epoll_new_ok : epoll_wf (evloop_new (A := A)) ∧ ∀ fd, epoll_asked (evloop_new (A := A)) fd = None.
Proof. split; [by intros fd e | done]. Qed.

Lemma epoll_set_ok l fd r w ud :
  epoll_wf l →
  (evloop_set l fd r w ud).1 = 0 ∧ epoll_wf (evloop_set l fd r w ud).2 ∧
  ∀ f, epoll_asked (evloop_set l fd r w ud).2 f = if decide (f = fd) then Some (r, w, ud) else epoll_asked l f.
Proof.
  intros Hl. rewrite evloop_set_eq. cbn [fst snd]. split_and!; [done | |].
  - intros f e [[<- <-]|[_ He]]%lookup_insert_Some; [by exists r, w | by eapply Hl].
  - intros f. unfold epoll_asked. destruct (decide (f = fd)) as [->|Hf]; [rewrite lookup_insert_eq; by destruct r, w | by rewrite lookup_insert_ne].
Qed.

Lemma epoll_del_ok l fd :
  epoll_wf l →
  epoll_wf (evloop_del l fd).2 ∧
  ∀ f, epoll_asked (evloop_del l fd).2 f = if decide (f = fd) then None else epoll_asked l f.
Proof.
  intros Hl. rewrite evloop_del_eq. split.
  - intros f e [_ He]%lookup_delete_Some. by eapply Hl.
  - intros f. unfold epoll_asked. destruct (decide (f = fd)) as [->|Hf]; [by rewrite lookup_delete_eq | by rewrite lookup_delete_ne].
Qed.

Lemma epoll_wait_len l max rd : (length (evloop_wait l max rd) ≤ Nat.min max 1024)%nat.
Proof. unfold evloop_wait. rewrite length_fmap, length_take. lia. Qed.

Lemma epoll_wait_ok l max rd e :
  epoll_wf l → e ∈ evloop_wait l max rd →
  (∃ fd r w, epoll_asked l fd = Some (r, w, ev_udata e)) ∧
  (ev_writable e = true → ∃ fd r, epoll_asked l fd = Some (r, true, ev_udata e)) ∧
  ev_readable e || ev_writable e = true.
Proof.
  intros Hl He. unfold evloop_wait in He. apply list_elem_of_fmap in He as (x & -> & Hx).
  apply elem_of_take in Hx as (i & Hx & _). apply list_elem_of_lookup_2, list_elem_of_omap in Hx as ([fd rv] & _ & Hr). cbn in Hr.
  assert (∃ y, l !! fd = Some y ∧ ep_data y = ep_data x) as (y & Ey & Ed).
  { unfold reported in Hr. destruct (l !! fd) as [y|]; [| done]. exists y. split; [done |]. destruct (_ =? 0); [done |]. by injection Hr as <-. }
  destruct (Hl fd y Ey) as (r & w & Em). assert (epoll_asked l fd = Some (r, w, ep_data x)) as Ha.
  { unfold epoll_asked. rewrite Ey. cbn [mbind option_bind]. rewrite Em, Ed. by destruct (mask_bits r w) as [-> ->]. }
  split_and!; [by exists fd, r, w | |].
  - intros Hw. exists fd, r. change (ev_udata (evloop_event x)) with (ep_data x). rewrite Ha. destruct w; [done |].
    rewrite (reported_out l fd rv x y Hr Ey) in Hw; [done |]. rewrite Em. apply mask_bits.
  - unfold reported in Hr. rewrite Ey, Em in Hr.
    destruct (Z.eqb_spec (Z.land rv (Z.lor (evloop_mask r w) (Z.lor EPOLLERR EPOLLHUP))) 0) as [|Hn]; [done |].
    injection Hr as <-. by apply (reported_some r w rv).
Qed.

#[export] Instance epoll_poller : Poller (evloop A) A (list (Z * Z)) := {|
  pl_wf := epoll_wf;
  pl_new := evloop_new;
  pl_set := evloop_set;
  pl_del l fd := (evloop_del l fd).2;
  pl_wait := evloop_wait;
  pl_asked := epoll_asked;
  pl_new_ok := epoll_new_ok;
  pl_set_ok := epoll_set_ok;
  pl_del_ok := epoll_del_ok;
  pl_wait_len := epoll_wait_len;
  pl_wait_ok := epoll_wait_ok;
|}.
End Epoll.

(** *** kqueue *)

Section KqueuePoller.
Context {A : Type} `{EqDecision A} (null : A).
Implicit Types (l : kqueue A).

Definition kq_asked l (fd : Z) : option (bool * bool * A) :=
  r ← l !! (fd, EVFILT_READ); w ← l !! (fd, EVFILT_WRITE); Some (kn_enabled r, kn_enabled w, kn_udata r).

(** Only the two filters are ever added. *)
Definition kq_wf l : Prop := paired l ∧ ∀ fd f kn, l !! (fd, f) = Some kn → f = EVFILT_READ ∨ f = EVFILT_WRITE.

Lemma kq_new_ok : kq_wf kq_new ∧ ∀ fd, kq_asked kq_new fd = None.
Proof. split; [split; [apply paired_new |] |]; done. Qed.

Lemma kq_set_ok l fd r w ud :
  kq_wf l →
  (kq_set l fd r w ud).1 = 0 ∧ kq_wf (kq_set l fd r w ud).2 ∧
  ∀ f, kq_asked (kq_set l fd r w ud).2 f = if decide (f = fd) then Some (r, w, ud) else kq_asked l f.
Proof.
  intros [Hp Hf]. split; [by rewrite kq_set_eq |]. split; [split; [by apply paired_set |] |]; rewrite kq_set_eq; cbn [snd].
  - intros fd' f kn [[[= <- <-] _]|[_ [[[= <- <-] _]|[_ Hk]]%lookup_insert_Some]]%lookup_insert_Some; [by right | by left | by eapply Hf].
  - intros f. unfold kq_asked. destruct (decide (f = fd)) as [->|Hn].
    + rewrite !lookup_insert_eq, (lookup_insert_ne _ (fd, EVFILT_WRITE) (fd, EVFILT_READ)) by done. by rewrite lookup_insert_eq.
    + by rewrite !lookup_insert_ne by congruence.
Qed.

Lemma kq_del_ok l fd :
  kq_wf l →
  kq_wf (kq_del l fd null).2 ∧
  ∀ f, kq_asked (kq_del l fd null).2 f = if decide (f = fd) then None else kq_asked l f.
Proof.
  intros [Hp Hf]. split; [split; [by apply paired_del |] |]; rewrite kq_del_eq by done.
  - intros fd' f kn [_ [_ Hk]%lookup_delete_Some]%lookup_delete_Some. by eapply Hf.
  - intros f. unfold kq_asked. destruct (decide (f = fd)) as [->|Hn].
    + by rewrite (lookup_delete_ne _ (fd, EVFILT_WRITE) (fd, EVFILT_READ)), (lookup_delete_eq _ (fd, EVFILT_READ)).
    + by rewrite !lookup_delete_ne by congruence.
Qed.

(** An event comes from kernel events about its [udata]. *)
Lemma kq_wait_about l max rd e :
  e ∈ kq_wait l max rd →
  due (ev_udata e) (take (Nat.min max 1024) (kq_fired l rd)) = Some (ev_readable e, ev_writable e).
Proof. intros He. destruct (coalesce_spec (take (Nat.min max 1024) (kq_fired l rd))) as [Hn <-]. by apply look_elem. Qed.

Lemma kq_fired_asked l rd k :
  kq_wf l → k ∈ kq_fired l rd →
  (∃ r w, kq_asked l (ke_ident k) = Some (r, w, ke_udata k) ∧ (kq_writable k = true → w = true)) ∧
  kq_readable k || kq_writable k = true.
Proof.
  intros [Hp Hf] Hk. apply list_elem_of_omap in Hk as ([[fd f] fl] & _ & E). cbn in E.
  destruct (l !! (fd, f)) as [kn|] eqn:El; cbn in E; [| done]. destruct (kn_enabled kn) eqn:Ee; [| done]. injection E as <-.
  cbn [ke_ident ke_udata]. specialize (Hp fd). unfold kq_asked, kq_readable, kq_writable. cbn [ke_filter ke_flags].
  destruct (Hf fd f kn El) as [-> | ->]; rewrite El in Hp |- *; cbn [mbind option_bind].
  - destruct (l !! (fd, EVFILT_WRITE)) as [kw|]; [| done]. split; [by exists (kn_enabled kn), (kn_enabled kw) | done].
  - destruct (l !! (fd, EVFILT_READ)) as [kr|]; [| done]. split; [| by rewrite orb_true_r].
    exists (kn_enabled kr), (kn_enabled kn). cbn [mbind option_bind]. by rewrite Hp.
Qed.

Lemma kq_wait_ok l max rd e :
  kq_wf l → e ∈ kq_wait l max rd →
  (∃ fd r w, kq_asked l fd = Some (r, w, ev_udata e)) ∧
  (ev_writable e = true → ∃ fd r, kq_asked l fd = Some (r, true, ev_udata e)) ∧
  ev_readable e || ev_writable e = true.
Proof.
  intros Hl Hd%kq_wait_about. unfold due in Hd. set (evs := take _ _) in *.
  assert (∀ k, k ∈ about (ev_udata e) evs → ke_udata k = ev_udata e ∧ k ∈ kq_fired l rd) as Hin.
  { intros k [E Hk]%list_elem_of_filter. split; [done |]. apply elem_of_take in Hk as (i & Hk & _). by eapply list_elem_of_lookup_2. }
  destruct (about (ev_udata e) evs) as [|k ks] eqn:Ea; [done |]. injection Hd as Hr Hw.
  destruct (Hin k) as [Ek Hk]; [by left |]. destruct (kq_fired_asked _ _ _ Hl Hk) as [(r & w & Ek' & _) Hrw].
  split_and!.
  - exists (ke_ident k), r, w. by rewrite <- Ek.
  - rewrite <- Hw. change (existsb kq_writable (k :: ks) = true → ∃ fd r, kq_asked l fd = Some (r, true, ev_udata e)). intros (k' & Hk' & Hw')%existsb_exists. apply list_elem_of_In in Hk'. destruct (Hin k' Hk') as [E' F'].
    destruct (kq_fired_asked _ _ _ Hl F') as [(r' & w' & A' & W') _]. exists (ke_ident k'), r'. by rewrite A', (W' Hw'), E'.
  - rewrite <- Hr, <- Hw. cbn. destruct (kq_readable k), (kq_writable k); try done; cbn. by rewrite orb_true_r.
Qed.

Lemma merge_len (out : list (ev_event A)) (ud : A) r w : (length (merge out ud r w) ≤ S (length out))%nat.
Proof. induction out as [|o out IH]; cbn; [done |]. destruct (decide _); cbn; lia. Qed.

Lemma kq_wait_len l max rd : (length (kq_wait l max rd) ≤ Nat.min max 1024)%nat.
Proof.
  assert (∀ (evs : list (kevent A)) (out : list (ev_event A)), (length (coalesce out evs) ≤ length out + length evs)%nat) as Hc.
  { induction evs as [|e evs IH]; intros out; cbn; [lia |]. etrans; [apply IH |]. pose proof (merge_len out (ke_udata e) (kq_readable e) (kq_writable e)). lia. }
  unfold kq_wait. etrans; [apply Hc |]. rewrite length_take. cbn. lia.
Qed.

#[export] Instance kqueue_poller : Poller (kqueue A) A (list (Z * Z * Z)) := {|
  pl_wf := kq_wf;
  pl_new := kq_new;
  pl_set := kq_set;
  pl_del l fd := (kq_del l fd null).2;
  pl_wait := kq_wait;
  pl_asked := kq_asked;
  pl_new_ok := kq_new_ok;
  pl_set_ok := kq_set_ok;
  pl_del_ok := kq_del_ok;
  pl_wait_len := kq_wait_len;
  pl_wait_ok := kq_wait_ok;
|}.
End KqueuePoller.

(** ** Against the interface *)

Inductive ev_op (A : Type) := EV_SET_OP (fd : Z) (r w : bool) (ud : A) | EV_DEL_OP (fd : Z).
#[global] Arguments EV_SET_OP {A} _ _ _ _.
#[global] Arguments EV_DEL_OP {A} _.

(** The interest there should be. *)
Definition ev_model {A} (m : gmap Z (bool * bool * A)) (o : ev_op A) : gmap Z (bool * bool * A) :=
  match o with EV_SET_OP fd r w ud => <[fd := (r, w, ud)]> m | EV_DEL_OP fd => delete fd m end.

Section Client.
Context {L A R : Type} `{Poller L A R}.

Definition pl_op (l : L) (o : ev_op A) : L :=
  match o with EV_SET_OP fd r w ud => (pl_set l fd r w ud).2 | EV_DEL_OP fd => pl_del l fd end.

Definition pl_run (ops : list (ev_op A)) : L := foldl pl_op pl_new ops.

(** What [evloop_wait] may report, given the interest [m]. *)
Definition allowed (m : gmap Z (bool * bool * A)) (e : ev_event A) : Prop :=
  (∃ fd r w, m !! fd = Some (r, w, ev_udata e)) ∧
  (ev_writable e = true → ∃ fd r, m !! fd = Some (r, true, ev_udata e)) ∧
  ev_readable e || ev_writable e = true.

(** [l] holds exactly the interest [m]. *)
Definition tracks (m : gmap Z (bool * bool * A)) (l : L) : Prop := pl_wf l ∧ ∀ fd, pl_asked l fd = m !! fd.

Lemma tracks_op m l o : tracks m l → tracks (ev_model m o) (pl_op l o).
Proof.
  intros [Hw Ha]. destruct o as [fd r w ud|fd]; cbn.
  - destruct (pl_set_ok l fd r w ud Hw) as (_ & Hw' & Ha'). split; [done |]. intros f. rewrite Ha', Ha.
    destruct (decide (f = fd)) as [->|]; [by rewrite lookup_insert_eq | by rewrite lookup_insert_ne].
  - destruct (pl_del_ok l fd Hw) as (Hw' & Ha'). split; [done |]. intros f. rewrite Ha', Ha.
    destruct (decide (f = fd)) as [->|]; [by rewrite lookup_delete_eq | by rewrite lookup_delete_ne].
Qed.

Lemma pl_run_tracks ops : tracks (foldl ev_model ∅ ops) (pl_run ops).
Proof.
  unfold pl_run. assert (tracks (∅ : gmap Z (bool * bool * A)) pl_new) as H0 by (destruct pl_new_ok as [Hw Ha]; split; [done |]; intros fd; by rewrite Ha).
  revert H0. generalize (∅ : gmap Z (bool * bool * A)), (pl_new (Poller := H)). induction ops as [|o ops IH]; intros m l Hl; [done |].
  cbn. by apply IH, tracks_op.
Qed.

Lemma tracks_wait m l max rd e : tracks m l → e ∈ pl_wait l max rd → allowed m e.
Proof.
  intros [Hw Ha] He. destruct (pl_wait_ok l max rd e Hw He) as ((fd & r & w & E) & H2 & H3). split_and!; [| | done].
  - exists fd, r, w. by rewrite <- Ha.
  - intros (fd' & r' & E')%H2. exists fd', r'. by rewrite <- Ha.
Qed.
End Client.

(** C24: Both backends implement the same loop.  After any registrations, changes
    and removals, epoll and kqueue hold exactly the interest asked for, under the
    [udata] given; whatever their kernels then find ready, an event is about a
    registered descriptor, writable only where that was asked for, and never
    empty; kqueue's two filters of a descriptor come as one event. *)
Theorem backends_agree {A} `{EqDecision A} (null : A) (ops : list (ev_op A)) max rd rd' :
  let m := foldl ev_model ∅ ops in
  let le := pl_run (H := epoll_poller) ops in
  let lk := pl_run (H := kqueue_poller null) ops in
  (∀ fd, epoll_asked le fd = m !! fd ∧ kq_asked lk fd = m !! fd) ∧
  (∀ e, e ∈ evloop_wait le max rd ∨ e ∈ kq_wait lk max rd' → allowed m e) ∧
  NoDup (ev_udata <$> kq_wait lk max rd').
Proof.
  cbv zeta. pose proof (pl_run_tracks (H := epoll_poller) ops) as He.
  pose proof (pl_run_tracks (H := kqueue_poller null) ops) as Hk. split_and!.
  - intros fd. split; [apply He | apply Hk].
  - intros e [Hi|Hi]; [exact (tracks_wait _ _ max rd e He Hi) | exact (tracks_wait _ _ max rd' e Hk Hi)].
  - apply coalesce_spec.
Qed.
