(* ===== verification/Relay.v ===== *)
(** The relay of the edge, common/relay.c: one tunnel with its session, and one
    socket per stream, tied together over the readiness loop of EvLoop.

    A [conn] is addressed by its index in the slab [r_conns], as in the source;
    [r_dangling] records that a failed second realloc left the slab's pointer
    freed.  [r_freelist] has its top first.  [R] is the monad of Host over the
    whole [relay].  The operating system is part of the state: [r_writes] and
    [r_dials] are the answers of the coming writes to connection sockets and of
    [net_dial], [r_log] what was done to sockets.  Logging to stderr is not
    modelled. *)

From stdpp Require Import base list numbers gmap.
From Stdlib Require Import ZArith Lia.
From S2P Require Import Prelude Frame OutBuf EventQueue Probe StreamTable Session Auth Host Fifo EvLoop.

(** ** State *)

Record conn := mk_conn {
  cn_used : bool;
  cn_sock : Z;
  cn_sid : Z;
  cn_connecting : bool;
  cn_sock_eof : bool;
  cn_stream_fin : bool;
  cn_send_blocked : bool;
  cn_gone : bool;
  cn_cur_r : Z;
  cn_cur_w : Z;
  cn_in_dirty : bool;
  cn_s2m : buf_t;
  cn_m2s : buf_t;
}.

Record relay_opts := mk_relay_opts {
  ro_role : mux_role;
  ro_token : view;
  ro_peer_id : view;
  ro_weight : Z;
  ro_init_window : Z;
  ro_session_window : Z;
  ro_heartbeat_ms : Z;
  ro_public_listen_fd : Z;
  ro_max_streams : Z;
  ro_backend_host : view;
}.

(** The [udata] of a descriptor: the two sentinels, or a connection's index. *)
Inductive udata := OWN_TUNNEL | OWN_LISTEN | UD_CONN (idx : Z).

(** What happens at the sockets of connections. *)
Inductive effect :=
  | SOCK_WROTE (fd : Z) (bs : bytes)
  | SOCK_FAILED (fd : Z)
  | SOCK_SHUT_WR (fd : Z)
  | SOCK_CLOSED (fd : Z)
  | WAITED (timeout : Z).

Record relay := mk_relay {
  r_tunnel_fd : Z;
  r_mux : mux_session;
  r_opt : relay_opts;
  r_loop : evloop udata;
  r_nonce : bytes;
  r_my_proof : bytes;
  r_authed : bool;
  r_tun_r : Z;
  r_tun_w : Z;
  r_conns : list conn;
  r_dangling : bool;
  r_freelist : list Z;
  r_sidmap : list Z;
  r_sidmap_cap : Z;
  r_dirty : list Z;
  r_dirty_cap : Z;
  r_nactive : Z;
  r_listen_paused : bool;
  r_stop : bool;
  r_g_stop : bool;
  r_recv : bytes;
  r_heap : heap;
  r_writes : list write_res;
  r_dials : list Z;
  r_log : list effect;
}.

Definition eta_conn (c : conn) : conn :=
  mk_conn (cn_used c) (cn_sock c) (cn_sid c) (cn_connecting c) (cn_sock_eof c) (cn_stream_fin c)
    (cn_send_blocked c) (cn_gone c) (cn_cur_r c) (cn_cur_w c) (cn_in_dirty c) (cn_s2m c) (cn_m2s c).

Definition eta_relay (r : relay) : relay :=
  mk_relay (r_tunnel_fd r) (r_mux r) (r_opt r) (r_loop r) (r_nonce r) (r_my_proof r) (r_authed r)
    (r_tun_r r) (r_tun_w r) (r_conns r) (r_dangling r) (r_freelist r) (r_sidmap r) (r_sidmap_cap r)
    (r_dirty r) (r_dirty_cap r) (r_nactive r) (r_listen_paused r) (r_stop r) (r_g_stop r) (r_recv r)
    (r_heap r) (r_writes r) (r_dials r) (r_log r).

#[export] Instance upd_cn_used : Update cn_used.
Proof. derive_update eta_conn cn_used. Defined.
#[export] Instance upd_cn_sock : Update cn_sock.
Proof. derive_update eta_conn cn_sock. Defined.
#[export] Instance upd_cn_sid : Update cn_sid.
Proof. derive_update eta_conn cn_sid. Defined.
#[export] Instance upd_cn_connecting : Update cn_connecting.
Proof. derive_update eta_conn cn_connecting. Defined.
#[export] Instance upd_cn_sock_eof : Update cn_sock_eof.
Proof. derive_update eta_conn cn_sock_eof. Defined.
#[export] Instance upd_cn_stream_fin : Update cn_stream_fin.
Proof. derive_update eta_conn cn_stream_fin. Defined.
#[export] Instance upd_cn_send_blocked : Update cn_send_blocked.
Proof. derive_update eta_conn cn_send_blocked. Defined.
#[export] Instance upd_cn_gone : Update cn_gone.
Proof. derive_update eta_conn cn_gone. Defined.
#[export] Instance upd_cn_cur_r : Update cn_cur_r.
Proof. derive_update eta_conn cn_cur_r. Defined.
#[export] Instance upd_cn_cur_w : Update cn_cur_w.
Proof. derive_update eta_conn cn_cur_w. Defined.
#[export] Instance upd_cn_in_dirty : Update cn_in_dirty.
Proof. derive_update eta_conn cn_in_dirty. Defined.
#[export] Instance upd_cn_s2m : Update cn_s2m.
Proof. derive_update eta_conn cn_s2m. Defined.
#[export] Instance upd_cn_m2s : Update cn_m2s.
Proof. derive_update eta_conn cn_m2s. Defined.
#[export] Instance upd_r_mux : Update r_mux.
Proof. derive_update eta_relay r_mux. Defined.
#[export] Instance upd_r_loop : Update r_loop.
Proof. derive_update eta_relay r_loop. Defined.
#[export] Instance upd_r_authed : Update r_authed.
Proof. derive_update eta_relay r_authed. Defined.
#[export] Instance upd_r_tun_r : Update r_tun_r.
Proof. derive_update eta_relay r_tun_r. Defined.
#[export] Instance upd_r_tun_w : Update r_tun_w.
Proof. derive_update eta_relay r_tun_w. Defined.
#[export] Instance upd_r_conns : Update r_conns.
Proof. derive_update eta_relay r_conns. Defined.
#[export] Instance upd_r_dangling : Update r_dangling.
Proof. derive_update eta_relay r_dangling. Defined.
#[export] Instance upd_r_freelist : Update r_freelist.
Proof. derive_update eta_relay r_freelist. Defined.
#[export] Instance upd_r_sidmap : Update r_sidmap.
Proof. derive_update eta_relay r_sidmap. Defined.
#[export] Instance upd_r_sidmap_cap : Update r_sidmap_cap.
Proof. derive_update eta_relay r_sidmap_cap. Defined.
#[export] Instance upd_r_dirty : Update r_dirty.
Proof. derive_update eta_relay r_dirty. Defined.
#[export] Instance upd_r_dirty_cap : Update r_dirty_cap.
Proof. derive_update eta_relay r_dirty_cap. Defined.
#[export] Instance upd_r_nactive : Update r_nactive.
Proof. derive_update eta_relay r_nactive. Defined.
#[export] Instance upd_r_listen_paused : Update r_listen_paused.
Proof. derive_update eta_relay r_listen_paused. Defined.
#[export] Instance upd_r_stop : Update r_stop.
Proof. derive_update eta_relay r_stop. Defined.
#[export] Instance upd_r_g_stop : Update r_g_stop.
Proof. derive_update eta_relay r_g_stop. Defined.
#[export] Instance upd_r_recv : Update r_recv.
Proof. derive_update eta_relay r_recv. Defined.
#[export] Instance upd_r_heap : Update r_heap.
Proof. derive_update eta_relay r_heap. Defined.
#[export] Instance upd_r_writes : Update r_writes.
Proof. derive_update eta_relay r_writes. Defined.
#[export] Instance upd_r_dials : Update r_dials.
Proof. derive_update eta_relay r_dials. Defined.
#[export] Instance upd_r_log : Update r_log.
Proof. derive_update eta_relay r_log. Defined.

(** ** Accessors *)

Abbreviation R := (ST relay).

(** [r->conns[idx]] *)
Definition conn_at (idx : Z) : R conn := fun r =>
  if r_dangling r || (idx <? 0) then None else
  match r_conns r !! Z.to_nat idx with Some c => Some (c, r) | None => None end.
Definition conn_set (idx : Z) (c : conn) : R unit :=
  modify (fun r => r <| r_conns ::= <[Z.to_nat idx := c]> |>).
Definition conn_upd (idx : Z) (f : conn -> conn) : R unit := c ← conn_at idx; conn_set idx (f c).

(** A mux API call on the relay's session. *)
Definition mux {A} (f : mux_session -> A * mux_session) : R A := fun r =>
  let '(a, s) := f (r_mux r) in Some (a, r <| r_mux := s |>).

Definition log_effect (e : effect) : R unit := modify (fun r => r <| r_log ::= fun l => l ++ [e] |>).

(** One malloc or realloc. *)
Definition malloc : R bool := fun r =>
  let '(ok, h) := alloc (r_heap r) in Some (ok, r <| r_heap := h |>).

Definition loop_set (fd : Z) (wr ww : bool) (ud : udata) : R unit :=
  modify (fun r => r <| r_loop ::= fun l => (evloop_set l fd wr ww ud).2 |>).
Definition loop_del (fd : Z) : R unit :=
  modify (fun r => r <| r_loop ::= fun l => (evloop_del l fd).2 |>).

(** The descriptor the kernel gives to a new socket: one that is not open. *)
Definition fd_free (r : relay) (fd : Z) : bool :=
  (0 <=? fd) && bool_decide (r_loop r !! fd = None) && negb (fd =? r_tunnel_fd r)
  && negb (fd =? ro_public_listen_fd (r_opt r)).
Definition new_fd (r : relay) (fd : Z) : Z :=
  if fd_free r fd then fd
  else foldr Z.max 0 (r_tunnel_fd r :: ro_public_listen_fd (r_opt r) :: (map_to_list (r_loop r)).*1) + 1.

(** ** Byte buffers *)

Definition rl_buf_append (h : heap) (b : buf_t) (p : bytes) (n : Z) : Z * heap * buf_t :=
  if n =? 0 then (0, h, b) else
  let b := if bf_head b >? 0 then buf_shift b else b in
  let '(ok, h, b) := if bf_len b + n >? bf_cap b then buf_grow h b n else (true, h, b) in
  if negb ok then (-1, h, b) else
  (0, h, mk_buf (mem_write (bf_data b) (bf_len b) (ztake n p)) (bf_cap b) (bf_head b) (bf_len b + n)).

Definition buf_consume (b : buf_t) (n : Z) : buf_t :=
  let b := mk_buf (bf_data b) (bf_cap b) (bf_head b + n) (bf_len b) in
  if bf_head b >=? bf_len b then mk_buf (bf_data b) (bf_cap b) 0 0 else b.

Definition set_s2m (b : buf_t) (c : conn) : conn := c <| cn_s2m := b |>.
Definition set_m2s (b : buf_t) (c : conn) : conn := c <| cn_m2s := b |>.

(** [buf_append] on a buffer of a connection; the callers ignore the result. *)
Definition conn_append (idx : Z) (get : conn -> buf_t) (set : buf_t -> conn -> conn) (p : bytes) (n : Z)
  : R unit :=
  c ← conn_at idx;
  h ← gets r_heap;
  let '(_, h, b) := rl_buf_append h (get c) p n in
  modify (fun r => r <| r_heap := h |>);; conn_set idx (set b c).

(** ** The slab *)

Definition conn_zero : conn :=
  mk_conn false 0 0 false false false false false 0 0 false buf_zero buf_zero.

(** A slot handed out: zeroed, no socket, no interest registered. *)
Definition conn_fresh : conn := conn_zero <| cn_used := true |> <| cn_sock := -1 |>
  <| cn_cur_r := -1 |> <| cn_cur_w := -1 |>.

(** The growth of [conn_alloc]; [false] is its early return. *)
Definition conns_grow : R bool :=
  r ← gets id;
  let cap := zlen (r_conns r) in
  let nc := if negb (cap =? 0) then cap * 2 else 64 in
  ok ← malloc;
  if negb ok then mret false else
  ok ← malloc;
  if negb ok then modify (fun r => r <| r_dangling := negb (cap =? 0) |>);; mret false else
  modify (fun r => r <| r_conns ::= fun l => l ++ replicate (Z.to_nat (nc - cap)) conn_zero |>
                     <| r_freelist ::= fun l => seqZ cap (nc - cap) ++ l |>);;
  mret true.

Definition conn_alloc : R Z :=
  r ← gets id;
  ok ← (if bool_decide (r_freelist r = []) then conns_grow else mret true);
  if negb ok then mret (-1) else
  r ← gets id;
  match r_freelist r with
  | [] => undef
  | idx :: fl =>
      modify (fun r => r <| r_freelist := fl |>);;
      conn_at idx;;
      conn_set idx conn_fresh;;
      mret idx
  end.

Definition conn_release (idx : Z) : R unit :=
  conn_upd idx (fun c => c <| cn_used := false |>);;
  modify (fun r => r <| r_freelist ::= cons idx |>).

(** ** The sid map: index + 1 of a connection per slot, 0 when empty *)

(** Table sizes fit size_t: [log2 x] doublings reach [x]. *)
Definition pow2_ceil (x : Z) : Z := dbl_until (Z.to_nat (Z.log2_up x)) 16 x.
Definition sid_mix (sid mask : Z) : Z := Z.land (mix sid) mask.

(** [while (nm[j]) j = (j + 1) & (nc - 1);]: [None] when it never stops. *)
Fixpoint sid_probe (t : list Z) (mask i : Z) (n : nat) : option Z :=
  match n with
  | O => None
  | S n =>
      match t !! Z.to_nat i with
      | None => None
      | Some v => if v =? 0 then Some i else sid_probe t mask (Z.land (i + 1) mask) n
      end
  end.

(** Store [v] (index + 1 of a connection of stream [sid]) at the first empty slot. *)
Definition sid_store (t : list Z) (cap sid v : Z) : option (list Z) :=
  i ← sid_probe t (cap - 1) (sid_mix sid (cap - 1)) (Z.to_nat cap);
  Some (<[Z.to_nat i := v]> t).

Definition sid_of (conns : list conn) (v : Z) : option Z := cn_sid <$> conns !! Z.to_nat (v - 1).

(** One iteration of the copy loop of [sidmap_set]. *)
Definition sid_rehash (conns : list conn) (nc : Z) (nm : option (list Z)) (v : Z) : option (list Z) :=
  nm ← nm;
  if v =? 0 then Some nm else sid ← sid_of conns v; sid_store nm nc sid v.

(** The growth of [sidmap_set]; [false] is its early return. *)
Definition sidmap_grow : R bool :=
  r ← gets id;
  let nc := pow2_ceil (if negb (r_sidmap_cap r =? 0) then r_sidmap_cap r * 2 else 64) in
  ok ← malloc;
  if negb ok then mret false else
  match foldl (sid_rehash (r_conns r) nc) (Some (replicate (Z.to_nat nc) 0)) (r_sidmap r) with
  | None => undef
  | Some nm => modify (fun r => r <| r_sidmap := nm |> <| r_sidmap_cap := nc |>);; mret true
  end.

Definition sidmap_set (sid idx : Z) : R unit :=
  r ← gets id;
  ok ← (if (r_sidmap_cap r =? 0) || ((idx + 1) * 4 >=? r_sidmap_cap r * 3) then sidmap_grow else mret true);
  if negb ok then mret tt else
  r ← gets id;
  match sid_store (r_sidmap r) (r_sidmap_cap r) sid (idx + 1) with
  | None => undef
  | Some t => modify (fun r => r <| r_sidmap := t |>)
  end.

Fixpoint sid_lookup (conns : list conn) (t : list Z) (mask sid i : Z) (n : nat) : option Z :=
  match n with
  | O => Some (-1)
  | S n =>
      v ← t !! Z.to_nat i;
      if v =? 0 then Some (-1) else
      c ← conns !! Z.to_nat (v - 1);
      if cn_used c && (cn_sid c =? sid) then Some (v - 1)
      else sid_lookup conns t mask sid (Z.land (i + 1) mask) n
  end.

Definition sidmap_get (sid : Z) : R Z := fun r =>
  if r_sidmap_cap r =? 0 then Some (-1, r) else
  if r_dangling r then None else
  let mask := r_sidmap_cap r - 1 in
  (fun v => (v, r)) <$> sid_lookup (r_conns r) (r_sidmap r) mask sid (sid_mix sid mask) (Z.to_nat (r_sidmap_cap r)).

(** The search of [sidmap_del]: the slot of [sid], or [None] at an empty slot;
    past the last probe the source goes on from the slot reached. *)
Fixpoint sid_find (conns : list conn) (t : list Z) (mask sid i : Z) (n : nat)
  : option (option (Z * bool)) :=
  match n with
  | O => Some (Some (i, false))
  | S n =>
      v ← t !! Z.to_nat i;
      if v =? 0 then Some None else
      c ← conns !! Z.to_nat (v - 1);
      if cn_sid c =? sid then Some (Some (i, true))
      else sid_find conns t mask sid (Z.land (i + 1) mask) n
  end.

(** The loop of [sidmap_del] that puts the rest of the cluster back. *)
Fixpoint sid_reput (conns : list conn) (t : list Z) (cap j : Z) (n : nat) : option (list Z) :=
  match n with
  | O => None
  | S n =>
      v ← t !! Z.to_nat j;
      if v =? 0 then Some t else
      sid ← sid_of conns v;
      t ← sid_store (<[Z.to_nat j := 0]> t) cap sid v;
      sid_reput conns t cap (Z.land (j + 1) (cap - 1)) n
  end.

Definition sid_delete (conns : list conn) (t : list Z) (cap sid : Z) : option (list Z) :=
  if cap =? 0 then Some t else
  let mask := cap - 1 in
  o ← sid_find conns t mask sid (sid_mix sid mask) (Z.to_nat cap);
  match o with
  | None => Some t
  | Some (i, found) =>
      let t := if found : bool then <[Z.to_nat i := 0]> t else t in
      sid_reput conns t cap (Z.land (i + 1) mask) (S (Z.to_nat cap))
  end.

Definition sidmap_del (sid : Z) : R unit := fun r =>
  if r_dangling r then None else
  match sid_delete (r_conns r) (r_sidmap r) (r_sidmap_cap r) sid with
  | None => None
  | Some t => Some (tt, r <| r_sidmap := t |>)
  end.

(** ** Interest *)

Definition conn_desired (c : conn) : bool * bool :=
  if cn_connecting c then (false, true) else
  (negb (cn_sock_eof c) && (buf_avail (cn_s2m c) =? 0) && negb (cn_send_blocked c),
   buf_avail (cn_m2s c) >? 0).

Definition conn_apply_interest (idx : Z) : R unit :=
  c ← conn_at idx;
  if negb (cn_used c) || (cn_sock c <? 0) then mret tt else
  let '(wr, ww) := conn_desired c in
  if (b2z wr =? cn_cur_r c) && (b2z ww =? cn_cur_w c) then mret tt else
  conn_set idx (c <| cn_cur_r := b2z wr |> <| cn_cur_w := b2z ww |>);;
  loop_set (cn_sock c) wr ww (UD_CONN idx).

(** The unchecked realloc: a failure is a store through NULL. *)
Definition mark_dirty (idx : Z) : R unit :=
  c ← conn_at idx;
  if cn_in_dirty c then mret tt else
  conn_set idx (c <| cn_in_dirty := true |>);;
  r ← gets id;
  ok ← (if zlen (r_dirty r) >=? r_dirty_cap r then
          ok ← malloc;
          modify (fun r => r <| r_dirty_cap ::= fun n => if negb (n =? 0) then n * 2 else 64 |>);; mret ok
        else mret true);
  if negb ok then undef else modify (fun r => r <| r_dirty ::= fun l => l ++ [idx] |>).

Fixpoint flush_loop (idxs : list Z) : R unit :=
  match idxs with
  | [] => mret tt
  | idx :: idxs =>
      c ← conn_at idx;
      when_ (cn_used c && cn_in_dirty c)
        (conn_set idx (c <| cn_in_dirty := false |>);; conn_apply_interest idx);;
      flush_loop idxs
  end.

Definition flush_dirty : R unit :=
  idxs ← gets r_dirty;
  flush_loop idxs;;
  modify (fun r => r <| r_dirty := [] |>).

Definition update_tunnel_interest : R unit :=
  r ← gets id;
  let out_len := mux_out_pending (r_mux r) in
  let wr := out_len <? 4 * 1024 * 1024 in
  let ww := out_len >? 0 in
  if (b2z wr =? r_tun_r r) && (b2z ww =? r_tun_w r) then mret tt else
  modify (fun r => r <| r_tun_r := b2z wr |> <| r_tun_w := b2z ww |>);;
  loop_set (r_tunnel_fd r) wr ww OWN_TUNNEL.

(** ** Teardown *)

(** The edge's half of [conn_destroy]: a public slot is free again. *)
Definition slot_freed : R unit :=
  r ← gets id;
  let lfd := ro_public_listen_fd (r_opt r) in
  when_ (lfd >=? 0)
    (modify (fun r => r <| r_nactive ::= fun n => if n >? 0 then n - 1 else n |>);;
     r ← gets id;
     let max := ro_max_streams (r_opt r) in
     when_ (r_listen_paused r && ((max <=? 0) || (r_nactive r <? max)))
       (loop_set lfd true false OWN_LISTEN;;
        modify (fun r => r <| r_listen_paused := false |>))).

Definition conn_destroy (idx : Z) : R unit :=
  c ← conn_at idx;
  if negb (cn_used c) then mret tt else
  when_ (cn_sock c >=? 0) (loop_del (cn_sock c);; log_effect (SOCK_CLOSED (cn_sock c)));;
  sidmap_del (cn_sid c);;
  conn_upd idx (fun c => c <| cn_s2m := buf_zero |> <| cn_m2s := buf_zero |> <| cn_in_dirty := false |>);;
  conn_release idx;;
  slot_freed.

Definition conn_maybe_finish (idx : Z) : R unit :=
  c ← conn_at idx;
  if cn_gone c then conn_destroy idx else
  when_ (cn_sock_eof c && cn_stream_fin c && (buf_avail (cn_m2s c) =? 0) && (buf_avail (cn_s2m c) =? 0))
    (conn_destroy idx).

(** [c->gone = 1; conn_destroy(r, idx);] *)
Definition conn_abandon (idx : Z) : R unit :=
  conn_upd idx (fun c => c <| cn_gone := true |>);; conn_destroy idx.

(** ** Construction *)

Definition relay_config (k : stack) (rnd : bytes) (o : relay_opts) : mux_config * bytes * bytes :=
  let hb := if negb (ro_heartbeat_ms o =? 0) then ro_heartbeat_ms o else 15000 in
  let cfg := mk_config (ro_init_window o) (ro_session_window o) 0 hb 0 (ro_weight o) 0
               (ro_peer_id o) (zlen (vbytes (ro_peer_id o))) in
  match ro_token o with
  | None => (cfg None 0 None 0, [], [])
  | Some token =>
      let proof := mux_auth_proof (sk_key k) (sk_ctx k) (sk_msg k) token (zlen token) rnd 16 in
      (cfg (Some proof) SHA256_DIGEST_LEN (Some rnd) 16, rnd, proof)
  end.

(** [rnd] is what [os_random] gives, [h] the allocator of the relay, [hs] that
    of its session, [epfd] the result of creating the event loop. *)
Definition relay_new (k : stack) (rnd : bytes) (h hs : heap) (epfd tunnel_fd : Z) (o : relay_opts) : option relay :=
  let '(ok, h) := alloc h in
  if negb ok then None else
  let '(cfg, nonce, proof) := relay_config k rnd o in
  s ← mux_session_new hs cfg (ro_role o);
  if epfd <? 0 then None else
  Some (mk_relay tunnel_fd s o evloop_new nonce proof (bool_decide (ro_token o = None)) (-1) (-1)
          [] false [] [] 0 [] 0 0 false false false [] h [] [] []).

Fixpoint destroy_all (idxs : list Z) : R unit :=
  match idxs with
  | [] => mret tt
  | idx :: idxs => c ← conn_at idx; when_ (cn_used c) (conn_destroy idx);; destroy_all idxs
  end.

(** The connections' part of [relay_free]. *)
Definition relay_free : R unit := r ← gets id; destroy_all (seqZ 0 (zlen (r_conns r))).

(** ** Data movement *)

(** [write(fd, b)]: at most all of [b]; an exhausted script would block. *)
Definition sock_write (fd : Z) (b : bytes) : R write_res := fun r =>
  match r_writes r with
  | [] => Some (WRITE_AGAIN, r)
  | WROTE n :: ws =>
      let n := Z.min n (zlen b) in
      let r := r <| r_writes := ws |> in
      if n >? 0 then Some (WROTE n, r <| r_log ::= fun l => l ++ [SOCK_WROTE fd (ztake n b)] |>)
      else Some (WROTE 0, r <| r_log ::= fun l => l ++ [SOCK_FAILED fd] |>)
  | WRITE_AGAIN :: ws => Some (WRITE_AGAIN, r <| r_writes := ws |>)
  | WRITE_ERROR :: ws => Some (WRITE_ERROR, r <| r_writes := ws |> <| r_log ::= fun l => l ++ [SOCK_FAILED fd] |>)
  end.

(** The loop of [flush_to_socket]: [false] is its error return. *)
Fixpoint to_socket_loop (fuel : nat) (idx : Z) : R bool :=
  match fuel with
  | O => undef
  | S fuel =>
      c ← conn_at idx;
      if buf_avail (cn_m2s c) >? 0 then
        w ← sock_write (cn_sock c) (buf_ptr (cn_m2s c));
        match w with
        | WROTE n =>
            if n >? 0 then
              conn_set idx (c <| cn_m2s := buf_consume (cn_m2s c) n |>);;
              mux (fun s => mux_consume s (cn_sid c) n);;
              to_socket_loop fuel idx
            else mret false
        | WRITE_AGAIN => mret true
        | WRITE_ERROR => mret false
        end
      else mret true
  end.

Definition flush_to_socket (idx : Z) : R Z :=
  c ← conn_at idx;
  ok ← to_socket_loop (S (Z.to_nat (buf_avail (cn_m2s c)))) idx;
  if negb ok then mret (-1) else
  c ← conn_at idx;
  when_ (cn_stream_fin c && (buf_avail (cn_m2s c) =? 0) && negb (cn_sock_eof c))
    (log_effect (SOCK_SHUT_WR (cn_sock c)));;
  mark_dirty idx;;
  mret 0.

(** [c->send_blocked = 1; mark_dirty(r, idx);] *)
Definition block_sender (idx : Z) : R unit :=
  conn_upd idx (fun c => c <| cn_send_blocked := true |>);; mark_dirty idx.

(** The loop of [flush_to_mux]: [false] is its return from within. *)
Fixpoint to_mux_loop (fuel : nat) (idx : Z) : R bool :=
  match fuel with
  | O => undef
  | S fuel =>
      c ← conn_at idx;
      let b := cn_s2m c in
      if buf_avail b >? 0 then
        w ← mux (fun s => mux_write s (cn_sid c) (Some (buf_ptr b)) (buf_avail b));
        let b := if w >? 0 then buf_consume b w else b in
        conn_set idx (c <| cn_s2m := b |>);;
        if (w <=? 0) || (w <? buf_avail b) then block_sender idx;; mret false
        else to_mux_loop fuel idx
      else mret true
  end.

Definition flush_to_mux (idx : Z) : R unit :=
  c ← conn_at idx;
  done ← to_mux_loop (S (Z.to_nat (buf_avail (cn_s2m c)))) idx;
  if negb done then mret tt else
  conn_upd idx (fun c => c <| cn_send_blocked := false |>);;
  c ← conn_at idx;
  when_ (cn_sock_eof c) (mux (fun s => mux_close s (cn_sid c));; mret tt);;
  mark_dirty idx.

(** ** Events of the session *)

(** The dial: the descriptor of a socket being connected, or -1. *)
Definition net_dial : R Z := fun r =>
  match r_dials r with
  | [] => Some (-1, r)
  | fd :: ds => Some (if fd <? 0 then -1 else new_fd r fd, r <| r_dials := ds |>)
  end.

(** Both ways of making a connection end with: the fields set, the stream
    mapped; the caller's bookkeeping; the interest registered. *)
Definition open_backend_conn (sid : Z) : R unit :=
  fd ← net_dial;
  if fd <? 0 then mux (fun s => mux_reset s sid MUX_CODE_INTERNAL);; mret tt else
  idx ← conn_alloc;
  if idx <? 0 then log_effect (SOCK_CLOSED fd);; mux (fun s => mux_reset s sid MUX_CODE_INTERNAL);; mret tt else
  conn_upd idx (fun c => c <| cn_sock := fd |> <| cn_sid := sid |> <| cn_connecting := true |>);;
  sidmap_set sid idx;;
  conn_apply_interest idx.

(** The comparison of the PEER_HELLO case. *)
Definition hello_ok (k : stack) (token : bytes) (h : hello_ev) : bool :=
  let expect := mux_auth_proof (sk_key k) (sk_ctx k) (sk_msg k) token (zlen token)
                  (vbytes (h_nonce h)) (h_nonce_len h) in
  (h_auth_len h =? SHA256_DIGEST_LEN) && ct_equal expect (vbytes (h_auth h)) SHA256_DIGEST_LEN.

(** The sweep over blocked connections of the WRITABLE case. *)
Fixpoint wake_blocked (idxs : list Z) : R unit :=
  match idxs with
  | [] => mret tt
  | idx :: idxs =>
      c ← conn_at idx;
      when_ (cn_used c && cn_send_blocked c) (flush_to_mux idx);;
      wake_blocked idxs
  end.

Definition handle_event (k : stack) (ev : mux_event) : R unit :=
  match ev with
  | EV_PEER_HELLO h =>
      r ← gets id;
      match ro_token (r_opt r) with
      | Some token =>
          if hello_ok k token h then modify (fun r => r <| r_authed := true |>)
          else mux (fun s => mux_goaway s MUX_CODE_REFUSED);; modify (fun r => r <| r_stop := true |>)
      | None => mret tt
      end
  | EV_STREAM_OPENED sid _ _ =>
      r ← gets id;
      match ro_backend_host (r_opt r) with
      | Some _ => open_backend_conn sid
      | None => mux (fun s => mux_reset s sid MUX_CODE_REFUSED);; mret tt
      end
  | EV_STREAM_DATA sid data data_len =>
      idx ← sidmap_get sid;
      if idx <? 0 then mret tt else
      conn_append idx cn_m2s set_m2s (vbytes data) data_len;;
      c ← conn_at idx;
      if negb (cn_connecting c) then flush_to_socket idx;; mret tt else mark_dirty idx
  | EV_STREAM_CLOSED sid =>
      idx ← sidmap_get sid;
      if idx <? 0 then mret tt else
      conn_upd idx (fun c => c <| cn_stream_fin := true |>);;
      c ← conn_at idx;
      when_ (negb (cn_connecting c)) (flush_to_socket idx;; mret tt);;
      conn_maybe_finish idx
  | EV_STREAM_RESET sid _ =>
      idx ← sidmap_get sid;
      if idx <? 0 then mret tt else conn_abandon idx
  | EV_WRITABLE sid =>
      if sid =? MUX_SID_CONTROL then r ← gets id; wake_blocked (seqZ 0 (zlen (r_conns r)))
      else idx ← sidmap_get sid; when_ (idx >=? 0) (flush_to_mux idx)
  | EV_FATAL _ => modify (fun r => r <| r_stop := true |>)
  | _ => mret tt
  end.

Fixpoint events_loop (fuel : nat) (k : stack) : R unit :=
  match fuel with
  | O => undef
  | S fuel =>
      ev ← mux mux_next_event;
      match ev with
      | None => mret tt
      | Some ev => handle_event k ev;; events_loop fuel k
      end
  end.

(** The events queued, one that handling them may add (FATAL, once in the life
    of a session), and the call that finds none. *)
Definition handle_events (k : stack) : R unit :=
  n ← gets (fun r => (Z.to_nat (q_count (s_q (r_mux r))) + 2)%nat); events_loop n k.

(** ** The listener *)

(** One accepted client: [fd] its descriptor, [peer] its address string. *)
Definition accept_one (fd : Z) (peer : bytes) : R unit :=
  r ← gets id;
  if negb (r_authed r) then log_effect (SOCK_CLOSED fd) else
  sid ← mux (fun s => mux_open s (Some peer) (zlen peer));
  if sid <? 0 then log_effect (SOCK_CLOSED fd) else
  idx ← conn_alloc;
  if idx <? 0 then log_effect (SOCK_CLOSED fd);; mux (fun s => mux_reset s (u32 sid) MUX_CODE_INTERNAL);; mret tt
  else
  conn_upd idx (fun c => c <| cn_sock := fd |> <| cn_sid := u32 sid |>);;
  sidmap_set (u32 sid) idx;;
  modify (fun r => r <| r_nactive ::= Z.add 1 |>);;
  conn_apply_interest idx.

(** [acc]: the clients waiting to be accepted. *)
Fixpoint accept_public (acc : list (Z * bytes)) : R unit :=
  r ← gets id;
  let max := ro_max_streams (r_opt r) in
  if (max >? 0) && (r_nactive r >=? max) then
    when_ (negb (r_listen_paused r))
      (loop_set (ro_public_listen_fd (r_opt r)) false false OWN_LISTEN;;
       modify (fun r => r <| r_listen_paused := true |>))
  else
  match acc with
  | [] => mret tt
  | (cand, peer) :: acc => accept_one (new_fd r cand) peer;; accept_public acc
  end.

(** ** Sockets *)

Definition TMP_SIZE : Z := 32768.

(** The EOF branch of [on_sock_readable]. *)
Definition sock_eof (idx : Z) : R unit :=
  conn_upd idx (fun c => c <| cn_sock_eof := true |>);;
  c ← conn_at idx;
  when_ (buf_avail (cn_s2m c) =? 0) (mux (fun s => mux_close s (cn_sid c));; mret tt);;
  mark_dirty idx;;
  conn_maybe_finish idx.

Fixpoint sock_read_loop (fuel : nat) (idx : Z) (rs : list read_res) : R unit :=
  match fuel with
  | O => undef
  | S fuel =>
      match rs with
      | [] => mret tt
      | READ_AGAIN :: _ => mret tt
      | READ_ERROR :: _ => conn_abandon idx
      | READ_EOF :: _ => sock_eof idx
      | READ bs :: rs =>
          let n := Z.min (zlen bs) TMP_SIZE in
          if n =? 0 then sock_eof idx else
          let rs := if n <? zlen bs then READ (zdrop n bs) :: rs else rs in
          let tmp := ztake n bs in
          c ← conn_at idx;
          w ← mux (fun s => mux_write s (cn_sid c) (Some tmp) n);
          if w <? 0 then conn_abandon idx else
          if w <? n then
            conn_append idx cn_s2m set_s2m (zdrop w tmp) (n - w);; block_sender idx
          else sock_read_loop fuel idx rs
      end
  end.

(** An iteration that goes on has consumed a byte of the script. *)
Definition on_sock_readable (idx : Z) (rs : list read_res) : R unit :=
  c ← conn_at idx;
  if buf_avail (cn_s2m c) >? 0 then mret tt else
  sock_read_loop (S (Z.to_nat (script_bytes rs))) idx rs.

(** [mux_reset(...); c->gone = 1; conn_destroy(r, idx);] *)
Definition conn_fail (idx : Z) : R unit :=
  c ← conn_at idx;
  mux (fun s => mux_reset s (cn_sid c) MUX_CODE_INTERNAL);;
  conn_abandon idx.

(** [err]: the pending error of the socket. *)
Definition on_sock_writable (idx err : Z) : R unit :=
  c ← conn_at idx;
  if cn_connecting c && negb (err =? 0) then conn_fail idx else
  when_ (cn_connecting c) (conn_upd idx (fun c => c <| cn_connecting := false |>);; mark_dirty idx);;
  rc ← flush_to_socket idx;
  if rc <? 0 then conn_fail idx else conn_maybe_finish idx.

(** ** The tunnel *)

Definition RECV_BUF_SIZE : Z := 262144.

Definition pump_recv (k : stack) : R Z :=
  r ← gets id;
  c ← mux (fun s => mux_recv s (Some (r_recv r)) (zlen (r_recv r)));
  handle_events k;;
  if c <? 0 then mret (-1) else
  when_ (c >? 0) (modify (fun r => r <| r_recv ::= zdrop c |>));; mret 0.

Fixpoint tunnel_read (fuel : nat) (k : stack) (rs : list read_res) : R Z :=
  match fuel with
  | O => undef
  | S fuel =>
      r ← gets id;
      let space := RECV_BUF_SIZE - zlen (r_recv r) in
      if space =? 0 then
        rc ← pump_recv k;
        if rc <? 0 then mret (-1) else
        r' ← gets id;
        if zlen (r_recv r') =? zlen (r_recv r) then mret 0 else tunnel_read fuel k rs
      else
      match rs with
      | READ bs :: rs =>
          let n := Z.min (zlen bs) space in
          let rs := if n <? zlen bs then READ (zdrop n bs) :: rs else rs in
          if n =? 0 then mret (-1) else
          modify (fun r => r <| r_recv ::= fun b => b ++ ztake n bs |>);;
          rc ← pump_recv k;
          if rc <? 0 then mret (-1) else
          if n <? space then mret 0 else tunnel_read fuel k rs
      | READ_EOF :: _ => mret (-1)
      | READ_AGAIN :: _ => mret 0
      | [] => mret 0
      | READ_ERROR :: _ => mret (-1)
      end
  end.

(** Each iteration consumes a byte of the script or shortens a full buffer. *)
Definition tunnel_read_fuel (rs : list read_res) : nat := Z.to_nat (2 * script_bytes rs + 2).

(** [ws]: the answers of the coming writes to the tunnel. *)
Fixpoint tunnel_flush (ws : list write_res) : R Z :=
  '(_, len) ← mux (fun s => (mux_send_buf s, s));
  if negb (len >? 0) then mret 0 else
  match ws with
  | [] => mret 0
  | WROTE w :: ws =>
      if w >? 0 then mux (fun s => (tt, mux_send_advance s w));; tunnel_flush ws else mret (-1)
  | WRITE_AGAIN :: ws => mret 0
  | WRITE_ERROR :: ws => mret (-1)
  end.

(** ** The main loop *)

(** [long d = (long)(deadline - now)] and the wait it gives. *)
Definition wait_timeout (deadline now : Z) : Z :=
  if deadline =? UINT64_MAX then 1000 else
  let d := to_i64 (deadline - now) in
  if d <? 0 then 0 else if d >? 1000 then 1000 else d.

(** What the operating system answers while one readiness event is handled. *)
Record ev_env := mk_env {
  en_reads : list read_res;
  en_err : Z;
  en_accepts : list (Z * bytes);
  en_flush : list write_res;
}.

Definition env_quiet : ev_env := mk_env [] 0 [] [].

(** One round of the loop over the events: [false] is its [break]. *)
Definition run_event (k : stack) (e : ev_event udata) (n : ev_env) : R bool :=
  match ev_udata e with
  | OWN_TUNNEL =>
      rc ← (if ev_readable e then tunnel_read (tunnel_read_fuel (en_reads n)) k (en_reads n) else mret 0);
      if rc <? 0 then modify (fun r => r <| r_stop := true |>);; mret false else
      r ← gets id;
      when_ (negb (r_g_stop r) && negb (r_stop r) && ev_writable e) (tunnel_flush (en_flush n);; mret tt);;
      mret true
  | OWN_LISTEN => accept_public (en_accepts n);; mret true
  | UD_CONN idx =>
      r ← gets id;
      if (idx <? 0) || (idx >=? zlen (r_conns r)) then mret true else
      c ← conn_at idx;
      if negb (cn_used c) then mret true else
      when_ (ev_writable e) (on_sock_writable idx (en_err n));;
      c ← conn_at idx;
      when_ (cn_used c && ev_readable e) (on_sock_readable idx (en_reads n));;
      mret true
  end.

Fixpoint run_events (k : stack) (evs : list (ev_event udata)) (envs : list ev_env) : R unit :=
  match evs with
  | [] => mret tt
  | e :: evs =>
      go ← run_event k e (default env_quiet (head envs));
      if go : bool then run_events k evs (tail envs) else mret tt
  end.

(** [relay_run] up to its loop. *)
Definition run_start : R unit :=
  r ← gets id;
  loop_set (r_tunnel_fd r) true false OWN_TUNNEL;;
  modify (fun r => r <| r_tun_r := 1 |> <| r_tun_w := 0 |>);;
  when_ (ro_public_listen_fd (r_opt r) >=? 0)
    (loop_set (ro_public_listen_fd (r_opt r)) true false OWN_LISTEN).

(** [relay_request_stop], if the signal that calls it arrives. *)
Definition request_stop (arrives : bool) : R unit := when_ arrives (modify (fun r => r <| r_g_stop := true |>)).

(** What the operating system answers during one iteration; [tn_stop] is whether
    a signal arrives before it, while the session's events are handled, and
    while it waits. *)
Record turn_env := mk_turn {
  tn_stop : bool * bool * bool;
  tn_now : Z;
  tn_flush1 : list write_res;
  tn_wait_err : bool;
  tn_ready : list (Z * Z);
  tn_envs : list ev_env;
  tn_writes : list write_res;
  tn_dials : list Z;
  tn_flush2 : list write_res;
}.

(** [flush_dirty(r); update_tunnel_interest(r);] *)
Definition settle : R unit := flush_dirty;; update_tunnel_interest.

(** The first half of an iteration: [None] is a break, else the wait to come. *)
Definition run_before (k : stack) (t : turn_env) : R (option Z) :=
  deadline ← mux (fun s => mux_on_timer s (tn_now t));
  handle_events k;;
  request_stop (tn_stop t).1.2;;
  r ← gets id;
  if r_g_stop r || r_stop r then mret None else
  rc ← tunnel_flush (tn_flush1 t);
  if rc <? 0 then mret None else
  settle;;
  mret (Some (wait_timeout deadline (tn_now t))).

(** One iteration of [relay_run]'s loop: [false] when the loop has ended. *)
Definition run_turn (k : stack) (t : turn_env) : R bool :=
  request_stop (tn_stop t).1.1;;
  r ← gets id;
  if r_g_stop r || r_stop r then mret false else
  modify (fun r => r <| r_writes := tn_writes t |> <| r_dials := tn_dials t |>);;
  timeout ← run_before k t;
  match timeout with
  | None => mret false
  | Some timeout =>
      log_effect (WAITED timeout);;
      request_stop (tn_stop t).2;;
      if tn_wait_err t then mret false else
      evs ← gets (fun r => evloop_wait (r_loop r) 1024 (tn_ready t));
      run_events k evs (tn_envs t);;
      rc ← tunnel_flush (tn_flush2 t);
      if rc <? 0 then mret false else
      settle;;
      mret true
  end.
