(* ===== verification/SidMap.v ===== *)
(** The relay's sid map refines a finite map from stream id to connection.

    A slot holds a connection's index plus one and the key is read through the
    slab, so the table alone does not determine the map.  Against a fixed slab
    each operation simulates the one of Umap ([sees] relates a slot to the
    entry it stands for), and inherits its refinement. *)

From stdpp Require Import base list numbers gmap.
From Stdlib Require Import ZArith Lia.
From S2P Require Import Prelude Probe Umap Host Fifo EvLoop Session Relay.

(** The slot value [v] stands for the entry [e]. *)
Definition sees (conns : list conn) (v : Z) (e : mslot) : Prop :=
  (v = 0 ∧ ms_used e = false) ∨
  (v = ms_v e + 1 ∧ 0 ≤ ms_v e ∧ ms_used e = true ∧ sid_of conns v = Some (ms_k e)).

(** The table [t] of capacity [cap] maps stream ids to connections as [g] does. *)
Definition sid_rep (conns : list conn) (t : list Z) (cap : Z) (g : gmap Z Z) : Prop :=
  ∃ s, Forall2 (sees conns) t s ∧ represents (mk_umap s cap (cnt ms_used s)) g.

Section SidMap.
Context (conns : list conn).
Implicit Types (t : list Z) (s : list mslot).

Lemma sees_lookup t s j e :
  Forall2 (sees conns) t s → s !! j = Some e → ∃ v, t !! j = Some v ∧ sees conns v e.
Proof. intros Hf He. by destruct (Forall2_lookup_r _ _ _ _ _ Hf He) as (v & ? & ?); exists v. Qed.

(** The first empty slot is the slot [umap_put] chooses for an absent key. *)
Lemma sid_probe_slot t s mask k i n j :
  Forall2 (sees conns) t s → ¬ has_key mcls s k → 0 ≤ i → 0 ≤ mask →
  uput_slot s mask k i n = Some j → sid_probe t mask i n = Some (Z.of_nat j).
Proof.
  intros Hf Habs Hi Hm. revert i Hi. induction n as [|n IH]; intros i Hi; cbn [uput_slot sid_probe]; [done |].
  destruct (s !! Z.to_nat i) as [e|] eqn:He; [| done].
  destruct (sees_lookup _ _ _ _ Hf He) as (v & Hv & Hs). rewrite Hv.
  destruct Hs as [[-> ->]|(-> & ? & U & Hk)]; cbn [negb].
  - intros [= <-]. rewrite Z.eqb_refl. f_equal. lia.
  - rewrite U. cbn [negb]. destruct (Z.eqb_spec (ms_k e) k) as [<-|].
    + destruct Habs. exists (Z.to_nat i), e. split; [done |]. by apply mcls_used.
    + destruct (Z.eqb_spec (ms_v e + 1) 0); [lia |]. apply IH. apply Z.land_nonneg. lia.
Qed.

Lemma sees_insert t s j v k :
  Forall2 (sees conns) t s → 0 < v → sid_of conns v = Some k →
  Forall2 (sees conns) (<[j := v]> t) (<[j := mk_mslot k (v - 1) true]> s).
Proof. intros Hf Hv Hk. apply Forall2_insert; [done |]. right. cbn. split_and!; [lia | lia | done | done]. Qed.

Lemma sees_clear t s j e :
  Forall2 (sees conns) t s → Forall2 (sees conns) (<[j := 0]> t) (<[j := mslot_clear e]> s).
Proof. intros Hf. apply Forall2_insert; [done |]. by left. Qed.

(** Storing a fresh key. *)
Lemma sid_store_fresh t s cap k v :
  Forall2 (sees conns) t s → chain mcls s cap → ¬ has_key mcls s k → cnt ms_used s < cap →
  0 < v → sid_of conns v = Some k →
  ∃ j, sid_store t cap k v = Some (<[j := v]> t) ∧
       uput_slot s (cap - 1) k (umix k (cap - 1)) (Z.to_nat cap) = Some j.
Proof.
  intros Hf Hch Habs Hc Hv Hk. pose proof (chain_cap _ _ _ Hch) as Hp. pose proof (chain_len _ _ _ Hch) as Hl.
  destruct (store_fresh s cap k (v - 1) Hch Habs Hc) as (j & Es & _).
  assert (uput_slot s (cap - 1) k (umix k (cap - 1)) (Z.to_nat cap) = Some j) as Hu
    by (rewrite umix_home, uput_slot_scan, Es by done; done).
  exists j. split; [| done]. pose proof (pow2_pos _ Hp). unfold sid_store. change (sid_mix k) with (umix k).
  rewrite (sid_probe_slot t s (cap - 1) k _ _ j); [| done.. | | lia | done].
  - cbn. by rewrite Nat2Z.id.
  - unfold umix. apply Z.land_nonneg. lia.
Qed.

(** ** Growth *)

Lemma sid_rehash_all nc l tl ns nm :
  Forall2 (sees conns) tl l → Forall2 (sees conns) nm ns →
  chain mcls ns nc → ukeys l → cnt ms_used ns + cnt ms_used l < nc →
  (∀ k, has_key mcls l k → ¬ has_key mcls ns k) →
  ∃ nm', foldl (sid_rehash conns nc) (Some nm) tl = Some nm' ∧
         Forall2 (sees conns) nm' (foldl (ugrow_one nc) ns l).
Proof.
  intros Hf. revert nm ns. induction Hf as [|v e tl l Hs Hf IH]; intros nm ns Hn Hch Hu Hcnt Hdis; cbn [foldl].
  { by exists nm. }
  cbn [cnt] in Hcnt. pose proof (cnt_nonneg ms_used l).
  assert (ukeys l) as Hul by (intros j j' a a' k Ha Ha'; intros; enough (S j = S j') by lia; by eapply Hu).
  assert (∀ k, has_key mcls l k → has_key mcls (e :: l) k) as Htl by (intros k (j & a & ? & ?); by exists (S j), a).
  destruct Hs as [[-> U]|(-> & ? & U & Hk)]; rewrite U in Hcnt; cbn [b2z] in Hcnt.
  - assert (ugrow_one nc ns e = ns) as -> by (unfold ugrow_one; by rewrite U).
    apply IH; [done | done | done | lia | by auto].
  - assert (mcls e = CUsed (ms_k e)) as K by by apply mcls_used.
    assert (¬ has_key mcls ns (ms_k e)) as Habs by (apply Hdis; by exists 0%nat, e).
    destruct (sid_store_fresh nm ns nc (ms_k e) (ms_v e + 1)) as (j & Es & Ej); try done; [lia.. |].
    destruct (ugrow_all nc [e] ns) as (Hch' & Hc' & Hh); [done | | cbn; rewrite U; cbn; lia | |].
    { intros [|?] [|?] ? ? ? ? ?; by simplify_eq/=. }
    { intros k ([|?] & a & Ha & Ka); simplify_eq/=. congruence. }
    cbn [foldl cnt] in Hch', Hc', Hh. rewrite U in Hc'. cbn [b2z] in Hc'.
    assert (ugrow_one nc ns e = <[j := mk_mslot (ms_k e) (ms_v e + 1 - 1) true]> ns) as Eg.
    { destruct Hch as [Hp Hl _ _]. rewrite umix_home, uput_slot_scan in Ej by done.
      apply fmap_Some in Ej as ([j' b] & Ej & ->). unfold ugrow_one. rewrite U, umix_home by done. cbn [negb fst].
      destruct (scan_Some _ _ _ _ (pow2_pos _ Hp) Hl _ _ _ _ Ej) as (d & _ & _ & (a & Ha & Hst) & _).
      assert (b = false) as ->.
      { unfold stop in Hst. destruct (ms_used a) eqn:Ua; [| by injection Hst]. cbn in Hst.
        destruct (Z.eqb_spec (ms_k a) (ms_k e)) as [Ek|]; [| done]. destruct Habs. exists j', a.
        split; [done |]. by apply mcls_used. }
      rewrite (ugrow_slot_scan _ _ _ _ _ _ _ Hp Hl Ej). f_equal. destruct e; cbn in *. f_equal; [lia | done]. }
    unfold sid_rehash at 2. cbn [mbind option_bind]. destruct (Z.eqb_spec (ms_v e + 1) 0); [lia |].
    rewrite Hk. cbn [mbind option_bind]. rewrite Es. apply IH; [| done | done | lia |].
    + rewrite Eg. apply sees_insert; [done | lia | done].
    + intros k Hl (v & [Hv|(j1 & a & Hj1 & Ka & _)]%Hh)%has_holds.
      * apply (Hdis k); [by auto | by eapply holds_has].
      * destruct j1; simplify_eq/=. destruct Hl as (i & a' & Hi & Ka'). enough (S i = 0)%nat by done. by eapply Hu.
Qed.

(** ** Deletion *)

Lemma sid_find_udel t s cap k h d n :
  pow2 cap → zlen s = cap → Forall2 (sees conns) t s →
  sid_find conns t (cap - 1) k ((h + d) mod cap) n =
  match udel_find s (cap - 1) k ((h + d) mod cap) n with inl _ => Some None | inr p => Some (Some p) end.
Proof.
  intros Hp Hl Hf. revert d. induction n as [|n IH]; intros d; cbn [sid_find udel_find]; [done |].
  fold (pslot cap h d). destruct (pslot_lookup s cap h (pow2_pos _ Hp) Hl d) as [e He]. rewrite He.
  destruct (sees_lookup _ _ _ _ Hf He) as (v & Hv & Hs). rewrite Hv. cbn [mbind option_bind].
  destruct Hs as [[-> ->]|(-> & ? & -> & Hk)]; cbn [negb]; [done |].
  destruct (Z.eqb_spec (ms_v e + 1) 0); [lia |]. unfold sid_of in Hk. apply fmap_Some in Hk as (c & Hc & Ek).
  rewrite Hc. cbn [mbind option_bind]. rewrite <- Ek. destruct (ms_k e =? k); [done |].
  rewrite probe_next by done. apply IH.
Qed.

Lemma umap_put_room h m k v :
  (um_count m + 1) * 4 < um_cap m * 3 → umap_put h m k v = (h, uput_store m k v).
Proof. intros Hr. unfold umap_put. rewrite Z.geb_leb. destruct (Z.leb_spec (um_cap m * 3) ((um_count m + 1) * 4)); [lia | done]. Qed.

(** One round of the loop that puts the cluster back. *)
Lemma sid_reput_step t m m' cap b i j g e :
  pow2 cap → walking cap b i j m g → 0 ≤ i < j → j < cap - 1 → Forall2 (sees conns) t (um_s m) →
  um_s m !! pslot cap b j = Some e → ms_used e = true →
  umap_put [] (mk_umap (<[pslot cap b j := mslot_clear e]> (um_s m)) (um_cap m) (um_count m - 1))
    (ms_k e) (ms_v e) = ([], Some m') →
  ∃ t', sid_store (<[pslot cap b j := 0]> t) cap (ms_k e) (ms_v e + 1) = Some t' ∧
        Forall2 (sees conns) t' (um_s m') ∧ um_cap m' = um_cap m.
Proof.
  intros Hp [Ecap Hl Hu _ _ _ Hld _] Hij Hj Hf He U.
  destruct (sees_lookup _ _ _ _ Hf He) as (v & _ & [[-> ?]|(-> & ? & _ & Hk)]); [congruence |].
  rewrite umap_put_room by (cbn; lia). intros [= Hs]. unfold uput_store in Hs. cbn [um_cap um_s] in Hs.
  destruct (_ =? 0); [done |]. cbv zeta in Hs.
  destruct (uput_slot _ _ _ _ _) as [x|] eqn:Ex; [| done]. injection Hs as <-. cbn [um_s um_cap].
  pose proof (pow2_pos _ Hp). rewrite Ecap in Ex.
  assert (Forall2 (sees conns) (<[pslot cap b j := 0]> t) (<[pslot cap b j := mslot_clear e]> (um_s m))) as Hf'
    by by apply sees_clear.
  assert (¬ has_key mcls (<[pslot cap b j := mslot_clear e]> (um_s m)) (ms_k e)) as Habs.
  { intros (y & a & Hy & Ka). apply list_lookup_insert_Some in Hy as [(_ & <- & _)|[Hne Hy]]; [done |].
    apply Hne. eapply Hu; [exact He | exact Hy | by apply mcls_used | done]. }
  unfold sid_store. change (sid_mix (ms_k e)) with (umix (ms_k e)).
  rewrite (sid_probe_slot _ _ _ _ _ _ x Hf' Habs); [| unfold umix; apply Z.land_nonneg; lia | lia | done].
  cbn [mbind option_bind]. rewrite Nat2Z.id. eexists. split; [done |]. split; [| done].
  replace (ms_v e) with (ms_v e + 1 - 1) at 2 by lia. apply sees_insert; [done | lia | done].
Qed.

Lemma sid_reput_total n t cap b i j m g :
  pow2 cap → walking cap b i j m g → Forall2 (sees conns) t (um_s m) → 0 ≤ i < j → j ≤ cap - 1 →
  cap - j ≤ Z.of_nat n →
  ∃ t' m', sid_reput conns t cap ((b + j) mod cap) n = Some t' ∧ Forall2 (sees conns) t' (um_s m') ∧
           um_cap m' = cap ∧ udel_loop [] m (cap - 1) ((b + j) mod cap) n = ([], Some m').
Proof.
  intros Hp. revert j m t. induction n as [|n IH]; intros j m t Hwk Hf Hij Hj Hn; [lia |].
  pose proof (pow2_pos _ Hp) as Hpos. cbn [udel_loop sid_reput]. fold (pslot cap b j).
  destruct (pslot_lookup (um_s m) cap b Hpos (wk_len _ _ _ _ _ _ Hwk) j) as [e He]. rewrite He.
  destruct (sees_lookup _ _ _ _ Hf He) as (v & Hv & Hs). rewrite Hv. cbn [mbind option_bind].
  destruct Hs as [[-> U]|(-> & ? & U & Hk)]; rewrite U; cbn [negb].
  { exists t, m. split_and!; [done | done | by eapply wk_cap | done]. }
  destruct (Z.eqb_spec (ms_v e + 1) 0); [lia |]. rewrite Hk. cbn [mbind option_bind].
  assert (j ≠ cap - 1) as Hne.
  { intros ->. pose proof (wk_end _ _ _ _ _ _ Hwk) as HE. rewrite He in HE. simpl in HE.
    injection HE as HE. apply mcls_empty in HE. congruence. }
  destruct (udel_step cap b i j m g e) as (m' & Em & Hwk' & _); try done; [lia |]. rewrite Em.
  destruct (sid_reput_step t m m' cap b i j g e) as (t' & -> & Hf' & _); try done; [lia |].
  cbn [mbind option_bind]. rewrite probe_next by done. apply IH; [done | done | lia | lia | lia].
Qed.
End SidMap.

(** ** The refinement *)

Lemma sid_rep_zero conns : sid_rep conns [] 0 ∅.
Proof. exists []. split; [done |]. apply umap_zero_represents. Qed.

Lemma represents_count m g : represents m g → mk_umap (um_s m) (um_cap m) (cnt ms_used (um_s m)) = m.
Proof. intros [Hw _]. destruct m as [s cap n]. cbn. f_equal. symmetry. apply (uw_count _ Hw). Qed.

(** Deletion always returns and is map deletion. *)
Lemma sid_delete_spec conns t cap g k :
  sid_rep conns t cap g →
  ∃ t', sid_delete conns t cap k = Some t' ∧ sid_rep conns t' cap (delete k g).
Proof.
  intros (s & Hf & Hr). destruct (umap_del_total _ _ k Hr) as (m' & Ed & Hr' & _).
  unfold umap_del in Ed. unfold sid_delete. cbn [um_cap um_s um_count] in Ed.
  destruct (Z.eqb_spec cap 0) as [->|Hne].
  { injection Ed as <-. exists t. split; [done |]. by exists s. }
  cbv zeta in *. destruct Hr as [Hw Hg]. pose proof (uw_chain _ Hw Hne) as Hch. cbn [um_s um_cap] in Hch.
  pose proof (chain_cap _ _ _ Hch) as Hp. pose proof (chain_len _ _ _ Hch) as Hl.
  change (sid_mix k) with (umix k). rewrite umix_home in * by done. rewrite (sid_find_udel conns t s) by done.
  destruct (g !! k) as [v|] eqn:Hk.
  - destruct (walking_start (mk_umap s cap (cnt ms_used s)) g k v) as (x & e & b & i & _ & Hi & Hx & K & El & Hwk);
      [by split | done |]. cbn [um_s um_cap um_count] in *.
    rewrite (udel_find_scan _ _ _ Hp Hl _ _ _ x true) in * by (by eapply scan_present).
    cbn [mbind option_bind]. rewrite Nat2Z.id, El in *. rewrite (list_alter_insert _ _ _ _ Hx) in Ed.
    destruct (sid_reput_total conns (S (Z.to_nat cap)) (<[x:=0]> t) cap b i (i + 1) _ _ Hp Hwk)
      as (t' & m2 & -> & Hf' & Ec & Ed'); cbn [um_s]; [by apply sees_clear | lia.. |].
    cbn [um_cap] in Ed. rewrite Ed in Ed'. injection Ed' as ->. exists t'. split; [done |]. exists (um_s m2). split; [done |].
    rewrite <- Ec at 1. by rewrite (represents_count _ _ Hr').
  - assert (¬ has_key mcls s k) as Habs by (intros (v & Hv%Hg)%has_holds; congruence).
    pose proof (uw_load _ Hw Hne) as Hld. cbn in Hld. pose proof (cnt_nonneg ms_used s).
    destruct (empty_exists s) as [jE HE]; [lia |].
    destruct (empty_on_path s cap (mix k) jE Hl HE) as (d0 & Hd0 & Ed0). rewrite <- Ed0 in HE.
    destruct (scan_absent s cap k Hp Hl d0 Habs Hd0 HE) as (d & _ & Es & _).
    rewrite (udel_find_scan _ _ _ Hp Hl _ _ _ _ _ Es). cbn [mbind option_bind]. exists t. split; [done |].
    exists s. split; [done |]. by rewrite delete_id.
Qed.

(** Looking up: the index mapped, or -1. *)
Lemma sid_lookup_spec conns t cap g k :
  sid_rep conns t cap g → cap ≠ 0 →
  (∀ k i, g !! k = Some i → ∃ c, conns !! Z.to_nat i = Some c ∧ cn_used c = true) →
  sid_lookup conns t (cap - 1) k (sid_mix k (cap - 1)) (Z.to_nat cap) = Some (default (-1) (g !! k)).
Proof.
  intros (s & Hf & Hw & Hg) Hne Huse. cbn [um_s] in Hg.
  assert (default (-1) (g !! k) = default (-1) (umap_get (mk_umap s cap (cnt ms_used s)) k)) as ->.
  { f_equal. apply option_eq. intros v. by rewrite umap_get_spec, Hg. }
  pose proof (uw_chain _ Hw Hne) as Hch. cbn [um_s um_cap] in Hch.
  pose proof (chain_cap _ _ _ Hch) as Hp. pose proof (chain_len _ _ _ Hch) as Hl.
  unfold umap_get. cbn [um_cap um_s]. destruct (Z.eqb_spec cap 0); [done |]. cbv zeta.
  change (sid_mix k) with (umix k). rewrite umix_home by done.
  generalize (Z.to_nat cap) as fuel, 0 as d. induction fuel as [|fuel IH]; intros d; cbn [sid_lookup uget_loop]; [done |].
  fold (pslot cap (mix k) d). destruct (pslot_lookup s cap (mix k) (pow2_pos _ Hp) Hl d) as [e He]. rewrite He.
  destruct (sees_lookup _ _ _ _ _ Hf He) as (v & Hv & Hs). rewrite Hv. cbn [mbind option_bind].
  destruct Hs as [[-> ->]|(-> & ? & U & Hk)]; cbn [negb]; [done |]. rewrite U. cbn [negb].
  destruct (Z.eqb_spec (ms_v e + 1) 0); [lia |]. unfold sid_of in Hk. apply fmap_Some in Hk as (c & Hc & Ek).
  rewrite Hc. cbn [mbind option_bind]. rewrite <- Ek.
  destruct (Huse (ms_k e) (ms_v e)) as (c' & Hc' & U').
  { apply Hg. exists (pslot cap (mix k) d), e. split_and!; [done | by apply mcls_used | done]. }
  replace (ms_v e + 1 - 1) with (ms_v e) in * by lia. assert (c' = c) as -> by congruence.
  rewrite U'. cbn [andb]. destruct (ms_k e =? k); [done |].
  rewrite probe_next by done. apply IH.
Qed.

(** The slots in use are no more than the connections they may point to. *)
Definition slot_vals (s : list mslot) : list Z := omap (fun e => if ms_used e then Some (ms_v e) else None) s.

Lemma slot_vals_len s : zlen (slot_vals s) = cnt ms_used s.
Proof.
  induction s as [|e s IH]; [done |]. unfold slot_vals in *. cbn. destruct (ms_used e); cbn; [rewrite zlen_cons |]; lia.
Qed.

Lemma slot_vals_elem s v : v ∈ slot_vals s ↔ ∃ k, holds s k v.
Proof.
  unfold slot_vals, holds. rewrite list_elem_of_omap. split.
  - intros (e & (j & Hj)%list_elem_of_lookup & He). destruct (ms_used e) eqn:U; [| done]. injection He as <-.
    exists (ms_k e), j, e. split_and!; [done | by apply mcls_used | done].
  - intros (k & j & e & Hj%list_elem_of_lookup_2 & [U _]%mcls_used & <-). exists e. by rewrite U.
Qed.

Lemma slot_vals_NoDup s :
  (∀ j j' e e', s !! j = Some e → s !! j' = Some e' → ms_used e = true → ms_used e' = true →
     ms_v e = ms_v e' → j = j') → NoDup (slot_vals s).
Proof.
  induction s as [|e s IH]; intros Hinj; [by apply NoDup_nil |]. unfold slot_vals. cbn.
  assert (NoDup (slot_vals s)) as Hn.
  { apply IH. intros j j' a a' Ha Ha' ? ? ?. enough (S j = S j') by lia. by eapply Hinj. }
  destruct (ms_used e) eqn:U; [| exact Hn]. apply NoDup_cons. split; [| exact Hn].
  intros (a & (j & Hj)%list_elem_of_lookup & Ha)%list_elem_of_omap. destruct (ms_used a) eqn:Ua; [| done].
  injection Ha as Ha. enough (0%nat = S j) by done. by eapply Hinj.
Qed.

Lemma sees_count conns t s (xs : list Z) B :
  Forall2 (sees conns) t s → ukeys s → NoDup xs → (∀ v, v ∈ xs → 0 ≤ v < B) →
  (∀ k v, holds s k v → 0 ≤ v < B ∧ v ∉ xs) → 0 ≤ B → cnt ms_used s + zlen xs ≤ B.
Proof.
  intros Hf Hu Hx Hxs Hh HB.
  assert (∀ j e, s !! j = Some e → ms_used e = true → sid_of conns (ms_v e + 1) = Some (ms_k e)) as Hsid.
  { intros j e He U. destruct (sees_lookup _ _ _ _ _ Hf He) as (v & _ & [[_ ?]|(-> & _ & _ & ?)]); congruence. }
  assert (NoDup (slot_vals s)) as Hn.
  { apply slot_vals_NoDup. intros j j' e e' He He' U U' Ev.
    pose proof (Hsid j e He U) as K. rewrite Ev, (Hsid j' e' He' U') in K. injection K as K.
    apply (Hu j j' e e' (ms_k e)); [done | done | by apply mcls_used | by apply mcls_used]. }
  rewrite <- slot_vals_len. assert (NoDup (xs ++ slot_vals s)) as Hall.
  { apply NoDup_app. split_and!; [done | | done]. intros v Hv (k & [_ ?]%Hh)%slot_vals_elem. done. }
  assert (xs ++ slot_vals s ⊆+ seqZ 0 B) as Hsub%submseteq_length.
  { apply NoDup_submseteq; [done |]. intros v [Hv|(k & [Hv _]%Hh)%slot_vals_elem]%elem_of_app;
      apply elem_of_seqZ; [specialize (Hxs v Hv) |]; lia. }
  rewrite length_app, length_seqZ in Hsub. unfold zlen. lia.
Qed.

(** Storing the connection of a new stream. *)
Lemma sid_store_spec conns t cap g k idx B :
  sid_rep conns t cap g → cap ≠ 0 → g !! k = None → sid_of conns (idx + 1) = Some k →
  0 ≤ idx < B → B * 4 < cap * 3 → (∀ k i, g !! k = Some i → 0 ≤ i < B ∧ i ≠ idx) →
  ∃ t', sid_store t cap k (idx + 1) = Some t' ∧ sid_rep conns t' cap (<[k := idx]> g).
Proof.
  intros (s & Hf & Hw & Hg) Hne Hk Hsid Hi HB Hval. cbn [um_s] in Hg.
  pose proof (uw_chain _ Hw Hne) as Hch. cbn [um_s um_cap] in Hch.
  assert (¬ has_key mcls s k) as Habs by (intros (v & Hv%Hg)%has_holds; congruence).
  assert (cnt ms_used s + zlen [idx] ≤ B) as Hcnt.
  { eapply sees_count; [done | by eapply ukeys_chain | apply NoDup_singleton | intros v ->%list_elem_of_singleton; lia | | lia].
    intros k' v' [? ?]%Hg%Hval. by rewrite list_elem_of_singleton. }
  rewrite zlen_cons, zlen_nil in Hcnt.
  destruct (sid_store_fresh conns t s cap k (idx + 1)) as (j & -> & Ej); try done; [lia | lia |].
  destruct (uput_store_spec (mk_umap s cap (cnt ms_used s)) k idx Hw Hne) as (m' & Em & Hw' & Ec & _ & Hh); [cbn; lia |].
  eexists. split; [done |]. exists (<[j := mk_mslot k idx true]> s). split.
  { replace idx with (idx + 1 - 1) at 2 by lia. by apply sees_insert; [| lia |]. }
  assert (um_s m' = <[j := mk_mslot k idx true]> s) as Es.
  { unfold uput_store in Em. cbn [um_cap um_s] in Em. destruct (_ =? 0); [done |]. cbv zeta in Em.
    rewrite Ej in Em. by injection Em as <-. }
  rewrite <- Es. cbn [um_cap] in Ec. rewrite <- Ec.
  assert (represents m' (<[k := idx]> g)) as Hr.
  { split; [done |]. intros k' v'. rewrite Hh, lookup_insert. cbn [um_s]. rewrite <- Hg. case_decide; naive_solver. }
  by rewrite (represents_count _ _ Hr).
Qed.

(** Growing: [pow2_ceil] gives the doubled capacity itself. *)
Lemma pow2_ceil_eq n : 4 ≤ n → pow2_ceil (2 ^ n) = 2 ^ n.
Proof.
  intros Hn. unfold pow2_ceil. rewrite Z.log2_up_pow2 by lia.
  destruct (dbl_until_pow2 (Z.to_nat n) 16 (2 ^ n)) as (j & Hj & E & Hor); [lia |].
  pose proof (dbl_until_ge (Z.to_nat n) 16 (2 ^ n)) as Hge. rewrite Z2Nat.id in Hge by lia.
  pose proof (Z.pow_pos_nonneg 2 n). specialize (Hge ltac:(lia)). rewrite E in *.
  change 16 with (2 ^ 4) in *. rewrite <- Z.pow_add_r in * by lia. f_equal.
  destruct Hor as [Hor|Hor].
  - apply Z.pow_inj_r in Hor; [| lia..]. assert (2 ^ (4 + j) ≤ 2 ^ 4) as Hle by (by rewrite Hor).
    assert (n ≤ 4 + j) by (apply (Z.pow_le_mono_r_iff 2); lia). lia.
  - rewrite <- Z.pow_succ_r in Hor by lia. apply Z.pow_lt_mono_r_iff in Hor; [| lia..].
    apply Z.pow_le_mono_r_iff in Hge; lia.
Qed.

Definition sid_cap_next (cap : Z) : Z := if cap =? 0 then 64 else cap * 2.

Lemma sid_grow_spec conns t cap g :
  sid_rep conns t cap g → (cap = 0 ∨ 64 ≤ cap) →
  ∃ nm, foldl (sid_rehash conns (sid_cap_next cap)) (Some (replicate (Z.to_nat (sid_cap_next cap)) 0)) t = Some nm ∧
        pow2_ceil (if negb (cap =? 0) then cap * 2 else 64) = sid_cap_next cap ∧
        sid_rep conns nm (sid_cap_next cap) g.
Proof.
  intros (s & Hf & Hw & Hg) Hcap. cbn [um_s] in Hg. set (nc := sid_cap_next cap).
  pose proof (cnt_nonneg ms_used s).
  assert (pow2 nc ∧ pow2_ceil (if negb (cap =? 0) then cap * 2 else 64) = nc ∧ cnt ms_used s * 4 < nc * 3)
    as (Hp & Ep & Hld).
  { unfold nc, sid_cap_next. destruct (Z.eqb_spec cap 0) as [E|E]; cbn [negb].
    - destruct (uw_empty _ Hw E) as [Es _]. cbn in Es. subst s. split_and!; [apply pow2_64 | by apply (pow2_ceil_eq 6) | cbn; lia].
    - pose proof (uw_load _ Hw E) as Hld. cbn in Hld. pose proof (chain_cap _ _ _ (uw_chain _ Hw E)) as (n & Hn & En). cbn in En.
      split_and!; [exists (n + 1); rewrite Z.pow_add_r by lia; lia | | lia]. rewrite En.
      replace (2 ^ n * 2) with (2 ^ (n + 1)) by (rewrite Z.pow_add_r by lia; lia). apply pow2_ceil_eq.
      assert (2 ^ 6 ≤ 2 ^ n) as Hle by (rewrite <- En; lia). apply Z.pow_le_mono_r_iff in Hle; lia. }
  pose proof (umap_keys _ Hw) as Hu. cbn in Hu.
  assert (∀ k, ¬ has_key mcls (replicate (Z.to_nat nc) mslot_zero) k) as Hno.
  { intros k (j & e & [-> _]%lookup_replicate & K). done. }
  destruct (ugrow_all nc s (replicate (Z.to_nat nc) mslot_zero)) as (C & N & Hh);
    [by apply chain_replicate | done | rewrite cnt_replicate; cbn; lia | by auto |].
  destruct (sid_rehash_all conns nc s t (replicate (Z.to_nat nc) mslot_zero) (replicate (Z.to_nat nc) 0))
    as (nm & -> & Hnm); [done | apply Forall2_replicate; by left | by apply chain_replicate | done
      | rewrite cnt_replicate; cbn; lia | by auto |].
  exists nm. split_and!; [done | done |]. eexists. split; [exact Hnm |]. rewrite cnt_replicate in N. cbn in N.
  pose proof (pow2_pos _ Hp). split.
  - split; cbn; [lia | done | done | lia].
  - intros k v. cbn [um_s]. rewrite Hh, Hg. split; [by right |]. intros [Hv|?]; [| done].
    by apply holds_has, Hno in Hv.
Qed.

(** The map does not change when the slab keeps the ids of mapped connections. *)
Lemma sid_rep_conns conns conns' t cap g :
  sid_rep conns t cap g →
  (∀ k i, g !! k = Some i → sid_of conns (i + 1) = Some k → sid_of conns' (i + 1) = Some k) →
  sid_rep conns' t cap g.
Proof.
  intros (s & Hf & Hw & Hg) Hsame. exists s. split; [| done]. cbn [um_s] in Hg.
  apply Forall2_same_length_lookup. split; [by eapply Forall2_length |]. intros j v e Hv He.
  pose proof (Forall2_lookup_lr _ _ _ _ _ _ Hf Hv He) as [?|(-> & ? & U & Hk)]; [by left |]. right.
  split_and!; [done | done | done |]. apply Hsame; [| done]. apply Hg. exists j, e.
  split_and!; [done | by apply mcls_used | done].
Qed.

Lemma sid_rep_sid conns t cap g k i : sid_rep conns t cap g → g !! k = Some i → 0 ≤ i ∧ sid_of conns (i + 1) = Some k.
Proof.
  intros (s & Hf & Hw & Hg) (j & e & He & [U <-]%mcls_used & <-)%Hg.
  destruct (sees_lookup _ _ _ _ _ Hf He) as (v & _ & [[_ ?]|(-> & ? & _ & ?)]); [congruence | done].
Qed.
