(* ===== verification/RelayInv.v ===== *)
(** The invariant of a relay: the slab and its free list, the sid map, the
    descriptors watched, the dirty list and the edge's connection count agree.

    [rinv o d r]: the interest of the connection [o] may be stale without being
    marked dirty (its handler is running), and [r_nactive] exceeds the number of
    connections by [d] (a connection is being made or destroyed). *)

From stdpp Require Import base list numbers gmap.
From Stdlib Require Import ZArith Lia.
From S2P Require Import Prelude Frame OutBuf EventQueue Probe StreamTable Session SessionIO Handshake Recv SessionOpens Auth Host Fifo Umap EvLoop Relay SidMap.

(** ** Connections in use *)

Definition used_at (cs : list conn) (i : Z) (c : conn) : Prop :=
  0 ≤ i ∧ cs !! Z.to_nat i = Some c ∧ cn_used c = true.

#[global] Arguments used_at : simpl never.

Lemma used_at_eq cs i c c' : used_at cs i c → used_at cs i c' → c' = c.
Proof. intros (_ & H & _) (_ & H' & _). congruence. Qed.

Lemma used_at_range cs i c : used_at cs i c → 0 ≤ i < zlen cs.
Proof. intros (? & H%lookup_lt_Some & _). unfold zlen. lia. Qed.

Lemma lookup_put cs i (c' : conn) : 0 ≤ i < zlen cs → <[Z.to_nat i := c']> cs !! Z.to_nat i = Some c'.
Proof. intros Hi. apply list_lookup_insert_eq. unfold zlen in Hi. lia. Qed.

Lemma used_at_put cs i c' j d :
  0 ≤ i < zlen cs →
  used_at (<[Z.to_nat i := c']> cs) j d ↔ (j = i ∧ d = c' ∧ cn_used c' = true) ∨ (j ≠ i ∧ used_at cs j d).
Proof.
  intros Hi. unfold used_at. split.
  - intros (Hj & Hd & U). apply list_lookup_insert_Some in Hd as [(E & <- & _)|[Hne Hd]].
    + left. split_and!; [lia | done | done].
    + right. split_and!; [lia | lia | done | done].
  - intros [(-> & -> & U)|(Hne & Hj & Hd & U)]; (split_and!; [lia | | done]).
    + by apply lookup_put.
    + rewrite list_lookup_insert_ne by lia. done.
Qed.

Lemma zlen_put cs i (c : conn) : zlen (<[Z.to_nat i := c]> cs) = zlen cs.
Proof. unfold zlen. by rewrite length_insert. Qed.

Lemma cnt_put cs i c c' :
  0 ≤ i → cs !! Z.to_nat i = Some c →
  cnt cn_used (<[Z.to_nat i := c']> cs) = cnt cn_used cs - b2z (cn_used c) + b2z (cn_used c').
Proof. intros _ H. by apply cnt_insert. Qed.

(** ** Slab and sid map *)

(** Slots [hw] and above have never been handed out; [fl] lists the unused. *)
Record slab (cs : list conn) (fl : list Z) (hw : Z) : Prop := {
  sl_hw : 0 ≤ hw ≤ zlen cs;
  sl_free : ∃ rel, fl = rel ++ seqZ hw (zlen cs - hw) ∧ ∀ i, i ∈ rel → 0 ≤ i < hw;
  sl_nodup : NoDup fl;
  sl_used : ∀ i c, 0 ≤ i → cs !! Z.to_nat i = Some c → cn_used c = true ↔ i ∉ fl;
}.

Definition sidcap (hw cap : Z) : Prop := cap = 0 ∧ hw = 0 ∨ 64 ≤ cap ∧ hw * 4 < cap * 3.

(** The table maps the stream of each connection to it, and nothing else. *)
Definition mapped (cs : list conn) (t : list Z) (cap : Z) : Prop :=
  ∃ g, sid_rep cs t cap g ∧ ∀ k i, g !! k = Some i ↔ ∃ c, used_at cs i c ∧ cn_sid c = k.

Lemma slab_free_range cs fl hw i : slab cs fl hw → i ∈ fl → 0 ≤ i < zlen cs.
Proof.
  intros [? (rel & -> & Hr) _ _] [Hi%Hr|Hi%elem_of_seqZ]%elem_of_app; lia.
Qed.

Lemma slab_below cs fl hw i c : slab cs fl hw → used_at cs i c → 0 ≤ i < hw.
Proof.
  intros Hs Hu. pose proof (used_at_range _ _ _ Hu) as Hi. destruct Hs as [? (rel & -> & _) _ Hus].
  destruct Hu as (H0 & Hc & U). apply (Hus i c H0 Hc) in U. destruct (Z.lt_ge_cases i hw); [done |].
  destruct U. apply elem_of_app. right. apply elem_of_seqZ. lia.
Qed.

Lemma mapped_inj cs t cap i j c d :
  mapped cs t cap → used_at cs i c → used_at cs j d → cn_sid c = cn_sid d → i = j.
Proof.
  intros (g & _ & Hg) Hc Hd E.
  assert (g !! cn_sid c = Some i) as Hi by (apply Hg; by exists c).
  assert (g !! cn_sid c = Some j) as Hj by (apply Hg; by exists d). congruence.
Qed.

(** Changing a connection in use without touching its use or its stream. *)
Lemma slab_put cs fl hw i c c' :
  slab cs fl hw → used_at cs i c → cn_used c' = true → slab (<[Z.to_nat i := c']> cs) fl hw.
Proof.
  intros [H1 H2 H3 H4] Hu U'. pose proof (used_at_range _ _ _ Hu) as Hi. destruct Hu as (H0 & Hc & U).
  split; rewrite ?zlen_put; [done.. |]. intros j d Hj Hd.
  apply list_lookup_insert_Some in Hd as [(E & <- & _)|[Hne Hd]]; [| by apply H4].
  assert (j = i) as -> by lia. rewrite <- (H4 i c Hj Hc). by rewrite U, U'.
Qed.

Lemma mapped_put cs t cap i c c' :
  mapped cs t cap → used_at cs i c → cn_used c' = true → cn_sid c' = cn_sid c →
  mapped (<[Z.to_nat i := c']> cs) t cap.
Proof.
  intros (g & Hr & Hg) Hu U' Es. pose proof (used_at_range _ _ _ Hu) as Hi. exists g. split.
  - eapply sid_rep_conns; [exact Hr |]. intros k j Hk. unfold sid_of. replace (j + 1 - 1) with j by lia.
    destruct (decide (j = i)) as [->|Hne].
    + rewrite lookup_put by done. destruct Hu as (_ & -> & _). cbn. by rewrite Es.
    + apply Hg in Hk as (d & (Hj & _) & _). rewrite list_lookup_insert_ne by lia. done.
  - intros k j. rewrite Hg. split; intros (d & Hd & <-).
    + destruct (decide (j = i)) as [->|Hne].
      * exists c'. rewrite used_at_put by done. pose proof (used_at_eq _ _ _ _ Hu Hd) as ->. split; [by left | done].
      * exists d. rewrite used_at_put by done. split; [by right | done].
    + apply used_at_put in Hd as [(-> & -> & _)|[Hne Hd]]; [exists c; by rewrite Es | by exists d | done].
Qed.

(** ** Interest *)

Definition asked (c : conn) : Prop :=
  cn_cur_r c = b2z (conn_desired c).1 ∧ cn_cur_w c = b2z (conn_desired c).2.

(** A write to the descriptor has failed and it has not been closed since. *)
Definition fail_step (fd : Z) (b : bool) (e : effect) : bool :=
  match e with SOCK_FAILED f => (f =? fd) || b | SOCK_CLOSED f => negb (f =? fd) && b | _ => b end.
Definition failing (log : list effect) (fd : Z) : bool := foldl (fail_step fd) false log.
#[global] Arguments failing : simpl never.

(** The interest registered is the one desired, unless a write has failed. *)
Definition interest_ok (log : list effect) (c : conn) : Prop := asked c ∨ failing log (cn_sock c) = true.

Lemma failing_app log e fd : failing (log ++ [e]) fd = fail_step fd (failing log fd) e.
Proof. unfold failing. by rewrite foldl_app. Qed.

Definition watch (wr ww : bool) (ud : udata) : epoll_event udata := mk_epoll (evloop_mask wr ww) ud.

(** What is registered with the event loop. *)
Record watched (r : relay) : Prop := {
  wa_conn : ∀ i c, used_at (r_conns r) i c → 0 ≤ cn_sock c ∧
    ∃ wr ww, cn_cur_r c = b2z wr ∧ cn_cur_w c = b2z ww ∧ r_loop r !! cn_sock c = Some (watch wr ww (UD_CONN i));
  wa_tun : ∃ wr ww, r_tun_r r = b2z wr ∧ r_tun_w r = b2z ww ∧
    r_loop r !! r_tunnel_fd r = Some (watch wr ww OWN_TUNNEL);
  wa_listen : 0 ≤ ro_public_listen_fd (r_opt r) →
    r_loop r !! ro_public_listen_fd (r_opt r) = Some (watch (negb (r_listen_paused r)) false OWN_LISTEN);
  wa_only : ∀ fd e, r_loop r !! fd = Some e →
    match ep_data e with
    | OWN_TUNNEL => fd = r_tunnel_fd r
    | OWN_LISTEN => fd = ro_public_listen_fd (r_opt r) ∧ 0 ≤ fd
    | UD_CONN i => ∃ c, used_at (r_conns r) i c ∧ cn_sock c = fd
    end;
}.

(** The edge's count and its pause at the cap. *)
Definition counted (d : Z) (r : relay) : Prop :=
  let max := ro_max_streams (r_opt r) in
  0 ≤ ro_public_listen_fd (r_opt r) →
  r_nactive r = cnt cn_used (r_conns r) + d ∧
  (0 < max → r_nactive r ≤ max ∧ (r_listen_paused r = true → r_nactive r = max)) ∧
  (max ≤ 0 → r_listen_paused r = false).

(** Ids to come are above those in use: our own on an edge (an acceptor, whose
    ids are even and run out at 0), the peer's on a relay that dials. *)
Definition fresh_sids (o : relay_opts) (cs : list conn) (x : mux_session) : Prop :=
  evq_wf (s_q x) ∧
  match ro_backend_host o with
  | None => (2 | s_next_local_sid x) ∧ 0 ≤ s_next_local_sid x < 2 ^ 32 ∧
            ∀ i c, used_at cs i c → cn_sid c < s_next_local_sid x ∨ s_next_local_sid x = 0
  | Some _ => ∃ lo, climbs lo (opened (events x)) (s_max_remote_sid x) ∧
                    ∀ i c, used_at cs i c → cn_sid c ≤ lo
  end.

(** The relay is an edge or a relay that dials, as the source documents. *)
Definition one_mode (o : relay_opts) : Prop :=
  match ro_backend_host o with
  | None => ro_role o = MUX_ACCEPTOR
  | Some _ => ro_public_listen_fd o < 0
  end.

Record rinv (o : option Z) (d : Z) (r : relay) : Prop := {
  ri_heap : r_heap r = [];
  ri_dang : r_dangling r = false;
  ri_mode : one_mode (r_opt r);
  ri_slab : ∃ hw, slab (r_conns r) (r_freelist r) hw ∧ sidcap hw (r_sidmap_cap r);
  ri_map : mapped (r_conns r) (r_sidmap r) (r_sidmap_cap r);
  ri_loop : watched r;
  ri_dirty : ∀ i, i ∈ r_dirty r → 0 ≤ i < zlen (r_conns r);
  ri_marked : ∀ i c, used_at (r_conns r) i c → cn_in_dirty c = true → i ∈ r_dirty r;
  ri_settled : ∀ i c, used_at (r_conns r) i c → cn_in_dirty c = false → o = Some i ∨ interest_ok (r_log r) c;
  ri_count : counted d r;
  ri_sids : fresh_sids (r_opt r) (r_conns r) (r_mux r);
  ri_recv : zlen (r_recv r) ≤ RECV_BUF_SIZE;
}.

Lemma rinv_open i d r : rinv None d r → rinv (Some i) d r.
Proof. intros []. split; try done. intros j c Hc Hd. destruct (ri_settled0 j c Hc Hd) as [?|?]; [done | by right]. Qed.

(** A connection whose bookkeeping is in order closes the gap. *)
Lemma rinv_close i d r c :
  rinv (Some i) d r → used_at (r_conns r) i c → (cn_in_dirty c = false → interest_ok (r_log r) c) → rinv None d r.
Proof.
  intros [] Hu Hs. split; try done. intros j c' Hc Hd. destruct (ri_settled0 j c' Hc Hd) as [[= <-]|?]; right; [| done].
  pose proof (used_at_eq _ _ _ _ Hu Hc) as ->. by apply Hs.
Qed.

(** ** Frame lemmas *)

(** The fields of a relay other than connections, maps and interest. *)
Definition inside (r r' : relay) : Prop :=
  r_opt r' = r_opt r ∧ r_tunnel_fd r' = r_tunnel_fd r ∧ r_heap r' = r_heap r ∧ r_dangling r' = r_dangling r ∧
  r_conns r' = r_conns r ∧ r_freelist r' = r_freelist r ∧ r_sidmap r' = r_sidmap r ∧
  r_sidmap_cap r' = r_sidmap_cap r ∧ r_loop r' = r_loop r ∧ r_tun_r r' = r_tun_r r ∧ r_tun_w r' = r_tun_w r ∧
  r_listen_paused r' = r_listen_paused r ∧ r_nactive r' = r_nactive r ∧ r_dirty r' = r_dirty r.

Ltac same_inside := unfold inside; split_and!; reflexivity.

Lemma rinv_inside o d r r' :
  rinv o d r → inside r r' →
  (∀ i c, used_at (r_conns r) i c → failing (r_log r) (cn_sock c) = true → failing (r_log r') (cn_sock c) = true) → fresh_sids (r_opt r) (r_conns r) (r_mux r') →
  zlen (r_recv r') ≤ RECV_BUF_SIZE → rinv o d r'.
Proof.
  intros [H1 H2 H3 H4 H5 H6 H7 H8 H9 H10 H11 H12] (E1 & E2 & E3 & E4 & E5 & E6 & E7 & E8 & E9 & E10 & E11 & E12 & E13 & E14)
    Hl Hm Hr.
  split; rewrite ?E1, ?E3, ?E4, ?E5, ?E6, ?E7, ?E8, ?E14; try done.
  - destruct H6. split; rewrite ?E1, ?E2, ?E5, ?E9, ?E10, ?E11, ?E12; done.
  - intros i c Hu Hd. destruct (H9 i c Hu Hd) as [?|[?|?]]; [by left | right; by left | right; right; by eapply Hl].
  - unfold counted in *. by rewrite E1, E5, E12, E13.
Qed.

(** What an operation leaves alone, for the callers' measures. *)
Record within (r r' : relay) : Prop := {
  wi_mux : hush (r_mux r) (r_mux r');
  wi_recv : r_recv r' = r_recv r;
  wi_opt : r_opt r' = r_opt r;
  wi_log : ∀ e, e ∈ r_log r → e ∈ r_log r';
  wi_len : zlen (r_conns r) ≤ zlen (r_conns r');
}.

#[export] Instance within_preorder : PreOrder within.
Proof.
  split.
  - intros r. split; [reflexivity | done..].
  - intros r1 r2 r3 [] []. split; [by etrans | congruence | congruence | auto | lia].
Qed.

Lemma fresh_sids_opens o cs x x' : fresh_sids o cs x → opens x x' → fresh_sids o cs x'.
Proof.
  intros [Hq Hm] Hop. destruct (Hop Hq) as [Hq' Hn (evs & E & _ & C)]. split; [done |].
  destruct (ro_backend_host o); [| by rewrite Hn]. destruct Hm as (lo & Hlo & Hu). exists lo. split; [| done].
  rewrite E. unfold opened in *. rewrite omap_app. by eapply climbs_app.
Qed.

Lemma rinv_mux o d r x' : rinv o d r → opens (r_mux r) x' → rinv o d (r <| r_mux := x' |>).
Proof.
  intros H Hop. eapply rinv_inside; [exact H | same_inside | done | | apply H].
  eapply fresh_sids_opens; [apply H | done].
Qed.

Lemma fresh_sids_put o cs x i c c' :
  fresh_sids o cs x → used_at cs i c → cn_sid c' = cn_sid c → fresh_sids o (<[Z.to_nat i := c']> cs) x.
Proof.
  intros [Hq Hm] Hu Es. split; [done |]. pose proof (used_at_range _ _ _ Hu) as Hi.
  assert (∀ j e, used_at (<[Z.to_nat i := c']> cs) j e → ∃ e', used_at cs j e' ∧ cn_sid e = cn_sid e') as Hb.
  { intros j e [(-> & -> & _)|[_ He]]%used_at_put; [by exists c | by exists e | done]. }
  destruct (ro_backend_host o).
  - destruct Hm as (lo & ? & Hl). exists lo. split; [done |]. intros j e (e' & He' & ->)%Hb. by eapply Hl.
  - destruct Hm as (? & ? & Hl). split; [done |]. split; [done |]. intros j e (e' & He' & ->)%Hb. by eapply Hl.
Qed.

(** The connection [i] changes, but not its identity. *)
Record same_conn (c c' : conn) : Prop := {
  sc_used : cn_used c' = cn_used c;
  sc_sid : cn_sid c' = cn_sid c;
  sc_sock : cn_sock c' = cn_sock c;
  sc_cur_r : cn_cur_r c' = cn_cur_r c;
  sc_cur_w : cn_cur_w c' = cn_cur_w c;
  sc_dirty : cn_in_dirty c' = cn_in_dirty c;
}.

Definition put_conn (i : Z) (c : conn) (r : relay) : relay := r <| r_conns ::= <[Z.to_nat i := c]> |>.

Lemma watched_put r r' i c c' :
  watched r → used_at (r_conns r) i c → cn_used c' = true → cn_sock c' = cn_sock c →
  cn_cur_r c' = cn_cur_r c → cn_cur_w c' = cn_cur_w c →
  r_conns r' = <[Z.to_nat i := c']> (r_conns r) → r_loop r' = r_loop r → r_opt r' = r_opt r →
  r_tunnel_fd r' = r_tunnel_fd r → r_tun_r r' = r_tun_r r → r_tun_w r' = r_tun_w r →
  r_listen_paused r' = r_listen_paused r → watched r'.
Proof.
  intros [W1 W2 W3 W4] Hu U' Es Er Ew Ec El Eo Et E1 E2 Ep. pose proof (used_at_range _ _ _ Hu) as Hi.
  split; rewrite ?Ec, ?El, ?Eo, ?Et, ?E1, ?E2, ?Ep; try done.
  - intros j e [(-> & -> & _)|[_ He]]%used_at_put; [| by apply W1 | done]. rewrite Es, Er, Ew. by apply W1.
  - intros fd e He. specialize (W4 fd e He). destruct (ep_data e) as [| |j]; [done.. |].
    destruct W4 as (x & Hx & E). destruct (decide (j = i)) as [->|Hne].
    + exists c'. rewrite used_at_put by done. pose proof (used_at_eq _ _ _ _ Hu Hx) as ->. split; [by left | congruence].
    + exists x. rewrite used_at_put by done. split; [by right | done].
Qed.

Lemma rinv_put d r i c c' :
  rinv (Some i) d r → used_at (r_conns r) i c → same_conn c c' → rinv (Some i) d (put_conn i c' r).
Proof.
  intros [H1 H2 H3 (hw & H4 & H4') H5 H6 H7 H8 H9 H10 H11 H12] Hu [S1 S2 S3 S4 S5 S6].
  pose proof (used_at_range _ _ _ Hu) as Hi. pose proof Hu as (H0 & Hc & U).
  assert (cn_used c' = true) as U' by congruence.
  split; cbn; try done.
  - exists hw. split; [by eapply slab_put | done].
  - by eapply mapped_put.
  - by eapply watched_put; [exact H6 | exact Hu | ..].
  - intros j Hj. rewrite zlen_put. by apply H7.
  - intros j e [(-> & -> & _)|[_ He]]%used_at_put; [rewrite S6; by apply H8 | by apply H8 | done].
  - intros j e [(-> & -> & _)|[_ He]]%used_at_put; [by left | by apply H9 | done].
  - intros Hl. destruct (H10 Hl) as (Hn & ?). split; [| done]. cbn. rewrite (cnt_put _ _ c) by done. rewrite U, U'. lia.
  - by eapply fresh_sids_put.
Qed.

Lemma used_put r i c c' :
  used_at (r_conns r) i c → cn_used c' = true → used_at (r_conns (put_conn i c' r)) i c'.
Proof. intros Hu U. cbn. rewrite used_at_put by (by eapply used_at_range). by left. Qed.

(** [within] for a state spelt out field by field. *)
Ltac in_place := split; try reflexivity; cbn; rewrite ?zlen_put; done.

Lemma within_put r i c : within r (put_conn i c r).
Proof. split; try done. cbn. by rewrite zlen_put. Qed.

(** ** Destroying a connection *)

Lemma slab_release cs fl hw i c c' :
  slab cs fl hw → used_at cs i c → cn_used c' = false → slab (<[Z.to_nat i := c']> cs) (i :: fl) hw.
Proof.
  intros Hs Hu U'. pose proof (slab_below _ _ _ _ _ Hs Hu) as Hi. pose proof (used_at_range _ _ _ Hu) as Hr.
  destruct Hs as [H1 (rel & -> & H2) H3 H4]. pose proof Hu as (H0 & Hc & U).
  assert (i ∉ rel ++ seqZ hw (zlen cs - hw)) as Hn by by apply (H4 i c H0 Hc).
  split; rewrite ?zlen_put; [done | | by apply NoDup_cons |].
  - exists (i :: rel). split; [done |]. intros j [->|Hj]%elem_of_cons; [done | by apply H2].
  - intros j d Hj Hd. rewrite elem_of_cons. apply list_lookup_insert_Some in Hd as [(E & <- & _)|[Hne Hd]].
    + assert (j = i) as -> by lia. rewrite U'. split; [done |]. intros []. by left.
    + rewrite (H4 j d Hj Hd). split; [| tauto]. intros Hjn [->|?]; [lia | done].
Qed.

Lemma mapped_release cs t cap i c c' :
  mapped cs t cap → used_at cs i c → cn_used c' = false →
  ∃ t', sid_delete cs t cap (cn_sid c) = Some t' ∧ mapped (<[Z.to_nat i := c']> cs) t' cap.
Proof.
  intros Hm Hu U'. pose proof (used_at_range _ _ _ Hu) as Hi. pose proof Hm as (g & Hr & Hg).
  destruct (sid_delete_spec _ _ _ _ (cn_sid c) Hr) as (t' & -> & Hr'). exists t'. split; [done |].
  assert (∀ j d, used_at (<[Z.to_nat i := c']> cs) j d ↔ j ≠ i ∧ used_at cs j d) as Hb.
  { intros j d. rewrite used_at_put by done. split; [intros [(_ & _ & ?)|?]; [congruence | done] | by right]. }
  exists (delete (cn_sid c) g). split.
  - eapply sid_rep_conns; [exact Hr' |]. intros k j [Hne Hk]%lookup_delete_Some. unfold sid_of. replace (j + 1 - 1) with j by lia.
    apply Hg in Hk as (d & Hd & Ek). destruct (decide (j = i)) as [->|].
    + pose proof (used_at_eq _ _ _ _ Hu Hd) as ->. done.
    + rewrite list_lookup_insert_ne; [done |]. destruct Hd. lia.
  - intros k j. rewrite lookup_delete_Some, Hg. split.
    + intros [Hne (d & Hd & Ek)]. exists d. rewrite Hb. split_and!; [| done | done]. intros ->.
      pose proof (used_at_eq _ _ _ _ Hu Hd) as ->. done.
    + intros (d & [Hne Hd]%Hb & Ek). split; [| by exists d]. intros E. apply Hne.
      symmetry. eapply mapped_inj; [exact Hm | exact Hu | exact Hd | congruence].
Qed.

(** The relay once [i] is released, before the edge's count is brought down. *)
Record released (i : Z) (c c' : conn) (t : list Z) (r r' : relay) : Prop := {
  re_conns : r_conns r' = <[Z.to_nat i := c']> (r_conns r);
  re_loop : r_loop r' = delete (cn_sock c) (r_loop r);
  re_log : r_log r' = r_log r ++ [SOCK_CLOSED (cn_sock c)];
  re_map : r_sidmap r' = t;
  re_free : r_freelist r' = i :: r_freelist r;
  re_same : (r_heap r', r_dangling r', r_opt r', r_tunnel_fd r', r_sidmap_cap r', r_dirty r', r_mux r', r_recv r') =
            (r_heap r, r_dangling r, r_opt r, r_tunnel_fd r, r_sidmap_cap r, r_dirty r, r_mux r, r_recv r);
  re_interest : (r_tun_r r', r_tun_w r', r_listen_paused r', r_nactive r') =
                (r_tun_r r, r_tun_w r, r_listen_paused r, r_nactive r);
}.

Lemma rinv_released r i c c' :
  rinv (Some i) 0 r → used_at (r_conns r) i c → cn_used c' = false →
  ∃ t, sid_delete (r_conns r) (r_sidmap r) (r_sidmap_cap r) (cn_sid c) = Some t ∧
       ∀ r', released i c c' t r r' → rinv None 1 r'.
Proof.
  intros [H1 H2 H3 (hw & H4 & H4') H5 H6 H7 H8 H9 H10 H11 H12] Hu U'.
  pose proof (used_at_range _ _ _ Hu) as Hi. pose proof Hu as (H0 & Hc & U).
  destruct (mapped_release _ _ _ _ _ c' H5 Hu U') as (t & Et & Ht). exists t. split; [done |].
  intros r' [R1 R2 R3 R4 R5 R6 R7]. injection R6 as E1 E2 E3 E4 E5 E6 E7 E8. injection R7 as E9 E10 E11 E12.
  assert (∀ j d, used_at (<[Z.to_nat i := c']> (r_conns r)) j d ↔ j ≠ i ∧ used_at (r_conns r) j d) as Hb.
  { intros j d. rewrite used_at_put by done. split; [intros [(_ & _ & ?)|?]; [congruence | done] | by right]. }
  destruct (wa_conn _ H6 i c Hu) as (Hs & wr & ww & _ & _ & Hw).
  split; rewrite ?R1, ?R2, ?R3, ?R4, ?R5, ?E1, ?E2, ?E3, ?E5, ?E6, ?E7, ?E8; try done.
  - exists hw. split; [by eapply slab_release | done].
  - destruct H6 as [W1 W2 W3 W4]. split; rewrite ?R1, ?R2, ?E3, ?E4, ?E9, ?E10, ?E11.
    + intros j d [Hne Hd]%Hb. destruct (W1 j d Hd) as (? & wr' & ww' & ? & ? & E). split; [done |]. exists wr', ww'.
      rewrite lookup_delete_ne; [done |]. intros Es. rewrite <- Es, Hw in E. by injection E.
    + destruct W2 as (wr' & ww' & ? & ? & E). exists wr', ww'. rewrite lookup_delete_ne; [done |].
      intros Es. rewrite <- Es, Hw in E. done.
    + intros Hl. specialize (W3 Hl). rewrite lookup_delete_ne; [done |]. intros Es. rewrite <- Es, Hw in W3. done.
    + intros fd e [Hne He]%lookup_delete_Some. specialize (W4 fd e He). destruct (ep_data e) as [| |j]; [done.. |].
      destruct W4 as (x & Hx & E). exists x. rewrite Hb. split_and!; [| done | done]. intros ->.
      pose proof (used_at_eq _ _ _ _ Hu Hx) as ->. done.
  - intros j Hj. rewrite zlen_put. by apply H7.
  - intros j d [_ Hd]%Hb. by apply H8.
  - intros j d [Hne Hd]%Hb Hdd. right. destruct (H9 j d Hd Hdd) as [[= ->]|[?|Hf]]; [done | by left |].
    right. rewrite failing_app, Hf. cbn. destruct (Z.eqb_spec (cn_sock c) (cn_sock d)) as [Es|]; [| done].
    destruct (wa_conn _ H6 j d Hd) as (_ & wr' & ww' & _ & _ & E). rewrite <- Es, Hw in E. by injection E.
  - unfold counted. rewrite R1, E3, E11, E12. intros Hl. destruct (H10 Hl) as (Hn & ?). split; [| done]. rewrite (cnt_put _ _ c) by done. rewrite U, U'. cbn. lia.
  - destruct H11 as [Hq Hm]. split; [done |]. destruct (ro_backend_host _).
    + destruct Hm as (lo & ? & Hl). exists lo. split; [done |]. intros j d [_ Hd]%Hb. by eapply Hl.
    + destruct Hm as (? & ? & Hl). split; [done |]. split; [done |]. intros j d [_ Hd]%Hb. by eapply Hl.
Qed.

(** ** Making a connection *)

Lemma used_at_grow cs n i c : used_at (cs ++ replicate n conn_zero) i c ↔ used_at cs i c.
Proof.
  unfold used_at. split; intros (? & Hc & U); (split_and!; [done | | done]).
  - apply lookup_app_Some in Hc as [?|[_ Hc]]; [done |]. by apply lookup_replicate in Hc as [-> _].
  - by apply lookup_app_l_Some.
Qed.

Lemma slab_grow cs hw n :
  slab cs [] hw → 0 ≤ n → slab (cs ++ replicate (Z.to_nat n) conn_zero) (seqZ (zlen cs) n) (zlen cs).
Proof.
  intros [H1 (rel & E & _) _ H4] Hn. assert (zlen (cs ++ replicate (Z.to_nat n) conn_zero) = zlen cs + n) as El.
  { rewrite zlen_app. unfold zlen at 2. rewrite length_replicate. lia. }
  pose proof (zlen_nonneg cs). split; rewrite ?El; [lia | | apply NoDup_seqZ |].
  - exists []. split; [cbn; f_equal; lia |]. intros i Hi. by apply elem_of_nil in Hi.
  - intros i c Hi Hc. rewrite elem_of_seqZ. apply lookup_app_Some in Hc as [Hc|[Hl Hc]].
    + rewrite (H4 i c Hi Hc). apply lookup_lt_Some in Hc. unfold zlen. split; [intros _; lia | intros _ []%elem_of_nil].
    + apply lookup_replicate in Hc as [-> Hlt]. cbn. split; [done |]. unfold zlen in *. lia.
Qed.

Lemma slab_full cs hw : slab cs [] hw → hw = zlen cs.
Proof.
  intros [H1 (rel & E & _) _ _]. symmetry in E. apply app_eq_nil in E as [_ E].
  destruct (Z.lt_ge_cases hw (zlen cs)); [| lia]. rewrite seqZ_cons in E by lia. done.
Qed.

Lemma rinv_grow r n :
  rinv None 0 r → r_freelist r = [] → 0 ≤ n →
  rinv None 0 (r <| r_conns ::= fun l => l ++ replicate (Z.to_nat n) conn_zero |>
                 <| r_freelist ::= fun l => seqZ (zlen (r_conns r)) n ++ l |>).
Proof.
  intros [H1 H2 H3 (hw & H4 & H4') H5 H6 H7 H8 H9 H10 H11 H12] Hf Hn. rewrite Hf in H4.
  pose proof (slab_full _ _ H4) as ->. split; try done; cbn.
  - exists (zlen (r_conns r)). rewrite Hf, app_nil_r. split; [by eapply slab_grow | done].
  - destruct H5 as (g & Hr & Hg). exists g. split.
    + eapply sid_rep_conns; [exact Hr |]. intros k i _. unfold sid_of. intros (c & Hc & ->)%fmap_Some.
      by rewrite (lookup_app_l_Some _ _ _ _ Hc).
    + intros k i. rewrite Hg. by setoid_rewrite used_at_grow.
  - destruct H6 as [W1 W2 W3 W4]. split; cbn; try done.
    + intros i c Hu. exact (W1 i c (proj1 (used_at_grow _ _ _ _) Hu)).
    + intros fd e He. specialize (W4 fd e He). destruct (ep_data e); [done.. |]. by setoid_rewrite used_at_grow.
  - intros i Hi%H7. rewrite zlen_app. unfold zlen at 2. lia.
  - intros i c Hu. exact (H8 i c (proj1 (used_at_grow _ _ _ _) Hu)).
  - intros i c Hu. exact (H9 i c (proj1 (used_at_grow _ _ _ _) Hu)).
  - intros Hl. destruct (H10 Hl) as (Hc & ?). split; [| done]. cbn. rewrite cnt_app, cnt_replicate. cbn. lia.
  - destruct H11 as [Hq Hm]. split; [done |]. destruct (ro_backend_host _); by setoid_rewrite used_at_grow.
Qed.

(** The slab once the head of the free list is handed out. *)
Lemma slab_pop cs fl hw i c :
  slab cs (i :: fl) hw → cn_used c = true → slab (<[Z.to_nat i := c]> cs) fl (Z.max hw (i + 1)).
Proof.
  intros Hs U. pose proof (slab_free_range _ _ _ i Hs ltac:(by left)) as Hi. destruct Hs as [H1 (rel & E & H2) H3 H4].
  apply NoDup_cons in H3 as [Hn H3]. split; rewrite ?zlen_put; [| | done |].
  - lia.
  - destruct rel as [|j rel].
    + cbn in E. destruct (Z.lt_ge_cases hw (zlen cs)); [| rewrite seqZ_nil in E by lia; done].
      rewrite seqZ_cons in E by lia. injection E as -> ->. exists []. split; [cbn; f_equal; lia |].
      intros k Hk. by apply elem_of_nil in Hk.
    + cbn in E. injection E as -> ->. assert (0 ≤ j < hw) by (apply H2; by left).
      exists rel. split; [f_equal; f_equal; lia |]. intros k Hk. assert (0 ≤ k < hw) by (apply H2; by right). lia.
  - intros j d Hj Hd. apply list_lookup_insert_Some in Hd as [(Ej & <- & _)|[Hne Hd]].
    + assert (j = i) as -> by lia. by rewrite U.
    + rewrite (H4 j d Hj Hd), not_elem_of_cons. split; [by intros [_ ?] |]. intros ?. split; [lia | done].
Qed.

(** Mapping the stream of the new connection. *)
Lemma mapped_new cs t cap hw i fl c k :
  mapped cs t cap → slab cs (i :: fl) hw → cn_used c = true → cn_sid c = k →
  (∀ j d, used_at cs j d → cn_sid d ≠ k) →
  ∃ g, sid_rep (<[Z.to_nat i := c]> cs) t cap g ∧ g !! k = None ∧ sid_of (<[Z.to_nat i := c]> cs) (i + 1) = Some k ∧
    (∀ k' j, g !! k' = Some j → 0 ≤ j < hw ∧ j ≠ i) ∧
    ∀ t' cap', sid_rep (<[Z.to_nat i := c]> cs) t' cap' (<[k := i]> g) → mapped (<[Z.to_nat i := c]> cs) t' cap'.
Proof.
  intros (g & Hr & Hg) Hs U Ek Hnew. pose proof (slab_free_range _ _ _ i Hs ltac:(by left)) as Hi.
  assert (∀ d, ¬ used_at cs i d) as Hni.
  { intros d (H0 & Hd & Ud). apply (sl_used _ _ _ Hs i d H0 Hd) in Ud. apply Ud. by left. }
  assert (g !! k = None) as Hk by (apply eq_None_ne_Some; intros j (d & Hd & E)%Hg; by apply (Hnew j d)).
  exists g. split_and!; [| done | | |].
  - eapply sid_rep_conns; [exact Hr |]. intros k' j (d & Hd & _)%Hg. unfold sid_of. replace (j + 1 - 1) with j by lia.
    rewrite list_lookup_insert_ne; [done |]. intros E. apply (Hni d). destruct Hd as (? & ?). by assert (i = j) as -> by lia.
  - unfold sid_of. replace (i + 1 - 1) with i by lia. rewrite lookup_put by done. cbn. by rewrite Ek.
  - intros k' j (d & Hd & _)%Hg. split; [by eapply slab_below | intros ->; by eapply Hni].
  - intros t' cap' Hr'. exists (<[k := i]> g). split; [done |]. intros k' j. rewrite lookup_insert_Some, Hg. split.
    + intros [[<- <-]|[Hne (d & Hd & E)]].
      * exists c. rewrite used_at_put by done. split; [by left | done].
      * exists d. rewrite used_at_put by done. split; [right; split; [intros ->; by eapply Hni | done] | done].
    + intros (d & [(-> & -> & _)|[Hne Hd]]%used_at_put & E); [left; split; congruence | | done].
      right. split; [intros ->; by apply (Hnew j d) | by exists d].
Qed.

(** The relay once the connection [i] is made. *)
Record connected (i : Z) (c : conn) (fl : list Z) (r r' : relay) : Prop := {
  cd_conns : r_conns r' = <[Z.to_nat i := c]> (r_conns r);
  cd_free : r_freelist r' = fl;
  cd_loop : r_loop r' = <[cn_sock c := watch (conn_desired c).1 (conn_desired c).2 (UD_CONN i)]> (r_loop r);
  cd_same : (r_heap r', r_dangling r', r_opt r', r_tunnel_fd r', r_dirty r', r_log r', r_recv r') =
            (r_heap r, r_dangling r, r_opt r, r_tunnel_fd r, r_dirty r, r_log r, r_recv r);
  cd_interest : (r_tun_r r', r_tun_w r', r_listen_paused r') = (r_tun_r r, r_tun_w r, r_listen_paused r);
}.

Lemma rinv_connected r r' i fl c :
  rinv None 0 r → r_freelist r = i :: fl → connected i c fl r r' →
  cn_used c = true → cn_in_dirty c = false → asked c → 0 ≤ cn_sock c → r_loop r !! cn_sock c = None →
  (∃ hw, slab (r_conns r) (i :: fl) hw ∧ sidcap (Z.max hw (i + 1)) (r_sidmap_cap r')) →
  mapped (<[Z.to_nat i := c]> (r_conns r)) (r_sidmap r') (r_sidmap_cap r') →
  fresh_sids (r_opt r) (<[Z.to_nat i := c]> (r_conns r)) (r_mux r') → counted 0 r' →
  rinv None 0 r'.
Proof.
  intros [H1 H2 H3 _ H5 H6 H7 H8 H9 H10 H11 H12] Hf [R1 R2 R3 R6 R7] U Hd Ha Hs Hfd (hw & H4 & Hcap) Hmap Hsid Hcnt.
  injection R6 as E1 E2 E3 E4 E5 E6 E7. injection R7 as E9 E10 E11.
  pose proof (slab_free_range _ _ _ i H4 ltac:(by left)) as Hi.
  assert (∀ d, ¬ used_at (r_conns r) i d) as Hni.
  { intros d (H0 & Hdd & Ud). apply (sl_used _ _ _ H4 i d H0 Hdd) in Ud. apply Ud. by left. }
  split; rewrite ?R1, ?R2, ?R3, ?E1, ?E2, ?E3, ?E5, ?E6, ?E7; try done.
  - exists (Z.max hw (i + 1)). split; [by apply slab_pop | done].
  - destruct H6 as [W1 W2 W3 W4]. split; rewrite ?R1, ?R3, ?E3, ?E4, ?E9, ?E10, ?E11.
    + intros j e [(-> & -> & _)|[Hne He]]%used_at_put; [| | done].
      * split; [done |]. exists (conn_desired c).1, (conn_desired c).2. destruct Ha. by rewrite lookup_insert_eq.
      * destruct (W1 j e He) as (? & wr & ww & ? & ? & E). split; [done |]. exists wr, ww.
        rewrite lookup_insert_ne; [done |]. intros Es. rewrite <- Es, Hfd in E. done.
    + destruct W2 as (wr & ww & ? & ? & E). exists wr, ww. rewrite lookup_insert_ne; [done |].
      intros Es. rewrite <- Es, Hfd in E. done.
    + intros Hl. specialize (W3 Hl). rewrite lookup_insert_ne; [done |]. intros Es. rewrite <- Es, Hfd in W3. done.
    + intros fd e [[<- <-]|[_ He]]%lookup_insert_Some.
      * cbn. exists c. rewrite used_at_put by done. split; [by left | done].
      * specialize (W4 fd e He). destruct (ep_data e) as [| |j]; [done.. |]. destruct W4 as (x & Hx & E). exists x.
        rewrite used_at_put by done. split; [| done]. right. split; [intros ->; by eapply Hni | done].
  - intros j Hj. rewrite zlen_put. by apply H7.
  - intros j e [(-> & -> & _)|[_ He]]%used_at_put; [congruence | by apply H8 | done].
  - intros j e [(-> & -> & _)|[_ He]]%used_at_put Hde; [right; by left | by apply H9 | done].
Qed.
