(* ===== verification/RelaySteps.v ===== *)
(** Every operation of the relay on connections has a defined outcome and keeps
    the invariant of RelayInv. *)

From stdpp Require Import base list numbers gmap.
From Stdlib Require Import ZArith Lia.
From S2P Require Import Prelude Frame OutBuf EventQueue Probe StreamTable Session SessionIO Handshake Recv SessionOpens Auth Host Fifo Umap EvLoop Relay SidMap RelayInv.

(** ** Access *)

Lemma wp_conn_at r i c (Q : conn → relay → Prop) :
  r_dangling r = false → 0 ≤ i → r_conns r !! Z.to_nat i = Some c → Q c r → wp (conn_at i) Q r.
Proof. intros Hd Hi Hc HQ. unfold wp, conn_at. rewrite Hd. destruct (Z.ltb_spec i 0); [lia |]. cbn. by rewrite Hc. Qed.

Lemma wp_conn_used o d r i c (Q : conn → relay → Prop) :
  rinv o d r → used_at (r_conns r) i c → Q c r → wp (conn_at i) Q r.
Proof. intros H (Hi & Hc & _) HQ. eapply wp_conn_at; [apply H | done | done | done]. Qed.

Lemma wp_conn_upd o d r i c f (Q : unit → relay → Prop) :
  rinv o d r → used_at (r_conns r) i c → Q tt (put_conn i (f c) r) → wp (conn_upd i f) Q r.
Proof. intros H Hu HQ. unfold conn_upd. wp1. eapply wp_conn_used; [done | done |]. by apply wp_modify. Qed.

(** A call on the session that reports at most its own failure. *)
Lemma wp_mux {A} o d r (f : mux_session → A * mux_session) (Q : A → relay → Prop) :
  rinv o d r → hush (r_mux r) (f (r_mux r)).2 →
  (∀ r', r' = r <| r_mux := (f (r_mux r)).2 |> → rinv o d r' → within r r' → Q (f (r_mux r)).1 r') →
  wp (mux f) Q r.
Proof.
  intros H Hh HQ. unfold wp, mux. destruct (f (r_mux r)) as [a s] eqn:E. apply (HQ _ eq_refl).
  - eapply rinv_mux; [done | by apply hush_opens].
  - split; [exact Hh | done..].
Qed.

Lemma wp_malloc r (Q : bool → relay → Prop) : r_heap r = [] → Q true r → wp malloc Q r.
Proof.
  intros Hh HQ. unfold wp, malloc. rewrite Hh. cbn. assert (r <| r_heap := [] |> = r) as ->; [| done].
  destruct r. cbn in *. by subst.
Qed.

(** Only a descriptor that is no connection's is closed this way. *)
Lemma wp_log_effect o d r e (Q : unit → relay → Prop) :
  rinv o d r → match e with SOCK_CLOSED fd => r_loop r !! fd = None | _ => True end →
  (∀ r', rinv o d r' → within r r' → r_conns r' = r_conns r → e ∈ r_log r' → Q tt r') → wp (log_effect e) Q r.
Proof.
  intros H He HQ. unfold log_effect. wps.
  assert (∀ x, x ∈ r_log r → x ∈ r_log r ++ [e]) as Hl by (intros x ?; apply elem_of_app; by left).
  apply HQ; [| by split | done | cbn; apply elem_of_app; right; by left].
  eapply rinv_inside; [exact H | same_inside | | apply H | apply H]. cbn. intros i c Hu Hf.
  rewrite failing_app, Hf. destruct e as [|f| |f|]; try done; cbn; [by rewrite orb_true_r |].
  destruct (Z.eqb_spec f (cn_sock c)) as [->|]; [| done].
  destruct (wa_conn _ (ri_loop _ _ _ H) i c Hu) as (_ & ? & ? & _ & _ & E). congruence.
Qed.

(** ** Dirty marks *)

Lemma mark_in_dirty c : cn_in_dirty c = true → c <| cn_in_dirty := true |> = c.
Proof. destruct c. cbn. by intros ->. Qed.

Lemma rinv_mark d r i c l n :
  rinv (Some i) d r → used_at (r_conns r) i c → l = r_dirty r ++ [i] →
  rinv None d (put_conn i (c <| cn_in_dirty := true |>) r <| r_dirty := l |> <| r_dirty_cap := n |>).
Proof.
  intros [H1 H2 H3 (hw & H4 & H4') H5 H6 H7 H8 H9 H10 H11 H12] Hu ->.
  pose proof (used_at_range _ _ _ Hu) as Hi. pose proof Hu as (H0 & Hc & U).
  split; cbn; try done.
  - exists hw. split; [by eapply slab_put | done].
  - by eapply mapped_put.
  - by apply (watched_put r _ i c (c <| cn_in_dirty := true |>)).
  - intros j. rewrite zlen_put, elem_of_app, list_elem_of_singleton. intros [?| ->]; [by apply H7 | done].
  - intros j e He Hd. rewrite elem_of_app, list_elem_of_singleton.
    apply used_at_put in He as [(-> & -> & _)|[_ He]]; [by right | left; by eapply H8 | done].
  - intros j e [(-> & -> & _)|[Hne He]]%used_at_put Hd; [done | | done].
    destruct (H9 j e He Hd) as [[= ->]|?]; [done | by right].
  - intros Hl. destruct (H10 Hl) as (Hn & ?). split; [| done]. cbn. rewrite (cnt_put _ _ c) by done. cbn. rewrite U. lia.
  - by eapply fresh_sids_put.
Qed.

Lemma wp_mark_dirty d r i c (Q : unit → relay → Prop) :
  rinv (Some i) d r → used_at (r_conns r) i c →
  (∀ r', rinv None d r' → r_mux r' = r_mux r → within r r' →
     used_at (r_conns r') i (c <| cn_in_dirty := true |>) → Q tt r') →
  wp (mark_dirty i) Q r.
Proof.
  intros H Hu HQ. unfold mark_dirty. wp1. eapply wp_conn_used; [done | done |].
  destruct (cn_in_dirty c) eqn:Hd.
  { wps. apply HQ; [| done | reflexivity | by rewrite mark_in_dirty]. eapply rinv_close; [done | done | congruence]. }
  wp1. apply wp_modify. wps. unfold id. fold (put_conn i (c <| cn_in_dirty := true |>) r).
  set (r1 := put_conn i _ r).
  assert (∀ n, Q tt (r1 <| r_dirty := r_dirty r1 ++ [i] |> <| r_dirty_cap := n |>)) as HQ1.
  { intros n. apply HQ; [by apply rinv_mark | done | in_place | by eapply used_put, (proj2 (proj2 Hu))]. }
  destruct (_ >=? _).
  - wp1. eapply wp_malloc; [apply H |]. wps. cbn [negb]. wps.
    match goal with |- Q tt ?r' => assert (r' = r1 <| r_dirty := r_dirty r1 ++ [i] |> <| r_dirty_cap := r_dirty_cap r' |>) as -> end; [| apply HQ1].
    by destruct r.
  - wps. cbn [negb]. wps. match goal with |- Q tt ?r' => assert (r' = r1 <| r_dirty := r_dirty r1 ++ [i] |> <| r_dirty_cap := r_dirty_cap r' |>) as -> end; [| apply HQ1].
    by destruct r.
Qed.

(** ** The sid map *)

(** [sidmap_get] answers the connection of the stream, or -1. *)
Lemma wp_sidmap_get o d r sid (Q : Z → relay → Prop) :
  rinv o d r →
  (∀ i c, used_at (r_conns r) i c → cn_sid c = sid → Q i r) →
  ((∀ i c, used_at (r_conns r) i c → cn_sid c ≠ sid) → Q (-1) r) →
  wp (sidmap_get sid) Q r.
Proof.
  intros H HQ HN. destruct (ri_map _ _ _ H) as (g & Hr & Hg). unfold wp, sidmap_get.
  destruct (Z.eqb_spec (r_sidmap_cap r) 0) as [E|E].
  { apply HN. intros i c Hu Es. rewrite E in Hr. destruct Hr as (s & _ & Hw & Hgs).
    destruct (uw_empty _ Hw eq_refl) as [E0 _]. cbn in E0. subst s. assert (g !! sid = Some i) as Hi by (apply Hg; by exists c).
    apply Hgs in Hi as (j & e & Hj & _). by destruct j. }
  rewrite (ri_dang _ _ _ H). cbv zeta. rewrite (sid_lookup_spec _ _ _ g); [| done | done |].
  2:{ intros k i (c & (_ & Hc & U) & _)%Hg. by exists c. }
  cbn. destruct (g !! sid) as [i|] eqn:Hk; cbn.
  - apply Hg in Hk as (c & Hu & Es). by eapply HQ.
  - apply HN. intros i c Hu Es. assert (g !! sid = Some i) by (apply Hg; by exists c). congruence.
Qed.

(** ** Interest *)

Lemma loop_set_eq fd wr ww ud (Q : unit → relay → Prop) r :
  Q tt (r <| r_loop ::= <[fd := watch wr ww ud]> |>) → wp (loop_set fd wr ww ud) Q r.
Proof.
  intros HQ. unfold loop_set. apply wp_modify. unfold upd, upd_r_loop. by rewrite evloop_set_eq.
Qed.

Lemma b2z_inj a b : b2z a = b2z b → a = b.
Proof. by destruct a, b. Qed.

(** The state after registering what [c] asks for. *)
Definition apply_one (i : Z) (c : conn) (r : relay) : relay :=
  put_conn i (c <| cn_cur_r := b2z (conn_desired c).1 |> <| cn_cur_w := b2z (conn_desired c).2 |>) r
    <| r_loop ::= <[cn_sock c := watch (conn_desired c).1 (conn_desired c).2 (UD_CONN i)]> |>.

Lemma watched_apply r i c :
  watched r → used_at (r_conns r) i c → watched (apply_one i c r).
Proof.
  intros [W1 W2 W3 W4] Hu. pose proof (used_at_range _ _ _ Hu) as Hi.
  destruct (W1 i c Hu) as (Hs & wr & ww & _ & _ & Hw).
  assert (r_tunnel_fd r ≠ cn_sock c) as Nt.
  { destruct W2 as (? & ? & _ & _ & E). intros Et. rewrite Et, Hw in E. done. }
  split; cbn.
  - intros j e [(-> & -> & _)|[Hne He]]%used_at_put; [| | done].
    + split; [done |]. exists (conn_desired c).1, (conn_desired c).2. cbn. by rewrite lookup_insert_eq.
    + destruct (W1 j e He) as (? & wr' & ww' & ? & ? & E). split; [done |]. exists wr', ww'.
      rewrite lookup_insert_ne; [done |]. intros Es. rewrite <- Es, Hw in E. by injection E.
  - destruct W2 as (wr' & ww' & ? & ? & E). exists wr', ww'. by rewrite lookup_insert_ne.
  - intros Hl. specialize (W3 Hl). rewrite lookup_insert_ne; [done |]. intros Es. rewrite <- Es, Hw in W3. done.
  - intros fd e [[<- <-]|[_ He]]%lookup_insert_Some.
    + cbn. eexists. split; [apply used_at_put; [done |]; by left; split_and!; [.. | apply Hu] | done].
    + specialize (W4 fd e He). destruct (ep_data e) as [| |j]; [done.. |].
      destruct W4 as (x & Hx & E). destruct (decide (j = i)) as [->|Hne].
      * eexists. split; [apply used_at_put; [done |]; left; split_and!; [done | done | apply Hu] |].
        pose proof (used_at_eq _ _ _ _ Hu Hx) as ->. done.
      * exists x. rewrite used_at_put by done. split; [by right | done].
Qed.

Lemma desired_cur c r w : conn_desired (c <| cn_cur_r := r |> <| cn_cur_w := w |>) = conn_desired c.
Proof. done. Qed.

Lemma rinv_apply d r i c :
  rinv (Some i) d r → used_at (r_conns r) i c → rinv None d (apply_one i c r).
Proof.
  intros [H1 H2 H3 (hw & H4 & H4') H5 H6 H7 H8 H9 H10 H11 H12] Hu.
  pose proof (used_at_range _ _ _ Hu) as Hi. pose proof Hu as (H0 & Hc & U). split.
  1, 2, 3, 12: done.
  - exists hw. split; [by eapply slab_put | done].
  - by eapply mapped_put.
  - by apply watched_apply.
  - intros j Hj. cbn. rewrite zlen_put. by apply H7.
  - cbn. intros j e [(-> & -> & _)|[_ He]]%used_at_put; [by apply (H8 i c) | by apply H8 | done].
  - cbn. intros j e [(-> & -> & _)|[Hne He]]%used_at_put Hd; [right; left; done | | done].
    destruct (H9 j e He Hd) as [[= ->]|?]; [done | by right].
  - intros Hl. destruct (H10 Hl) as (Hn & ?). split; [| done]. cbn. rewrite (cnt_put _ _ c) by done. cbn. rewrite U. lia.
  - by eapply fresh_sids_put.
Qed.

(** A connection gets the interest it asks for. *)
Lemma wp_conn_apply_interest d r i c (Q : unit → relay → Prop) :
  rinv (Some i) d r → used_at (r_conns r) i c →
  (∀ r' c', rinv None d r' → r_mux r' = r_mux r → within r r' → r_conns r' = <[Z.to_nat i := c']> (r_conns r) →
     r_dirty r' = r_dirty r → asked c' → cn_in_dirty c' = cn_in_dirty c → cn_used c' = true → Q tt r') →
  wp (conn_apply_interest i) Q r.
Proof.
  intros H Hu HQ. pose proof Hu as (H0 & Hc & U). unfold conn_apply_interest. wp1. eapply wp_conn_used; [done | done |].
  destruct (wa_conn _ (ri_loop _ _ _ H) i c Hu) as (Hs & wr' & ww' & Er & Ew & _).
  rewrite U. cbn [negb orb]. destruct (Z.ltb_spec (cn_sock c) 0); [lia |].
  pose proof (rinv_apply d r i c H Hu) as Ha. destruct (conn_desired c) as [wr ww] eqn:Ed.
  destruct (Z.eqb_spec (b2z wr) (cn_cur_r c)) as [E1|]; [destruct (Z.eqb_spec (b2z ww) (cn_cur_w c)) as [E2|] |]; cbn [andb].
  { wps. assert (asked c) as Has by (split; rewrite Ed; done). eapply (HQ r c); try done; [| by rewrite list_insert_id].
    eapply rinv_close; [done | done |]. intros _. by left. }
  all: wp1; apply wp_modify; apply loop_set_eq.
  all: unfold apply_one in Ha; rewrite Ed in Ha; eapply HQ; [exact Ha | done | in_place | cbn; reflexivity | done
         | split; cbn; by rewrite ?desired_cur, ?Ed | done | done].
Qed.

(** [flush_dirty]: what was marked is registered, and nothing stays marked. *)
Lemma wp_apply_loop d l r (Q : unit → relay → Prop) :
  rinv None d r → (∀ i, i ∈ l → i ∈ r_dirty r) →
  (∀ i c, used_at (r_conns r) i c → cn_in_dirty c = true → i ∈ l) →
  (∀ r', rinv None d r' → r_mux r' = r_mux r → within r r' →
     (∀ i c, used_at (r_conns r') i c → cn_in_dirty c = false) → Q tt r') →
  wp (flush_loop l) Q r.
Proof.
  revert r. induction l as [|i l IH]; intros r H Hl Hm HQ; cbn [flush_loop].
  { apply wp_ret, HQ; [done | done | reflexivity |]. intros i c Hu. destruct (cn_in_dirty c) eqn:E; [| done].
    by apply (Hm i c Hu), elem_of_nil in E. }
  pose proof (ri_dirty _ _ _ H i (Hl i ltac:(by left))) as Hi.
  destruct (lookup_lt_is_Some_2 (r_conns r) (Z.to_nat i)) as [c Hc]; [unfold zlen in Hi; lia |].
  wp1. eapply wp_conn_at; [apply H | lia | done |]. wp1. apply wp_when.
  - intros [U Hd]%andb_prop. assert (used_at (r_conns r) i c) as Hu by (split_and!; [lia | done | done]).
    wp1. apply wp_modify. fold (put_conn i (c <| cn_in_dirty := false |>) r).
    set (r1 := put_conn i _ r). assert (used_at (r_conns r1) i (c <| cn_in_dirty := false |>)) as Hu1 by by eapply used_put.
    assert (rinv (Some i) d r1) as H1.
    { destruct H as [G1 G2 G3 (hw & G4 & G4') G5 G6 G7 G8 G9 G10 G11 G12]. split; try done.
      - exists hw. split; [by eapply slab_put | done].
      - by eapply mapped_put.
      - by apply (watched_put r _ i c (c <| cn_in_dirty := false |>)).
      - intros j Hj. cbn. rewrite zlen_put. by apply G7.
      - cbn. intros j e [(-> & -> & _)|[_ He]]%used_at_put; [done | by apply G8 | done].
      - cbn. intros j e [(-> & -> & _)|[_ He]]%used_at_put Hd'; [by left | | done].
        destruct (G9 j e He Hd') as [?|?]; [done | by right].
      - intros Hl'. destruct (G10 Hl') as (Hn & ?). split; [| done]. cbn. rewrite (cnt_put _ _ c) by (done || lia). cbn. rewrite U. lia.
      - by eapply fresh_sids_put. }
    eapply wp_conn_apply_interest; [exact H1 | exact Hu1 |].
    intros r2 c2 H2 Em Hw Ec El Ha Hd2 U2. eapply IH; [exact H2 | | |].
    + intros j Hj. rewrite El. apply Hl. by right.
    + intros j e He Hde. rewrite Ec in He. cbn in He. apply used_at_put in He as [(-> & -> & _)|[Hne He]].
      * cbn in Hd2. congruence.
      * apply used_at_put in He as [(-> & _)|[_ He]]; [done | | done].
        specialize (Hm j e He Hde). apply elem_of_cons in Hm as [|]; [done | done].
      * cbn. by rewrite zlen_put.
    + intros r3 H3 E3 W3 D3. apply HQ; [done | by rewrite E3, Em | etrans; [apply (within_put r i) | by etrans; [exact Hw |]] | done].
  - intros Hb. apply IH; [done | intros j Hj; apply Hl; by right | | done].
    intros j e He Hde. specialize (Hm j e He Hde). apply elem_of_cons in Hm as [->|]; [| done].
    destruct He as (_ & He & U). rewrite Hc in He. injection He as ->. by rewrite U, Hde in Hb.
Qed.

Lemma wp_flush_dirty d r (Q : unit → relay → Prop) :
  rinv None d r →
  (∀ r', rinv None d r' → r_mux r' = r_mux r → within r r' →
     (∀ i c, used_at (r_conns r') i c → interest_ok (r_log r') c) → Q tt r') →
  wp flush_dirty Q r.
Proof.
  intros H HQ. unfold flush_dirty. wps. eapply wp_apply_loop; [exact H | done | by apply H |].
  intros r1 H1 E1 W1 D1. wps.
  assert (∀ i c, used_at (r_conns r1) i c → interest_ok (r_log r1) c) as Hs.
  { intros i c Hu. by destruct (ri_settled _ _ _ H1 i c Hu (D1 i c Hu)). }
  apply HQ; [| done | etrans; [exact W1 |]; by split | exact Hs].
  destruct H1 as [G1 G2 G3 G4 G5 [] G7 G8 G9 G10 G11 G12]. split; try done; cbn.
  - intros i Hi. by apply elem_of_nil in Hi.
  - intros i c Hu Hd. by rewrite (D1 i c Hu) in Hd.
Qed.

(** ** Destroying a connection *)

Lemma cnt_used_pos cs i c : used_at cs i c → 0 < cnt cn_used cs.
Proof.
  intros (_ & Hc & U). destruct (Z.le_gt_cases (cnt cn_used cs) 0) as [Hle|]; [| lia].
  pose proof (cnt_nonneg cn_used cs). assert (cn_used c = false) by (by apply (cnt_0 cn_used cs (Z.to_nat i)); [lia |]).
  congruence.
Qed.

Lemma wp_slot_freed r (Q : unit → relay → Prop) :
  rinv None 1 r → (∀ r', rinv None 0 r' → r_mux r' = r_mux r → within r r' → r_conns r' = r_conns r → Q tt r') →
  wp slot_freed Q r.
Proof.
  intros H HQ. unfold slot_freed. wps. unfold id. apply wp_when.
  - intros Hl%Z.geb_le. wps. unfold id.
    destruct (ri_count _ _ _ H Hl) as (Hn & Hm & Hp). pose proof (cnt_nonneg cn_used (r_conns r)).
    set (r1 := r <| r_nactive ::= _ |>).
    assert (r_nactive r1 = r_nactive r - 1) as E1 by (cbn; destruct (Z.gtb_spec (r_nactive r) 0); lia).
    apply wp_when.
    + intros [Hpa Hmax]%andb_prop. wp1. apply loop_set_eq. wps.
      apply HQ; [| done | by split | done]. destruct H as [G1 G2 G3 G4 G5 [W1 W2 W3 W4] G7 G8 G9 G10 G11 G12].
      split; try done; cbn.
      * split; cbn.
        -- intros i c Hu. destruct (W1 i c Hu) as (? & wr & ww & ? & ? & E). split; [done |]. exists wr, ww.
           rewrite lookup_insert_ne; [done |]. intros Es. rewrite <- Es, W3 in E by done. done.
        -- destruct W2 as (wr & ww & ? & ? & E). exists wr, ww. rewrite lookup_insert_ne; [done |].
           intros Es. rewrite <- Es, W3 in E by done. done.
        -- intros _. by rewrite lookup_insert_eq.
        -- intros fd e [[<- <-]|[_ He]]%lookup_insert_Some; [done | by apply W4].
      * intros _. cbn. cbn in E1. split; [lia |]. split; [intros Hpos; specialize (Hm Hpos); split; [lia | done] | done].
    + intros Hb. apply HQ; [| done | by split | done].
      destruct H as [G1 G2 G3 G4 G5 [] G7 G8 G9 G10 G11 G12]. split; try done.
      intros _. rewrite E1. cbn. split; [lia |]. split; [| done]. intros Hpos. destruct (Hm Hpos) as [Hle Hpe].
      split; [lia |]. intros Hpa. specialize (Hpe Hpa). change (r_listen_paused r1) with (r_listen_paused r) in Hb. rewrite Hpa in Hb. cbn in Hb. apply orb_false_iff in Hb as [_ Hb].
      apply Z.ltb_ge in Hb. cbn in E1, Hb. lia.
  - intros Hl. rewrite Z.geb_leb in Hl. apply Z.leb_gt in Hl. apply HQ; [| done | reflexivity | done]. destruct H. split; try done.
    intros Hl'. exfalso. lia.
Qed.

(** [conn_destroy] unregisters, unmaps and frees the connection. *)
Lemma wp_conn_destroy r i c (Q : unit → relay → Prop) :
  rinv (Some i) 0 r → used_at (r_conns r) i c →
  (∀ r', rinv None 0 r' → r_mux r' = r_mux r → within r r' →
     (∀ j d, used_at (r_conns r') j d ↔ j ≠ i ∧ used_at (r_conns r) j d) → SOCK_CLOSED (cn_sock c) ∈ r_log r' →
     Q tt r') →
  wp (conn_destroy i) Q r.
Proof.
  intros H Hu HQ. pose proof Hu as (H0 & Hc & U). pose proof (used_at_range _ _ _ Hu) as Hi.
  unfold conn_destroy. wp1. eapply wp_conn_used; [done | done |].
  rewrite U. cbn [negb]. destruct (wa_conn _ (ri_loop _ _ _ H) i c Hu) as (Hs & _).
  set (c2 := c <| cn_s2m := buf_zero |> <| cn_m2s := buf_zero |> <| cn_in_dirty := false |> <| cn_used := false |>).
  destruct (rinv_released r i c c2 H Hu eq_refl) as (t & Et & Hr).
  wp1. destruct (Z.geb_spec (cn_sock c) 0); [| lia]. cbn [when_]. unfold loop_del, log_effect. wps.
  unfold sidmap_del at 1, wp at 1. cbn. rewrite (ri_dang _ _ _ H), Et.
  set (r1 := upd r_sidmap _ _).
  assert (r_dangling r1 = false) as Hd1 by apply H. assert (r_conns r1 = r_conns r) as Ec1 by done.
  unfold conn_release, conn_upd, conn_set. wps. eapply wp_conn_at; [done | done | by rewrite Ec1 |]. wps.
  eapply wp_conn_at; [done | done | cbn; by apply lookup_put |]. wps.
  match goal with |- wp slot_freed _ ?x => assert (released i c c2 t r x) as Hre end.
  { split; try reflexivity; cbn; [by rewrite list_insert_insert_eq | by rewrite evloop_del_eq]. }
  eapply wp_slot_freed; [by apply Hr |]. intros r2 H2 E2 W2 C2. apply HQ; [done | done | | |].
  - etrans; [| exact W2]. split; [reflexivity | done | done | | cbn; by rewrite !zlen_put].
    intros e ?. cbn. apply elem_of_app. by left.
  - intros j d. rewrite C2, (re_conns _ _ _ _ _ _ Hre), used_at_put by done. split; [intros [(_ & _ & ?)|?]; done | by right].
  - apply (wi_log _ _ W2). rewrite (re_log _ _ _ _ _ _ Hre). apply elem_of_app. right. by left.
Qed.

(** ** Making a connection *)

(** [conn_alloc] hands out the head of the free list, growing the slab first
    when the list is empty. *)
Lemma wp_conn_alloc r (Q : Z → relay → Prop) :
  rinv None 0 r →
  (∀ r1 i fl, rinv None 0 r1 → r_freelist r1 = i :: fl → 0 ≤ i →
     (∀ j d, used_at (r_conns r1) j d ↔ used_at (r_conns r) j d) → zlen (r_conns r) ≤ zlen (r_conns r1) →
     (r_mux r1, r_opt r1, r_loop r1, r_recv r1, r_log r1, r_authed r1, r_nactive r1, r_listen_paused r1, r_tunnel_fd r1) =
     (r_mux r, r_opt r, r_loop r, r_recv r, r_log r, r_authed r, r_nactive r, r_listen_paused r, r_tunnel_fd r) →
     Q i (put_conn i conn_fresh (r1 <| r_freelist := fl |>))) →
  wp conn_alloc Q r.
Proof.
  intros H HQ. unfold conn_alloc.
  assert (∀ r1 i fl, rinv None 0 r1 → r_freelist r1 = i :: fl →
     (∀ j d, used_at (r_conns r1) j d ↔ used_at (r_conns r) j d) → zlen (r_conns r) ≤ zlen (r_conns r1) →
     (r_mux r1, r_opt r1, r_loop r1, r_recv r1, r_log r1, r_authed r1, r_nactive r1, r_listen_paused r1, r_tunnel_fd r1) =
     (r_mux r, r_opt r, r_loop r, r_recv r, r_log r, r_authed r, r_nactive r, r_listen_paused r, r_tunnel_fd r) →
     wp (r ← gets id; match r_freelist r with [] => undef | idx :: fl =>
         modify (fun r => r <| r_freelist := fl |>);; conn_at idx;; conn_set idx conn_fresh;; mret idx end) Q r1) as Hpop.
  { intros r1 i fl H1 Ef Hu Hz Es. wps. unfold id. rewrite Ef. wps. destruct (ri_slab _ _ _ H1) as (hw & Hs & _). rewrite Ef in Hs.
    pose proof (slab_free_range _ _ _ i Hs ltac:(by left)) as Hi.
    destruct (lookup_lt_is_Some_2 (r_conns r1) (Z.to_nat i)) as [c Hc]; [unfold zlen in Hi; lia |].
    eapply wp_conn_at; [apply H1 | lia | exact Hc |]. unfold conn_set. wps. apply HQ; [done | done | lia | done | done | done]. }
  wps. unfold id at 1 2. destruct (r_freelist r) as [|i fl] eqn:Ef; cbn [bool_decide decide].
  - rewrite bool_decide_true by done. unfold conns_grow. wps. unfold id.
    eapply wp_malloc; [apply H |]. cbn [negb]. wps. eapply wp_malloc; [apply H |]. cbn [negb]. wps. cbn [negb].
    pose proof (zlen_nonneg (r_conns r)).
    set (n := (if negb (zlen (r_conns r) =? 0) then zlen (r_conns r) * 2 else 64) - zlen (r_conns r)).
    assert (0 < n) as Hn by (unfold n; destruct (Z.eqb_spec (zlen (r_conns r)) 0); cbn; lia).
    eapply Hpop; [apply rinv_grow; [done | done | lia] | | | | done].
    + cbn. rewrite Ef, app_nil_r. rewrite seqZ_cons by lia. reflexivity.
    + intros j d. apply used_at_grow.
    + cbn. rewrite zlen_app. pose proof (zlen_nonneg (replicate (Z.to_nat n) conn_zero)). lia.
  - rewrite bool_decide_false by done. wps. cbn [negb]. by apply (Hpop r i fl).
Qed.

(** [sidmap_set] on the table of the connections before. *)
Lemma wp_sidmap_set r g hw i k (Q : unit → relay → Prop) :
  r_heap r = [] → sid_rep (r_conns r) (r_sidmap r) (r_sidmap_cap r) g → sidcap hw (r_sidmap_cap r) →
  g !! k = None → sid_of (r_conns r) (i + 1) = Some k → 0 ≤ i ≤ hw → (∀ k' j, g !! k' = Some j → 0 ≤ j < hw ∧ j ≠ i) →
  (∀ t cap, sid_rep (r_conns r) t cap (<[k := i]> g) → sidcap (Z.max hw (i + 1)) cap →
     Q tt (r <| r_sidmap := t |> <| r_sidmap_cap := cap |>)) →
  wp (sidmap_set k i) Q r.
Proof.
  intros Hh Hr Hcap Hk Hsid Hi Hg HQ. unfold sidmap_set. wps. unfold id at 1 2 3.
  assert (∀ r1 t cap, r_conns r1 = r_conns r → r_sidmap r1 = t → r_sidmap_cap r1 = cap →
     r1 = r <| r_sidmap := t |> <| r_sidmap_cap := cap |> → sid_rep (r_conns r) t cap g → cap ≠ 0 →
     sidcap (Z.max hw (i + 1)) cap →
     wp (r ← gets id; match sid_store (r_sidmap r) (r_sidmap_cap r) k (i + 1) with None => undef
         | Some t => modify (fun r => r <| r_sidmap := t |>) end) Q r1) as Hst.
  { intros r1 t cap Ec Et Ecap Er Hr1 Hne Hc1. wps. unfold id. rewrite Et, Ecap.
    destruct Hc1 as [[? _]|[? ?]]; [done |].
    destruct (sid_store_spec (r_conns r) t cap g k i (Z.max hw (i + 1))) as (t' & -> & Hr'); try done; [lia | |].
    { intros k' j Hj. destruct (Hg k' j Hj). split; [lia | done]. }
    apply wp_modify. rewrite Er. change (Q tt (r <| r_sidmap := t' |> <| r_sidmap_cap := cap |>)). apply HQ; [done | by right]. }
  destruct ((r_sidmap_cap r =? 0) || ((i + 1) * 4 >=? r_sidmap_cap r * 3)) eqn:Eg.
  - destruct (sid_grow_spec _ _ _ _ Hr) as (nm & Em & Ep & Hr'); [destruct Hcap as [[? _]|[? _]]; [by left | by right] |].
    unfold sidmap_grow. wps. unfold id. eapply wp_malloc; [done |]. cbn [negb]. rewrite Ep, Em. wps. cbn [negb].
    apply (Hst _ nm (sid_cap_next (r_sidmap_cap r))); try done; unfold sid_cap_next.
    + destruct (Z.eqb_spec (r_sidmap_cap r) 0); [done | lia].
    + right. destruct (Z.eqb_spec (r_sidmap_cap r) 0), Hcap as [[? ?]|[? ?]]; lia.
  - apply orb_false_iff in Eg as [Ez Eg]. rewrite Z.geb_leb in Eg. apply Z.eqb_neq in Ez. apply Z.leb_gt in Eg.
    wps. cbn [negb]. apply (Hst r (r_sidmap r) (r_sidmap_cap r)); try done; [by destruct r |].
    right. destruct Hcap as [[? _]|[? ?]]; lia.
Qed.

(** A slot handed out gets its fields and its stream is mapped. *)
Lemma wp_name_conn r i fl f k (Q : unit → relay → Prop) :
  rinv None 0 r → r_freelist r = i :: fl → cn_used (f conn_fresh) = true → cn_sid (f conn_fresh) = k →
  (∀ j d, used_at (r_conns r) j d → cn_sid d ≠ k) →
  (∀ r', r_conns r' = <[Z.to_nat i := f conn_fresh]> (r_conns r) → r_freelist r' = fl →
     (r_heap r', r_dangling r', r_opt r', r_tunnel_fd r', r_dirty r', r_log r', r_recv r') =
     (r_heap r, r_dangling r, r_opt r, r_tunnel_fd r, r_dirty r, r_log r, r_recv r) →
     (r_tun_r r', r_tun_w r', r_listen_paused r', r_mux r', r_loop r', r_nactive r', r_authed r') =
     (r_tun_r r, r_tun_w r, r_listen_paused r, r_mux r, r_loop r, r_nactive r, r_authed r) →
     mapped (r_conns r') (r_sidmap r') (r_sidmap_cap r') →
     (∃ hw, slab (r_conns r) (i :: fl) hw ∧ sidcap (Z.max hw (i + 1)) (r_sidmap_cap r')) →
     Q tt r') →
  wp (conn_upd i f;; sidmap_set k i) Q (put_conn i conn_fresh (r <| r_freelist := fl |>)).
Proof.
  intros H Ef U Ek Hnew HQ. destruct (ri_slab _ _ _ H) as (hw & Hs & Hcap). rewrite Ef in Hs.
  pose proof (slab_free_range _ _ _ i Hs ltac:(by left)) as Hi.
  destruct (mapped_new _ _ _ _ _ _ (f conn_fresh) k (ri_map _ _ _ H) Hs U Ek Hnew) as (g & Hr & Hk & Hsid & Hg & Hm).
  assert (0 ≤ i ≤ hw) as Hihw.
  { destruct (sl_free _ _ _ Hs) as ([|j rel] & E & Hrel); cbn in E.
    - destruct (Z.lt_ge_cases hw (zlen (r_conns r))); [| rewrite seqZ_nil in E by lia; done].
      rewrite seqZ_cons in E by lia. injection E as -> _. lia.
    - injection E as -> _. assert (0 ≤ j < hw) by (apply Hrel; by left). lia. }
  wp1. unfold conn_upd, conn_set. wp1. eapply (wp_conn_at _ _ conn_fresh); [apply H | lia | exact (lookup_put (r_conns r) i conn_fresh Hi) |]. wp1.
  set (r1 := upd r_conns _ _).
  assert (r_conns r1 = <[Z.to_nat i := f conn_fresh]> (r_conns r)) as Ec.
  { change (r_conns r1) with (<[Z.to_nat i := f conn_fresh]> (<[Z.to_nat i := conn_fresh]> (r_conns r))).
    by rewrite list_insert_insert_eq. }
  eapply (wp_sidmap_set r1 g hw); rewrite ?Ec; try done; [apply H |].
  intros t cap Hr' Hc'. apply HQ; [exact Ec | done | done | done | | by exists hw].
  change (mapped (r_conns r1) t cap). rewrite Ec. by apply Hm.
Qed.

(** Its interest is registered. *)
Lemma wp_apply_fresh r i c (Q : unit → relay → Prop) :
  r_dangling r = false → 0 ≤ i → r_conns r !! Z.to_nat i = Some c → cn_used c = true → 0 ≤ cn_sock c → cn_cur_r c = -1 →
  Q tt (apply_one i c r) → wp (conn_apply_interest i) Q r.
Proof.
  intros Hd Hi Hc U Hs Hcur HQ. unfold conn_apply_interest. wp1. eapply wp_conn_at; [done.. |].
  rewrite U, Hcur. cbn [negb orb]. destruct (Z.ltb_spec (cn_sock c) 0); [lia |]. unfold apply_one in HQ.
  destruct (conn_desired c) as [wr ww]. assert (b2z wr =? -1 = false) as -> by by destruct wr. cbn [andb].
  unfold conn_set. wps. by apply loop_set_eq.
Qed.

(** ** New sockets *)

Lemma foldr_max_ge l x : x ∈ l → x ≤ foldr Z.max 0 l.
Proof. induction 1; cbn; lia. Qed.

Lemma foldr_max_nonneg l : 0 ≤ foldr Z.max 0 l.
Proof. induction l; cbn; lia. Qed.

(** The kernel gives a descriptor that is not open. *)
Lemma new_fd_free r fd : 0 ≤ new_fd r fd ∧ r_loop r !! new_fd r fd = None.
Proof.
  unfold new_fd. destruct (fd_free r fd) eqn:E.
  - unfold fd_free in E. apply andb_prop in E as [[[E1 E2]%andb_prop _]%andb_prop _].
    apply bool_decide_eq_true in E2. apply Z.leb_le in E1. done.
  - set (l := _ :: _ :: _). pose proof (foldr_max_nonneg l). split; [lia |].
    apply eq_None_ne_Some. intros e He. assert (foldr Z.max 0 l + 1 ∈ l) as Hin.
    { unfold l at 2. do 2 right. apply list_elem_of_fmap. exists (foldr Z.max 0 l + 1, e). split; [done |].
      by apply elem_of_map_to_list. }
    pose proof (foldr_max_ge _ _ Hin). lia.
Qed.

Lemma wp_net_dial o d r (Q : Z → relay → Prop) :
  rinv o d r →
  (∀ fd r', rinv o d r' → within r r' → r_mux r' = r_mux r → r_conns r' = r_conns r → (0 ≤ fd → r_loop r' !! fd = None) → Q fd r') →
  wp net_dial Q r.
Proof.
  intros H HQ. unfold wp, net_dial. destruct (r_dials r) as [|fd ds]; [by apply HQ |].
  apply HQ; [| by split | done | done |].
  - eapply rinv_inside; [exact H | same_inside | done | apply H | apply H].
  - destruct (fd <? 0); [lia |]. intros _. exact (proj2 (new_fd_free r fd)).
Qed.

Lemma fresh_sids_iff o cs cs' x :
  (∀ j d, used_at cs' j d ↔ used_at cs j d) → fresh_sids o cs x → fresh_sids o cs' x.
Proof. intros Hu [Hq Hm]. split; [done |]. destruct (ro_backend_host o); by setoid_rewrite Hu. Qed.

(** A connection to the backend for a stream just opened. *)
Lemma wp_open_backend_conn r k (Q : unit → relay → Prop) :
  rinv None 0 r → ro_backend_host (r_opt r) ≠ None →
  (∀ i c, used_at (r_conns r) i c → cn_sid c < k) → climbs k (opened (events (r_mux r))) (s_max_remote_sid (r_mux r)) →
  (∀ r', rinv None 0 r' → within r r' → Q tt r') →
  wp (open_backend_conn k) Q r.
Proof.
  intros H Hb Hk Hcl HQ. unfold open_backend_conn. wp1. eapply wp_net_dial; [exact H |].
  intros fd r0 H0 W0 Em0 Ec0 Hfd. destruct (Z.ltb_spec fd 0) as [Hneg|Hge].
  { wp1. eapply wp_mux; [exact H0 | apply mux_reset_hush |]. intros r1 _ H1 W1. wps. apply HQ; [done | by etrans]. }
  wp1. eapply wp_conn_alloc; [exact H0 |]. intros r1 i fl H1 Ef Hi Hu Hz Es. injection Es as E1 E2 E3 E4 E5 E6 E7 E8 E9.
  destruct (Z.ltb_spec i 0); [lia |]. apply wp_assoc. wp1.
  eapply (wp_name_conn r1 i fl _ k); try done.
  { intros j d Hd%Hu. rewrite Ec0 in Hd. specialize (Hk j d Hd). lia. }
  intros r2 C2 F2 S2 I2 M2 Cap2. injection S2 as S21 S22 S23 S24 S25 S26 S27. injection I2 as I21 I22 I23 I24 I25 I26 I27.
  set (c := conn_fresh <| cn_sock := fd |> <| cn_sid := k |> <| cn_connecting := true |>) in *.
  destruct (ri_slab _ _ _ H1) as (hw & Hs & _). rewrite Ef in Hs.
  pose proof (slab_free_range _ _ _ i Hs ltac:(by left)) as Hir.
  assert (r_conns r2 !! Z.to_nat i = Some c) as Hc2 by (rewrite C2; by apply lookup_put).
  eapply wp_apply_fresh; [rewrite S22; apply H1 | lia | exact Hc2 | done | done | done |].
  set (c' := c <| cn_cur_r := b2z (conn_desired c).1 |> <| cn_cur_w := b2z (conn_desired c).2 |>).
  assert (r_conns (apply_one i c r2) = <[Z.to_nat i := c']> (r_conns r1)) as Ec
    by (change (r_conns (apply_one i c r2)) with (<[Z.to_nat i := c']> (r_conns r2)); by rewrite C2, list_insert_insert_eq).
  assert (within r0 (apply_one i c r2)) as W2.
  { split; cbn; [by rewrite I24, E1 | congruence | congruence | | rewrite zlen_put, C2, zlen_put; lia].
    intros e. by rewrite S26, E5. }
  apply HQ; [| by etrans]. eapply (rinv_connected r1 _ i fl c'); [exact H1 | exact Ef | | done | done | done | done | | | | |].
  - split; [exact Ec | exact F2 | cbn; by rewrite I25 | cbn; congruence | cbn; congruence].
  - cbn. rewrite E3. by apply Hfd.
  - exact Cap2.
  - rewrite <- Ec. cbn. apply (mapped_put _ _ _ i c); [exact M2 | | done | done]. split_and!; [lia | exact Hc2 | done].
  - destruct (ri_sids _ _ _ H1) as [Hq _]. split; [cbn; by rewrite I24 |]. cbn. rewrite E2, (wi_opt _ _ W0).
    destruct (ro_backend_host (r_opt r)); [| done]. exists k. rewrite I24, E1, Em0. split; [done |].
    intros j d [(-> & -> & _)|[_ Hd%Hu]]%used_at_put; [done | | done]. rewrite Ec0 in Hd. specialize (Hk j d Hd). lia.
  - intros Hl. exfalso. cbn in Hl. rewrite S23, E2, (wi_opt _ _ W0) in Hl. pose proof (ri_mode _ _ _ H) as Hm.
    unfold one_mode in Hm. destruct (ro_backend_host (r_opt r)); [lia | done].
Qed.
