(* ===== verification/RelayIO.v ===== *)
(** The relay's data movement, event handlers, sockets and tunnel have a defined
    outcome and keep the invariant. *)

From stdpp Require Import base list numbers gmap.
From Stdlib Require Import ZArith Lia.
From S2P Require Import Prelude Frame OutBuf EventQueue Probe StreamTable Session SessionIO Handshake Recv SessionOpens Auth Host Fifo Umap EvLoop Relay SidMap RelayInv RelaySteps.

(** ** Towards the sockets *)

Lemma wp_sock_write o d r fd b (Q : write_res → relay → Prop) :
  rinv o d r →
  (∀ w r', rinv o d r' → within r r' → r_mux r' = r_mux r → r_conns r' = r_conns r →
     match w with WROTE n => n ≤ 0 → failing (r_log r') fd = true | WRITE_ERROR => failing (r_log r') fd = true
     | _ => True end → Q w r') →
  wp (sock_write fd b) Q r.
Proof.
  intros H HQ.
  assert (∀ ws e, match e with SOCK_CLOSED _ => False | _ => True end →
    let r' := r <| r_writes := ws |> <| r_log ::= fun k => k ++ [e] |> in rinv o d r' ∧ within r r') as Hl.
  { intros ws e He r'. assert (∀ e', e' ∈ r_log r → e' ∈ r_log r ++ [e]) as Hin by (intros ? ?; apply elem_of_app; by left).
    split; [| by split]. eapply rinv_inside; [exact H | same_inside | | apply H | apply H]. cbn. intros i c Hu Hf.
    rewrite failing_app, Hf. by destruct e; cbn; rewrite ?orb_true_r. }
  assert (∀ ws, failing (r_log (r <| r_writes := ws |> <| r_log ::= fun k => k ++ [SOCK_FAILED fd] |>)) fd = true) as He.
  { intros ws. cbn. rewrite failing_app. cbn. by rewrite Z.eqb_refl. }
  assert (∀ ws, rinv o d (r <| r_writes := ws |>) ∧ within r (r <| r_writes := ws |>)) as Hn.
  { intros ws. split; [| by split]. eapply rinv_inside; [exact H | same_inside | done | apply H | apply H]. }
  unfold wp, sock_write. destruct (r_writes r) as [|[n| |] ws]; [by apply HQ | | |].
  - cbv zeta. destruct (Z.gtb_spec (Z.min n (zlen b)) 0).
    + destruct (Hl ws (SOCK_WROTE fd (ztake (Z.min n (zlen b)) b)) I). apply HQ; [done | done | done | done | lia].
    + destruct (Hl ws (SOCK_FAILED fd) I). apply HQ; [done | done | done | done | intros _; apply He].
  - apply HQ; [apply Hn | apply Hn | done | done | done].
  - destruct (Hl ws (SOCK_FAILED fd) I). apply HQ; [done | done | done | done | apply He].
Qed.

Lemma buf_consume_avail b n : 0 < n → 0 < buf_avail b → buf_avail (buf_consume b n) < buf_avail b.
Proof.
  unfold buf_avail, buf_consume. cbn. intros. destruct (Z.geb_spec (bf_head b + n) (bf_len b)); cbn; lia.
Qed.

(** The loop ends: an iteration that goes on has written a byte.  Only the
    buffer of the connection changes; an error return means a failed write. *)
Lemma wp_to_socket_loop fuel i r c (Q : bool → relay → Prop) :
  rinv (Some i) 0 r → used_at (r_conns r) i c → Z.max 0 (buf_avail (cn_m2s c)) < Z.of_nat fuel →
  (∀ ok r' b, rinv (Some i) 0 r' → within r r' → used_at (r_conns r') i (c <| cn_m2s := b |>) →
     (ok = false → failing (r_log r') (cn_sock c) = true) → Q ok r') →
  wp (to_socket_loop fuel i) Q r.
Proof.
  revert r c. induction fuel as [|fuel IH]; intros r c H Hu Hn HQ; cbn [to_socket_loop]; [lia |].
  assert (∀ c, c <| cn_m2s := cn_m2s c |> = c) as Hid by by intros [].
  wp1. eapply wp_conn_used; [exact H | exact Hu |].
  destruct (Z.gtb_spec (buf_avail (cn_m2s c)) 0) as [Hpos|].
  2:{ wps. apply (HQ true r (cn_m2s c)); [done | reflexivity | by rewrite Hid | done]. }
  wp1. eapply wp_sock_write; [exact H |]. intros w r1 H1 W1 Em Ec Hf. rewrite <- Ec in Hu.
  assert (∀ ok, (ok = false → failing (r_log r1) (cn_sock c) = true) → Q ok r1) as Hstop.
  { intros ok Hok. apply (HQ ok r1 (cn_m2s c)); [done | done | by rewrite Hid | done]. }
  destruct w as [n| |]; [| by wps; apply Hstop | by wps; apply Hstop].
  destruct (Z.gtb_spec n 0) as [Hw|]; [| wps; apply Hstop; by auto].
  set (c2 := c <| cn_m2s := buf_consume (cn_m2s c) n |>).
  unfold conn_set. wps. fold (put_conn i c2 r1). pose proof Hu as (_ & _ & U).
  eapply wp_mux; [apply (rinv_put _ _ _ c); [exact H1 | exact Hu | by split] | apply mux_consume_hush |].
  intros r2 E2 H2 W2. eapply (IH r2 c2); [exact H2 | rewrite E2; by eapply used_put | |].
  - cbn. pose proof (buf_consume_avail (cn_m2s c) n Hw Hpos). lia.
  - intros ok r3 b H3 W3 Hu3 Hok. apply (HQ ok r3 b); [done | | done | done].
    etrans; [exact W1 |]. etrans; [apply (within_put r1 i c2) |]. by etrans.
Qed.

(** [flush_to_socket] leaves the interest of the connection in order. *)
Lemma wp_flush_to_socket i r c (Q : Z → relay → Prop) :
  rinv (Some i) 0 r → used_at (r_conns r) i c →
  (∀ rc r' c', rinv None 0 r' → within r r' → used_at (r_conns r') i c' → same_conn c (c' <| cn_in_dirty := cn_in_dirty c |>) →
     Q rc r') →
  wp (flush_to_socket i) Q r.
Proof.
  intros H Hu HQ. unfold flush_to_socket. wp1. eapply wp_conn_used; [exact H | exact Hu |].
  wp1. eapply wp_to_socket_loop; [exact H | exact Hu | lia |]. intros ok r1 b H1 W1 Hu1 Hok. destruct ok; cbn [negb].
  - wp1. eapply wp_conn_used; [exact H1 | exact Hu1 |].
    set (c1 := c <| cn_m2s := b |>) in *.
    assert (∀ r2, rinv (Some i) 0 r2 → within r r2 → r_conns r2 = r_conns r1 →
              wp (mark_dirty i;; mret 0) Q r2) as Hend.
    { intros r2 H2 W2 E2. wp1. eapply wp_mark_dirty; [exact H2 | rewrite E2; exact Hu1 |].
      intros r3 H3 _ W3 Hu3. wps. eapply HQ; [exact H3 | by etrans | exact Hu3 | by split]. }
    wp1. apply wp_when; [intros _ | intros _; by apply Hend].
    eapply wp_log_effect; [exact H1 | done |]. intros r2 H2 W2 E2 _. apply Hend; [done | by etrans | done].
  - wps. eapply HQ; [| exact W1 | exact Hu1 | by split].
    eapply rinv_close; [exact H1 | exact Hu1 |]. intros _. right. by apply Hok.
Qed.

(** ** Towards the session *)

Lemma wp_block_sender i r c (Q : unit → relay → Prop) :
  rinv (Some i) 0 r → used_at (r_conns r) i c →
  (∀ r', rinv None 0 r' → within r r' → (∃ c', used_at (r_conns r') i c') → Q tt r') →
  wp (block_sender i) Q r.
Proof.
  intros H Hu HQ. unfold block_sender. wp1. eapply wp_conn_upd; [exact H | exact Hu |].
  set (c1 := c <| cn_send_blocked := true |>). pose proof Hu as (_ & _ & U).
  eapply wp_mark_dirty; [apply (rinv_put _ _ _ c c1); [exact H | exact Hu | by split] | by eapply used_put |].
  intros r1 H1 _ W1 Hu1. apply HQ; [done | etrans; [apply (within_put r i c1) | done] | by eexists].
Qed.

Lemma wp_to_mux_loop fuel i r c (Q : bool → relay → Prop) :
  rinv (Some i) 0 r → used_at (r_conns r) i c → Z.max 0 (buf_avail (cn_s2m c)) < Z.of_nat fuel →
  (∀ r' b, rinv (Some i) 0 r' → within r r' → used_at (r_conns r') i (c <| cn_s2m := b |>) → Q true r') →
  (∀ r', rinv None 0 r' → within r r' → Q false r') →
  wp (to_mux_loop fuel i) Q r.
Proof.
  revert r c. induction fuel as [|fuel IH]; intros r c H Hu Hn HT HF; cbn [to_mux_loop]; [lia |].
  assert (c <| cn_s2m := cn_s2m c |> = c) as Hid by by destruct c.
  wp1. eapply wp_conn_used; [exact H | exact Hu |].
  destruct (Z.gtb_spec (buf_avail (cn_s2m c)) 0) as [Hpos|].
  2:{ wps. apply (HT r (cn_s2m c)); [done | reflexivity | by rewrite Hid]. }
  wp1. eapply wp_mux; [exact H | apply mux_write_hush |]. intros r1 E1 H1 W1.
  set (w := (mux_write _ _ _ _).1) in *. set (b := if w >? 0 then _ else _). set (c2 := c <| cn_s2m := b |>).
  assert (used_at (r_conns r1) i c) as Hu1 by (rewrite E1; exact Hu). pose proof Hu as (_ & _ & U).
  unfold conn_set. wps. fold (put_conn i c2 r1).
  assert (rinv (Some i) 0 (put_conn i c2 r1)) as H2 by (apply (rinv_put _ _ _ c); [exact H1 | exact Hu1 | by split]).
  assert (used_at (r_conns (put_conn i c2 r1)) i c2) as Hu2 by by eapply used_put.
  assert (within r (put_conn i c2 r1)) as W2 by (etrans; [exact W1 | apply within_put]).
  destruct ((w <=? 0) || (w <? buf_avail b)) eqn:Ew.
  { wp1. eapply wp_block_sender; [exact H2 | exact Hu2 |]. intros r3 H3 W3 _. wps. apply HF; [done | by etrans]. }
  apply orb_false_iff in Ew as [Ew _]. apply Z.leb_gt in Ew.
  eapply (IH _ c2); [exact H2 | exact Hu2 | | |].
  - cbn. unfold b. destruct (Z.gtb_spec w 0); [| lia]. pose proof (buf_consume_avail (cn_s2m c) w Ew Hpos). lia.
  - intros r3 b3 H3 W3 Hu3. apply (HT r3 b3); [done | by etrans | done].
  - intros r3 H3 W3. apply HF; [done | by etrans].
Qed.

Lemma wp_flush_to_mux i r c (Q : unit → relay → Prop) :
  rinv (Some i) 0 r → used_at (r_conns r) i c → (∀ r', rinv None 0 r' → within r r' → Q tt r') →
  wp (flush_to_mux i) Q r.
Proof.
  intros H Hu HQ. unfold flush_to_mux. wp1. eapply wp_conn_used; [exact H | exact Hu |].
  wp1. eapply wp_to_mux_loop; [exact H | exact Hu | lia | | intros r1 H1 W1; wps; by apply HQ].
  intros r1 b H1 W1 Hu1. cbn [negb]. wp1. eapply wp_conn_upd; [exact H1 | exact Hu1 |].
  set (c1 := c <| cn_s2m := b |>) in *. set (c2 := c1 <| cn_send_blocked := false |>). pose proof Hu as (_ & _ & U).
  assert (rinv (Some i) 0 (put_conn i c2 r1)) as H2 by (apply (rinv_put _ _ _ c1); [exact H1 | exact Hu1 | by split]).
  assert (used_at (r_conns (put_conn i c2 r1)) i c2) as Hu2 by by eapply used_put.
  assert (within r (put_conn i c2 r1)) as W2 by (etrans; [exact W1 | apply within_put]).
  assert (∀ r3, rinv (Some i) 0 r3 → within r r3 → r_conns r3 = r_conns (put_conn i c2 r1) → wp (mark_dirty i) Q r3) as Hend.
  { intros r3 H3 W3 E3. eapply wp_mark_dirty; [exact H3 | rewrite E3; exact Hu2 |]. intros r4 H4 _ W4 _.
    apply HQ; [done | by etrans]. }
  wp1. eapply wp_conn_used; [exact H2 | exact Hu2 |]. wp1. apply wp_when; [intros _ | intros _; by apply Hend].
  wp1. eapply wp_mux; [exact H2 | apply mux_close_hush |]. intros r3 E3 H3 W3. wps.
  apply Hend; [done | by etrans | by rewrite E3].
Qed.

(** Bytes are appended to one of the buffers. *)
Lemma wp_conn_append i r c get set p n (Q : unit → relay → Prop) :
  rinv (Some i) 0 r → used_at (r_conns r) i c → (∀ b, same_conn c (set b c)) →
  (∀ r' b, rinv (Some i) 0 r' → within r r' → used_at (r_conns r') i (set b c) → Q tt r') →
  wp (conn_append i get set p n) Q r.
Proof.
  intros H Hu Hset HQ. unfold conn_append. wp1. eapply wp_conn_used; [exact H | exact Hu |]. wps.
  assert ((rl_buf_append (r_heap r) (get c) p n).1.2 = []) as Eh.
  { rewrite (ri_heap _ _ _ H). unfold rl_buf_append. destruct (n =? 0); [done |]. cbv zeta.
    destruct (_ >? bf_cap _); [unfold buf_grow; cbn |]; done. }
  destruct (rl_buf_append (r_heap r) (get c) p n) as [[x h] b]. cbn [fst snd] in Eh. subst h.
  unfold conn_set. wps.
  assert (r <| r_heap := [] |> = r) as ->.
  { pose proof (ri_heap _ _ _ H) as E. destruct r. cbn in *. by subst. }
  fold (put_conn i (set b c) r). apply (HQ _ b); [by apply (rinv_put _ _ _ c) | apply within_put |].
  eapply used_put; [exact Hu |]. destruct Hu as (_ & _ & U). rewrite <- U. apply (Hset b).
Qed.

(** ** The end of a connection *)

Lemma wp_conn_abandon i r c (Q : unit → relay → Prop) :
  rinv (Some i) 0 r → used_at (r_conns r) i c → (∀ r', rinv None 0 r' → within r r' → Q tt r') →
  wp (conn_abandon i) Q r.
Proof.
  intros H Hu HQ. unfold conn_abandon. wp1. eapply wp_conn_upd; [exact H | exact Hu |].
  set (c1 := c <| cn_gone := true |>). pose proof Hu as (_ & _ & U).
  eapply wp_conn_destroy; [apply (rinv_put _ _ _ c c1); [exact H | exact Hu | by split] | by eapply used_put |].
  intros r1 H1 _ W1 _ _. apply HQ; [done | etrans; [apply (within_put r i c1) | done]].
Qed.

Lemma wp_conn_maybe_finish i r c (Q : unit → relay → Prop) :
  rinv None 0 r → used_at (r_conns r) i c → (∀ r', rinv None 0 r' → within r r' → Q tt r') →
  wp (conn_maybe_finish i) Q r.
Proof.
  intros H Hu HQ. unfold conn_maybe_finish. wp1. eapply wp_conn_used; [exact H | exact Hu |].
  assert (wp (conn_destroy i) Q r) as Hd.
  { eapply wp_conn_destroy; [by apply rinv_open | exact Hu |]. intros r1 H1 _ W1 _ _. by apply HQ. }
  destruct (cn_gone c); [done |]. apply wp_when; [done | intros _; apply HQ; [done | reflexivity]].
Qed.

Lemma wp_conn_fail i r c (Q : unit → relay → Prop) :
  rinv None 0 r → used_at (r_conns r) i c → (∀ r', rinv None 0 r' → within r r' → Q tt r') →
  wp (conn_fail i) Q r.
Proof.
  intros H Hu HQ. unfold conn_fail. wp1. eapply wp_conn_used; [exact H | exact Hu |].
  wp1. eapply wp_mux; [exact H | apply mux_reset_hush |]. intros r1 E1 H1 W1.
  eapply wp_conn_abandon; [by apply rinv_open | rewrite E1; exact Hu |]. intros r2 H2 W2. apply HQ; [done | by etrans].
Qed.

(** ** Events of the session *)

(** The id of an event is above those of the connections in use. *)
Definition opens_above (k : Z) (r : relay) : Prop :=
  ro_backend_host (r_opt r) ≠ None →
  (∀ i c, used_at (r_conns r) i c → cn_sid c < k) ∧ climbs k (opened (events (r_mux r))) (s_max_remote_sid (r_mux r)).

Lemma wp_take_event r (Q : option mux_event → relay → Prop) :
  rinv None 0 r →
  (∀ r', rinv None 0 r' → r_recv r' = r_recv r → r_opt r' = r_opt r → (∀ e, e ∈ r_log r → e ∈ r_log r') →
     events (r_mux r') = tail (events (r_mux r)) → alive (r_mux r') = alive (r_mux r) →
     (∀ sid m n, head (events (r_mux r)) = Some (EV_STREAM_OPENED sid m n) → opens_above sid r') →
     Q (head (events (r_mux r))) r') →
  wp (mux mux_next_event) Q r.
Proof.
  intros H HQ. unfold wp, mux, mux_next_event. destruct (ri_sids _ _ _ H) as [Hq Hm].
  pose proof (evq_pop_spec (s_q (r_mux r)) Hq) as Hpop. destruct (evq_pop (s_q (r_mux r))) as [o q].
  destruct Hpop as (Hq' & -> & Et). set (x' := (r_mux r) <| s_q := q |>).
  assert (fresh_sids (r_opt r) (r_conns r) x' ∧ ∀ sid m n, head (events (r_mux r)) = Some (EV_STREAM_OPENED sid m n) →
            opens_above sid (r <| r_mux := x' |>)) as [Hf Ho].
  { unfold fresh_sids, opens_above. cbn. destruct (ro_backend_host (r_opt r)); [| by split; [| intros ? ? ? _ []]].
    destruct Hm as (lo & Hc & Hlo). rewrite Et. destruct (events (r_mux r)) as [|ev evs]; cbn.
    { split; [split; [done |]; by exists lo | done]. }
    destruct (ev_open ev) as [k|] eqn:Ek.
    - assert (lo < k ∧ climbs k (opened evs) (s_max_remote_sid (r_mux r))) as [Hlt Hc'].
      { unfold opened in Hc. cbn in Hc. by rewrite Ek in Hc. }
      split; [split; [done |]; exists k; split; [done |]; intros i c Hu; specialize (Hlo i c Hu); lia |].
      intros sid m n [= ->] _. cbn in Ek. injection Ek as ->. split; [| done]. intros i c Hu. specialize (Hlo i c Hu). lia.
    - split; [split; [done |]; exists lo; split; [unfold opened in *; cbn in Hc; by rewrite Ek in Hc | done] |].
      by intros sid m n [= ->]. }
  apply HQ; try done. eapply rinv_inside; [exact H | same_inside | done | exact Hf | apply H].
Qed.

(** The sweep after the connection window has opened. *)
Lemma wp_wake_blocked l r (Q : unit → relay → Prop) :
  rinv None 0 r → (∀ i, i ∈ l → 0 ≤ i < zlen (r_conns r)) →
  (∀ r', rinv None 0 r' → within r r' → Q tt r') → wp (wake_blocked l) Q r.
Proof.
  revert r. induction l as [|i l IH]; intros r H Hl HQ; cbn [wake_blocked]; [wps; apply HQ; [done | reflexivity] |].
  assert (0 ≤ i < zlen (r_conns r)) as Hi by (apply Hl; by left).
  destruct (lookup_lt_is_Some_2 (r_conns r) (Z.to_nat i)) as [c Hc]; [unfold zlen in Hi; lia |].
  wp1. eapply wp_conn_at; [apply H | lia | exact Hc |]. wp1. apply wp_when.
  - intros [U _]%andb_prop. eapply (wp_flush_to_mux i r c); [by apply rinv_open | split_and!; [lia | done | done] |].
    intros r1 H1 W1. apply IH; [done | | intros r2 H2 W2; apply HQ; [done | by etrans]].
    intros j Hj. assert (0 ≤ j < zlen (r_conns r)) by (apply Hl; by right). pose proof (wi_len _ _ W1). lia.
  - intros _. apply IH; [done | intros j Hj; apply Hl; by right | done].
Qed.

Lemma wp_on_data k r sid data n (Q : unit → relay → Prop) :
  rinv None 0 r → (∀ r', rinv None 0 r' → within r r' → Q tt r') → wp (handle_event k (EV_STREAM_DATA sid data n)) Q r.
Proof.
  intros H HQ. cbn [handle_event]. wp1. eapply wp_sidmap_get; [exact H | | intros _; cbn; wps; apply HQ; [done | reflexivity]].
  intros i c Hu _. pose proof (used_at_range _ _ _ Hu) as Hi. destruct (Z.ltb_spec i 0) as [|_]; [lia |].
  wp1. eapply wp_conn_append; [by apply rinv_open | exact Hu | by split |]. intros r1 b H1 W1 Hu1.
  wp1. eapply wp_conn_used; [exact H1 | exact Hu1 |]. destruct (negb _).
  - wp1. eapply wp_flush_to_socket; [exact H1 | exact Hu1 |]. intros rc r2 c2 H2 W2 _ _. wps. apply HQ; [done | by etrans].
  - eapply wp_mark_dirty; [exact H1 | exact Hu1 |]. intros r2 H2 _ W2 _. apply HQ; [done | by etrans].
Qed.

Lemma wp_on_closed k r sid (Q : unit → relay → Prop) :
  rinv None 0 r → (∀ r', rinv None 0 r' → within r r' → Q tt r') → wp (handle_event k (EV_STREAM_CLOSED sid)) Q r.
Proof.
  intros H HQ. cbn [handle_event]. wp1. eapply wp_sidmap_get; [exact H | | intros _; cbn; wps; apply HQ; [done | reflexivity]].
  intros i c Hu _. pose proof (used_at_range _ _ _ Hu) as Hi. destruct (Z.ltb_spec i 0) as [|_]; [lia |]. pose proof Hu as (_ & _ & U).
  wp1. eapply wp_conn_upd; [exact H | exact Hu |]. set (c1 := c <| cn_stream_fin := true |>).
  assert (rinv (Some i) 0 (put_conn i c1 r)) as H1 by (apply (rinv_put _ _ _ c); [by apply rinv_open | exact Hu | by split]).
  assert (used_at (r_conns (put_conn i c1 r)) i c1) as Hu1 by by eapply used_put.
  wp1. eapply wp_conn_used; [exact H1 | exact Hu1 |].
  assert (∀ r2 c2, rinv None 0 r2 → within r r2 → used_at (r_conns r2) i c2 → wp (conn_maybe_finish i) Q r2) as Hend.
  { intros r2 c2 H2 W2 Hu2. eapply wp_conn_maybe_finish; [exact H2 | exact Hu2 |]. intros r3 H3 W3. apply HQ; [done | by etrans]. }
  wp1. apply wp_when.
  - intros _. wp1. eapply wp_flush_to_socket; [exact H1 | exact Hu1 |]. intros rc r2 c2 H2 W2 Hu2 _. wps.
    apply (Hend r2 c2); [done | etrans; [apply (within_put r i c1) | done] | done].
  - intros Hc. apply (Hend _ c1); [| apply within_put | done]. eapply rinv_close; [exact H1 | exact Hu1 |].
    intros Hd. destruct (ri_settled _ _ _ H i c Hu Hd) as [?|[[Ha1 Ha2]|Hf]]; [done | left | by right].
    apply negb_false_iff in Hc. cbn in Hc. unfold asked, conn_desired in *. cbn. by rewrite Hc in *.
Qed.

Lemma wp_on_event k r ev (Q : unit → relay → Prop) :
  rinv None 0 r → (∀ sid m n, ev = EV_STREAM_OPENED sid m n → opens_above sid r) →
  (∀ r', rinv None 0 r' → within r r' → Q tt r') → wp (handle_event k ev) Q r.
Proof.
  intros H Hop HQ. assert (Q tt r) as HQr by (apply HQ; [done | reflexivity]).
  assert (∀ r', inside r r' → r_mux r' = r_mux r → r_recv r' = r_recv r → r_log r' = r_log r → Q tt r') as HQi.
  { intros r' Hi Em Er El. apply HQ.
    - eapply rinv_inside; [exact H | exact Hi | by rewrite El | rewrite Em; apply H | rewrite Er; apply H].
    - destruct Hi as (Eo & _ & _ & _ & Ec & _). split; [by rewrite Em | done | done | by rewrite El | by rewrite Ec]. }
  destruct ev; try (cbn [handle_event]; wps; exact HQr).
  all: try (by apply wp_on_data). all: try (by apply wp_on_closed).
  - cbn [handle_event]. wps. unfold id. destruct (ro_backend_host (r_opt r)) eqn:Eb.
    + destruct (Hop _ _ _ eq_refl) as [Hk Hc]; [by rewrite Eb |]. eapply wp_open_backend_conn; [exact H | by rewrite Eb | done | done | exact HQ].
    + wp1. eapply wp_mux; [exact H | apply mux_reset_hush |]. intros r1 _ H1 W1. wps. by apply HQ.
  - cbn [handle_event]. wp1. eapply wp_sidmap_get; [exact H | | intros _; cbn; wps; exact HQr].
    intros i c Hu _. destruct (Z.ltb_spec i 0) as [|_]; [exact HQr |]. eapply wp_conn_abandon; [by apply rinv_open | exact Hu | exact HQ].
  - cbn [handle_event]. destruct (_ =? MUX_SID_CONTROL).
    + wps. unfold id. eapply wp_wake_blocked; [exact H | intros i Hi%elem_of_seqZ; lia | exact HQ].
    + wp1. eapply wp_sidmap_get; [exact H | | intros _; by apply wp_when].
      intros i c Hu _. apply wp_when; intros _; [| exact HQr].
      eapply wp_flush_to_mux; [by apply rinv_open | exact Hu | exact HQ].
  - cbn [handle_event]. wps. unfold id. destruct (ro_token (r_opt r)); [| wps; exact HQr].
    destruct (hello_ok _ _ _).
    + wps. apply HQi; [same_inside | done | done | done].
    + wp1. eapply wp_mux; [exact H | apply mux_goaway_hush |]. intros r1 _ H1 W1. wps. apply HQ.
      * eapply rinv_inside; [exact H1 | same_inside | done | apply H1 | apply H1].
      * etrans; [exact W1 | by split].
  - cbn [handle_event]. wps. apply HQi; [same_inside | done | done | done].
Qed.

(** What survives the operations that also open streams. *)
Record onward (r r' : relay) : Prop := {
  on_opt : r_opt r' = r_opt r;
  on_recv : r_recv r' = r_recv r;
  on_log : ∀ e, e ∈ r_log r → e ∈ r_log r';
}.

#[export] Instance onward_preorder : PreOrder onward.
Proof. split; [done |]. intros r1 r2 r3 [] []. split; [congruence | congruence | auto]. Qed.

Lemma within_onward r r' : within r r' → onward r r'.
Proof. by intros []. Qed.
#[export] Hint Resolve within_onward : core.

Lemma wp_on_events_loop fuel k r (Q : unit → relay → Prop) :
  rinv None 0 r → zlen (events (r_mux r)) + alive (r_mux r) < Z.of_nat fuel →
  (∀ r', rinv None 0 r' → onward r r' → events (r_mux r') = [] → Q tt r') →
  wp (events_loop fuel k) Q r.
Proof.
  revert r. induction fuel as [|fuel IH]; intros r H Hn HQ.
  { pose proof (zlen_nonneg (events (r_mux r))). unfold alive in Hn. destruct (s_dead _); lia. }
  cbn [events_loop]. wp1. eapply wp_take_event; [exact H |].
  intros r1 H1 Er Eo El Ee Ea Hop. destruct (events (r_mux r)) as [|ev evs] eqn:Ev; cbn [head tail] in *.
  { wps. by apply HQ. }
  wp1. eapply wp_on_event; [exact H1 | intros sid m n ->; by eapply Hop |]. intros r2 H2 W2.
  destruct (wi_mux _ _ W2 (proj1 (ri_sids _ _ _ H1))) as [_ _ _ (evs' & E' & _ & _ & Hl)].
  eapply IH; [exact H2 | |].
  - rewrite E', Ee, zlen_app. rewrite zlen_cons in Hn. lia.
  - intros r3 H3 O3 E3. apply HQ; [done | | done]. etrans; [by split | etrans; [by apply within_onward | done]].
Qed.

Lemma wp_on_events k r (Q : unit → relay → Prop) :
  rinv None 0 r → (∀ r', rinv None 0 r' → onward r r' → events (r_mux r') = [] → Q tt r') → wp (handle_events k) Q r.
Proof.
  intros H HQ. unfold handle_events. wps. eapply wp_on_events_loop; [exact H | | exact HQ].
  pose proof (ri_sids _ _ _ H) as [Hq _]. destruct Hq as (_ & Hc & _).
  rewrite evq_items_len by lia. unfold alive. destruct (s_dead _); lia.
Qed.

(** ** The listener *)

Lemma divide2_mod n : (2 | n) → 0 ≤ n < 2 ^ 32 → n + 2 < 2 ^ 32 ∧ u32 (n + 2) = n + 2 ∨ u32 (n + 2) = 0.
Proof.
  intros [m ->] Hn. unfold u32. destruct (Z.lt_ge_cases (m * 2 + 2) (2 ^ 32)) as [Hlt|Hge].
  - left. split; [done |]. apply Z.mod_small. lia.
  - right. change (2 ^ 32) with (2147483648 * 2) in *. assert (m * 2 + 2 = 2147483648 * 2) as -> by lia. done.
Qed.

(** The id [mux_open] hands out on an edge is above those in use, and stays so. *)
Lemma fresh_sids_next o cs x x' :
  fresh_sids o cs x → ro_backend_host o = None → s_next_local_sid x ≠ 0 →
  hush (x <| s_next_local_sid := u32 (s_next_local_sid x + 2) |>) x' →
  fresh_sids o cs x' ∧ (∀ i c, used_at cs i c → cn_sid c ≠ s_next_local_sid x) ∧
  ∀ i c, 0 ≤ i < zlen cs → cn_sid c = s_next_local_sid x → fresh_sids o (<[Z.to_nat i := c]> cs) x'.
Proof.
  intros [Hq Hm] Hb Hne Hh. destruct (Hh Hq) as [Hq' _ Hn _]. cbn in Hn. unfold fresh_sids. rewrite Hb in *.
  destruct Hm as (He & Hr & Hu). rewrite Hn. destruct (divide2_mod _ He Hr) as [[Hlt E]|E].
  - assert ((2 | s_next_local_sid x + 2)) as He' by (apply Z.divide_add_r; [done | by exists 1]).
    rewrite E. split_and!; try done; try lia.
    + intros i c Hc. destruct (Hu i c Hc); lia.
    + intros i c Hc. destruct (Hu i c Hc); [lia | done].
    + intros i c Hi Ec. split; [done |]. split; [done |]. split; [lia |].
      intros j d [(-> & -> & _)|[_ Hd]]%used_at_put; [lia | destruct (Hu j d Hd); lia | done].
  - assert ((2 | 0)) as H0 by by exists 0.
    rewrite E. split_and!; try done; try lia; try (by intros; right).
    + intros i c Hc. destruct (Hu i c Hc); [lia | done].
    + intros i c Hi Ec. split; [done |]. split; [done |]. split; [lia | by intros; right].
Qed.

(** The pause at the cap. *)
Lemma rinv_pause r :
  rinv None 0 r → 0 ≤ ro_public_listen_fd (r_opt r) → 0 < ro_max_streams (r_opt r) →
  ro_max_streams (r_opt r) ≤ r_nactive r →
  rinv None 0 (r <| r_loop ::= <[ro_public_listen_fd (r_opt r) := watch false false OWN_LISTEN]> |> <| r_listen_paused := true |>).
Proof.
  intros [H1 H2 H3 H4 H5 [W1 W2 W3 W4] H7 H8 H9 H10 H11 H12] Hl Hpos Hge. specialize (W3 Hl). split; try done.
  - split; cbn.
    + intros i c Hu. destruct (W1 i c Hu) as (? & wr & ww & ? & ? & E). split; [done |]. exists wr, ww.
      rewrite lookup_insert_ne; [done |]. intros Es. rewrite <- Es, W3 in E. done.
    + destruct W2 as (wr & ww & ? & ? & E). exists wr, ww. rewrite lookup_insert_ne; [done |].
      intros Es. rewrite <- Es, W3 in E. done.
    + intros _. by rewrite lookup_insert_eq.
    + intros fd e [[<- <-]|[_ He]]%lookup_insert_Some; [done | by apply W4].
  - intros _. destruct (H10 Hl) as (Hn & Hm & _). cbn. specialize (Hm Hpos). split; [done |].
    split; [intros _; split; [lia | intros _; lia] | lia].
Qed.

Lemma wp_accept_one fd peer r (Q : unit → relay → Prop) :
  rinv None 0 r → 0 ≤ ro_public_listen_fd (r_opt r) → 0 ≤ fd → r_loop r !! fd = None →
  (0 < ro_max_streams (r_opt r) → r_nactive r < ro_max_streams (r_opt r)) →
  (∀ r', rinv None 0 r' → onward r r' → Q tt r') → wp (accept_one fd peer) Q r.
Proof.
  intros H Hl Hfd Hfree Hroom HQ. unfold accept_one. wps. unfold id.
  assert (∀ r', rinv None 0 r' → onward r r' → r_loop r' = r_loop r → wp (log_effect (SOCK_CLOSED fd)) Q r') as Hclose.
  { intros r' H' O' El. eapply wp_log_effect; [exact H' | by rewrite El |]. intros r2 H2 W2 _ _. apply HQ; [done | etrans; [exact O' | auto]]. }
  destruct (negb (r_authed r)); [by apply Hclose |].
  assert (ro_backend_host (r_opt r) = None) as Hb.
  { pose proof (ri_mode _ _ _ H) as Hm. unfold one_mode in Hm. destruct (ro_backend_host _); [lia | done]. }
  wp1. unfold wp at 1, mux. pose proof (mux_open_next (r_mux r) (Some peer) (zlen peer)) as Hop.
  destruct (mux_open _ _ _) as [sid x]. destruct Hop as [[Hneg ->]|(Hne & Hsid & Hh)].
  { destruct (Z.ltb_spec sid 0); [| lia]. assert (r <| r_mux := r_mux r |> = r) as -> by by destruct r. by apply Hclose. }
  destruct (fresh_sids_next _ _ _ _ (ri_sids _ _ _ H) Hb Hne Hh) as (Hf & Hnew & Hput).
  assert (rinv None 0 (r <| r_mux := x |>)) as H0.
  { eapply rinv_inside; [exact H | same_inside | done | exact Hf | apply H]. }
  destruct (Z.ltb_spec sid 0) as [|Hge]; [by apply Hclose |]. destruct Hsid as [|Hsid]; [lia |].
  pose proof (ri_sids _ _ _ H) as [_ Hs]. rewrite Hb in Hs. destruct Hs as (_ & Hs & _).
  assert (u32 sid = sid) as Eu by (unfold u32; apply Z.mod_small; lia). rewrite Eu.
  wp1. eapply wp_conn_alloc; [exact H0 |]. intros r1 i fl H1 Ef Hi Hu Hz Es. injection Es as E1 E2 E3 E4 E5 E6 E7 E8 E9.
  cbn in E1, E2, E3, E4, E5, E7, E8. destruct (Z.ltb_spec i 0); [lia |]. apply wp_assoc. wp1.
  eapply (wp_name_conn r1 i fl _ sid); try done.
  { intros j d Hd%Hu. rewrite Hsid. by eapply Hnew. }
  intros r2 C2 F2 S2 I2 M2 Cap2. injection S2 as S21 S22 S23 S24 S25 S26 S27. injection I2 as I21 I22 I23 I24 I25 I26 I27.
  set (c := conn_fresh <| cn_sock := fd |> <| cn_sid := sid |>) in *.
  destruct (ri_slab _ _ _ H1) as (hw & Hsl & _). rewrite Ef in Hsl.
  pose proof (slab_free_range _ _ _ i Hsl ltac:(by left)) as Hir.
  assert (r_conns r2 !! Z.to_nat i = Some c) as Hc2 by (rewrite C2; by apply lookup_put).
  wps. set (r3 := r2 <| r_nactive ::= Z.add 1 |>).
  eapply (wp_apply_fresh r3 i c); [cbn; rewrite S22; apply H1 | lia | exact Hc2 | done | done | done |].
  set (c' := c <| cn_cur_r := b2z (conn_desired c).1 |> <| cn_cur_w := b2z (conn_desired c).2 |>).
  assert (r_conns (apply_one i c r3) = <[Z.to_nat i := c']> (r_conns r1)) as Ec
    by (change (r_conns (apply_one i c r3)) with (<[Z.to_nat i := c']> (r_conns r2)); by rewrite C2, list_insert_insert_eq).
  apply HQ; [| split; cbn; [congruence | congruence | intros e; by rewrite S26, E5]].
  eapply (rinv_connected r1 _ i fl c'); [exact H1 | exact Ef | | done | done | done | done | | | | |].
  - split; [exact Ec | exact F2 | cbn; by rewrite I25 | cbn; congruence | cbn; congruence].
  - cbn. by rewrite E3.
  - exact Cap2.
  - rewrite <- Ec. cbn. apply (mapped_put _ _ _ i c); [exact M2 | | done | done]. split_and!; [lia | exact Hc2 | done].
  - cbn [upd r_mux]. change (r_mux (apply_one i c r3)) with (r_mux r2). rewrite I24, E1, E2.
    pose proof (fresh_sids_iff _ _ (r_conns r1) _ Hu (ri_sids _ _ _ H)) as Hf1.
    by apply (fresh_sids_next _ _ _ _ Hf1 Hb Hne Hh).
  - intros _. change (ro_max_streams (r_opt (apply_one i c r3))) with (ro_max_streams (r_opt r2)).
    change (r_nactive (apply_one i c r3)) with (1 + r_nactive r2).
    change (r_listen_paused (apply_one i c r3)) with (r_listen_paused r2).
    destruct (ri_count _ _ _ H1) as (Hn & Hm & Hp); [by rewrite E2 |].
    destruct (lookup_lt_is_Some_2 (r_conns r1) (Z.to_nat i)) as [d Hd]; [unfold zlen in Hir; lia |].
    assert (cn_used d = false) as Ud.
    { destruct (cn_used d) eqn:Ud; [| done]. apply (sl_used _ _ _ Hsl i d Hi Hd) in Ud. destruct Ud. by left. }
    rewrite Ec, (cnt_put _ _ d) by done. rewrite Ud, S23, I23, I26. rewrite E2, E7, E8 in *. cbn.
    split; [lia |]. split; [intros Hpos; specialize (Hroom Hpos); destruct (Hm Hpos) as [? Hpa]; split; [lia |] | done].
    intros Ep. specialize (Hpa Ep). lia.
Qed.

Lemma wp_accept_public acc r (Q : unit → relay → Prop) :
  rinv None 0 r → 0 ≤ ro_public_listen_fd (r_opt r) → (∀ r', rinv None 0 r' → onward r r' → Q tt r') →
  wp (accept_public acc) Q r.
Proof.
  revert r. induction acc as [|[cand peer] acc IH]; intros r H Hl HQ; cbn [accept_public]; wps; unfold id.
  all: destruct ((ro_max_streams (r_opt r) >? 0) && (r_nactive r >=? ro_max_streams (r_opt r))) eqn:Ecap.
  1, 3: apply andb_prop in Ecap as [Hpos%Z.gtb_lt Hge%Z.geb_le]; apply wp_when; intros _; [| by apply HQ];
    wp1; apply loop_set_eq; wps; apply HQ; [by apply rinv_pause | by split].
  - wps. by apply HQ.
  - wp1. destruct (new_fd_free r cand) as [Hfd Hfree]. eapply wp_accept_one; [exact H | exact Hl | exact Hfd | exact Hfree | |].
    + intros Hpos. rewrite Z.geb_leb, Z.gtb_ltb in Ecap. apply andb_false_iff in Ecap as [?%Z.ltb_ge|?%Z.leb_gt]; lia.
    + intros r1 H1 O1. apply IH; [done | by rewrite (on_opt _ _ O1) |]. intros r2 H2 O2. apply HQ; [done | by etrans].
Qed.
