(* ===== verification/RelayRun.v ===== *)
(** The relay's sockets, tunnel and main loop have a defined outcome and keep
    the invariant; where the loop waits, the interest registered is the one
    wanted. *)

From stdpp Require Import base list numbers gmap.
From Stdlib Require Import ZArith Lia.
From S2P Require Import Prelude Frame OutBuf EventQueue Probe StreamTable Session SessionIO Handshake Recv SessionOpens Auth Host Fifo Umap EvLoop Relay SidMap RelayInv RelaySteps RelayIO.

(** ** Sockets *)

Lemma wp_sock_eof i r c (Q : unit → relay → Prop) :
  rinv None 0 r → used_at (r_conns r) i c → (∀ r', rinv None 0 r' → within r r' → Q tt r') →
  wp (sock_eof i) Q r.
Proof.
  intros H Hu HQ. unfold sock_eof. pose proof Hu as (_ & _ & U).
  wp1. eapply wp_conn_upd; [exact H | exact Hu |]. set (c1 := c <| cn_sock_eof := true |>).
  assert (rinv (Some i) 0 (put_conn i c1 r)) as H1 by (apply (rinv_put _ _ _ c); [by apply rinv_open | exact Hu | by split]).
  assert (used_at (r_conns (put_conn i c1 r)) i c1) as Hu1 by by eapply used_put.
  wp1. eapply wp_conn_used; [exact H1 | exact Hu1 |].
  assert (∀ r2, rinv (Some i) 0 r2 → within r r2 → r_conns r2 = r_conns (put_conn i c1 r) →
            wp (mark_dirty i;; conn_maybe_finish i) Q r2) as Hend.
  { intros r2 H2 W2 E2. wp1. eapply wp_mark_dirty; [exact H2 | rewrite E2; exact Hu1 |]. intros r3 H3 _ W3 Hu3.
    eapply wp_conn_maybe_finish; [exact H3 | exact Hu3 |]. intros r4 H4 W4. apply HQ; [done | etrans; [exact W2 | by etrans]]. }
  wp1. apply wp_when; intros _; [| apply Hend; [done | apply within_put | done]].
  wp1. eapply wp_mux; [exact H1 | apply mux_close_hush |]. intros r2 E2 H2 W2. wp1.
  apply Hend; [done | etrans; [apply (within_put r i c1) | done] | by rewrite E2].
Qed.

(** The read loop ends: an iteration that goes on has taken a byte off the
    socket. *)
Lemma wp_sock_read_loop fuel i rs r c (Q : unit → relay → Prop) :
  rinv None 0 r → used_at (r_conns r) i c → script_bytes rs < Z.of_nat fuel →
  (∀ r', rinv None 0 r' → within r r' → Q tt r') →
  wp (sock_read_loop fuel i rs) Q r.
Proof.
  revert rs r. induction fuel as [|fuel IH]; intros rs r H Hu Hn HQ; cbn [sock_read_loop].
  { pose proof (script_bytes_nonneg rs). lia. }
  assert (Q tt r) as HQr by (apply HQ; [done | reflexivity]).
  destruct rs as [|[bs| | |] rs]; [by wps | | by eapply wp_sock_eof | by wps
    | by eapply wp_conn_abandon; [apply rinv_open | ..]]. cbv zeta.
  set (n := Z.min (zlen bs) TMP_SIZE). set (rs' := if n <? zlen bs then _ else rs).
  pose proof (zlen_nonneg bs) as Hb. assert (0 ≤ n ≤ zlen bs) as Hnb by (unfold n, TMP_SIZE; lia).
  destruct (Z.eqb_spec n 0) as [|Hpos]; [by eapply wp_sock_eof |].
  pose proof (script_bytes_read n bs rs Hnb) as Eb. fold rs' in Eb.
  wp1. eapply wp_conn_used; [exact H | exact Hu |]. wp1. eapply wp_mux; [exact H | apply mux_write_hush |].
  intros r1 E1 H1 W1. assert (used_at (r_conns r1) i c) as Hu1 by (rewrite E1; exact Hu).
  set (w := (mux_write _ _ _ _).1) in *. destruct (w <? 0).
  { eapply wp_conn_abandon; [by apply rinv_open | exact Hu1 |]. intros r2 H2 W2. apply HQ; [done | by etrans]. }
  destruct (w <? n).
  - wp1. eapply wp_conn_append; [by apply rinv_open | exact Hu1 | by split |]. intros r2 b H2 W2 Hu2.
    eapply wp_block_sender; [exact H2 | exact Hu2 |]. intros r3 H3 W3 _. apply HQ; [done | etrans; [exact W1 | by etrans]].
  - eapply IH; [exact H1 | exact Hu1 | lia |]. intros r2 H2 W2. apply HQ; [done | by etrans].
Qed.

Lemma wp_on_sock_readable i rs r c (Q : unit → relay → Prop) :
  rinv None 0 r → used_at (r_conns r) i c → (∀ r', rinv None 0 r' → within r r' → Q tt r') →
  wp (on_sock_readable i rs) Q r.
Proof.
  intros H Hu HQ. unfold on_sock_readable. wp1. eapply wp_conn_used; [exact H | exact Hu |].
  destruct (_ >? 0); [wps; apply HQ; [done | reflexivity] |].
  pose proof (script_bytes_nonneg rs). eapply wp_sock_read_loop; [exact H | exact Hu | lia | exact HQ].
Qed.

Lemma wp_on_sock_writable i err r c (Q : unit → relay → Prop) :
  rinv None 0 r → used_at (r_conns r) i c →
  (∀ r', rinv None 0 r' → within r r' → Q tt r') → wp (on_sock_writable i err) Q r.
Proof.
  intros H Hu HQ. unfold on_sock_writable. pose proof Hu as (_ & _ & U).
  wp1. eapply wp_conn_used; [exact H | exact Hu |]. destruct (_ && _); [by eapply wp_conn_fail |].
  assert (∀ r1 c1, rinv None 0 r1 → within r r1 → used_at (r_conns r1) i c1 →
            wp (rc ← flush_to_socket i; if rc <? 0 then conn_fail i else conn_maybe_finish i) Q r1) as Hend.
  { intros r1 c1 H1 W1 Hu1. wp1. eapply wp_flush_to_socket; [by apply rinv_open | exact Hu1 |].
    intros rc r2 c2 H2 W2 Hu2 _. destruct (rc <? 0).
    - eapply wp_conn_fail; [exact H2 | exact Hu2 |]. intros r3 H3 W3. apply HQ; [done | etrans; [exact W1 | by etrans]].
    - eapply wp_conn_maybe_finish; [exact H2 | exact Hu2 |]. intros r3 H3 W3. apply HQ; [done | etrans; [exact W1 | by etrans]]. }
  wp1. apply wp_when; intros _; [| by apply (Hend r c)].
  wp1. eapply wp_conn_upd; [exact H | exact Hu |]. set (c1 := c <| cn_connecting := false |>).
  eapply (wp_mark_dirty _ _ _ c1);
    [apply (rinv_put _ _ _ c); [by apply rinv_open | exact Hu | by split] | by eapply used_put |].
  intros r2 H2 _ W2 Hu2. eapply Hend; [exact H2 | etrans; [apply (within_put r i c1) | exact W2] | exact Hu2].
Qed.

(** ** The tunnel *)

(** What the tunnel's operations keep. *)
Record ahead (r r' : relay) : Prop := {
  ah_opt : r_opt r' = r_opt r;
  ah_log : ∀ e, e ∈ r_log r → e ∈ r_log r';
}.

#[export] Instance ahead_preorder : PreOrder ahead.
Proof. split; [done |]. intros r1 r2 r3 [] []. split; [congruence | auto]. Qed.

Lemma onward_ahead r r' : onward r r' → ahead r r'.
Proof. by intros []. Qed.
Lemma within_ahead r r' : within r r' → ahead r r'.
Proof. by intros []. Qed.
#[export] Hint Resolve onward_ahead within_ahead : core.

Lemma rinv_recv r bs : rinv None 0 r → zlen bs ≤ RECV_BUF_SIZE → rinv None 0 (r <| r_recv := bs |>).
Proof. intros H Hb. eapply rinv_inside; [exact H | same_inside | done | apply H | exact Hb]. Qed.

Lemma wp_pump_recv k r (Q : Z → relay → Prop) :
  rinv None 0 r →
  (∀ rc r', rinv None 0 r' → ahead r r' → zlen (r_recv r') ≤ zlen (r_recv r) → events (r_mux r') = [] → Q rc r') →
  wp (pump_recv k) Q r.
Proof.
  intros H HQ. unfold pump_recv. wps. unfold id. unfold wp, mbind, ST_bind, mux at 1.
  pose proof (mux_recv_opens (r_mux r) (r_recv r)) as Ho. destruct (mux_recv _ _ _) as [cc x]. cbn [snd] in Ho.
  pose proof (rinv_mux _ _ _ _ H Ho) as H1. set (r1 := r <| r_mux := x |>) in *.
  match goal with |- match ?m with _ => _ end => change (wp (handle_events k;;
    (if cc <? 0 then mret (-1) else when_ (cc >? 0) (modify (fun r => r <| r_recv ::= zdrop cc |>));; mret 0)) Q r1) end.
  wp1. eapply wp_on_events; [exact H1 |]. intros r2 H2 O2 E2.
  assert (ahead r r2) as A2 by (transitivity r1; [by split | by apply onward_ahead]).
  pose proof (on_recv _ _ O2) as Er. change (r_recv r1) with (r_recv r) in Er.
  destruct (cc <? 0); [wps; apply HQ; [done | done | rewrite Er; lia | done] |].
  wp1. apply wp_when; intros _; wps; [| apply HQ; [done | done | rewrite Er; lia | done]].
  pose proof (zlen_zdrop_le cc (r_recv r2)). rewrite Er in *. apply HQ; [| | cbn; rewrite Er; lia | done].
  - apply (rinv_recv r2); [done |]. pose proof (ri_recv _ _ _ H). rewrite Er. lia.
  - transitivity r2; [exact A2 | by split].
Qed.

(** The read loop ends: two iterations take a byte off the tunnel at least. *)
Lemma wp_tun_read fuel k rs r (Q : Z → relay → Prop) :
  rinv None 0 r → 2 * script_bytes rs + b2z (zlen (r_recv r) =? RECV_BUF_SIZE) < Z.of_nat fuel →
  (∀ rc r', rinv None 0 r' → ahead r r' → Q rc r') → wp (tunnel_read fuel k rs) Q r.
Proof.
  revert rs r. induction fuel as [|fuel IH]; intros rs r H Hn HQ; cbn [tunnel_read].
  { pose proof (script_bytes_nonneg rs). destruct (_ =? _); cbn in Hn; lia. }
  pose proof (ri_recv _ _ _ H) as Hr. pose proof (zlen_nonneg (r_recv r)) as Hr0.
  wps. unfold id. destruct (Z.eqb_spec (RECV_BUF_SIZE - zlen (r_recv r)) 0) as [Es|Es].
  - wp1. eapply wp_pump_recv; [exact H |]. intros rc r1 H1 A1 Hle _.
    destruct (rc <? 0); [wps; by apply HQ |]. wps. unfold id.
    destruct (Z.eqb_spec (zlen (r_recv r1)) (zlen (r_recv r))); [wps; by apply HQ |].
    eapply IH; [exact H1 | | intros rc2 r2 H2 A2; apply HQ; [done | by etrans]].
    destruct (Z.eqb_spec (zlen (r_recv r)) RECV_BUF_SIZE); [| lia].
    destruct (Z.eqb_spec (zlen (r_recv r1)) RECV_BUF_SIZE); [lia |]. cbn in *. lia.
  - assert (∀ rc, Q rc r) as HQr by (intros rc; apply HQ; [done | reflexivity]).
    destruct rs as [|[bs| | |] rs]; try (by wps). cbv zeta. set (space := RECV_BUF_SIZE - zlen (r_recv r)) in *.
    pose proof (zlen_nonneg bs) as Hb. destruct (Z.eqb_spec (Z.min (zlen bs) space) 0) as [|Hpos]; [by wps |].
    set (n := Z.min (zlen bs) space) in *. set (rs' := if n <? zlen bs then _ else rs).
    assert (0 ≤ n ≤ zlen bs) as Hnb by lia. pose proof (script_bytes_read n bs rs Hnb) as Eb. fold rs' in Eb.
    wps. match goal with |- wp _ _ ?d => set (r1 := d) end.
    assert (rinv None 0 r1) as H1.
    { apply (rinv_recv r (r_recv r ++ ztake n bs) H). rewrite zlen_app, zlen_ztake by lia. lia. }
    eapply wp_pump_recv; [exact H1 |]. intros rc r2 H2 A2 _ _. assert (ahead r r2) by (transitivity r1; [by split | exact A2]).
    destruct (rc <? 0); [wps; by apply HQ |]. destruct (n <? space); [wps; by apply HQ |].
    eapply IH; [exact H2 | | intros rc3 r3 H3 A3; apply HQ; [done | by etrans]].
    destruct (_ =? _) in Hn; destruct (_ =? _); cbn [b2z] in *; lia.
Qed.

Lemma wp_tun_flush ws r (Q : Z → relay → Prop) :
  rinv None 0 r → (∀ rc r', rinv None 0 r' → within r r' → r_conns r' = r_conns r → Q rc r') →
  wp (tunnel_flush ws) Q r.
Proof.
  revert r. induction ws as [|w ws IH]; intros r H HQ; cbn [tunnel_flush];
    (wp1; eapply (wp_mux _ _ _ (fun s => (mux_send_buf s, s))); [exact H | reflexivity |]); intros r1 E1 H1 W1; cbn [fst];
    destruct (mux_send_buf (r_mux r)) as [b len];
    assert (r_conns r1 = r_conns r) as Ec by (by rewrite E1); destruct (negb (len >? 0)); try (wps; by apply HQ).
  destruct w as [n| |]; try (wps; by apply HQ). destruct (n >? 0); [| wps; by apply HQ].
  wp1. eapply wp_mux; [exact H1 | apply mux_send_advance_hush |]. intros r2 E2 H2 W2. apply IH; [done |].
  intros rc r3 H3 W3 E3. apply HQ; [done | etrans; [exact W1 | by etrans] |]. rewrite E3, E2. exact Ec.
Qed.

(** ** Where the loop waits *)

(** The interest registered of the tunnel is the one wanted. *)
Definition tunnel_asked (r : relay) : Prop :=
  r_tun_r r = b2z (mux_out_pending (r_mux r) <? 4 * 1024 * 1024) ∧ r_tun_w r = b2z (mux_out_pending (r_mux r) >? 0).

Lemma wp_update_tunnel_interest r (Q : unit → relay → Prop) :
  rinv None 0 r →
  (∀ r', rinv None 0 r' → within r r' → r_conns r' = r_conns r → r_log r' = r_log r → tunnel_asked r' → Q tt r') →
  wp update_tunnel_interest Q r.
Proof.
  intros H HQ. unfold update_tunnel_interest. wps. unfold id.
  set (wr := mux_out_pending (r_mux r) <? 4 * 1024 * 1024). set (ww := mux_out_pending (r_mux r) >? 0).
  destruct ((b2z wr =? r_tun_r r) && (b2z ww =? r_tun_w r)) eqn:E.
  { apply andb_prop in E as [E1%Z.eqb_eq E2%Z.eqb_eq]. wps. apply HQ; [done | reflexivity | done | done | by split]. }
  clear E. wps. apply loop_set_eq. apply HQ; [| by split | done | done | by split].
  destruct H as [H1 H2 H3 H4 H5 [W1 W2 W3 W4] H7 H8 H9 H10 H11 H12]. split; try done. destruct W2 as (wr' & ww' & _ & _ & W2).
  split; cbn.
  - intros i c Hu. destruct (W1 i c Hu) as (? & wr2 & ww2 & ? & ? & E). split; [done |]. exists wr2, ww2.
    rewrite lookup_insert_ne; [done |]. intros Es. rewrite <- Es, W2 in E. done.
  - exists wr, ww. by rewrite lookup_insert_eq.
  - intros Hl. specialize (W3 Hl). rewrite lookup_insert_ne; [done |]. intros Es. rewrite <- Es, W2 in W3. done.
  - intros fd e [[<- <-]|[_ He]]%lookup_insert_Some; [done | by apply W4].
Qed.

Definition at_rest (r : relay) : Prop :=
  tunnel_asked r ∧ ∀ i c, used_at (r_conns r) i c → interest_ok (r_log r) c.

Lemma wp_settle r (Q : unit → relay → Prop) :
  rinv None 0 r → (∀ r', rinv None 0 r' → within r r' → at_rest r' → Q tt r') → wp settle Q r.
Proof.
  intros H HQ. unfold settle. wp1. eapply wp_flush_dirty; [exact H |]. intros r1 H1 _ W1 S1.
  eapply wp_update_tunnel_interest; [exact H1 |]. intros r2 H2 W2 Ec El T2. apply HQ; [done | by etrans |].
  split; [done |]. by rewrite Ec, El.
Qed.

(** ** The main loop *)

Definition listens (r : relay) (e : ev_event udata) : Prop :=
  ev_udata e = OWN_LISTEN → 0 ≤ ro_public_listen_fd (r_opt r).

Lemma wp_run_event k e n r (Q : bool → relay → Prop) :
  rinv None 0 r → listens r e → (∀ go r', rinv None 0 r' → ahead r r' → Q go r') → wp (run_event k e n) Q r.
Proof.
  intros H Hl HQ. assert (∀ go, Q go r) as HQr by (intros go; apply HQ; [done | reflexivity]). unfold run_event, listens in *.
  destruct (ev_udata e) as [| |idx].
  - wp1. apply (wp_mono _ (fun _ r' => rinv None 0 r' ∧ ahead r r')).
    { destruct (ev_readable e); [| by wps].
      eapply wp_tun_read; [exact H | | by intros ??]. unfold tunnel_read_fuel.
      pose proof (script_bytes_nonneg (en_reads n)). destruct (_ =? _); cbn [b2z]; lia. }
    intros rc r1 [H1 A1]. destruct (rc <? 0).
    + wps. apply HQ; [| transitivity r1; [done | by split]].
      eapply rinv_inside; [exact H1 | same_inside | done | apply H1 | apply H1].
    + wps. unfold id. apply wp_when; intros _; [| wps; by apply HQ].
      wp1. eapply wp_tun_flush; [exact H1 |]. intros _ r2 H2 W2 _. wps. apply HQ; [done |].
      transitivity r1; [done | by apply within_ahead].
  - wp1. eapply wp_accept_public; [exact H | by apply Hl |]. intros r1 H1 O1. wps. apply HQ; [done | by apply onward_ahead].
  - wps. unfold id. destruct ((idx <? 0) || (idx >=? zlen (r_conns r))) eqn:Eb; [wps; apply HQr |].
    apply orb_false_iff in Eb as [Hge%Z.ltb_ge Hlt]. rewrite Z.geb_leb in Hlt. apply Z.leb_gt in Hlt.
    destruct (lookup_lt_is_Some_2 (r_conns r) (Z.to_nat idx)) as [c Hc]; [unfold zlen in Hlt; lia |].
    wp1. eapply wp_conn_at; [apply H | lia | exact Hc |]. destruct (cn_used c) eqn:U; cbn [negb]; [| wps; apply HQr].
    assert (used_at (r_conns r) idx c) as Hu by done.
    assert (∀ r1, rinv None 0 r1 → within r r1 →
       wp (c ← conn_at idx; when_ (cn_used c && ev_readable e) (on_sock_readable idx (en_reads n));; mret true) Q r1) as Hrd.
    { intros r1 H1 W1. destruct (lookup_lt_is_Some_2 (r_conns r1) (Z.to_nat idx)) as [c1 Hc1].
      { pose proof (wi_len _ _ W1). unfold zlen in *. lia. }
      wp1. eapply wp_conn_at; [apply H1 | lia | exact Hc1 |]. wp1. apply wp_when.
      - intros [U1 _]%andb_prop. eapply (wp_on_sock_readable _ _ _ c1); [exact H1 | done |]. intros r2 H2 W2. wps.
        apply HQ; [done |]. apply within_ahead. by etrans.
      - intros _. wps. apply HQ; [done | by apply within_ahead]. }
    wp1. apply wp_when; intros _; [| apply Hrd; [done | reflexivity]].
    eapply wp_on_sock_writable; [exact H | exact Hu | exact Hrd].
Qed.

Lemma wp_run_events k evs ns r (Q : unit → relay → Prop) :
  rinv None 0 r → Forall (listens r) evs → (∀ r', rinv None 0 r' → ahead r r' → Q tt r') → wp (run_events k evs ns) Q r.
Proof.
  revert ns r. induction evs as [|e evs IH]; intros ns r H Hl HQ; cbn [run_events]; [wps; apply HQ; [done | reflexivity] |].
  apply Forall_cons_1 in Hl as [Hl Hls]. wp1. eapply wp_run_event; [exact H | exact Hl |]. intros go r1 H1 A1.
  destruct go; [| wps; by apply HQ]. apply IH; [done | | intros r2 H2 A2; apply HQ; [done | by etrans]].
  eapply Forall_impl; [exact Hls |]. unfold listens. rewrite (ah_opt _ _ A1). intros x Hx. exact Hx.
Qed.

Lemma wait_listens o d r max ready : rinv o d r → Forall (listens r) (evloop_wait (r_loop r) max ready).
Proof.
  intros H. apply Forall_forall. intros e (fd & x & Hx & Ex)%evloop_wait_udata Eu.
  pose proof (wa_only _ (ri_loop _ _ _ H) fd x Hx) as Ho. rewrite Ex, Eu in Ho. by destruct Ho as [-> ?].
Qed.

(** Where the loop waits: the interest is up to date and the wait is bounded. *)
Lemma wp_request_stop b r (Q : unit → relay → Prop) :
  rinv None 0 r → (∀ r', rinv None 0 r' → ahead r r' → Q tt r') → wp (request_stop b) Q r.
Proof.
  intros H HQ. unfold request_stop. apply wp_when; intros _; [| by apply HQ]. wps.
  apply HQ; [| by split]. eapply rinv_inside; [exact H | same_inside | done | apply H | apply H].
Qed.

Lemma wp_run_before k t r (Q : option Z → relay → Prop) :
  rinv None 0 r →
  (∀ timeout r', rinv None 0 r' → ahead r r' →
     (∀ n, timeout = Some n → at_rest r' ∧ 0 ≤ n ≤ 1000) → Q timeout r') →
  wp (run_before k t) Q r.
Proof.
  intros H HQ. unfold run_before. wp1. eapply wp_mux; [exact H | apply mux_on_timer_hush |]. intros r1 _ H1 W1.
  set (deadline := (mux_on_timer _ _).1). wp1. eapply wp_on_events; [exact H1 |]. intros r2 H2 O2 _.
  wp1. eapply wp_request_stop; [exact H2 |]. clear H2. intros r2' H2 A2'.
  assert (ahead r r2') as A2
    by (transitivity r2; [transitivity r1; [by apply within_ahead | by apply onward_ahead] | done]).
  clear O2 A2'. clear r2. rename r2' into r2. wps. unfold id.
  destruct (_ || _); [wps; by apply HQ |]. wp1. eapply wp_tun_flush; [exact H2 |]. intros rc r3 H3 W3 _.
  assert (ahead r r3) as A3 by (transitivity r2; [done | by apply within_ahead]).
  destruct (rc <? 0); [wps; by apply HQ |]. wp1. eapply wp_settle; [exact H3 |]. intros r4 H4 W4 R4. wps.
  apply HQ; [done | transitivity r3; [done | by apply within_ahead] |]. intros n [= <-]. split; [done |].
  unfold wait_timeout. destruct (_ =? _); [lia |]. cbv zeta. destruct (Z.ltb_spec (to_i64 (deadline - tn_now t)) 0); [lia |].
  destruct (Z.gtb_spec (to_i64 (deadline - tn_now t)) 1000); lia.
Qed.

Lemma wp_run_turn k t r (Q : bool → relay → Prop) :
  rinv None 0 r → (∀ go r', rinv None 0 r' → ahead r r' → (go = true → at_rest r') → Q go r') → wp (run_turn k t) Q r.
Proof.
  intros H HQ. unfold run_turn. wp1. eapply wp_request_stop; [exact H |]. intros ra Ha Aa.
  wps. unfold id. destruct (_ || _); [wps; by apply HQ |].
  wps. set (r0 := ra <| r_writes := tn_writes t |> <| r_dials := tn_dials t |>).
  assert (rinv None 0 r0) as H0 by (eapply rinv_inside; [exact Ha | same_inside | done | apply Ha | apply Ha]).
  assert (ahead r r0) as A0 by (transitivity ra; [done | by split]).
  eapply wp_run_before; [exact H0 |]. intros timeout r1 H1 A1 _. assert (ahead r r1) as A2 by (by transitivity r0).
  destruct timeout as [timeout|]; [| wps; by apply HQ].
  wp1. eapply wp_log_effect; [exact H1 | done |]. intros r2 H2 W2 _ _.
  wp1. eapply wp_request_stop; [exact H2 |]. clear H2. intros rb H2 Ab.
  assert (ahead r rb) as A3 by (transitivity r2; [transitivity r1; [done | by apply within_ahead] | done]).
  clear W2 Ab. clear r2. rename rb into r2.
  destruct (tn_wait_err t); [wps; by apply HQ |]. wps.
  eapply wp_run_events; [exact H2 | by eapply wait_listens |]. intros r3 H3 A4.
  assert (ahead r r3) as A5 by (by transitivity r2). wp1.
  eapply wp_tun_flush; [exact H3 |]. intros rc r4 H4 W4 _.
  assert (ahead r r4) as A6 by (transitivity r3; [done | by apply within_ahead]).
  destruct (rc <? 0); [wps; by apply HQ |]. wp1. eapply wp_settle; [exact H4 |]. intros r5 H5 W5 R5. wps.
  apply HQ; [done | transitivity r4; [done | by apply within_ahead] | done].
Qed.
