(* ===== verification/RelaySys.v ===== *)
(** Runs of the relay: [relay_new], [relay_run], [relay_free].

    A run is determined by what the operating system answers in each iteration
    ([turn_env]).  In every run all of relay.c's steps have a defined outcome
    (no index out of a buffer or table, no probe or loop that does not end, no
    use of a freed slab) and the structures of a relay agree; the event loop is
    asked for exactly what the connections want; the edge's cap holds; teardown
    closes every socket. *)

From stdpp Require Import base list numbers gmap.
From Stdlib Require Import ZArith Lia.
From S2P Require Import Prelude Frame OutBuf EventQueue Probe StreamTable Session SessionIO Handshake Recv SessionOpens Auth Host Fifo Umap EvLoop Relay SidMap RelayInv RelaySteps RelayIO RelayRun.

(** ** The states of a run *)

(** A relay as edge/main.c makes one: an acceptor that listens, or one that
    dials backends, over a tunnel that is not the listener. *)
Record starts (k : stack) (r : relay) : Prop := {
  sr_new : ∃ rnd hs epfd fd o, relay_new k rnd [] hs epfd fd o = Some r;
  sr_mode : one_mode (r_opt r);
  sr_tunnel : r_tunnel_fd r ≠ ro_public_listen_fd (r_opt r);
}.

(** Iterations of the loop; [false] once it has ended. *)
Fixpoint run_turns (k : stack) (ts : list turn_env) : R bool :=
  match ts with
  | [] => mret true
  | t :: ts => go ← run_turn k t; if go : bool then run_turns k ts else mret false
  end.

(** [relay_run]: the registrations and the iterations [ts]. *)
Definition relay_run (k : stack) (ts : list turn_env) : R bool := run_start;; run_turns k ts.

(** The states between two iterations. *)
Definition reached (k : stack) (r : relay) : Prop :=
  ∃ r0 ts, starts k r0 ∧ relay_run k ts r0 = Some (true, r).

(** The states in which the loop waits for events. *)
Definition waiting (k : stack) (n : Z) (r : relay) : Prop :=
  ∃ r0 t, reached k r0 ∧ run_before k t r0 = Some (Some n, r).

(** ** The invariant of a run *)

Lemma used_at_nil i c : ¬ used_at [] i c.
Proof. intros (_ & Hc & _). by rewrite lookup_nil in Hc. Qed.

Lemma slab_nil : slab [] [] 0.
Proof.
  split; [done | | constructor | intros i c _ Hc; by rewrite lookup_nil in Hc].
  exists []. split; [done |]. intros i Hi. by apply elem_of_nil in Hi.
Qed.

Lemma mapped_zero : mapped [] [] 0.
Proof.
  exists ∅. split; [apply sid_rep_zero |]. intros k i. split; [done |]. by intros (c & []%used_at_nil & _).
Qed.

Lemma started_fresh_sids k rnd hs epfd fd o r :
  relay_new k rnd [] hs epfd fd o = Some r → one_mode o → fresh_sids o [] (r_mux r).
Proof.
  unfold relay_new. cbn [alloc negb]. destruct (relay_config k rnd o) as [[cfg nonce] proof].
  intros (s & Hs & E)%bind_Some Hm. destruct (epfd <? 0); [done |]. injection E as <-. cbn [r_mux].
  destruct (session_new_opens _ _ _ _ Hs) as (Hq & Ho & _ & Hr). split; [done |]. unfold one_mode in Hm.
  destruct (ro_backend_host o).
  - exists 0. rewrite Ho, Hr. split; [simpl; lia |]. by intros i c []%used_at_nil.
  - rewrite (session_new_next _ _ _ _ Hs), Hm. split; [by exists 1 |]. split; [lia |]. by intros i c []%used_at_nil.
Qed.

Lemma wp_run_start k r (Q : unit → relay → Prop) :
  starts k r → (∀ r', rinv None 0 r' → Q tt r') → wp run_start Q r.
Proof.
  intros [(rnd & hs & epfd & fd & o & E) Hm Ht] HQ. pose proof (started_fresh_sids _ _ _ _ _ _ _ E) as Hf.
  unfold relay_new in E. cbn [alloc negb] in E. destruct (relay_config k rnd o) as [[cfg nonce] proof].
  apply bind_Some in E as (s & Hs & E). destruct (epfd <? 0); [done |]. injection E as <-. cbn in Hm, Ht, Hf.
  specialize (Hf Hm). unfold run_start. wps. unfold id. apply loop_set_eq. wps.
  match goal with |- wp (when_ ?b _) _ ?r => assert (b = true ∨ b = false ∧ rinv None 0 r) as Hb end.
  { destruct (Z.geb_spec (ro_public_listen_fd o) 0) as [|Hl]; cbn; [left; by apply Z.geb_le |]. right.
    split; [by rewrite Z.geb_leb; apply Z.leb_gt |].
    split; cbn; try done.
    - exists 0. split; [exact slab_nil | by left].
    - apply mapped_zero.
    - split; cbn; [by intros i c []%used_at_nil | exists true, false; by rewrite lookup_insert_eq | lia |].
      by intros fd' e [[<- <-]|[_ He]]%lookup_insert_Some.
    - intros i Hi. by apply elem_of_nil in Hi.
    - by intros i c []%used_at_nil.
    - by intros i c []%used_at_nil.
    - intros ?. cbn in *. lia. }
  destruct Hb as [Hb|[-> H]]; [| by apply HQ]. rewrite Hb. cbn [when_]. apply loop_set_eq. apply HQ. cbn in Hb.
  apply Z.geb_le in Hb. split; cbn; try done.
  - exists 0. split; [exact slab_nil | by left].
  - apply mapped_zero.
  - split; cbn; [by intros i c []%used_at_nil | | intros _; by rewrite lookup_insert_eq |].
    + exists true, false. by rewrite lookup_insert_ne, lookup_insert_eq.
    + intros fd' e [[<- <-]|[_ [[<- <-]|[_ He]]%lookup_insert_Some]]%lookup_insert_Some; done.
  - intros i Hi. by apply elem_of_nil in Hi.
  - by intros i c []%used_at_nil.
  - by intros i c []%used_at_nil.
  - intros _. cbn. split; [done |]. split; [| done]. intros. split; [lia | done].
Qed.

Lemma wp_run_turns k ts r (Q : bool → relay → Prop) :
  rinv None 0 r → (∀ go r', rinv None 0 r' → Q go r') → wp (run_turns k ts) Q r.
Proof.
  revert r. induction ts as [|t ts IH]; intros r H HQ; cbn [run_turns]; [wps; by apply HQ |].
  wp1. eapply wp_run_turn; [exact H |]. intros go r1 H1 _ _. destruct go; [| wps; by apply HQ]. by apply IH.
Qed.

(** What the theorems below start from. *)
Lemma reached_rinv k r : reached k r → rinv None 0 r.
Proof.
  intros (r0 & ts & Hs & E). assert (wp (relay_run k ts) (fun _ r => rinv None 0 r) r0) as Hw.
  { unfold relay_run. wp1. eapply wp_run_start; [exact Hs |]. intros r1 H1. by eapply wp_run_turns. }
  apply wp_run in Hw as (? & ? & E' & H). congruence.
Qed.

Lemma waiting_rest k n r : waiting k n r → rinv None 0 r ∧ at_rest r ∧ 0 ≤ n ≤ 1000.
Proof.
  intros (r0 & t & Hr%reached_rinv & E).
  assert (wp (run_before k t) (fun o r => ∀ n, o = Some n → rinv None 0 r ∧ at_rest r ∧ 0 ≤ n ≤ 1000) r0) as Hw.
  { eapply wp_run_before; [exact Hr |]. intros o r1 H1 _ Ho m Em. destruct (Ho m Em). done. }
  apply wp_run in Hw as (o & r1 & E' & H). rewrite E in E'. injection E' as <- <-. by apply H.
Qed.

Lemma watched_eq r i c :
  watched r → used_at (r_conns r) i c → asked c →
  r_loop r !! cn_sock c = Some (watch (conn_desired c).1 (conn_desired c).2 (UD_CONN i)).
Proof.
  intros Hw Hu [Er Ew]. destruct (wa_conn _ Hw i c Hu) as (_ & wr & ww & Er' & Ew' & ->).
  by rewrite (b2z_inj wr _ (eq_trans (eq_sym Er') Er)), (b2z_inj ww _ (eq_trans (eq_sym Ew') Ew)).
Qed.

(** ** Teardown *)

Lemma wp_destroy_all l r (Q : unit → relay → Prop) :
  rinv None 0 r → (∀ i, i ∈ l → 0 ≤ i < zlen (r_conns r)) →
  (∀ r', rinv None 0 r' → (∀ e, e ∈ r_log r → e ∈ r_log r') →
     (∀ i c, used_at (r_conns r) i c → (i ∈ l → SOCK_CLOSED (cn_sock c) ∈ r_log r') ∧ (i ∉ l → used_at (r_conns r') i c)) →
     (∀ i c, used_at (r_conns r') i c → i ∉ l ∧ used_at (r_conns r) i c) → Q tt r') →
  wp (destroy_all l) Q r.
Proof.
  revert r. induction l as [|i l IH]; intros r H Hl HQ; cbn [destroy_all].
  { wps. apply HQ; [done | done | | by intros i c ?; split; [apply not_elem_of_nil |]].
    intros i c ?. by split; [intros []%elem_of_nil |]. }
  assert (0 ≤ i < zlen (r_conns r)) as Hi by (apply Hl; by left).
  destruct (lookup_lt_is_Some_2 (r_conns r) (Z.to_nat i)) as [c Hc]; [unfold zlen in Hi; lia |].
  wp1. eapply wp_conn_at; [apply H | lia | exact Hc |]. wp1. apply wp_when; intros U.
  - assert (used_at (r_conns r) i c) as Hu by (split_and!; [lia | done | done]).
    eapply wp_conn_destroy; [by apply rinv_open | exact Hu |]. intros r1 H1 _ W1 C1 L1. apply IH; [done | |].
    { intros j Hj. assert (0 ≤ j < zlen (r_conns r)) by (apply Hl; by right). pose proof (wi_len _ _ W1). lia. }
    intros r2 H2 L2 K2 G2. apply HQ; [done | intros e He; apply L2, (wi_log _ _ W1), He | |].
    + intros j d Hd. destruct (decide (j = i)) as [->|Hne].
      * pose proof (used_at_eq _ _ _ _ Hu Hd) as ->. split; [intros _; by apply L2 | intros []; by left].
      * destruct (K2 j d) as [K3 K4]; [by apply C1 |]. rewrite not_elem_of_cons, elem_of_cons.
        split; [intros [|?]; [done | by apply K3] | intros [_ ?]; by apply K4].
    + intros j d (Hnl & [Hne Hd]%C1)%G2. by rewrite not_elem_of_cons.
  - assert (∀ d, ¬ used_at (r_conns r) i d) as Hnu by (intros d (_ & Hd & Ud); congruence).
    apply IH; [done | intros j Hj; apply Hl; by right |]. intros r2 H2 L2 K2 G2. apply HQ; [done | done | |].
    + intros j d Hd. destruct (K2 j d Hd) as [K3 K4]. rewrite not_elem_of_cons, elem_of_cons.
      split; [intros [->|?]; [by destruct (Hnu d) | by apply K3] | intros [_ ?]; by apply K4].
    + intros j d (Hnl & Hd)%G2. rewrite not_elem_of_cons. split; [split; [intros ->; by eapply Hnu | done] | done].
Qed.

(** ** Theorems *)


(** C20: No event is missed and none spins: whenever the loop waits, the
    interest the kernel has for each connection is exactly the one its buffers
    ask for (readable while the relay can take bytes, writable while bytes
    wait), unless a write to that socket has failed; the tunnel's is readable
    below 4 MiB of queued output and writable while there is any; and the wait
    is at most a second. *)
Theorem interest_settled k n r :
  waiting k n r →
  (∀ i c, used_at (r_conns r) i c → failing (r_log r) (cn_sock c) = false →
     r_loop r !! cn_sock c = Some (watch (conn_desired c).1 (conn_desired c).2 (UD_CONN i))) ∧
  r_loop r !! r_tunnel_fd r =
    Some (watch (mux_out_pending (r_mux r) <? 4 * 1024 * 1024) (mux_out_pending (r_mux r) >? 0) OWN_TUNNEL) ∧
  0 ≤ n ≤ 1000.
Proof.
  intros (H & [[Er Ew] Hs] & Hn)%waiting_rest. pose proof (ri_loop _ _ _ H) as Hw. split_and!; [| | lia | lia].
  - intros i c Hu Hf. apply watched_eq; [done | done |]. destruct (Hs i c Hu) as [?|?]; [done | congruence].
  - destruct (wa_tun _ Hw) as (wr & ww & Er' & Ew' & ->).
    by rewrite (b2z_inj wr _ (eq_trans (eq_sym Er') Er)), (b2z_inj ww _ (eq_trans (eq_sym Ew') Ew)).
Qed.

(** C36: The edge's cap: between iterations [nactive] is the number of
    connections, it never exceeds [max_streams], and the listener is watched
    unless accepting is paused, which it is only at the cap. *)
Theorem accept_cap k r :
  reached k r → 0 ≤ ro_public_listen_fd (r_opt r) →
  let max := ro_max_streams (r_opt r) in
  r_nactive r = cnt cn_used (r_conns r) ∧
  (0 < max → r_nactive r ≤ max) ∧
  r_loop r !! ro_public_listen_fd (r_opt r) = Some (watch (negb (r_listen_paused r)) false OWN_LISTEN) ∧
  (r_listen_paused r = true → 0 < max ∧ r_nactive r = max).
Proof.
  intros H%reached_rinv Hl max. destruct (ri_count _ _ _ H Hl) as (Hn & Hm & Hp). rewrite Z.add_0_r in Hn.
  split_and!; [done | intros ?; by apply Hm | by apply (wa_listen _ (ri_loop _ _ _ H)) |].
  intros Hpa. destruct (Z.lt_ge_cases 0 max) as [Hpos|Hneg]; [split; [done | by apply Hm] |]. by rewrite Hp in Hpa.
Qed.

(** The relay's sid map refines a finite map: in every state of a run
    there is a map from stream ids to connections, defined on the streams of
    the connections in use and on nothing else, that [sidmap_get] looks up. *)
Theorem sidmap_refines k r :
  reached k r →
  ∃ g : gmap Z Z, (∀ sid i, g !! sid = Some i ↔ ∃ c, used_at (r_conns r) i c ∧ cn_sid c = sid) ∧
    ∀ sid, sidmap_get sid r = Some (default (-1) (g !! sid), r).
Proof.
  intros H%reached_rinv. destruct (ri_map _ _ _ H) as (g & Hr & Hg). exists g. split; [done |]. intros sid.
  assert (wp (sidmap_get sid) (fun v r' => r' = r ∧ v = default (-1) (g !! sid)) r) as Hw.
  { eapply wp_sidmap_get; [exact H | |].
    - intros i c Hu Es. split; [done |]. by rewrite (proj2 (Hg sid i)) by by exists c.
    - intros Hn. split; [done |]. destruct (g !! sid) as [i|] eqn:E; [| done].
      apply Hg in E as (c & Hu & Es). by destruct (Hn i c). }
  apply wp_run in Hw as (v & r' & -> & -> & ->). done.
Qed.

(** Nothing is leaked: [relay_free] closes the socket of every connection
    and leaves none in the event loop. *)
Theorem free_closes_all k r :
  reached k r →
  ∃ r', relay_free r = Some (tt, r') ∧
    (∀ i c, used_at (r_conns r) i c → SOCK_CLOSED (cn_sock c) ∈ r_log r') ∧
    ∀ fd e, r_loop r' !! fd = Some e → fd = r_tunnel_fd r' ∨ fd = ro_public_listen_fd (r_opt r').
Proof.
  intros H%reached_rinv.
  assert (wp relay_free (fun _ r' => (∀ i c, used_at (r_conns r) i c → SOCK_CLOSED (cn_sock c) ∈ r_log r') ∧
    ∀ fd e, r_loop r' !! fd = Some e → fd = r_tunnel_fd r' ∨ fd = ro_public_listen_fd (r_opt r')) r) as Hw.
  { unfold relay_free. wps. unfold id. assert (∀ i, i ∈ seqZ 0 (zlen (r_conns r)) ↔ 0 ≤ i < zlen (r_conns r)) as Hall
      by (intros i; rewrite elem_of_seqZ; lia).
    eapply wp_destroy_all; [exact H | intros i; by rewrite Hall |]. intros r1 H1 _ K1 G1. split.
    - intros i c Hu. apply (K1 i c Hu), Hall. by eapply used_at_range.
    - intros fd e He. pose proof (wa_only _ (ri_loop _ _ _ H1) fd e He) as Ho. destruct (ep_data e) as [| |i].
      + by left. 
      + right. by destruct Ho.
      + destruct Ho as (c & [Hn Hu]%G1 & _). destruct Hn. apply Hall. by eapply used_at_range. }
  apply wp_run in Hw as ([] & r' & E & ?). by exists r'.
Qed.

(** ** Witnesses *)

(** An edge listening on descriptor 7 with a cap of two streams, its tunnel on
    3: the worker's greeting arrives, then three clients connect. *)
Definition stk0 : stack := mk_stack sample_ctx sample_ctx [].
Definition edge_opts : relay_opts := mk_relay_opts MUX_ACCEPTOR None None 0 0 0 0 7 2 None.
Definition relay_blank : relay :=
  mk_relay 3 (session_init [] (relay_config stk0 [] edge_opts).1.1 MUX_ACCEPTOR) edge_opts evloop_new [] [] true
    (-1) (-1) [] false [] [] 0 [] 0 0 false false false [] [] [] [] [].
Definition edge0 : relay := default relay_blank (relay_new stk0 [] [] [] 0 3 edge_opts).

Definition heard : turn_env :=
  mk_turn (false, false, false) 0 [] false [(3, EPOLLIN)] [mk_env [READ sample_hello] 0 [] []] [] [] [WROTE 1000].
Definition clients : turn_env :=
  mk_turn (false, false, false) 5 [] false [(7, EPOLLIN)] [mk_env [] 0 [(10, [49]); (11, [50]); (12, [51])] []] [] [] [WROTE 1000].

Definition edge_after (ts : list turn_env) : relay := (default (true, edge0) (relay_run stk0 ts edge0)).2.

Lemma edge_starts : starts stk0 edge0.
Proof.
  split; [| vm_compute; reflexivity | vm_compute; discriminate].
  exists [], [], 0, 3, edge_opts. apply default_Some. vm_compute. reflexivity.
Qed.

Lemma edge_reached ts :
  match relay_run stk0 ts edge0 with Some (true, _) => true | _ => false end = true → reached stk0 (edge_after ts).
Proof.
  intros E. exists edge0, ts. split; [exact edge_starts |]. unfold edge_after. by destruct (relay_run stk0 ts edge0) as [[[] r]|].
Qed.


Definition first_conn (r : relay) : conn := default conn_zero (r_conns r !! 0%nat).

(** The edge about to wait, with two clients. *)
Definition idle : turn_env := mk_turn (false, false, false) 9 [] false [] [] [] [] [].
Definition edge_wait : relay := (default (None, edge0) (run_before stk0 idle (edge_after [heard; clients]))).2.

Lemma interest_settled_witness : r_loop edge_wait !! 10 = Some (watch true false (UD_CONN 0)).
Proof.
  assert (waiting stk0 1000 edge_wait) as Hw.
  { exists (edge_after [heard; clients]), idle. split; [apply edge_reached; vm_compute; reflexivity |].
    assert ((λ x, x.1) <$> run_before stk0 idle (edge_after [heard; clients]) = Some (Some 1000)) as E by (vm_compute; reflexivity).
    unfold edge_wait. destruct (run_before stk0 idle _) as [[o r]|]; [| discriminate]. by injection E as ->. }
  destruct (interest_settled stk0 1000 edge_wait Hw) as [H _].
  exact (H 0 (first_conn edge_wait) ltac:(split_and!; vm_compute; congruence) ltac:(vm_compute; reflexivity)).
Defined.

Lemma accept_cap_witness : r_nactive (edge_after [heard; clients]) = 2.
Proof.
  assert (reached stk0 (edge_after [heard; clients])) as Hr by (apply edge_reached; vm_compute; reflexivity).
  assert (r_listen_paused (edge_after [heard; clients]) = true) as Hp by (vm_compute; reflexivity).
  destruct (accept_cap stk0 _ Hr) as (_ & _ & _ & H); [vm_compute; discriminate |].
  destruct (H Hp) as [_ E]. rewrite E. vm_compute. reflexivity.
Defined.

Lemma sidmap_refines_witness : ∃ i, sidmap_get 4 (edge_after [heard; clients]) = Some (i, edge_after [heard; clients]).
Proof.
  assert (reached stk0 (edge_after [heard; clients])) as Hr by (apply edge_reached; vm_compute; reflexivity).
  destruct (sidmap_refines stk0 _ Hr) as (g & _ & E). eexists. apply E.
Defined.

Lemma free_closes_all_witness :
  ∃ r', relay_free (edge_after [heard; clients]) = Some (tt, r') ∧ SOCK_CLOSED 10 ∈ r_log r'.
Proof.
  destruct (free_closes_all stk0 (edge_after [heard; clients])) as (r' & E & H & _); [apply edge_reached; vm_compute; reflexivity |].
  exists r'. split; [exact E |].
  apply (H 0 (first_conn (edge_after [heard; clients]))). split_and!; vm_compute; congruence.
Defined.
