(* ===== verification/RelayData.v ===== *)
(** What the relay carries: bytes cross between the session and the sockets in
    order and unchanged, the session is credited for exactly what a socket
    took, and a socket is shut down only behind its last byte. *)

From stdpp Require Import base list numbers gmap.
From Stdlib Require Import ZArith Lia.
From S2P Require Import Prelude Frame OutBuf EventQueue Probe StreamTable Session SessionIO Handshake Recv SessionInv SessionOps SessionApi SessionSys SessionFlow SessionOpens Auth Host Fifo Umap Router Balance Splice EvLoop Relay SidMap RelayInv RelaySteps RelayIO RelayRun RelaySys.

(** ** The buffers *)

Lemma rl_buf_append_spec b p :
  buf_wf b → bf_len b + zlen p < 2 ^ 64 →
  ∃ b', rl_buf_append [] b p (zlen p) = (0, [], b') ∧ buf_wf b' ∧ queued b' = queued b ++ p.
Proof.
  intros Hw Hn. unfold rl_buf_append. destruct (Z.eqb_spec (zlen p) 0) as [E|E].
  { destruct p; [| rewrite zlen_cons in E; pose proof (zlen_nonneg p); lia]. exists b. by rewrite app_nil_r. }
  cbv zeta. set (b1 := if bf_head b >? 0 then buf_shift b else b).
  assert (buf_wf b1 ∧ queued b1 = queued b ∧ bf_len b1 ≤ bf_len b) as (Hw1 & Hq1 & Hle).
  { subst b1. destruct (_ >? _); [| done]. destruct (buf_shift_spec b Hw) as [? ->]. destruct Hw.
    split_and!; [done | done | cbn; lia]. }
  destruct (buf_store_spec [] b1 p Hw1) as (ok & h & b2 & -> & _ & _ & Hh & Hs); [lia |].
  destruct (Hh eq_refl) as [-> ->]. cbn [negb]. rewrite ztake_all by lia. destruct (Hs eq_refl) as [Hw2 Hq2].
  eexists. split; [done |]. split; [exact Hw2 |]. by rewrite Hq1 in Hq2.
Qed.

Lemma buf_consume_spec b n :
  buf_wf b → 0 ≤ n ≤ buf_avail b → buf_wf (buf_consume b n) ∧ queued (buf_consume b n) = zdrop n (queued b).
Proof.
  intros Hw Hn. assert (buf_consume b n = buf_drop b n) as ->; [| by apply buf_drop_spec].
  unfold buf_consume, buf_drop, buf_rewind, buf_avail in *. cbn.
  destruct (Z.geb_spec (bf_head b + n) (bf_len b)), (Z.eqb_spec (bf_head b + n) (bf_len b)); done || lia.
Qed.

(** ** From the session to the socket *)

(** The rest of the state. *)
Definition steady (r r' : relay) : Prop :=
  (r_heap r', r_dangling r', r_dirty r', r_dirty_cap r', r_sidmap r', r_sidmap_cap r') =
  (r_heap r, r_dangling r, r_dirty r, r_dirty_cap r, r_sidmap r, r_sidmap_cap r).

(** The answers [ws] are used up, or the last one used said to wait. *)
Definition must_wait (ws ws' : list write_res) : Prop :=
  ws' = [] ∨ ∃ used, ws = used ++ WRITE_AGAIN :: ws'.

Lemma to_socket_sends fuel i r c (Q : bool → relay → Prop) :
  r_dangling r = false → 0 ≤ i → r_conns r !! Z.to_nat i = Some c → buf_wf (cn_m2s c) →
  buf_avail (cn_m2s c) < Z.of_nat fuel →
  (∀ (ok : bool) r' bss b, buf_wf b → queued (cn_m2s c) = concat bss ++ queued b → steady r r' →
     r_conns r' = <[Z.to_nat i := c <| cn_m2s := b |>]> (r_conns r) →
     r_mux r' = credit_all (cn_sid c) (r_mux r) (zlen <$> bss) →
     r_log r' = r_log r ++ (SOCK_WROTE (cn_sock c) <$> bss) ++ (if ok then [] else [SOCK_FAILED (cn_sock c)]) →
     (ok = true → queued b = [] ∨ must_wait (r_writes r) (r_writes r')) → Q ok r') →
  wp (to_socket_loop fuel i) Q r.
Proof.
  revert r c. induction fuel as [|fuel IH]; intros r c Hd Hi Hc Hw Hn HQ.
  { destruct Hw. unfold buf_avail in Hn. lia. }
  cbn [to_socket_loop]. wp1. eapply wp_conn_at; [done | done | exact Hc |]. pose proof (queued_len _ Hw) as Hl.
  assert (∀ r' (ok : bool), steady r r' → r_conns r' = r_conns r → r_mux r' = r_mux r →
     r_log r' = r_log r ++ (if ok then [] else [SOCK_FAILED (cn_sock c)]) →
     (ok = true → queued (cn_m2s c) = [] ∨ must_wait (r_writes r) (r_writes r')) → Q ok r') as Hstop.
  { intros r' ok Hs Ec Em El Hb. apply (HQ ok r' [] (cn_m2s c)); try done.
    rewrite Ec. symmetry. apply list_insert_id. rewrite Hc. by destruct c. }
  destruct (Z.gtb_spec (buf_avail (cn_m2s c)) 0) as [Hpos|Hz].
  2:{ wps. apply Hstop; try done; [by rewrite app_nil_r |]. intros _. left. by apply queued_nil. }
  fold (queued (cn_m2s c)). wp1. unfold wp at 1, sock_write. destruct (r_writes r) as [|[n| |] ws] eqn:Ews.
  - wps. apply Hstop; try done; [by rewrite app_nil_r |]. intros _. right. rewrite Ews. by left.
  - cbv zeta. set (m := Z.min n (zlen (queued (cn_m2s c)))). destruct (Z.gtb_spec m 0) as [Hm|Hm].
    2:{ cbn [Z.gtb Z.compare]. wps. by apply Hstop. }
    destruct (Z.gtb_spec m 0); [| lia]. set (b1 := buf_consume (cn_m2s c) m).
    destruct (buf_consume_spec (cn_m2s c) m Hw) as [Hw1 Hq1]; [lia |]. fold b1 in Hw1, Hq1.
    set (bs := ztake m (queued (cn_m2s c))). assert (zlen bs = m) as Hbs by (apply zlen_ztake; lia).
    unfold conn_set. wps. unfold wp at 1, mux. cbn [r_mux upd upd_r_conns upd_r_log upd_r_writes].
    destruct (mux_consume _ _ _) as [x s'] eqn:Emc. match goal with |- wp _ _ ?d => set (r1 := d) end.
    eapply (IH r1 (c <| cn_m2s := b1 |>)).
    + done.
    + done.
    + apply list_lookup_insert_eq. by eapply lookup_lt_Some.
    + exact Hw1.
    + cbn. pose proof (queued_len _ Hw1) as Hl1. rewrite Hq1, zlen_zdrop in Hl1 by lia. lia.
    + intros ok r2 bss b Hwb Eq Hs Ec Em El Hb. apply (HQ ok r2 (bs :: bss) b); [done | | done | | | |].
      * cbn [concat cn_m2s upd upd_cn_m2s] in *. rewrite <- (assoc_L (++)), <- Eq. cbn. rewrite Hq1. unfold bs. by rewrite ztake_zdrop.
      * rewrite Ec. cbn. by rewrite list_insert_insert_eq.
      * rewrite Em. cbn. by rewrite Hbs, Emc.
      * rewrite El. cbn. by rewrite <- (assoc_L (++)).
      * intros Hok. destruct (Hb Hok) as [?|[?|[used E]]]; [by left | right; by left | right; right].
        exists (WROTE n :: used). cbn in E. by rewrite E.
  - wps. apply Hstop; try done; [by rewrite app_nil_r |]. intros _. right. right. by exists [].
  - wps. by apply Hstop.
Qed.

Lemma mark_dirty_marks r i c (Q : unit → relay → Prop) :
  r_heap r = [] → r_dangling r = false → 0 ≤ i → r_conns r !! Z.to_nat i = Some c →
  (∀ r', r_conns r' = <[Z.to_nat i := c <| cn_in_dirty := true |>]> (r_conns r) → r_mux r' = r_mux r →
     r_log r' = r_log r → r_writes r' = r_writes r → r_heap r' = [] → r_dangling r' = false → Q tt r') →
  wp (mark_dirty i) Q r.
Proof.
  intros Hh Hd Hi Hc HQ. unfold mark_dirty. wp1. eapply wp_conn_at; [done | done | exact Hc |].
  destruct (cn_in_dirty c) eqn:E; [wps; apply HQ; try done; rewrite mark_in_dirty by done; symmetry; by apply list_insert_id |].
  unfold conn_set. wps. unfold id. destruct (_ >=? _).
  - wp1. eapply wp_malloc; [done |]. wps. by apply HQ.
  - wps. by apply HQ.
Qed.

(** What [flush_to_socket] logs behind the bytes. *)
Definition flush_end (c : conn) (left : bytes) (ok : bool) : list effect :=
  if ok then if cn_stream_fin c && bool_decide (left = []) && negb (cn_sock_eof c) then [SOCK_SHUT_WR (cn_sock c)] else []
  else [SOCK_FAILED (cn_sock c)].

Lemma avail_nil b : buf_wf b → (buf_avail b =? 0) = bool_decide (queued b = []).
Proof.
  intros Hw. pose proof (queued_len b Hw) as Hl. destruct (queued b) as [|x l]; cbn.
  - rewrite <- Hl. done.
  - rewrite zlen_cons in Hl. pose proof (zlen_nonneg l). apply Z.eqb_neq. lia.
Qed.

(** [flush_to_socket] on any buffer. *)
Lemma flush_sends r i c (Q : Z → relay → Prop) :
  r_heap r = [] → r_dangling r = false → 0 ≤ i → r_conns r !! Z.to_nat i = Some c → buf_wf (cn_m2s c) →
  (∀ (ok : bool) r' c' bss, r_conns r' !! Z.to_nat i = Some c' →
     same_conn c (c' <| cn_in_dirty := cn_in_dirty c |>) → buf_wf (cn_m2s c') →
     queued (cn_m2s c) = concat bss ++ queued (cn_m2s c') →
     r_mux r' = credit_all (cn_sid c) (r_mux r) (zlen <$> bss) →
     r_log r' = r_log r ++ (SOCK_WROTE (cn_sock c) <$> bss) ++ flush_end c (queued (cn_m2s c')) ok →
     (ok = true → queued (cn_m2s c') = [] ∨ must_wait (r_writes r) (r_writes r')) →
     Q (if ok then 0 else -1) r') →
  wp (flush_to_socket i) Q r.
Proof.
  intros Hh Hd Hi Hc Hw HQ. unfold flush_to_socket. wp1. eapply wp_conn_at; [done | done | exact Hc |].
  wp1. eapply to_socket_sends; [done | done | exact Hc | exact Hw | |].
  { pose proof (queued_len _ Hw). pose proof (zlen_nonneg (queued (cn_m2s c))). lia. }
  intros ok r1 bss b Hwb Eq Hs Ec Em El Hb. injection Hs as Eh Ed _ _ _ _.
  assert (r_conns r1 !! Z.to_nat i = Some (c <| cn_m2s := b |>)) as Hc1.
  { rewrite Ec. apply list_lookup_insert_eq. by eapply lookup_lt_Some. }
  destruct ok; cbn [negb]; [| wps; apply (HQ false r1 (c <| cn_m2s := b |>) bss); try done; by split].
  wp1. eapply wp_conn_at; [congruence | done | exact Hc1 |]. cbn [cn_stream_fin cn_m2s cn_sock_eof cn_sock upd upd_cn_m2s].
  rewrite (avail_nil b Hwb).
  assert (∀ r2, r_conns r2 = r_conns r1 → r_heap r2 = [] → r_dangling r2 = false → r_mux r2 = r_mux r1 → r_writes r2 = r_writes r1 →
     r_log r2 = r_log r1 ++ flush_end c (queued b) true → wp (mark_dirty i;; mret 0) Q r2) as Hend.
  { intros r2 Ec2 Eh2 Ed2 Em2 Ew2 El2. wp1. eapply mark_dirty_marks; [done | done | done | by rewrite Ec2 |].
    intros r3 Ec3 Em3 El3 Ew3 _ _. wps. apply (HQ true r3 (c <| cn_m2s := b |> <| cn_in_dirty := true |>) bss).
    - rewrite Ec3, Ec2. apply list_lookup_insert_eq. by eapply lookup_lt_Some.
    - by split.
    - exact Hwb.
    - exact Eq.
    - by rewrite Em3, Em2.
    - rewrite El3, El2, El, app_nil_r. by rewrite <- (assoc_L (++)).
    - rewrite Ew3, Ew2. exact Hb. }
  unfold flush_end in Hend. wp1. destruct (_ && _).
  - apply wp_modify, Hend; cbn; congruence.
  - apply wp_ret, Hend; try congruence. by rewrite app_nil_r.
Qed.

Lemma conn_append_appends get set r i c p (Q : unit → relay → Prop) :
  r_heap r = [] → r_dangling r = false → 0 ≤ i → r_conns r !! Z.to_nat i = Some c → buf_wf (get c) →
  bf_len (get c) + zlen p < 2 ^ 64 →
  (∀ r' b, r_conns r' = <[Z.to_nat i := set b c]> (r_conns r) → buf_wf b → queued b = queued (get c) ++ p →
     r_heap r' = [] → r_dangling r' = false → r_mux r' = r_mux r → r_log r' = r_log r → r_writes r' = r_writes r → Q tt r') →
  wp (conn_append i get set p (zlen p)) Q r.
Proof.
  intros Hh Hd Hi Hc Hw Hn HQ. unfold conn_append. wp1. eapply wp_conn_at; [done | done | exact Hc |]. wps. rewrite Hh.
  destruct (rl_buf_append_spec (get c) p Hw Hn) as (b & -> & Hwb & Eq). unfold conn_set. wps. by apply (HQ _ b).
Qed.

(** C21: Bytes that arrive on a stream go to its socket in order: of the bytes
    waiting and the new ones, in that order, those written are a prefix and the
    rest keeps waiting; the session is credited for each write with exactly the
    bytes it took; writing stops only when nothing is left, when the socket
    would block or when it fails; and the socket is shut down for writing only
    when the stream has ended and its last byte is out. *)
Theorem data_to_socket k r i c data :
  rinv None 0 r → used_at (r_conns r) i c → cn_connecting c = false → buf_wf (cn_m2s c) →
  bf_len (cn_m2s c) + zlen data < 2 ^ 64 →
  ∃ r' c' bss ok, handle_event k (EV_STREAM_DATA (cn_sid c) (Some data) (zlen data)) r = Some (tt, r') ∧
    used_at (r_conns r') i c' ∧ cn_sock c' = cn_sock c ∧ buf_wf (cn_m2s c') ∧
    queued (cn_m2s c) ++ data = concat bss ++ queued (cn_m2s c') ∧
    r_mux r' = credit_all (cn_sid c) (r_mux r) (zlen <$> bss) ∧
    r_log r' = r_log r ++ (SOCK_WROTE (cn_sock c) <$> bss) ++ flush_end c (queued (cn_m2s c')) ok ∧
    (ok = true → queued (cn_m2s c') = [] ∨ must_wait (r_writes r) (r_writes r')).
Proof.
  intros H Hu Hcon Hw Hn. pose proof Hu as (Hi & Hc & U).
  assert (wp (handle_event k (EV_STREAM_DATA (cn_sid c) (Some data) (zlen data))) (fun _ r' => ∃ c' bss ok,
    used_at (r_conns r') i c' ∧ cn_sock c' = cn_sock c ∧ buf_wf (cn_m2s c') ∧
    queued (cn_m2s c) ++ data = concat bss ++ queued (cn_m2s c') ∧
    r_mux r' = credit_all (cn_sid c) (r_mux r) (zlen <$> bss) ∧
    r_log r' = r_log r ++ (SOCK_WROTE (cn_sock c) <$> bss) ++ flush_end c (queued (cn_m2s c')) ok ∧
    (ok = true → queued (cn_m2s c') = [] ∨ must_wait (r_writes r) (r_writes r'))) r) as Hwp.
  { cbn [handle_event]. wp1. eapply wp_sidmap_get; [exact H | | intros Hno; by destruct (Hno i c Hu)].
    intros j d Hd Es. assert (j = i) as -> by (eapply mapped_inj; [apply H | exact Hd | exact Hu | done]).
    destruct (Z.ltb_spec i 0) as [|_]; [lia |]. cbn [vbytes].
    wp1. eapply conn_append_appends; [apply H | apply H | done | exact Hc | done | done |].
    intros r1 b Ec Hwb Eq Eh Ed Em El Ew. set (c1 := set_m2s b c) in *.
    assert (r_conns r1 !! Z.to_nat i = Some c1) as Hc1 by (rewrite Ec; apply list_lookup_insert_eq; by eapply lookup_lt_Some).
    wp1. eapply wp_conn_at; [done | done | exact Hc1 |]. change (cn_connecting c1) with (cn_connecting c). rewrite Hcon. cbn [negb].
    wp1. eapply flush_sends; [done | done | done | exact Hc1 | exact Hwb |].
    intros ok r2 c2 bss Hc2 [S1 _ S3 _ _ _] Hw2 Eq2 Em2 El2 Hst. wps. exists c2, bss, ok. cbn in S1, S3.
    split_and!; try done; [by split_and!; [| | rewrite S1] | by rewrite <- Eq | by rewrite Em2, Em | by rewrite El2, El | by rewrite <- Ew]. }
  apply wp_run in Hwp as ([] & r' & E & c' & bss & ok & Hp). by exists r', c', bss, ok.
Qed.

(** ** From the socket to the session *)

(** A script of reads that all deliver bytes, up to one that would block. *)
Definition data_only (rs : list read_res) : Prop :=
  Forall (fun x => match x with READ bs => bs <> [] | READ_AGAIN => True | _ => False end) rs.

(** The bytes such a script delivers before it blocks. *)
Fixpoint script_data (rs : list read_res) : bytes :=
  match rs with READ bs :: rs => bs ++ script_data rs | _ => [] end.

(** Between [s] and [s'] the session put the frames [ws] of [sid] on the wire. *)
Record carries (s : mux_session) (sid : Z) (ws : list wframe) (s' : mux_session) : Prop := {
  sn_wf : session_wf s';
  sn_out : outp s' = outp s ++ wire ws;
  sn_data : Forall (data_frame sid) ws;
}.

Lemma carries_trans s sid ws s1 ws' s2 : carries s sid ws s1 → carries s1 sid ws' s2 → carries s sid (ws ++ ws') s2.
Proof.
  intros [_ O1 D1] [W2 O2 D2]. split; [done | | by apply Forall_app].
  by rewrite O2, O1, wire_app, (assoc_L (++)).
Qed.

Lemma script_data_read n bs rs :
  0 ≤ n ≤ zlen bs →
  ztake n bs ++ script_data (if n <? zlen bs then READ (zdrop n bs) :: rs else rs) = script_data (READ bs :: rs).
Proof.
  intros Hn. destruct (Z.ltb_spec n (zlen bs)); cbn [script_data].
  - by rewrite (assoc_L (++)), ztake_zdrop.
  - by rewrite ztake_all by lia.
Qed.

(** What the read loop leaves: a connection that has read [got] and whose
    session has taken all of it but what is queued, or none. *)
Record has_read (i : Z) (c : conn) (rs : list read_res) (got : bytes) (ws : list wframe) (r' : relay) (c' : conn) : Prop := {
  hr_at : used_at (r_conns r') i c';
  hr_sock : cn_sock c' = cn_sock c;
  hr_got : concat (w_payload <$> ws) ++ queued (cn_s2m c') = got;
  hr_all : queued (cn_s2m c') = [] → got = script_data rs;
  hr_blocked : queued (cn_s2m c') ≠ [] → cn_send_blocked c' = true;
}.

Lemma sock_read_sends fuel i rs r c (Q : unit → relay → Prop) :
  rinv None 0 r → used_at (r_conns r) i c → session_wf (r_mux r) → buf_wf (cn_s2m c) → queued (cn_s2m c) = [] →
  bf_len (cn_s2m c) + TMP_SIZE < 2 ^ 64 → data_only rs → script_bytes rs < Z.of_nat fuel →
  (∀ r' ws got, carries (r_mux r) (cn_sid c) ws (r_mux r') → got `prefix_of` script_data rs →
     (∃ c', has_read i c rs got ws r' c') ∨ (∀ c', ¬ used_at (r_conns r') i c') → Q tt r') →
  wp (sock_read_loop fuel i rs) Q r.
Proof.
  intros H Hu Hs Hb Hq Hlen. pose proof Hu as (Hi & Hc & U).
  revert rs r H Hu Hc Hs. induction fuel as [|fuel IH]; intros rs r H Hu Hc Hs Hrs Hn HQ; cbn [sock_read_loop].
  { pose proof (script_bytes_nonneg rs). lia. }
  assert (carries (r_mux r) (cn_sid c) [] (r_mux r)) as Hnone by (split; [done | by rewrite app_nil_r | done]).
  assert (script_data rs = [] → Q tt r) as Hstop.
  { intros E. apply (HQ r [] []); [done | by apply prefix_nil | left; exists c].
    split; [done | done | by rewrite Hq | done | by rewrite Hq]. }
  destruct rs as [|[bs| | |] rs]; [by wps; apply Hstop | | | by wps; apply Hstop |]; cbv zeta.
  2, 3: by apply Forall_cons_1 in Hrs as [[] _].
  apply Forall_cons_1 in Hrs as [Hbs Hrs]. pose proof (zlen_nonneg bs) as Hz.
  set (n := Z.min (zlen bs) TMP_SIZE). set (rs' := if n <? zlen bs then _ else rs).
  assert (0 < n ≤ zlen bs) as Hnb.
  { destruct bs as [|x l]; [done |]. unfold n, TMP_SIZE. rewrite zlen_cons. pose proof (zlen_nonneg l). lia. }
  destruct (Z.eqb_spec n 0); [lia |].
  pose proof (script_bytes_read n bs rs ltac:(lia)) as Eb. pose proof (script_data_read n bs rs ltac:(lia)) as Ed.
  fold rs' in Eb, Ed. set (tmp := ztake n bs) in *.
  assert (data_only rs') as Hrs'.
  { unfold rs'. destruct (Z.ltb_spec n (zlen bs)); [| done]. constructor; [| done]. intros E.
    pose proof (zlen_zdrop n bs ltac:(lia)) as El. rewrite E, zlen_nil in El. lia. }
  assert (zlen tmp = n) as Ht by (apply zlen_ztake; lia). assert (n ≤ TMP_SIZE) as Hnt by (unfold n; lia).
  wp1. eapply wp_conn_used; [exact H | exact Hu |].
  assert (zlen tmp < 2 ^ 63) as Ht63 by (rewrite Ht; unfold n, TMP_SIZE; lia).
  destruct (write_any (r_mux r) (cn_sid c) tmp Hs Ht63) as (w & s1 & ws & Ew & Hs1 & Hle & Ho & Hdf & Hcat).
  rewrite Ht in Ew, Hle.
  wp1. eapply (wp_mux _ _ _ (fun s => mux_write s (cn_sid c) (Some tmp) n)); [exact H | apply mux_write_hush |]. intros r1 E1 H1 W1. rewrite Ew in E1 |- *. cbn [fst snd] in *.
  assert (carries (r_mux r) (cn_sid c) ws (r_mux r1)) as Hsn by (rewrite E1; by split).
  assert (used_at (r_conns r1) i c) as Hu1 by (rewrite E1; exact Hu).
  destruct (Z.ltb_spec w 0) as [Hw|Hw].
  { unfold conn_abandon. wp1. eapply wp_conn_upd; [exact H1 | exact Hu1 |]. set (c1 := c <| cn_gone := true |>).
    eapply wp_conn_destroy; [apply (rinv_put _ _ _ c c1); [by apply rinv_open | exact Hu1 | by split] | by eapply used_put |].
    intros r2 H2 Em2 _ Hc2 _. apply (HQ r2 ws []); [by rewrite Em2 | apply prefix_nil |]. right. intros c' [Hne _]%Hc2. done. }
  rewrite Z.max_l in Hcat by done. destruct (Z.ltb_spec w n) as [Hlt|Hge].
  - assert (zlen (zdrop w tmp) = n - w) as El by (rewrite zlen_zdrop; lia). rewrite <- El.
    assert (r_conns r1 !! Z.to_nat i = Some c) as Hc1 by by rewrite E1.
    wp1. eapply (conn_append_appends cn_s2m set_s2m); [apply H1 | apply H1 | done | exact Hc1 | done | rewrite El; lia |].
    intros r2 b Ec Hwb Eq Eh Edg Em _ _. rewrite Hq in Eq. cbn in Eq.
    unfold block_sender, conn_upd, conn_set. wps.
    assert (r_conns r2 !! Z.to_nat i = Some (set_s2m b c)) as Hc2.
    { rewrite Ec. apply list_lookup_insert_eq. by eapply lookup_lt_Some. }
    eapply wp_conn_at; [done | done | exact Hc2 |]. wps. set (c2 := set_s2m b c <| cn_send_blocked := true |>).
    eapply (mark_dirty_marks _ i c2); [done | done | done | cbn; apply list_lookup_insert_eq; by eapply lookup_lt_Some |].
    intros r3 Ec3 Em3 _ _ _ _. apply (HQ r3 ws tmp).
    + rewrite Em3. cbn. by rewrite Em.
    + rewrite <- Ed. by apply prefix_app_r.
    + left. exists (c2 <| cn_in_dirty := true |>). split; cbn.
      * split_and!; [done | | done]. rewrite Ec3. cbn. apply list_lookup_insert_eq. rewrite length_insert. by eapply lookup_lt_Some.
      * done.
      * rewrite Hcat, Eq. apply ztake_zdrop.
      * rewrite Eq. intros E. rewrite E, zlen_nil in El. lia.
      * done.
  - assert (w = n) as -> by lia. rewrite <- Ht, ztake_all in Hcat by lia.
    eapply (IH rs' r1); [exact H1 | exact Hu1 | by rewrite E1 | apply Hsn | exact Hrs' | lia |].
    intros r2 ws2 got Hsn2 Hpre Hend. apply (HQ r2 (ws ++ ws2) (tmp ++ got)).
    + by eapply carries_trans.
    + rewrite <- Ed. by apply prefix_app.
    + destruct Hend as [[c2 [A1 A2 A3 A4 A5]]|?]; [left; exists c2 | by right]. split; [done | done | | | done].
      * by rewrite fmap_app, concat_app, Hcat, <- (assoc_L (++)), A3.
      * intros E. by rewrite <- Ed, (A4 E).
Qed.

Lemma queued_pos b : buf_wf b → 0 < buf_avail b → queued b ≠ [].
Proof. intros Hw Ha E. pose proof (queued_len b Hw) as Hl. rewrite E, zlen_nil in Hl. lia. Qed.

(** What [flush_to_mux]'s loop leaves: [false] behind a refusal. *)
Lemma to_mux_sends fuel i r c (Q : bool → relay → Prop) :
  r_heap r = [] → r_dangling r = false → 0 ≤ i → r_conns r !! Z.to_nat i = Some c →
  session_wf (r_mux r) → buf_wf (cn_s2m c) → buf_avail (cn_s2m c) < 2 ^ 63 → buf_avail (cn_s2m c) < Z.of_nat fuel →
  (∀ (ok : bool) r' c' ws, r_conns r' !! Z.to_nat i = Some c' → buf_wf (cn_s2m c') → r_heap r' = [] → r_dangling r' = false →
     (cn_used c', cn_sock_eof c', cn_sid c') = (cn_used c, cn_sock_eof c, cn_sid c) →
     carries (r_mux r) (cn_sid c) ws (r_mux r') →
     queued (cn_s2m c) = concat (w_payload <$> ws) ++ queued (cn_s2m c') →
     (if ok then queued (cn_s2m c') = [] else queued (cn_s2m c') ≠ [] ∧ cn_send_blocked c' = true) → Q ok r') →
  wp (to_mux_loop fuel i) Q r.
Proof.
  revert r c. induction fuel as [|fuel IH]; intros r c Hh Hd Hi Hc Hs Hw H63 Hn HQ.
  { destruct Hw. unfold buf_avail in Hn. lia. }
  cbn [to_mux_loop]. wp1. eapply wp_conn_at; [done | done | exact Hc |]. cbv zeta.
  assert (carries (r_mux r) (cn_sid c) [] (r_mux r)) as Hnone by (split; [done | by rewrite app_nil_r | done]).
  pose proof (queued_len _ Hw) as Hl. destruct (Z.gtb_spec (buf_avail (cn_s2m c)) 0) as [Hpos|Hz].
  2:{ wps. apply (HQ true r c []); try done. by apply queued_nil. }
  fold (queued (cn_s2m c)). destruct (write_any (r_mux r) (cn_sid c) (queued (cn_s2m c)) Hs) as (w & s1 & ws & Ew & Hs1 & Hle & Ho & Hdf & Hcat); [lia |].
  rewrite Hl in Ew, Hle. wp1. unfold wp at 1, mux. rewrite Ew.
  set (b := if w >? 0 then buf_consume (cn_s2m c) w else cn_s2m c).
  assert (buf_wf b ∧ queued b = zdrop (Z.max w 0) (queued (cn_s2m c))) as [Hwb Hqb].
  { unfold b. destruct (Z.gtb_spec w 0).
    - rewrite Z.max_l by lia. apply buf_consume_spec; [done | lia].
    - rewrite Z.max_r by lia. by rewrite zdrop_0. }
  pose proof (queued_len b Hwb) as Hlb. rewrite Hqb, zlen_zdrop in Hlb by lia.
  unfold conn_set. wps. match goal with |- wp _ _ ?x => set (r1 := x) end. set (c1 := c <| cn_s2m := b |>).
  assert (r_conns r1 !! Z.to_nat i = Some c1) as Hc1 by (apply list_lookup_insert_eq; by eapply lookup_lt_Some).
  assert (carries (r_mux r) (cn_sid c) ws (r_mux r1)) as Hsn by by split.
  assert (queued (cn_s2m c) = concat (w_payload <$> ws) ++ queued b) as Eq by (by rewrite Hcat, Hqb, ztake_zdrop).
  destruct ((w <=? 0) || (w <? buf_avail b)) eqn:Eb.
  - unfold block_sender, conn_upd, conn_set. wps. eapply wp_conn_at; [done | done | exact Hc1 |]. wps.
    set (c2 := c1 <| cn_send_blocked := true |>).
    assert (Hc2 : r_conns (r1 <| r_conns ::= <[Z.to_nat i := c2]> |>) !! Z.to_nat i = Some c2).
    { cbn. apply list_lookup_insert_eq. rewrite length_insert. by eapply lookup_lt_Some. }
    assert (queued b ≠ []) as Hqn.
    { apply queued_pos; [done |]. apply orb_prop in Eb as [?%Z.leb_le|?%Z.ltb_lt]; lia. }
    eapply mark_dirty_marks; [done | done | done | exact Hc2 |]. intros r3 Ec3 Em3 _ _ Hh3 Hd3. wps.
    apply (HQ false r3 (c2 <| cn_in_dirty := true |>) ws); try done; [| by rewrite Em3].
    rewrite Ec3. apply list_lookup_insert_eq. by eapply lookup_lt_Some.
  - apply orb_false_iff in Eb as [Ew0%Z.leb_gt _].
    eapply (IH r1 c1); try done; [cbn; lia | cbn; lia |].
    intros ok r2 c2 ws2 Hc2 Hw2 Hh2 Hd2 Es2 Hsn2 Eq2 Hok. apply (HQ ok r2 c2 (ws ++ ws2)); try done.
    + by eapply carries_trans.
    + by rewrite Eq, fmap_app, concat_app, <- (assoc_L (++)), <- Eq2.
Qed.


(** When the session can take more, the bytes queued from the socket are
    sent from the front, in order; a connection that still has some stays
    blocked, and FIN is sent, after the socket's EOF, only when none are left. *)
Theorem queued_to_tunnel r i c :
  rinv None 0 r → used_at (r_conns r) i c → session_wf (r_mux r) → buf_wf (cn_s2m c) → buf_avail (cn_s2m c) < 2 ^ 63 →
  ∃ r' c' ws s, flush_to_mux i r = Some (tt, r') ∧ used_at (r_conns r') i c' ∧ carries (r_mux r) (cn_sid c) ws s ∧
    queued (cn_s2m c) = concat (w_payload <$> ws) ++ queued (cn_s2m c') ∧
    cn_send_blocked c' = bool_decide (queued (cn_s2m c') ≠ []) ∧
    r_mux r' = if cn_sock_eof c && bool_decide (queued (cn_s2m c') = []) then (mux_close s (cn_sid c)).2 else s.
Proof.
  intros H Hu Hs Hb H63. pose proof Hu as (Hi & Hc & U).
  assert (wp (flush_to_mux i) (fun _ r' => ∃ c' ws s, used_at (r_conns r') i c' ∧ carries (r_mux r) (cn_sid c) ws s ∧
    queued (cn_s2m c) = concat (w_payload <$> ws) ++ queued (cn_s2m c') ∧
    cn_send_blocked c' = bool_decide (queued (cn_s2m c') ≠ []) ∧
    r_mux r' = if cn_sock_eof c && bool_decide (queued (cn_s2m c') = []) then (mux_close s (cn_sid c)).2 else s) r) as Hwp.
  { unfold flush_to_mux. wp1. eapply wp_conn_used; [exact H | exact Hu |].
    wp1. eapply to_mux_sends; [apply H | apply H | done | exact Hc | exact Hs | exact Hb | exact H63 | |].
    { pose proof (queued_len _ Hb). pose proof (zlen_nonneg (queued (cn_s2m c))). lia. }
    intros ok r1 c1 ws Hc1 Hw1 Hh1 Hd1 Es Hsn Eq Hok. injection Es as Eu Ee Esid. destruct ok; cbn [negb].
    2:{ destruct Hok as [Hne Hbl]. wps. exists c1, ws, (r_mux r1). rewrite Hbl, bool_decide_true by done.
        rewrite bool_decide_false, andb_false_r by done. split_and!; try done. split_and!; [done | done | by rewrite Eu]. }
    unfold conn_upd, conn_set. wps. eapply wp_conn_at; [done | done | exact Hc1 |]. wps.
    set (c2 := c1 <| cn_send_blocked := false |>). pose proof (lookup_lt_Some _ _ _ Hc1) as Hlt.
    match goal with |- wp _ _ ?x => set (r2 := x) end.
    assert (r_conns r2 !! Z.to_nat i = Some c2) as Hc2 by by apply list_lookup_insert_eq.
    eapply wp_conn_at; [done | done | exact Hc2 |].
    assert (∀ r3, r_conns r3 = r_conns r2 → r_heap r3 = [] → r_dangling r3 = false →
      r_mux r3 = (if cn_sock_eof c then (mux_close (r_mux r1) (cn_sid c)).2 else r_mux r1) →
      wp (mark_dirty i) (fun _ r' => ∃ c' ws s, used_at (r_conns r') i c' ∧ carries (r_mux r) (cn_sid c) ws s ∧
        queued (cn_s2m c) = concat (w_payload <$> ws) ++ queued (cn_s2m c') ∧
        cn_send_blocked c' = bool_decide (queued (cn_s2m c') ≠ []) ∧
        r_mux r' = if cn_sock_eof c && bool_decide (queued (cn_s2m c') = []) then (mux_close s (cn_sid c)).2 else s) r3) as Hend.
    { intros r3 Ec3 Hh3 Hd3 Em3. eapply (mark_dirty_marks _ i c2); [done | done | done | by rewrite Ec3 |].
      intros r4 Ec4 Em4 _ _ _ _. exists (c2 <| cn_in_dirty := true |>), ws, (r_mux r1). cbn. rewrite Hok.
      rewrite bool_decide_false by (by intros []). rewrite bool_decide_true, andb_true_r by done.
      split_and!; [split_and!; [done | | by rewrite <- U, <- Eu] | done | by rewrite Eq, Hok | done | by rewrite Em4].
      rewrite Ec4, Ec3. apply list_lookup_insert_eq. cbn. by rewrite length_insert. }
    wp1. change (cn_sock_eof c2) with (cn_sock_eof c1). rewrite Ee. destruct (cn_sock_eof c).
    - cbn [when_]. wp1. unfold wp at 1, mux. change (cn_sid c2) with (cn_sid c1). rewrite Esid.
      change (r_mux r2) with (r_mux r1) in *. destruct (mux_close (r_mux r1) (cn_sid c)) as [x s'].
      wp1. by apply Hend.
    - apply wp_ret. by apply Hend. }
  apply wp_run in Hwp as ([] & r' & E & c' & ws & s & ?). by exists r', c', ws, s.
Qed.

(** ** Where bytes or streams are lost *)

(** A read error leaks the stream: the connection is destroyed without a
    RST, the session keeps the stream, and no connection is left whose end
    would ever close it. *)
Theorem read_error_leaks r i c rs :
  rinv None 0 r → used_at (r_conns r) i c → buf_avail (cn_s2m c) ≤ 0 →
  ∃ r', on_sock_readable i (READ_ERROR :: rs) r = Some (tt, r') ∧ r_mux r' = r_mux r ∧
    ∀ j d, used_at (r_conns r') j d → cn_sid d ≠ cn_sid c.
Proof.
  intros H Hu Ha.
  assert (wp (on_sock_readable i (READ_ERROR :: rs)) (fun _ r' => r_mux r' = r_mux r ∧
    ∀ j d, used_at (r_conns r') j d → cn_sid d ≠ cn_sid c) r) as Hwp.
  { unfold on_sock_readable. wp1. eapply wp_conn_used; [exact H | exact Hu |].
    destruct (Z.gtb_spec (buf_avail (cn_s2m c)) 0); [lia |]. cbn [sock_read_loop]. unfold conn_abandon.
    wp1. eapply wp_conn_upd; [exact H | exact Hu |]. set (c1 := c <| cn_gone := true |>). pose proof Hu as (_ & _ & U).
    assert (rinv (Some i) 0 (put_conn i c1 r)) as H1 by (apply (rinv_put _ _ _ c); [by apply rinv_open | exact Hu | by split]).
    assert (used_at (r_conns (put_conn i c1 r)) i c1) as Hu1 by by eapply used_put.
    eapply wp_conn_destroy; [exact H1 | exact Hu1 |]. intros r2 H2 Em2 _ Hc2 _. split; [by rewrite Em2 |].
    intros j d [Hne Hd]%Hc2 E. apply Hne. eapply mapped_inj; [apply H1 | exact Hd | exact Hu1 | done]. }
  apply wp_run in Hwp as ([] & r' & E & ?). by exists r'.
Qed.

(** A frame longer than the receive buffer stalls the tunnel: once the
    buffer is full of its beginning, [tunnel_read] reports success without
    reading or changing anything, so the descriptor stays readable and the loop
    spins on it. *)
Theorem long_frame_stalls fuel k rs r :
  s_dead (r_mux r) = false → q_count (s_q (r_mux r)) = 0 → zlen (r_recv r) = RECV_BUF_SIZE →
  mux_parse (Some (r_recv r)) (zlen (r_recv r)) = inl MUX_ERR_SHORT →
  tunnel_read (S fuel) k rs r = Some (0, r).
Proof.
  intros Hd Hq Hr Hp.
  assert (∀ x, r_mux r = x → r <| r_mux := x |> = r) as Hid by (intros x; destruct r; cbn; by intros ->).
  assert (mux_next_event (r_mux r) = (None, r_mux r)) as En.
  { unfold mux_next_event, evq_pop. rewrite Hq. cbn. by destruct (r_mux r). }
  assert (mux_recv (r_mux r) (Some (r_recv r)) (zlen (r_recv r)) = (0, r_mux r)) as Er.
  { rewrite (mux_recv_feed (S (Z.to_nat (zlen (r_recv r))))) by (done || lia). rewrite feed_S, Hp, Hr.
    change (0 <? RECV_BUF_SIZE) with true. cbv beta iota. by destruct (q_full _). }
  assert (pump_recv k r = Some (0, r)) as Epump.
  { unfold pump_recv. rewrite (bind_some _ _ _ r r) by done.
    rewrite (bind_some _ _ _ 0 r) by (unfold mux; rewrite Er; by rewrite Hid).
    rewrite (bind_some _ _ _ tt r); [done |].
    unfold handle_events. rewrite (bind_some _ _ _ 2%nat r) by (unfold gets; by rewrite Hq).
    cbn [events_loop]. rewrite (bind_some _ _ _ None r); [done |]. unfold mux. by rewrite En, Hid. }
  cbn [tunnel_read]. rewrite (bind_some _ _ _ r r) by done. rewrite Hr, Z.sub_diag, Z.eqb_refl.
  rewrite (bind_some _ _ _ 0 r) by exact Epump. cbv beta. destruct (Z.ltb_spec 0 0); [lia |].
  rewrite (bind_some _ _ _ r r) by done. by rewrite Hr, Z.eqb_refl.
Qed.

(** ** Witnesses *)

(** The edge of RelaySys, registered; its session has the worker's greeting;
    one client is accepted on descriptor 10. *)
Definition edge_cfg : mux_config := (relay_config stk0 [] edge_opts).1.1.
Definition edge_s1 : mux_session := snd (mux_recv (r_mux edge0) (Some sample_hello) (zlen sample_hello)).
Definition edge_s2 : mux_session := snd (mux_open edge_s1 (Some [49]) (zlen (vbytes (Some [49])))).
Definition edge_started : relay := (default (tt, edge0) (run_start edge0)).2.
Definition edge_greeted : relay := edge_started <| r_mux := edge_s1 |>.
Definition edge_accepted : relay := (default (tt, edge0) (accept_one 10 [49] edge_greeted)).2.
Definition edge_client : relay := edge_accepted <| r_mux := edge_s2 |>.
Definition client : conn := first_conn edge_client.

Lemma edge_cfg_ok : config_ok edge_cfg.
Proof.
  assert (edge_cfg = mk_config 0 0 0 15000 0 0 0 None 0 None 0 None 0) as -> by (vm_compute; reflexivity).
  split; cbn; try lia. unfold blob_arg_ok. cbn. split_and!; try lia; by left.
Qed.

Lemma edge_session : mux_session_new [] edge_cfg MUX_ACCEPTOR = Some (r_mux edge0).
Proof.
  assert (match mux_session_new [] edge_cfg MUX_ACCEPTOR with Some _ => true | None => false end = true) as Hs
    by (vm_compute; reflexivity).
  unfold edge0, relay_new. cbn [alloc negb]. change (relay_config stk0 [] edge_opts) with (edge_cfg, @nil Z, @nil Z).
  cbv beta iota. change (ro_role edge_opts) with MUX_ACCEPTOR.
  destruct (mux_session_new [] edge_cfg MUX_ACCEPTOR); [reflexivity | discriminate].
Qed.

(** A session that has read [bs] and opened a stream. *)
Lemma opened_wf cfg role s bs meta :
  config_ok cfg → mux_session_new [] cfg role = Some s → bytes_ok bs →
  s_next_local_sid (mux_recv s (Some bs) (zlen bs)).2 ≠ 2 ^ 32 - 1 →
  session_wf (mux_open (mux_recv s (Some bs) (zlen bs)).2 meta (zlen (vbytes meta))).2.
Proof.
  intros Hc Hs Hb Hn. assert (reachable [] cfg role (at_start s)) as Hr by (exists s; split; [done | apply rtc_refl]).
  pose proof (ho_wf _ _ _ (reachable_ok _ _ _ _ Hc Hr)) as Hw.
  pose proof (op_wf _ _ (mux_recv_op s bs Hb Hw)) as Hw1.
  exact (op_wf _ _ (mux_open_op _ meta _ eq_refl Hn Hw1)).
Qed.

Lemma edge_s2_wf : session_wf edge_s2.
Proof.
  apply (opened_wf edge_cfg MUX_ACCEPTOR); [exact edge_cfg_ok | exact edge_session | | vm_compute; discriminate].
  apply (bool_decide_unpack _). vm_compute. exact I.
Qed.

Lemma rinv_session r x : rinv None 0 r → fresh_sids (r_opt r) (r_conns r) x → rinv None 0 (r <| r_mux := x |>).
Proof. intros H Hf. eapply rinv_inside; [exact H | same_inside | done | exact Hf | apply H]. Qed.

Lemma wp_default {A} (m : R A) d r (P : relay → Prop) : wp m (fun _ r' => P r') r → P (default d (m r)).2.
Proof. intros (a & r' & -> & H)%wp_run. exact H. Qed.

Lemma edge_client_rinv : rinv None 0 edge_client.
Proof.
  assert (rinv None 0 edge_started) as H1.
  { refine (wp_default run_start (tt, edge0) edge0 (rinv None 0) _). eapply wp_run_start; [exact edge_starts | done]. }
  assert (r_mux edge_started = r_mux edge0) as E1.
  { refine (wp_default run_start (tt, edge0) edge0 (fun r => r_mux r = r_mux edge0) _).
    unfold run_start. wps. unfold id. unfold loop_set. apply wp_modify. wps. apply wp_when; intros _; [by apply wp_modify | done]. }
  assert (rinv None 0 edge_greeted) as H2.
  { apply rinv_mux; [exact H1 |]. rewrite E1. apply mux_recv_opens. }
  assert (rinv None 0 edge_accepted) as H3.
  { refine (wp_default (accept_one 10 [49]) (tt, edge0) edge_greeted (rinv None 0) _).
    eapply wp_accept_one; [exact H2 | vm_compute; discriminate | lia | vm_compute; reflexivity | by intros; vm_compute | by intros]. }
  refine (rinv_session edge_accepted edge_s2 H3 _). split; [apply edge_s2_wf |]. assert (ro_backend_host (r_opt edge_accepted) = None) as -> by (vm_compute; reflexivity).
  assert (s_next_local_sid edge_s2 = 4) as Hn by (vm_compute; reflexivity).
  rewrite Hn. split; [by exists 2 |]. split; [lia |].
  assert (forallb (fun c => cn_sid c <? 4) (r_conns edge_accepted) = true) as Hall by (vm_compute; reflexivity).
  intros i c (_ & Hc & _). left. rewrite forallb_forall in Hall. apply Z.ltb_lt, Hall.
  apply list_elem_of_lookup_2, list_elem_of_In in Hc. exact Hc.
Qed.

Lemma client_used : used_at (r_conns edge_client) 0 client.
Proof. split_and!; vm_compute; congruence. Qed.

Lemma data_to_socket_witness :
  ∃ r', handle_event stk0 (EV_STREAM_DATA (cn_sid client) (Some [1; 2; 3]) (zlen [1; 2; 3])) edge_client = Some (tt, r').
Proof.
  destruct (data_to_socket stk0 edge_client 0 client [1; 2; 3]) as (r' & _ & _ & _ & E & _).
  - exact edge_client_rinv.
  - exact client_used.
  - vm_compute. reflexivity.
  - split; vm_compute; intuition congruence.
  - vm_compute. reflexivity.
  - exists r'. exact E.
Defined.


Lemma queued_to_tunnel_witness : ∃ r', flush_to_mux 0 edge_client = Some (tt, r').
Proof.
  destruct (queued_to_tunnel edge_client 0 client) as (r' & _ & _ & _ & E & _).
  - exact edge_client_rinv.
  - exact client_used.
  - exact edge_s2_wf.
  - split; vm_compute; intuition congruence.
  - vm_compute. reflexivity.
  - exists r'. exact E.
Defined.

Lemma read_error_leaks_witness :
  ∃ r', on_sock_readable 0 [READ_ERROR] edge_client = Some (tt, r') ∧ r_mux r' = r_mux edge_client ∧
    t_count (s_tab (r_mux edge_client)) = 1.
Proof.
  destruct (read_error_leaks edge_client 0 client []) as (r' & E & Em & _).
  - exact edge_client_rinv.
  - exact client_used.
  - vm_compute. discriminate.
  - exists r'. split; [exact E |]. split; [exact Em | vm_compute; reflexivity].
Defined.

(** The first 256 KiB of a DATA frame of 300000 bytes. *)
Definition long_frame : bytes := ztake RECV_BUF_SIZE (enc (mk_wframe MUX_T_DATA 0 1 (replicate (Z.to_nat 300000) 0))).
Definition edge_full : relay := edge0 <| r_recv := long_frame |>.

Lemma long_frame_stalls_witness : tunnel_read 1 stk0 [READ [1; 2; 3]] edge_full = Some (0, edge_full).
Proof.
  apply (long_frame_stalls 0 stk0 [READ [1; 2; 3]] edge_full).
  - vm_compute. reflexivity.
  - vm_compute. reflexivity.
  - vm_compute. reflexivity.
  - vm_compute. reflexivity.
Defined.
