(* ===== verification/RelayAuth.v ===== *)
(** Authentication through the relay: what the PEER_HELLO case of
    [handle_events] (common/relay.c) accepts, and whom it accepts. *)

From stdpp Require Import base list numbers gmap.
From Stdlib Require Import ZArith Lia.
From S2P Require Import Prelude Frame OutBuf EventQueue Probe StreamTable Session SessionIO Handshake Recv SessionInv SessionOps SessionApi SessionSys SessionFlow Connect Auth Host Fifo Umap Router Balance Splice RouterAuth EvLoop Relay SidMap RelayInv RelaySteps RelayIO RelayRun RelaySys.

(** The event's views have their lengths and hold bytes. *)
Abbreviation hello_views := RouterAuth.hello_ok.

(** The test of the PEER_HELLO case decides that the proof is the MAC of the
    nonce it came with. *)
Lemma hello_ok_spec k token h :
  stack_ok k → zlen token < 2 ^ 61 → hello_views h →
  Relay.hello_ok k token h = bool_decide (vbytes (h_auth h) = HMAC token (auth_ctx ++ ztake 256 (vbytes (h_nonce h)))).
Proof.
  intros (K1 & K2 & K3) Hl (Hn & Ha & Hb). unfold Relay.hello_ok. rewrite Hn, auth_proof_spec by done.
  destruct (HMAC_ok token (auth_ctx ++ ztake 256 (vbytes (h_nonce h)))) as [Hm1 Hm2].
  set (m := HMAC _ _) in *. clearbody m. by apply mac_test.
Qed.

(** The proof gates the tunnel on nothing: it covers only a nonce that its
    sender chose, so whoever sends our own greeting back to us, nonce and proof,
    is authenticated without the token. *)
Theorem reflected_hello k k' rnd hs epfd fd o token r h :
  stack_ok k → stack_ok k' → ro_token o = Some token → zlen token < 2 ^ 61 → zlen rnd = 16 →
  relay_new k rnd [] hs epfd fd o = Some r → hello_views h →
  h_nonce h = Some (r_nonce r) → h_auth h = Some (r_my_proof r) →
  r_authed r = false ∧ handle_event k' (EV_PEER_HELLO h) r = Some (tt, r <| r_authed := true |>).
Proof.
  intros Hk Hk' Ht Hl Hr E Hv En Ea. unfold relay_new, relay_config in E. cbn [alloc negb] in E. rewrite Ht in E.
  cbv beta iota zeta in E. apply bind_Some in E as (s & _ & E). destruct (epfd <? 0); [done |]. injection E as <-.
  cbn [r_nonce r_my_proof r_authed] in *. split; [done |].
  cbn [handle_event]. rewrite (bind_some _ _ _ _ _ eq_refl). unfold id. cbn [r_opt]. rewrite Ht.
  rewrite (hello_ok_spec k' token h) by done. rewrite En, Ea. cbn [vbytes default].
  destruct Hk as (K1 & K2 & K3). rewrite <- Hr, auth_proof_spec by done. by rewrite bool_decide_true.
Qed.

(** ** Witness *)

Definition auth_opts : relay_opts := mk_relay_opts MUX_DIALER (Some sample_token) None 0 0 0 0 (-1) 0 (Some [104]).
Definition stk : stack := mk_stack sample_ctx sample_ctx (replicate 267 0).
Definition dialer0 : relay := default relay_blank (relay_new stk (replicate 16 7) [] [] 0 3 auth_opts).
Definition echo : hello_ev :=
  mk_hello 0 0 0 None 0 (Some (r_my_proof dialer0)) (zlen (r_my_proof dialer0)) (Some (r_nonce dialer0)) 16.

Lemma reflected_hello_witness : handle_event stk (EV_PEER_HELLO echo) dialer0 = Some (tt, dialer0 <| r_authed := true |>).
Proof.
  refine (proj2 (reflected_hello stk stk (replicate 16 7) [] 0 3 auth_opts sample_token dialer0 echo _ _ _ _ _ _ _ _ _)).
  - split_and!; vm_compute; reflexivity.
  - split_and!; vm_compute; reflexivity.
  - reflexivity.
  - vm_compute. reflexivity.
  - vm_compute. reflexivity.
  - apply default_Some. vm_compute. reflexivity.
  - split_and!; [vm_compute; reflexivity | reflexivity |].
    apply (bool_decide_unpack _). vm_compute. exact I.
  - reflexivity.
  - reflexivity.
Defined.
