(* ===== verification/RouterLoop.v ===== *)
(** The router's main loop, edge-peer/router.c: connecting the tunnels, the
    timers, the poll set, the pass over the descriptors that are ready, and the
    teardown ([ep_run]).

    A turn of the loop is determined by what the operating system answers in it
    ([ep_turn]); [ep_loop] runs the loop over a list of turns. *)

From stdpp Require Import base list numbers gmap.
From Stdlib Require Import ZArith Lia.
From S2P Require Import Prelude Frame OutBuf EventQueue Probe StreamTable Session Auth Host Fifo Umap Router.

(** ** What the operating system answers *)

(** poll(2)'s event bits. *)
Definition POLLIN : Z := 1.
Definition POLLOUT : Z := 4.
Definition POLLERR : Z := 8.
Definition POLLHUP : Z := 16.

(** For [conn_tick_connect]: the clock as each call of [now_ms] reads it, and
    what [net_dial_addr] returns. *)
Record tick_env := mk_tick { tk_now : Z; tk_fd : Z; tk_later : Z }.

(** For a tunnel poll reports on: [revents], then what its socket and the calls
    made for it return. *)
Record io_env := mk_io {
  io_revents : Z;
  io_err : Z;              (* net_socket_error *)
  io_rnd : bytes;          (* os_random *)
  io_heap : heap;          (* the allocator of a new session *)
  io_now : Z;
  io_reads : list read_res;
  io_writes : list write_res;
}.

Inductive poll_res := POLL_OK | POLL_EINTR | POLL_ERROR.

Record ep_turn := mk_ep_turn {
  et_stop : bool;
  et_tick : side -> Z -> tick_env;
  et_now : Z;
  et_timer_writes : side -> Z -> list write_res;
  et_poll : poll_res;
  et_io : side -> Z -> io_env;
  et_pass_writes : side -> Z -> list write_res;
}.

(** ** Connecting *)

Definition conn_tick_connect (t : tick_env) (sd : side) (i : Z) : R unit :=
  c ← conn sd i;
  if cn_fd c >=? 0 then mret tt else
  if tk_now t <? cn_next_attempt c then mret tt else
  if tk_fd t <? 0 then set_conn sd i (c <| cn_next_attempt := u64 (tk_later t + 1000) |>) else
  note (EP_DIALED (tk_fd t));;
  set_conn sd i (c <| cn_fd := tk_fd t |> <| cn_connecting := true |>).

(** [close(c->fd); c->fd = -1; c->next_attempt = now_ms() + 1000;] *)
Definition conn_give_up (now : Z) (sd : side) (i : Z) (c : conn_t) : R unit :=
  note (EP_CLOSED (cn_fd c));;
  set_conn sd i (c <| cn_fd := -1 |> <| cn_next_attempt := u64 (now + 1000) |>).

Definition conn_finish_connect (k : stack) (io : io_env) (sd : side) (i : Z) : R unit :=
  c ← conn sd i;
  if negb (io_err io =? 0) then conn_give_up (io_now io) sd i c else
  cfg ← gets e_cfg;
  let '(c, mc) := conn_build_cfg k (io_rnd io) cfg c in
  match mux_session_new (io_heap io) mc MUX_DIALER with
  | None => conn_give_up (io_now io) sd i c
  | Some s =>
      set_conn sd i (c <| cn_mux := Some s |> <| cn_connecting := false |>);;
      conn_flush (io_writes io) sd i [];; mret tt
  end.

(** ** The passes of the loop *)

(** [for (int i = 0; i < n; i++) f(&pool[i]);] *)
Fixpoint each (l : list Z) (f : Z -> R unit) : R unit :=
  match l with
  | [] => mret tt
  | i :: l => f i;; each l f
  end.

Definition each_conn (f : side -> Z -> R unit) : R unit :=
  ne ← gets (fun e => zlen (e_edges e)); each (seqZ 0 ne) (f EDGE);;
  nw ← gets (fun e => zlen (e_wk e)); each (seqZ 0 nw) (f WORKER).

(** [if (c->mux) { mux_on_timer(c->mux, t); on_..._events(e, c); conn_flush(c); }] *)
Definition conn_timer (k : stack) (now : Z) (ws : list write_res) (sd : side) (i : Z) : R unit :=
  c ← conn sd i;
  when_ (has_mux c)
    (call sd i 0 (fun s => mux_on_timer s now);;
     match sd with WORKER => on_worker_events k i | EDGE => on_up_events k i end;;
     conn_flush ws sd i [];; mret tt).

(** The events [ADD] asks poll for; [None] when the tunnel is not polled. *)
Definition poll_want (c : conn_t) : option Z :=
  if negb (cn_fd c >=? 0) then None else Some (
  if cn_connecting c then POLLOUT else
  let op := match cn_mux c with Some s => mux_out_pending s | None => 0 end in
  Z.lor (if op <? Z.shiftl 4 20 then POLLIN else 0) (if negb (op =? 0) then POLLOUT else 0)).

(** The poll set: [owner] and [pfd.events]. *)
Definition polled (sd : side) (e : ep_state) : list (side * Z * Z) :=
  omap (fun i => c ← pool sd e !! Z.to_nat i; w ← poll_want c; Some (sd, i, w)) (seqZ 0 (zlen (pool sd e))).

Definition poll_set (e : ep_state) : list (side * Z * Z) := polled EDGE e ++ polled WORKER e.

(** poll reports what it was asked for, errors and hang-ups. *)
Definition reported (want revents : Z) : Z := Z.land revents (Z.lor want (Z.lor POLLERR POLLHUP)).

(** [revents & mask] *)
Definition hit (revents mask : Z) : bool := negb (Z.land revents mask =? 0).

Definition conn_read_fuel (rs : list read_res) : nat := Z.to_nat (2 * script_bytes rs + 2).

(** The body of the loop over the poll set; [rev] is [pfd[i].revents]. *)
Definition conn_event (k : stack) (io : io_env) (rev : Z) (sd : side) (i : Z) : R unit :=
  if rev =? 0 then mret tt else
  c ← conn sd i;
  if cn_connecting c then
    when_ (hit rev (Z.lor POLLOUT (Z.lor POLLERR POLLHUP))) (conn_finish_connect k io sd i)
  else
  '(rc, _) ← (if hit rev (Z.lor POLLIN (Z.lor POLLHUP POLLERR))
              then conn_read (conn_read_fuel (io_reads io)) k sd i (io_reads io) else mret (0, []));
  if rc <? 0 then conn_teardown (io_now io) sd i else
  c ← conn sd i;
  when_ ((cn_fd c >=? 0) && hit rev POLLOUT)
    ('(rc, _, _) ← conn_flush (io_writes io) sd i [];
     when_ (rc <? 0) (conn_teardown (io_now io) sd i)).

Fixpoint conn_events (k : stack) (io : side -> Z -> io_env) (l : list (side * Z * Z)) : R unit :=
  match l with
  | [] => mret tt
  | (sd, i, want) :: l =>
      conn_event k (io sd i) (reported want (io_revents (io sd i))) sd i;; conn_events k io l
  end.

(** The post-pass flush. *)
Definition conn_pass (ws : list write_res) (sd : side) (i : Z) : R unit :=
  c ← conn sd i; when_ (has_mux c) (conn_flush ws sd i [];; mret tt).

(** One iteration of [while (!g_stop)]: does the loop go on? *)
Definition ep_step (k : stack) (t : ep_turn) : R bool :=
  if et_stop t then mret false else
  each_conn (fun sd i => conn_tick_connect (et_tick t sd i) sd i);;
  each_conn (fun sd i => conn_timer k (et_now t) (et_timer_writes t sd i) sd i);;
  owner ← gets poll_set;
  match et_poll t with
  | POLL_ERROR => mret false
  | POLL_EINTR => mret true
  | POLL_OK =>
      conn_events k (et_io t) owner;;
      each_conn (fun sd i => conn_pass (et_pass_writes t sd i) sd i);;
      mret true
  end.

Fixpoint ep_loop (k : stack) (ts : list ep_turn) : R bool :=
  match ts with
  | [] => mret true
  | t :: ts => ep_step k t ≫= fun go : bool => if go then ep_loop k ts else mret false
  end.

(** ** Start and end *)

Definition conn_zero (worker : bool) : conn_t :=
  mk_conn (-1) false None false [] 0 worker 0 0 0 umap_zero (negb worker) [] [].

(** The state [ep_run] starts from, with [ne] edges and [nw] workers. *)
Definition ep_init (cfg : ep_config) (ne nw : Z) : ep_state :=
  mk_ep cfg (replicate (Z.to_nat ne) (conn_zero false)) (replicate (Z.to_nat nw) (conn_zero true)) ∅ 1 [] [].

(** [free(c->routes.s)]: the table is gone, the fields that describe it stay. *)
Definition free_table (sd : side) (i : Z) : R unit :=
  c ← conn sd i;
  set_conn sd i (c <| cn_routes := mk_umap [] (um_cap (cn_routes c)) (um_count (cn_routes c)) |>).

Definition retire (now : side -> Z -> Z) (sd : side) (i : Z) : R unit :=
  conn_teardown (now sd i) sd i;; free_table sd i.

(** After the loop: the workers first, then the edges. *)
Definition ep_end (now : side -> Z -> Z) : R unit :=
  nw ← gets (fun e => zlen (e_wk e)); each (seqZ 0 nw) (retire now WORKER);;
  ne ← gets (fun e => zlen (e_edges e)); each (seqZ 0 ne) (retire now EDGE).

(** [ep_run]: the state when its pools are freed. *)
Definition ep_run (k : stack) (cfg : ep_config) (ne nw : Z) (ts : list ep_turn) (now : side -> Z -> Z)
  : option (unit * ep_state) :=
  (ep_loop k ts;; ep_end now) (ep_init cfg ne nw).
