(* ===== verification/RouterInv.v ===== *)
(** The invariant of the router: the tunnels' route tables, the routes, the
    sessions and the descriptors agree.

    [rinv] needs nothing of the peers or the network.  That a route is listed in
    both its tables ([exact]) rests on stream ids not being reused: a session
    that dials counts its ids up to [2^32] and starts over, so [exact] is claimed
    while fewer than [2^31] streams have been asked of the workers. *)

From stdpp Require Import base list numbers gmap.
From Stdlib Require Import ZArith Lia.
From S2P Require Import Prelude Frame OutBuf EventQueue Probe StreamTable Session SessionIO Handshake Recv SessionOpens Auth Host Fifo Umap Router Balance Splice RouterLoop.

(** ** Route tables *)

Definition tabled (m : umap) : Prop := ∃ g, represents m g.

Lemma get_represents m g k : represents m g → umap_get m k = g !! k.
Proof. intros [Hw Hg]. apply option_eq. intros v. by rewrite umap_get_spec, Hg. Qed.

Lemma tabled_zero : tabled umap_zero.
Proof. exists ∅. apply umap_zero_represents. Qed.

Lemma tabled_put m k p :
  tabled m → ∃ m', umap_put [] m k p = ([], Some m') ∧ tabled m' ∧
    ∀ k', umap_get m' k' = if decide (k' = k) then Some p else umap_get m k'.
Proof.
  intros [g Hg]. destruct (umap_put_total m g k p Hg) as (m' & E & Hg' & _). exists m'.
  split; [done |]. split; [by eexists |]. intros k'. rewrite (get_represents _ _ _ Hg), (get_represents _ _ _ Hg').
  case_decide; [subst; by rewrite lookup_insert_eq | by rewrite lookup_insert_ne].
Qed.

Lemma tabled_del m k :
  tabled m → ∃ m', umap_del [] m k = ([], Some m') ∧ tabled m' ∧
    (∀ k', umap_get m' k' = if decide (k' = k) then None else umap_get m k') ∧
    (is_Some (umap_get m k) → um_count m' = um_count m - 1).
Proof.
  intros [g Hg]. destruct (umap_del_total m g k Hg) as (m' & E & Hg' & Hc). exists m'.
  split; [done |]. split; [by eexists |]. rewrite (get_represents _ _ _ Hg). split; [| done].
  intros k'. rewrite (get_represents _ _ _ Hg), (get_represents _ _ _ Hg').
  case_decide; [subst; by rewrite lookup_delete_eq | by rewrite lookup_delete_ne].
Qed.

(** A slot in use is an entry. *)
Lemma tabled_slot m sl : tabled m → sl ∈ um_s m → ms_used sl = true → umap_get m (ms_k sl) = Some (ms_v sl).
Proof.
  intros [g [Hw _]] [j Hj]%list_elem_of_lookup U. apply umap_get_spec; [done |]. exists j, sl.
  split_and!; [done | by apply mcls_used | done].
Qed.

Lemma first_used_elem l p : first_used l = Some p → ∃ sl, sl ∈ l ∧ ms_used sl = true ∧ ms_v sl = p.
Proof.
  induction l as [|sl l IH]; cbn [first_used]; [done |]. destruct (ms_used sl) eqn:U.
  - intros [= <-]. exists sl. split_and!; [by left | done | done].
  - intros (x & ? & ? & ?)%IH. exists x. split_and!; [by right | done | done].
Qed.

Lemma first_used_nil l sl : first_used l = None → sl ∈ l → ms_used sl = false.
Proof.
  induction l as [|x l IH]; cbn [first_used]; [by intros _ []%elem_of_nil |].
  destruct (ms_used x) eqn:U; [done |]. intros E [->|?]%elem_of_cons; [done | by apply IH].
Qed.

Lemma first_used_none m k : tabled m → first_used (um_s m) = None → umap_get m k = None.
Proof.
  intros [g [Hw Hg]] E. apply eq_None_ne_Some. intros v Hv. apply (umap_get_spec m k v Hw) in Hv as (j & e & Hj & K & _).
  apply mcls_used in K as [U _]. assert (e ∈ um_s m) as He by (apply list_elem_of_lookup; by exists j).
  by rewrite (first_used_nil _ _ E He) in U.
Qed.

Lemma first_used_some m p :
  tabled m → first_used (um_s m) = Some p → 0 < um_count m ∧ ∃ k, umap_get m k = Some p.
Proof.
  intros Ht (sl & Hsl & U & <-)%first_used_elem. split; [| exists (ms_k sl); by apply tabled_slot].
  destruct Ht as [g [Hw _]]. rewrite (uw_count m Hw). apply list_elem_of_lookup in Hsl as [j Hj].
  destruct (Z.le_gt_cases (cnt ms_used (um_s m)) 0) as [Hle|]; [| lia].
  pose proof (cnt_nonneg ms_used (um_s m)). assert (ms_used sl = false) by (apply (cnt_0 ms_used (um_s m) j); [lia | done]).
  congruence.
Qed.

Lemma tabled_count m : tabled m → 0 ≤ um_count m.
Proof. intros [g [Hw _]]. rewrite (uw_count m Hw). apply cnt_nonneg. Qed.

(** ** Tunnels *)

Definition tunnel (e : ep_state) (sd : side) (i : Z) (c : conn_t) : Prop :=
  0 ≤ i ∧ pool sd e !! Z.to_nat i = Some c.
#[global] Arguments tunnel : simpl never.

Definition put_tunnel (sd : side) (i : Z) (c : conn_t) (e : ep_state) : ep_state :=
  set_pool sd (<[Z.to_nat i := c]> (pool sd e)) e.

Lemma tunnel_eq e sd i c c' : tunnel e sd i c → tunnel e sd i c' → c' = c.
Proof. intros [_ H] [_ H']. congruence. Qed.

Lemma tunnel_range e sd i c : tunnel e sd i c → 0 ≤ i < zlen (pool sd e).
Proof. intros [? H%lookup_lt_Some]. unfold zlen. lia. Qed.

Lemma tunnel_at e sd i : 0 ≤ i < zlen (pool sd e) → ∃ c, tunnel e sd i c.
Proof.
  intros Hi. destruct (lookup_lt_is_Some_2 (pool sd e) (Z.to_nat i)) as [c Hc]; [unfold zlen in Hi; lia |]. exists c. split; [lia | done].
Qed.

Lemma pool_put sd i c e s :
  pool s (put_tunnel sd i c e) = if decide (s = sd) then <[Z.to_nat i := c]> (pool sd e) else pool s e.
Proof. apply pool_set. Qed.

Lemma zlen_pool_put sd i c e s : zlen (pool s (put_tunnel sd i c e)) = zlen (pool s e).
Proof. rewrite pool_put. case_decide; subst; [unfold zlen; by rewrite length_insert | done]. Qed.

Lemma tunnel_put e sd i c s j d :
  0 ≤ i < zlen (pool sd e) →
  tunnel (put_tunnel sd i c e) s j d ↔ (s = sd ∧ j = i ∧ d = c) ∨ (¬ (s = sd ∧ j = i) ∧ tunnel e s j d).
Proof.
  intros Hi. unfold tunnel. rewrite pool_put. case_decide as E.
  - subst s. split.
    + intros [Hj Hd]. apply list_lookup_insert_Some in Hd as [(? & <- & _)|[Hne Hd]].
      * left. split_and!; [done | lia | done].
      * right. split; [intros [_ ->]; lia | done].
    + intros [(_ & -> & ->)|(Hne & Hj & Hd)]; (split; [lia |]).
      * apply list_lookup_insert_eq. unfold zlen in Hi. lia.
      * rewrite list_lookup_insert_ne; [done |]. intros ?. apply Hne. split; [done | lia].
  - split; [intros ?; right; split; [by intros [] | done] | by intros [(? & _)|[_ ?]]].
Qed.

(** ** Routes and their ends *)

Definition end_idx (sd : side) (r : route) : Z := match sd with EDGE => r_edge_idx r | WORKER => r_worker_idx r end.
Definition end_sid (sd : side) (r : route) : Z := match sd with EDGE => r_up_sid r | WORKER => r_down_sid r end.

Definition same_ends (r r' : route) : Prop := ∀ sd, end_idx sd r' = end_idx sd r ∧ end_sid sd r' = end_sid sd r.

(** ** The log *)

Definition is_dialed (fd : Z) (x : ep_effect) : bool := match x with EP_DIALED f => f =? fd | _ => false end.
Definition is_closed (fd : Z) (x : ep_effect) : bool := match x with EP_CLOSED f => f =? fd | _ => false end.
Definition is_opening (x : ep_effect) : bool := match x with EP_OPENING _ => true | _ => false end.

Definition dialed (fd : Z) (e : ep_state) : Z := cnt (is_dialed fd) (e_log e).
Definition closed (fd : Z) (e : ep_state) : Z := cnt (is_closed fd) (e_log e).

(** How many tunnels hold the descriptor. *)
Definition holder (fd : Z) (c : conn_t) : bool := cn_fd c =? fd.
Definition held (fd : Z) (e : ep_state) : Z := cnt (holder fd) (e_edges e) + cnt (holder fd) (e_wk e).

(** The streams asked of workers' sessions. *)
Definition asked (e : ep_state) : Z := cnt is_opening (e_log e).

(** ** The invariant *)

(** A tunnel is down, connecting or up. *)
Definition phase (c : conn_t) : Prop :=
  -1 ≤ cn_fd c ∧
  match cn_mux c with
  | Some s => evq_wf (s_q s) ∧ 0 ≤ cn_fd c ∧ cn_connecting c = false
  | None => cn_ready c = false ∧ cn_recv c = [] ∧ (0 ≤ cn_fd c → cn_connecting c = true) ∧
            ∀ k, umap_get (cn_routes c) k = None
  end.

(** Has the loop ended? *)
Class Ending : Type := ending : bool.

Section Invariant.
Context {ED : Ending}.

(** The table is in order, or [ep_run] has freed it after the tunnel went down. *)
Definition table_ok (c : conn_t) : Prop :=
  tabled (cn_routes c) ∨ ending = true ∧ um_s (cn_routes c) = [] ∧ cn_mux c = None.

Record tunnel_ok (sd : side) (c : conn_t) : Prop := {
  to_side : cn_is_worker c = bool_decide (sd = WORKER) ∧ cn_is_edge c = bool_decide (sd = EDGE);
  to_table : table_ok c;
  to_phase : phase c;
  to_recv : zlen (cn_recv c) ≤ RECV_SIZE;
}.

(** Ids to come are above those in the table: the edge's, which the session
    checks, and our own, of which [n] have been asked for at most. *)
Definition fresh (n : Z) (sd : side) (c : conn_t) : Prop :=
  match cn_mux c with
  | None => True
  | Some s =>
      match sd with
      | EDGE => ∃ lo, climbs lo (opened (events s)) (s_max_remote_sid s) ∧
                      ∀ k, is_Some (umap_get (cn_routes c) k) → k ≤ lo
      | WORKER => 0 ≤ s_next_local_sid s ≤ 1 + 2 * n ∧
                  ∀ k, is_Some (umap_get (cn_routes c) k) → k < s_next_local_sid s
      end
  end.

Record exact (e : ep_state) : Prop := {
  ex_listed : ∀ p r sd, e_rt e !! p = Some r →
    ∃ c, tunnel e sd (end_idx sd r) c ∧ umap_get (cn_routes c) (end_sid sd r) = Some p;
  ex_fresh : ∀ sd i c, tunnel e sd i c → fresh (asked e) sd c;
}.

Record rinv (e : ep_state) : Prop := {
  ri_heap : e_heap e = [];
  ri_tun : ∀ sd i c, tunnel e sd i c → tunnel_ok sd c;
  ri_point : ∀ sd i c k p, tunnel e sd i c → umap_get (cn_routes c) k = Some p →
    ∃ r, e_rt e !! p = Some r ∧ end_idx sd r = i ∧ end_sid sd r = k;
  ri_pool : ∀ p r sd, e_rt e !! p = Some r → 0 ≤ end_idx sd r < zlen (pool sd e);
  ri_live : ∀ p r sd c, e_rt e !! p = Some r → tunnel e sd (end_idx sd r) c → tabled (cn_routes c);
  ri_brk : ∀ p, is_Some (e_rt e !! p) → p < e_brk e;
  ri_fds : ∀ fd, 0 ≤ fd → dialed fd e = closed fd e + held fd e;
  ri_exact : asked e < 2 ^ 31 → exact e;
}.

Lemma fresh_mono n n' sd c : n ≤ n' → fresh n sd c → fresh n' sd c.
Proof. unfold fresh. intros Hn. destruct (cn_mux c) as [s|]; [| done]. destruct sd; [done |]. intros [? ?]. split; [lia | done]. Qed.

Lemma tabled_up sd c : tunnel_ok sd c → is_Some (cn_mux c) → tabled (cn_routes c).
Proof. intros [_ [?|(_ & _ & E)] _ _] [s Hs]; [done | congruence]. Qed.

Lemma asked_nonneg e : 0 ≤ asked e.
Proof. apply cnt_nonneg. Qed.

(** The route at the end of a table's entry. *)
Lemma point_route e sd i c k p :
  rinv e → tunnel e sd i c → umap_get (cn_routes c) k = Some p →
  ∃ r, e_rt e !! p = Some r ∧ end_idx sd r = i ∧ end_sid sd r = k ∧ ∀ s, ∃ d, tunnel e s (end_idx s r) d.
Proof.
  intros H Ht Hk. destruct (ri_point e H sd i c k p Ht Hk) as (r & Hr & Ei & Es). exists r.
  split_and!; [done.. |]. intros s. apply tunnel_at. by eapply ri_pool.
Qed.

(** ** A tunnel changes, but not its table *)

Lemma held_put fd e sd i c c' :
  tunnel e sd i c → held fd (put_tunnel sd i c' e) = held fd e - b2z (holder fd c) + b2z (holder fd c').
Proof.
  intros [Hi Hc]. unfold held, put_tunnel. destruct sd; cbn in *; rewrite (cnt_insert (holder fd) _ _ c) by done; lia.
Qed.

(** [l] is what the change logs; the table may change but not what it holds. *)
Lemma rinv_tunnel_gen e sd i c c' l :
  rinv e → tunnel e sd i c → tunnel_ok sd c' →
  (∀ k, umap_get (cn_routes c') k = umap_get (cn_routes c) k) →
  (∀ p r, e_rt e !! p = Some r → end_idx sd r = i → tabled (cn_routes c')) →
  (∀ fd, 0 ≤ fd → cnt (is_dialed fd) l + b2z (holder fd c) = cnt (is_closed fd) l + b2z (holder fd c')) →
  (asked e + cnt is_opening l < 2 ^ 31 →
     fresh (asked e) sd c → fresh (asked e + cnt is_opening l) sd c') →
  rinv (put_tunnel sd i c' e <| e_log := e_log e ++ l |>).
Proof.
  intros H Ht Hok Eg Hlv Hfd Hfr. pose proof (tunnel_range _ _ _ _ Ht) as Hi.
  set (e' := put_tunnel sd i c' e <| e_log := e_log e ++ l |>).
  assert (∀ s j d, tunnel e' s j d ↔ tunnel (put_tunnel sd i c' e) s j d) as Ht' by (by intros []; unfold e', put_tunnel; destruct sd).
  assert (e_rt e' = e_rt e) as Ert by (by destruct sd).
  assert (∀ s, zlen (pool s e') = zlen (pool s e)) as Hz.
  { intros s. rewrite <- (zlen_pool_put sd i c' e s). by destruct s. }
  assert (∀ s j d, tunnel e' s j d → ∃ d0, tunnel e s j d0 ∧ ∀ k, umap_get (cn_routes d) k = umap_get (cn_routes d0) k) as Hback.
  { intros s j d [(-> & -> & ->)|[_ Hd]]%Ht'%tunnel_put; [by exists c | by exists d | done]. }
  assert (asked e' = asked e + cnt is_opening l) as Ea by (unfold asked, e'; destruct sd; cbn; by rewrite cnt_app).
  split.
  - destruct sd; apply H.
  - intros s j d [(-> & -> & ->)|[_ Hd]]%Ht'%tunnel_put; [done | by eapply ri_tun | done].
  - intros s j d k p (d0 & Hd0 & E)%Hback Hk. rewrite E in Hk. rewrite Ert. by eapply ri_point.
  - intros p r s. rewrite Ert, Hz. by apply ri_pool.
  - intros p r s d. rewrite Ert. intros Hr [(-> & E & ->)|[_ Hd]]%Ht'%tunnel_put; [| by eapply (ri_live e H) | done].
    by eapply Hlv.
  - intros p. rewrite Ert. destruct sd; apply H.
  - intros fd Hf. pose proof (ri_fds e H fd Hf) as E. unfold dialed, closed in *.
    assert (held fd e' = held fd (put_tunnel sd i c' e)) as -> by (by destruct sd).
    rewrite (held_put fd e sd i c c' Ht). specialize (Hfd fd Hf).
    assert (e_log e' = e_log e ++ l) as -> by (by destruct sd). rewrite !cnt_app. lia.
  - intros Hn. rewrite Ea in Hn. pose proof (cnt_nonneg is_opening l) as Hl. destruct (ri_exact e H) as [Hx Hf]; [lia |]. split.
    + intros p r s Hr. rewrite Ert in Hr. destruct (Hx p r s Hr) as (d & Hd & Hk).
      destruct (decide (s = sd ∧ end_idx s r = i)) as [[-> E]|Hne].
      * exists c'. rewrite Ht', tunnel_put by done. split; [left; split_and!; done |]. rewrite Eg.
        rewrite E in Hd. by rewrite <- (tunnel_eq _ _ _ _ _ Ht Hd).
      * exists d. rewrite Ht', tunnel_put by done. split; [by right | done].
    + intros s j d [(-> & -> & ->)|[_ Hd]]%Ht'%tunnel_put; [| | done]; rewrite Ea.
      * apply Hfr; [done |]. by eapply Hf.
      * eapply fresh_mono; [| by eapply Hf]. lia.
Qed.

Lemma rinv_tunnel e sd i c c' l :
  rinv e → tunnel e sd i c → tunnel_ok sd c' → cn_routes c' = cn_routes c →
  (∀ fd, 0 ≤ fd → cnt (is_dialed fd) l + b2z (holder fd c) = cnt (is_closed fd) l + b2z (holder fd c')) →
  (asked e + cnt is_opening l < 2 ^ 31 →
     fresh (asked e) sd c → fresh (asked e + cnt is_opening l) sd c') →
  rinv (put_tunnel sd i c' e <| e_log := e_log e ++ l |>).
Proof.
  intros H Ht Hok Er Hfd Hfr. apply (rinv_tunnel_gen e sd i c); try done.
  - intros k. by rewrite Er.
  - intros p r Hr <-. rewrite Er. by eapply (ri_live e H).
Qed.

Lemma put_tunnel_log sd i c e : put_tunnel sd i c e <| e_log := e_log e ++ [] |> = put_tunnel sd i c e.
Proof. rewrite app_nil_r. by destruct sd, e. Qed.

(** The common case: nothing logged, the descriptor kept. *)
Lemma rinv_repool e sd i c c' :
  rinv e → tunnel e sd i c → tunnel_ok sd c' → cn_routes c' = cn_routes c → cn_fd c' = cn_fd c →
  (∀ n, 0 ≤ n → fresh n sd c → fresh n sd c') → rinv (put_tunnel sd i c' e).
Proof.
  intros H Ht Hok Er Ef Hfr. rewrite <- put_tunnel_log. eapply rinv_tunnel; try done.
  - intros fd _. cbn. unfold holder. by rewrite Ef.
  - intros _ Hf. cbn. rewrite Z.add_0_r. apply Hfr; [apply asked_nonneg | done].
Qed.

(** ** Both tables of a route change *)

Definition put_both (idx : side -> Z) (new : side -> conn_t) (e : ep_state) : ep_state :=
  put_tunnel WORKER (idx WORKER) (new WORKER) (put_tunnel EDGE (idx EDGE) (new EDGE) e).

Lemma tunnel_both e idx new s j d :
  (∀ sd, 0 ≤ idx sd < zlen (pool sd e)) →
  tunnel (put_both idx new e) s j d ↔ (j = idx s ∧ d = new s) ∨ (j ≠ idx s ∧ tunnel e s j d).
Proof.
  intros Hi. unfold put_both. rewrite tunnel_put by (rewrite zlen_pool_put; apply Hi).
  rewrite tunnel_put by apply Hi. destruct s; split; naive_solver.
Qed.

Lemma rinv_both e e' idx old new :
  rinv e → (∀ sd, tunnel e sd (idx sd) (old sd)) → (∀ sd, tunnel_ok sd (new sd)) →
  (∀ sd, tabled (cn_routes (new sd))) → (∀ sd, cn_fd (new sd) = cn_fd (old sd)) →
  (∀ sd, pool sd e' = pool sd (put_both idx new e)) → e_heap e' = [] → e_log e' = e_log e →
  (∀ sd k p, umap_get (cn_routes (new sd)) k = Some p →
     ∃ r, e_rt e' !! p = Some r ∧ end_idx sd r = idx sd ∧ end_sid sd r = k) →
  (∀ p r sd, e_rt e !! p = Some r → end_idx sd r ≠ idx sd → e_rt e' !! p = Some r) →
  (∀ p r sd, e_rt e' !! p = Some r →
     0 ≤ end_idx sd r < zlen (pool sd e) ∧ (end_idx sd r ≠ idx sd → e_rt e !! p = Some r)) →
  (∀ p, is_Some (e_rt e' !! p) → p < e_brk e') →
  (asked e < 2 ^ 31 → exact e → exact e') → rinv e'.
Proof.
  intros H Ho Hok Htab Hfd Hpool Hh Hl Hpt Hkeep Hrange Hbrk Hex.
  assert (∀ sd, 0 ≤ idx sd < zlen (pool sd e)) as Hi by (intros sd; eapply tunnel_range, Ho).
  assert (∀ s j d, tunnel e' s j d ↔ tunnel (put_both idx new e) s j d) as Ht by (intros s j d; unfold tunnel; by rewrite Hpool).
  split; try done.
  - intros s j d [(-> & ->)|[_ Hd]]%Ht%tunnel_both; [apply Hok | by eapply ri_tun | done].
  - intros s j d k p [(-> & ->)|[Hne Hd]]%Ht%tunnel_both Hk; [by apply Hpt | | done].
    destruct (ri_point e H s j d k p Hd Hk) as (r & Hr & Ei & Es). exists r. split; [| done].
    apply (Hkeep p r s); [done | congruence].
  - intros p r s Hr. rewrite Hpool. unfold put_both. rewrite !zlen_pool_put. by eapply Hrange.
  - intros p r s d Hr [(_ & ->)|[Hne Hd]]%Ht%tunnel_both; [apply Htab | | done].
    eapply (ri_live e H); [by eapply Hrange | done].
  - intros fd Hf. pose proof (ri_fds e H fd Hf) as E. unfold dialed, closed in *. rewrite Hl.
    assert (held fd e' = held fd e) as ->; [| done]. transitivity (held fd (put_both idx new e)).
    { unfold held. pose proof (Hpool EDGE). pose proof (Hpool WORKER). cbn in *. congruence. }
    unfold put_both. assert (tunnel (put_tunnel EDGE (idx EDGE) (new EDGE) e) WORKER (idx WORKER) (old WORKER)) as Hw.
    { rewrite tunnel_put by done. right. split; [by intros [] | apply Ho]. }
    rewrite (held_put _ _ _ _ _ _ Hw), (held_put _ _ _ _ _ _ (Ho EDGE)). unfold holder. rewrite !Hfd. lia.
  - unfold asked. rewrite Hl. intros Hn. apply Hex; [done |]. by apply H.
Qed.

(** ** Freeing a route *)

(** [old] with the entry of the route gone. *)
Definition unlisted (k : Z) (c c' : conn_t) : Prop :=
  (∃ m f, c' = c <| cn_routes := m |> <| cn_inflight := f |>) ∧ tabled (cn_routes c') ∧
  ∀ k', umap_get (cn_routes c') k' = if decide (k' = k) then None else umap_get (cn_routes c) k'.

Lemma unlisted_ok sd k c c' : unlisted k c c' → tunnel_ok sd c → tunnel_ok sd c'.
Proof.
  intros [(m & f & ->) [Ht Hg]] [Hs _ [Hf Hp] Hr]. split; [done | by left | | done]. split; [done |]. cbn in *.
  destruct (cn_mux c); [done |]. destruct Hp as (? & ? & ? & Hk). split_and!; [done.. |].
  intros k'. rewrite Hg, Hk. by destruct (decide _).
Qed.

Lemma unlisted_fresh n sd k c c' : unlisted k c c' → fresh n sd c → fresh n sd c'.
Proof.
  intros [(m & f & ->) [_ Hg]]. unfold fresh. cbn in *. destruct (cn_mux c) as [s|]; [| done].
  assert (∀ k', is_Some (umap_get m k') → is_Some (umap_get (cn_routes c) k')) as Hk.
  { intros k'. rewrite Hg. case_decide; [by intros [] | done]. }
  destruct sd; [intros (lo & ? & Hlo); exists lo; auto | intros (? & Hlo); auto].
Qed.

Lemma rinv_free e p r old new :
  rinv e → e_rt e !! p = Some r → (∀ sd, tunnel e sd (end_idx sd r) (old sd)) →
  (∀ sd, unlisted (end_sid sd r) (old sd) (new sd)) →
  rinv (put_both (fun sd => end_idx sd r) new e <| e_rt := delete p (e_rt e) |>).
Proof.
  intros H Hp Ho Hun. set (e' := put_both _ new e <| e_rt := _ |>).
  assert (e_rt e' = delete p (e_rt e)) as Ert by done.
  assert (∀ sd, 0 ≤ end_idx sd r < zlen (pool sd e)) as Hi by (intros sd; eapply tunnel_range, Ho).
  eapply (rinv_both e e' (fun sd => end_idx sd r) old new); try done.
  - intros sd. eapply unlisted_ok; [apply Hun | eapply ri_tun; [done | apply Ho]].
  - intros sd. apply Hun.
  - intros sd. by destruct (Hun sd) as [(m & f & ->) _].
  - apply H.
  - intros sd k q. destruct (Hun sd) as (_ & _ & ->). case_decide as Ek; [done |]. intros Hk.
    destruct (ri_point e H _ _ _ _ _ (Ho sd) Hk) as (x & Hx & Ei & Es). exists x. rewrite Ert.
    split; [| done]. rewrite lookup_delete_ne; [done |]. intros ->. assert (x = r) as -> by congruence. congruence.
  - intros q x sd Hx Hne. rewrite Ert, lookup_delete_ne; [done |]. intros ->. congruence.
  - intros q x sd. rewrite Ert. intros [_ Hx]%lookup_delete_Some. split; [by eapply (ri_pool e H) | done].
  - intros q. rewrite Ert. intros [x [_ Hx]%lookup_delete_Some]. apply (ri_brk e H). by exists x.
  - intros Hn [Hx Hf]. split.
    + intros q x sd. rewrite Ert. intros [Hne Hq]%lookup_delete_Some. destruct (Hx q x sd Hq) as (d & Hd & Hk).
      destruct (decide (end_idx sd x = end_idx sd r)) as [E|E].
      * exists (new sd). change (tunnel (put_both (fun sd => end_idx sd r) new e) sd (end_idx sd x) (new sd) ∧ umap_get (cn_routes (new sd)) (end_sid sd x) = Some q).
        rewrite tunnel_both by done. split; [by left |]. destruct (Hun sd) as (_ & _ & ->).
        rewrite E in Hd. pose proof (tunnel_eq _ _ _ _ _ (Ho sd) Hd) as ->. rewrite decide_False; [done |]. intros Es.
        destruct (Hx p r sd Hp) as (d & Hd' & Hk'). pose proof (tunnel_eq _ _ _ _ _ Hd Hd') as ->. rewrite Es in Hk. congruence.
      * exists d. change (tunnel (put_both (fun sd => end_idx sd r) new e) sd (end_idx sd x) d ∧ umap_get (cn_routes d) (end_sid sd x) = Some q).
        rewrite tunnel_both by done. split; [by right | done].
    + intros sd j d. change (tunnel (put_both (fun sd => end_idx sd r) new e) sd j d → fresh (asked e) sd d).
      rewrite tunnel_both by done. intros [(-> & ->)|[_ Hd]]; [| by eapply Hf].
      eapply unlisted_fresh; [apply Hun | eapply Hf, Ho].
Qed.

(** A route's other fields change. *)
Lemma rinv_store e p r r' :
  rinv e → e_rt e !! p = Some r → same_ends r r' → rinv (e <| e_rt ::= <[p := r']> |>).
Proof.
  intros [] Hp Hs. assert (∀ q x, <[p := r']> (e_rt e) !! q = Some x → ∃ y, e_rt e !! q = Some y ∧ same_ends y x) as Hb.
  { intros q x [[<- <-]|[_ Hx]]%lookup_insert_Some; [by exists r | by exists x]. }
  set (e' := e <| e_rt ::= <[p := r']> |>). assert (e_rt e' = <[p := r']> (e_rt e)) as Ert by done.
  split; try done; rewrite ?Ert.
  - intros sd i c k q Ht Hk. destruct (ri_point0 sd i c k q Ht Hk) as (x & Hx & Ei & Es).
    destruct (decide (q = p)) as [->|].
    + exists r'. rewrite lookup_insert_eq. assert (x = r) as -> by congruence. destruct (Hs sd). split_and!; [done | congruence | congruence].
    + exists x. by rewrite lookup_insert_ne.
  - intros q x sd (y & Hy & E)%Hb. destruct (E sd) as [-> _]. by eapply ri_pool0.
  - intros q x sd c (y & Hy & E)%Hb. destruct (E sd) as [-> _]. by eapply ri_live0.
  - intros q [x (y & Hy & _)%Hb]. apply ri_brk0. by exists y.
  - intros Hn. destruct (ri_exact0 Hn) as [Hx Hf]. split; [| done].
    intros q x sd Hq. rewrite Ert in Hq. apply Hb in Hq as (y & Hy & E). destruct (E sd) as [-> ->]. by eapply Hx.
Qed.

(** ** Making a route *)

(** [old] with an entry for the route. *)
Definition added (k p : Z) (c c' : conn_t) : Prop :=
  (∃ m f, c' = c <| cn_routes := m |> <| cn_inflight := f |>) ∧ tabled (cn_routes c') ∧
  ∀ k', umap_get (cn_routes c') k' = if decide (k' = k) then Some p else umap_get (cn_routes c) k'.

Lemma added_ok sd k p c c' : added k p c c' → is_Some (cn_mux c) → tunnel_ok sd c → tunnel_ok sd c'.
Proof.
  intros [(m & f & ->) [Ht _]] [s Hm] [Hs _ [Hf Hp] Hr]. split; [done | by left | | done]. split; [done |]. cbn in *.
  by rewrite Hm in *.
Qed.

Lemma rinv_new e r old new :
  let p := e_brk e in
  rinv e → (∀ sd, tunnel e sd (end_idx sd r) (old sd)) → (∀ sd, is_Some (cn_mux (old sd))) →
  (∀ sd, added (end_sid sd r) p (old sd) (new sd)) →
  (asked e < 2 ^ 31 → ∀ sd, umap_get (cn_routes (old sd)) (end_sid sd r) = None ∧ fresh (asked e) sd (new sd)) →
  rinv (put_both (fun sd => end_idx sd r) new e <| e_rt := <[p := r]> (e_rt e) |> <| e_brk := p + 1 |>).
Proof.
  intros p H Ho Hm Had Hex. set (e' := put_both _ new e <| e_rt := _ |> <| e_brk := _ |>).
  assert (e_rt e' = <[p := r]> (e_rt e)) as Ert by done.
  assert (∀ sd, 0 ≤ end_idx sd r < zlen (pool sd e)) as Hi by (intros sd; eapply tunnel_range, Ho).
  assert (e_rt e !! p = None) as Hp by (apply eq_None_not_Some; intros Hs%(ri_brk e H); subst p; lia).
  assert (∀ q x, e_rt e !! q = Some x → e_rt e' !! q = Some x) as Hk.
  { intros q x Hx. rewrite Ert, lookup_insert_ne; [done |]. intros ->. congruence. }
  eapply (rinv_both e e' (fun sd => end_idx sd r) old new); try done.
  - intros sd. eapply added_ok; [apply Had | apply Hm | eapply ri_tun; [done | apply Ho]].
  - intros sd. apply Had.
  - intros sd. by destruct (Had sd) as [(m & f & ->) _].
  - apply H.
  - intros sd k q. destruct (Had sd) as (_ & _ & ->). case_decide as Ek.
    + intros [= <-]. exists r. by rewrite Ert, lookup_insert_eq.
    + intros Hq. destruct (ri_point e H _ _ _ _ _ (Ho sd) Hq) as (x & Hx%Hk & E). by exists x.
  - intros q x sd Hx _. by apply Hk.
  - intros q x sd. rewrite Ert. intros [[<- <-]|[_ Hx]]%lookup_insert_Some; [by split |].
    split; [by eapply (ri_pool e H) | done].
  - intros q [x Hx]. rewrite Ert in Hx. change (e_brk e') with (p + 1).
    apply lookup_insert_Some in Hx as [[<- _]|[_ Hx]]; [lia |].
    assert (q < e_brk e) by (apply (ri_brk e H); by exists x). subst p. lia.
  - intros Hn [Hx Hf].
    assert (∀ sd j d, tunnel e' sd j d ↔ (j = end_idx sd r ∧ d = new sd) ∨ (j ≠ end_idx sd r ∧ tunnel e sd j d)) as Ht.
    { intros sd j d. exact (tunnel_both e (fun sd => end_idx sd r) new sd j d Hi). }
    split.
    + intros q x sd. rewrite Ert. intros [[<- <-]|[Hne Hq]]%lookup_insert_Some.
      * exists (new sd). rewrite Ht. split; [by left |]. destruct (Had sd) as (_ & _ & ->). by rewrite decide_True.
      * destruct (Hx q x sd Hq) as (d & Hd & Hkq). destruct (decide (end_idx sd x = end_idx sd r)) as [E|E].
        -- exists (new sd). rewrite Ht. split; [by left |]. destruct (Had sd) as (_ & _ & ->).
           rewrite E in Hd. pose proof (tunnel_eq _ _ _ _ _ (Ho sd) Hd) as ->.
           destruct (Hex Hn sd) as [Hnone _]. rewrite decide_False; [done |]. intros Es. congruence.
        -- exists d. rewrite Ht. split; [by right | done].
    + intros sd j d [(-> & ->)|[_ Hd]]%Ht; [by apply Hex | by eapply Hf].
Qed.
End Invariant.
