(* ===== verification/RouterSteps.v ===== *)
(** Every operation of the router on routes and events has a defined outcome and
    keeps the invariant of RouterInv: one lemma per function, in the order of
    the source. *)

From stdpp Require Import base list numbers gmap.
From Stdlib Require Import ZArith Lia.
From S2P Require Import Prelude Frame OutBuf EventQueue Probe StreamTable Session SessionIO Handshake Recv SessionOpens Auth Host Fifo Umap Router Balance Splice RouterLoop RouterInv.

(** ** What an operation leaves alone *)

(** A session call that reports at most its own failure. *)
Definition quiet (s s' : mux_session) : Prop :=
  evq_wf (s_q s) → evq_wf (s_q s') ∧
  ∃ evs, events s' = events s ++ evs ∧ opened evs = [] ∧ zlen evs + alive s' ≤ alive s.

#[export] Instance quiet_preorder : PreOrder quiet.
Proof.
  split.
  - intros s Hq. split; [done |]. exists []. rewrite app_nil_r, zlen_nil. split_and!; [done | done | lia].
  - intros s1 s2 s3 H1 H2 Hq. destruct (H1 Hq) as (Q1 & e1 & E1 & O1 & L1). destruct (H2 Q1) as (Q2 & e2 & E2 & O2 & L2).
    split; [done |]. exists (e1 ++ e2). rewrite E2, E1, (assoc_L (++)), zlen_app. unfold opened in *.
    rewrite omap_app, O1, O2. split_and!; [done | done | lia].
Qed.

Lemma hush_quiet s s' : hush s s' → quiet s s'.
Proof. intros H Hq. destruct (H Hq) as [Q _ _ (evs & E & O & _ & L)]. split; [done |]. by exists evs. Qed.

(** Sessions go by a relation, present or not. *)
Definition opt_rel (R : mux_session → mux_session → Prop) (o o' : option mux_session) : Prop :=
  match o, o' with Some s, Some s' => R s s' | None, None => True | _, _ => False end.

Definition steady (R : mux_session → mux_session → Prop) (c c' : conn_t) : Prop :=
  cn_recv c' = cn_recv c ∧ cn_fd c' = cn_fd c ∧ cn_connecting c' = cn_connecting c ∧
  opt_rel R (cn_mux c) (cn_mux c').

(** What an operation keeps of every tunnel. *)
Definition keeps (R : mux_session → mux_session → Prop) (e e' : ep_state) : Prop :=
  ∀ sd, zlen (pool sd e') = zlen (pool sd e) ∧
        ∀ i c, tunnel e sd i c → ∃ c', tunnel e' sd i c' ∧ steady R c c'.

Abbreviation within := (keeps quiet).
(** As [within], but events may have been taken. *)
Abbreviation onward := (keeps (fun _ _ => True)).

Lemma steady_refl R c : Reflexive R → steady R c c.
Proof. intros HR. split_and!; try done. destruct (cn_mux c); [apply HR | done]. Qed.

#[export] Instance keeps_preorder R : PreOrder R → PreOrder (keeps R).
Proof.
  intros HR. split.
  - intros e sd. split; [done |]. intros i c Ht. exists c. split; [done | apply steady_refl, HR].
  - intros e1 e2 e3 H1 H2 sd. destruct (H1 sd) as [Z1 T1], (H2 sd) as [Z2 T2]. split; [congruence |].
    intros i c (c1 & Ht1 & R1 & F1 & C1 & M1)%T1. destruct (T2 i c1 Ht1) as (c2 & Ht2 & R2 & F2 & C2 & M2).
    exists c2. split; [done |]. split_and!; [congruence.. |]. unfold opt_rel in *.
    destruct (cn_mux c), (cn_mux c1), (cn_mux c2); try done. by etrans.
Qed.

Lemma true_preorder : PreOrder (fun _ _ : mux_session => True).
Proof. by split. Qed.
#[export] Hint Resolve true_preorder : typeclass_instances.

Lemma within_progress e e' : within e e' → onward e e'.
Proof.
  intros H sd. destruct (H sd) as [Hz Ht]. split; [done |]. intros i c (c' & Hc' & R1 & F1 & C1 & M1)%Ht.
  exists c'. split; [done |]. split_and!; [done.. |]. unfold opt_rel in *. by destruct (cn_mux c), (cn_mux c').
Qed.

Lemma keeps_put R e sd i c c' : PreOrder R → tunnel e sd i c → steady R c c' → keeps R e (put_tunnel sd i c' e).
Proof.
  intros HR Ht Hs s. split; [apply zlen_pool_put |]. intros j d Hd. pose proof (tunnel_range _ _ _ _ Ht) as Hi.
  destruct (decide (s = sd ∧ j = i)) as [[-> ->]|Hne].
  - exists c'. rewrite tunnel_put by done. pose proof (tunnel_eq _ _ _ _ _ Ht Hd) as ->. split; [by left | done].
  - exists d. rewrite tunnel_put by done. split; [by right | apply steady_refl, HR].
Qed.

(** An update of anything but the pools. *)
Lemma keeps_pools R e e' : PreOrder R → (∀ sd, pool sd e' = pool sd e) → keeps R e e'.
Proof.
  intros HR E sd. rewrite E. split; [done |]. intros i c Ht. exists c. unfold tunnel in *. rewrite E.
  split; [done | apply steady_refl, HR].
Qed.

Lemma keeps_at R e e' sd i c : keeps R e e' → tunnel e sd i c → ∃ c', tunnel e' sd i c' ∧ steady R c c'.
Proof. intros H. apply H. Qed.

Lemma same_ends_refl r : same_ends r r.
Proof. by intros sd. Qed.
#[export] Hint Resolve same_ends_refl : core.

Lemma set_pend_ends d b r : same_ends r (set_pend d b r).
Proof. by destruct d; intros []. Qed.
#[export] Hint Resolve set_pend_ends : core.

Section Steps.
Context {ED : Ending}.

(** ** Access *)

Lemma wp_conn e sd i c (Q : conn_t → ep_state → Prop) : tunnel e sd i c → Q c e → wp (conn sd i) Q e.
Proof. intros [Hi Hc] HQ. unfold wp. by rewrite (conn_ok e sd i c). Qed.

Lemma wp_set_conn e sd i c (Q : unit → ep_state → Prop) : Q tt (put_tunnel sd i c e) → wp (set_conn sd i c) Q e.
Proof. done. Qed.

Lemma wp_route_at e p r (Q : route → ep_state → Prop) : e_rt e !! p = Some r → Q r e → wp (deref p) Q e.
Proof. intros Hp HQ. unfold wp. by rewrite (deref_ok e p r). Qed.

Lemma wp_route_store e p r r' (Q : unit → ep_state → Prop) :
  rinv e → e_rt e !! p = Some r → same_ends r r' →
  (∀ e', rinv e' → within e e' → e' = e <| e_rt ::= <[p := r']> |> → Q tt e') → wp (store p r') Q e.
Proof.
  intros H Hp Hs HQ. apply wp_modify, HQ; [by eapply rinv_store | | done].
  apply keeps_pools; [apply _ | by intros []].
Qed.

Lemma in_pool_true e sd i : 0 ≤ i < zlen (pool sd e) → in_pool sd i e = true.
Proof. intros Hi. unfold in_pool. destruct (Z.leb_spec 0 i), (Z.ltb_spec i (zlen (pool sd e))); done || lia. Qed.

Lemma put_tunnel_twice sd i c c' e : put_tunnel sd i c' (put_tunnel sd i c e) = put_tunnel sd i c' e.
Proof. unfold put_tunnel. destruct sd, e; cbn; unfold upd, upd_e_edges, upd_e_wk; cbn; by rewrite list_insert_insert_eq. Qed.

Lemma heap_id e : e_heap e = [] → e <| e_heap := [] |> = e.
Proof. destruct e. cbn. by intros ->. Qed.

Lemma wp_routes_del e sd i c k (Q : unit → ep_state → Prop) :
  e_heap e = [] → tunnel e sd i c → tabled (cn_routes c) →
  (∀ m, tabled m → (∀ k', umap_get m k' = if decide (k' = k) then None else umap_get (cn_routes c) k') →
     (is_Some (umap_get (cn_routes c) k) → um_count m = um_count (cn_routes c) - 1) →
     Q tt (put_tunnel sd i (c <| cn_routes := m |>) e)) →
  wp (routes_del sd i k) Q e.
Proof.
  intros Hh Ht Htab HQ. unfold routes_del. wp1. eapply wp_conn; [exact Ht |]. wps. rewrite Hh.
  destruct (tabled_del _ k Htab) as (m & -> & Hm & Hg & Hc). wps. rewrite heap_id by done. by apply HQ.
Qed.

Lemma wp_routes_put e sd i c k p (Q : unit → ep_state → Prop) :
  e_heap e = [] → tunnel e sd i c → tabled (cn_routes c) →
  (∀ m, tabled m → (∀ k', umap_get m k' = if decide (k' = k) then Some p else umap_get (cn_routes c) k') →
     Q tt (put_tunnel sd i (c <| cn_routes := m |>) e)) →
  wp (routes_put sd i k p) Q e.
Proof.
  intros Hh Ht Htab HQ. unfold routes_put. wp1. eapply wp_conn; [exact Ht |]. wps. rewrite Hh.
  destruct (tabled_put _ k p Htab) as (m & -> & Hm & Hg). wps. rewrite heap_id by done. by apply HQ.
Qed.

(** A call on the session of a tunnel, if it has one. *)
Lemma wp_mux_call {A} e sd i c (dflt : A) f (Q : A → ep_state → Prop) :
  rinv e → tunnel e sd i c → (∀ s, cn_mux c = Some s → hush s (f s).2) →
  (∀ a c', rinv (put_tunnel sd i c' e) → within e (put_tunnel sd i c' e) → cn_routes c' = cn_routes c →
     (∀ s, cn_mux c = Some s → a = (f s).1 ∧ c' = c <| cn_mux := Some (f s).2 |>) →
     (cn_mux c = None → a = dflt ∧ c' = c) →
     Q a (put_tunnel sd i c' e)) →
  wp (call sd i dflt f) Q e.
Proof.
  intros H Ht Hh HQ. unfold call. wp1. eapply wp_conn; [exact Ht |].
  assert (put_tunnel sd i c e = e) as Eid.
  { destruct Ht as [_ Hc]. unfold put_tunnel. rewrite list_insert_id by done. by destruct sd, e. }
  destruct (cn_mux c) as [s|] eqn:Em.
  2:{ wps. rewrite <- Eid. apply HQ; rewrite ?Eid; try done. }
  specialize (Hh s eq_refl). destruct (f s) as [a s'] eqn:Ef. cbn [snd] in Hh. wps.
  assert (tabled (cn_routes c)) as Htab by (eapply tabled_up; [by eapply ri_tun | by exists s]).
  pose proof (ri_tun e H sd i c Ht) as [Hs _ [Hf Hp] Hr]. rewrite Em in Hp. destruct Hp as (Hq & Hfd & Hcon).
  destruct (Hh Hq) as [Q1 M1 N1 (evs & E1 & O1 & _ & L1)].
  set (c' := c <| cn_mux := Some s' |>). change (Q a (put_tunnel sd i c' e)).
  assert (rinv (put_tunnel sd i c' e)) as H1.
  { apply (rinv_repool e sd i c c'); try done.
    - split; [done | by left | | done]. split; [done |]. cbn. by split_and!.
    - intros n _. unfold fresh. cbn. rewrite Em. destruct sd; [| by rewrite N1].
      intros (lo & Hc & Hlo). exists lo. split; [| done]. rewrite E1, M1. unfold opened in *. rewrite omap_app, O1.
      by rewrite app_nil_r. }
  apply HQ; [done | | done | | done].
  - eapply keeps_put; [apply _ | exact Ht |]. split_and!; try done. unfold opt_rel. cbn. rewrite Em. by apply hush_quiet.
  - intros s0 [= <-]. by rewrite Ef.
Qed.

(** ** Routes *)

(** The table of tunnel [i] loses the entry [k]; nothing else that matters. *)
Definition delisted (sd : side) (i k : Z) (e e' : ep_state) : Prop :=
  ∃ c c', tunnel e sd i c ∧ tunnel e' sd i c' ∧ unlisted k c c' ∧
    (is_Some (umap_get (cn_routes c) k) → um_count (cn_routes c') = um_count (cn_routes c) - 1).

Lemma keeps_both R e idx old new :
  PreOrder R → (∀ sd, tunnel e sd (idx sd) (old sd)) → (∀ sd, steady R (old sd) (new sd)) →
  keeps R e (put_both idx new e).
Proof.
  intros HR Ho Hs. unfold put_both. etrans; [by eapply keeps_put |]. eapply keeps_put; [done | | done].
  rewrite tunnel_put by (eapply tunnel_range, Ho). right. split; [by intros [] | apply Ho].
Qed.

Lemma unlisted_steady R k c c' : Reflexive R → unlisted k c c' → steady R c c'.
Proof. intros HR [(m & f & ->) _]. split_and!; try done. cbn. destruct (cn_mux c); [apply HR | done]. Qed.

Lemma wp_route_free e p r (Q : unit → ep_state → Prop) :
  rinv e → e_rt e !! p = Some r →
  (∀ e', rinv e' → within e e' → e_rt e' = delete p (e_rt e) →
     (∀ sd, delisted sd (end_idx sd r) (end_sid sd r) e e') → e_log e' = e_log e → Q tt e') →
  wp (route_free p) Q e.
Proof.
  intros H Hp HQ. unfold route_free. wp1. eapply wp_route_at; [exact Hp |]. wps.
  pose proof (ri_pool e H p r EDGE Hp) as Ie. pose proof (ri_pool e H p r WORKER Hp) as Iw. cbn [end_idx] in Ie, Iw.
  destruct (tunnel_at e EDGE _ Ie) as [ce He]. destruct (tunnel_at e WORKER _ Iw) as [cw Hw].
  rewrite in_pool_true by done. cbn [when_].
  eapply wp_routes_del; [apply H | exact He | exact (ri_live e H p r EDGE ce Hp He) |]. intros me Hme Gme Cme.
  set (ce' := ce <| cn_routes := me |>). set (e1 := put_tunnel EDGE (r_edge_idx r) ce' e).
  assert (tunnel e1 WORKER (r_worker_idx r) cw) as Hw1 by (apply tunnel_put; [done | right; split; [by intros [] | done]]).
  wps. rewrite in_pool_true by (unfold e1; by rewrite zlen_pool_put). cbn [when_]. wps.
  eapply wp_routes_del; [apply H | exact Hw1 | exact (ri_live e H p r WORKER cw Hp Hw) |]. intros mw Hmw Gmw Cmw.
  set (cw1 := cw <| cn_routes := mw |>).
  assert (∀ f, let cw' := cw1 <| cn_inflight := f |> in
            Q tt (put_tunnel WORKER (r_worker_idx r) cw' e1 <| e_rt ::= delete p |>)) as Hfin.
  { intros f cw'. set (old sd := match sd with EDGE => ce | WORKER => cw end).
    set (new sd := match sd with EDGE => ce' | WORKER => cw' end).
    assert (∀ sd, tunnel e sd (end_idx sd r) (old sd)) as Ho by by intros [].
    assert (∀ sd, unlisted (end_sid sd r) (old sd) (new sd)) as Hu.
    { intros []; (split; [| by split]); cbn; [exists me, (cn_inflight ce); by destruct ce | by exists mw, f]. }
    change (Q tt (put_both (fun sd => end_idx sd r) new e <| e_rt := delete p (e_rt e) |>)).
    pose proof (keeps_both quiet e (fun sd => end_idx sd r) old new _ Ho (fun sd => unlisted_steady _ _ _ _ _ (Hu sd))) as Hk.
    apply HQ; [by eapply rinv_free | | done | | done].
    - etrans; [exact Hk |]. apply keeps_pools; [apply _ | by intros []].
    - intros sd. exists (old sd), (new sd). split_and!; [apply Ho | | apply Hu | by destruct sd].
      assert (tunnel (put_both (fun sd => end_idx sd r) new e) sd (end_idx sd r) (new sd)) as Ht.
      { apply tunnel_both; [intros s; eapply tunnel_range, Ho | by left]. }
      by destruct sd. }
  wps. eapply (wp_conn _ _ _ cw1).
  { apply tunnel_put; [unfold e1; by rewrite zlen_pool_put | by left]. }
  apply wp_when; intros _; [apply wp_set_conn; rewrite put_tunnel_twice |]; wps; [apply Hfin |].
  assert (cw1 <| cn_inflight := cn_inflight cw1 |> = cw1) as <- by by destruct cw1. apply Hfin.
Qed.

(** ** Forwarding *)

Lemma buf_append_heap b p n : (buf_append [] b p n).1.2 = [].
Proof.
  unfold buf_append, buf_grow. destruct (n =? 0); [done |]. cbv zeta. by destruct (_ >? bf_cap _).
Qed.

(** What forwarding does to the routes: the pending bytes of [p] change. *)
Definition moved_pend (p : Z) (d : dir) (r : route) (e e' : ep_state) : Prop :=
  ∃ b, e_rt e' = <[p := set_pend d b r]> (e_rt e).

Lemma moved_nothing p d r e e' : e_rt e !! p = Some r → e_rt e' = e_rt e → moved_pend p d r e e'.
Proof. intros Hp E. exists (get_pend d r). rewrite E, insert_id; [done |]. by destruct d, r. Qed.

Lemma wp_pend_append e p d r data n (Q : unit → ep_state → Prop) :
  rinv e → e_rt e !! p = Some r →
  (∀ e', rinv e' → within e e' → moved_pend p d r e e' → Q tt e') → wp (pend_append p d data n) Q e.
Proof.
  intros H Hp HQ. unfold pend_append. wp1. eapply wp_route_at; [exact Hp |]. wps. rewrite (ri_heap e H).
  pose proof (buf_append_heap (get_pend d r) data n) as Eh. destruct (buf_append _ _ _ _) as [[x h] b].
  cbn [fst snd] in Eh. subst h. wps. rewrite heap_id by apply H.
  eapply wp_route_store; [done | exact Hp | done |]. intros e' H' W' ->. apply HQ; [done | done |]. by exists b.
Qed.

Lemma moved_trans p d r e1 e2 e3 :
  e_rt e1 !! p = Some r → e_rt e2 = e_rt e1 → moved_pend p d r e2 e3 → moved_pend p d r e1 e3.
Proof. intros Hp E [b Hb]. exists b. by rewrite Hb, E. Qed.

Lemma put_tunnel_rt sd i c e : e_rt (put_tunnel sd i c e) = e_rt e.
Proof. by destruct sd. Qed.
Lemma put_tunnel_log_eq sd i c e : e_log (put_tunnel sd i c e) = e_log e.
Proof. by destruct sd. Qed.

(** A call whose answer alone matters. *)
Lemma wp_api {A} e sd i (dflt : A) f (Q : A → ep_state → Prop) :
  rinv e → 0 ≤ i < zlen (pool sd e) → (∀ s, hush s (f s).2) →
  (∀ a e', rinv e' → within e e' → e_rt e' = e_rt e → e_log e' = e_log e →
     a = dflt ∨ (∃ s, a = (f s).1) → Q a e') →
  wp (call sd i dflt f) Q e.
Proof.
  intros H Hi Hh HQ. destruct (tunnel_at e sd i Hi) as [c Hc]. eapply wp_mux_call; [exact H | exact Hc | auto |].
  intros a c' H' W' _ Hs Hn. apply HQ; [done | done | apply put_tunnel_rt | apply put_tunnel_log_eq |].
  destruct (cn_mux c) as [s|]; [right; exists s; by apply Hs | left; by apply Hn].
Qed.

Lemma within_pool e e' sd i : within e e' → 0 ≤ i < zlen (pool sd e) → 0 ≤ i < zlen (pool sd e').
Proof. intros H. by destruct (H sd) as [-> _]. Qed.

Lemma wp_fwd e ssd si ssid dsd di dsid p d data len r (Q : unit → ep_state → Prop) :
  rinv e → e_rt e !! p = Some r → 0 ≤ si < zlen (pool ssd e) → 0 ≤ di < zlen (pool dsd e) →
  (∀ e', rinv e' → within e e' → moved_pend p d r e e' → Q tt e') →
  wp (fwd ssd si ssid dsd di dsid p d data len) Q e.
Proof.
  intros H Hp Hs Hd HQ. unfold fwd. wp1. eapply wp_route_at; [exact Hp |].
  destruct (_ >? 0); [by eapply wp_pend_append |].
  wp1. eapply wp_api; [exact H | exact Hd | intros s; apply mux_write_hush |]. intros w e1 H1 W1 R1 _ _.
  assert (e_rt e1 !! p = Some r) as Hp1 by by rewrite R1.
  assert (∀ e2, rinv e2 → within e e2 → e_rt e2 = e_rt e →
    wp (let w := if w <? 0 then 0 else w in when_ (w <? len) (pend_append p d (zdrop w (vbytes data)) (len - w))) Q e2) as Hend.
  { intros e2 H2 W2 R2. cbv zeta. apply wp_when; intros _; [| apply HQ; [done | done | by apply moved_nothing]].
    eapply wp_pend_append; [exact H2 | by rewrite R2 |]. intros e3 H3 W3 M3. apply HQ; [done | by etrans | by eapply moved_trans]. }
  wp1. apply wp_when; intros _; [| by apply Hend].
  wp1. eapply wp_api; [exact H1 | by eapply within_pool | intros s; apply mux_consume_hush |]. intros _ e2 H2 W2 R2 _ _.
  wps. apply Hend; [done | by etrans | congruence].
Qed.

Lemma buf_drop_avail b w : 0 < w → 0 < buf_avail b → buf_avail (buf_drop b w) < buf_avail b.
Proof. unfold buf_avail, buf_drop, buf_rewind. cbn. intros. destruct (Z.eqb_spec (bf_head b + w) (bf_len b)); cbn; lia. Qed.

(** The loop ends: an iteration that goes on has removed a byte. *)
Lemma wp_pend_loop fuel e ssd si ssid dsd di dsid p d r (Q : unit → ep_state → Prop) :
  rinv e → e_rt e !! p = Some r → 0 ≤ si < zlen (pool ssd e) → 0 ≤ di < zlen (pool dsd e) →
  Z.max 0 (buf_avail (get_pend d r)) < Z.of_nat fuel →
  (∀ e', rinv e' → within e e' → moved_pend p d r e e' → Q tt e') →
  wp (flush_loop fuel ssd si ssid dsd di dsid p d) Q e.
Proof.
  revert e r. induction fuel as [|fuel IH]; intros e r H Hp Hs Hd Hn HQ; cbn [flush_loop]; [lia |].
  assert (∀ e', rinv e' → within e e' → e_rt e' = e_rt e → Q tt e') as HQ0.
  { intros e' H' W' R'. apply HQ; [done | done | by apply moved_nothing]. }
  wp1. eapply wp_route_at; [exact Hp |]. destruct (Z.gtb_spec (buf_avail (get_pend d r)) 0) as [Hpos|]; [| wps; by apply HQ0].
  wp1. eapply wp_api; [exact H | exact Hd | intros s; apply mux_write_hush |]. intros w e1 H1 W1 R1 _ _.
  destruct (Z.leb_spec w 0) as [|Hw]; [wps; by apply HQ0 |].
  wp1. eapply wp_api; [exact H1 | by eapply within_pool | intros s; apply mux_consume_hush |]. intros _ e2 H2 W2 R2 _ _.
  assert (e_rt e2 = e_rt e) as R by congruence. set (r' := set_pend d (buf_drop (get_pend d r) w) r).
  wp1. eapply (wp_route_store _ p r); [exact H2 | by rewrite R | by apply set_pend_ends |]. intros e3 H3 W3 E3.
  assert (within e e3) as W by (etrans; [exact W1 | by etrans]).
  assert (e_rt e3 = <[p := r']> (e_rt e)) as R3 by (rewrite E3; cbn; by rewrite R).
  eapply (IH e3 r'); [exact H3 | by rewrite R3, lookup_insert_eq | by eapply within_pool | by eapply within_pool | |].
  - unfold r'. rewrite get_set_pend. pose proof (buf_drop_avail (get_pend d r) w Hw Hpos). lia.
  - intros e4 H4 W4 [b Hb]. apply HQ; [done | by etrans |]. exists b. rewrite Hb, R3, insert_insert_eq. unfold r'.
    by rewrite set_set_pend.
Qed.

Lemma wp_flush_pend e ssd si ssid dsd di dsid p d r (Q : unit → ep_state → Prop) :
  rinv e → e_rt e !! p = Some r → 0 ≤ si < zlen (pool ssd e) → 0 ≤ di < zlen (pool dsd e) →
  (∀ e', rinv e' → within e e' → moved_pend p d r e e' → Q tt e') →
  wp (flush_pend ssd si ssid dsd di dsid p d) Q e.
Proof.
  intros H Hp Hs Hd HQ. unfold flush_pend. wp1. eapply wp_route_at; [exact Hp |].
  eapply wp_pend_loop; [exact H | exact Hp | done | done | lia | exact HQ].
Qed.

Lemma wp_route_kill e p r up down (Q : unit → ep_state → Prop) :
  rinv e → e_rt e !! p = Some r → (∀ e', rinv e' → within e e' → Q tt e') → wp (route_kill p up down) Q e.
Proof.
  intros H Hp HQ. unfold route_kill. wp1. eapply wp_route_at; [exact Hp |].
  destruct (r_gone r); [wps; apply HQ; [done | reflexivity] |].
  wp1. eapply wp_route_store; [exact H | exact Hp | by intros [] |]. intros e1 H1 W1 E1.
  pose proof (ri_pool e H p r EDGE Hp) as Ie. pose proof (ri_pool e H p r WORKER Hp) as Iw. cbn [end_idx] in Ie, Iw.
  set (r1 := r <| r_gone := true |>) in *. assert (e_rt e1 !! p = Some r1) as Hp1 by (rewrite E1; apply lookup_insert_eq).
  assert (∀ e2, rinv e2 → within e e2 → e_rt e2 = e_rt e1 → wp (route_free p) Q e2) as Hfree.
  { intros e2 H2 W2 R2. eapply wp_route_free; [exact H2 | by rewrite R2 |]. intros e3 H3 W3 _ _ _. apply HQ; [done | by etrans]. }
  assert (∀ e2, rinv e2 → within e e2 → e_rt e2 = e_rt e1 → wp (when_ (down && (0 <=? r_worker_idx r))
    (call WORKER (r_worker_idx r) MUX_ERR_PARAM (fun s => mux_reset s (r_down_sid r) MUX_CODE_INTERNAL);; mret tt);;
     route_free p) Q e2) as Hdown.
  { intros e2 H2 W2 R2. wp1. apply wp_when; intros _; [| by apply Hfree].
    wp1. eapply wp_api; [exact H2 | by eapply within_pool | intros s; apply mux_reset_hush |]. intros _ e3 H3 W3 R3 _ _.
    wps. apply Hfree; [done | by etrans | congruence]. }
  do 3 wp1. apply wp_when; intros _; [| by apply Hdown].
  wp1. eapply wp_api; [exact H1 | by eapply within_pool | intros s; apply mux_reset_hush |]. intros _ e2 H2 W2 R2 _ _.
  apply wp_ret, Hdown; [done | by etrans | done].
Qed.
End Steps.
