(* ===== verification/RouterEvents.v ===== *)
(** The router's event handlers have a defined outcome and keep the invariant:
    the balancer's pick, a new route, the switches of [on_up_events] and
    [on_worker_events], and their loops. *)

From stdpp Require Import base list numbers gmap.
From Stdlib Require Import ZArith Lia.
From S2P Require Import Prelude Frame OutBuf EventQueue Probe StreamTable Session SessionIO Handshake Recv SessionOpens Auth Host Fifo Umap Router Balance Splice RouterLoop RouterInv RouterSteps.

Section Events.
Context {ED : Ending}.

(** ** The pick *)

(** Only the current weight changes. *)
Definition reweighed (w w' : conn_t) : Prop := w' = w <| cn_swrr_cw := cn_swrr_cw w' |>.

Lemma reweighed_bump w : reweighed w (bump w).
Proof. unfold reweighed, bump. by destruct (eligible w), w. Qed.

Lemma reweighed_refl w : reweighed w w.
Proof. by destruct w. Qed.

Lemma pick_any wk :
  ∃ best wk', pick_worker_in wk = (best, wk') ∧ Forall2 reweighed wk wk' ∧
    (0 ≤ best → ∃ w, wk !! Z.to_nat best = Some w ∧ cn_ready w = true).
Proof.
  assert (Forall2 reweighed wk (bump <$> wk)) as Hb.
  { clear. induction wk as [|w wk IH]; cbn; constructor; [apply reweighed_bump | done]. }
  unfold pick_worker_in. destruct (swrr_loop_spec wk 0 0 (-1) 0 ltac:(lia)) as (b & -> & Hc).
  eexists _, _. split; [reflexivity |]. rewrite Z.geb_leb. destruct Hc as [[-> _]|(j & w & Hj & Hw & -> & _)].
  - split; [done | by intros []].
  - destruct (Z.leb_spec 0 (0 + Z.of_nat j)); [| lia]. replace (Z.to_nat (0 + Z.of_nat j)) with j by lia. split.
    + rewrite (list_alter_insert _ _ j (bump w)) by (by rewrite list_lookup_fmap, Hj).
      match goal with |- Forall2 _ _ (<[j := ?x]> _) =>
        assert (Forall2 reweighed (<[j := w]> wk) (<[j := x]> (bump <$> wk))) as Hi end.
      { apply Forall2_insert; [done |]. unfold reweighed, bump. by destruct (eligible w), w. }
      by rewrite list_insert_id in Hi.
    + intros _. exists w. split; [done |]. unfold eligible in Hw. by destruct (cn_ready w).
Qed.

Lemma reweighed_held fd wk wk' : Forall2 reweighed wk wk' → cnt (holder fd) wk' = cnt (holder fd) wk.
Proof. induction 1 as [|w w' wk wk' Hw _ IH]; [done |]. cbn. rewrite IH. f_equal. unfold holder. by rewrite Hw. Qed.

Lemma reweighed_at e wk' sd i c' :
  Forall2 reweighed (e_wk e) wk' → tunnel (e <| e_wk := wk' |>) sd i c' →
  ∃ c, tunnel e sd i c ∧ reweighed c c'.
Proof.
  intros HF [Hi Hc]. destruct sd; [exists c'; split; [by split | apply reweighed_refl] |].
  destruct (Forall2_lookup_r _ _ _ _ _ HF Hc) as (c & Hc0 & R). by exists c.
Qed.

Lemma reweighed_to e wk' sd i c :
  Forall2 reweighed (e_wk e) wk' → tunnel e sd i c →
  ∃ c', tunnel (e <| e_wk := wk' |>) sd i c' ∧ reweighed c c'.
Proof.
  intros HF [Hi Hc]. destruct sd; [exists c; split; [by split | apply reweighed_refl] |].
  destruct (Forall2_lookup_l _ _ _ _ _ HF Hc) as (c' & Hc0 & R). by exists c'.
Qed.

Lemma reweighed_ok sd c c' : reweighed c c' → tunnel_ok sd c → tunnel_ok sd c'.
Proof. intros -> []. by split. Qed.

Lemma rinv_reweigh e wk' :
  rinv e → Forall2 reweighed (e_wk e) wk' → rinv (e <| e_wk := wk' |>) ∧ within e (e <| e_wk := wk' |>).
Proof.
  intros H HF. assert (∀ sd, zlen (pool sd (e <| e_wk := wk' |>)) = zlen (pool sd e)) as Hz.
  { intros []; [done |]. cbn. unfold zlen. by rewrite (Forall2_length _ _ _ HF). }
  split.
  - split; try apply H.
    + intros sd i c' (c & Hc & R)%reweighed_at; [| done]. eapply reweighed_ok; [exact R | by eapply ri_tun].
    + intros sd i c' k p (c & Hc & R)%reweighed_at Hk; [| done]. eapply (ri_point e H); [exact Hc | by rewrite R in Hk].
    + intros p r sd Hr. rewrite Hz. by eapply (ri_pool e H).
    + intros p r sd c' Hr (c & Hc & R)%reweighed_at; [| done]. rewrite R. eapply (ri_live e H p r sd c Hr Hc).
    + intros fd Hf. unfold held. cbn. rewrite (reweighed_held fd _ _ HF). by apply (ri_fds e H).
    + intros Hn. destruct (ri_exact e H Hn) as [Hx Hfr]. split.
      * intros p r sd Hr. destruct (Hx p r sd Hr) as (c & Hc & Hk). destruct (reweighed_to e wk' _ _ _ HF Hc) as (c' & Hc' & R).
        exists c'. split; [done |]. by rewrite R.
      * intros sd i c' (c & Hc & R)%reweighed_at; [| done]. specialize (Hfr sd i c Hc). unfold fresh in *. by rewrite R.
  - intros sd. split; [done |]. intros i c Hc. destruct (reweighed_to e wk' _ _ _ HF Hc) as (c' & Hc' & R).
    exists c'. split; [done |]. rewrite R. by apply (steady_refl quiet c _).
Qed.

Lemma wp_pick_worker e (Q : Z → ep_state → Prop) :
  rinv e →
  (∀ best e', rinv e' → within e e' → e_edges e' = e_edges e → e_log e' = e_log e →
     (0 ≤ best → ∃ w, tunnel e' WORKER best w ∧ is_Some (cn_mux w)) → Q best e') →
  wp pick_worker Q e.
Proof.
  intros H HQ. unfold wp, pick_worker. destruct (pick_any (e_wk e)) as (best & wk' & -> & HF & Hb).
  destruct (rinv_reweigh e wk' H HF) as [H' W']. apply HQ; [done | done | done | done |]. intros Hge.
  destruct (Hb Hge) as (w & Hw & Hr). destruct (reweighed_to e wk' WORKER best w HF) as (w' & Hw' & R); [by split |].
  exists w'. split; [done |]. rewrite R. cbn. destruct (to_phase _ _ (ri_tun e H WORKER best w ltac:(by split))) as [_ Hp].
  destruct (cn_mux w) as [s|]; [by exists s |]. destruct Hp. congruence.
Qed.

(** ** A new route *)

(** [mux_open] on a worker: the id is unused and below those to come. *)
Lemma wp_open e i w meta n (Q : Z → ep_state → Prop) :
  rinv e → tunnel e WORKER i w → is_Some (cn_mux w) →
  (∀ ds e' w' s', rinv e' → within e e' → e_edges e' = e_edges e → asked e' = asked e + 1 →
     tunnel e' WORKER i w' → cn_mux w' = Some s' →
     (0 ≤ ds → asked e' < 2 ^ 31 →
        u32 ds < s_next_local_sid s' ≤ 1 + 2 * asked e' ∧ ∀ k, is_Some (umap_get (cn_routes w') k) → k < u32 ds) →
     Q ds e') →
  wp (note (EP_OPENING i);; call WORKER i MUX_ERR_PARAM (fun s => mux_open s meta n)) Q e.
Proof.
  intros H Ht [s Hm] HQ. unfold note. wps. unfold call. wps.
  set (l := [EP_OPENING i]). set (e1 := e <| e_log := e_log e ++ l |>).
  change (e <| e_log ::= λ l0 : list ep_effect, l0 ++ [EP_OPENING i] |>) with e1.
  apply (wp_conn e1 WORKER i w); [exact Ht |]. rewrite Hm.
  pose proof (mux_open_next s meta n) as Ho. destruct (mux_open s meta n) as [ds s'] eqn:Eo. wps.
  set (w' := w <| cn_mux := Some s' |>). change (Q ds (put_tunnel WORKER i w' e <| e_log := e_log e ++ l |>)).
  assert (tabled (cn_routes w)) as Htab by (eapply tabled_up; [by eapply ri_tun | by exists s]).
  pose proof (ri_tun e H WORKER i w Ht) as [Hs _ [Hf Hp] Hr]. rewrite Hm in Hp. destruct Hp as (Hq & Hfd & Hcon).
  pose proof (tunnel_range _ _ _ _ Ht) as Hi. pose proof (asked_nonneg e) as Hn0.
  assert (quiet s s' ∧ evq_wf (s_q s')) as [Hquiet Hq'].
  { destruct Ho as [[_ ->]|(_ & _ & Hh)]; [split; [reflexivity | done] |].
    destruct (Hh Hq) as [Q1 _ _ (evs & E & O & _ & L)]. split; [| done]. intros _. split; [done |]. by exists evs. }
  assert (cnt is_opening l = 1) as El by done.
  set (nx := s_next_local_sid s) in *.
  assert (asked e + 1 < 2 ^ 31 → 0 ≤ nx ≤ 1 + 2 * asked e → s' = s ∧ ds < 0 ∨
            s_next_local_sid s' = nx + 2 ∧ (ds < 0 ∨ ds = nx)) as Hnext.
  { intros Hn Hx. destruct Ho as [[Hneg ->]|(_ & Hd & Hh)]; [by left |]. right. destruct (Hh Hq) as [_ _ N _]. cbn in N.
    rewrite N. unfold u32. rewrite Z.mod_small by lia. done. }
  assert (asked e < 2 ^ 31 → 0 ≤ nx ≤ 1 + 2 * asked e ∧ ∀ k, is_Some (umap_get (cn_routes w) k) → k < nx) as Hfresh.
  { intros Hn. pose proof (ex_fresh e (ri_exact e H Hn) WORKER i w Ht) as F. unfold fresh in F. by rewrite Hm in F. }
  set (e2 := put_tunnel WORKER i w' e <| e_log := e_log e ++ l |>).
  assert (asked e2 = asked e + 1) as Ea by (unfold asked, e2; cbn; by rewrite cnt_app).
  assert (rinv e2) as H2.
  { eapply rinv_tunnel; [exact H | exact Ht | | done | done |].
    - split; [done | by left | split; [done | by split_and!] | done].
    - rewrite El. intros Hn _. destruct Hfresh as [Hx Hk]; [lia |]. unfold fresh. cbn.
      destruct (Hnext Hn Hx) as [[-> _]|[E _]]; [fold nx; split; [lia | done] |]. rewrite E. split; [lia |].
      intros k Hkk%Hk. lia. }
  assert (tunnel e2 WORKER i w') as Ht2.
  { change (tunnel (put_tunnel WORKER i w' e) WORKER i w'). apply tunnel_put; [done | by left]. }
  eapply (HQ ds e2 w' s'); [done | | done | done | done | done |].
  - transitivity (put_tunnel WORKER i w' e).
    + eapply keeps_put; [apply _ | exact Ht |]. split_and!; try done. unfold opt_rel. cbn. by rewrite Hm.
    + apply keeps_pools; [apply _ | by intros []].
  - rewrite Ea. intros Hge Hn. destruct Hfresh as [Hx Hk]; [lia |].
    destruct (Hnext Hn Hx) as [[_ ?]|[E [?| ->]]]; [lia | lia |]. rewrite E. unfold u32. rewrite Z.mod_small by lia.
    split; [lia | done].
Qed.

(** The event of stream [sid] has just been taken from the edge's session. *)
Definition newest (e : ep_state) (c : conn_t) (sid : Z) : Prop :=
  asked e < 2 ^ 31 → (∀ k, is_Some (umap_get (cn_routes c) k) → k < sid) ∧
    ∃ s, cn_mux c = Some s ∧ climbs sid (opened (events s)) (s_max_remote_sid s).

Lemma wp_route_new e ei c sid wi w ds s' (Q : option Z → ep_state → Prop) :
  rinv e → tunnel e EDGE ei c → is_Some (cn_mux c) → newest e c sid →
  tunnel e WORKER wi w → cn_mux w = Some s' →
  (asked e < 2 ^ 31 → ds < s_next_local_sid s' ≤ 1 + 2 * asked e ∧ ∀ k, is_Some (umap_get (cn_routes w) k) → k < ds) →
  (∀ p e', rinv e' → within e e' → Q (Some p) e') →
  wp (route_new ei sid wi ds) Q e.
Proof.
  intros H Hc Hmc Hnew Hw Hmw Hds HQ. unfold route_new. wps. rewrite (ri_heap e H). cbn [alloc]. wps.
  rewrite heap_id by apply H. cbn [negb]. wps. set (p := e_brk e). set (r := mk_route _ _ _ _ _ _ _ _ _). unfold store. wps.
  set (e1 := e <| e_brk := p + 1 |> <| e_rt ::= <[p := r]> |>).
  eapply (wp_routes_put e1 EDGE ei c); [apply H | exact Hc | eapply tabled_up; [by eapply ri_tun | done] |]. intros me Hme Gme.
  set (ce := c <| cn_routes := me |>). wps. pose proof (tunnel_range _ _ _ _ Hc) as Ie. pose proof (tunnel_range _ _ _ _ Hw) as Iw.
  set (e2 := put_tunnel EDGE ei ce e1).
  assert (tunnel e2 WORKER wi w) as Hw2.
  { apply tunnel_put; [exact Ie |]. right. split; [by intros [] | exact Hw]. }
  eapply (wp_routes_put e2 WORKER wi w); [apply H | exact Hw2 | eapply tabled_up; [by eapply ri_tun | by eexists] |]. intros mw Hmw' Gmw.
  set (cw := w <| cn_routes := mw |>). wps.
  eapply (wp_conn _ _ _ cw); [apply tunnel_put; [exact (tunnel_range _ _ _ _ Hw2) | by left] |].
  wps. apply wp_set_conn. wps. rewrite put_tunnel_twice. set (cw' := cw <| cn_inflight := _ |>).
  set (old sd := match sd with EDGE => c | WORKER => w end). set (new sd := match sd with EDGE => ce | WORKER => cw' end).
  assert (put_tunnel WORKER wi cw' e2 = put_both (fun sd => end_idx sd r) new e <| e_rt := <[p := r]> (e_rt e) |> <| e_brk := p + 1 |>) as ->.
  { unfold e2, e1, put_both, put_tunnel. by destruct e. }
  assert (∀ sd, tunnel e sd (end_idx sd r) (old sd)) as Ho by by intros [].
  assert (∀ sd, added (end_sid sd r) p (old sd) (new sd)) as Had.
  { intros []; (split; [| by split]); cbn; [exists me, (cn_inflight c); by destruct c | by exists mw, (cn_inflight cw')]. }
  apply HQ.
  - eapply rinv_new; [done | exact Ho | by intros []; [| exists s'] | exact Had |]. intros Hn.
    destruct (Hnew Hn) as (Hlt & s & Hs & Hcl). destruct (Hds Hn) as (Hb & Hlt').
    intros []; (split; [apply eq_None_not_Some; intros Hk |]); cbn in *.
    + apply Hlt in Hk. lia.
    + unfold fresh. cbn. rewrite Hs. exists sid. split; [done |]. intros k. rewrite Gme.
      case_decide; [subst; lia |]. intros Hk%Hlt. lia.
    + apply Hlt' in Hk. lia.
    + unfold fresh. cbn. rewrite Hmw. pose proof (asked_nonneg e). pose proof (ex_fresh e (ri_exact e H Hn) WORKER wi w Hw) as F.
      unfold fresh in F. rewrite Hmw in F. split; [lia |]. intros k. rewrite Gmw. case_decide; [subst; lia |]. intros Hk%F. done.
  - transitivity (put_both (fun sd => end_idx sd r) new e); [| apply keeps_pools; [apply _ | by intros []]].
    eapply keeps_both; [apply _ | exact Ho |]. intros sd. destruct (Had sd) as [(m & f & ->) _]. split_and!; try done.
    generalize (old sd). intros x. cbn. destruct (cn_mux x) as [y|]; [change (quiet y y); reflexivity | done].
Qed.

(** ** The switches *)

Lemma has_mux_some c : has_mux c = true ↔ is_Some (cn_mux c).
Proof. unfold has_mux. destruct (cn_mux c); [split; eauto | by split; [| intros []]]. Qed.

(** A tunnel that is up changes its readiness and weights. *)
Lemma wp_set_ready e sd i c c' (Q : unit → ep_state → Prop) :
  rinv e → tunnel e sd i c → is_Some (cn_mux c) →
  c' = c <| cn_ready := cn_ready c' |> <| cn_weight := cn_weight c' |> <| cn_swrr_cw := cn_swrr_cw c' |> →
  (∀ e', rinv e' → within e e' → Q tt e') → wp (set_conn sd i c') Q e.
Proof.
  intros H Ht [s Hm] E HQ. apply wp_set_conn. assert (tabled (cn_routes c)) as Htab by (eapply tabled_up; [by eapply ri_tun | by exists s]).
  pose proof (ri_tun e H sd i c Ht) as [Hs _ [Hf Hp] Hr]. rewrite Hm in Hp.
  rewrite E. apply HQ.
  - apply (rinv_repool e sd i c); try done. split; [done | by left | | done]. split; [done |]. cbn. by rewrite Hm.
  - eapply keeps_put; [apply _ | exact Ht |]. split_and!; try done. cbn. rewrite Hm. change (quiet s s). reflexivity.
Qed.

(** The last steps of a closed stream: its route is freed when both ends are done. *)
Lemma wp_fin e p r f (fin : route → bool) (Q : unit → ep_state → Prop) :
  rinv e → e_rt e !! p = Some r → (∀ x, same_ends x (f x)) → (∀ e', rinv e' → within e e' → Q tt e') →
  wp (r ← deref p; store p (f r);; when_ (fin r) (route_free p)) Q e.
Proof.
  intros H Hp Hf HQ. wp1. eapply wp_route_at; [exact Hp |]. wp1. eapply wp_route_store; [exact H | exact Hp | apply Hf |].
  intros e1 H1 W1 E1. apply wp_when; intros _; [| by apply HQ].
  eapply wp_route_free; [exact H1 | rewrite E1; apply lookup_insert_eq |]. intros e2 H2 W2 _ _ _. apply HQ; [done | by etrans].
Qed.

(** [flush_pend] towards a tunnel, the close there, and the last steps. *)
Lemma wp_closing e ssd si ssid dsd di dsid p d r f fin (Q : unit → ep_state → Prop) :
  rinv e → e_rt e !! p = Some r → 0 ≤ si < zlen (pool ssd e) → 0 ≤ di < zlen (pool dsd e) →
  (∀ x, same_ends x (f x)) → (∀ e', rinv e' → within e e' → Q tt e') →
  wp (flush_pend ssd si ssid dsd di dsid p d;;
      call dsd di MUX_ERR_PARAM (fun s => mux_close s dsid);;
      r ← deref p; store p (f r);; when_ (fin r) (route_free p)) Q e.
Proof.
  intros H Hp Hs Hd Hf HQ. wp1. eapply wp_flush_pend; [exact H | exact Hp | done | done |]. intros e1 H1 W1 [b R1].
  wp1. eapply wp_api; [exact H1 | by eapply within_pool | intros s; apply mux_close_hush |]. intros _ e2 H2 W2 R2 _ _.
  eapply wp_fin; [exact H2 | by rewrite R2, R1, lookup_insert_eq | exact Hf |]. intros e3 H3 W3.
  apply HQ; [done | etrans; [exact W1 | by etrans]].
Qed.

Section Handlers.
Context (k : stack).

(** A route looked up in a tunnel's table. *)
Lemma wp_lookup e sd i c sid (m : Z → R unit) (Q : unit → ep_state → Prop) :
  rinv e → tunnel e sd i c → Q tt e →
  (∀ p r, e_rt e !! p = Some r → end_idx sd r = i → (∀ s, 0 ≤ end_idx s r < zlen (pool s e)) → wp (m p) Q e) →
  wp (c ← conn sd i; match umap_get (cn_routes c) sid with None => mret tt | Some p => m p end) Q e.
Proof.
  intros H Hc HQ Hm. wp1. eapply wp_conn; [exact Hc |]. destruct (umap_get (cn_routes c) sid) as [p|] eqn:Ek; [| by wps].
  destruct (ri_point e H sd i c sid p Hc Ek) as (r & Hr & Ei & _). eapply Hm; [exact Hr | done |]. intros s. by eapply ri_pool.
Qed.

Lemma wp_on_up_event e i c ev (Q : unit → ep_state → Prop) :
  rinv e → tunnel e EDGE i c → is_Some (cn_mux c) →
  (∀ sid m n, ev = EV_STREAM_OPENED sid m n → newest e c sid) →
  (∀ e', rinv e' → within e e' → Q tt e') → wp (on_up_event k i ev) Q e.
Proof.
  intros H Hc Hm Hop HQ. pose proof (tunnel_range _ _ _ _ Hc) as Hi.
  assert (Q tt e) as HQ0 by (apply HQ; [done | reflexivity]).
  assert (∀ e1 f, rinv e1 → within e e1 → (∀ s, hush s (f s).2) →
            wp (call EDGE i MUX_ERR_PARAM f;; mret tt) Q e1) as Hcall.
  { intros e1 f H1 W1 Hf. wp1. eapply wp_api; [exact H1 | by eapply within_pool | exact Hf |]. intros _ e2 H2 W2 _ _ _.
    wps. apply HQ; [done | by etrans]. }
  destruct ev as [sid|sid m n|sid data n|sid|sid code|sid|h|w|code last|code]; cbn [on_up_event]; try (by wps).
  - wp1. eapply wp_pick_worker; [exact H |]. intros best e1 H1 W1 Ed1 El1 Hb.
    destruct (Z.ltb_spec best 0); [apply Hcall; [done | done | intros s; apply mux_reset_hush] |].
    destruct (Hb ltac:(lia)) as (w & Hw & Hmw). apply wp_assoc. wp1. eapply wp_open; [exact H1 | exact Hw | exact Hmw |].
    intros ds e2 w' s' H2 W2 Ed2 Ea2 Hw2 Hms Hfr. assert (within e e2) as W by by etrans.
    destruct (Z.ltb_spec ds 0); [apply Hcall; [done | done | intros s; apply mux_reset_hush] |].
    wp1. eapply wp_route_new; [exact H2 | | exact Hm | | exact Hw2 | exact Hms | by apply Hfr |].
    + destruct Hc as [? Hc]. split; [done |]. cbn in *. by rewrite Ed2, Ed1.
    + intros Hn. apply (Hop sid m n eq_refl). unfold asked in *. rewrite El1 in Ea2. lia.
    + intros p e3 K3 V3. wps. apply HQ; [done | by etrans].
  - eapply wp_lookup; [exact H | exact Hc | done |]. intros p r Hr Ei Hp. wp1. eapply wp_route_at; [exact Hr |].
    destruct (_ <? 0); [by wps |]. eapply wp_fwd; [exact H | exact Hr | done | apply (Hp WORKER) |]. intros e1 H1 W1 _. by apply HQ.
  - eapply wp_lookup; [exact H | exact Hc | done |]. intros p r Hr Ei Hp. wp1. eapply wp_route_at; [exact Hr |].
    destruct (_ <? 0); [by wps |]. eapply (wp_closing _ _ _ _ _ _ _ _ _ _ (fun r => r <| r_up_fin := true |>));
      [exact H | exact Hr | done | apply (Hp WORKER) | by intros x [] | done].
  - eapply wp_lookup; [exact H | exact Hc | done |]. intros p r Hr Ei Hp. by eapply wp_route_kill.
  - eapply wp_lookup; [exact H | exact Hc | done |]. intros p r Hr Ei Hp. wp1. eapply wp_route_at; [exact Hr |].
    apply wp_when; intros _; [| done]. eapply wp_flush_pend; [exact H | exact Hr | apply (Hp WORKER) | done |].
    intros e1 H1 W1 _. by apply HQ.
  - wps. destruct (check_auth _ _ _); cbn [negb].
    + wps. eapply wp_conn; [exact Hc |]. eapply wp_set_ready; [exact H | exact Hc | exact Hm | by destruct c | done].
    + apply Hcall; [done | reflexivity | intros s; apply mux_goaway_hush].
Qed.

Lemma wp_on_worker_event e i c ev (Q : unit → ep_state → Prop) :
  rinv e → tunnel e WORKER i c → is_Some (cn_mux c) →
  (∀ e', rinv e' → within e e' → Q tt e') → wp (on_worker_event k i ev) Q e.
Proof.
  intros H Hc Hm HQ. pose proof (tunnel_range _ _ _ _ Hc) as Hi.
  assert (Q tt e) as HQ0 by (apply HQ; [done | reflexivity]).
  assert (∀ f, (∀ s, hush s (f s).2) → wp (call WORKER i MUX_ERR_PARAM f;; mret tt) Q e) as Hcall.
  { intros f Hf. wp1. eapply wp_api; [exact H | done | exact Hf |]. intros _ e2 H2 W2 _ _ _. wps. by apply HQ. }
  assert (∀ r (m : bool → R unit), 0 ≤ r_edge_idx r < zlen (e_edges e) → (∀ b, wp (m b) Q e) →
    wp (ie ← gets (in_pool EDGE (r_edge_idx r)); if negb ie then mret tt else
        up ← conn EDGE (r_edge_idx r); m (has_mux up)) Q e) as Hup.
  { intros r m Hr Hb. wps. rewrite in_pool_true by done. cbn [negb]. wps.
    destruct (tunnel_at e EDGE _ Hr) as [u Hu]. eapply wp_conn; [exact Hu |]. apply Hb. }
  destruct ev as [sid|sid m n|sid data n|sid|sid code|sid|h|w|code last|code]; cbn [on_worker_event]; try (by wps).
  - apply Hcall. intros s. apply mux_reset_hush.
  - eapply wp_lookup; [exact H | exact Hc | done |]. intros p r Hr Ei Hp. wp1. eapply wp_route_at; [exact Hr |].
    apply (Hup r (fun b => when_ b (fwd WORKER i (r_down_sid r) EDGE (r_edge_idx r) (r_up_sid r) p W2U data n))); [apply (Hp EDGE) |].
    intros b. apply wp_when; intros _; [| done].
    eapply wp_fwd; [exact H | exact Hr | done | apply (Hp EDGE) |]. intros e1 H1 W1 _. by apply HQ.
  - eapply wp_lookup; [exact H | exact Hc | done |]. intros p r Hr Ei Hp. wp1. eapply wp_route_at; [exact Hr |].
    match goal with |- wp (_ ≫= fun ie : bool => if negb ie then _ else _ ≫= fun up => if negb (has_mux up) then _ else ?m) _ _ =>
      apply (Hup r (fun b => if negb b then mret tt else m)); [apply (Hp EDGE) |] end.
    intros []; cbn [negb]; [| by wps].
    eapply (wp_closing _ _ _ _ _ _ _ _ _ _ (fun r => r <| r_down_fin := true |>));
      [exact H | exact Hr | done | apply (Hp EDGE) | by intros x [] | done].
  - eapply wp_lookup; [exact H | exact Hc | done |]. intros p r Hr Ei Hp. by eapply wp_route_kill.
  - eapply wp_lookup; [exact H | exact Hc | done |]. intros p r Hr Ei Hp. wp1. eapply wp_route_at; [exact Hr |].
    apply (Hup r (fun b => when_ b (flush_pend EDGE (r_edge_idx r) (r_up_sid r) WORKER i (r_down_sid r) p U2W))); [apply (Hp EDGE) |].
    intros b. apply wp_when; intros _; [| done].
    eapply wp_flush_pend; [exact H | exact Hr | apply (Hp EDGE) | done |]. intros e1 H1 W1 _. by apply HQ.
  - wps. destruct (check_auth _ _ _); cbn [negb].
    + wps. eapply wp_conn; [exact Hc |]. eapply wp_set_ready; [exact H | exact Hc | exact Hm | by destruct c | done].
    + apply Hcall. intros s. apply mux_goaway_hush.
  - wps. eapply wp_conn; [exact Hc |]. eapply wp_set_ready; [exact H | exact Hc | exact Hm | by destruct c | done].
Qed.

(** ** The loops *)

(** Taking the next event off the queue of tunnel [i]. *)
Lemma wp_take e sd i c s (Q : option mux_event → ep_state → Prop) :
  rinv e → tunnel e sd i c → cn_mux c = Some s →
  (∀ e' c' s', rinv e' → onward e e' → tunnel e' sd i c' → cn_mux c' = Some s' →
     events s' = tail (events s) → alive s' = alive s →
     (∀ sid m n, head (events s) = Some (EV_STREAM_OPENED sid m n) → sd = EDGE → newest e' c' sid) →
     Q (head (events s)) e') →
  wp (call sd i None mux_next_event) Q e.
Proof.
  intros H Ht Hm HQ. unfold call. wp1. eapply wp_conn; [exact Ht |]. rewrite Hm. unfold mux_next_event.
  pose proof (tunnel_range _ _ _ _ Ht) as Hi.
  assert (tabled (cn_routes c)) as Htab by (eapply tabled_up; [by eapply ri_tun | by exists s]).
  pose proof (ri_tun e H sd i c Ht) as [Hs _ [Hf Hp] Hr]. rewrite Hm in Hp. destruct Hp as (Hq & Hfd & Hcon).
  pose proof (evq_pop_spec (s_q s) Hq) as Hpop. destruct (evq_pop (s_q s)) as [o q]. destruct Hpop as (Hq' & -> & Et).
  wps. apply wp_set_conn. wps. set (s' := s <| s_q := q |>). set (c' := c <| cn_mux := Some s' |>).
  set (e' := put_tunnel sd i c' e). assert (asked e' = asked e) as Ea by (unfold asked, e'; by rewrite put_tunnel_log_eq).
  assert (∀ sid m n, head (events s) = Some (EV_STREAM_OPENED sid m n) → sd = EDGE → newest e' c' sid) as Hnew.
  { intros sid m n Eh -> Hn. rewrite Ea in Hn. pose proof (ex_fresh e (ri_exact e H Hn) EDGE i c Ht) as F.
    unfold fresh in F. rewrite Hm in F. destruct F as (lo & Hc & Hlo). destruct (events s) as [|ev evs] eqn:Ev; [done |].
    cbn in Eh, Et. injection Eh as ->. unfold opened in Hc. cbn in Hc. destruct Hc as [Hlt Hc].
    split; [intros j Hj%Hlo; lia |]. exists s'. split; [done |]. cbn. rewrite Et. exact Hc. }
  apply (HQ e' c' s'); [| | by apply tunnel_put; [| left] | done | done | done | done].
  - apply (rinv_repool e sd i c); try done.
    + split; [done | by left | | done]. split; [done |]. cbn. by split_and!.
    + intros n _. unfold fresh. cbn. rewrite Hm. destruct sd; [| done]. intros (lo & Hc & Hlo). rewrite Et.
      destruct (events s) as [|ev evs]; cbn; [by exists lo |]. unfold opened in Hc. cbn in Hc.
      destruct (ev_open ev) as [j|]; [| by exists lo]. destruct Hc as [Hlt Hc]. exists j. split; [done |].
      intros x Hx%Hlo. lia.
  - apply (keeps_put _ e sd i c); [apply _ | exact Ht |]. split_and!; try done. cbn. by rewrite Hm.
Qed.

Lemma wp_tunnel_event e sd i c ev (Q : unit → ep_state → Prop) :
  rinv e → tunnel e sd i c → is_Some (cn_mux c) →
  (∀ sid m n, ev = EV_STREAM_OPENED sid m n → sd = EDGE → newest e c sid) →
  (∀ e', rinv e' → within e e' → Q tt e') → wp (on_event k sd i ev) Q e.
Proof.
  intros H Ht Hm Hop HQ. destruct sd; [| by eapply wp_on_worker_event]. eapply wp_on_up_event; [exact H | exact Ht | exact Hm | | exact HQ].
  intros sid m n E. by eapply Hop.
Qed.

Lemma wp_tunnel_loop fuel e sd i c s (Q : unit → ep_state → Prop) :
  rinv e → tunnel e sd i c → cn_mux c = Some s → zlen (events s) + alive s < Z.of_nat fuel →
  (∀ e', rinv e' → onward e e' → Q tt e') →
  wp (events_loop fuel k sd i) Q e.
Proof.
  revert e c s. induction fuel as [|fuel IH]; intros e c s H Ht Hm Hn HQ.
  { pose proof (zlen_nonneg (events s)). unfold alive in Hn. destruct (s_dead s); lia. }
  cbn [events_loop]. wp1. eapply wp_take; [exact H | exact Ht | exact Hm |].
  intros e1 c1 s1 H1 O1 Ht1 Hm1 Ee Ea Hop. destruct (events s) as [|ev evs] eqn:Ev; cbn [head tail] in *.
  { wps. by apply HQ. }
  wp1. eapply wp_tunnel_event; [exact H1 | exact Ht1 | by exists s1 | intros sid m n ->; by eapply Hop |]. intros e2 H2 W2.
  destruct (keeps_at _ _ _ _ _ _ W2 Ht1) as (c2 & Ht2 & _ & _ & _ & M2). rewrite Hm1 in M2.
  destruct (cn_mux c2) as [s2|] eqn:Hm2; [| done]. cbn in M2.
  destruct (to_phase _ _ (ri_tun e1 H1 sd i c1 Ht1)) as [_ Hp]. rewrite Hm1 in Hp. destruct (M2 (proj1 Hp)) as (_ & evs' & E' & _ & Hl).
  eapply IH; [exact H2 | exact Ht2 | exact Hm2 | |].
  - rewrite E', Ee, zlen_app. rewrite zlen_cons in Hn. lia.
  - intros e3 H3 O3. apply HQ; [done |]. etrans; [exact O1 |]. etrans; [by apply within_progress | exact O3].
Qed.

Lemma wp_tunnel_events e sd i (Q : unit → ep_state → Prop) :
  rinv e → 0 ≤ i < zlen (pool sd e) → (∀ e', rinv e' → onward e e' → Q tt e') →
  wp (match sd with WORKER => on_worker_events k i | EDGE => on_up_events k i end) Q e.
Proof.
  intros H Hi HQ. destruct (tunnel_at e sd i Hi) as [c Hc].
  assert (wp (n ← gets (events_fuel sd i); events_loop n k sd i) Q e) as Hw; [| by destruct sd].
  wps. unfold events_fuel. pose proof Hc as [_ Hl]. rewrite Hl. destruct (cn_mux c) as [s|] eqn:Hm.
  - eapply wp_tunnel_loop; [exact H | exact Hc | exact Hm | | exact HQ].
    destruct (to_phase _ _ (ri_tun e H sd i c Hc)) as [_ Hp]. rewrite Hm in Hp. destruct Hp as ((_ & Hq & _) & _).
    rewrite evq_items_len by lia. unfold alive. destruct (s_dead _); lia.
  - cbn [events_loop]. unfold call. wps. eapply wp_conn; [exact Hc |]. rewrite Hm. wps. apply HQ; [done | reflexivity].
Qed.
End Handlers.
End Events.
