(* ===== verification/RouterRun.v ===== *)
(** Losing a tunnel, the router's tunnel I/O, and its main loop have a defined
    outcome and keep the invariant. *)

From stdpp Require Import base list numbers gmap.
From Stdlib Require Import ZArith Lia.
From S2P Require Import Prelude Frame OutBuf EventQueue Probe StreamTable Session SessionIO Handshake Recv SessionOpens Auth Host Fifo Umap Router Balance Splice RouterLoop RouterInv RouterSteps RouterEvents.

(** ** What an operation keeps of the other tunnels *)

Definition sized (e e' : ep_state) : Prop := ∀ sd, zlen (pool sd e') = zlen (pool sd e).

(** No other tunnel's socket is touched. *)
Definition apart (sd : side) (i : Z) (e e' : ep_state) : Prop :=
  sized e e' ∧ ∀ s j d, ¬ (s = sd ∧ j = i) → tunnel e s j d →
    ∃ d', tunnel e' s j d' ∧ cn_fd d' = cn_fd d ∧ (cn_mux d = None → cn_mux d' = None).

#[export] Instance sized_preorder : PreOrder sized.
Proof. split; [done |]. intros e1 e2 e3 H1 H2 sd. by rewrite H2, H1. Qed.

Lemma keeps_sized R e e' : keeps R e e' → sized e e'.
Proof. intros H sd. by destruct (H sd). Qed.
#[export] Hint Resolve keeps_sized : core.

Lemma sized_range e e' sd i : sized e e' → 0 ≤ i < zlen (pool sd e) → 0 ≤ i < zlen (pool sd e').
Proof. intros H. by rewrite H. Qed.

#[export] Instance apart_preorder sd i : PreOrder (apart sd i).
Proof.
  split; [by split; [| eauto] |]. intros e1 e2 e3 [Z1 H1] [Z2 H2]. split; [by etrans |]. intros s j d Hne Hd.
  destruct (H1 s j d Hne Hd) as (d1 & Hd1 & F1 & M1). destruct (H2 s j d1 Hne Hd1) as (d2 & Hd2 & F2 & M2).
  exists d2. split_and!; [done | congruence | auto].
Qed.

Lemma keeps_apart R sd i e e' : keeps R e e' → apart sd i e e'.
Proof.
  intros H. split; [by eapply keeps_sized |]. intros s j d _ Hd. destruct (keeps_at _ _ _ _ _ _ H Hd) as (d' & Hd' & _ & F & _ & M).
  exists d'. split_and!; [done | done |]. intros E. rewrite E in M. by destruct (cn_mux d').
Qed.

Lemma apart_put e sd i c : 0 ≤ i < zlen (pool sd e) → apart sd i e (put_tunnel sd i c e).
Proof.
  intros Hi. split; [intros s; apply zlen_pool_put |]. intros s j d Hne Hd. exists d. split; [| done].
  apply tunnel_put; [done | by right].
Qed.

Lemma apart_pools sd i e e' : (∀ s, pool s e' = pool s e) → apart sd i e e'.
Proof. intros E. eapply (keeps_apart quiet), keeps_pools; [apply _ | done]. Qed.

Lemma sized_put e sd i c : sized e (put_tunnel sd i c e).
Proof. intros s. apply zlen_pool_put. Qed.

Section Run.
Context {ED : Ending}.

(** ** Losing a tunnel *)

Definition other (sd : side) : side := match sd with WORKER => EDGE | EDGE => WORKER end.

Lemma wp_reset_peers sd l e (Q : unit → ep_state → Prop) :
  rinv e → (∀ sl, sl ∈ l → ms_used sl = true → is_Some (e_rt e !! ms_v sl)) →
  (∀ e', rinv e' → within e e' → pool sd e' = pool sd e → e_log e' = e_log e → Q tt e') → wp (reset_peers sd l) Q e.
Proof.
  revert e. induction l as [|sl l IH]; intros e H Hl HQ; cbn [reset_peers]; [wps; by apply HQ |].
  assert (∀ e1, rinv e1 → within e e1 → pool sd e1 = pool sd e → e_rt e1 = e_rt e → e_log e1 = e_log e →
            wp (reset_peers sd l) Q e1) as Hend.
  { intros e1 H1 W1 P1 R1 L1. apply IH; [done | intros x Hx; rewrite R1; apply Hl; by right |].
    intros e2 H2 W2 P2 L2. apply HQ; [done | by etrans | congruence | congruence]. }
  wp1. apply wp_when; [intros U | intros _; by apply Hend].
  destruct (Hl sl) as [r Hr]; [by left | done |]. wp1. eapply wp_route_at; [exact Hr |]. cbv zeta. wp1. apply wp_gets.
  apply wp_when; [intros [_ Hin]%andb_prop | intros _; by apply Hend].
  set (idx := match sd with WORKER => r_edge_idx r | EDGE => r_worker_idx r end) in *. fold (other sd) in *.
  assert (0 ≤ idx < zlen (pool (other sd) e)) as Hi.
  { unfold in_pool in Hin. apply andb_prop in Hin as [?%Z.leb_le ?%Z.ltb_lt]. lia. }
  destruct (tunnel_at e _ _ Hi) as [c Hc]. wp1.
  eapply wp_mux_call; [exact H | exact Hc | intros s _; apply mux_reset_hush |]. intros a c' H1 W1 _ _ _. wps.
  apply Hend; [done | done | | apply put_tunnel_rt | apply put_tunnel_log_eq]. rewrite pool_put. by destruct sd.
Qed.

Lemma get_nil m k : um_s m = [] → umap_get m k = None.
Proof. unfold umap_get. intros ->. destruct (um_cap m =? 0); [done |]. by destruct (Z.to_nat (um_cap m)). Qed.

Lemma free_routes_S fuel sd i :
  free_routes (S fuel) sd i =
  (c ← conn sd i;
   match first_used (um_s (cn_routes c)) with
   | None => mret tt
   | Some p => r ← deref p; store p (r <| r_gone := true |>);; route_free p;; free_routes fuel sd i
   end).
Proof. done. Qed.

(** Every route of the tunnel is freed: the loop takes one entry at a time off
    its table. *)
Lemma wp_free_routes fuel sd i e c (Q : unit → ep_state → Prop) :
  rinv e → tunnel e sd i c → (tabled (cn_routes c) → um_count (cn_routes c) ≤ Z.of_nat fuel) →
  (∀ e' c', rinv e' → within e e' → tunnel e' sd i c' → (∀ k, umap_get (cn_routes c') k = None) → e_log e' = e_log e →
     (∀ p, is_Some (e_rt e' !! p) → is_Some (e_rt e !! p)) → Q tt e') →
  wp (free_routes (S fuel) sd i) Q e.
Proof.
  revert e c. induction fuel as [|fuel IH]; intros e c H Ht Hn HQ; rewrite free_routes_S; (wp1; eapply wp_conn; [exact Ht |];
    pose proof (to_table _ _ (ri_tun e H sd i c Ht)) as Hok;
    destruct (first_used (um_s (cn_routes c))) as [p|] eqn:Ef;
    [| wps; apply (HQ e c); [done | reflexivity | done | | done | done]; intros k;
       destruct Hok as [Htab|(_ & Es & _)]; [by apply first_used_none | by apply get_nil]];
    destruct Hok as [Htab|(_ & Es & _)]; [| by rewrite Es in Ef];
    destruct (first_used_some _ _ Htab Ef) as (Hc0 & k & Hk); specialize (Hn Htab)); [lia |].
  destruct (ri_point e H sd i c k p Ht Hk) as (r & Hr & Ei & Es). wp1. eapply wp_route_at; [exact Hr |].
  wp1. eapply wp_route_store; [exact H | exact Hr | by intros [] |]. intros e1 H1 W1 E1. set (r1 := r <| r_gone := true |>) in *.
  assert (tunnel e1 sd i c) as Ht1 by (rewrite E1; by destruct sd).
  wp1. eapply wp_route_free; [exact H1 | rewrite E1; apply lookup_insert_eq |]. intros e2 H2 W2 R2 D2 L2.
  destruct (D2 sd) as (c0 & c2 & Ht0 & Ht2 & U2 & Hcount). assert (end_idx sd r1 = i) as Ei1 by (by destruct sd).
  assert (end_sid sd r1 = k) as Es1 by (by destruct sd). rewrite Ei1 in Ht0, Ht2. rewrite Es1 in Hcount, U2.
  pose proof (tunnel_eq _ _ _ _ _ Ht1 Ht0) as ->. specialize (Hcount ltac:(by eexists)).
  eapply (IH e2 c2); [exact H2 | exact Ht2 | intros _; lia |].
  intros e3 c3 H3 W3 Ht3 G3 L3 R3. apply (HQ e3 c3); [done | etrans; [exact W1 | by etrans] | done | done | |].
  - rewrite L3, L2, E1. done.
  - intros q Hq%R3. rewrite R2, E1 in Hq. destruct Hq as [x [_ Hx]%lookup_delete_Some]. cbn in Hx.
    apply lookup_insert_Some in Hx as [[<- _]|[_ Hx]]; by eexists.
Qed.

Lemma wp_drop_routes sd i e c (Q : unit → ep_state → Prop) :
  rinv e → tunnel e sd i c →
  (∀ e' c', rinv e' → within e e' → tunnel e' sd i c' → (∀ k, umap_get (cn_routes c') k = None) → e_log e' = e_log e → Q tt e') →
  wp (drop_routes sd i) Q e.
Proof.
  intros H Ht HQ. unfold drop_routes. wp1. eapply wp_conn; [exact Ht |].
  wp1. eapply wp_reset_peers; [exact H | |].
  { intros sl Hsl U. destruct (to_table _ _ (ri_tun e H sd i c Ht)) as [Htab|(_ & Es & _)].
    - pose proof (tabled_slot _ _ Htab Hsl U) as Hk. destruct (ri_point e H sd i c _ _ Ht Hk) as (r & Hr & _). by exists r.
    - rewrite Es in Hsl. by apply elem_of_nil in Hsl. }
  intros e1 H1 W1 P1 L1. assert (tunnel e1 sd i c) as Ht1 by (destruct Ht; split; [done | by rewrite P1]).
  eapply wp_free_routes; [exact H1 | exact Ht1 | intros Htab; pose proof (tabled_count _ Htab); lia |].
  intros e2 c2 H2 W2 Ht2 G2 L2 _. apply (HQ e2 c2); [done | by etrans | done | done | congruence].
Qed.

(** A tunnel that is down. *)
Definition down (c : conn_t) : Prop := cn_mux c = None ∧ cn_fd c = -1.

(** Any descriptor is closed as the tunnel gives it up. *)
Lemma rinv_gave_up e sd i c c' :
  rinv e → tunnel e sd i c → tunnel_ok sd c' → cn_routes c' = cn_routes c → cn_fd c' = -1 → cn_mux c' = None →
  rinv (put_tunnel sd i c' e <| e_log := e_log e ++ (if cn_fd c >=? 0 then [EP_CLOSED (cn_fd c)] else []) |>).
Proof.
  intros H Ht Hok Er Ef Em. set (l := if cn_fd c >=? 0 then _ else _). eapply rinv_tunnel; [exact H | exact Ht | done | done | |].
  - intros fd Hfd. unfold l, holder. rewrite Ef. rewrite Z.geb_leb. destruct (Z.leb_spec 0 (cn_fd c)); cbn; unfold b2z;
      destruct (Z.eqb_spec (cn_fd c) fd), (Z.eqb_spec (-1) fd); lia.
  - intros _ _. unfold fresh. by rewrite Em.
Qed.

Lemma wp_conn_teardown now sd i e c (Q : unit → ep_state → Prop) :
  rinv e → tunnel e sd i c →
  (∀ e' c', rinv e' → apart sd i e e' → tunnel e' sd i c' → down c' → asked e' = asked e → Q tt e') →
  wp (conn_teardown now sd i) Q e.
Proof.
  intros H Ht HQ. unfold conn_teardown. wp1. eapply wp_conn; [exact Ht |].
  assert (wp (drop_routes sd i) (fun _ e1 => ∃ c1, rinv e1 ∧ within e e1 ∧ tunnel e1 sd i c1 ∧
     (∀ k, umap_get (cn_routes c1) k = None) ∧ e_log e1 = e_log e) e) as Hd.
  { eapply wp_drop_routes; [exact H | exact Ht |]. intros e1 c1 H1 W1 Ht1 G1 L1. by exists c1. }
  destruct (to_side _ _ (ri_tun e H sd i c Ht)) as [Ew Ee]. wp1.
  eapply (wp_mono _ (fun _ e1 => ∃ c1, rinv e1 ∧ within e e1 ∧ tunnel e1 sd i c1 ∧
     (∀ k, umap_get (cn_routes c1) k = None) ∧ e_log e1 = e_log e)); [rewrite Ew, Ee; by destruct sd |].
  intros _ e1 (c1 & H1 & W1 & Ht1 & G1 & L1). wp1. eapply wp_conn; [exact Ht1 |].
  pose proof (ri_tun e1 H1 sd i c1 Ht1) as [Hs Htab [Hf Hp] Hr].
  set (c2 := c1 <| cn_mux := None |> <| cn_fd := -1 |> <| cn_connecting := false |> <| cn_ready := false |>
                <| cn_recv := [] |> <| cn_inflight := 0 |> <| cn_next_attempt := u64 (now + 500) |>).
  assert (tunnel_ok sd c2) as Hok.
  { split; [done | | split; [done |] | done].
    - destruct Htab as [?|(? & ? & _)]; [by left | by right].
    - cbn. by split_and!. }
  pose proof (rinv_gave_up e1 sd i c1 c2 H1 Ht1 Hok eq_refl eq_refl eq_refl) as H2.
  set (l := if cn_fd c1 >=? 0 then [EP_CLOSED (cn_fd c1)] else []) in *. set (e2 := put_tunnel sd i c2 e1 <| e_log := _ |>) in *.
  assert (Q tt e2) as HQ2.
  { assert (∀ s j d, tunnel (put_tunnel sd i c2 e1) s j d → tunnel e2 s j d) as Hto by (by intros []; destruct sd).
    pose proof (tunnel_range _ _ _ _ Ht1) as Hi. apply (HQ e2 c2); [done | | apply Hto, tunnel_put; [done | by left] | done |].
    - etrans; [by eapply keeps_apart |]. etrans; [by apply (apart_put e1 sd i c2) |]. apply apart_pools. by destruct sd; intros [].
    - unfold asked, e2. cbn. rewrite L1, cnt_app. unfold l. destruct (cn_fd c1 >=? 0); cbn; lia. }
  assert (put_tunnel sd i c2 (e1 <| e_log ::= fun x => x ++ l |>) = e2) as E2 by (unfold e2; by destruct sd, e1).
  wp1. unfold l in E2. apply wp_when; intros E; rewrite E in E2.
  - unfold note. wps. apply wp_set_conn. by rewrite E2.
  - apply wp_set_conn. rewrite <- E2 in HQ2. replace (put_tunnel sd i c2 e1) with (put_tunnel sd i c2 (e1 <| e_log ::= fun x => x ++ [] |>)); [done |].
    unfold put_tunnel. destruct sd, e1; cbn; unfold upd, upd_e_log, upd_e_edges, upd_e_wk; cbn; by rewrite app_nil_r.
Qed.

(** ** Tunnel I/O *)

Lemma wp_conn_flush ws sd i sent e (Q : Z * list write_res * bytes → ep_state → Prop) :
  rinv e → 0 ≤ i < zlen (pool sd e) → (∀ x e', rinv e' → within e e' → Q x e') → wp (conn_flush ws sd i sent) Q e.
Proof.
  revert e sent. induction ws as [|w ws IH]; intros e sent H Hi HQ; cbn [conn_flush];
    (wp1; eapply (wp_api _ _ _ _ (fun s => (mux_send_buf s, s))); [exact H | exact Hi | intros s; reflexivity |]);
    intros [b len] e1 H1 W1 _ _ _; destruct (negb (len >? 0)); try (wps; by apply HQ).
  destruct w as [n| |]; try (wps; by apply HQ). destruct (n >? 0); [| wps; by apply HQ].
  wp1. eapply wp_api; [exact H1 | by eapply within_pool | intros s; apply mux_send_advance_hush |]. intros _ e2 H2 W2 _ _ _.
  assert (within e e2) as W by by etrans. apply IH; [done | by eapply within_pool |]. intros x e3 H3 W3. apply HQ; [done | by etrans].
Qed.

(** Received bytes reach the session of a tunnel. *)
Lemma wp_mux_recv sd i c e bs (Q : Z → ep_state → Prop) :
  rinv e → tunnel e sd i c → (∀ cc e', rinv e' → onward e e' → Q cc e') →
  wp (call sd i MUX_ERR_PARAM (fun s => mux_recv s (Some bs) (zlen bs))) Q e.
Proof.
  intros H Ht HQ. unfold call. wp1. eapply wp_conn; [exact Ht |]. destruct (cn_mux c) as [s|] eqn:Hm.
  2:{ wps. apply HQ; [done | reflexivity]. }
  assert (tabled (cn_routes c)) as Htab by (eapply tabled_up; [by eapply ri_tun | by exists s]).
  pose proof (ri_tun e H sd i c Ht) as [Hs _ [Hf Hp] Hr]. rewrite Hm in Hp. destruct Hp as (Hq & Hfd & Hcon).
  pose proof (mux_recv_opens s bs Hq) as [Hq' Hn (evs & E & _ & C)]. destruct (mux_recv s (Some bs) (zlen bs)) as [cc s'].
  cbn [snd] in *. wps. apply wp_set_conn. wps. apply HQ.
  - apply (rinv_repool e sd i c); try done.
    + split; [done | by left | | done]. split; [done |]. cbn. by split_and!.
    + intros n _. unfold fresh. cbn. rewrite Hm. destruct sd; [| by rewrite Hn]. intros (lo & Hc & Hlo). exists lo. split; [| done].
      rewrite E. unfold opened in *. rewrite omap_app. by eapply climbs_app.
  - apply (keeps_put _ e sd i c); [apply _ | exact Ht |]. split_and!; try done. cbn. by rewrite Hm.
Qed.

(** A tunnel that is up stays so, with the bytes it has received. *)
Lemma onward_up e e' sd i c :
  onward e e' → tunnel e sd i c → is_Some (cn_mux c) →
  ∃ c', tunnel e' sd i c' ∧ is_Some (cn_mux c') ∧ cn_recv c' = cn_recv c.
Proof.
  intros O Ht [s Hs]. destruct (keeps_at _ _ _ _ _ _ O Ht) as (c' & Ht' & R & _ & _ & M). exists c'.
  rewrite Hs in M. destruct (cn_mux c') as [s'|]; [| done]. split_and!; [done | by exists s' | done].
Qed.

Lemma wp_conn_pump k sd i e c (Q : Z → ep_state → Prop) :
  rinv e → tunnel e sd i c → (∀ cc e', rinv e' → onward e e' → Q cc e') → wp (conn_pump k sd i) Q e.
Proof.
  intros H Ht HQ. unfold conn_pump. wp1. eapply wp_conn; [exact Ht |]. wp1. eapply wp_mux_recv; [exact H | exact Ht |].
  intros cc e1 H1 O1. wp1. eapply wp_tunnel_events; [exact H1 | |].
  - eapply sized_range; [by eapply keeps_sized | by eapply tunnel_range].
  - intros e2 H2 O2. wps. apply HQ; [done |]. transitivity e1; [exact O1 | exact O2].
Qed.

(** A tunnel that is up changes what it has received. *)
Lemma rinv_buffered e sd i c bs :
  rinv e → tunnel e sd i c → is_Some (cn_mux c) → zlen bs ≤ RECV_SIZE → rinv (put_tunnel sd i (c <| cn_recv := bs |>) e).
Proof.
  intros H Ht [s Hm] Hb. assert (tabled (cn_routes c)) as Htab by (eapply tabled_up; [by eapply ri_tun | by exists s]).
  pose proof (ri_tun e H sd i c Ht) as [Hs _ [Hf Hp] Hr]. rewrite Hm in Hp. apply (rinv_repool e sd i c); try done.
  split; [done | by left | | done]. split; [done |]. cbn. by rewrite Hm.
Qed.

Lemma zlen_zdrop_lt {A} n (l : list A) : 0 < n → 0 < zlen l → zlen (zdrop n l) < zlen l.
Proof. intros Hn Hl. unfold zlen, zdrop in *. rewrite length_drop. lia. Qed.

(** The read loop ends: two iterations take a byte off the tunnel at least. *)
Lemma wp_conn_read fuel k sd i rs e c (Q : Z * list read_res → ep_state → Prop) :
  rinv e → tunnel e sd i c → is_Some (cn_mux c) →
  2 * script_bytes rs + b2z (zlen (cn_recv c) =? RECV_SIZE) < Z.of_nat fuel →
  (∀ x e', rinv e' → apart sd i e e' → Q x e') → wp (conn_read fuel k sd i rs) Q e.
Proof.
  revert rs e c. induction fuel as [|fuel IH]; intros rs e c H Ht Hm Hn HQ; cbn [conn_read].
  { pose proof (script_bytes_nonneg rs). destruct (_ =? _); cbn in Hn; lia. }
  pose proof (to_recv _ _ (ri_tun e H sd i c Ht)) as Hr. pose proof (zlen_nonneg (cn_recv c)) as Hr0.
  pose proof (tunnel_range _ _ _ _ Ht) as Hi.
  assert (∀ x, Q x e) as HQe by (intros x; apply HQ; [done | reflexivity]).
  wp1. eapply wp_conn; [exact Ht |]. cbv zeta. destruct (Z.eqb_spec (RECV_SIZE - zlen (cn_recv c)) 0) as [Es|Es].
  - wp1. eapply wp_conn_pump; [exact H | exact Ht |]. intros cc e1 H1 O1. assert (apart sd i e e1) as A1 by by eapply keeps_apart.
    destruct (cc <? 0); [wps; by apply HQ |]. destruct (Z.gtb_spec cc 0) as [Hcc|]; [| wps; by apply HQ].
    destruct (onward_up _ _ _ _ _ O1 Ht Hm) as (c1 & Ht1 & Hm1 & R1).
    wp1. unfold conn_keep. wp1. eapply wp_conn; [exact Ht1 |]. apply wp_set_conn.
    pose proof (zlen_zdrop_lt cc (cn_recv c1) Hcc) as Hlt. rewrite R1 in Hlt. pose proof (zlen_zdrop_le cc (cn_recv c)) as Hle. set (c2 := c1 <| cn_recv ::= zdrop cc |>).
    pose proof (tunnel_range _ _ _ _ Ht1) as Hi1.
    apply (IH _ _ c2); [apply rinv_buffered; [done.. |]; rewrite R1; lia | by apply tunnel_put; [| left] | done | |].
    + cbn. rewrite R1. destruct (Z.eqb_spec (zlen (zdrop cc (cn_recv c))) RECV_SIZE); [unfold RECV_SIZE in *; lia |].
      destruct (Z.eqb_spec (zlen (cn_recv c)) RECV_SIZE); cbn in *; lia.
    + intros x e2 H2 A2. apply HQ; [done |]. etrans; [exact A1 |]. etrans; [| exact A2]. by apply apart_put.
  - destruct rs as [|[bs| | |] rs]; try (wps; done). cbv zeta. set (space := RECV_SIZE - zlen (cn_recv c)) in *.
    pose proof (zlen_nonneg bs) as Hb. destruct (Z.eqb_spec (Z.min (zlen bs) space) 0) as [|Hpos]; [by wps |].
    set (n := Z.min (zlen bs) space) in *. set (rs' := if n <? zlen bs then _ else rs).
    assert (0 ≤ n ≤ zlen bs) as Hnb by lia. pose proof (script_bytes_read n bs rs Hnb) as Eb. fold rs' in Eb.
    wp1. apply wp_set_conn. set (c1 := c <| cn_recv ::= fun b => b ++ ztake n bs |>).
    assert (rinv (put_tunnel sd i c1 e)) as H1 by (apply rinv_buffered; [done.. |]; rewrite zlen_app, zlen_ztake by lia; lia).
    assert (tunnel (put_tunnel sd i c1 e) sd i c1) as Ht1 by (by apply tunnel_put; [| left]).
    wp1. eapply wp_conn_pump; [exact H1 | exact Ht1 |]. intros cc e2 H2 O2.
    assert (apart sd i e e2) as A2 by (etrans; [by apply (apart_put e sd i c1) | by eapply keeps_apart]).
    destruct (cc <? 0); [wps; by apply HQ |]. destruct (onward_up _ _ _ _ _ O2 Ht1 Hm) as (c2 & Ht2 & Hm2 & R2).
    pose proof (tunnel_range _ _ _ _ Ht2) as Hi2.
    assert (∀ e3 c3, rinv e3 → apart sd i e e3 → tunnel e3 sd i c3 → is_Some (cn_mux c3) →
      wp (if n <? space then mret (0, rs') else conn_read fuel k sd i rs') Q e3) as Hend.
    { intros e3 c3 H3 A3 Ht3 Hm3. destruct (n <? space); [wps; by apply HQ |].
      eapply IH; [exact H3 | exact Ht3 | exact Hm3 | |].
      - destruct (_ =? _) in Hn; destruct (_ =? _); cbn [b2z] in *; lia.
      - intros x e4 H4 A4. apply HQ; [done | by etrans]. }
    wp1. apply wp_when; intros _; [| by apply (Hend e2 c2)]. unfold conn_keep. wp1. eapply wp_conn; [exact Ht2 |]. apply wp_set_conn.
    apply (Hend _ (c2 <| cn_recv ::= zdrop cc |>)); [| | by apply tunnel_put; [| left] | done].
    + apply rinv_buffered; [done.. |]. pose proof (zlen_zdrop_le cc (cn_recv c2)).
      pose proof (to_recv _ _ (ri_tun e2 H2 sd i c2 Ht2)). lia.
    + etrans; [exact A2 |]. by apply apart_put.
Qed.

(** ** Connecting *)

(** A tunnel without a session changes its socket; [l] is what is logged. *)
Lemma wp_resocket sd i e c c' l (Q : unit → ep_state → Prop) :
  rinv e → tunnel e sd i c → cn_mux c = None →
  c' = c <| cn_fd := cn_fd c' |> <| cn_connecting := cn_connecting c' |> <| cn_next_attempt := cn_next_attempt c' |>
         <| cn_nonce := cn_nonce c' |> <| cn_proof := cn_proof c' |> →
  -1 ≤ cn_fd c' → (0 ≤ cn_fd c' → cn_connecting c' = true) → cnt is_opening l = 0 →
  (∀ fd, 0 ≤ fd → cnt (is_dialed fd) l + b2z (holder fd c) = cnt (is_closed fd) l + b2z (holder fd c')) →
  (∀ e', rinv e' → apart sd i e e' → Q tt e') →
  Q tt (put_tunnel sd i c' (e <| e_log := e_log e ++ l |>)).
Proof.
  intros H Ht Hm E Hf Hcon Hl Hfd HQ. assert (put_tunnel sd i c' (e <| e_log := e_log e ++ l |>) =
    put_tunnel sd i c' e <| e_log := e_log e ++ l |>) as -> by (by destruct sd, e).
  pose proof (ri_tun e H sd i c Ht) as [Hs Htab [_ Hp] Hr]. rewrite Hm in Hp. destruct Hp as (Hrd & Hrc & _ & Hg).
  apply HQ.
  - eapply rinv_tunnel; [exact H | exact Ht | | by rewrite E | done |].
    + rewrite E. split; [done | | | done].
      * destruct Htab as [?|(? & ? & ?)]; [by left | by right].
      * split; [done |]. cbn. rewrite Hm. done.
    + intros _ _. unfold fresh. rewrite E. cbn. by rewrite Hm.
  - etrans; [apply (apart_put e sd i c'); by eapply tunnel_range |]. apply apart_pools. by destruct sd; intros [].
Qed.

Lemma log_nil e : e <| e_log := e_log e ++ [] |> = e.
Proof. rewrite app_nil_r. by destruct e. Qed.

Lemma wp_conn_tick_connect t sd i e (Q : unit → ep_state → Prop) :
  rinv e → 0 ≤ i < zlen (pool sd e) → (∀ e', rinv e' → apart sd i e e' → Q tt e') → wp (conn_tick_connect t sd i) Q e.
Proof.
  intros H Hi HQ. destruct (tunnel_at e sd i Hi) as [c Ht]. unfold conn_tick_connect. wp1. eapply wp_conn; [exact Ht |].
  assert (Q tt e) as HQ0 by (apply HQ; [done | reflexivity]).
  rewrite Z.geb_leb. destruct (Z.leb_spec 0 (cn_fd c)); [by wps |]. destruct (_ <? _); [by wps |].
  destruct (to_phase _ _ (ri_tun e H sd i c Ht)) as [Hf Hp].
  assert (cn_mux c = None) as Hm by (destruct (cn_mux c); [lia | done]).
  destruct (Z.ltb_spec (tk_fd t) 0).
  - apply wp_set_conn. rewrite <- (log_nil e). eapply wp_resocket; [exact H | exact Ht | exact Hm | by destruct c | done | cbn; lia | done | done | done].
  - wp1. unfold note. apply wp_modify. apply wp_set_conn.
    eapply (wp_resocket sd i e c _ [EP_DIALED (tk_fd t)]); [exact H | exact Ht | exact Hm | by destruct c | cbn; lia | done | done | | done].
    intros fd Hfd. unfold holder. cbn. destruct (Z.eqb_spec (cn_fd c) fd); [lia |]. by destruct (_ =? _).
Qed.

Lemma wp_conn_give_up now sd i e c c' (Q : unit → ep_state → Prop) :
  rinv e → tunnel e sd i c → cn_mux c = None →
  c' = c <| cn_nonce := cn_nonce c' |> <| cn_proof := cn_proof c' |> →
  (∀ e', rinv e' → apart sd i e e' → Q tt e') → wp (conn_give_up now sd i c') Q e.
Proof.
  intros H Ht Hm E HQ. unfold conn_give_up. wp1. unfold note. apply wp_modify. apply wp_set_conn.
  eapply (wp_resocket sd i e c _ [EP_CLOSED (cn_fd c')]); [exact H | exact Ht | exact Hm | rewrite E; by destruct c | cbn; lia | cbn; lia | done | | done].
  intros fd Hfd. unfold holder. rewrite E. cbn. destruct (Z.eqb_spec (cn_fd c) fd), (Z.eqb_spec (-1) fd); cbn; lia.
Qed.

Lemma wp_conn_finish_connect k io sd i e c (Q : unit → ep_state → Prop) :
  ending = false → rinv e → tunnel e sd i c → 0 ≤ cn_fd c → cn_connecting c = true →
  (∀ e', rinv e' → apart sd i e e' → Q tt e') → wp (conn_finish_connect k io sd i) Q e.
Proof.
  intros Hend H Ht Hfd Hcon HQ. unfold conn_finish_connect. wp1. eapply wp_conn; [exact Ht |].
  pose proof (ri_tun e H sd i c Ht) as [Hs Htab [Hf Hp] Hr].
  assert (cn_mux c = None) as Hm by (destruct (cn_mux c) as [s|]; [destruct Hp as (_ & _ & ?); congruence | done]).
  destruct (negb _); [eapply wp_conn_give_up; [exact H | exact Ht | exact Hm | by destruct c | exact HQ] |].
  wps. destruct (conn_build_cfg k (io_rnd io) (e_cfg e) c) as [c' mc] eqn:Ec.
  assert (c' = c <| cn_nonce := cn_nonce c' |> <| cn_proof := cn_proof c' |>) as E.
  { unfold conn_build_cfg in Ec. destruct (ec_token _); injection Ec as <- _; by destruct c. }
  destruct (mux_session_new (io_heap io) mc MUX_DIALER) as [s|] eqn:Es; [| by eapply wp_conn_give_up].
  destruct (session_new_opens _ _ _ _ Es) as (Hq & Ho & _ & Hx). pose proof (session_new_next _ _ _ _ Es) as Hn.
  rewrite Hm in Hp. destruct Hp as (_ & _ & _ & Hg). pose proof (tunnel_range _ _ _ _ Ht) as Hi.
  wp1. apply wp_set_conn. rewrite E. set (c2 := _ <| cn_connecting := false |>).
  destruct Htab as [Htab|[E0 _]]; [| by rewrite Hend in E0].
  assert (rinv (put_tunnel sd i c2 e)) as H2.
  { apply (rinv_repool e sd i c); try done.
    - split; [done | by left | | done]. split; [done |]. by split_and!.
    - intros n Hn0 _. unfold fresh. cbn. assert (∀ j, ¬ is_Some (umap_get (cn_routes c) j)) as Hno by (intros j; rewrite Hg; by intros []).
      destruct sd; [exists 0; rewrite Ho, Hx; split; [simpl; lia | by intros j []%Hno] |]. rewrite Hn. split; [lia | by intros j []%Hno]. }
  wp1. eapply wp_conn_flush; [exact H2 | by rewrite zlen_pool_put |]. intros x e3 H3 W3. wps. apply HQ; [done |].
  etrans; [by apply (apart_put e sd i c2) | by eapply keeps_apart].
Qed.

(** ** The passes *)

Lemma wp_each l f e (Q : unit → ep_state → Prop) :
  rinv e →
  (∀ i e1, i ∈ l → rinv e1 → sized e e1 → wp (f i) (fun _ e2 => rinv e2 ∧ sized e1 e2) e1) →
  (∀ e', rinv e' → sized e e' → Q tt e') → wp (each l f) Q e.
Proof.
  revert e. induction l as [|i l IH]; intros e H Hf HQ; cbn [each]; [wps; apply HQ; [done | reflexivity] |].
  wp1. eapply wp_mono; [apply Hf; [by left | done | reflexivity] |]. intros _ e1 [H1 Z1]. apply IH; [done | |].
  - intros j e2 Hj H2 Z2. apply Hf; [by right | done | by etrans].
  - intros e2 H2 Z2. apply HQ; [done | by etrans].
Qed.

Lemma wp_each_conn f e (Q : unit → ep_state → Prop) :
  rinv e →
  (∀ sd i e1, rinv e1 → 0 ≤ i < zlen (pool sd e1) → wp (f sd i) (fun _ e2 => rinv e2 ∧ sized e1 e2) e1) →
  (∀ e', rinv e' → sized e e' → Q tt e') → wp (each_conn f) Q e.
Proof.
  intros H Hf HQ. unfold each_conn. wps. eapply wp_each; [exact H | |].
  - intros i e1 [? Hi]%elem_of_seqZ H1 Z1. apply Hf; [done |]. rewrite (Z1 EDGE). cbn. lia.
  - intros e1 H1 Z1. wps. eapply wp_each; [exact H1 | |].
    + intros i e2 [? Hi]%elem_of_seqZ H2 Z2. apply Hf; [done |]. rewrite (Z2 WORKER). cbn. lia.
    + intros e2 H2 Z2. apply HQ; [done | by etrans].
Qed.

Lemma wp_conn_timer k now ws sd i e (Q : unit → ep_state → Prop) :
  rinv e → 0 ≤ i < zlen (pool sd e) → (∀ e', rinv e' → sized e e' → Q tt e') → wp (conn_timer k now ws sd i) Q e.
Proof.
  intros H Hi HQ. destruct (tunnel_at e sd i Hi) as [c Ht]. unfold conn_timer. wp1. eapply wp_conn; [exact Ht |].
  apply wp_when; intros _; [| apply HQ; [done | reflexivity]].
  wp1. eapply wp_api; [exact H | exact Hi | intros s; apply mux_on_timer_hush |]. intros _ e1 H1 W1 _ _ _.
  pose proof (within_pool _ _ _ _ W1 Hi) as Hi1. wp1. eapply wp_tunnel_events; [exact H1 | exact Hi1 |]. intros e2 H2 O2.
  pose proof (keeps_sized _ _ _ O2) as Z2. wp1. eapply wp_conn_flush; [exact H2 | by eapply sized_range |]. intros x e3 H3 W3. wps.
  apply HQ; [done |]. etrans; [by eapply keeps_sized |]. etrans; [exact Z2 | by eapply keeps_sized].
Qed.

Lemma wp_conn_pass ws sd i e (Q : unit → ep_state → Prop) :
  rinv e → 0 ≤ i < zlen (pool sd e) → (∀ e', rinv e' → sized e e' → Q tt e') → wp (conn_pass ws sd i) Q e.
Proof.
  intros H Hi HQ. destruct (tunnel_at e sd i Hi) as [c Ht]. unfold conn_pass. wp1. eapply wp_conn; [exact Ht |].
  apply wp_when; intros _; [| apply HQ; [done | reflexivity]].
  wp1. eapply wp_conn_flush; [exact H | exact Hi |]. intros x e1 H1 W1. wps. apply HQ; [done | by eapply keeps_sized].
Qed.

Hypothesis Hrun : ending = false.

Lemma wp_conn_event k io rev sd i e c (Q : unit → ep_state → Prop) :
  rinv e → tunnel e sd i c → 0 ≤ cn_fd c → (∀ e', rinv e' → apart sd i e e' → Q tt e') → wp (conn_event k io rev sd i) Q e.
Proof.
  intros H Ht Hfd HQ. assert (Q tt e) as HQ0 by (apply HQ; [done | reflexivity]). unfold conn_event.
  destruct (rev =? 0); [by wps |]. wp1. eapply wp_conn; [exact Ht |].
  destruct (cn_connecting c) eqn:Hcon.
  { apply wp_when; intros _; [by eapply wp_conn_finish_connect | done]. }
  assert (is_Some (cn_mux c)) as Hm.
  { destruct (to_phase _ _ (ri_tun e H sd i c Ht)) as [_ Hp]. destruct (cn_mux c) as [s|]; [by exists s |].
    destruct Hp as (_ & _ & Hp & _). specialize (Hp Hfd). congruence. }
  assert (∀ now e1, rinv e1 → apart sd i e e1 → wp (conn_teardown now sd i) Q e1) as Hdown.
  { intros now e1 H1 A1. destruct (tunnel_at e1 sd i) as [c1 Ht1]; [rewrite (proj1 A1); by eapply tunnel_range |].
    eapply wp_conn_teardown; [exact H1 | exact Ht1 |]. intros e2 c2 H2 A2 _ _ _. apply HQ; [done | by etrans]. }
  wp1. apply (wp_mono _ (fun _ e1 => rinv e1 ∧ apart sd i e e1)).
  { destruct (hit _ _); [| wps; by split]. eapply wp_conn_read; [exact H | exact Ht | exact Hm | | done].
    unfold conn_read_fuel. pose proof (script_bytes_nonneg (io_reads io)). destruct (_ =? RECV_SIZE); cbn [b2z]; lia. }
  intros [rc rs] e1 [H1 A1]. destruct (rc <? 0); [by apply Hdown |].
  destruct (tunnel_at e1 sd i) as [c1 Ht1]; [rewrite (proj1 A1); by eapply tunnel_range |].
  wp1. eapply wp_conn; [exact Ht1 |]. apply wp_when; intros _; [| by apply HQ].
  wp1. eapply wp_conn_flush; [exact H1 | by eapply tunnel_range |]. intros [[rc2 ws2] out] e2 H2 W2.
  assert (apart sd i e e2) as A2 by (etrans; [exact A1 | by eapply keeps_apart]).
  apply wp_when; intros _; [by apply Hdown | by apply HQ].
Qed.

(** The tunnels of the poll set have a socket. *)
Definition open_at (e : ep_state) (x : side * Z * Z) : Prop :=
  ∃ c, tunnel e x.1.1 x.1.2 c ∧ 0 ≤ cn_fd c.

Lemma wp_conn_events k io l e (Q : unit → ep_state → Prop) :
  rinv e → NoDup (fst <$> l) → Forall (open_at e) l → (∀ e', rinv e' → sized e e' → Q tt e') →
  wp (conn_events k io l) Q e.
Proof.
  revert e. induction l as [|[[sd i] want] l IH]; intros e H Hnd Hop HQ; cbn [conn_events].
  { wps. apply HQ; [done | reflexivity]. }
  rewrite fmap_cons in Hnd. apply NoDup_cons in Hnd as [Hni Hnd]. apply Forall_cons_1 in Hop as [(c & Ht & Hfd) Hop].
  wp1. eapply wp_conn_event; [exact H | exact Ht | exact Hfd |]. intros e1 H1 [Z1 A1]. apply IH; [done | done | |].
  - apply Forall_forall. intros [[s j] w] Hx. rewrite Forall_forall in Hop. destruct (Hop _ Hx) as (d & Hd & Hf).
    destruct (A1 s j d) as (d' & Hd' & E & _); [| done | exists d'; split; [done |]; cbn in *; lia].
    intros [-> ->]. apply Hni. apply list_elem_of_fmap. by exists (sd, i, w).
  - intros e2 H2 Z2. apply HQ; [done | by etrans].
Qed.

Lemma omap_fst {A} (f : Z → option (A * Z)) (g : Z → A) l :
  Inj (=) (=) g → (∀ i x, f i = Some x → x.1 = g i) → NoDup l → NoDup (fst <$> omap f l).
Proof.
  intros Hg Hf. induction 1 as [|i l Hi Hl IH]; cbn; [constructor |]. destruct (f i) as [x|] eqn:E; [| done].
  cbn. apply NoDup_cons. split; [| done]. rewrite (Hf i x E). intros (y & Ey & Hy)%list_elem_of_fmap.
  apply list_elem_of_omap in Hy as (j & Hj & Ej). rewrite (Hf j y Ej) in Ey. apply Hg in Ey. by subst.
Qed.

Lemma poll_set_open e : NoDup (fst <$> poll_set e) ∧ Forall (open_at e) (poll_set e).
Proof.
  assert (∀ sd i x, (c ← pool sd e !! Z.to_nat i; w ← poll_want c; Some (sd, i, w)) = Some x →
    x.1 = (sd, i) ∧ ∃ c, pool sd e !! Z.to_nat i = Some c ∧ 0 ≤ cn_fd c) as Hx.
  { intros sd i x (c & Hc & (w & Hw & E)%bind_Some)%bind_Some. injection E as <-. split; [done |]. exists c. split; [done |].
    unfold poll_want in Hw. rewrite Z.geb_leb in Hw. by destruct (Z.leb_spec 0 (cn_fd c)). }
  split.
  - unfold poll_set. rewrite fmap_app. apply NoDup_app. split_and!.
    + apply (omap_fst _ (fun i => (EDGE, i))); [by intros ?? [= ->] | | apply NoDup_seqZ]. intros i x E. by eapply (Hx EDGE).
    + intros x (y & -> & Hy)%list_elem_of_fmap (z & Ez & Hz)%list_elem_of_fmap.
      apply list_elem_of_omap in Hy as (i & _ & [Ei _]%Hx). apply list_elem_of_omap in Hz as (j & _ & [Ej _]%Hx). congruence.
    + apply (omap_fst _ (fun i => (WORKER, i))); [by intros ?? [= ->] | | apply NoDup_seqZ]. intros i x E. by eapply (Hx WORKER).
  - apply Forall_forall. intros x [Hin|Hin]%elem_of_app; apply list_elem_of_omap in Hin as (i & Hi & (E & c & Hc & Hf)%Hx);
      exists c; rewrite E; (split; [split; [apply elem_of_seqZ in Hi; cbn; lia | done] | done]).
Qed.

Lemma wp_ep_step k t e (Q : bool → ep_state → Prop) :
  rinv e → (∀ go e', rinv e' → sized e e' → Q go e') → wp (ep_step k t) Q e.
Proof.
  intros H HQ. unfold ep_step. destruct (et_stop t); [wps; apply HQ; [done | reflexivity] |].
  wp1. eapply wp_each_conn; [exact H | |].
  { intros sd i e1 H1 Hi. eapply wp_conn_tick_connect; [exact H1 | exact Hi |]. intros e2 H2 [Z2 _]. by split. }
  intros e1 H1 Z1. wp1. eapply wp_each_conn; [exact H1 | |].
  { intros sd i e2 H2 Hi. eapply wp_conn_timer; [exact H2 | exact Hi |]. intros e3 H3 Z3. by split. }
  intros e2 H2 Z2. assert (sized e e2) as Z by by etrans. wp1. apply wp_gets.
  destruct (et_poll t); [| wps; by apply HQ | wps; by apply HQ]. destruct (poll_set_open e2) as [Hn Ho].
  wp1. eapply wp_conn_events; [exact H2 | exact Hn | exact Ho |]. intros e3 H3 Z3. wp1. eapply wp_each_conn; [exact H3 | |].
  { intros sd i e4 H4 Hi. eapply wp_conn_pass; [exact H4 | exact Hi |]. intros e5 H5 Z5. by split. }
  intros e4 H4 Z4. wps. apply HQ; [done |]. etrans; [exact Z |]. by etrans.
Qed.

Lemma wp_ep_loop k ts e (Q : bool → ep_state → Prop) :
  rinv e → (∀ go e', rinv e' → sized e e' → Q go e') → wp (ep_loop k ts) Q e.
Proof.
  revert e. induction ts as [|t ts IH]; intros e H HQ; cbn [ep_loop]; [wps; apply HQ; [done | reflexivity] |].
  wp1. eapply wp_ep_step; [exact H |]. intros [] e1 H1 Z1; [| wps; by apply HQ]. apply IH; [done |].
  intros go e2 H2 Z2. apply HQ; [done | by etrans].
Qed.
End Run.
