(* ===== verification/RouterSys.v ===== *)
(** Runs of the router: [ep_run] from its start to its end.

    In every run every step of router.c has a defined outcome: no freed route is
    reached through a table, no probe or loop runs forever, no index leaves a
    pool, the receive buffers are never overrun. *)

From stdpp Require Import base list numbers gmap.
From Stdlib Require Import ZArith Lia.
From S2P Require Import Prelude Frame OutBuf EventQueue Probe StreamTable Session SessionIO Handshake Recv SessionSys SessionOpens Auth Host Fifo Umap Router Balance Splice RouterLoop RouterInv RouterSteps RouterEvents RouterRun.

(** The invariant while the loop runs, and after it. *)
Abbreviation running := (rinv (ED := false)).
Abbreviation stopped := (rinv (ED := true)).

Lemma running_stopped e : running e → stopped e.
Proof.
  intros H. split; try apply H. intros sd i c Ht. destruct (ri_tun e H sd i c Ht) as [Hs Htab Hp Hr].
  split; try done. destruct Htab as [?|(E & _)]; [by left | done].
Qed.

(** ** The start *)

Lemma ep_init_running cfg ne nw : running (ep_init cfg ne nw).
Proof.
  assert (∀ sd i c, tunnel (ep_init cfg ne nw) sd i c → c = conn_zero (bool_decide (sd = WORKER))) as Hz.
  { intros [] i c [_ Hc]; cbn in Hc; by apply lookup_replicate in Hc as [-> _]. }
  assert (∀ k, umap_get umap_zero k = None) as Hg by (intros k; by apply get_nil).
  split; try done.
  - intros sd i c ->%Hz. split; [by destruct sd | left; apply tabled_zero | | done]. split; [done |]. cbn. by split_and!.
  - intros sd i c k p ->%Hz. cbn. by rewrite Hg.
  - intros p [r Hr]. done.
  - intros fd Hfd. unfold held. cbn. rewrite !cnt_replicate. unfold holder. cbn. destruct (Z.eqb_spec (-1) fd); [lia |]. done.
  - intros _. split; [done |]. intros sd i c ->%Hz. done.
Qed.

Definition reached (k : stack) (e : ep_state) : Prop :=
  ∃ cfg ne nw ts go, ep_loop k ts (ep_init cfg ne nw) = Some (go, e).

Lemma reached_running k e : reached k e → running e.
Proof.
  intros (cfg & ne & nw & ts & go & E).
  assert (wp (ep_loop k ts) (fun _ e => running e) (ep_init cfg ne nw)) as Hw.
  { eapply wp_ep_loop; [done | apply ep_init_running | done]. }
  apply wp_run in Hw as (? & ? & E' & H). congruence.
Qed.

(** ** While it runs *)

(** C16: Whatever the edges and workers send, however dials, polls, reads and
    writes turn out, every turn of the router's loop has a defined outcome (no
    freed route is reached through a table or an event, no table operation or
    event loop runs forever, no receive buffer is overrun) and the router's
    tables, routes, sessions and descriptors agree afterwards ([running]). *)
Theorem router_safe k cfg ne nw ts :
  ∃ go e, ep_loop k ts (ep_init cfg ne nw) = Some (go, e) ∧ running e.
Proof. apply wp_run. eapply wp_ep_loop; [done | apply ep_init_running | done]. Qed.


(** What the loop waits for.  A tunnel that is down is not polled; one that
    is connecting is polled for the end of that; one that is up is polled for
    reading unless 4 MiB or more wait to be sent on it, and for writing exactly
    when something does. *)
Theorem poll_interest k e sd i c :
  reached k e → tunnel e sd i c →
  match cn_mux c with
  | None => poll_want c = if cn_fd c <? 0 then None else Some POLLOUT
  | Some s => ∃ w, poll_want c = Some w ∧ (sd, i, w) ∈ poll_set e ∧
      Z.testbit w 0 = (mux_out_pending s <? 4 * 1024 * 1024) ∧ Z.testbit w 2 = negb (mux_out_pending s =? 0)
  end.
Proof.
  intros H%reached_running Ht. destruct (to_phase _ _ (ri_tun e H sd i c Ht)) as [Hf Hp]. destruct (cn_mux c) as [s|] eqn:Hm.
  - destruct Hp as (_ & Hfd & Hcon). set (op := mux_out_pending s).
    set (w := Z.lor (if op <? Z.shiftl 4 20 then POLLIN else 0) (if negb (op =? 0) then POLLOUT else 0)).
    assert (poll_want c = Some w) as Hw.
    { unfold poll_want. rewrite Z.geb_leb, Hcon, Hm. destruct (Z.leb_spec 0 (cn_fd c)); [done | lia]. }
    exists w. split; [done |]. split.
    + unfold poll_set. pose proof (tunnel_range _ _ _ _ Ht) as Hi. destruct Ht as [_ Hc].
      assert ((sd, i, w) ∈ polled sd e) as Hin.
      { apply list_elem_of_omap. exists i. split; [apply elem_of_seqZ; lia |]. rewrite Hc. cbn. by rewrite Hw. }
      apply elem_of_app. destruct sd; [by left | by right].
    + unfold w. change (4 * 1024 * 1024) with (Z.shiftl 4 20). by destruct (op <? Z.shiftl 4 20), (op =? 0).
  - destruct Hp as (_ & _ & Hcon & _). unfold poll_want. rewrite Z.geb_leb.
    destruct (Z.leb_spec 0 (cn_fd c)), (Z.ltb_spec (cn_fd c) 0); try lia; cbn [negb]; [| done]. by rewrite Hcon.
Qed.

(** ** The end *)

#[local] Instance at_end : Ending := true.

Lemma down_empty sd c k : tunnel_ok sd c → down c → umap_get (cn_routes c) k = None.
Proof. intros [_ _ [_ Hp] _] [Hm _]. rewrite Hm in Hp. apply Hp. Qed.

Lemma wp_free_table sd i e c (Q : unit → ep_state → Prop) :
  stopped e → tunnel e sd i c → down c → asked e < 2 ^ 31 →
  (∀ e' c', stopped e' → apart sd i e e' → tunnel e' sd i c' → down c' → asked e' = asked e → Q tt e') →
  wp (free_table sd i) Q e.
Proof.
  intros H Ht Hd Hn HQ. unfold free_table. wp1. eapply wp_conn; [exact Ht |]. apply wp_set_conn.
  set (c' := c <| cn_routes := _ |>). pose proof (tunnel_range _ _ _ _ Ht) as Hi.
  pose proof (ri_tun e H sd i c Ht) as Hok. pose proof (fun k => down_empty sd c k Hok Hd) as Hg.
  apply (HQ _ c'); [| by apply apart_put | by apply tunnel_put; [| left] | exact Hd | unfold asked; by rewrite put_tunnel_log_eq].
  rewrite <- put_tunnel_log. destruct Hok as [Hs _ [Hf Hp] Hr], Hd as [Hm Hfd]. rewrite Hm in Hp. destruct Hp as (? & ? & ? & _).
  eapply (rinv_tunnel_gen e sd i c c'); [done | exact Ht | | | | done |].
  - split; [done | by right | | done]. split; [done |]. cbn. rewrite Hm. split_and!; [done.. |]. intros k. by apply get_nil.
  - intros k. rewrite Hg. by apply get_nil.
  - intros p r Hr' E. exfalso. destruct (ex_listed e (ri_exact e H Hn) p r sd Hr') as (d & Hd' & Hk). rewrite E in Hd'.
    pose proof (tunnel_eq _ _ _ _ _ Ht Hd') as ->. by rewrite Hg in Hk.
  - intros _ _. unfold fresh. cbn. by rewrite Hm.
Qed.

Lemma wp_retire now sd i e (Q : unit → ep_state → Prop) :
  stopped e → 0 ≤ i < zlen (pool sd e) → asked e < 2 ^ 31 →
  (∀ e' c', stopped e' → apart sd i e e' → tunnel e' sd i c' → down c' → asked e' = asked e → Q tt e') →
  wp (retire now sd i) Q e.
Proof.
  intros H Hi Hn HQ. destruct (tunnel_at e sd i Hi) as [c Ht]. unfold retire.
  wp1. eapply wp_conn_teardown; [exact H | exact Ht |]. intros e1 c1 H1 A1 Ht1 D1 E1.
  eapply wp_free_table; [exact H1 | exact Ht1 | exact D1 | lia |]. intros e2 c2 H2 A2 Ht2 D2 E2.
  apply (HQ e2 c2); [done | by etrans | done | done | congruence].
Qed.

(** The tunnels of [l] are down. *)
Definition downed (sd : side) (l : list Z) (e : ep_state) : Prop := ∀ i, i ∈ l → ∃ c, tunnel e sd i c ∧ down c.

Lemma downed_apart sd i s l e e' c' :
  apart sd i e e' → tunnel e' sd i c' → down c' → downed s l e → downed s l e'.
Proof.
  intros [_ A] Ht Hd Hl j Hj. destruct (Hl j Hj) as (d & Htd & Hm & Hf).
  destruct (decide (s = sd ∧ j = i)) as [[-> ->]|Hne]; [by exists c' |].
  destruct (A s j d Hne Htd) as (d' & Hd' & Ef & Em). exists d'. split; [done |]. split; [by apply Em | congruence].
Qed.

Lemma wp_retire_all l now sd e (Q : unit → ep_state → Prop) :
  stopped e → (∀ i, i ∈ l → 0 ≤ i < zlen (pool sd e)) → asked e < 2 ^ 31 →
  (∀ e', stopped e' → sized e e' → asked e' = asked e → downed sd l e' →
     (∀ s l', downed s l' e → downed s l' e') → Q tt e') →
  wp (each l (retire now sd)) Q e.
Proof.
  revert e. induction l as [|i l IH]; intros e H Hl Hn HQ; cbn [each].
  { wps. apply HQ; [done | reflexivity | done | by intros j []%elem_of_nil | done]. }
  wp1. eapply wp_retire; [exact H | apply Hl; by left | done |]. intros e1 c1 H1 A1 Ht1 D1 E1.
  apply IH; [done | intros j Hj; rewrite (proj1 A1); apply Hl; by right | lia |]. intros e2 H2 Z2 E2 D2 K2.
  apply HQ; [done | etrans; [apply A1 | done] | congruence | |].
  - intros j [->|Hj]%elem_of_cons; [| by apply D2]. apply (K2 sd [i]); [| by left].
    intros x ->%list_elem_of_singleton. by exists c1.
  - intros s l' Hs. apply K2. by eapply downed_apart.
Qed.

Lemma cnt_none {A} (f : A → bool) l : (∀ x, x ∈ l → f x = false) → cnt f l = 0.
Proof.
  induction l as [|x l IH]; intros H; [done |]. cbn. rewrite (H x) by by left. rewrite IH; [done |]. intros y Hy. apply H. by right.
Qed.

(** When every tunnel is down, no route and no descriptor is left. *)
Lemma all_down e :
  stopped e → asked e < 2 ^ 31 → (∀ sd, downed sd (seqZ 0 (zlen (pool sd e))) e) →
  e_rt e = ∅ ∧ ∀ fd, 0 ≤ fd → dialed fd e = closed fd e.
Proof.
  intros H Hn Hd. split.
  - apply map_empty. intros p. apply eq_None_not_Some. intros [r Hr].
    destruct (ex_listed e (ri_exact e H Hn) p r WORKER Hr) as (c & Hc & Hk). pose proof (tunnel_range _ _ _ _ Hc) as Hi.
    destruct (Hd WORKER (end_idx WORKER r)) as (d & Htd & Hdd); [apply elem_of_seqZ; lia |].
    pose proof (tunnel_eq _ _ _ _ _ Hc Htd) as ->. rewrite (down_empty WORKER c) in Hk; [done | by eapply ri_tun | done].
  - intros fd Hfd. rewrite (ri_fds e H fd Hfd).
    assert (∀ sd, cnt (holder fd) (pool sd e) = 0) as Hz.
    { intros sd. apply cnt_none. intros c [j Hj]%list_elem_of_lookup. pose proof (lookup_lt_Some _ _ _ Hj) as Hlt.
      destruct (Hd sd (Z.of_nat j)) as (d & [_ Htd] & _ & Hf); [apply elem_of_seqZ; unfold zlen; lia |].
      rewrite Nat2Z.id in Htd. assert (d = c) as -> by congruence. unfold holder. rewrite Hf. by destruct (Z.eqb_spec (-1) fd); [lia |]. }
    unfold held. pose proof (Hz EDGE). pose proof (Hz WORKER). cbn in *. lia.
Qed.


(** ** Witnesses *)

(** One edge and one worker.  Turn 1 dials both; in turn 2 both connections are
    made and the greetings sent; in turn 3 both answer; in turn 4 the edge opens
    stream 2 with three bytes on it. *)
Definition stk1 : stack := mk_stack sample_ctx sample_ctx [].
Definition open_cfg : ep_config := mk_ep_config None None 0 0 0.

Definition quiet_io : io_env := mk_io 0 0 [] [] 0 [] [].
Definition idle_turn : ep_turn :=
  mk_ep_turn false (fun _ _ => mk_tick 0 (-1) 0) 0 (fun _ _ => []) POLL_OK (fun _ _ => quiet_io) (fun _ _ => []).

Definition dial_turn : ep_turn :=
  mk_ep_turn false (fun sd _ => mk_tick 0 (match sd with EDGE => 5 | WORKER => 6 end) 0) 0 (fun _ _ => []) POLL_OK
    (fun _ _ => quiet_io) (fun _ _ => []).
Definition connect_turn : ep_turn :=
  mk_ep_turn false (fun _ _ => mk_tick 0 (-1) 0) 1 (fun _ _ => []) POLL_OK
    (fun _ _ => mk_io POLLOUT 0 [] [] 1 [] [WROTE 1000]) (fun _ _ => []).
Definition got_turn (f : side -> list read_res) : ep_turn :=
  mk_ep_turn false (fun _ _ => mk_tick 0 (-1) 0) 2 (fun _ _ => []) POLL_OK
    (fun sd _ => mk_io POLLIN 0 [] [] 2 (f sd) []) (fun _ _ => [WROTE 1000]).

Definition stream2 : bytes := enc (mk_wframe MUX_T_DATA MUX_F_SYN 2 []) ++ enc (mk_wframe MUX_T_DATA 0 2 [1; 2; 3]).

Definition opening_run : list ep_turn :=
  [dial_turn; connect_turn; got_turn (fun _ => [READ sample_ack]);
   got_turn (fun sd => match sd with EDGE => [READ stream2] | WORKER => [] end)].

Definition ep_after (ts : list ep_turn) : ep_state :=
  (default (true, ep_init open_cfg 1 1) (ep_loop stk1 ts (ep_init open_cfg 1 1))).2.

Lemma ep_after_reached ts :
  match ep_loop stk1 ts (ep_init open_cfg 1 1) with Some _ => true | None => false end = true →
  reached stk1 (ep_after ts).
Proof.
  intros E. unfold ep_after. destruct (ep_loop stk1 ts (ep_init open_cfg 1 1)) as [[go e]|] eqn:El; [| done].
  exists open_cfg, 1, 1, ts, go. exact El.
Qed.

Example opening_run_routes :
  (fun '(p, r) => (p, r_edge_idx r, r_up_sid r, r_worker_idx r, r_down_sid r)) <$> map_to_list (e_rt (ep_after opening_run))
  = [(1, 0, 2, 0, 1)].
Proof. vm_compute. reflexivity. Qed.

Definition edge0 (e : ep_state) : conn_t := default (conn_zero false) (e_edges e !! 0%nat).
Definition worker0 (e : ep_state) : conn_t := default (conn_zero true) (e_wk e !! 0%nat).



Definition low_water (c : conn_t) : bool :=
  match cn_mux c with Some s => mux_out_pending s <? 4 * 1024 * 1024 | None => false end.

Example worker_low : low_water (worker0 (ep_after [dial_turn; connect_turn])) = true.
Proof. vm_compute. reflexivity. Qed.

Lemma poll_interest_witness :
  ∃ w, poll_want (worker0 (ep_after [dial_turn; connect_turn])) = Some w ∧
       (WORKER, 0, w) ∈ poll_set (ep_after [dial_turn; connect_turn]) ∧ Z.testbit w 0 = true.
Proof.
  assert (reached stk1 (ep_after [dial_turn; connect_turn])) as Hr by (apply ep_after_reached; vm_compute; reflexivity).
  assert (tunnel (ep_after [dial_turn; connect_turn]) WORKER 0 (worker0 (ep_after [dial_turn; connect_turn]))) as Ht
    by (split; [done |]; apply default_Some; vm_compute; reflexivity).
  pose proof (poll_interest stk1 _ WORKER 0 _ Hr Ht) as H. pose proof worker_low as Hm. clear Hr Ht. unfold low_water in Hm.
  generalize dependent (worker0 (ep_after [dial_turn; connect_turn])). generalize (ep_after [dial_turn; connect_turn]).
  intros e c H Hm. destruct (cn_mux c) as [s|]; [| discriminate].
  destruct H as (w & H1 & H2 & H3 & _). exists w. split_and!; [exact H1 | exact H2 |]. rewrite H3. exact Hm.
Defined.
