(* ===== verification/CString.v ===== *)
(** C strings, and what the programs use of string.h and stdlib.h.

    A string is the list of its bytes up to the terminating NUL, which is not
    in the list.  [long] has 64 bits. *)

From Stdlib Require Import ZArith Lia String Ascii.
From stdpp Require Import base list numbers.
From S2P Require Import Prelude.

(** A string literal of the source. *)
Definition cs (s : string) : bytes := (fun a => Z.of_N (N_of_ascii a)) <$> list_ascii_of_string s.

Definition LONG_MAX : Z := 2 ^ 63 - 1.
Definition LONG_MIN : Z := - 2 ^ 63.

Definition COLON : Z := 58.

(** ** Searching *)

(** [strrchr(s, c)]: the string cut at the last [c], which is in neither part. *)
Fixpoint strrchr (s : bytes) (c : Z) : option (bytes * bytes) :=
  match s with
  | [] => None
  | x :: s =>
      match strrchr s c with
      | Some (a, b) => Some (x :: a, b)
      | None => if x =? c then Some ([], s) else None
      end
  end.

(** [strncmp(s, p, strlen(p)) == 0] *)
Fixpoint starts_with (s p : bytes) {struct p} : bool :=
  match p, s with
  | [], _ => true
  | _, [] => false
  | y :: p, x :: s => (x =? y) && starts_with s p
  end.

(** [strstr(s, p)]: the string from the first [p] on. *)
Fixpoint strstr (s p : bytes) : option bytes :=
  if starts_with s p then Some s else
  match s with [] => None | _ :: s => strstr s p end.

(** ** Numbers *)

Definition isspace (c : Z) : bool := (c =? 32) || ((9 <=? c) && (c <=? 13)).
Definition isdigit (c : Z) : bool := (48 <=? c) && (c <=? 57).

Fixpoint skip_space (s : bytes) : bytes :=
  match s with c :: t => if isspace c then skip_space t else s | [] => [] end.

(** The value of the digits at the front. *)
Fixpoint digits (acc : Z) (s : bytes) : Z :=
  match s with c :: s => if isdigit c then digits (acc * 10 + (c - 48)) s else acc | [] => acc end.

(** [strtol(s, NULL, 10)]: blanks, a sign, digits; out of range it saturates. *)
Definition strtol (s : bytes) : Z :=
  let s := skip_space s in
  let v := match s with
           | 43 :: t => digits 0 t
           | 45 :: t => - digits 0 t
           | _ => digits 0 s
           end in
  Z.max LONG_MIN (Z.min LONG_MAX v).

(** The decimal digits of [n] (["%u"], and ["%ld"] where [n] is not negative). *)
Fixpoint dec_loop (fuel : nat) (n : Z) : bytes :=
  match fuel with
  | O => []
  | S fuel => if n <? 10 then [48 + n] else dec_loop fuel (n / 10) ++ [48 + n mod 10]
  end.

(** 64 bits have at most 20 digits. *)
Definition fmt_u (n : Z) : bytes := dec_loop 20 n.
Definition fmt_ld (n : Z) : bytes := if n <? 0 then 45 :: fmt_u (- n) else fmt_u n.

(** What [snprintf] leaves in a buffer of [cap] bytes. *)
Definition snprintf (cap : Z) (s : bytes) : bytes := ztake (cap - 1) s.

(** ** Lemmas *)

Lemma strrchr_app a b c : c ∉ b → strrchr (a ++ c :: b) c = Some (a, b).
Proof.
  intros Hb. assert (∀ l, c ∉ l → strrchr l c = None) as Hn.
  { induction l as [|x l IH]; intros Hl; [done |]. apply not_elem_of_cons in Hl as [Hx Hl]. cbn. rewrite IH by done.
    destruct (Z.eqb_spec x c); [congruence | done]. }
  induction a as [|x a IH]; cbn; [by rewrite Hn, Z.eqb_refl by done | by rewrite IH].
Qed.

Lemma strrchr_inv s c a b : strrchr s c = Some (a, b) → s = a ++ c :: b ∧ c ∉ b.
Proof.
  revert a b. induction s as [|x s IH]; intros a b; cbn; [done |]. destruct (strrchr s c) as [[a' b']|] eqn:E.
  - intros [= <- <-]. destruct (IH _ _ eq_refl) as [-> Hc]. done.
  - destruct (Z.eqb_spec x c) as [->|]; [| done]. intros [= <- <-]. split; [done |].
    clear -E. induction s as [|y s IH]; [apply not_elem_of_nil |]. cbn in E. destruct (strrchr s c) as [[]|]; [done |].
    destruct (Z.eqb_spec y c); [done |]. apply not_elem_of_cons. by split; [| apply IH].
Qed.

Lemma strrchr_None s c : strrchr s c = None ↔ c ∉ s.
Proof.
  split.
  - intros E Hc. apply list_elem_of_split in Hc as (l1 & l2 & ->). revert E. clear.
    induction l1 as [|x l1 IH]; cbn; [destruct (strrchr l2 c) as [[]|]; [done |]; by rewrite Z.eqb_refl |].
    by destruct (strrchr (l1 ++ c :: l2) c) as [[]|]; [| intros; by apply IH].
  - intros Hc. destruct (strrchr s c) as [[a b]|] eqn:E; [| done]. apply strrchr_inv in E as [-> _].
    destruct Hc. apply elem_of_app. right. by left.
Qed.

Lemma starts_with_app p s : starts_with (p ++ s) p = true.
Proof. induction p as [|y p IH]; cbn; [by destruct s | by rewrite Z.eqb_refl]. Qed.

Lemma starts_with_inv s p : starts_with s p = true → ∃ t, s = p ++ t.
Proof.
  revert s. induction p as [|y p IH]; intros s; [by exists s |]. destruct s as [|x s]; [done |]. cbn.
  intros [->%Z.eqb_eq (t & ->)%IH]%andb_true_iff. by exists t.
Qed.

Lemma strstr_dots p t : 46 ∉ p → strstr (p ++ 46 :: 46 :: t) (cs "..") = Some (46 :: 46 :: t).
Proof.
  change (cs "..") with [46; 46]. induction p as [|x p IH]; intros Hp; [done |]. apply not_elem_of_cons in Hp as [Hx Hp].
  cbn [app strstr starts_with]. destruct (Z.eqb_spec x 46); [congruence |]. by apply IH.
Qed.

(** Digits only. *)
Definition numeral (s : bytes) : Prop := Forall (fun c => 48 ≤ c ≤ 57) s.

Lemma numeral_not s c : numeral s → c < 48 ∨ 57 < c → c ∉ s.
Proof. intros H Hn [i Hc]%list_elem_of_lookup. unfold numeral in H. eapply Forall_lookup_1 in H; [| exact Hc]. cbn in H. lia. Qed.

Lemma numeral_colon s : numeral s → COLON ∉ s.
Proof. intros H. apply numeral_not; [done | unfold COLON; lia]. Qed.

Lemma digits_app s t acc :
  numeral s → digits acc (s ++ t) = digits (digits acc s) t.
Proof.
  intros H. revert acc. induction H as [|c s Hc _ IH]; intros acc; [done |]. cbn.
  assert (isdigit c = true) as -> by (unfold isdigit; lia). apply IH.
Qed.

Lemma dec_loop_numeral fuel n : 0 ≤ n → numeral (dec_loop fuel n).
Proof.
  revert n. induction fuel as [|fuel IH]; intros n Hn; cbn; [constructor |]. destruct (Z.ltb_spec n 10).
  - constructor; [lia | constructor].
  - apply Forall_app. split; [apply IH; apply Z.div_pos; lia |]. pose proof (Z.mod_pos_bound n 10 ltac:(lia)). constructor; [lia | constructor].
Qed.

Lemma dec_loop_digits fuel n : 0 ≤ n < 10 ^ Z.of_nat fuel → digits 0 (dec_loop fuel n) = n.
Proof.
  revert n. induction fuel as [|fuel IH]; intros n Hn; [cbn in *; lia |]. cbn [dec_loop]. destruct (Z.ltb_spec n 10).
  - cbn. assert (isdigit (48 + n) = true) as -> by (unfold isdigit; lia). lia.
  - rewrite Nat2Z.inj_succ, Z.pow_succ_r in Hn by lia. pose proof (Z.mod_pos_bound n 10 ltac:(lia)). pose proof (Z.div_mod n 10 ltac:(lia)).
    rewrite digits_app by (apply dec_loop_numeral; apply Z.div_pos; lia). rewrite IH.
    + cbn. assert (isdigit (48 + n mod 10) = true) as -> by (unfold isdigit; lia). lia.
    + split; [apply Z.div_pos; lia | apply Z.div_lt_upper_bound; lia].
Qed.

Lemma dec_loop_len fuel n : 0 ≤ n → zlen (dec_loop fuel n) ≤ Z.of_nat fuel.
Proof.
  revert n. induction fuel as [|fuel IH]; intros n Hn; cbn [dec_loop]; [done |]. destruct (Z.ltb_spec n 10); [zlen_lia |].
  specialize (IH (n / 10) ltac:(apply Z.div_pos; lia)). rewrite zlen_app, zlen_cons, zlen_nil. lia.
Qed.

Lemma fmt_u_numeral n : 0 ≤ n → numeral (fmt_u n).
Proof. apply dec_loop_numeral. Qed.

Lemma fmt_u_len n : 0 ≤ n → zlen (fmt_u n) ≤ 20.
Proof. apply dec_loop_len. Qed.

Lemma dec_loop_nil fuel n : dec_loop (S fuel) n ≠ [].
Proof. cbn. destruct (n <? 10); [done |]. by destruct (dec_loop fuel (n / 10)). Qed.

(** No digit at the front. *)
Definition no_digit (t : bytes) : Prop := match t with c :: _ => isdigit c = false | [] => True end.

Lemma digits_stop acc t : no_digit t → digits acc t = acc.
Proof. destruct t as [|c t]; [done |]. intros H. cbn in *. by rewrite H. Qed.

(** A numeral is neither skipped nor taken for a sign. *)
Lemma strtol_numeral c s t :
  numeral (c :: s) → no_digit t → strtol (c :: s ++ t) = Z.max LONG_MIN (Z.min LONG_MAX (digits 0 (c :: s))).
Proof.
  intros Hn Ht. unfold strtol. pose proof Hn as [Hc _]%Forall_cons_1. cbn [skip_space].
  assert (isspace c = false) as -> by (unfold isspace; lia).
  assert (digits 0 (c :: s ++ t) = digits 0 (c :: s)) as <- by (rewrite app_comm_cons, (digits_app (c :: s)) by done; by apply digits_stop).
  assert (c ≠ 43 ∧ c ≠ 45) as [H1 H2] by lia. do 2 f_equal.
  destruct c as [|c|c]; try lia. repeat (destruct c as [c|c|]; try done; try lia).
Qed.

Lemma strtol_fmt n t : 0 ≤ n ≤ LONG_MAX → no_digit t → strtol (fmt_u n ++ t) = n.
Proof.
  intros Hn Ht. pose proof (fmt_u_numeral n (proj1 Hn)) as Hf. unfold fmt_u in *. destruct (dec_loop 20 n) as [|c s] eqn:E.
  { by apply dec_loop_nil in E. }
  cbn [app]. rewrite strtol_numeral by done. rewrite <- E, dec_loop_digits; unfold LONG_MIN, LONG_MAX in *; lia.
Qed.

Lemma strtol_range s : LONG_MIN ≤ strtol s ≤ LONG_MAX.
Proof. unfold strtol, LONG_MIN, LONG_MAX. lia. Qed.

Lemma snprintf_fits cap s : zlen s < cap → snprintf cap s = s.
Proof. intros H. unfold snprintf. apply ztake_all. lia. Qed.
