(* ===== verification/Net.v ===== *)
(** Socket helpers and address strings, common/net.c (on Linux).

    The operating system is an oracle ([OS]): its answer to a call may depend on
    everything the process has asked before.  The state of the monad [N] is that
    history, [trace], in which theorems count descriptors ([live]) and look for
    the calls made.  An answer below 0 is [-1] with [errno] its opposite. *)

From Stdlib Require Import ZArith Lia String Ascii.
From stdpp Require Import base list numbers.
From S2P Require Import Prelude Host CString.

Open Scope string_scope.
Open Scope list_scope.
Open Scope Z_scope.

(** ** The operating system *)

Definition AF_UNSPEC : Z := 0.
Definition AF_UNIX : Z := 1.
Definition SOCK_STREAM : Z := 1.
Definition AI_PASSIVE : Z := 1.
Definition O_NONBLOCK : Z := 2048.
Definition EINTR : Z := 4.
Definition EINPROGRESS : Z := 115.
Definition SOL_SOCKET : Z := 1.
Definition SO_REUSEADDR : Z := 2.
Definition SO_KEEPALIVE : Z := 9.
Definition SO_REUSEPORT : Z := 15.
Definition IPPROTO_TCP : Z := 6.
Definition TCP_NODELAY : Z := 1.
Definition TCP_KEEPIDLE : Z := 4.
Definition TCP_KEEPINTVL : Z := 5.
Definition TCP_KEEPCNT : Z := 6.

Inductive sockaddr := SA_INET (a : bytes) | SA_UNIX (path : bytes).

Record addrinfo := mk_ai { ai_family : Z; ai_socktype : Z; ai_protocol : Z; ai_addr : bytes }.

(** The calls the programs make.  [ON_TUNNEL fd] stands for the session served on
    [fd] by relay.c, which does not close it. *)
Inductive syscall :=
  | SOCKET (family type protocol : Z)
  | SETSOCKOPT (fd level opt val : Z)
  | GETFL (fd : Z)
  | SETFL (fd flags : Z)
  | BIND (fd : Z) (a : sockaddr)
  | LISTEN (fd backlog : Z)
  | CONNECT (fd : Z) (a : sockaddr)
  | ACCEPT (fd : Z)
  | CLOSE (fd : Z)
  | UNLINK (path : bytes)
  | SO_ERROR (fd : Z)
  | PIPE
  | PIPE_END                        (* a descriptor that [pipe] has stored *)
  | THREAD_CREATE
  | POLL (fd events timeout : Z)
  | NANOSLEEP (ms : Z)
  | ON_TUNNEL (fd : Z)
  | FORK
  | KILL (pid sig : Z)
  | WAITPID (pid : Z).

#[export] Instance sockaddr_eq_dec : EqDecision sockaddr.
Proof. solve_decision. Defined.
#[export] Instance syscall_eq_dec : EqDecision syscall.
Proof. solve_decision. Defined.

Abbreviation trace := (list (syscall * Z)).

Class OS := {
  os_sys : trace -> syscall -> Z;
  (** [getaddrinfo] on a node, a service and [ai_flags] *)
  os_resolve : trace -> view -> bytes -> Z -> option (list addrinfo);
  (** [getnameinfo] of the connection accepted last *)
  os_nameinfo : trace -> option (bytes * bytes);
}.

Abbreviation N := (ST trace).

Definition sys `{OS} (c : syscall) : N Z := fun h => let r := os_sys h c in Some (r, h ++ [(c, r)]).
Definition resolve `{OS} (node : view) (service : bytes) (flags : Z) : N (option (list addrinfo)) :=
  gets (fun h => os_resolve h node service flags).

(** ** Options *)

Section Net.
Context `{OS}.

Definition net_set_nonblock (fd : Z) : N Z :=
  fl ← sys (GETFL fd);
  if fl <? 0 then mret (-1) else sys (SETFL fd (Z.lor fl O_NONBLOCK)).

Definition net_set_nodelay (fd : Z) : N Z := sys (SETSOCKOPT fd IPPROTO_TCP TCP_NODELAY 1).

Definition net_set_keepalive (fd idle intvl cnt : Z) : N Z :=
  rc ← sys (SETSOCKOPT fd SOL_SOCKET SO_KEEPALIVE 1);
  if rc <? 0 then mret (-1) else
  sys (SETSOCKOPT fd IPPROTO_TCP TCP_KEEPIDLE idle);;
  sys (SETSOCKOPT fd IPPROTO_TCP TCP_KEEPINTVL intvl);;
  sys (SETSOCKOPT fd IPPROTO_TCP TCP_KEEPCNT cnt);;
  mret 0.

(** [getsockopt(SO_ERROR)]: a failure of the call is its errno. *)
Definition net_socket_error (fd : Z) : N Z := r ← sys (SO_ERROR fd); mret (if r <? 0 then - r else r).

(** ** TCP *)

(** The loop over [res]: the descriptor of the first address that can be bound
    and listened on. *)
Fixpoint listen_loop (res : list addrinfo) (backlog : Z) : N Z :=
  match res with
  | [] => mret (-1)
  | ai :: res =>
      fd ← sys (SOCKET (ai_family ai) (ai_socktype ai) (ai_protocol ai));
      if fd <? 0 then listen_loop res backlog else
      sys (SETSOCKOPT fd SOL_SOCKET SO_REUSEADDR 1);;
      sys (SETSOCKOPT fd SOL_SOCKET SO_REUSEPORT 1);;
      b ← sys (BIND fd (SA_INET (ai_addr ai)));
      ok ← (if b =? 0 then l ← sys (LISTEN fd backlog); mret (l =? 0) else mret false);
      if ok : bool then mret fd else
      sys (CLOSE fd);;
      listen_loop res backlog
  end.

Definition net_listen (host : view) (port backlog : Z) : N Z :=
  let portstr := snprintf 16 (fmt_u port) in
  let node := match host with Some (_ :: _) => host | _ => None end in
  res ← resolve node portstr AI_PASSIVE;
  match res with
  | None => mret (-1)
  | Some res =>
      fd ← listen_loop res backlog;
      (if fd >=? 0 then net_set_nonblock fd;; mret tt else mret tt);;
      mret fd
  end.

(** What [fill_peer] leaves in a buffer of [peerlen] bytes. *)
Definition fill_peer (name : option (bytes * bytes)) (peerlen : Z) : bytes :=
  match name with
  | Some (host, serv) => snprintf peerlen (host ++ [COLON] ++ serv)
  | None => snprintf peerlen (cs "?")
  end.

Definition net_accept (listen_fd peerlen : Z) : N (Z * bytes) :=
  fd ← sys (ACCEPT listen_fd);
  if fd <? 0 then mret (-1, []) else
  name ← gets os_nameinfo;
  net_set_nonblock fd;;
  net_set_nodelay fd;;
  mret (fd, fill_peer name peerlen).

Fixpoint dial_loop (res : list addrinfo) : N Z :=
  match res with
  | [] => mret (-1)
  | ai :: res =>
      fd ← sys (SOCKET (ai_family ai) (ai_socktype ai) (ai_protocol ai));
      if fd <? 0 then dial_loop res else
      net_set_nonblock fd;;
      net_set_nodelay fd;;
      r ← sys (CONNECT fd (SA_INET (ai_addr ai)));
      if (r =? 0) || (r =? - EINPROGRESS) then mret fd else
      sys (CLOSE fd);;
      dial_loop res
  end.

Definition net_dial (host : view) (port : Z) : N Z :=
  let portstr := snprintf 16 (fmt_u port) in
  res ← resolve host portstr 0;
  match res with None => mret (-1) | Some res => dial_loop res end.

(** ** Unix sockets *)

(** [sizeof sun_path] *)
Definition SUN_PATH : Z := 108.

Definition unix_addr (path : bytes) : option sockaddr :=
  if zlen path >=? SUN_PATH then None else Some (SA_UNIX path).

Definition net_listen_unix (path : bytes) (backlog : Z) : N Z :=
  match unix_addr path with
  | None => mret (-1)
  | Some sa =>
      fd ← sys (SOCKET AF_UNIX SOCK_STREAM 0);
      if fd <? 0 then mret (-1) else
      sys (UNLINK path);;
      b ← sys (BIND fd sa);
      ok ← (if negb (b =? 0) then mret false else l ← sys (LISTEN fd backlog); mret (l =? 0));
      if negb ok then sys (CLOSE fd);; mret (-1) else
      net_set_nonblock fd;;
      mret fd
  end.

Definition net_dial_unix (path : bytes) : N Z :=
  match unix_addr path with
  | None => mret (-1)
  | Some sa =>
      fd ← sys (SOCKET AF_UNIX SOCK_STREAM 0);
      if fd <? 0 then mret (-1) else
      net_set_nonblock fd;;
      r ← sys (CONNECT fd sa);
      if (r =? 0) || (r =? - EINPROGRESS) then mret fd else
      sys (CLOSE fd);;
      mret (-1)
  end.

(** ** Address strings *)

Definition net_addr_is_unix (addr : view) : bool :=
  match addr with
  | None => false
  | Some a => starts_with a (cs "unix:") || starts_with a (cs "/")
  end.

Definition unix_path_of (addr : bytes) : bytes :=
  if starts_with addr (cs "unix:") then zdrop 5 addr else addr.

(** [net_parse_addr]: the result, and what it has stored through [host_out]
    and [port_out] where it has. *)
Definition net_parse_addr (s : view) (cap : Z) : Z * view * option Z :=
  match s with
  | None => (-1, None, None)
  | Some s =>
      if cap =? 0 then (-1, None, None) else
      match strrchr s COLON with
      | None =>
          let p := strtol s in
          if (p <=? 0) || (p >? 65535) then (-1, Some [], None) else (0, Some [], Some (u16 p))
      | Some (h, rest) =>
          if zlen h >=? cap then (-1, None, None) else
          let p := strtol rest in
          if (p <=? 0) || (p >? 65535) then (-1, Some h, None) else (0, Some h, Some (u16 p))
      end
  end.

(** Uninitialised locals are never read: after 0 both outputs are stored. *)
Definition net_listen_addr (addr : view) (backlog : Z) : N Z :=
  if net_addr_is_unix addr then net_listen_unix (unix_path_of (vbytes addr)) backlog else
  match net_parse_addr addr 256 with
  | (0, Some host, Some port) =>
      net_listen (match host with [] => None | _ => Some host end) port backlog
  | (0, _, _) => undef
  | _ => mret (-1)
  end.

Definition net_dial_addr (addr : view) : N Z :=
  if net_addr_is_unix addr then net_dial_unix (unix_path_of (vbytes addr)) else
  match net_parse_addr addr 256 with
  | (0, Some host, Some port) => net_dial (Some host) port
  | (0, _, _) => undef
  | _ => mret (-1)
  end.
End Net.

(** ** Limits and randomness *)

(** [net_raise_fd_limit]: [get1] and [get2] are what [getrlimit] answers (soft and
    hard limit), [set] whether [setrlimit] takes the limits it is given. *)
Definition net_raise_fd_limit (get1 : option (Z * Z)) (set : Z * Z -> bool) (get2 : option (Z * Z)) : Z :=
  match get1 with
  | None => -1
  | Some (_, rlim_max) =>
      if negb (set (rlim_max, rlim_max)) then match get2 with Some (cur, _) => to_i64 cur | None => -1 end else
      match get2 with None => -1 | Some (cur, _) => to_i64 cur end
  end.

(** [os_random]: what /dev/urandom yields, if it opens. *)
Definition os_random (file : option bytes) (n : Z) : Z * bytes :=
  match file with
  | None => (-1, [])
  | Some f => let got := ztake n f in (if zlen got =? n then 0 else -1, got)
  end.

(** ** Descriptors *)

(** What a call does to the number of times [fd] is open. *)
Definition opens (fd : Z) (e : syscall * Z) : Z :=
  match e with
  | (SOCKET _ _ _, r) | (ACCEPT _, r) | (PIPE_END, r) => if r =? fd then 1 else 0
  | (CLOSE f, _) => if f =? fd then -1 else 0
  | _ => 0
  end.

(** How often [fd] is open after the calls of [tr]. *)
Definition live (fd : Z) (tr : trace) : Z := foldr (fun e n => opens fd e + n) 0 tr.

Lemma live_snoc fd tr e : live fd (tr ++ [e]) = live fd tr + opens fd e.
Proof. unfold live. induction tr as [|x tr IH]; cbn in *; lia. Qed.

(** Between [tr] and [tr'] the process has gained [rc], if that is a descriptor,
    and nothing else. *)
Definition gains (rc : Z) (tr tr' : trace) : Prop :=
  ∀ fd, 0 ≤ fd → live fd tr' = live fd tr + (if rc =? fd then 1 else 0).

(** No descriptor is gained or lost. *)
Definition level (tr tr' : trace) : Prop := ∀ fd, live fd tr' = live fd tr.

#[export] Instance level_preorder : PreOrder level.
Proof. split; [done |]. intros a b c L1 L2 fd. by rewrite L2, L1. Qed.

(** [fd] has been made non-blocking, as far as [fcntl] answered. *)
Definition nonblocking (fd : Z) (tr : trace) : Prop :=
  ∃ fl, (GETFL fd, fl) ∈ tr ∧ (0 ≤ fl → ∃ r, (SETFL fd (Z.lor fl O_NONBLOCK), r) ∈ tr).

Lemma nonblocking_app fd tr l : nonblocking fd tr → nonblocking fd (tr ++ l).
Proof.
  intros (fl & Hg & Hs). exists fl. split; [apply elem_of_app; by left |].
  intros Hf. destruct (Hs Hf) as [r Hr]. exists r. apply elem_of_app. by left.
Qed.

Section Rules.
Context `{OS}.
Implicit Types (tr : trace).

Lemma wp_sys c tr (Q : Z → trace → Prop) : (∀ r, Q r (tr ++ [(c, r)])) → wp (sys c) Q tr.
Proof. intros HQ. apply HQ. Qed.

(** A call that neither opens nor closes a descriptor. *)
Lemma level_quiet c r tr : (∀ fd, opens fd (c, r) = 0) → level tr (tr ++ [(c, r)]).
Proof. intros Hc fd. rewrite live_snoc, Hc. lia. Qed.

Lemma wp_quiet c tr (Q : Z → trace → Prop) :
  (∀ r fd, opens fd (c, r) = 0) → (∀ r, level tr (tr ++ [(c, r)]) → Q r (tr ++ [(c, r)])) → wp (sys c) Q tr.
Proof. intros Hc HQ. apply wp_sys. intros r. by apply HQ, level_quiet. Qed.

Lemma wp_set_nonblock fd tr (Q : Z → trace → Prop) :
  (∀ r tr', level tr tr' → nonblocking fd tr' → Q r tr') → wp (net_set_nonblock fd) Q tr.
Proof.
  intros HQ. unfold net_set_nonblock. wp1. apply wp_quiet; [done |]. intros fl L1. destruct (Z.ltb_spec fl 0).
  - wp1. apply HQ; [done |]. exists fl. split; [apply elem_of_app; right; by left | lia].
  - apply wp_quiet; [done |]. intros r L2. apply HQ; [by etrans |]. exists fl.
    split; [apply elem_of_app; left; apply elem_of_app; right; by left |]. intros _. exists r. apply elem_of_app. right. by left.
Qed.

Lemma gains_level rc tr tr' tr'' : gains rc tr tr' → level tr' tr'' → gains rc tr tr''.
Proof. intros G L fd Hfd. rewrite L. by apply G. Qed.

Lemma level_gains rc tr tr' tr'' : level tr tr' → gains rc tr' tr'' → gains rc tr tr''.
Proof. intros L G fd Hfd. rewrite <- L. by apply G. Qed.

Lemma gains_none rc tr : rc < 0 → gains rc tr tr.
Proof. intros Hr fd Hfd. destruct (Z.eqb_spec rc fd); lia. Qed.

Lemma gains_open c fd tr : (∀ f, opens f (c, fd) = if fd =? f then 1 else 0) → gains fd tr (tr ++ [(c, fd)]).
Proof. intros Hc f _. by rewrite live_snoc, Hc. Qed.

Lemma gains_opened c fd tr tr' :
  level (tr ++ [(c, fd)]) tr' → (∀ f, opens f (c, fd) = if fd =? f then 1 else 0) → gains fd tr tr'.
Proof. intros L Hc. exact (gains_level _ _ _ _ (gains_open c fd tr Hc) L). Qed.

Lemma gains_close fd r tr tr' : gains fd tr tr' → 0 ≤ fd → gains (-1) tr (tr' ++ [(CLOSE fd, r)]).
Proof.
  intros G Hfd f Hf. rewrite live_snoc, (G f Hf). cbn. destruct (Z.eqb_spec fd f), (Z.eqb_spec (-1) f); lia.
Qed.

Lemma gains_trans rc tr tr' tr'' : gains (-1) tr tr' → gains rc tr' tr'' → gains rc tr tr''.
Proof. intros G1 G2 fd Hfd. rewrite (G2 fd Hfd), (G1 fd Hfd). destruct (Z.eqb_spec (-1) fd); lia. Qed.

(** A failed [socket] or [accept]. *)
Lemma gains_failed c fd tr :
  (∀ f, opens f (c, fd) = if fd =? f then 1 else 0) → fd < 0 → gains (-1) tr (tr ++ [(c, fd)]).
Proof. intros Hc Hfd f Hf. rewrite live_snoc, Hc. destruct (Z.eqb_spec fd f), (Z.eqb_spec (-1) f); lia. Qed.

(** The outcome of a dial: nothing, or one descriptor more, whose connect is the
    last call made, has succeeded or is under way, and cannot block. *)
Definition dialed (rc : Z) (tr tr' : trace) : Prop :=
  gains rc tr tr' ∧
  (0 ≤ rc → ∃ pre a r, tr' = pre ++ [(CONNECT rc a, r)] ∧ (r = 0 ∨ r = - EINPROGRESS) ∧ nonblocking rc pre).

(** The outcome of a listen: nothing, or one descriptor more, bound and
    listening, that does not block. *)
Definition listening (backlog rc : Z) (tr tr' : trace) : Prop :=
  gains rc tr tr' ∧
  (0 ≤ rc → (∃ a, (BIND rc a, 0) ∈ tr') ∧ (LISTEN rc backlog, 0) ∈ tr' ∧ nonblocking rc tr').

Lemma gains_neg rc tr tr' : rc < 0 → gains (-1) tr tr' → gains rc tr tr'.
Proof. intros Hr G fd Hfd. rewrite (G fd Hfd). destruct (Z.eqb_spec (-1) fd), (Z.eqb_spec rc fd); lia. Qed.

Lemma dialed_none rc tr tr' : rc < 0 → gains (-1) tr tr' → dialed rc tr tr'.
Proof. intros Hr G. split; [by apply gains_neg | lia]. Qed.

Lemma listening_none backlog rc tr tr' : rc < 0 → gains (-1) tr tr' → listening backlog rc tr tr'.
Proof. intros Hr G. split; [by apply gains_neg | lia]. Qed.

Lemma dialed_trans rc tr tr' tr'' : gains (-1) tr tr' → dialed rc tr' tr'' → dialed rc tr tr''.
Proof. intros G [G' D]. split; [exact (gains_trans _ _ _ _ G G') | exact D]. Qed.

Lemma listening_trans backlog rc tr tr' tr'' :
  gains (-1) tr tr' → listening backlog rc tr' tr'' → listening backlog rc tr tr''.
Proof. intros G [G' D]. split; [exact (gains_trans _ _ _ _ G G') | exact D]. Qed.

(** From [connect] on, for a descriptor that has been opened. *)
Lemma wp_connect fd sa tr0 tr (m : N Z) (Q : Z → trace → Prop) :
  gains fd tr0 tr → 0 ≤ fd → nonblocking fd tr →
  (∀ rc tr', dialed rc tr0 tr' → Q rc tr') →
  (∀ tr', gains (-1) tr0 tr' → wp m Q tr') →
  wp (r ← sys (CONNECT fd sa); if (r =? 0) || (r =? - EINPROGRESS) then mret fd else sys (CLOSE fd);; m) Q tr.
Proof.
  intros G Hfd Hn HQ Hm. wp1. apply wp_quiet; [done |]. intros r L.
  destruct ((r =? 0) || (r =? - EINPROGRESS)) eqn:E.
  - wp1. apply HQ. split; [exact (gains_level _ _ _ _ G L) |]. intros _. exists tr, sa, r. split_and!; [done | lia | done].
  - wp1. apply wp_sys. intros r'. apply Hm, gains_close; [exact (gains_level _ _ _ _ G L) | done].
Qed.

Lemma wp_dial_loop res tr (Q : Z → trace → Prop) :
  (∀ rc tr', dialed rc tr tr' → Q rc tr') → wp (dial_loop res) Q tr.
Proof.
  revert tr. induction res as [|ai res IH]; intros tr HQ; cbn [dial_loop].
  { wp1. apply HQ, dialed_none; [lia | by apply gains_none]. }
  wp1. apply wp_sys. intros fd. destruct (Z.ltb_spec fd 0) as [Hf|Hf].
  { apply IH. intros rc tr' D. apply HQ. eapply dialed_trans; [| exact D]. by apply gains_failed. }
  wp1. apply wp_set_nonblock. intros r1 tr1 L1 Hn. wp1. apply wp_quiet; [done |]. intros r2 L2.
  apply (wp_connect _ _ tr); [| done | by apply nonblocking_app | exact HQ |].
  - eapply gains_opened; [transitivity tr1; [exact L1 | exact L2] | done].
  - intros tr2 G. apply IH. intros rc tr' D. apply HQ. exact (dialed_trans _ _ _ _ G D).
Qed.

Lemma wp_dial_tcp host port tr (Q : Z → trace → Prop) :
  (∀ rc tr', dialed rc tr tr' → Q rc tr') → wp (net_dial host port) Q tr.
Proof.
  intros HQ. unfold net_dial, resolve. wp1. wp1. destruct (os_resolve _ _ _ _) as [res|]; [by apply wp_dial_loop |].
  wp1. apply HQ, dialed_none; [lia | by apply gains_none].
Qed.

Lemma wp_net_dial_unix path tr (Q : Z → trace → Prop) :
  (∀ rc tr', dialed rc tr tr' → Q rc tr') → wp (net_dial_unix path) Q tr.
Proof.
  intros HQ. assert (∀ tr', gains (-1) tr tr' → wp (mret (-1) : N Z) Q tr') as Hno.
  { intros tr' G. wp1. apply HQ, dialed_none; [lia | done]. }
  unfold net_dial_unix. destruct (unix_addr path) as [sa|]; [| by apply Hno, gains_none].
  wp1. apply wp_sys. intros fd. destruct (Z.ltb_spec fd 0); [by apply Hno, gains_failed |].
  wp1. apply wp_set_nonblock. intros r1 tr1 L1 Hn.
  apply (wp_connect _ _ tr); [| done | done | exact HQ | exact Hno].
  eapply gains_opened; [exact L1 | done].
Qed.

(** [net_parse_addr] stores both outputs when it returns 0. *)
Lemma net_parse_addr_ok s cap :
  match net_parse_addr s cap with
  | (0, h, p) => ∃ host port, h = Some host ∧ p = Some port ∧ 1 ≤ port ≤ 65535 ∧ (0 < cap → zlen host < cap)
  | (rc, h, p) => rc = -1 ∧ p = None
  end.
Proof.
  unfold net_parse_addr. destruct s as [s|]; [| done]. destruct (Z.eqb_spec cap 0); [done |].
  assert (∀ p, (p <=? 0) || (p >? 65535) = false → 1 ≤ u16 p ≤ 65535) as Hp.
  { intros p Hp. unfold u16. rewrite Z.mod_small; lia. }
  destruct (strrchr s COLON) as [[h rest]|].
  - destruct (Z.geb_spec (zlen h) cap); [done |]. destruct (_ || _) eqn:E; [done |]. exists h, (u16 (strtol rest)).
    split_and!; try done; by apply Hp.
  - destruct (_ || _) eqn:E; [done |]. exists [], (u16 (strtol s)). split_and!; try done; by apply Hp.
Qed.

Lemma wp_net_dial_addr addr tr (Q : Z → trace → Prop) :
  (∀ rc tr', dialed rc tr tr' → Q rc tr') → wp (net_dial_addr addr) Q tr.
Proof.
  intros HQ. unfold net_dial_addr. destruct (net_addr_is_unix addr); [by apply wp_net_dial_unix |].
  pose proof (net_parse_addr_ok addr 256) as Hp. destruct (net_parse_addr addr 256) as [[[|rc|rc] h] p].
  - destruct Hp as (host & port & -> & -> & _). by apply wp_dial_tcp.
  - by destruct Hp.
  - wp1. apply HQ, dialed_none; [lia | by apply gains_none].
Qed.

Lemma wp_listen_loop res backlog tr (Q : Z → trace → Prop) :
  (∀ rc tr', gains rc tr tr' → (0 ≤ rc → (∃ a, (BIND rc a, 0) ∈ tr') ∧ (LISTEN rc backlog, 0) ∈ tr') → Q rc tr') →
  wp (listen_loop res backlog) Q tr.
Proof.
  revert tr. induction res as [|ai res IH]; intros tr HQ; cbn [listen_loop].
  { wp1. apply HQ; [by apply gains_none | lia]. }
  wp1. apply wp_sys. intros fd. destruct (Z.ltb_spec fd 0) as [Hf|Hf].
  { apply IH. intros rc tr' G. apply HQ. eapply gains_trans; [| exact G]. by apply gains_failed. }
  wp1. apply wp_quiet; [done |]. intros r1 L1. wp1. apply wp_quiet; [done |]. intros r2 L2.
  wp1. apply wp_quiet; [done |]. intros b L3. set (tr3 := _ ++ [(BIND _ _, b)]) in *.
  assert (gains fd tr tr3) as G by (eapply gains_opened; [etrans; [exact L1 | etrans; [exact L2 | exact L3]] | done]).
  assert (∀ tr', gains fd tr tr' → wp (sys (CLOSE fd);; listen_loop res backlog) Q tr') as Hc.
  { intros tr' G'. wp1. apply wp_sys. intros r'. apply IH. intros rc tr'' G2. apply HQ.
    eapply gains_trans; [| exact G2]. by apply gains_close. }
  wp1. destruct (Z.eqb_spec b 0) as [->|Hb]; [| wp1; by apply Hc].
  wp1. apply wp_quiet; [done |]. intros l L4. wp1. pose proof (gains_level _ _ _ _ G L4) as G4.
  destruct (Z.eqb_spec l 0) as [->|Hl]; [| by apply Hc]. wp1. apply HQ; [exact G4 |]. intros _. split.
  - exists (SA_INET (ai_addr ai)). apply elem_of_app. left. apply elem_of_app. right. by left.
  - apply elem_of_app. right. by left.
Qed.

(** The descriptor is made non-blocking last. *)
Lemma wp_listen_done fd backlog tr0 tr (Q : Z → trace → Prop) :
  gains fd tr0 tr → (∃ a, (BIND fd a, 0) ∈ tr) → (LISTEN fd backlog, 0) ∈ tr →
  (∀ r tr', listening backlog fd tr0 tr' → Q r tr') →
  wp (net_set_nonblock fd) Q tr.
Proof.
  intros G Hb Hl HQ. unfold net_set_nonblock. wp1. apply wp_quiet; [done |]. intros fl L1. destruct (Z.ltb_spec fl 0).
  - wps. apply HQ. split; [exact (gains_level _ _ _ _ G L1) |]. intros _. destruct Hb as [a Ha]. split_and!.
    + exists a. apply elem_of_app. by left.
    + apply elem_of_app. by left.
    + exists fl. split; [apply elem_of_app; right; by left | lia].
  - apply wp_quiet; [done |]. intros r L2. apply HQ. split; [eapply gains_level; [exact G | etrans; [exact L1 | exact L2]] |].
    intros _. destruct Hb as [a Ha]. split_and!.
    + exists a. rewrite <- app_assoc. apply elem_of_app. by left.
    + rewrite <- app_assoc. apply elem_of_app. by left.
    + exists fl. split; [apply elem_of_app; left; apply elem_of_app; right; by left |].
      intros _. exists r. apply elem_of_app. right. by left.
Qed.

Lemma wp_net_listen host port backlog tr (Q : Z → trace → Prop) :
  (∀ rc tr', listening backlog rc tr tr' → Q rc tr') → wp (net_listen host port backlog) Q tr.
Proof.
  intros HQ. unfold net_listen, resolve. do 2 wp1. destruct (os_resolve _ _ _ _) as [res|].
  - wp1. apply wp_listen_loop. intros fd tr' G Hok. rewrite Z.geb_leb. destruct (Z.leb_spec 0 fd) as [Hf|Hf].
    + destruct (Hok Hf) as [Hb Hl]. do 2 wp1. eapply wp_listen_done; [exact G | exact Hb | exact Hl |].
      intros r tr'' L. wps. by apply HQ.
    + wps. apply HQ. split; [exact G | lia].
  - wp1. apply HQ, listening_none; [lia | by apply gains_none].
Qed.

Lemma wp_net_listen_unix path backlog tr (Q : Z → trace → Prop) :
  (∀ rc tr', listening backlog rc tr tr' → Q rc tr') → wp (net_listen_unix path backlog) Q tr.
Proof.
  intros HQ. assert (∀ tr', gains (-1) tr tr' → wp (mret (-1) : N Z) Q tr') as Hno.
  { intros tr' G. wp1. apply HQ, listening_none; [lia | done]. }
  unfold net_listen_unix. destruct (unix_addr path) as [sa|]; [| by apply Hno, gains_none].
  wp1. apply wp_sys. intros fd. destruct (Z.ltb_spec fd 0) as [Hf|Hf]; [by apply Hno, gains_failed |].
  wp1. apply wp_quiet; [done |]. intros r1 L1. wp1. apply wp_quiet; [done |]. intros b L2.
  set (tr2 := _ ++ [(BIND _ _, b)]) in *.
  assert (gains fd tr tr2) as G by (eapply gains_opened; [etrans; [exact L1 | exact L2] | done]).
  assert (∀ tr', gains fd tr tr' → wp (sys (CLOSE fd);; mret (-1)) Q tr') as Hc.
  { intros tr' G'. wp1. apply wp_sys. intros r'. apply Hno. by apply gains_close. }
  wp1. destruct (Z.eqb_spec b 0) as [->|Hb]; cbn [negb]; [| wp1; by apply Hc].
  wp1. apply wp_quiet; [done |]. intros l L4. wp1. pose proof (gains_level _ _ _ _ G L4) as G4.
  destruct (Z.eqb_spec l 0) as [->|Hl]; cbn [negb]; [| by apply Hc]. wp1. eapply wp_listen_done; [exact G4 | | |].
  - exists sa. apply elem_of_app. left. apply elem_of_app. right. by left.
  - apply elem_of_app. right. by left.
  - intros r tr' L. wp1. by apply HQ.
Qed.

Lemma wp_net_listen_addr addr backlog tr (Q : Z → trace → Prop) :
  (∀ rc tr', listening backlog rc tr tr' → Q rc tr') → wp (net_listen_addr addr backlog) Q tr.
Proof.
  intros HQ. unfold net_listen_addr. destruct (net_addr_is_unix addr); [by apply wp_net_listen_unix |].
  pose proof (net_parse_addr_ok addr 256) as Hp. destruct (net_parse_addr addr 256) as [[[|rc|rc] h] p].
  - destruct Hp as (host & port & -> & -> & _). by apply wp_net_listen.
  - by destruct Hp.
  - wp1. apply HQ, listening_none; [lia | by apply gains_none].
Qed.

Lemma wp_net_accept lfd cap tr (Q : Z * bytes → trace → Prop) :
  (∀ fd peer tr', gains fd tr tr' → Q (fd, peer) tr') → wp (net_accept lfd cap) Q tr.
Proof.
  intros HQ. unfold net_accept. wp1. apply wp_sys. intros fd. destruct (Z.ltb_spec fd 0) as [Hf|Hf].
  - wp1. apply HQ. apply gains_neg; [done |]. by apply gains_failed.
  - do 2 wp1. wp1. apply wp_set_nonblock. intros r1 tr1 L1 _. wp1. apply wp_quiet; [done |]. intros r2 L2. wp1. apply HQ.
    eapply gains_opened; [etrans; [exact L1 | exact L2] | done].
Qed.
End Rules.

(** ** Theorems *)

(** [net_dial_addr], whatever the resolver and the kernel answer, either
    returns -1 with every descriptor it opened closed again, or one descriptor
    more, made non-blocking before its connect, which was the last call and has
    succeeded or is in progress. *)
Theorem dial_contract `{OS} addr tr :
  ∃ rc tr', net_dial_addr addr tr = Some (rc, tr') ∧ dialed rc tr tr'.
Proof. apply wp_run, wp_net_dial_addr. auto. Qed.

(** [net_listen_addr] likewise: -1 and nothing left open, or one descriptor
    more, bound, listening with the backlog asked for, and non-blocking. *)
Theorem listen_contract `{OS} addr backlog tr :
  ∃ rc tr', net_listen_addr addr backlog tr = Some (rc, tr') ∧ listening backlog rc tr tr'.
Proof. apply wp_run, wp_net_listen_addr. auto. Qed.

(** Printing "host:port" and parsing it. *)
Lemma parse_print h port cap :
  zlen h < cap → 1 ≤ port ≤ 65535 →
  net_parse_addr (Some (h ++ COLON :: fmt_u port)) cap = (0, Some h, Some port).
Proof.
  intros Hh Hp. unfold net_parse_addr. pose proof (zlen_nonneg h). destruct (Z.eqb_spec cap 0); [lia |].
  rewrite strrchr_app by (apply numeral_colon, fmt_u_numeral; lia). destruct (Z.geb_spec (zlen h) cap); [lia |].
  rewrite <- (app_nil_r (fmt_u port)), strtol_fmt by (try done; unfold LONG_MAX; lia).
  destruct (_ || _) eqn:E; [lia |]. unfold u16. by rewrite Z.mod_small by lia.
Qed.

(** An address printed as "host:port" is read back: any host, colons
    included, that fits the buffer, and any port from 1 to 65535; what
    [net_dial_addr] then does is [net_dial] on exactly these, unless the host
    looks like a path. *)
Theorem addr_roundtrip `{OS} h port :
  zlen h < 256 → 1 ≤ port ≤ 65535 → net_addr_is_unix (Some (h ++ COLON :: fmt_u port)) = false →
  net_parse_addr (Some (h ++ COLON :: fmt_u port)) 256 = (0, Some h, Some port) ∧
  net_dial_addr (Some (h ++ COLON :: fmt_u port)) = net_dial (Some h) port.
Proof.
  intros Hh Hp Hu. pose proof (parse_print h port 256 Hh Hp) as E. split; [done |]. unfold net_dial_addr. by rewrite Hu, E.
Qed.

(** The number read is judged and stored. *)
Definition port_stored (h rest : bytes) (cap : Z) : Prop :=
  let good := (zlen h <? cap) && (1 <=? strtol rest) && (strtol rest <=? 65535) in
  let '(rc, h', p') := if (strtol rest <=? 0) || (strtol rest >? 65535) then (-1, Some h, None)
                       else (0, Some h, Some (u16 (strtol rest))) in
  rc = (if good then 0 else -1) ∧ p' = (if good then Some (strtol rest) else None) ∧
  (good = true → h' = Some h) ∧ zlen (vbytes h') < cap.

(** What [net_parse_addr] accepts: it returns 0 exactly when the text behind
    the last colon (all of it, without one) starts with a number from 1 to 65535
    and what precedes it fits the buffer; it then has stored that prefix and
    that number, so never more than [cap] bytes with the NUL; else it returns -1
    and no port. *)
Theorem parse_addr_spec s cap :
  0 < cap →
  let hr := default ([], s) (strrchr s COLON) in
  let good := (zlen hr.1 <? cap) && (1 <=? strtol hr.2) && (strtol hr.2 <=? 65535) in
  match net_parse_addr (Some s) cap with
  | (rc, h, p) => rc = (if good then 0 else -1) ∧ p = (if good then Some (strtol hr.2) else None) ∧
      (good = true → h = Some hr.1) ∧ zlen (vbytes h) < cap
  end.
Proof.
  intros Hc. cbn zeta. unfold net_parse_addr. destruct (Z.eqb_spec cap 0); [lia |].
  assert (zlen (vbytes None) < cap) as Hn by (change (0 < cap); lia).
  assert (∀ p, 1 ≤ p ≤ 65535 → u16 p = p) as Hu by (intros p Hp; unfold u16; by rewrite Z.mod_small by lia).
  assert (∀ h p, zlen h < cap → port_stored h p cap) as Hs.
  { intros h p Hh. unfold port_stored. destruct (Z.ltb_spec (zlen h) cap); [| lia]. cbn [andb].
    destruct (_ || _) eqn:E, (_ && _) eqn:E'; try lia; split_and!; try done. by rewrite Hu by lia. }
  destruct (strrchr s COLON) as [[h rest]|]; cbn [default id fst snd].
  - destruct (Z.geb_spec (zlen h) cap); [| apply (Hs h rest); lia]. destruct (Z.ltb_spec (zlen h) cap); [lia |]. by split_and!.
  - by apply (Hs []).
Qed.

(** ** Witnesses *)

(** An operating system that always answers the same. *)
Definition os_const (r : Z) : OS := {| os_sys _ _ := r; os_resolve _ _ _ _ := None; os_nameinfo _ := None |}.

Lemma addr_roundtrip_witness :
  zlen (cs "fe80::1") < 256 ∧
  net_parse_addr (Some (cs "fe80::1" ++ COLON :: fmt_u 5001)) 256 = (0, Some (cs "fe80::1"), Some 5001).
Proof.
  split; [vm_compute; reflexivity |].
  apply (@addr_roundtrip (os_const 0) (cs "fe80::1") 5001); [vm_compute; reflexivity | lia | vm_compute; reflexivity].
Defined.

Lemma parse_addr_spec_witness :
  (net_parse_addr (Some (cs "h:80x")) 256).1.1 = 0 ∧ (net_parse_addr (Some (cs "h:80x")) 256).2 = Some 80.
Proof.
  pose proof (parse_addr_spec (cs "h:80x") 256 ltac:(lia)) as H. cbv zeta in H.
  destruct (net_parse_addr (Some (cs "h:80x")) 256) as [[rc h] p]. destruct H as (H1 & H2 & _).
  split; [exact H1 | exact H2].
Defined.
