(* ===== verification/Daemon.v ===== *)
(** What the two daemons share: the process around the event loops.

    A daemon runs in the monad [N] of Net: its state is the history of its system
    calls.  [HOST] adds what else a process is given: signals ([ho_stop] is what
    [g_stop] reads as), the environment, and what happens to a relay that is
    started ([session_env]).  The loops of a daemon end only when it is told to,
    so each takes fuel, and [None] is a process that is still running: a theorem
    for every fuel is about every moment of a run. *)

From stdpp Require Import base list numbers gmap.
From Stdlib Require Import ZArith Lia.
From S2P Require Import Prelude Session Auth Host EvLoop Relay RelayInv RelaySys CString Net.

Definition POLLIN : Z := 1.
Definition POLLOUT : Z := 4.

(** What [relay_new] and [relay_run] meet: the bytes of [os_random], the heap,
    the descriptor of the event loop, the iterations until the relay ends or the
    moment of observation. *)
Record session_env := mk_session_env {
  se_rnd : bytes;
  se_heap : heap;
  se_epfd : Z;
  se_turns : list turn_env;
}.

Class HOST := {
  ho_os : OS;
  ho_stop : trace -> bool;
  ho_token : view;                  (* getenv("MUX_TOKEN") *)
  ho_stack : stack;
  ho_session : trace -> session_env;
}.
#[export] Existing Instance ho_os.

(** [relay_new(fd, o)], [relay_run], [relay_free]: [Some false] when there is no
    relay, [Some true] when it has ended and been freed. *)
Definition serve `{HOST} (fd : Z) (o : relay_opts) : N (option bool) :=
  e ← gets ho_session;
  match relay_new ho_stack (se_rnd e) [] (se_heap e) (se_epfd e) fd o with
  | None => mret (Some false)
  | Some r =>
      sys (ON_TUNNEL fd);;
      match relay_run ho_stack (se_turns e) r with
      | None => undef
      | Some (true, _) => mret None
      | Some (false, r) => match relay_free r with None => undef | Some _ => mret (Some true) end
      end
  end.

(** ** Traces the system can answer *)

Section Made.
Context `{OS}.

(** The answers in [tr] are the system's. *)
Inductive made : trace → Prop :=
  | made_nil : made []
  | made_snoc tr c : made tr → made (tr ++ [(c, os_sys tr c)]).

(** A descriptor the system hands out is not in use. *)
Definition fresh_fds : Prop :=
  ∀ tr c fd, opens fd (c, fd) = 1 → os_sys tr c = fd → 0 ≤ fd → live fd tr = 0.

Lemma opens_le fd c r : opens fd (c, r) ≤ 0 ∨ r = fd ∧ opens fd (c, fd) = 1.
Proof.
  destruct c; cbn; try (left; lia); try (destruct (Z.eqb_spec r fd); [right; by rewrite Z.eqb_refl | left; lia]).
  left. destruct (_ =? _); lia.
Qed.

Lemma made_live tr fd : fresh_fds → made tr → 0 ≤ fd → live fd tr ≤ 1.
Proof.
  intros Hf Ht Hfd. induction Ht as [|tr c Ht IH]; [cbn; lia |]. rewrite live_snoc.
  destruct (opens_le fd c (os_sys tr c)) as [|[E E1]]; [lia |]. pose proof (Hf tr c fd E1 E Hfd). rewrite E, E1. lia.
Qed.

(** Operations that do nothing but make calls in [P]. *)
Definition calls (P : syscall → Prop) {A} (m : N A) : Prop :=
  ∀ tr a tr', m tr = Some (a, tr') → (∃ l, tr' = tr ++ l ∧ ∀ e, e ∈ l → P e.1) ∧ (made tr → made tr').

Context (P : syscall → Prop).

Lemma calls_pure tr tr' : tr' = tr → (∃ l, tr' = tr ++ l ∧ ∀ e, e ∈ l → P e.1) ∧ (made tr → made tr').
Proof. intros ->. split; [| done]. exists []. split; [by rewrite app_nil_r | by intros e He%elem_of_nil]. Qed.

Lemma calls_ret {A} (a : A) : calls P (mret a).
Proof. intros tr a' tr' [= <- <-]. by apply calls_pure. Qed.

Lemma calls_undef {A} : calls P (undef : N A).
Proof. by intros tr a tr'. Qed.

Lemma calls_gets {A} (f : trace → A) : calls P (gets f).
Proof. intros tr a' tr' [= <- <-]. by apply calls_pure. Qed.

Lemma calls_sys c : P c → calls P (sys c).
Proof.
  intros Hc tr a tr' [= <- <-]. split; [| apply made_snoc]. eexists. split; [done |]. by intros e ->%list_elem_of_singleton.
Qed.

Lemma calls_bind {A B} (m : N A) (f : A → N B) : calls P m → (∀ a, calls P (f a)) → calls P (m ≫= f).
Proof.
  intros Hm Hf tr b tr' (a & tr1 & E1 & E2)%bind_inv.
  destruct (Hm _ _ _ E1) as [(l1 & -> & P1) M1], (Hf _ _ _ _ E2) as [(l2 & -> & P2) M2].
  split; [| auto]. exists (l1 ++ l2). split; [by rewrite app_assoc |]. intros e [He|He]%elem_of_app; auto.
Qed.

Lemma calls_mono {A} (m : N A) (P' : syscall → Prop) : calls P' m → (∀ c, P' c → P c) → calls P m.
Proof. intros Hm HP tr a tr' E. destruct (Hm _ _ _ E) as [(l & -> & Hl) M]. split; [exists l; auto | done]. Qed.

Lemma wp_calls {A} (m : N A) (Q : A → trace → Prop) tr :
  calls P m → wp m (fun a tr' => (∃ l, tr' = tr ++ l ∧ ∀ e, e ∈ l → P e.1) → Q a tr') tr → wp m Q tr.
Proof.
  intros Hm (a & tr' & E & HQ)%wp_run. apply wp_run. exists a, tr'. split; [done |]. by eapply HQ, Hm.
Qed.

Lemma wp_grows {A} (m : N A) (Q : A → trace → Prop) tr :
  made tr → calls P m → wp m (fun a tr' => made tr' → Q a tr') tr → wp m Q tr.
Proof.
  intros Ht Hm (a & tr' & E & HQ)%wp_run. apply wp_run. exists a, tr'. split; [done |]. by eapply HQ, Hm.
Qed.
End Made.

(** Every branch of an operation. *)
Ltac grow :=
  repeat lazymatch goal with
  | |- calls _ (_ ≫= _) => apply calls_bind; [| intros]
  | |- calls _ (mret _) => apply calls_ret
  | |- calls _ (sys _) => apply calls_sys
  | |- calls _ (gets _) => apply calls_gets
  | |- calls _ undef => apply calls_undef
  | |- calls _ (if ?b then _ else _) => destruct b
  | |- calls _ (match ?x with _ => _ end) => destruct x
  | |- calls _ (let '_ := ?x in _) => destruct x
  end; try done.

(** Calls of any kind, and calls that start no relay. *)
Abbreviation any_call := (fun _ : syscall => True).
Definition off_tunnel (c : syscall) : Prop := match c with ON_TUNNEL _ => False | _ => True end.

Section Growth.
Context `{OS}.

Lemma calls_any {A} (m : N A) : calls off_tunnel m → calls any_call m.
Proof. intros Hm. by eapply calls_mono. Qed.

Lemma calls_set_nonblock fd : calls off_tunnel (net_set_nonblock fd).
Proof. unfold net_set_nonblock. grow. Qed.

Lemma calls_accept lfd cap : calls off_tunnel (net_accept lfd cap).
Proof. unfold net_accept, net_set_nodelay. grow. apply calls_set_nonblock. Qed.

Lemma calls_listen host port backlog : calls off_tunnel (net_listen host port backlog).
Proof.
  unfold net_listen, resolve. grow; [| apply calls_set_nonblock].
  match goal with |- calls _ (listen_loop ?l _) => induction l as [|ai l IH]; cbn [listen_loop]; grow end.
Qed.

Lemma calls_keepalive fd idle intvl cnt : calls off_tunnel (net_set_keepalive fd idle intvl cnt).
Proof. unfold net_set_keepalive. grow. Qed.

Lemma calls_dial host port : calls off_tunnel (net_dial host port).
Proof.
  unfold net_dial, resolve. grow.
  match goal with |- calls _ (dial_loop ?l) => induction l as [|ai l IH]; cbn [dial_loop]; unfold net_set_nodelay; grow end;
    apply calls_set_nonblock.
Qed.
End Growth.

(** ** Serving a tunnel *)

Section Serve.
Context `{HOST}.

Lemma calls_serve fd o : calls any_call (serve fd o).
Proof. unfold serve. grow. Qed.

(** What [relay_new] makes runs and is freed without a fault. *)
Lemma relay_runs rnd hs epfd fd o ts r :
  relay_new ho_stack rnd [] hs epfd fd o = Some r → one_mode o → fd ≠ ro_public_listen_fd o →
  wp (relay_run ho_stack ts) (fun _ r' => wp relay_free (fun _ _ => True) r') r.
Proof.
  intros E Hm Hne. assert (r_opt r = o ∧ r_tunnel_fd r = fd) as [Eo Ef].
  { revert E. unfold relay_new. cbn [alloc negb]. destruct (relay_config ho_stack rnd o) as [[cfg nonce] proof].
    intros (s & _ & E)%bind_Some. destruct (epfd <? 0); [done |]. by injection E as <-. }
  assert (starts ho_stack r) as Hs by (split; [by exists rnd, hs, epfd, fd, o | by rewrite Eo | by rewrite Eo, Ef]).
  unfold relay_run. wp1. eapply wp_run_start; [exact Hs |]. intros r1 H1. eapply wp_run_turns; [exact H1 |].
  intros go r2 H2. unfold relay_free. wps. unfold id. eapply wp_destroy_all; [exact H2 | | done].
  intros i Hi%elem_of_seqZ. lia.
Qed.

(** How often [fd] has carried a relay. *)
Definition served (fd : Z) (tr : trace) : Z :=
  foldr (fun e n => match e with (ON_TUNNEL f, _) => (if f =? fd then 1 else 0) + n | _ => n end) 0 tr.

Lemma wp_serve fd o tr (Q : option bool → trace → Prop) :
  one_mode o → fd ≠ ro_public_listen_fd o →
  Q (Some false) tr →
  (∀ out r, out ≠ Some false → Q out (tr ++ [(ON_TUNNEL fd, r)])) →
  wp (serve fd o) Q tr.
Proof.
  intros Hm Hne H0 H1. unfold serve. wp1. wp1. set (e := ho_session tr).
  destruct (relay_new _ _ _ _ _ _ _) as [r|] eqn:E; [| by wp1]. wp1. apply wp_sys. intros rc.
  pose proof (relay_runs _ _ _ _ _ (se_turns e) _ E Hm Hne) as (go & r1 & -> & Hw)%wp_run.
  destruct go; [wp1; by apply H1 |]. apply wp_run in Hw as ([] & r2 & -> & _). wp1. by apply H1.
Qed.
End Serve.
