(* ===== verification/EdgeMain.v ===== *)
(** The edge daemon, edge/main.c: its arguments, a worker process that serves one
    uplink after the other ([run_edge_proc]), and the supervisor of several.
    Log output, signal set-up and the raised descriptor limit, which is only
    logged, have no counterpart. *)

From Stdlib Require Import ZArith Lia String Ascii.
From stdpp Require Import base list numbers.
From S2P Require Import Prelude Session Auth Host EvLoop Relay RelayInv RelaySys CString Net Daemon.

Open Scope string_scope.
Open Scope list_scope.
Open Scope Z_scope.

(** ** A worker *)

Record edge_cfg := mk_edge_cfg {
  ed_accept_port : Z;
  ed_weight : Z;
  ed_heartbeat : Z;
  ed_max_streams : Z;
  ed_token : view;
  ed_peer_id : view;
}.

Section Worker.
Context `{HOST}.

(** [None]: still waiting. *)
Fixpoint accept_uplink (fuel : nat) (mux_fd : Z) : N (option Z) :=
  match fuel with
  | O => mret None
  | S fuel =>
      stop ← gets ho_stop;
      if stop : bool then mret (Some (-1)) else
      rc ← sys (POLL mux_fd POLLIN 500);
      if rc <? 0 then (if rc =? - EINTR then accept_uplink fuel mux_fd else mret (Some (-1))) else
      if rc =? 0 then accept_uplink fuel mux_fd else
      '(fd, _) ← net_accept mux_fd 128;
      if fd >=? 0 then mret (Some fd) else accept_uplink fuel mux_fd
  end.

(** [opts] *)
Definition uplink_opts (c : edge_cfg) (public_fd : Z) : relay_opts :=
  mk_relay_opts MUX_ACCEPTOR (ed_token c) (ed_peer_id c) (u32 (ed_weight c)) 0 0 (u32 (ed_heartbeat c))
    public_fd (to_i32 (ed_max_streams c)) None.

(** [while (!g_stop)] of [run_edge_proc]; [wait] is the fuel of each
    [accept_uplink]. *)
Fixpoint uplink_loop (fuel wait : nat) (c : edge_cfg) (public_fd mux_fd : Z) : N (option unit) :=
  match fuel with
  | O => mret None
  | S fuel =>
      stop ← gets ho_stop;
      if stop : bool then mret (Some tt) else
      uplink ← accept_uplink wait mux_fd;
      match uplink with
      | None => mret None
      | Some uplink =>
          if uplink <? 0 then mret (Some tt) else
          net_set_keepalive uplink 8 3 2;;
          out ← serve uplink (uplink_opts c public_fd);
          match out with
          | None => mret None
          | Some _ => sys (CLOSE uplink);; uplink_loop fuel wait c public_fd mux_fd
          end
      end
  end.

(** The exit code, [None] while it runs. *)
Definition run_edge_proc (fuel wait : nat) (c : edge_cfg) (mux_port : Z) : N (option Z) :=
  public_fd ← net_listen None (u16 (ed_accept_port c)) 65535;
  if public_fd <? 0 then mret (Some 1) else
  mux_fd ← net_listen None (u16 mux_port) 16;
  if mux_fd <? 0 then mret (Some 1) else
  out ← uplink_loop fuel wait c public_fd mux_fd;
  match out with
  | None => mret None
  | Some _ => sys (CLOSE public_fd);; sys (CLOSE mux_fd);; mret (Some 0)
  end.

(** ** The supervisor *)

Definition SIGTERM : Z := 15.

(** The forks from worker [i] on; [inr i] in the child that is worker [i],
    [inl kids] in the parent, the array of [procs] entries zeroed at first. *)
Fixpoint fork_loop (n : nat) (i : Z) (kids : list Z) : N (list Z + Z) :=
  match n with
  | O => mret (inl kids)
  | S n =>
      pid ← sys FORK;
      if pid =? 0 then mret (inr i) else
      if pid <? 0 then mret (inl kids) else
      fork_loop n (i + 1) (<[Z.to_nat i := pid]> kids)
  end.

(** Wait for a worker to exit or a signal: [None] while waiting. *)
Fixpoint wait_loop (fuel : nat) : N (option unit) :=
  match fuel with
  | O => mret None
  | S fuel =>
      stop ← gets ho_stop;
      if stop : bool then mret (Some tt) else
      w ← sys (WAITPID (-1));
      if w >? 0 then mret (Some tt) else
      if (w <? 0) && (w =? - EINTR) then wait_loop fuel else
      if w <? 0 then mret (Some tt) else wait_loop fuel
  end.

Fixpoint each_kid (f : Z -> N Z) (kids : list Z) : N unit :=
  match kids with
  | [] => mret tt
  | pid :: kids => (if pid >? 0 then f pid;; mret tt else mret tt);; each_kid f kids
  end.

Definition run_supervisor (fuel wait : nat) (calloc_ok : bool) (c : edge_cfg) (mux_base procs : Z) : N (option Z) :=
  if negb calloc_ok then mret (Some 1) else
  forked ← fork_loop (Z.to_nat procs) 0 (replicate (Z.to_nat procs) 0);
  match forked with
  | inr i => run_edge_proc fuel wait c (mux_base + i)
  | inl kids =>
      out ← wait_loop fuel;
      match out with
      | None => mret None
      | Some _ =>
          each_kid (fun pid => sys (KILL pid SIGTERM)) kids;;
          each_kid (fun pid => sys (WAITPID pid)) kids;;
          mret (Some 0)
      end
  end.

(** ** Arguments *)

Record edge_args := mk_edge_args {
  ea_accept_port : Z;
  ea_mux_port : Z;
  ea_weight : Z;
  ea_heartbeat : Z;
  ea_procs : Z;
  ea_max_streams : Z;
  ea_token : view;
  ea_peer_id : view;
}.

Definition edge_defaults : edge_args := mk_edge_args 0 0 1 0 1 8000 None (Some (cs "edge")).

(** [strcmp(arg, lit) == 0] *)
Definition streq (arg : bytes) (lit : string) : bool := bool_decide (arg = cs lit).

(** An option that takes a value. *)
Definition edge_option (arg v : bytes) (a : edge_args) : option edge_args :=
  let '(mk_edge_args ap mp w hb pr ms tk id) := a in
  if streq arg "--accept-port" then Some (mk_edge_args (strtol v) mp w hb pr ms tk id)
  else if streq arg "--mux-port" then Some (mk_edge_args ap (strtol v) w hb pr ms tk id)
  else if streq arg "--procs" then Some (mk_edge_args ap mp w hb (strtol v) ms tk id)
  else if streq arg "--token" then Some (mk_edge_args ap mp w hb pr ms (Some v) id)
  else if streq arg "--peer-id" then Some (mk_edge_args ap mp w hb pr ms tk (Some v))
  else if streq arg "--weight" then Some (mk_edge_args ap mp (strtol v) hb pr ms tk id)
  else if streq arg "--heartbeat" then Some (mk_edge_args ap mp w (strtol v) pr ms tk id)
  else if streq arg "--max-streams" then Some (mk_edge_args ap mp w hb pr (strtol v) tk id)
  else None.

(** An argument that is none of these, or has no value: the exit code. *)
Definition usage_code (arg : bytes) : Z := if streq arg "-h" || streq arg "--help" then 0 else 2.

Fixpoint edge_parse (argv : list bytes) (a : edge_args) : Z + edge_args :=
  match argv with
  | [] => inr a
  | arg :: v :: rest =>
      match edge_option arg v a with
      | Some a => edge_parse rest a
      | None => inl (usage_code arg)
      end
  | arg :: [] => inl (usage_code arg)
  end.

(** [mux_port + procs - 1] in [long]: [None] is signed overflow. *)
Definition last_port (mux_port procs : Z) : option Z :=
  if mux_port + procs >? LONG_MAX then None else Some (mux_port + procs - 1).

(** [main] up to the start of the process(es): the exit code, or the
    configuration, the first uplink port and the number of workers. *)
Definition edge_config (argv : list bytes) : option (Z + edge_cfg * Z * Z) :=
  match edge_parse argv edge_defaults with
  | inl code => Some (inl code)
  | inr a =>
      if (ea_accept_port a <=? 0) || (ea_accept_port a >? 65535) || (ea_mux_port a <=? 0) || (ea_mux_port a >? 65535)
      then Some (inl 2) else
      let procs := if ea_procs a <? 1 then 1 else ea_procs a in
      last ← last_port (ea_mux_port a) procs;
      if last >? 65535 then Some (inl 2) else
      let token := match ea_token a with None => ho_token | t => t end in
      Some (inr (mk_edge_cfg (ea_accept_port a) (ea_weight a) (ea_heartbeat a) (ea_max_streams a) token (ea_peer_id a),
                 ea_mux_port a, procs))
  end.

Definition edge_main (fuel wait : nat) (calloc_ok : bool) (argv : list bytes) : N (option Z) :=
  match edge_config argv with
  | None => undef
  | Some (inl code) => mret (Some code)
  | Some (inr (c, mux_port, procs)) =>
      if procs >? 1 then run_supervisor fuel wait calloc_ok c mux_port procs
      else run_edge_proc fuel wait c mux_port
  end.
End Worker.

(** ** The worker's descriptors *)

Definition one_if (b : bool) : Z := if b then 1 else 0.

(** The descriptors in use are the two listeners and the uplink, where these are
    descriptors. *)
Definition holds (public_fd mux_fd uplink : Z) (tr : trace) : Prop :=
  ∀ fd, 0 ≤ fd → live fd tr = one_if (public_fd =? fd) + one_if (mux_fd =? fd) + one_if (uplink =? fd).

Section WorkerProofs.
Context `{HOST}.
Context (Hfresh : fresh_fds).
Implicit Types (tr : trace).

Lemma holds_level p m u tr tr' : holds p m u tr → level tr tr' → holds p m u tr'.
Proof. intros Hh L fd Hfd. rewrite L. by apply Hh. Qed.

Lemma holds_gains p m fd tr tr' : holds p m (-1) tr → gains fd tr tr' → holds p m fd tr'.
Proof.
  intros Hh G f Hf. rewrite (G f Hf), (Hh f Hf). unfold one_if. destruct (Z.eqb_spec (-1) f); [lia |]. destruct (_ =? f); lia.
Qed.

Lemma holds_close p m u r tr : holds p m u tr → 0 ≤ u → holds p m (-1) (tr ++ [(CLOSE u, r)]).
Proof.
  intros Hh Hu f Hf. rewrite live_snoc, (Hh f Hf). unfold one_if. cbn.
  destruct (Z.eqb_spec u f), (Z.eqb_spec (-1) f); lia.
Qed.

Lemma holds_neg p m u tr : holds p m u tr → u < 0 → holds p m (-1) tr.
Proof. intros Hh Hu f Hf. rewrite (Hh f Hf). unfold one_if. destruct (Z.eqb_spec u f), (Z.eqb_spec (-1) f); lia. Qed.

Lemma calls_accept_uplink fuel fd : calls any_call (accept_uplink fuel fd).
Proof. induction fuel as [|fuel IH]; cbn [accept_uplink]; grow. apply calls_any, calls_accept. Qed.

Lemma wp_accept_uplink fuel m tr (Q : option Z → trace → Prop) :
  (∀ up tr', gains (default (-1) up) tr tr' → Q up tr') → wp (accept_uplink fuel m) Q tr.
Proof.
  revert tr. induction fuel as [|fuel IH]; intros tr HQ; cbn [accept_uplink]; [wps; apply HQ; by apply gains_none |].
  wp1. wp1. destruct (ho_stop tr); [wps; apply HQ; by apply gains_none |].
  wp1. apply wp_quiet; [done |]. intros rc L.
  assert (wp (accept_uplink fuel m) Q (tr ++ [(POLL m POLLIN 500, rc)])) as Hk.
  { apply IH. intros up tr' G. apply HQ. by eapply level_gains. }
  destruct (rc <? 0).
  - destruct (rc =? - EINTR); [done |]. wps. apply HQ. eapply level_gains; [exact L | by apply gains_none].
  - destruct (rc =? 0); [done |]. wp1. apply wp_net_accept. intros fd peer tr' G. rewrite Z.geb_leb.
    pose proof (level_gains _ _ _ _ L G) as G'. destruct (Z.leb_spec 0 fd); [wps; by apply HQ |].
    apply IH. intros up tr'' G2. apply HQ. eapply gains_trans; [| exact G2].
    intros f Hf. rewrite (G' f Hf). destruct (Z.eqb_spec fd f), (Z.eqb_spec (-1) f); lia.
Qed.

Lemma wp_keepalive fd a b c tr (Q : Z → trace → Prop) :
  (∀ r tr', level tr tr' → Q r tr') → wp (net_set_keepalive fd a b c) Q tr.
Proof.
  intros HQ. unfold net_set_keepalive. wp1. apply wp_quiet; [done |]. intros r1 L1. destruct (r1 <? 0); [wps; by apply HQ |].
  wp1. apply wp_quiet; [done |]. intros r2 L2. wp1. apply wp_quiet; [done |]. intros r3 L3.
  wp1. apply wp_quiet; [done |]. intros r4 L4. wp1. apply HQ. etrans; [exact L1 | etrans; [exact L2 | etrans; [exact L3 | exact L4]]].
Qed.

(** Two descriptors in use at once are different. *)
Lemma holds_apart p m u tr : made tr → holds p m u tr → 0 ≤ u → u ≠ p.
Proof.
  intros Ht Hh Hu ->. pose proof (made_live tr p Hfresh Ht Hu) as Hl. rewrite (Hh p Hu) in Hl. unfold one_if in Hl.
  rewrite Z.eqb_refl in Hl. destruct (m =? p); lia.
Qed.

Lemma wp_uplink_loop fuel wait c p m tr (Q : option unit → trace → Prop) :
  made tr → holds p m (-1) tr →
  (∀ tr', holds p m (-1) tr' → Q (Some tt) tr') → (∀ u tr', holds p m u tr' → Q None tr') →
  wp (uplink_loop fuel wait c p m) Q tr.
Proof.
  revert tr. induction fuel as [|fuel IH]; intros tr Ht Hh HQ HN; cbn [uplink_loop]; [wps; by eapply HN |].
  wp1. wp1. destruct (ho_stop tr); [wps; by apply HQ |].
  wp1. eapply wp_grows; [done | apply calls_accept_uplink |]. apply wp_accept_uplink. intros up tr1 G Ht1.
  pose proof (holds_gains _ _ _ _ _ Hh G) as H1. destruct up as [u|]; cbn [default] in *; [| wps; by eapply HN].
  destruct (Z.ltb_spec u 0) as [Hu|Hu]; [wps; apply HQ; by eapply holds_neg |].
  wp1. eapply wp_grows; [done | apply calls_any, calls_keepalive |]. apply wp_keepalive. intros r2 tr2 L2 Ht2.
  pose proof (holds_level _ _ _ _ _ H1 L2) as H2. pose proof (holds_apart _ _ _ _ Ht2 H2 Hu) as Hne.
  wp1. eapply wp_grows; [done | apply calls_serve |]. apply wp_serve; [done | done | |].
  - intros Ht3. wp1. eapply wp_grows; [done | by apply (calls_sys any_call) |]. apply wp_sys. intros r3 Ht4. apply IH; [done | | done | done].
    by apply holds_close.
  - intros out r3 Ho Ht3. set (tr3 := tr2 ++ _) in *.
    assert (holds p m u tr3) as H3 by (eapply holds_level; [exact H2 | by apply level_quiet]).
    destruct out as [b|]; [| wps; by eapply HN].
    wp1. eapply wp_grows; [done | by apply (calls_sys any_call) |]. apply wp_sys. intros r4 Ht4. apply IH; [done | | done | done].
    by apply holds_close.
Qed.

Lemma calls_run_edge_proc fuel wait c mux_port : calls any_call (run_edge_proc fuel wait c mux_port).
Proof.
  unfold run_edge_proc. grow; try apply calls_any, calls_listen.
  match goal with |- calls _ (uplink_loop _ _ _ ?p ?m) => revert p m end.
  induction fuel as [|fuel IH]; intros p m; cbn [uplink_loop]; grow;
    [apply calls_accept_uplink | apply calls_any, calls_keepalive | apply calls_serve].
Qed.

(** What a process may end or be observed with. *)
Definition accounted (out : option Z) tr : Prop :=
  match out with
  | None => ∃ p m u, holds p m u tr
  | Some code =>
      (code = 0 ∨ code = 2) ∧ (∀ fd, 0 ≤ fd → live fd tr = 0) ∨ code = 1 ∧ ∃ p, holds p (-1) (-1) tr
  end.

Lemma holds_none tr : holds (-1) (-1) (-1) tr ↔ ∀ fd, 0 ≤ fd → live fd tr = 0.
Proof.
  split; intros Hh fd Hfd; specialize (Hh fd Hfd); unfold one_if in *; destruct (Z.eqb_spec (-1) fd); lia.
Qed.

Lemma wp_run_edge_proc fuel wait c mux_port tr (Q : option Z → trace → Prop) :
  made tr → holds (-1) (-1) (-1) tr → (∀ out tr', accounted out tr' → Q out tr') →
  wp (run_edge_proc fuel wait c mux_port) Q tr.
Proof.
  intros Ht H0 HQ. unfold run_edge_proc.
  wp1. eapply wp_grows; [done | apply calls_any, calls_listen |]. apply wp_net_listen. intros p tr1 [G1 _] Ht1.
  pose proof (holds_gains _ _ _ _ _ H0 G1) as H1. destruct (Z.ltb_spec p 0) as [Hp|Hp].
  { wps. apply HQ. right. split; [done |]. exists (-1). by eapply holds_neg. }
  assert (holds p (-1) (-1) tr1) as H1' by (intros fd Hfd; rewrite (H1 fd Hfd); lia).
  wp1. eapply wp_grows; [done | apply calls_any, calls_listen |]. apply wp_net_listen. intros m tr2 [G2 _] Ht2.
  pose proof (holds_gains _ _ _ _ _ H1' G2) as H2. destruct (Z.ltb_spec m 0) as [Hm|Hm].
  { wps. apply HQ. right. split; [done |]. exists p. by eapply holds_neg. }
  assert (holds p m (-1) tr2) as H2' by (intros fd Hfd; rewrite (H2 fd Hfd); lia).
  wp1. apply wp_uplink_loop; [done | done | |].
  - intros tr3 H3. wp1. apply wp_sys. intros r4. wp1. apply wp_sys. intros r5. wps. apply HQ. left. split; [by left |].
    intros fd Hfd. rewrite !live_snoc, (H3 fd Hfd). unfold one_if. cbn.
    destruct (Z.eqb_spec p fd), (Z.eqb_spec m fd), (Z.eqb_spec (-1) fd); lia.
  - intros u tr3 H3. wps. apply HQ. by exists p, m, u.
Qed.

(** ** The supervisor's children *)

Lemma wp_fork_loop n i kids tr (Q : list Z + Z → trace → Prop) :
  0 ≤ i → Z.of_nat (length kids) = i + Z.of_nat n → (∀ pid, 0 < pid → (FORK, pid) ∈ tr → pid ∈ take (Z.to_nat i) kids) →
  (∀ j tr', (FORK, 0) ∈ tr' → level tr tr' → Q (inr j) tr') →
  (∀ kids' tr', (∀ pid, 0 < pid → (FORK, pid) ∈ tr' → pid ∈ kids') → level tr tr' → Q (inl kids') tr') →
  wp (fork_loop n i kids) Q tr.
Proof.
  revert i kids tr. induction n as [|n IH]; intros i kids tr Hi Hl Hk HR HL; cbn [fork_loop].
  { wps. apply HL; [| done]. intros pid H0 Hp%Hk; [| done]. by apply elem_of_take in Hp as (j & Hj%list_elem_of_lookup_2 & _). }
  wp1. apply wp_quiet; [done |]. intros pid L. destruct (Z.eqb_spec pid 0) as [->|Hn].
  { wps. apply HR; [apply elem_of_app; right; by left | done]. }
  assert (∀ q, 0 < q → (FORK, q) ∈ tr ++ [(FORK, pid)] → q = pid ∨ q ∈ take (Z.to_nat i) kids) as Hq.
  { intros q Hq0 [Hq|Hq%list_elem_of_singleton]%elem_of_app; [right; by apply Hk | left; congruence]. }
  destruct (Z.ltb_spec pid 0) as [Hneg|Hpos].
  { wps. apply HL; [| done]. intros q Hq0 [->|Hin]%Hq; [lia | | done]. by apply elem_of_take in Hin as (j & Hj%list_elem_of_lookup_2 & _). }
  apply IH; [lia | rewrite length_insert; lia | | |].
  - intros q Hq0 Hin. replace (Z.to_nat (i + 1)) with (S (Z.to_nat i)) by lia.
    erewrite take_S_r by (apply list_lookup_insert_eq; lia). rewrite take_insert_ge by done. apply elem_of_app.
    destruct (Hq q Hq0 Hin) as [->|Hin']; [right; by left | by left].
  - intros j tr' Hc L'. apply HR; [done | by transitivity (tr ++ [(FORK, pid)])].
  - intros kids' tr' Hc L'. apply HL; [done | by transitivity (tr ++ [(FORK, pid)])].
Qed.

Lemma wp_wait_loop fuel tr (Q : option unit → trace → Prop) :
  (∀ out l, (∀ e, e ∈ l → ∃ w, e = (WAITPID (-1), w)) → Q out (tr ++ l)) → wp (wait_loop fuel) Q tr.
Proof.
  revert tr. induction fuel as [|fuel IH]; intros tr HQ; cbn [wait_loop].
  { wps. rewrite <- (app_nil_r tr). apply HQ. by intros e He%elem_of_nil. }
  wp1. wp1. destruct (ho_stop tr). { wps. rewrite <- (app_nil_r tr). apply HQ. by intros e He%elem_of_nil. }
  wp1. apply wp_sys. intros w.
  assert (∀ out, Q out (tr ++ [(WAITPID (-1), w)])) as H1.
  { intros out. apply HQ. intros e ->%list_elem_of_singleton. by exists w. }
  assert (wp (wait_loop fuel) Q (tr ++ [(WAITPID (-1), w)])) as H2.
  { apply IH. intros out l Hl. rewrite <- app_assoc. apply HQ. intros e [He%list_elem_of_singleton|He]%elem_of_app; [subst e; by exists w | by apply Hl]. }
  destruct (w >? 0); [wps; by apply H1 |]. destruct (_ && _); [done |]. destruct (w <? 0); [wps; by apply H1 | done].
Qed.

Lemma wp_each_kid (g : Z → syscall) kids tr (Q : unit → trace → Prop) :
  (∀ pid r fd, opens fd (g pid, r) = 0) →
  (∀ tr', (∀ e, e ∈ tr → e ∈ tr') → (∀ e, e ∈ tr' → e ∈ tr ∨ ∃ pid, e.1 = g pid) → level tr tr' →
     (∀ pid, 0 < pid → pid ∈ kids → ∃ r, (g pid, r) ∈ tr') → Q tt tr') →
  wp (each_kid (fun pid => sys (g pid)) kids) Q tr.
Proof.
  intros Hg. revert tr. induction kids as [|pid kids IH]; intros tr HQ; cbn [each_kid].
  { wps. apply HQ; [done | by left | done | by intros pid _ He%elem_of_nil]. }
  wp1. destruct (Z.gtb_spec pid 0) as [Hp|Hp].
  - wp1. apply wp_quiet; [by intros; apply Hg |]. intros r L. wps. apply IH. intros tr' Hs Hb L' Hk. apply HQ.
    + intros e He. apply Hs, elem_of_app. by left.
    + intros e He. destruct (Hb e He) as [He'|He']; [| by right]. apply elem_of_app in He' as [He'|He']; [by left |].
      apply list_elem_of_singleton in He' as ->. right. by exists pid.
    + etrans; [exact L | exact L'].
    + intros q Hq [->|Hin]%elem_of_cons; [| by apply Hk]. exists r. apply Hs, elem_of_app. right. by left.
  - wps. apply IH. intros tr' Hs Hb L' Hk. apply HQ; [done | done | done |].
    intros q Hq [->|Hin]%elem_of_cons; [lia | by apply Hk].
Qed.

(** Every child in the trace has been sent SIGTERM and waited for. *)
Definition reaped tr : Prop :=
  ∀ pid, 0 < pid → (FORK, pid) ∈ tr → (∃ r, (KILL pid SIGTERM, r) ∈ tr) ∧ ∃ r, (WAITPID pid, r) ∈ tr.

Lemma wp_run_supervisor fuel wait ok c base procs (Q : option Z → trace → Prop) :
  (∀ out tr, accounted out tr → (out = Some 0 → (FORK, 0) ∈ tr ∨ reaped tr) → Q out tr) →
  wp (run_supervisor fuel wait ok c base procs) Q [].
Proof.
  intros HQ. assert (holds (-1) (-1) (-1) []) as H0 by by apply holds_none.
  unfold run_supervisor. destruct ok; cbn [negb]; [| wps; apply HQ; [right; split; [done |]; by exists (-1) | done]].
  wp1. eapply (wp_grows any_call); [constructor | |].
  { clear. generalize 0, (replicate (Z.to_nat procs) 0). induction (Z.to_nat procs) as [|n IH]; intros i kids; cbn [fork_loop]; grow. }
  apply wp_fork_loop; [done | rewrite length_replicate; lia | by intros pid _ He%elem_of_nil | |].
  - intros j tr Hc L Ht. eapply wp_calls; [apply calls_run_edge_proc |].
    apply wp_run_edge_proc; [done | by eapply holds_level |]. intros out tr' Ha (l & -> & _).
    apply HQ; [done |]. intros _. left. apply elem_of_app. by left.
  - intros kids tr Hk L Ht. wp1. apply wp_wait_loop. intros out l Hl. set (tr1 := tr ++ l).
    assert (level tr tr1) as L1.
    { intros fd. unfold tr1. clear -Hl. revert tr. induction l as [|e l IH] using rev_ind; intros tr; [by rewrite app_nil_r |].
      rewrite app_assoc, live_snoc, IH by (intros x Hx; apply Hl, elem_of_app; by left).
      destruct (Hl e) as [w ->]; [apply elem_of_app; right; by left |]. cbn. lia. }
    pose proof (holds_level _ _ _ _ _ (holds_level _ _ _ _ _ H0 L) L1) as H1.
    destruct out as [[]|]; [| wps; apply HQ; [by exists (-1), (-1), (-1) | done]].
    wp1. apply (wp_each_kid (fun pid => KILL pid SIGTERM)); [done |]. intros tr2 S2 B2 L2 K2.
    wp1. apply (wp_each_kid WAITPID); [done |]. intros tr3 S3 B3 L3 K3. wps. apply HQ.
    + left. split; [by left |]. apply holds_none. eapply holds_level; [exact H1 | by etrans].
    + intros _. right. intros pid Hp Hf.
      assert ((FORK, pid) ∈ tr) as Hin.
      { destruct (B3 _ Hf) as [Hf2|[q Eq]]; [| done]. destruct (B2 _ Hf2) as [Hf1|[q Eq]]; [| done].
        apply elem_of_app in Hf1 as [?|Hf0]; [done |]. by destruct (Hl _ Hf0). }
      pose proof (Hk pid Hp Hin) as Hkid. split; [| by apply K3]. destruct (K2 pid Hp Hkid) as [r Hr]. exists r. by apply S3.
Qed.
End WorkerProofs.

(** The codes of [usage]. *)
Lemma edge_parse_code argv a code : edge_parse argv a = inl code → code = 0 ∨ code = 2.
Proof.
  assert (∀ arg, usage_code arg = 0 ∨ usage_code arg = 2) as Hu by (intros arg; unfold usage_code; destruct (_ || _); auto).
  assert (∀ n (l : list bytes) a, (length l < n)%nat → edge_parse l a = inl code → code = 0 ∨ code = 2) as Hn.
  { induction n as [|n IH]; [lia |]. intros [|arg [|v rest]] a' Hl; cbn [edge_parse]; [done | by intros [= <-] |].
    destruct (edge_option arg v a'); [apply IH; cbn in Hl; lia | by intros [= <-]]. }
  apply (Hn (S (length argv))). lia.
Qed.

Lemma edge_config_code `{HOST} argv code : edge_config argv = Some (inl code) → code = 0 ∨ code = 2.
Proof.
  unfold edge_config. destruct (edge_parse argv edge_defaults) as [code'|a] eqn:Ep; [intros [= <-]; by eapply edge_parse_code |].
  destruct (_ || _); [intros [= <-]; by right |]. destruct (last_port _ _) as [last|]; [| done]. cbn.
  destruct (last >? 65535); [intros [= <-]; by right | done].
Qed.

(** ** Theorems *)

Section Theorems.
Context `{HOST}.


(** The supervisor returns 0 only when every child it forked has been sent
    SIGTERM and waited for ([FORK] answering 0 is what the child sees). *)
Theorem supervisor_reaps fuel wait calloc_ok c base procs tr :
  fresh_fds → run_supervisor fuel wait calloc_ok c base procs [] = Some (Some 0, tr) → (FORK, 0) ∉ tr → reaped tr.
Proof.
  intros Hf E Hp.
  assert (wp (run_supervisor fuel wait calloc_ok c base procs) (fun out tr => out = Some 0 → (FORK, 0) ∈ tr ∨ reaped tr) [])
    as Hw by (apply wp_run_supervisor; auto).
  apply wp_run in Hw as (out & tr' & E' & Hq). rewrite E in E'. injection E' as <- <-. by destruct (Hq eq_refl).
Qed.

(** The ports a configuration asks for: the public port and the uplink port
    of every worker are proper ports, so the casts to [uint16_t] keep them; only
    a number of workers within [mux_port] of [LONG_MAX] makes the test of the
    range overflow. *)
Theorem edge_ports argv :
  match edge_config argv with
  | Some (inr (c, base, procs)) =>
      u16 (ed_accept_port c) = ed_accept_port c ∧ 1 ≤ ed_accept_port c ∧ 1 ≤ procs ∧
      ∀ i, 0 ≤ i < procs → u16 (base + i) = base + i ∧ 1 ≤ base + i
  | Some (inl code) => code = 0 ∨ code = 2
  | None => ∃ a, edge_parse argv edge_defaults = inr a ∧ ea_procs a > LONG_MAX - 65535
  end.
Proof.
  destruct (edge_config argv) as [[code|[[c base] procs]]|] eqn:E.
  - by eapply edge_config_code.
  - revert E. unfold edge_config. destruct (edge_parse argv edge_defaults) as [code|a]; [done |].
    destruct (_ || _) eqn:Eb; [done |]. unfold last_port. destruct (_ >? LONG_MAX); [done |]. cbn.
    destruct (_ - 1 >? 65535) eqn:El; [done |]. intros [= <- <- <-]. cbn. set (procs := if ea_procs a <? 1 then 1 else ea_procs a) in *.
    assert (1 ≤ procs) by (unfold procs; destruct (Z.ltb_spec (ea_procs a) 1); lia).
    split_and!; [unfold u16; rewrite Z.mod_small; lia | lia | done |]. intros i Hi. unfold u16. rewrite Z.mod_small; lia.
  - revert E. unfold edge_config. destruct (edge_parse argv edge_defaults) as [code|a]; [done |].
    destruct (_ || _) eqn:Eb; [done |]. unfold last_port.
    destruct (Z.gtb_spec (ea_mux_port a + (if ea_procs a <? 1 then 1 else ea_procs a)) LONG_MAX) as [Hg|Hg];
      [| cbn; by destruct (_ - 1 >? 65535)].
    intros _. exists a. split; [done |]. unfold LONG_MAX in *. destruct (Z.ltb_spec (ea_procs a) 1); lia.
Qed.
End Theorems.

(** ** Witnesses *)

(** The lowest number above every descriptor in the trace. *)
Definition fd_of (e : syscall * Z) : Z := match e with (CLOSE f, _) => f | (_, r) => r end.
Definition next_fd (tr : trace) : Z := 1 + foldr (fun e n => Z.max (fd_of e) n) 2 tr.

Lemma next_fd_fresh tr fd : next_fd tr ≤ fd → live fd tr = 0.
Proof.
  unfold next_fd, live. induction tr as [|[c r] tr IH]; cbn [foldr]; intros Hn; [done |]. rewrite IH by lia.
  assert (fd_of (c, r) < fd) as Hr by lia. unfold fd_of in Hr. destruct c; cbn in *; try lia;
    repeat match goal with |- context [?x =? fd] => destruct (Z.eqb_spec x fd) end; lia.
Qed.

(** A system on which every call succeeds, with one address for every name. *)
Definition os_good : OS := {|
  os_sys tr c := match c with SOCKET _ _ _ | ACCEPT _ | PIPE_END => next_fd tr | POLL _ _ _ => 1 | FORK => next_fd tr | WAITPID pid => Z.max pid 3 | _ => 0 end;
  os_resolve _ _ _ _ := Some [mk_ai AF_UNSPEC SOCK_STREAM 0 (cs "any")];
  os_nameinfo _ := Some (cs "192.0.2.1", cs "5000");
|}.

Lemma os_good_fresh : @fresh_fds os_good.
Proof.
  intros tr c fd Hc E Hfd. apply next_fd_fresh. cbn in Hc, E. destruct c; cbn in Hc; try discriminate; try lia.
  destruct (_ =? _); discriminate.
Qed.

(** An iteration in which [fd] is read to its end. *)
Definition hang_up (fd : Z) : turn_env :=
  mk_turn (false, false, false) 0 [] false [(fd, EPOLLIN)] [mk_env [READ_EOF] 0 [] []] [] [] [].

Definition tunnels (tr : trace) : Z := foldr (fun e n => match e.1 with ON_TUNNEL _ => 1 + n | _ => n end) 0 tr.

(** Every uplink is closed by its peer in the first iteration; the daemon is
    stopped after its second. *)
Definition host_good : HOST := {|
  ho_os := os_good;
  ho_stop tr := 2 <=? tunnels tr;
  ho_token := None;
  ho_stack := stk0;
  ho_session tr := mk_session_env [] [] 0 [hang_up (next_fd tr - 1); hang_up 0];
|}.

Definition edge_argv : list bytes := [cs "--accept-port"; cs "5000"; cs "--mux-port"; cs "5001"].


(** A supervisor of two workers that each ran until one exited. *)
Definition two_kids : trace :=
  match @run_supervisor host_good 3 1 true (mk_edge_cfg 5000 1 0 8000 None None) 5001 2 [] with
  | Some (Some 0, tr) => tr
  | _ => []
  end.

Lemma supervisor_reaps_witness : (FORK, 4) ∈ two_kids ∧ reaped two_kids.
Proof.
  split; [vm_compute; apply list_elem_of_lookup; by exists 1%nat |].
  apply (@supervisor_reaps host_good 3 1 true (mk_edge_cfg 5000 1 0 8000 None None) 5001 2); [exact os_good_fresh | vm_compute; reflexivity |].
  assert (bool_decide ((FORK, 0) ∈ two_kids) = false) as E by (vm_compute; reflexivity). by apply bool_decide_eq_false in E.
Defined.
