(* ===== verification/PeerMain.v ===== *)
(** The edge-peer daemon, edge-peer/main.c: its arguments, with the expansion of
    port ranges ([add_edge]), and the backend mode, which dials the edge again
    and again and serves each link by a relay ([run_backend_mode]).  The router
    mode is [ep_run] of RouterLoop. *)

From Stdlib Require Import ZArith Lia String Ascii.
From stdpp Require Import base list numbers.
From S2P Require Import Prelude Session Auth Host EvLoop Relay RelayInv RelaySys Router RouterLoop CString Net Daemon EdgeMain.

Open Scope string_scope.
Open Scope list_scope.
Open Scope Z_scope.

(** ** Edge addresses *)

(** [sizeof edges / sizeof *edges], likewise for the workers *)
Definition EDGES_CAP : Z := 256.

(** [a] is stored behind the others while there is room.  An element is NULL when
    [strdup] failed. *)
Definition push_addr (l : list view) (cap : Z) (a : view) : list view := if zlen l <? cap then l ++ [a] else l.

(** The buffer of one address of a range. *)
Definition range_addr (host : bytes) (p : Z) : bytes := snprintf 300 (host ++ COLON :: fmt_ld p).

(** The loop over the ports from [p] to [stop]; [None] is overflow of [p++]. *)
Fixpoint range_loop (fuel : nat) (h : heap) (host : bytes) (p stop cap : Z) (edges : list view)
  : option (heap * list view) :=
  match fuel with
  | O => None
  | S fuel =>
      if (p <=? stop) && (zlen edges <? cap) then
        let '(ok, h) := alloc h in
        let e := if ok then Some (range_addr host p) else None in
        if p =? LONG_MAX then None else range_loop fuel h host (p + 1) stop cap (edges ++ [e])
      else Some (h, edges)
  end.

Definition add_edge (h : heap) (edges : list view) (cap : Z) (arg : bytes) : option (heap * list view) :=
  match strrchr arg COLON with
  | None => Some (h, push_addr edges cap (Some arg))
  | Some (pre, rest) =>
      match strstr (COLON :: rest) (cs "..") with
      | None => Some (h, push_addr edges cap (Some arg))
      | Some dots =>
          let host := ztake (if zlen pre >=? 256 then 255 else zlen pre) arg in
          range_loop (Z.to_nat (cap + 1)) h host (strtol rest) (strtol (zdrop 2 dots)) cap edges
      end
  end.

(** ** Arguments *)

Record peer_args := mk_peer_args {
  pa_backend : view;
  pa_token : view;
  pa_peer_id : view;
  pa_edges : list view;
  pa_workers : list view;
  pa_heartbeat : Z;
}.

Definition peer_defaults : peer_args := mk_peer_args None None (Some (cs "edge-peer")) [] [] 0.

(** An option that takes a value; the inner option is overflow in [add_edge]. *)
Definition peer_option (h : heap) (arg v : bytes) (a : peer_args) : option (option (heap * peer_args)) :=
  let '(mk_peer_args be tk id es ws hb) := a in
  if streq arg "--connect" || streq arg "--edge"
  then Some ('(h, es) ← add_edge h es EDGES_CAP v; Some (h, mk_peer_args be tk id es ws hb))
  else if streq arg "--worker" then Some (Some (h, mk_peer_args be tk id es (push_addr ws EDGES_CAP (Some v)) hb))
  else if streq arg "--backend" then Some (Some (h, mk_peer_args (Some v) tk id es ws hb))
  else if streq arg "--token" then Some (Some (h, mk_peer_args be (Some v) id es ws hb))
  else if streq arg "--peer-id" then Some (Some (h, mk_peer_args be tk (Some v) es ws hb))
  else if streq arg "--heartbeat" then Some (Some (h, mk_peer_args be tk id es ws (strtol v)))
  else None.

Fixpoint peer_parse (h : heap) (argv : list bytes) (a : peer_args) : option (Z + peer_args) :=
  match argv with
  | [] => Some (inr a)
  | arg :: v :: rest =>
      match peer_option h arg v a with
      | Some r => '(h, a) ← r; peer_parse h rest a
      | None => Some (inl (usage_code arg))
      end
  | arg :: [] => Some (inl (usage_code arg))
  end.

(** What [main] runs. *)
Inductive peer_mode :=
  | BACKEND (edge backend token : view)
  | ROUTER (edges workers : list view) (cfg : ep_config).

(** [main] up to there; [env] is [getenv("MUX_TOKEN")]. *)
Definition peer_config (h : heap) (env : view) (argv : list bytes) : option (Z + peer_mode) :=
  r ← peer_parse h argv peer_defaults;
  match r with
  | inl code => Some (inl code)
  | inr a =>
      if (zlen (pa_edges a) =? 0) || ((zlen (pa_workers a) =? 0) && bool_decide (pa_backend a = None)) then Some (inl 2) else
      let token := match pa_token a with None => env | t => t end in
      if negb (bool_decide (pa_backend a = None)) && (zlen (pa_workers a) =? 0)
      then Some (inr (BACKEND (default None (head (pa_edges a))) (pa_backend a) token))
      else Some (inr (ROUTER (pa_edges a) (pa_workers a) (mk_ep_config token (pa_peer_id a) 0 0 (u32 (pa_heartbeat a)))))
  end.

(** ** Backend mode *)

Section Backend.
Context `{HOST}.

(** The wait for the connect: the new value of [ok]; [None] while waiting. *)
Fixpoint wait_connect (fuel : nat) (fd : Z) : N (option bool) :=
  match fuel with
  | O => mret None
  | S fuel =>
      rc ← sys (POLL fd POLLOUT 300);
      stop ← gets ho_stop;
      if stop : bool then mret (Some false) else
      if rc <? 0 then (if rc =? - EINTR then wait_connect fuel fd else mret (Some false)) else
      if rc =? 0 then wait_connect fuel fd else
      e ← net_socket_error fd;
      mret (Some (e =? 0))
  end.

Definition backend_opts (token : view) (bh : bytes) : relay_opts :=
  mk_relay_opts MUX_DIALER token (Some (cs "edge-peer")) 0 0 0 0 (-1) 0 (Some bh).

Fixpoint backend_loop (fuel wait : nat) (eh bh : bytes) (ep : Z) (token : view) (backoff : Z) : N (option Z) :=
  match fuel with
  | O => mret None
  | S fuel =>
      stop ← gets ho_stop;
      if stop : bool then mret (Some 0) else
      fd ← Net.net_dial (Some eh) ep;
      ok ← (if fd >=? 0 then wait_connect wait fd else mret (Some false));
      match ok with
      | None => mret None
      | Some false =>
          (if fd >=? 0 then sys (CLOSE fd);; mret tt else mret tt);;
          sys (NANOSLEEP backoff);;
          backend_loop fuel wait eh bh ep token (if backoff <? 8000 then backoff * 2 else 8000)
      | Some true =>
          out ← serve fd (backend_opts token bh);
          match out with
          | None => mret None
          | Some false => sys (CLOSE fd);; backend_loop fuel wait eh bh ep token 250
          | Some true => backend_loop fuel wait eh bh ep token 250
          end
      end
  end.

Definition run_backend_mode (fuel wait : nat) (edge backend token : view) : N (option Z) :=
  match net_parse_addr edge 256 with
  | (0, Some eh, Some ep) =>
      match net_parse_addr backend 256 with
      | (0, Some bh, Some bp) => backend_loop fuel wait eh bh ep token 250
      | (0, _, _) => undef
      | _ => mret (Some 2)
      end
  | (0, _, _) => undef
  | _ => mret (Some 2)
  end.

(** The router's loop ends when it is told to stop, so at the end of [turns]. *)
Definition peer_main (fuel wait : nat) (h : heap) (turns : list ep_turn) (now : side -> Z -> Z) (argv : list bytes)
  : N (option Z) :=
  match peer_config h ho_token argv with
  | None => undef
  | Some (inl code) => mret (Some code)
  | Some (inr (BACKEND edge backend token)) => run_backend_mode fuel wait edge backend token
  | Some (inr (ROUTER edges workers cfg)) =>
      match ep_run ho_stack cfg (zlen edges) (zlen workers) turns now with
      | None => undef
      | Some _ => mret (Some 0)
      end
  end.
End Backend.

(** ** Ranges *)

Lemma range_loop_spec fuel h host p stop cap edges :
  Z.of_nat fuel > cap - zlen edges → stop < LONG_MAX → zlen edges ≤ cap →
  ∃ h' l, range_loop fuel h host p stop cap edges = Some (h', edges ++ l) ∧
    zlen l = Z.max 0 (Z.min (stop - p + 1) (cap - zlen edges)) ∧
    ∀ i a, l !! i = Some a → a = None ∨ a = Some (range_addr host (p + Z.of_nat i)).
Proof.
  revert h p edges. induction fuel as [|fuel IH]; intros h p edges Hf Hs Hc; [lia |]. cbn [range_loop].
  destruct (Z.leb_spec p stop) as [Hp|Hp]; [destruct (Z.ltb_spec (zlen edges) cap) as [He|He] |]; cbn [andb].
  2, 3: exists h, []; rewrite app_nil_r, zlen_nil; split_and!; [done | lia | done].
  destruct (alloc h) as [ok h1]. set (e := if ok then Some (range_addr host p) else None).
  destruct (Z.eqb_spec p LONG_MAX); [lia |].
  destruct (IH h1 (p + 1) (edges ++ [e])) as (h' & l & -> & Hl & Ha); [zlen_lia.. |].
  exists h', (e :: l). rewrite <- app_assoc. split_and!; [done | zlen_lia |]. intros [|i] a; cbn.
  - intros [= <-]. unfold e. rewrite Z.add_0_r. destruct ok; auto.
  - intros Hi%Ha. by replace (p + Z.of_nat (S i)) with (p + 1 + Z.of_nat i) by lia.
Qed.

(** "host:a..b" *)
Definition range_arg (host : bytes) (a b : Z) : bytes := host ++ COLON :: fmt_u a ++ cs ".." ++ fmt_u b.

Lemma add_edge_range h edges cap host a b :
  zlen host < 256 → 0 ≤ a < LONG_MAX → 0 ≤ b < LONG_MAX → zlen edges ≤ cap →
  add_edge h edges cap (range_arg host a b) = range_loop (Z.to_nat (cap + 1)) h host a b cap edges.
Proof.
  intros Hh Ha Hb Hc. unfold add_edge, range_arg. change (cs "..") with [46; 46].
  pose proof (fmt_u_numeral a (proj1 Ha)) as Na. pose proof (fmt_u_numeral b (proj1 Hb)) as Nb.
  assert (COLON ∉ fmt_u a ++ [46; 46] ++ fmt_u b) as Hn.
  { intros [Hi|[Hi|Hi]%elem_of_app]%elem_of_app; [exact (numeral_colon _ Na Hi) | | exact (numeral_colon _ Nb Hi)].
    apply elem_of_cons in Hi as [?|?%list_elem_of_singleton]; done. }
  rewrite strrchr_app by done. rewrite app_comm_cons. change ([46; 46] ++ fmt_u b) with (46 :: 46 :: fmt_u b).
  rewrite strstr_dots.
  - rewrite strtol_fmt by (try done; lia). cbn [zdrop]. change (zdrop 2 (46 :: 46 :: fmt_u b)) with (zdrop 0 (fmt_u b)).
    rewrite zdrop_0, <- (app_nil_r (fmt_u b)), strtol_fmt by (try done; lia). rewrite app_nil_r.
    destruct (Z.geb_spec (zlen host) 256); [lia |]. by rewrite ztake_app by done.
  - intros [?|Hi]%elem_of_cons; [done |]. revert Hi. apply numeral_not; [done | lia].
Qed.

(** An address of a range is what [net_parse_addr] splits again. *)
Lemma range_addr_parse host p :
  zlen host < 256 → 1 ≤ p ≤ 65535 → net_parse_addr (Some (range_addr host p)) 256 = (0, Some host, Some p).
Proof.
  intros Hh Hp. unfold range_addr, fmt_ld. destruct (Z.ltb_spec p 0); [lia |]. pose proof (fmt_u_len p).
  rewrite snprintf_fits by (zlen_lia). by apply parse_print.
Qed.

(** ** The links of the backend mode *)

Section BackendProofs.
Context `{HOST}.
Implicit Types (tr : trace).

Lemma served_app fd tr l : served fd (tr ++ l) = served fd tr + served fd l.
Proof.
  unfold served. induction tr as [|[[] r] tr IH]; cbn in *; try done. destruct (_ =? fd); lia.
Qed.

Lemma served_off fd l : (∀ e, e ∈ l → off_tunnel e.1) → served fd l = 0.
Proof.
  unfold served. induction l as [|[c r] l IH]; intros Hl; [done |]. pose proof (Hl (c, r) ltac:(by left)) as Hc.
  assert (∀ e, e ∈ l → off_tunnel e.1) as Hl' by (intros e He; apply Hl; by right). destruct c; cbn in *; by try apply IH.
Qed.

(** How long a process has slept between two attempts. *)
Definition paced tr : Prop := ∀ ms r, (NANOSLEEP ms, r) ∈ tr → 250 ≤ ms ≤ 8000.

(** Every descriptor that has carried a relay is still open, as often as it
    has; besides, [fd] may be open. *)
Definition leaks (fd : Z) tr : Prop :=
  (∀ f, 0 ≤ f → live f tr = served f tr + one_if (fd =? f)) ∧ paced tr.

Definition awake (c : syscall) : Prop := match c with ON_TUNNEL _ | NANOSLEEP _ => False | _ => True end.

Lemma paced_app tr l : paced tr → (∀ e, e ∈ l → awake e.1) → paced (tr ++ l).
Proof. intros Hp Hl ms r [Hin|Hin]%elem_of_app; [by eapply Hp | by destruct (Hl _ Hin)]. Qed.

Lemma leaks_gains fd tr l :
  leaks (-1) tr → gains fd tr (tr ++ l) → (∀ e, e ∈ l → awake e.1) → leaks fd (tr ++ l).
Proof.
  intros [Hl Hp] G Hq. split; [| by apply paced_app]. intros f Hf. rewrite (G f Hf), (Hl f Hf), served_app, (served_off f l).
  - unfold one_if. destruct (Z.eqb_spec (-1) f), (Z.eqb_spec fd f); lia.
  - intros e He. specialize (Hq e He). by destruct e as [[] ?].
Qed.

Lemma leaks_level fd tr l : leaks fd tr → level tr (tr ++ l) → (∀ e, e ∈ l → awake e.1) → leaks fd (tr ++ l).
Proof.
  intros [Hl Hp] L Hq. split; [| by apply paced_app]. intros f Hf. rewrite L, (Hl f Hf), served_app, (served_off f l); [lia |].
  intros e He. specialize (Hq e He). by destruct e as [[] ?].
Qed.

Lemma leaks_close fd r tr : leaks fd tr → 0 ≤ fd → leaks (-1) (tr ++ [(CLOSE fd, r)]).
Proof.
  intros [Hl Hp] Hfd. split; [| apply paced_app; [done |]; by intros e ->%list_elem_of_singleton].
  intros f Hf. rewrite live_snoc, served_app, (Hl f Hf). unfold one_if. cbn. destruct (Z.eqb_spec fd f), (Z.eqb_spec (-1) f); lia.
Qed.

Lemma leaks_neg fd tr : leaks fd tr → fd < 0 → leaks (-1) tr.
Proof. intros [Hl Hp] Hfd. split; [| done]. intros f Hf. rewrite (Hl f Hf). unfold one_if. destruct (Z.eqb_spec fd f), (Z.eqb_spec (-1) f); lia. Qed.

Lemma leaks_served fd r tr : leaks fd tr → leaks (-1) (tr ++ [(ON_TUNNEL fd, r)]).
Proof.
  intros [Hl Hp]. split.
  - intros f Hf. rewrite live_snoc, served_app, (Hl f Hf). unfold one_if. cbn. destruct (Z.eqb_spec fd f), (Z.eqb_spec (-1) f); lia.
  - intros ms r' [Hin|Hin%list_elem_of_singleton]%elem_of_app; [by eapply Hp | done].
Qed.

Lemma calls_dial_awake host port : calls awake (Net.net_dial host port).
Proof.
  unfold Net.net_dial, resolve. grow.
  match goal with |- calls _ (dial_loop ?l) => induction l as [|ai l IH]; cbn [dial_loop]; unfold net_set_nodelay, net_set_nonblock; grow end.
Qed.

Lemma calls_wait_connect fuel fd : calls awake (wait_connect fuel fd).
Proof. induction fuel as [|fuel IH]; cbn [wait_connect]; unfold net_socket_error; grow. Qed.

Lemma wp_wait_connect fuel fd tr (Q : option bool → trace → Prop) :
  (∀ ok tr', level tr tr' → Q ok tr') → wp (wait_connect fuel fd) Q tr.
Proof.
  revert tr. induction fuel as [|fuel IH]; intros tr HQ; cbn [wait_connect]; [wps; by apply HQ |].
  wp1. apply wp_quiet; [done |]. intros rc L. do 2 wp1. destruct (ho_stop _); [wps; by apply HQ |].
  assert (wp (wait_connect fuel fd) Q (tr ++ [(POLL fd POLLOUT 300, rc)])) as Hk.
  { apply IH. intros ok tr' L'. apply HQ. by etrans. }
  destruct (rc <? 0); [destruct (_ =? - EINTR); [done | wps; by apply HQ] |]. destruct (rc =? 0); [done |].
  unfold net_socket_error. do 2 wp1. apply wp_quiet; [done |]. intros e L'. wps. apply HQ. by etrans.
Qed.

(** The values [backoff] takes. *)
Definition backoffs : list Z := [250; 500; 1000; 2000; 4000; 8000].

Lemma backoff_next b : b ∈ backoffs → 250 ≤ b ≤ 8000 ∧ (if b <? 8000 then b * 2 else 8000) ∈ backoffs.
Proof.
  unfold backoffs. rewrite !elem_of_cons. intros [->|[->|[->|[->|[->|[->|[]%elem_of_nil]]]]]]; cbn; (split; [lia |]); tauto.
Qed.

Lemma wp_backend_loop fuel wait eh bh ep token backoff tr (Q : option Z → trace → Prop) :
  leaks (-1) tr → backoff ∈ backoffs →
  (∀ tr', leaks (-1) tr' → Q (Some 0) tr') → (∀ fd tr', leaks fd tr' → Q None tr') →
  wp (backend_loop fuel wait eh bh ep token backoff) Q tr.
Proof.
  intros Hl Hb HQ HN. revert backoff tr Hl Hb. induction fuel as [|fuel IH]; intros backoff tr Hl Hb; cbn [backend_loop];
    [wps; by eapply HN |].
  do 2 wp1. destruct (ho_stop tr); [wps; by apply HQ |].
  wp1. eapply wp_calls; [apply calls_dial_awake |]. apply wp_dial_tcp. intros fd ? [G _] (l & -> & Hq).
  pose proof (leaks_gains _ _ _ Hl G Hq) as H1. set (tr1 := tr ++ l) in *. rewrite Z.geb_leb.
  assert (∀ tr2, leaks (-1) tr2 → wp (sys (NANOSLEEP backoff);;
    backend_loop fuel wait eh bh ep token (if backoff <? 8000 then backoff * 2 else 8000)) Q tr2) as Hz.
  { intros tr2 [L2 P2]. destruct (backoff_next _ Hb) as [Hr Hn]. wp1. apply wp_quiet; [done |]. intros r L. apply IH; [split | exact Hn].
    - intros f Hf. rewrite L, served_app, (L2 f Hf). cbn. lia.
    - intros ms r' [Hin|[= -> _]%list_elem_of_singleton]%elem_of_app; [by eapply P2 | done]. }
  destruct (Z.leb_spec 0 fd) as [Hfd|Hfd]; [| wp1; wp1; wps; apply Hz; by eapply leaks_neg].
  wp1. eapply wp_calls; [apply calls_wait_connect |]. apply wp_wait_connect. intros ok ? L2 (l2 & -> & Hq2).
  pose proof (leaks_level _ _ _ H1 L2 Hq2) as H2. destruct ok as [[]|]; [| | wps; by eapply HN].
  - wp1. apply wp_serve; [done | cbn; lia | |].
    + wp1. apply wp_sys. intros r. apply IH; [by apply leaks_close | by left].
    + intros out r Ho. pose proof (leaks_served _ r _ H2) as H3. destruct out as [[]|]; [apply IH; [done | by left] | by destruct Ho | wps; by eapply HN].
  - wp1. wp1. apply wp_sys. intros r. wps. apply Hz. by apply leaks_close.
Qed.
End BackendProofs.

Lemma push_addr_len l cap a : zlen l ≤ cap → zlen (push_addr l cap a) ≤ cap.
Proof. intros Hl. unfold push_addr. destruct (Z.ltb_spec (zlen l) cap); zlen_lia. Qed.

Lemma range_loop_len fuel h host p stop cap edges h' es :
  zlen edges ≤ cap → range_loop fuel h host p stop cap edges = Some (h', es) → zlen es ≤ cap.
Proof.
  revert h p edges. induction fuel as [|fuel IH]; intros h p edges Hl; cbn [range_loop]; [done |].
  destruct (p <=? stop), (Z.ltb_spec (zlen edges) cap); cbn [andb]; try (intros [= _ <-]; done).
  destruct (alloc h) as [ok h1]. destruct (p =? LONG_MAX); [done |]. apply IH. zlen_lia.
Qed.

Lemma add_edge_len h edges cap arg h' es : zlen edges ≤ cap → add_edge h edges cap arg = Some (h', es) → zlen es ≤ cap.
Proof.
  intros Hl. unfold add_edge. destruct (strrchr arg COLON) as [[pre rest]|]; [destruct (strstr _ _) |].
  2, 3: intros [= _ <-]; by apply push_addr_len.
  intros E. exact (range_loop_len _ _ _ _ _ _ _ _ _ Hl E).
Qed.

(** Neither array is overrun. *)
Definition fits (a : peer_args) : Prop := zlen (pa_edges a) ≤ EDGES_CAP ∧ zlen (pa_workers a) ≤ EDGES_CAP.

Lemma peer_option_fits h arg v a h' a' : fits a → peer_option h arg v a = Some (Some (h', a')) → fits a'.
Proof.
  intros [H1 H2]. destruct a as [be tk id es ws hb]. cbn in H1, H2. unfold peer_option.
  destruct (_ || _).
  { destruct (add_edge h es EDGES_CAP v) as [[h1 es1]|] eqn:E; cbn; [| done]. intros [= <- <-]. split; [exact (add_edge_len _ _ _ _ _ _ H1 E) | done]. }
  destruct (streq arg "--worker"); [intros [= <- <-]; split; [done | by apply push_addr_len] |].
  by repeat (destruct (streq arg _); [intros [= <- <-]; by split |]).
Qed.

Lemma peer_parse_fits argv h a a' : fits a → peer_parse h argv a = Some (inr a') → fits a'.
Proof.
  assert (∀ n (argv : list bytes) h a, (length argv < n)%nat → fits a → peer_parse h argv a = Some (inr a') → fits a') as Hn.
  { clear. induction n as [|n IH]; [lia |]. intros [|arg [|v rest]] h a Hl Hf; cbn [peer_parse]; [by intros [= <-] | done |].
    destruct (peer_option h arg v a) as [[[h1 a1]|]|] eqn:E; cbn; [| done | done].
    apply IH; [cbn in Hl; lia |]. by eapply peer_option_fits. }
  apply (Hn (S (length argv))). lia.
Qed.

(** ** Theorems *)

(** "--connect host:a..b" adds, behind the edges there are and as far as the
    array has room, one address for each port from [a] to [b] in order, and each
    address added ([strdup] may fail) is split by [net_dial_addr] into exactly
    this host and port. *)
Theorem edge_range h edges host a b :
  zlen host < 256 → 1 ≤ a ≤ 65535 → 1 ≤ b ≤ 65535 → zlen edges ≤ EDGES_CAP →
  ∃ h' l, add_edge h edges EDGES_CAP (range_arg host a b) = Some (h', edges ++ l) ∧
    zlen l = Z.max 0 (Z.min (b - a + 1) (EDGES_CAP - zlen edges)) ∧
    ∀ i s, l !! i = Some (Some s) → net_parse_addr (Some s) 256 = (0, Some host, Some (a + Z.of_nat i)).
Proof.
  intros Hh Ha Hb He. rewrite add_edge_range by (unfold LONG_MAX; lia). pose proof (zlen_nonneg edges) as H0.
  destruct (range_loop_spec (Z.to_nat (EDGES_CAP + 1)) h host a b EDGES_CAP edges) as (h' & l & E & Hl & Hs);
    [unfold EDGES_CAP in *; lia | unfold LONG_MAX; lia | done |].
  exists h', l. split_and!; [done | done |]. intros i s Hi. destruct (Hs i _ Hi) as [|[= ->]]; [done |].
  apply lookup_lt_Some in Hi. apply range_addr_parse; [done |]. unfold zlen in Hl. lia.
Qed.

(** Whatever the arguments, neither array of addresses is overrun, and the
    router is only started with an edge and a worker, backend mode only with an
    edge and a backend. *)
Theorem peer_config_ok h env argv :
  match peer_config h env argv with
  | Some (inr (ROUTER edges workers _)) => 1 ≤ zlen edges ≤ EDGES_CAP ∧ 1 ≤ zlen workers ≤ EDGES_CAP
  | Some (inr (BACKEND edge backend _)) => backend ≠ None
  | _ => True
  end.
Proof.
  unfold peer_config. destruct (peer_parse h argv peer_defaults) as [[code|a]|] eqn:E; cbn; [done | | done].
  apply peer_parse_fits in E as [H1 H2]; [| done].
  pose proof (zlen_nonneg (pa_edges a)). pose proof (zlen_nonneg (pa_workers a)).
  destruct (Z.eqb_spec (zlen (pa_edges a)) 0); cbn; [done |].
  destruct (Z.eqb_spec (zlen (pa_workers a)) 0), (bool_decide_reflect (pa_backend a = None)); cbn; [done | done | lia | lia].
Qed.

Section Theorems.
Context `{HOST}.

(** Backend mode runs without a fault, whatever the kernel, the signals and
    the links do, pausing between 250 and 8000 ms after each attempt that fails;
    but it never closes the descriptor of a link that a relay has served: at
    every moment each is still open as often as it has been served. *)
Theorem backend_links fuel wait edge backend token :
  ∃ out tr, run_backend_mode fuel wait edge backend token [] = Some (out, tr) ∧
    match out with
    | None => ∃ fd, leaks fd tr
    | Some code => (code = 0 ∨ code = 2) ∧ leaks (-1) tr
    end.
Proof.
  apply wp_run. assert (leaks (-1) []) as H0.
  { split; [| by intros ms r []%elem_of_nil]. intros f Hf. cbn. unfold one_if. destruct (Z.eqb_spec (-1) f); lia. }
  unfold run_backend_mode. pose proof (net_parse_addr_ok edge 256) as Hp.
  destruct (net_parse_addr edge 256) as [[[|rc|rc] eh] ep]; [| by destruct Hp | wps; auto].
  destruct Hp as (eh' & ep' & -> & -> & _). pose proof (net_parse_addr_ok backend 256) as Hq.
  destruct (net_parse_addr backend 256) as [[[|rc|rc] bh] bp]; [| by destruct Hq | wps; auto].
  destruct Hq as (bh' & bp' & -> & -> & _).
  apply wp_backend_loop; [done | by left | auto | by eauto].
Qed.
End Theorems.

(** ** Witnesses and runs *)

Lemma edge_range_witness :
  ∃ h' l, add_edge [] [] EDGES_CAP (cs "edge:5001..5003") = Some (h', l) ∧ zlen l = 3 ∧
    ∀ i s, l !! i = Some (Some s) → net_parse_addr (Some s) 256 = (0, Some (cs "edge"), Some (5001 + Z.of_nat i)).
Proof.
  destruct (edge_range [] [] (cs "edge") 5001 5003) as (h' & l & E & Hl & Ha); [vm_compute; reflexivity | lia | lia | vm_compute; discriminate |].
  exists h', l. split_and!; [exact E | exact Hl | exact Ha].
Defined.

(** A unix path is not pushed as it is when ".." comes behind its last colon. *)
Example unix_path_range :
  add_edge [] [] EDGES_CAP (cs "unix:/run/../x.sock") = Some ([], [Some (cs "unix:0")]).
Proof. vm_compute. reflexivity. Qed.

(** The last port of a range can be the last [long]. *)
Example range_overflow : add_edge [] [] EDGES_CAP (cs "h:9223372036854775807..9223372036854775807") = None.
Proof. vm_compute. reflexivity. Qed.

(** Two links served and lost, both descriptors still open when the daemon ends. *)
Example backend_leak :
  (λ x, (x.1, live 3 x.2, live 4 x.2)) <$>
    @run_backend_mode host_good 5 5 (Some (cs "edge:5001")) (Some (cs "10.0.0.2:80")) None [] = Some (Some 0, 1, 1).
Proof. vm_compute. reflexivity. Qed.
