(* ===== verification/PeerLink.v ===== *)
(** libpeer around its I/O loop (libpeer.c): how [session_up] comes by a socket
    while the mutex is released ([link_wait]), and what [lp_connect] and
    [lp_disconnect] do besides starting and joining the thread.  The sections
    that run with the mutex held are in Peer. *)

From stdpp Require Import base list numbers.
From Stdlib Require Import ZArith Lia.
From S2P Require Import Prelude Host CString Net.

(** The [POLLIN] and [POLLOUT] of poll.h. *)
Definition EV_IN : Z := 1.
Definition EV_OUT : Z := 4.

(** ** Waiting for a connection *)

(** What [session_up] uses of the client's configuration. *)
Record link_cfg := mk_link_cfg { lk_listen_addr : view; lk_host : view; lk_port : Z }.

Section Link.
Context `{OS}.
(** What [c->stopping] reads as. *)
Context (stopping : trace -> bool).

(** The [poll] loops: [Some true] when [fd] is ready, [Some false] when the wait
    is given up, [None] while it lasts. *)
Fixpoint await (fuel : nat) (fd ev : Z) : N (option bool) :=
  match fuel with
  | O => mret None
  | S fuel =>
      rc ← sys (POLL fd ev 300);
      if rc <? 0 then (if rc =? - EINTR then await fuel fd ev else mret (Some false)) else
      if rc =? 0 then stop ← gets stopping; if stop : bool then mret (Some false) else await fuel fd ev
      else mret (Some true)
  end.

(** [if (!ok) { if (fd >= 0) close(fd); return -1; }] *)
Definition settle_fd (fd : Z) (ok : bool) : N Z :=
  if ok then mret fd else (if fd >=? 0 then sys (CLOSE fd);; mret tt else mret tt);; mret (-1).

(** The first half of [session_up]: the new [listen_fd], and the connected socket
    or -1; [None] while it waits. *)
Definition link_wait (fuel : nat) (c : link_cfg) (listen_fd : Z) : N (option (Z * Z)) :=
  match lk_listen_addr c with
  | Some _ =>
      lfd ← (if listen_fd <? 0 then net_listen_addr (lk_listen_addr c) 16 else mret listen_fd);
      if lfd <? 0 then sys (NANOSLEEP 200);; mret (Some (lfd, -1)) else
      ready ← await fuel lfd EV_IN;
      match ready with
      | None => mret None
      | Some false => mret (Some (lfd, -1))
      | Some true =>
          '(fd, _) ← net_accept lfd 0;
          fd ← settle_fd fd (fd >=? 0);
          mret (Some (lfd, fd))
      end
  | None =>
      fd ← (if net_addr_is_unix (lk_host c) then net_dial_addr (lk_host c) else net_dial (lk_host c) (lk_port c));
      if fd <? 0 then mret (Some (listen_fd, -1)) else
      ready ← await fuel fd EV_OUT;
      match ready with
      | None => mret None
      | Some false => fd ← settle_fd fd false; mret (Some (listen_fd, fd))
      | Some true =>
          e ← net_socket_error fd;
          fd ← settle_fd fd (e =? 0);
          mret (Some (listen_fd, fd))
      end
  end.

(** ** The client *)

(** The fields of [struct lp_client] that [lp_connect] sets up. *)
Record lp_link := mk_lp_link {
  ll_host : view;
  ll_listen_addr : view;
  ll_token : view;
  ll_peer_id : view;
  ll_wake : Z * Z;
  ll_notify : Z * Z;
}.

(** [s ? strdup(s) : NULL] *)
Definition dup (h : heap) (s : view) : heap * view :=
  match s with
  | None => (h, None)
  | Some _ => let '(ok, h) := alloc h in (h, if ok then s else None)
  end.

(** [pipe], its two descriptors made non-blocking. *)
Definition new_pipe : N (option (Z * Z)) :=
  rc ← sys PIPE;
  if negb (rc =? 0) then mret None else
  r ← sys PIPE_END;
  w ← sys PIPE_END;
  net_set_nonblock r;;
  net_set_nonblock w;;
  mret (Some (r, w)).

Definition close_pipe (p : Z * Z) : N unit := sys (CLOSE p.1);; sys (CLOSE p.2);; mret tt.

Definition lp_connect (h : heap) (host listen_addr token peer_id : view) : N (option lp_link) :=
  match listen_addr, host with
  | None, None => mret None
  | _, _ =>
      let '(ok, h) := alloc h in
      if negb ok then mret None else
      let '(h, host) := dup h host in
      let '(h, listen_addr) := dup h listen_addr in
      let '(h, token) := dup h token in
      let '(h, peer_id) := dup h peer_id in
      wake ← new_pipe;
      match wake with
      | None => mret None
      | Some wake =>
          notify ← new_pipe;
          match notify with
          | None => close_pipe wake;; mret None
          | Some notify =>
              rc ← sys THREAD_CREATE;
              if negb (rc =? 0) then close_pipe wake;; close_pipe notify;; mret None else
              mret (Some (mk_lp_link host listen_addr token peer_id wake notify))
          end
      end
  end.

(** The descriptors [lp_disconnect] closes. *)
Definition lp_disconnect_fds (c : lp_link) (listen_fd : Z) : N unit :=
  (if listen_fd >=? 0 then sys (CLOSE listen_fd);; mret tt else mret tt);;
  close_pipe (ll_wake c);;
  (if (ll_notify c).1 >=? 0 then sys (CLOSE (ll_notify c).1);; mret tt else mret tt);;
  (if (ll_notify c).2 >=? 0 then sys (CLOSE (ll_notify c).2);; mret tt else mret tt).

(** ** Descriptors *)

Implicit Types (tr : trace).

(** [fds] are open once more than before. *)
Definition more (fds : list Z) tr tr' : Prop :=
  ∀ f, 0 ≤ f → live f tr' = live f tr + foldr (fun fd n => (if fd =? f then 1 else 0) + n) 0 fds.

Lemma more_level fds tr tr' tr'' : more fds tr tr' → level tr' tr'' → more fds tr tr''.
Proof. intros M L f Hf. rewrite L. by apply M. Qed.

Lemma more_open fds c fd tr tr' :
  more fds tr tr' → (∀ f, opens f (c, fd) = if fd =? f then 1 else 0) → more (fd :: fds) tr (tr' ++ [(c, fd)]).
Proof. intros M Hc f Hf. rewrite live_snoc, (M f Hf), Hc. cbn. lia. Qed.

Lemma more_close fds fd r tr tr' : more (fd :: fds) tr tr' → more fds tr (tr' ++ [(CLOSE fd, r)]).
Proof. intros M f Hf. rewrite live_snoc, (M f Hf). cbn. destruct (fd =? f); lia. Qed.

Lemma more_perm fds fds' tr tr' : fds ≡ₚ fds' → more fds tr tr' → more fds' tr tr'.
Proof.
  intros Hp M f Hf. rewrite (M f Hf). f_equal. clear M. induction Hp; cbn; repeat destruct (_ =? f); lia.
Qed.

Lemma more_neg fd fds tr tr' : fd < 0 → more (fd :: fds) tr tr' ↔ more fds tr tr'.
Proof. intros Hn. split; intros M f Hf; specialize (M f Hf); cbn in *; destruct (Z.eqb_spec fd f); lia. Qed.

Lemma more_nil tr tr' : more [] tr tr' ↔ ∀ f, 0 ≤ f → live f tr' = live f tr.
Proof. split; intros M f Hf; specialize (M f Hf); cbn in *; lia. Qed.

Lemma more_gains fd fds tr tr' tr'' : more fds tr tr' → gains fd tr' tr'' → more (fd :: fds) tr tr''.
Proof. intros M G f Hf. rewrite (G f Hf), (M f Hf). cbn. destruct (fd =? f); lia. Qed.

Lemma wp_await fuel fd ev tr (Q : option bool → trace → Prop) :
  (∀ r tr', level tr tr' → Q r tr') → wp (await fuel fd ev) Q tr.
Proof.
  revert tr. induction fuel as [|fuel IH]; intros tr HQ; cbn [await]; [wps; by apply HQ |].
  wp1. apply wp_quiet; [done |]. intros rc L.
  assert (wp (await fuel fd ev) Q (tr ++ [(POLL fd ev 300, rc)])) as Hk by (apply IH; intros r tr' L'; apply HQ; by etrans).
  destruct (rc <? 0); [destruct (rc =? - EINTR); [done | wps; by apply HQ] |].
  destruct (rc =? 0); [| wps; by apply HQ]. do 2 wp1. destruct (stopping _); [wps; by apply HQ | done].
Qed.

Lemma wp_settle_fd fd ok tr0 tr fds (Q : Z → trace → Prop) :
  more (fd :: fds) tr0 tr →
  (∀ r tr', more (r :: fds) tr0 tr' → (0 ≤ r → r = fd ∧ ok = true) → Q r tr') → wp (settle_fd fd ok) Q tr.
Proof.
  intros M HQ. unfold settle_fd. destruct ok; [wps; by apply HQ |]. rewrite Z.geb_leb. destruct (Z.leb_spec 0 fd).
  - do 2 wp1. apply wp_sys. intros r. wps. apply HQ; [| lia]. apply more_neg; [lia |]. by apply more_close.
  - wps. apply HQ; [| lia]. apply more_neg; [lia |]. by apply more_neg in M.
Qed.

Lemma wp_new_pipe tr0 tr fds (Q : option (Z * Z) → trace → Prop) :
  more fds tr0 tr →
  (∀ p tr', more (match p with Some (r, w) => r :: w :: fds | None => fds end) tr0 tr' → Q p tr') →
  wp new_pipe Q tr.
Proof.
  intros M HQ. unfold new_pipe. wp1. apply wp_quiet; [done |]. intros rc L.
  pose proof (more_level _ _ _ _ M L) as M1. destruct (rc =? 0); cbn [negb]; [| wps; by apply (HQ None)].
  wp1. apply wp_sys. intros r. pose proof (more_open _ _ _ _ _ M1 (fun _ => eq_refl : opens _ (PIPE_END, r) = _)) as M2.
  wp1. apply wp_sys. intros w. pose proof (more_open _ _ _ _ _ M2 (fun _ => eq_refl : opens _ (PIPE_END, w) = _)) as M3.
  wp1. apply wp_set_nonblock. intros r1 tr1 L1 _. wp1. apply wp_set_nonblock. intros r2 tr2 L2 _. wps.
  apply (HQ (Some (r, w))). eapply more_perm; [apply perm_swap |].
  eapply more_level; [exact M3 | etrans; [exact L1 | exact L2]].
Qed.

Lemma wp_close_pipe p tr0 tr fds (Q : unit → trace → Prop) :
  more (p.1 :: p.2 :: fds) tr0 tr → (∀ tr', more fds tr0 tr' → Q tt tr') → wp (close_pipe p) Q tr.
Proof.
  intros M HQ. unfold close_pipe. wp1. apply wp_sys. intros r1. wp1. apply wp_sys. intros r2. wps. apply HQ.
  by do 2 apply more_close.
Qed.

(** The descriptors of a client. *)
Definition link_fds (c : lp_link) : list Z := [(ll_notify c).1; (ll_notify c).2; (ll_wake c).1; (ll_wake c).2].

Lemma wp_lp_connect h host la token id tr (Q : option lp_link → trace → Prop) :
  (∀ c tr', more (match c with Some c => link_fds c | None => [] end) tr tr' → Q c tr') →
  wp (lp_connect h host la token id) Q tr.
Proof.
  intros HQ. assert (more [] tr tr) as H0 by by apply more_nil.
  assert (wp (mret None : N (option lp_link)) Q tr) as Hn by (wps; by apply (HQ None)).
  unfold lp_connect. destruct la as [la|], host as [host|]; [.. | done]; destruct (alloc h) as [[] h1]; cbn [negb]; try done.
  all: destruct (dup h1 _) as [h2 ?], (dup h2 _) as [h3 ?], (dup h3 token) as [h4 ?], (dup h4 id) as [h5 ?].
  all: wp1; eapply wp_new_pipe; [exact H0 |]; intros [wake|] tr1 M1; [| wps; by apply (HQ None)].
  all: wp1; eapply wp_new_pipe; [exact M1 |]; intros [notify|] tr2 M2;
    [| wp1; destruct wake; eapply wp_close_pipe; [exact M2 |]; intros tr3 M3; wps; by apply (HQ None)].
  all: destruct wake as [wr ww], notify as [nr nw]; wp1; apply wp_quiet; [done |]; intros rc L;
    pose proof (more_level _ _ _ _ M2 L) as M3; destruct (rc =? 0); cbn [negb]; [wps; by apply HQ |].
  all: wp1; apply (wp_close_pipe (wr, ww) tr _ [nr; nw]); [eapply more_perm; [| exact M3]; apply (Permutation_app_comm [nr; nw] [wr; ww]) |];
    intros tr4 M4; wp1; eapply (wp_close_pipe (nr, nw)); [exact M4 |]; intros tr5 M5; wps; by apply (HQ None).
Qed.

Lemma wp_close_some fd tr0 tr fds (Q : unit → trace → Prop) :
  more (fd :: fds) tr0 tr → (∀ tr', more fds tr0 tr' → Q tt tr') →
  wp (if fd >=? 0 then sys (CLOSE fd);; mret tt else mret tt) Q tr.
Proof.
  intros M HQ. rewrite Z.geb_leb. destruct (Z.leb_spec 0 fd) as [Hf|Hf].
  - wp1. apply wp_sys. intros r. wps. apply HQ. by apply more_close.
  - wps. apply HQ. by apply more_neg in M.
Qed.

Lemma wp_lp_disconnect_fds c lfd tr0 tr (Q : unit → trace → Prop) :
  more (lfd :: link_fds c) tr0 tr → (∀ tr', more [] tr0 tr' → Q tt tr') → wp (lp_disconnect_fds c lfd) Q tr.
Proof.
  intros M HQ. unfold lp_disconnect_fds. wp1. eapply wp_close_some; [exact M |]. intros tr1 M1.
  wp1. apply (wp_close_pipe _ tr0 _ [(ll_notify c).1; (ll_notify c).2]).
  { eapply more_perm; [| exact M1]. apply (Permutation_app_comm [_; _] [_; _]). }
  intros tr2 M2. wp1. eapply wp_close_some; [exact M2 |]. intros tr3 M3. eapply wp_close_some; [exact M3 | exact HQ].
Qed.

(** ** Theorems *)

(** However the wait for a connection goes (refused or interrupted dials,
    time-outs, a failed accept, the client being stopped), [session_up] ends it
    with one connected socket more or none, and with the listener it had or the
    one it has just opened; nothing else is left open. *)
Theorem link_wait_contract fuel c lfd tr :
  ∃ out tr', link_wait fuel c lfd tr = Some (out, tr') ∧
    match out with
    | Some (lfd', fd) => (0 ≤ lfd → lfd' = lfd) ∧ more [fd; if lfd <? 0 then lfd' else -1] tr tr'
    | None => ∃ fd, more [fd] tr tr'
    end.
Proof.
  apply wp_run. assert (more [] tr tr) as H0 by by apply more_nil. unfold link_wait. destruct (lk_listen_addr c) as [la|] eqn:Ela.
  - wp1. assert (∀ Q : Z → trace → Prop,
      (∀ l tr', more [if lfd <? 0 then l else -1] tr tr' → (0 ≤ lfd → l = lfd) → Q l tr') →
      wp (if lfd <? 0 then net_listen_addr (Some la) 16 else mret lfd) Q tr) as Hlisten.
    { intros Q HQ. destruct (Z.ltb_spec lfd 0).
      - apply wp_net_listen_addr. intros l tr1 [G _]. apply HQ; [| lia]. by eapply more_gains.
      - wp1. apply HQ; [| done]. by apply more_neg. }
    apply Hlisten. intros l tr1 M1 El. destruct (Z.ltb_spec l 0).
    { wp1. apply wp_quiet; [done |]. intros r L. wps. split; [done |]. apply more_neg; [lia |]. by eapply more_level. }
    wp1. apply wp_await. intros ready tr2 L2. pose proof (more_level _ _ _ _ M1 L2) as M2.
    destruct ready as [[]|]; [| wps; split; [done |]; by apply more_neg | wps; by eexists].
    wp1. apply wp_net_accept. intros fd peer tr3 G. wp1. eapply wp_settle_fd; [by eapply more_gains |].
    intros fd' tr4 M4 _. wps. by split.
  - wp1. assert (∀ Q : Z → trace → Prop, (∀ fd tr', more [fd] tr tr' → Q fd tr') →
      wp (if net_addr_is_unix (lk_host c) then net_dial_addr (lk_host c) else net_dial (lk_host c) (lk_port c)) Q tr) as Hdial.
    { intros Q HQ. destruct (net_addr_is_unix (lk_host c)); [apply wp_net_dial_addr | apply wp_dial_tcp];
        intros fd tr1 [G _]; apply HQ; by eapply more_gains. }
    assert (∀ fd tr', more [fd] tr tr' → (0 ≤ lfd → lfd = lfd) ∧ more [fd; if lfd <? 0 then lfd else -1] tr tr') as Hout.
    { intros fd tr' M. split; [done |]. eapply more_perm; [apply perm_swap |]. apply more_neg; [destruct (Z.ltb_spec lfd 0); lia | done]. }
    apply Hdial. intros fd tr1 M1. destruct (Z.ltb_spec fd 0).
    { wps. apply Hout. apply more_neg; [lia |]. by apply more_neg in M1. }
    wp1. apply wp_await. intros ready tr2 L2. pose proof (more_level _ _ _ _ M1 L2) as M2.
    destruct ready as [[]|]; [| | wps; by eexists].
    + wp1. unfold net_socket_error. wp1. apply wp_quiet; [done |]. intros e L3. wps.
      eapply wp_settle_fd; [by eapply more_level |]. intros fd' tr4 M4 _. wps. by apply Hout.
    + wp1. eapply wp_settle_fd; [exact M2 |]. intros fd' tr4 M4 _. wps. by apply Hout.
Qed.

(** [lp_connect] returns a client with its two pipes open, or NULL and no
    descriptor; what [lp_disconnect] closes, once the tunnel is down, is all a
    client still holds, the listener included. *)
Theorem connect_disconnect h host listen_addr token peer_id tr :
  ∃ out tr1, lp_connect h host listen_addr token peer_id tr = Some (out, tr1) ∧
    match out with
    | None => more [] tr tr1
    | Some c => more (link_fds c) tr tr1 ∧
        ∀ lfd tr2, more [lfd] tr1 tr2 → ∃ tr3, lp_disconnect_fds c lfd tr2 = Some (tt, tr3) ∧ more [] tr tr3
    end.
Proof.
  apply wp_run, wp_lp_connect. intros [c|] tr1 M1; [| done]. split; [done |]. intros lfd tr2 M2.
  assert (more (lfd :: link_fds c) tr tr2) as M.
  { intros f Hf. rewrite (M2 f Hf), (M1 f Hf). cbn. destruct (lfd =? f); lia. }
  assert (wp (lp_disconnect_fds c lfd) (fun _ tr3 => more [] tr tr3) tr2) as ([] & tr3 & E & M3)%wp_run
    by (eapply wp_lp_disconnect_fds; [exact M | done]).
  by exists tr3.
Qed.
End Link.
