(* ===== verification/PyBinding.v ===== *)
(** The CPython binding of libpeer, python/muxpeermodule.c.

    A [Stream] object is an entry of [py_objs], the [Peer] object is [py_peer],
    and the client behind it is [py_client]: [None] once [lp_disconnect] has
    freed it, so that reaching it again is undefined.  Of CPython the model has
    what its C API documents: an object is created with one reference and its
    memory is not cleared, [Py_DECREF] runs [tp_dealloc] when the last reference
    goes, and a dict owns a reference to each value ([PyDict]).  Every call that
    can fail for want of memory takes an outcome of the oracle [py_heap].

    A blocking call answers [None] while it waits, as in Peer; an exception is
    the left of a sum. *)

From Stdlib Require Import ZArith Lia String Ascii.
From stdpp Require Import base numbers gmap gmultiset list.
From S2P Require Import Prelude Frame OutBuf EventQueue Probe StreamTable Session Auth Host Fifo Umap Peer CString Net PeerLink.

Open Scope Z_scope.

(** ** CPython *)

(** A dict from addresses (as integers) to [Stream] objects. *)
Class PyDict := {
  dict : Type;
  dict_new : dict;
  dict_get : dict -> Z -> option Z;
  dict_set : dict -> Z -> Z -> dict;
  dict_del : dict -> Z -> dict;
  dict_values : dict -> gmultiset Z;
}.

Class PyDictLaws `{PyDict} : Prop := {
  get_new k : dict_get dict_new k = None;
  get_set d k o j : dict_get (dict_set d k o) j = if k =? j then Some o else dict_get d j;
  get_del d k j : dict_get (dict_del d k) j = if k =? j then None else dict_get d j;
  values_new : dict_values dict_new = ∅;
  values_set d k o : dict_values (dict_set d k o) = {[+ o +]} ⊎ dict_values (dict_del d k);
  values_del d k o : dict_get d k = Some o -> dict_values d = {[+ o +]} ⊎ dict_values (dict_del d k);
  values_del_none d k : dict_get d k = None -> dict_values (dict_del d k) = dict_values d;
  values_get d o : o ∈ dict_values d -> exists k, dict_get d k = Some o;
}.

Inductive pyexn := OSError | RuntimeError | ValueError | MemoryError.

Definition or_nomem {A} (ok : bool) (a : A) : pyexn + A := if ok then inr a else inl MemoryError.
Definition raise {A} (e : pyexn) : pyexn + A := inl e.
Definition okay {A} (a : A) : pyexn + A := inr a.

(** A counted reference. *)
Inductive pyref := STREAM (o : Z) | PEER.

(** ** Objects *)

Record StreamObj := mk_StreamObj { so_refs : Z; so_s : option Z; so_peer : bool }.

Definition eta_so (o : StreamObj) : StreamObj := mk_StreamObj (so_refs o) (so_s o) (so_peer o).
#[export] Instance upd_so_refs : Update so_refs.
Proof. derive_update eta_so so_refs. Defined.
#[export] Instance upd_so_s : Update so_s.
Proof. derive_update eta_so so_s. Defined.

(** What the I/O thread runs with the mutex held. *)
Inductive section :=
  | SEC_BEFORE (k : stack) (rnd : bytes) (h : heap) (fd : Z) (ws : list write_res)
  | SEC_AFTER (k : stack) (po : polled) (rs : list read_res) (ws ws2 : list write_res) (now : Z)
  | SEC_DRAIN
  | SEC_FLUSH (ws : list write_res).

Definition run_section (s : section) : P unit :=
  match s with
  | SEC_BEFORE k rnd h fd ws => io_before k rnd h fd ws
  | SEC_AFTER k po rs ws ws2 now => io_after k po rs ws ws2 now
  | SEC_DRAIN => io_drain
  | SEC_FLUSH ws => io_drain_flush ws;; mret tt
  end.

Fixpoint run_sections (l : list section) : P unit :=
  match l with [] => mret tt | s :: l => run_section s;; run_sections l end.

Section Binding.
Context `{PyDict}.

(** [pe_c] is [c != NULL]; [pe_strs] are [s_listen], [s_host], [s_token] and
    [s_id], [None] while they are uninitialised. *)
Record PeerObj := mk_PeerObj {
  pe_refs : Z;
  pe_c : bool;
  pe_streams : option dict;
  pe_strs : option (view * view * view * view);
}.

(** [py_io]: the sections the I/O thread runs between [lp_stop] and its end. *)
Record py := mk_py {
  py_peer : option PeerObj;
  py_client : option lp_client;
  py_objs : gmap Z StreamObj;
  py_brk : Z;
  py_heap : heap;
  py_io : list section;
}.

Definition eta_pe (p : PeerObj) : PeerObj := mk_PeerObj (pe_refs p) (pe_c p) (pe_streams p) (pe_strs p).
Definition eta_py (y : py) : py :=
  mk_py (py_peer y) (py_client y) (py_objs y) (py_brk y) (py_heap y) (py_io y).

#[export] Instance upd_pe_refs : Update pe_refs.
Proof. derive_update eta_pe pe_refs. Defined.
#[export] Instance upd_pe_c : Update pe_c.
Proof. derive_update eta_pe pe_c. Defined.
#[export] Instance upd_pe_streams : Update pe_streams.
Proof. derive_update eta_pe pe_streams. Defined.
#[export] Instance upd_py_peer : Update py_peer.
Proof. derive_update eta_py py_peer. Defined.
#[export] Instance upd_py_client : Update py_client.
Proof. derive_update eta_py py_client. Defined.
#[export] Instance upd_py_objs : Update py_objs.
Proof. derive_update eta_py py_objs. Defined.
#[export] Instance upd_py_brk : Update py_brk.
Proof. derive_update eta_py py_brk. Defined.
#[export] Instance upd_py_heap : Update py_heap.
Proof. derive_update eta_py py_heap. Defined.
#[export] Instance upd_py_io : Update py_io.
Proof. derive_update eta_py py_io. Defined.

Abbreviation Y := (ST py).

(** ** Accessors *)

(** A call into libpeer; the client must not have been freed. *)
Definition lp {A} (m : P A) : Y A := fun y =>
  c ← py_client y;
  '(a, c) ← m c;
  Some (a, y <| py_client := Some c |>).

Definition obj (o : Z) : Y StreamObj := fun y => (fun so => (so, y)) <$> py_objs y !! o.
Definition put_obj (o : Z) (so : StreamObj) : Y unit := modify (fun y => y <| py_objs ::= <[o := so]> |>).
Definition self : Y PeerObj := fun y => (fun p => (p, y)) <$> py_peer y.
Definition put_self (p : PeerObj) : Y unit := modify (fun y => y <| py_peer := Some p |>).

Definition py_alloc : Y bool :=
  h ← gets py_heap; let '(ok, h) := alloc h in modify (fun y => y <| py_heap := h |>);; mret ok.

Definition new_obj (so : StreamObj) : Y Z :=
  o ← gets py_brk;
  modify (fun y => y <| py_brk := o + 1 |> <| py_objs ::= <[o := so]> |>);;
  mret o.

Definition Py_INCREF (o : Z) : Y unit := so ← obj o; put_obj o (so <| so_refs ::= Z.succ |>).

(** [lp_disconnect]: stop, join, and free the client with its streams. *)
Definition lp_disconnect : Y unit :=
  io ← gets py_io;
  lp (lp_stop;; run_sections io;; io_exit;; lp_release);;
  modify (fun y => y <| py_client := None |> <| py_io := [] |>).

(** ** Closing and deallocation *)

(** The key that is missing raises an exception, which is cleared. *)
Definition peer_drop_stream (decref : pyref -> Y unit) (s : Z) : Y unit :=
  p ← self;
  match pe_streams p with
  | None => mret tt
  | Some d =>
      key ← py_alloc;
      when_ key
        match dict_get d s with
        | None => mret tt
        | Some o => put_self (p <| pe_streams := Some (dict_del d s) |>);; decref (STREAM o)
        end
  end.

(** The body that [Stream_close], [Stream_exit] and [Stream_dealloc] share;
    [lp_close(NULL)] does nothing. *)
Definition finish_stream (decref : pyref -> Y unit) (o : Z) : Y unit :=
  so ← obj o;
  match so_s so with
  | None => mret tt
  | Some s =>
      when_ (so_peer so) (peer_drop_stream decref s);;
      so ← obj o;
      match so_s so with Some s => lp (lp_close s);; mret tt | None => mret tt end;;
      so ← obj o;
      put_obj o (so <| so_s := None |>)
  end.

Definition Stream_dealloc (decref : pyref -> Y unit) (o : Z) : Y unit :=
  finish_stream decref o;;
  so ← obj o;
  when_ (so_peer so) (decref PEER);;
  modify (fun y => y <| py_objs ::= delete o |>).

Fixpoint decref_all (decref : pyref -> Y unit) (os : list Z) : Y unit :=
  match os with [] => mret tt | o :: os => decref (STREAM o);; decref_all decref os end.

(** The values of the dict are released while the dict goes away: reaching it,
    or the object, from there is undefined. *)
Definition Peer_dealloc (decref : pyref -> Y unit) : Y unit :=
  p ← self;
  when_ (pe_c p) (lp_disconnect;; put_self (p <| pe_c := false |>));;
  modify (fun y => y <| py_peer := None |>);;
  match pe_streams p with Some d => decref_all decref (elements (dict_values d)) | None => mret tt end;;
  match pe_strs p with Some _ => mret tt | None => undef end.

(** A deallocation may release further references; [n] bounds the nesting. *)
Fixpoint Py_DECREF (n : nat) (x : pyref) : Y unit :=
  match n with
  | O => undef
  | S n =>
      match x with
      | STREAM o =>
          so ← obj o;
          if so_refs so <=? 0 then undef else
          put_obj o (so <| so_refs ::= Z.pred |>);;
          when_ (so_refs so =? 1) (Stream_dealloc (Py_DECREF n) o)
      | PEER =>
          p ← self;
          if pe_refs p <=? 0 then undef else
          put_self (p <| pe_refs ::= Z.pred |>);;
          when_ (pe_refs p =? 1) (Peer_dealloc (Py_DECREF n))
      end
  end.

(** An object is deallocated once: there are no more levels than objects. *)
Definition Py_decref (x : pyref) : Y unit := n ← gets (fun y => S (S (size (py_objs y)))); Py_DECREF n x.

(** ** Stream *)

(** [PyBytes_FromStringAndSize] *)
Definition new_bytes (b : bytes) : Y (pyexn + bytes) :=
  ok ← py_alloc; mret (or_nomem ok b).

(** The end of a read of [got >= 0] bytes into a buffer of [n]. *)
Definition bytes_read (got n : Z) (bs : bytes) : Y (pyexn + bytes) :=
  if got =? 0 then new_bytes [] else
  if got =? n then mret (okay bs) else new_bytes bs.

Definition Stream_recv (o n : Z) : Y (option (pyexn + bytes)) :=
  so ← obj o;
  match so_s so with
  | None => mret (Some (raise OSError))
  | Some s =>
      if n <=? 0 then r ← new_bytes []; mret (Some r) else
      buf ← py_alloc;
      if negb buf then mret (Some (raise MemoryError)) else
      r ← lp (lp_read s n);
      match r with
      | None => mret None
      | Some (got, bs) =>
          if got <? 0 then mret (Some (raise OSError)) else r ← bytes_read got n bs; mret (Some r)
      end
  end.

Definition Stream_sendall (o : Z) (data : bytes) : Y (option (pyexn + unit)) :=
  so ← obj o;
  match so_s so with
  | None => mret (Some (raise OSError))
  | Some s =>
      w ← (if zlen data >? 0 then lp (lp_write s data (zlen data)) else mret (Some 0));
      mret (match w with
            | None => None
            | Some w => Some (if w <? 0 then raise OSError else okay tt)
            end)
  end.

Definition Stream_recv_nb (o n : Z) : Y (pyexn + option bytes) :=
  let some r := match r : pyexn + bytes with inl e => raise e | inr b => okay (Some b) end in
  so ← obj o;
  match so_s so with
  | None => mret (okay None)
  | Some s =>
      if n <=? 0 then r ← new_bytes []; mret (some r) else
      buf ← py_alloc;
      if negb buf then mret (raise MemoryError) else
      '(got, bs) ← lp (lp_read_nb s n);
      if got =? LP_AGAIN then mret (okay None) else
      if got <? 0 then mret (raise OSError) else
      r ← bytes_read got n bs; mret (some r)
  end.

Definition Stream_send_nb (o : Z) (data : bytes) : Y (pyexn + option Z) :=
  so ← obj o;
  match so_s so with
  | None => mret (raise OSError)
  | Some s =>
      w ← (if zlen data >? 0 then lp (lp_write_nb s data (zlen data)) else mret 0);
      if w =? LP_AGAIN then mret (okay None) else
      if w <? 0 then mret (raise OSError) else
      ok ← py_alloc; mret (or_nomem ok (Some w))
  end.

Definition Stream_close (o : Z) : Y unit := finish_stream Py_decref o.
Definition Stream_enter (o : Z) : Y Z := Py_INCREF o;; mret o.
Definition Stream_exit (o : Z) : Y bool := finish_stream Py_decref o;; mret false.

Definition Stream_get_meta (o : Z) : Y (option (pyexn + bytes)) :=
  so ← obj o;
  match so_s so with
  | None => mret None
  | Some s => '(m, len) ← lp (lp_stream_meta s); r ← new_bytes (ztake len (vbytes m)); mret (Some r)
  end.

(** ** Peer *)

Definition peer_wrap (s : Z) : Y (option Z) :=
  ok ← py_alloc;
  if negb ok then mret None else
  o ← new_obj (mk_StreamObj 1 (Some s) true);
  p ← self;
  put_self (p <| pe_refs ::= Z.succ |>);;
  mret (Some o).

Definition Peer_accept : Y (option (pyexn + option Z)) :=
  p ← self;
  if negb (pe_c p) then mret (Some (raise OSError)) else
  r ← lp lp_accept;
  match r with
  | None => mret None
  | Some None => mret (Some (okay None))
  | Some (Some s) =>
      ok ← py_alloc;
      if negb ok then lp (lp_close s);; mret (Some (raise MemoryError)) else
      o ← new_obj (mk_StreamObj 1 (Some s) false);
      mret (Some (okay (Some o)))
  end.

(** The descriptor itself is [ll_notify] of PeerLink. *)
Definition Peer_fileno : Y (pyexn + unit) :=
  p ← self;
  if negb (pe_c p) then mret (raise OSError) else
  lp lp_fileno;;
  ok ← py_alloc; mret (or_nomem ok tt).

Definition clamp (maxev : Z) : Z :=
  let maxev := if maxev <? 1 then 1 else maxev in
  if maxev >? 4096 then 4096 else maxev.

Definition has_bit (events bit : Z) : bool := negb (Z.land events bit =? 0).

(** [PyDict_SetItem], memory permitting, and the release of the value replaced. *)
Definition streams_set (s o : Z) : Y unit :=
  p ← self;
  match pe_streams p with
  | None => undef
  | Some d =>
      put_self (p <| pe_streams := Some (dict_set d s o) |>);;
      Py_INCREF o;;
      match dict_get d s with Some old => Py_decref (STREAM old) | None => mret tt end
  end.

(** [PyDict_DelItem]; an exception for a missing key stays set. *)
Definition streams_del (s : Z) : Y unit :=
  p ← self;
  match pe_streams p with
  | None => undef
  | Some d =>
      match dict_get d s with
      | None => mret tt
      | Some o => put_self (p <| pe_streams := Some (dict_del d s) |>);; Py_decref (STREAM o)
      end
  end.

(** What the stream of an event resolves to: an object (a new reference), or
    the end of the iteration with or without failure. *)
Definition poll_object (s events : Z) : Y (bool + Z) :=
  if has_bit events LP_ACCEPT then
    w ← peer_wrap s;
    match w with
    | None => lp (lp_close s);; mret (inl false)
    | Some o =>
        ok ← py_alloc;
        if negb ok then Py_decref (STREAM o);; lp (lp_close s);; mret (inl false) else
        streams_set s o;; mret (inr o)
    end
  else
    p ← self;
    match pe_streams p with
    | None => undef
    | Some d =>
        match dict_get d s with
        | None => mret (inl true)
        | Some o => Py_INCREF o;; mret (inr o)
        end
    end.

(** One iteration: false when it goes to [fail], and the tuple appended. *)
Definition poll_event (s events : Z) : Y (bool * list (Z * Z)) :=
  key ← py_alloc;
  if negb key then lp (lp_close s);; mret (false, []) else
  so ← poll_object s events;
  match so with
  | inl ok => mret (ok, [])
  | inr o =>
      tup ← py_alloc;
      when_ tup (Py_INCREF o);;
      Py_decref (STREAM o);;
      if negb tup then mret (false, []) else
      app ← py_alloc;
      if negb app then Py_decref (STREAM o);; mret (false, []) else
      when_ (has_bit events LP_CLOSED) (streams_del s);;
      mret (true, [(o, events)])
  end.

Fixpoint poll_loop (evs : list (Z * Z)) (l : list (Z * Z)) : Y (bool * list (Z * Z)) :=
  match evs with
  | [] => mret (true, l)
  | (s, events) :: evs =>
      '(ok, item) ← poll_event s events;
      if negb ok then mret (false, l) else poll_loop evs (l ++ item)
  end.

Definition Peer_poll (maxev : Z) : Y (pyexn + list (Z * Z)) :=
  p ← self;
  if negb (pe_c p) then mret (raise OSError) else
  evs ← lp (lp_poll (clamp maxev));
  ok ← py_alloc;
  if negb ok then mret (raise MemoryError) else
  '(ok, l) ← poll_loop evs [];
  if negb ok then decref_all Py_decref l.*1;; mret (raise RuntimeError) else
  mret (okay l).

Definition Peer_close : Y unit :=
  p ← self;
  when_ (pe_c p) (put_self (p <| pe_c := false |>);; lp_disconnect).
Definition Peer_enter : Y unit := p ← self; put_self (p <| pe_refs ::= Z.succ |>).
Definition Peer_exit : Y bool := Peer_close;; mret false.

(** ** Module functions *)

Section Build.
Context `{OS}.

Definition dup_or_null (h : heap) (s : view) : heap * view := dup h s.

(** A Peer object without a client. *)
Definition peer_only (d : option dict) (strs : option (view * view * view * view)) : py :=
  mk_py (Some (mk_PeerObj 1 false d strs)) None ∅ 1 [] [].

(** [Py_DECREF(self); return NULL;] *)
Definition drop_self (y : py) (e : pyexn) : N (pyexn + py * link_cfg) :=
  match Py_decref PEER y with Some _ => mret (inl e) | None => undef end.

(** The end of [build_peer]: the connection is made with the strings of the
    object.  The result has the configuration of the connection beside it. *)
Definition finish_peer (h : heap) (strs : view * view * view * view)
  (weight init_window session_window heartbeat_ms port : Z) : N (pyexn + py * link_cfg) :=
  let '(s_listen, s_host, s_token, s_id) := strs in
  c ← lp_connect h s_host s_listen s_token s_id;
  match c with
  | None => drop_self (peer_only (Some dict_new) (Some strs)) OSError
  | Some c =>
      let cfg := mk_lp_config (bool_decide (is_Some (ll_listen_addr c))) (ll_token c) (ll_peer_id c)
                   weight init_window session_window heartbeat_ms in
      mret (inr (mk_py (Some (mk_PeerObj 1 true (Some dict_new) (Some strs))) (Some (lp_client_zero cfg)) ∅ 1 [] [],
                 mk_link_cfg (ll_listen_addr c) (ll_host c) port))
  end.

Definition build_peer (h : heap) (listen_addr dial_addr token id : view)
  (weight init_window session_window heartbeat_ms : Z) : N (pyexn + py * link_cfg) :=
  let '(ok, h) := alloc h in
  if negb ok then mret (raise MemoryError) else
  let '(ok, h) := alloc h in
  if negb ok then drop_self (peer_only None None) MemoryError else
  let '(h, s_listen) := dup_or_null h listen_addr in
  let '(h, s_token) := dup_or_null h token in
  let '(h, s_id) := dup_or_null h id in
  let connect (h : heap) (s_host : view) := finish_peer h (s_listen, s_host, s_token, s_id) weight init_window session_window heartbeat_ms in
  match listen_addr with
  | Some _ => connect h None 0
  | None =>
      if net_addr_is_unix dial_addr then let '(h, s_host) := dup_or_null h dial_addr in connect h s_host 0 else
      match net_parse_addr dial_addr 256 with
      | (0, Some host, Some port) => let '(h, s_host) := dup_or_null h (Some host) in connect h s_host port
      | (0, _, _) => undef
      | _ => drop_self (peer_only (Some dict_new) (Some (s_listen, None, s_token, s_id))) ValueError
      end
  end.

Definition mod_listen (h : heap) (addr : bytes) (token id : view) (weight iw sw hb : Z) : N (pyexn + py * link_cfg) :=
  build_peer h (Some addr) None token id weight iw sw hb.
Definition mod_connect (h : heap) (addr : bytes) (token id : view) (weight iw sw hb : Z) : N (pyexn + py * link_cfg) :=
  build_peer h None (Some addr) token id weight iw sw hb.
End Build.
End Binding.
