(* ===== verification/PyInv.v ===== *)
(** The CPython binding: the invariant of its objects, and one lemma per function.

    References are counted exactly: an object's count is the number of
    references the program holds plus those of the map; the Peer's is the
    program's plus one for each poll-mode Stream.  The handles libpeer has given
    out are those of the Stream objects, no two alike. *)

From Stdlib Require Import ZArith Lia String Ascii.
From stdpp Require Import base numbers gmap gmultiset list.
From S2P Require Import Prelude Frame OutBuf EventQueue Probe StreamTable Session Auth Host Fifo Umap Peer PeerInv PeerSteps PeerIO PeerSys PyBinding.

Open Scope Z_scope.

(** ** Dicts as finite maps *)

#[export] Instance gmap_dict : PyDict := {
  dict := gmap Z Z;
  dict_new := ∅;
  dict_get := fun d k => d !! k;
  dict_set := fun d k o => <[k := o]> d;
  dict_del := fun d k => delete k d;
  dict_values := fun d => list_to_set_disj (map_to_list d).*2;
}.

#[export] Instance gmap_dict_laws : PyDictLaws.
Proof.
  split; cbn; try done.
  - intros d k o j. rewrite lookup_insert. destruct (Z.eqb_spec k j); by destruct (decide _).
  - intros d k j. rewrite lookup_delete. destruct (Z.eqb_spec k j); by destruct (decide _).
  - intros d k o. rewrite <- insert_delete_eq, map_to_list_insert by apply lookup_delete_eq. done.
  - intros d k o E. rewrite <- (map_to_list_delete d k o E). done.
  - intros d k E. by rewrite delete_id.
  - intros d o [[k v] [-> E]]%elem_of_list_to_set_disj%list_elem_of_fmap. exists k. by apply elem_of_map_to_list.
Qed.

(** ** Objects *)

Abbreviation omap_t := (gmap Z StreamObj).
Implicit Types (m : omap_t) (so : StreamObj) (refs : gmultiset Z).

(** The handles of the objects, and how many are in poll mode. *)
Definition handles m : list Z := omap so_s (map_to_list m).*2.
Definition wrapped m : Z := zlen (List.filter so_peer (map_to_list m).*2).

(** What an object adds to them. *)
Definition slot so : list Z := option_list (so_s so).

Lemma zlen_perm {A} (l k : list A) : l ≡ₚ k → zlen l = zlen k.
Proof. intros E. unfold zlen. by rewrite E. Qed.

Lemma filter_perm {A} (f : A → bool) (l k : list A) : l ≡ₚ k → List.filter f l ≡ₚ List.filter f k.
Proof. intros E. induction E; cbn; repeat destruct (f _); eauto using Permutation. Qed.

Lemma handles_cons so l : omap so_s (so :: l) = slot so ++ omap so_s l.
Proof. unfold slot. cbn. by destruct (so_s so). Qed.

Lemma wrapped_cons so l : zlen (List.filter so_peer (so :: l)) = b2z (so_peer so) + zlen (List.filter so_peer l).
Proof. cbn. destruct (so_peer so); [by rewrite zlen_cons | done]. Qed.

Lemma handles_insert m o so : handles (<[o := so]> m) ≡ₚ slot so ++ handles (delete o m).
Proof.
  unfold handles. rewrite <- insert_delete_eq, map_to_list_insert by apply lookup_delete_eq. cbn [fmap list_fmap].
  by rewrite handles_cons.
Qed.

Lemma handles_split m o so : m !! o = Some so → handles m ≡ₚ slot so ++ handles (delete o m).
Proof. intros E. rewrite <- (insert_id m o so E) at 1. apply handles_insert. Qed.

Lemma wrapped_insert m o so : wrapped (<[o := so]> m) = b2z (so_peer so) + wrapped (delete o m).
Proof.
  unfold wrapped. rewrite <- wrapped_cons. apply zlen_perm, filter_perm.
  rewrite <- insert_delete_eq, map_to_list_insert by apply lookup_delete_eq. done.
Qed.

Lemma wrapped_split m o so : m !! o = Some so → wrapped m = b2z (so_peer so) + wrapped (delete o m).
Proof. intros E. rewrite <- (insert_id m o so E) at 1. apply wrapped_insert. Qed.

Lemma wrapped_nonneg m : 0 ≤ wrapped m.
Proof. apply zlen_nonneg. Qed.

Lemma handles_in m o so s : m !! o = Some so → so_s so = Some s → s ∈ handles m.
Proof. intros Ho Hs. rewrite (handles_split m o so Ho). unfold slot. rewrite Hs. by left. Qed.

Lemma in_handles m s : s ∈ handles m → ∃ o so, m !! o = Some so ∧ so_s so = Some s.
Proof.
  unfold handles. intros (so & [[o so'] [-> Ho]]%list_elem_of_fmap & Hs)%list_elem_of_omap. exists o, so'.
  split; [by apply elem_of_map_to_list | done].
Qed.

(** No handle is held twice. *)
Lemma handles_inj m o o' so so' s :
  NoDup (handles m) → m !! o = Some so → m !! o' = Some so' → so_s so = Some s → so_s so' = Some s → o = o'.
Proof.
  intros Hn Ho Ho' Hs Hs'. destruct (decide (o = o')) as [|Hne]; [done |]. rewrite (handles_split m o so Ho) in Hn.
  unfold slot in Hn. rewrite Hs in Hn. apply NoDup_cons in Hn as [[] _]. apply (handles_in _ o' so'); [| done].
  by rewrite lookup_delete_ne.
Qed.

Section Inv.
Context {PD : PyDict} {PL : PyDictLaws}.
Abbreviation Y := (ST py).
Implicit Types (y : py) (p : PeerObj) (d : dict).

(** ** The invariant *)

Definition client_ok (own : list Z) (c : lp_client) : Prop := ∃ arm, inv calm [] own arm c.

(** Without a client there is no handle. *)
Definition owns (own : list Z) (mc : option lp_client) : Prop :=
  match mc with Some c => client_ok own c | None => own = [] end.

Definition streams_of y : dict :=
  match py_peer y with Some p => default dict_new (pe_streams p) | None => dict_new end.

(** References to [o]: the program's and the map's. *)
Definition count (o : Z) refs y : Z := Z.of_nat (multiplicity o (refs ⊎ dict_values (streams_of y))).

Definition peer_ok (k : nat) y : Prop :=
  match py_peer y with
  | Some p => pe_refs p = Z.of_nat k + wrapped (py_objs y) ∧ 0 < pe_refs p ∧
      is_Some (pe_streams p) ∧ is_Some (pe_strs p) ∧ pe_c p = bool_decide (is_Some (py_client y))
  | None => k = 0%nat ∧ wrapped (py_objs y) = 0 ∧ py_client y = None
  end.

(** [refs] are the references the program holds, [k] how many it holds to the
    Peer, [pend] handles that have no object yet, [dying] an object whose
    deallocation has begun. *)
Record pyinv (pend : list Z) (dying : option Z) refs (k : nat) y : Prop := {
  pi_peer : peer_ok k y;
  pi_client : owns (pend ++ handles (py_objs y)) (py_client y);
  pi_refs : ∀ o, match py_objs y !! o with
                 | Some so => so_refs so = count o refs y ∧ (0 < so_refs so ∨ dying = Some o)
                 | None => count o refs y = 0
                 end;
  pi_dict : ∀ s o, dict_get (streams_of y) s = Some o →
              ∃ so, py_objs y !! o = Some so ∧ so_peer so = true ∧ so_s so = Some s;
  pi_brk : ∀ o, is_Some (py_objs y !! o) → o < py_brk y;
  pi_held : k = 0%nat → pend = [] ∧
              ∀ o so, py_objs y !! o = Some so → is_Some (so_s so) → so_peer so = true;
}.

Lemma client_perm own own' c : own ≡ₚ own' → client_ok own c → client_ok own' c.
Proof. intros E [arm Hc]. exists arm. by eapply inv_own_perm. Qed.

Lemma client_nodup own c : client_ok own c → NoDup own.
Proof. intros [arm [_ _ _ [Hn _] _ _ _ _ _ _ _ _ _ _]]. by apply NoDup_app in Hn as (_ & _ & ?). Qed.

Lemma owns_perm own own' mc : own ≡ₚ own' → owns own mc → owns own' mc.
Proof.
  destruct mc as [c|]; simpl; [apply client_perm |]. intros E ->. by apply Permutation_nil in E.
Qed.

Lemma owns_nodup own mc : owns own mc → NoDup own.
Proof. destruct mc as [c|]; simpl; [apply client_nodup | intros ->; apply NoDup_nil_2]. Qed.

(** Fields the invariant does not mention. *)
Lemma pyinv_heap pend dying refs k y h : pyinv pend dying refs k y → pyinv pend dying refs k (y <| py_heap := h |>).
Proof. by intros []. Qed.

Lemma pyinv_io pend dying refs k y l : pyinv pend dying refs k y → pyinv pend dying refs k (y <| py_io := l |>).
Proof. by intros []. Qed.

Lemma wp_py_alloc y (Q : bool → py → Prop) :
  (∀ ok h, Q ok (y <| py_heap := h |>)) → wp py_alloc Q y.
Proof. intros HQ. unfold py_alloc. wps. destruct (alloc _) as [ok h]. wps. apply HQ. Qed.

(** With memory to spare. *)
Lemma wp_py_alloc_ok y (Q : bool → py → Prop) : py_heap y = [] → Q true y → wp py_alloc Q y.
Proof. intros E HQ. unfold py_alloc. wps. rewrite E. cbn. wps. destruct y; cbn in *. by subst. Qed.

Lemma wp_obj y o so (Q : StreamObj → py → Prop) : py_objs y !! o = Some so → Q so y → wp (obj o) Q y.
Proof. intros E HQ. unfold wp, obj. by rewrite E. Qed.

Lemma wp_self y p (Q : PeerObj → py → Prop) : py_peer y = Some p → Q p y → wp self Q y.
Proof. intros E HQ. unfold wp, self. by rewrite E. Qed.

(** ** Calls into libpeer *)

Lemma wp_lp {A} (m : P A) y c (Q : A → py → Prop) :
  py_client y = Some c → wp m (fun a c' => Q a (y <| py_client := Some c' |>)) c → wp (lp m) Q y.
Proof.
  intros E Hm. unfold wp, lp in *. rewrite E. cbn. destruct (m c) as [[a c']|]; done.
Qed.

Lemma pyinv_client pend pend' dying refs k y c c' :
  pyinv pend dying refs k y → py_client y = Some c → client_ok (pend' ++ handles (py_objs y)) c' →
  (k = 0%nat → pend' = []) → pyinv pend' dying refs k (y <| py_client := Some c' |>).
Proof.
  intros [] E Hc Hk. split; try done.
  - unfold peer_ok in *. cbn. destruct (py_peer y); [| naive_solver congruence]. rewrite E in pi_peer0. naive_solver.
  - cbn. intros Hk0. destruct (pi_held0 Hk0). auto.
Qed.

Lemma open_client pend dying refs k y o so s :
  pyinv pend dying refs k y → py_objs y !! o = Some so → so_s so = Some s →
  ∃ c arm, py_client y = Some c ∧ inv calm [] (pend ++ handles (py_objs y)) arm c ∧ s ∈ pend ++ handles (py_objs y).
Proof.
  intros [] Ho Hs. pose proof (handles_in _ _ _ _ Ho Hs) as Hin. destruct (py_client y) as [c|].
  - destruct pi_client0 as [arm Hc]. exists c, arm. split_and!; [done | done |]. apply elem_of_app. by right.
  - apply app_nil in pi_client0 as [_ E]. rewrite E in Hin. by apply elem_of_nil in Hin.
Qed.

(** A call that leaves the handles alone. *)
Lemma wp_lp_keep {A} (m : P A) pend dying refs k y c arm (Q : A → py → Prop) :
  pyinv pend dying refs k y → py_client y = Some c → inv calm [] (pend ++ handles (py_objs y)) arm c →
  wp m (fun _ c' => ∃ arm', inv calm [] (pend ++ handles (py_objs y)) arm' c') c →
  (∀ a c', pyinv pend dying refs k (y <| py_client := Some c' |>) → Q a (y <| py_client := Some c' |>)) →
  wp (lp m) Q y.
Proof.
  intros Hy E Hc Hm HQ. eapply wp_lp; [exact E |]. eapply wp_mono; [exact Hm |]. intros a c' Hc'. apply HQ.
  eapply pyinv_client; [exact Hy | exact E | exact Hc' |]. intros Hk. by apply (pi_held _ _ _ _ _ Hy).
Qed.

(** ** The I/O thread *)

Lemma wp_section sec own c (Q : unit → lp_client → Prop) :
  client_ok own c → (∀ c', client_ok own c' → Q tt c') → wp (run_section sec) Q c.
Proof.
  intros [arm Hc] HQ. assert (∀ c', inv calm [] own arm c' → Q tt c') as HQ' by (intros c' ?; apply HQ; by exists arm).
  destruct sec; cbn [run_section].
  - by eapply wp_io_before.
  - by eapply wp_io_after.
  - eapply wp_io_drain; [exact Hc |]. intros. by apply HQ'.
  - wp1. eapply wp_io_drain_flush; [exact Hc |]. intros. by apply wp_ret, HQ'.
Qed.

Lemma wp_sections l own c (Q : unit → lp_client → Prop) :
  client_ok own c → (∀ c', client_ok own c' → Q tt c') → wp (run_sections l) Q c.
Proof.
  revert c. induction l as [|sec l IH]; intros c Hc HQ; cbn [run_sections]; [by apply wp_ret, HQ |].
  wp1. eapply wp_section; [exact Hc |]. intros c' Hc'. by apply IH.
Qed.

(** [lp_disconnect] ends, whatever the application has left open. *)
Lemma wp_disconnect y c own (Q : unit → py → Prop) :
  py_client y = Some c → client_ok own c → Q tt (y <| py_client := None |> <| py_io := [] |>) → wp lp_disconnect Q y.
Proof.
  intros E Hc HQ. unfold lp_disconnect. wps. eapply wp_lp; [exact E |].
  unfold lp_stop. wps. destruct Hc as [arm Hc]. eapply (wp_io_wake calm [] own arm); [eapply inv_other; [| exact Hc]; same_view |].
  intros c1 H1 _ _. wp1. eapply wp_sections; [by exists arm |]. intros c2 [arm2 H2].
  wp1. eapply wp_io_exit; [exact H2 |]. intros c3 H3 _ _. unfold lp_release. wps.
  destruct (iv_all _ _ _ _ _ H3) as [Hn Ha]. destruct (lp_free_all_ok (lc_all c3) c3 Hn) as (c4 & E4 & _).
  { intros q. rewrite Ha. split; [intros (s & ? & _); by exists s | intros [s ?]; by exists s]. }
  unfold wp. rewrite E4. exact HQ.
Qed.

(** ** Counting references *)

Lemma count_add o refs y :
  count o refs y = Z.of_nat (multiplicity o refs) + Z.of_nat (multiplicity o (dict_values (streams_of y))).
Proof. unfold count. rewrite multiplicity_disj_union. lia. Qed.

Lemma mult_add o' o refs :
  Z.of_nat (multiplicity o' ({[+ o +]} ⊎ refs)) = b2z (bool_decide (o' = o)) + Z.of_nat (multiplicity o' refs).
Proof.
  rewrite multiplicity_disj_union, multiplicity_singleton. case_bool_decide; case_decide; try done; cbn [b2z]; lia.
Qed.

Lemma mult_sub o' o refs :
  o ∈ refs → Z.of_nat (multiplicity o' (refs ∖ {[+ o +]})) = Z.of_nat (multiplicity o' refs) - b2z (bool_decide (o' = o)).
Proof.
  intros Ho. rewrite elem_of_multiplicity in Ho. rewrite multiplicity_difference, multiplicity_singleton.
  case_bool_decide; case_decide; try done; subst; cbn [b2z]; lia.
Qed.

Lemma handles_put m o so so' : m !! o = Some so → so_s so' = so_s so → handles (<[o := so']> m) ≡ₚ handles m.
Proof. intros Ho E. rewrite handles_insert, (handles_split m o so Ho). unfold slot. by rewrite E. Qed.

Lemma wrapped_put m o so so' : m !! o = Some so → so_peer so' = so_peer so → wrapped (<[o := so']> m) = wrapped m.
Proof. intros Ho E. by rewrite wrapped_insert, (wrapped_split m o so Ho), E. Qed.

(** A reference held is to a live object. *)
Lemma ref_live pend dying refs k y o :
  pyinv pend dying refs k y → o ∈ refs → ∃ so, py_objs y !! o = Some so ∧ so_refs so = count o refs y.
Proof.
  intros [] Ho. rewrite elem_of_multiplicity in Ho. specialize (pi_refs0 o). destruct (py_objs y !! o) as [so|].
  - exists so. naive_solver.
  - rewrite count_add in pi_refs0. lia.
Qed.

Lemma map_live pend dying refs k y s o :
  pyinv pend dying refs k y → dict_get (streams_of y) s = Some o → o ∈ dict_values (streams_of y).
Proof.
  intros _ E. rewrite (values_del _ _ _ E). apply gmultiset_elem_of_disj_union. left.
  by apply gmultiset_elem_of_singleton.
Qed.

(** A new count for one object. *)
Lemma pyinv_refs pend dying dying' refs refs' k y o so n :
  pyinv pend dying refs k y → py_objs y !! o = Some so →
  n = count o refs' y → 0 < n ∨ dying' = Some o →
  (∀ o', o' ≠ o → multiplicity o' refs' = multiplicity o' refs ∧ dying ≠ Some o') →
  pyinv pend dying' refs' k (y <| py_objs ::= <[o := so <| so_refs := n |>]> |>).
Proof.
  intros [] Ho Hn Hpos Hoth. split; cbn.
  - unfold peer_ok. cbn. rewrite (wrapped_put _ _ so) by done. exact pi_peer0.
  - eapply owns_perm; [| exact pi_client0]. by rewrite (handles_put _ _ so).
  - intros o'. specialize (pi_refs0 o'). destruct (decide (o' = o)) as [->|Hne].
    + by rewrite lookup_insert_eq.
    + rewrite lookup_insert_ne by done. destruct (Hoth o' Hne) as [Em Hd].
      assert (count o' refs' y = count o' refs y) as Ec by (by rewrite !count_add, Em).
      change (count o' refs' (upd py_objs _ y)) with (count o' refs' y). rewrite Ec.
      destruct (py_objs y !! o') as [so'|]; [| done]. destruct pi_refs0 as [-> [?|?]]; [auto | done].
  - intros s o' E. destruct (pi_dict0 s o' E) as (so' & Ho' & P' & S'). destruct (decide (o' = o)) as [->|Hne].
    + exists (so <| so_refs := n |>). rewrite lookup_insert_eq. simplify_eq. by split_and!.
    + exists so'. by rewrite lookup_insert_ne.
  - intros o' [so' [[<- _]|[_ Hs]]%lookup_insert_Some]; apply pi_brk0; by eexists.
  - intros Hk. destruct (pi_held0 Hk) as [Ep Hh]. split; [done |].
    intros o' so' [[<- <-]|[_ Hs]]%lookup_insert_Some Hss; [by apply (Hh o so) | by apply (Hh o' so')].
Qed.

Lemma wp_put_obj y o so (Q : unit → py → Prop) :
  Q tt (y <| py_objs ::= <[o := so]> |>) → wp (put_obj o so) Q y.
Proof. done. Qed.

Lemma wp_incref pend dying refs k y o so (Q : unit → py → Prop) :
  pyinv pend dying refs k y → py_objs y !! o = Some so → (∀ o', dying ≠ Some o') →
  (∀ so', py_objs y !! o = Some so → so_s so' = so_s so → so_peer so' = so_peer so →
     pyinv pend dying ({[+ o +]} ⊎ refs) k (y <| py_objs ::= <[o := so']> |>) →
     Q tt (y <| py_objs ::= <[o := so']> |>)) →
  wp (Py_INCREF o) Q y.
Proof.
  intros Hy Ho Hd HQ. unfold Py_INCREF. wp1. eapply wp_obj; [exact Ho |]. apply wp_put_obj, HQ; try done.
  pose proof (pi_refs _ _ _ _ _ Hy o) as Hr. rewrite Ho in Hr. destruct Hr as [Hr [Hp|Hp]]; [| by apply Hd in Hp].
  apply (pyinv_refs pend dying dying refs _ k y o so (Z.succ (so_refs so))); [done | done | | left; lia |].
  - rewrite Hr, !count_add, mult_add, bool_decide_eq_true_2 by done. cbn. lia.
  - intros o' Hne. split; [| done]. rewrite multiplicity_disj_union, multiplicity_singleton_ne by done. lia.
Qed.

(** ** Closing a stream *)

(** Releasing a reference that is not the last. *)
Definition shared (decref : pyref → Y unit) : Prop :=
  ∀ y o so (Q : unit → py → Prop),
    py_objs y !! o = Some so → 2 ≤ so_refs so →
    Q tt (y <| py_objs ::= <[o := so <| so_refs ::= Z.pred |>]> |>) → wp (decref (STREAM o)) Q y.

Lemma Py_DECREF_eq n o :
  Py_DECREF (S n) (STREAM o) =
  (so ← obj o;
   if so_refs so <=? 0 then undef else
   put_obj o (so <| so_refs ::= Z.pred |>);; when_ (so_refs so =? 1) (Stream_dealloc (Py_DECREF n) o)).
Proof. done. Qed.

Lemma shared_DECREF n : shared (Py_DECREF (S n)).
Proof.
  intros y o so Q Ho Hr HQ. rewrite Py_DECREF_eq. wp1. eapply wp_obj; [exact Ho |].
  destruct (Z.leb_spec (so_refs so) 0); [lia |]. wp1. apply wp_put_obj. destruct (Z.eqb_spec (so_refs so) 1); [lia |].
  by apply wp_ret.
Qed.

Lemma shared_decref : shared Py_decref.
Proof. intros y o so Q Ho Hr HQ. unfold Py_decref. wps. by eapply shared_DECREF. Qed.

Lemma peer_alive pend dying refs k y o so :
  pyinv pend dying refs k y → py_objs y !! o = Some so → so_peer so = true →
  ∃ p d, py_peer y = Some p ∧ pe_streams p = Some d ∧ streams_of y = d.
Proof.
  intros [] Ho Hp. unfold streams_of, peer_ok in *. destruct (py_peer y) as [p|].
  - destruct pi_peer0 as (_ & _ & [d Hd] & _). exists p, d. by rewrite Hd.
  - destruct pi_peer0 as (_ & Hw & _). rewrite (wrapped_split _ _ _ Ho), Hp in Hw. cbn in Hw.
    pose proof (wrapped_nonneg (delete o (py_objs y))). lia.
Qed.

(** An entry leaves the map, which gives up its reference. *)
Lemma pyinv_unmap pend dying refs k y p d s o so :
  pyinv pend dying refs k y → py_peer y = Some p → pe_streams p = Some d → dict_get d s = Some o →
  py_objs y !! o = Some so → 2 ≤ so_refs so →
  pyinv pend dying refs k (y <| py_peer := Some (p <| pe_streams := Some (dict_del d s) |>) |>
                             <| py_objs ::= <[o := so <| so_refs ::= Z.pred |>]> |>).
Proof.
  intros [] Ep Ed Es Ho Hr. assert (streams_of y = d) as Esd by (unfold streams_of; by rewrite Ep, Ed).
  unfold peer_ok in pi_peer0. rewrite Ep in pi_peer0. rewrite Esd in pi_dict0. split; cbn.
  - unfold peer_ok. cbn. rewrite (wrapped_put _ _ so) by done. destruct pi_peer0 as (-> & ? & _ & ? & ?). by split_and!.
  - eapply owns_perm; [| exact pi_client0]. by rewrite (handles_put _ _ so).
  - intros o'. specialize (pi_refs0 o'). set (y' := upd py_objs _ _).
    assert (count o' refs y' = count o' refs y - b2z (bool_decide (o' = o))) as Ec.
    { rewrite !count_add, Esd. rewrite (values_del _ _ _ Es), mult_add. cbn. lia. }
    rewrite Ec. destruct (decide (o' = o)) as [->|Hne].
    + rewrite lookup_insert_eq, bool_decide_eq_true_2 by done. rewrite Ho in pi_refs0. cbn in *.
      destruct pi_refs0 as [E _]. split; [unfold upd, upd_so_refs; cbn; lia | left; unfold upd, upd_so_refs; cbn; lia].
    + rewrite lookup_insert_ne, bool_decide_eq_false_2 by done. cbn. rewrite Z.sub_0_r. exact pi_refs0.
  - intros s' o' E. unfold streams_of in E. cbn in E. rewrite get_del in E. destruct (Z.eqb_spec s s') as [|Hne]; [done |].
    destruct (pi_dict0 s' o' E) as (so' & Ho' & P' & S'). destruct (decide (o' = o)) as [->|Hne'].
    + rewrite lookup_insert_eq. simplify_eq. by eexists.
    + rewrite lookup_insert_ne by done. by exists so'.
  - intros o' [so' [[<- _]|[_ Hs]]%lookup_insert_Some]; apply pi_brk0; by eexists.
  - intros Hk. destruct (pi_held0 Hk) as [E Hh]. split; [done |].
    intros o' so' [[<- <-]|[_ Hs]]%lookup_insert_Some Hss; [by apply (Hh o so) | by apply (Hh o' so')].
Qed.

(** A stream is closed whose entry has left the map. *)
Lemma pyinv_closed pend dying refs k y o so s c c' :
  pyinv pend dying refs k y → py_objs y !! o = Some so → so_s so = Some s → dict_get (streams_of y) s = None →
  py_client y = Some c → client_ok (remove_all s (pend ++ handles (py_objs y))) c' →
  pyinv pend dying refs k (y <| py_client := Some c' |> <| py_objs ::= <[o := so <| so_s := None |>]> |>).
Proof.
  intros [] Ho Hs Hd Ec Hc'. rewrite Ec in *. pose proof (owns_nodup _ _ pi_client0) as Hn. split; cbn.
  - unfold peer_ok in *. cbn. rewrite (wrapped_put _ _ so) by done. rewrite Ec in pi_peer0. by destruct (py_peer y); [| naive_solver].
  - eapply client_perm; [| exact Hc']. rewrite handles_insert. cbn.
    assert (pend ++ handles (py_objs y) ≡ₚ s :: pend ++ handles (delete o (py_objs y))) as E.
    { rewrite (handles_split _ _ _ Ho). unfold slot. rewrite Hs. cbn. by rewrite Permutation_middle. }
    apply (Permutation_cons_inv (a := s)). rewrite <- E. symmetry. apply remove_perm; [done |]. rewrite E. by left.
  - intros o'. specialize (pi_refs0 o'). destruct (decide (o' = o)) as [->|Hne].
    + rewrite lookup_insert_eq. by rewrite Ho in pi_refs0.
    + by rewrite lookup_insert_ne.
  - intros s' o' E. change (dict_get (streams_of y) s' = Some o') in E. destruct (pi_dict0 s' o' E) as (so' & Ho' & P' & S').
    destruct (decide (o' = o)) as [->|Hne']; [| rewrite lookup_insert_ne by done; by exists so'].
    assert (so' = so) as -> by congruence. assert (s' = s) as -> by congruence. congruence.
  - intros o' [so' [[<- _]|[_ Hs']]%lookup_insert_Some]; apply pi_brk0; by eexists.
  - intros Hk. destruct (pi_held0 Hk) as [E Hh]. split; [done |].
    intros o' so' [[<- <-]|[_ Hs']]%lookup_insert_Some Hss; [by destruct Hss | by apply (Hh o' so')].
Qed.

(** The entry of a handle is the object that has it. *)
Lemma map_entry pend dying refs k y o so s o' :
  pyinv pend dying refs k y → py_objs y !! o = Some so → so_s so = Some s → dict_get (streams_of y) s = Some o' →
  o' = o ∧ so_peer so = true.
Proof.
  intros Hy Ho Hs E. destruct (pi_dict _ _ _ _ _ Hy _ _ E) as (so' & Ho' & P' & S').
  assert (o' = o) as ->; [| split; congruence]. apply (handles_inj (py_objs y) _ _ so' so s); try done.
  pose proof (owns_nodup _ _ (pi_client _ _ _ _ _ Hy)) as Hn. by apply NoDup_app in Hn as (_ & _ & ?).
Qed.

Lemma wp_drop decref pend dying refs k y o so s (Q : unit → py → Prop) :
  shared decref → pyinv pend dying refs k y → py_heap y = [] → py_objs y !! o = Some so → so_s so = Some s →
  (o ∈ dict_values (streams_of y) → 2 ≤ so_refs so) →
  (∀ y' n, pyinv pend dying refs k y' → py_heap y' = [] → py_objs y' !! o = Some (so <| so_refs := n |>) →
     n ≤ so_refs so → dict_get (streams_of y') s = None → Q tt y') →
  wp (when_ (so_peer so) (peer_drop_stream decref s)) Q y.
Proof.
  intros Hdec Hy Hh Ho Hs Hr HQ. assert (so <| so_refs := so_refs so |> = so) as Eso by by destruct so.
  apply wp_when; intros Hp.
  - destruct (peer_alive _ _ _ _ _ _ _ Hy Ho Hp) as (p & d & Ep & Ed & Esd).
    unfold peer_drop_stream. wp1. eapply wp_self; [exact Ep |]. rewrite Ed. wp1. apply wp_py_alloc_ok; [done |].
    cbn [when_]. destruct (dict_get d s) as [o'|] eqn:E.
    + rewrite <- Esd in E. destruct (map_entry _ _ _ _ _ _ _ _ _ Hy Ho Hs E) as [-> _].
      assert (2 ≤ so_refs so) as H2 by (apply Hr; by eapply map_live). rewrite Esd in E.
      unfold put_self. wps. eapply Hdec; [exact Ho | exact H2 |]. eapply (HQ _ (Z.pred (so_refs so))).
      * by eapply pyinv_unmap.
      * done.
      * cbn. by rewrite lookup_insert_eq.
      * lia.
      * unfold streams_of. cbn. by rewrite get_del, Z.eqb_refl.
    + wps. apply (HQ _ (so_refs so)); [done | done | by rewrite Eso | done | by rewrite Esd].
  - apply (HQ _ (so_refs so)); [done | done | by rewrite Eso | done |]. apply eq_None_not_Some. intros [o' E].
    destruct (map_entry _ _ _ _ _ _ _ _ _ Hy Ho Hs E) as [_ Hp']. congruence.
Qed.

Lemma wp_finish_stream decref pend dying refs k y o so (Q : unit → py → Prop) :
  shared decref → pyinv pend dying refs k y → py_heap y = [] → py_objs y !! o = Some so →
  (o ∈ dict_values (streams_of y) → 2 ≤ so_refs so) →
  (∀ y' so', pyinv pend dying refs k y' → py_heap y' = [] → py_objs y' !! o = Some so' → so_s so' = None →
     so_peer so' = so_peer so → so_refs so' ≤ so_refs so → Q tt y') →
  wp (finish_stream decref o) Q y.
Proof.
  intros Hdec Hy Hh Ho Hr HQ. unfold finish_stream. wp1. eapply wp_obj; [exact Ho |].
  destruct (so_s so) as [s|] eqn:Hs; [| wp1; by eapply (HQ y so)].
  wp1. eapply wp_drop; [exact Hdec | exact Hy | exact Hh | exact Ho | exact Hs | exact Hr |].
  intros y1 n H1 Hh1 Ho1 Hn1 Hd1. wp1. eapply wp_obj; [exact Ho1 |]. cbn [so_s upd upd_so_refs]. rewrite Hs.
  assert (so_s (so <| so_refs := n |>) = Some s) as Hs1 by done.
  destruct (open_client _ _ _ _ _ _ _ _ H1 Ho1 Hs1) as (c & arm & Ec & Hc & Hin).
  do 2 wp1. eapply wp_lp; [exact Ec |]. eapply wp_lp_close; [exact Hc | exact Hin |]. intros c' Hc'. wps.
  eapply wp_obj; [exact Ho1 |]. apply wp_put_obj. eapply HQ.
  - eapply pyinv_closed; [exact H1 | exact Ho1 | exact Hs1 | exact Hd1 | exact Ec | by exists arm].
  - done.
  - cbn. by rewrite lookup_insert_eq.
  - done.
  - done.
  - exact Hn1.
Qed.

(** ** Deallocation *)

(** Objects go that nobody refers to, or the Peer does. *)
Lemma pyinv_less pend dying refs k k' y y' :
  pyinv pend dying refs k y →
  (∀ o, match py_objs y' !! o with
        | Some so => py_objs y !! o = Some so ∧ dying ≠ Some o
        | None => count o refs y = 0
        end) →
  py_brk y' = py_brk y → dict_values (streams_of y') = dict_values (streams_of y) →
  (∀ s o, dict_get (streams_of y') s = Some o → dict_get (streams_of y) s = Some o) →
  peer_ok k' y' → owns (pend ++ handles (py_objs y')) (py_client y') →
  (k' = 0%nat → pend = [] ∧ ∀ o so, py_objs y' !! o = Some so → is_Some (so_s so) → so_peer so = true) →
  pyinv pend None refs k' y'.
Proof.
  intros Hy Hm Eb Ev Hd Hp Hc Hk. assert (∀ o, count o refs y' = count o refs y) as Ec by (intros o; by rewrite !count_add, Ev).
  split; [done | done | | | | done].
  - intros o. rewrite Ec. specialize (Hm o). pose proof (pi_refs _ _ _ _ _ Hy o) as Hr.
    destruct (py_objs y' !! o) as [so|]; [| done]. destruct Hm as [Ho Hnd]. rewrite Ho in Hr. naive_solver.
  - intros s o E%Hd. destruct (pi_dict _ _ _ _ _ Hy _ _ E) as (so & Ho & P' & S'). exists so. split; [| done].
    specialize (Hm o). destruct (py_objs y' !! o) as [so'|]; [naive_solver congruence |].
    pose proof (map_live _ _ _ _ _ _ _ Hy E) as Hv. rewrite elem_of_multiplicity in Hv. rewrite count_add in Hm. lia.
  - intros o [so Ho]. specialize (Hm o). rewrite Ho in Hm. rewrite Eb. apply (pi_brk _ _ _ _ _ Hy). naive_solver.
Qed.

(** Without poll-mode objects the map is empty. *)
Lemma map_empty_values pend dying refs k y :
  pyinv pend dying refs k y → (∀ o so, py_objs y !! o = Some so → so_peer so = true → o ∉ dict_values (streams_of y)) →
  dict_values (streams_of y) = ∅.
Proof.
  intros Hy Hn. apply gmultiset_eq. intros o. rewrite multiplicity_empty. apply not_elem_of_multiplicity. intros Hv.
  destruct (values_get _ _ Hv) as [s E]. destruct (pi_dict _ _ _ _ _ Hy _ _ E) as (so & Ho & P' & _).
  by apply (Hn o so).
Qed.

Lemma wp_Peer_dealloc decref y p d own (Q : unit → py → Prop) :
  py_peer y = Some p → pe_streams p = Some d → dict_values d = ∅ → is_Some (pe_strs p) →
  pe_c p = bool_decide (is_Some (py_client y)) → owns own (py_client y) →
  (∀ y', py_peer y' = None → py_client y' = None → py_objs y' = py_objs y → py_brk y' = py_brk y →
     py_heap y' = py_heap y → Q tt y') →
  wp (Peer_dealloc decref) Q y.
Proof.
  intros Ep Ed Ev [strs Es] Ec Hc HQ. unfold Peer_dealloc. wp1. eapply wp_self; [exact Ep |].
  rewrite Ed, Es, Ev, gmultiset_elements_empty. cbn [decref_all]. wp1. apply wp_when; intros Hpc; rewrite Hpc in Ec; symmetry in Ec.
  - apply bool_decide_eq_true in Ec as [c Ec]. rewrite Ec in Hc. wp1. eapply wp_disconnect; [exact Ec | exact Hc |].
    unfold put_self. wps. by apply HQ.
  - apply bool_decide_eq_false, eq_None_not_Some in Ec. wps. by apply HQ.
Qed.

(** Releasing a reference to the Peer. *)
Lemma wp_decref_peer n y p d own (Q : unit → py → Prop) :
  py_peer y = Some p → 0 < pe_refs p → pe_streams p = Some d → is_Some (pe_strs p) →
  pe_c p = bool_decide (is_Some (py_client y)) →
  (pe_refs p = 1 → dict_values d = ∅ ∧ owns own (py_client y)) →
  (1 < pe_refs p → Q tt (y <| py_peer := Some (p <| pe_refs ::= Z.pred |>) |>)) →
  (∀ y', pe_refs p = 1 → py_peer y' = None → py_client y' = None → py_objs y' = py_objs y → py_brk y' = py_brk y →
     py_heap y' = py_heap y → Q tt y') →
  wp (Py_DECREF (S n) PEER) Q y.
Proof.
  intros Ep Hr Ed Es Ec Hlast HQ1 HQ2. cbn [Py_DECREF]. wp1. eapply wp_self; [exact Ep |].
  destruct (Z.leb_spec (pe_refs p) 0); [lia |]. unfold put_self. wps. apply wp_when; intros E.
  - apply Z.eqb_eq in E. destruct (Hlast E) as [Ev Hc].
    eapply (wp_Peer_dealloc _ _ (p <| pe_refs ::= Z.pred |>)); [done | exact Ed | exact Ev | exact Es | exact Ec | exact Hc |].
    intros y'. cbn. intros. by apply HQ2.
  - apply Z.eqb_neq in E. apply HQ1. lia.
Qed.

Lemma not_wrapped m o so : wrapped m = 0 → m !! o = Some so → so_peer so = false.
Proof.
  intros Hw Ho. rewrite (wrapped_split _ _ _ Ho) in Hw. pose proof (wrapped_nonneg (delete o m)).
  destruct (so_peer so); [cbn in Hw; lia | done].
Qed.

(** A deallocation has closed the stream of [o], to which nothing refers. *)
Section Tail.
Context (pend : list Z) (refs : gmultiset Z) (k : nat) (y : py) (o : Z) (so : StreamObj).
Context (Hy : pyinv pend (Some o) refs k y) (Ho : py_objs y !! o = Some so) (Hs : so_s so = None).
Context (Hcnt : count o refs y = 0).

Let rest : omap_t := delete o (py_objs y).

Lemma tail_less q :
  match rest !! q with Some so => py_objs y !! q = Some so ∧ Some o ≠ Some q | None => count q refs y = 0 end.
Proof using All.
  unfold rest. destruct (decide (q = o)) as [->|Hne]; [by rewrite lookup_delete_eq |].
  rewrite lookup_delete_ne by done. pose proof (pi_refs _ _ _ _ _ Hy q) as Hq.
  destruct (py_objs y !! q); [split; congruence | done].
Qed.

Lemma tail_owns : owns (pend ++ handles rest) (py_client y).
Proof using All.
  eapply owns_perm; [| exact (pi_client _ _ _ _ _ Hy)]. rewrite (handles_split _ _ _ Ho). unfold slot. by rewrite Hs.
Qed.

Lemma tail_held :
  k = 0%nat → pend = [] ∧ ∀ q so', rest !! q = Some so' → is_Some (so_s so') → so_peer so' = true.
Proof using All.
  intros Hk. destruct (pi_held _ _ _ _ _ Hy Hk) as [Ep Hh]. split; [done |].
  intros q so' [_ Hq]%lookup_delete_Some. by apply (Hh q).
Qed.

(** It was the last in poll mode. *)
Lemma tail_values : wrapped rest = 0 → dict_values (streams_of y) = ∅.
Proof using All.
  intros Hw. eapply map_empty_values; [exact Hy |]. intros q so' Hq Hp. destruct (decide (q = o)) as [->|Hne].
  - rewrite elem_of_multiplicity. rewrite count_add in Hcnt. lia.
  - rewrite (not_wrapped rest q so') in Hp; [done | done |]. unfold rest. by rewrite lookup_delete_ne.
Qed.

Lemma tail_quiet : k = 0%nat → wrapped rest = 0 → pend ++ handles rest = [].
Proof using All.
  intros [-> Hh]%tail_held Hw. destruct (handles rest) as [|s l] eqn:E; [done |].
  destruct (in_handles rest s) as (q & so' & Hq & Hs'); [rewrite E; by left |].
  pose proof (Hh q so' Hq ltac:(by exists s)) as Hp. by rewrite (not_wrapped rest q so') in Hp.
Qed.

(** The end of the deallocation. *)
Lemma wp_tail n (Q : unit → py → Prop) :
  py_heap y = [] → (∀ y', pyinv pend None refs k y' → py_heap y' = [] → Q tt y') →
  wp (when_ (so_peer so) (Py_DECREF (S n) PEER);; modify (fun y => y <| py_objs ::= delete o |>)) Q y.
Proof using All.
  intros Hh HQ. pose proof (wrapped_split _ _ _ Ho) as Ew. fold rest in Ew. pose proof (wrapped_nonneg rest) as Hw.
  pose proof (pi_peer _ _ _ _ _ Hy) as Hpe. wp1. apply wp_when; intros Hp; rewrite Hp in Ew; cbn [b2z] in Ew.
  - destruct (peer_alive _ _ _ _ _ _ _ Hy Ho Hp) as (p & d & Ep & Ed & Esd).
    unfold peer_ok in Hpe. rewrite Ep in Hpe. destruct Hpe as (Er & Hpos & _ & Hstr & Epc).
    eapply wp_decref_peer; [exact Ep | exact Hpos | exact Ed | exact Hstr | exact Epc | | |].
    + intros E1. split; [rewrite <- Esd; apply tail_values; lia |].
      pose proof tail_owns as Hown. rewrite tail_quiet in Hown by lia. exact Hown.
    + intros H1. wps. apply HQ; [| done].
      eapply pyinv_less; [exact Hy | exact tail_less | done | | | | exact tail_owns | exact tail_held].
      * unfold streams_of. cbn. by rewrite Ep.
      * unfold streams_of. cbn. by rewrite Ep.
      * unfold peer_ok. cbn. fold rest. unfold upd, upd_pe_refs. cbn. split_and!; [lia | lia | by exists d | done | done].
    + intros y' E1 Ep' Ec' Eo' Eb' Eh'. wps. apply HQ; [| cbn; congruence].
      assert (delete o (py_objs y') = rest) as Erest by by rewrite Eo'.
      eapply pyinv_less; [exact Hy | cbn; rewrite Erest; exact tail_less | done | | | | | cbn; rewrite Erest; exact tail_held].
      * rewrite tail_values by lia. unfold streams_of. cbn. rewrite Ep'. apply values_new.
      * unfold streams_of at 1. cbn. rewrite Ep'. intros s q. by rewrite get_new.
      * unfold peer_ok. cbn. rewrite Ep', Erest, Ec'. split_and!; [lia | lia | done].
      * cbn. rewrite Ec', Erest. apply tail_quiet; lia.
  - wps. apply HQ; [| done].
    eapply pyinv_less; [exact Hy | exact tail_less | done | done | done | | exact tail_owns | exact tail_held].
    unfold peer_ok in *. cbn. fold rest. by destruct (py_peer y); rewrite Ew in Hpe.
Qed.
End Tail.

(** Releasing any reference the program holds. *)
Lemma wp_decref_stream n pend refs k y o (Q : unit → py → Prop) :
  pyinv pend None refs k y → py_heap y = [] → o ∈ refs →
  (∀ y', pyinv pend None (refs ∖ {[+ o +]}) k y' → py_heap y' = [] → Q tt y') →
  wp (Py_DECREF (S (S n)) (STREAM o)) Q y.
Proof.
  intros Hy Hh Hin HQ. destruct (ref_live _ _ _ _ _ _ Hy Hin) as (so & Ho & Er).
  assert (∀ o', o' ≠ o → multiplicity o' (refs ∖ {[+ o +]}) = multiplicity o' refs ∧ None ≠ Some o') as Hoth.
  { intros o' Hne. split; [| done]. rewrite multiplicity_difference, multiplicity_singleton_ne by done. lia. }
  assert (count o (refs ∖ {[+ o +]}) y = Z.pred (so_refs so)) as Ec.
  { rewrite Er, !count_add, mult_sub, bool_decide_eq_true_2 by done. cbn. lia. }
  assert (0 < so_refs so) as Hpos.
  { rewrite elem_of_multiplicity in Hin. rewrite Er, count_add. lia. }
  rewrite Py_DECREF_eq. wp1. eapply wp_obj; [exact Ho |].
  destruct (Z.leb_spec (so_refs so) 0) as [Hle|_]; [lia |]. wp1. apply wp_put_obj. apply wp_when; intros E.
  - apply Z.eqb_eq in E. set (so1 := so <| so_refs ::= Z.pred |>). set (y1 := y <| py_objs ::= <[o := so1]> |>).
    assert (pyinv pend (Some o) (refs ∖ {[+ o +]}) k y1) as H1.
    { apply (pyinv_refs pend None (Some o) refs _ k y o so (Z.pred (so_refs so))); auto. }
    assert (count o (refs ∖ {[+ o +]}) y1 = 0) as Ec1 by (change (count o (refs ∖ {[+ o +]}) y = 0); lia).
    assert (py_objs y1 !! o = Some so1) as Ho1 by (cbn; by rewrite lookup_insert_eq).
    unfold Stream_dealloc. wp1. eapply wp_finish_stream; [apply shared_DECREF | exact H1 | exact Hh | exact Ho1 | |].
    { rewrite elem_of_multiplicity. rewrite count_add in Ec1. lia. }
    intros y2 so2 H2 Hh2 Ho2 Hs2 _ Hle. wp1. eapply wp_obj; [exact Ho2 |].
    eapply wp_tail; [exact H2 | exact Ho2 | exact Hs2 | | exact Hh2 | exact HQ].
    pose proof (pi_refs _ _ _ _ _ H2 o) as Hr2. rewrite Ho2 in Hr2. destruct Hr2 as [Hr2 _].
    unfold so1, upd, upd_so_refs in Hle. cbn in Hle. rewrite count_add in *. lia.
  - apply Z.eqb_neq in E. apply HQ; [| exact Hh].
    apply (pyinv_refs pend None None refs _ k y o so (Z.pred (so_refs so))); auto. left. lia.
Qed.
End Inv.
