(* ===== verification/PySteps.v ===== *)
(** The CPython binding: each method keeps the invariant of PyInv. *)

From Stdlib Require Import ZArith Lia String Ascii.
From stdpp Require Import base numbers gmap gmultiset list.
From S2P Require Import Prelude Frame OutBuf EventQueue Probe StreamTable Session Auth Host Fifo Umap Peer PeerInv PeerSteps PeerIO PeerSys PyBinding PyInv.

Open Scope Z_scope.

Section Steps.
Context {PD : PyDict} {PL : PyDictLaws}.
Abbreviation Y := (ST py).
Implicit Types (y : py) (so : StreamObj) (refs : gmultiset Z).

(** ** Methods that leave objects and handles alone *)

(** A call of libpeer that any owner of the handle may make. *)
Definition own_call {A} (s : Z) (m : P A) : Prop :=
  ∀ own arm c, inv calm [] own arm c → s ∈ own → wp m (fun _ c' => inv calm [] own arm c') c.

Lemma own_read s n : own_call s (lp_read s n).
Proof. intros own arm c Hc Hs. eapply wp_lp_read; eauto. Qed.
Lemma own_read_nb s n : own_call s (lp_read_nb s n).
Proof. intros own arm c Hc Hs. eapply wp_lp_read_nb; eauto. Qed.
Lemma own_write s buf n : own_call s (lp_write s buf n).
Proof. intros own arm c Hc Hs. eapply wp_lp_write; eauto. Qed.
Lemma own_write_nb s buf n : own_call s (lp_write_nb s buf n).
Proof. intros own arm c Hc Hs. eapply wp_lp_write_nb; eauto. Qed.
Lemma own_meta s : own_call s (lp_stream_meta s).
Proof.
  intros own arm c Hc Hs. destruct (own_live _ _ _ _ _ _ Hc Hs) as (st & Hst & _).
  unfold lp_stream_meta. wp1. eapply wp_deref; [exact Hst |]. by wps.
Qed.

Section Keeps.
Context (pend : list Z) (refs : gmultiset Z) (k : nat).
Abbreviation ok := (pyinv pend None refs k).

Lemma wp_stream_call {A} (m : P A) y o so s (Q : A → py → Prop) :
  own_call s m → ok y → py_objs y !! o = Some so → so_s so = Some s → (∀ a y', ok y' → Q a y') → wp (lp m) Q y.
Proof using All.
  intros Hm Hy Ho Hs HQ. destruct (open_client _ _ _ _ _ _ _ _ Hy Ho Hs) as (c & arm & Ec & Hc & Hin).
  eapply wp_lp_keep; [exact Hy | exact Ec | exact Hc | | intros a c' H'; by apply HQ].
  eapply wp_mono; [by apply Hm |]. intros a c' Hc'. by exists arm.
Qed.

Lemma wp_new_bytes y b (Q : pyexn + bytes → py → Prop) : ok y → (∀ r y', ok y' → Q r y') → wp (new_bytes b) Q y.
Proof using All. intros Hy HQ. unfold new_bytes. wp1. apply wp_py_alloc. intros r h. wps. by apply HQ, pyinv_heap. Qed.

Lemma wp_bytes_read y got n b (Q : pyexn + bytes → py → Prop) : ok y → (∀ r y', ok y' → Q r y') → wp (bytes_read got n b) Q y.
Proof using All. intros Hy HQ. unfold bytes_read. repeat case_match; by eauto using wp_new_bytes, wp_ret. Qed.

Lemma wp_Stream_recv y o n (Q : option (pyexn + bytes) → py → Prop) :
  ok y → o ∈ refs → (∀ r y', ok y' → Q r y') → wp (Stream_recv o n) Q y.
Proof using All.
  intros Hy Hin HQ. destruct (ref_live _ _ _ _ _ _ Hy Hin) as (so & Ho & _). unfold Stream_recv. wp1.
  eapply wp_obj; [exact Ho |]. destruct (so_s so) as [s|] eqn:Hs; [| by apply wp_ret, HQ].
  destruct (n <=? 0); [wp1; eapply wp_new_bytes; [exact Hy |]; intros; by apply wp_ret, HQ |].
  wp1. apply wp_py_alloc. intros buf h. destruct buf; cbn [negb]; [| by apply wp_ret, HQ, pyinv_heap].
  wp1. eapply wp_stream_call; [apply own_read | by apply pyinv_heap | exact Ho | exact Hs |]. intros [[got bs]|] y1 H1; [| by apply wp_ret, HQ].
  destruct (got <? 0); [by apply wp_ret, HQ |]. wp1. eapply wp_bytes_read; [exact H1 |]. intros r y2 H2. by apply wp_ret, HQ.
Qed.

Lemma wp_Stream_sendall y o data (Q : option (pyexn + unit) → py → Prop) :
  ok y → o ∈ refs → (∀ r y', ok y' → Q r y') → wp (Stream_sendall o data) Q y.
Proof using All.
  intros Hy Hin HQ. destruct (ref_live _ _ _ _ _ _ Hy Hin) as (so & Ho & _). unfold Stream_sendall. wp1.
  eapply wp_obj; [exact Ho |]. destruct (so_s so) as [s|] eqn:Hs; [| by apply wp_ret, HQ].
  wp1. destruct (zlen data >? 0); [| wps; by apply HQ].
  eapply wp_stream_call; [apply own_write | exact Hy | exact Ho | exact Hs |]. intros w y1 H1. by apply wp_ret, HQ.
Qed.

Lemma wp_Stream_recv_nb y o n (Q : pyexn + option bytes → py → Prop) :
  ok y → o ∈ refs → (∀ r y', ok y' → Q r y') → wp (Stream_recv_nb o n) Q y.
Proof using All.
  intros Hy Hin HQ. destruct (ref_live _ _ _ _ _ _ Hy Hin) as (so & Ho & _). unfold Stream_recv_nb. cbv zeta. wp1.
  eapply wp_obj; [exact Ho |]. destruct (so_s so) as [s|] eqn:Hs; [| by apply wp_ret, HQ].
  destruct (n <=? 0); [wp1; eapply wp_new_bytes; [exact Hy |]; intros; by apply wp_ret, HQ |].
  wp1. apply wp_py_alloc. intros buf h. destruct buf; cbn [negb]; [| by apply wp_ret, HQ, pyinv_heap].
  wp1. eapply wp_stream_call; [apply own_read_nb | by apply pyinv_heap | exact Ho | exact Hs |]. intros [got bs] y1 H1.
  destruct (got =? LP_AGAIN); [by apply wp_ret, HQ |]. destruct (got <? 0); [by apply wp_ret, HQ |].
  wp1. eapply wp_bytes_read; [exact H1 |]. intros r y2 H2. by apply wp_ret, HQ.
Qed.

Lemma wp_Stream_send_nb y o data (Q : pyexn + option Z → py → Prop) :
  ok y → o ∈ refs → (∀ r y', ok y' → Q r y') → wp (Stream_send_nb o data) Q y.
Proof using All.
  intros Hy Hin HQ. destruct (ref_live _ _ _ _ _ _ Hy Hin) as (so & Ho & _). unfold Stream_send_nb. wp1.
  eapply wp_obj; [exact Ho |]. destruct (so_s so) as [s|] eqn:Hs; [| by apply wp_ret, HQ].
  assert (∀ w y1, ok y1 → wp (if w =? LP_AGAIN then mret (okay None) else
    if w <? 0 then mret (raise OSError) else ok ← py_alloc; mret (or_nomem ok (Some w))) Q y1) as Hend.
  { intros w y1 H1. destruct (w =? LP_AGAIN); [by apply wp_ret, HQ |]. destruct (w <? 0); [by apply wp_ret, HQ |].
    wp1. apply wp_py_alloc. intros r h. by apply wp_ret, HQ, pyinv_heap. }
  wp1. destruct (zlen data >? 0); [| wps; by apply Hend].
  eapply wp_stream_call; [apply own_write_nb | exact Hy | exact Ho | exact Hs |]. intros w y1 H1. by apply Hend.
Qed.

Lemma wp_Stream_get_meta y o (Q : option (pyexn + bytes) → py → Prop) :
  ok y → o ∈ refs → (∀ r y', ok y' → Q r y') → wp (Stream_get_meta o) Q y.
Proof using All.
  intros Hy Hin HQ. destruct (ref_live _ _ _ _ _ _ Hy Hin) as (so & Ho & _). unfold Stream_get_meta. wp1.
  eapply wp_obj; [exact Ho |]. destruct (so_s so) as [s|] eqn:Hs; [| by apply wp_ret, HQ].
  wp1. eapply wp_stream_call; [apply own_meta | exact Hy | exact Ho | exact Hs |]. intros [m len] y1 H1.
  wp1. eapply wp_new_bytes; [exact H1 |]. intros r y2 H2. by apply wp_ret, HQ.
Qed.

(** A client that is there, seen from the Peer. *)
Lemma peer_held y : ok y → (0 < k)%nat → ∃ p d, py_peer y = Some p ∧ pe_streams p = Some d ∧ streams_of y = d ∧
  pe_c p = bool_decide (is_Some (py_client y)).
Proof using All.
  intros Hy Hk. pose proof (pi_peer _ _ _ _ _ Hy) as Hp. unfold peer_ok, streams_of in *.
  destruct (py_peer y) as [p|]; [| lia]. destruct Hp as (_ & _ & [d Hd] & _ & Hc). exists p, d. by rewrite Hd.
Qed.

(** The test [!self->c]. *)
Lemma wp_with_client {A} (e : A) (m : Y A) y (Q : A → py → Prop) :
  ok y → (0 < k)%nat → Q e y →
  (∀ c arm, py_client y = Some c → inv calm [] (pend ++ handles (py_objs y)) arm c → wp m Q y) →
  wp (p ← self; if negb (pe_c p) then mret e else m) Q y.
Proof using All.
  intros Hy Hk He Hm. destruct (peer_held y Hy Hk) as (p & d & Ep & _ & _ & Ec). wp1. eapply wp_self; [exact Ep |].
  rewrite Ec. case_bool_decide as Hc; cbn [negb]; [| by apply wp_ret]. destruct Hc as [c Hc].
  pose proof (pi_client _ _ _ _ _ Hy) as Ho. rewrite Hc in Ho. destruct Ho as [arm Ho]. by eapply Hm.
Qed.

Lemma wp_Peer_fileno y (Q : pyexn + unit → py → Prop) :
  ok y → (0 < k)%nat → (∀ r y', ok y' → Q r y') → wp Peer_fileno Q y.
Proof using All.
  intros Hy Hk HQ. unfold Peer_fileno. eapply wp_with_client; [exact Hy | exact Hk | by apply HQ |].
  intros c arm Ec Hc. wp1. eapply wp_lp_keep; [exact Hy | exact Ec | exact Hc | |].
  - apply wp_modify. eexists. by apply inv_fileno.
  - intros _ c' H'. wp1. apply wp_py_alloc. intros r h. by apply wp_ret, HQ, pyinv_heap.
Qed.

Lemma wp_io y c sec (Q : unit → py → Prop) :
  ok y → py_client y = Some c → (∀ y', ok y' → Q tt y') → wp (lp (run_section sec)) Q y.
Proof using All.
  intros Hy Ec HQ. pose proof (pi_client _ _ _ _ _ Hy) as Ho. rewrite Ec in Ho. eapply wp_lp; [exact Ec |].
  eapply wp_section; [exact Ho |]. intros c' Hc'. apply HQ.
  eapply pyinv_client; [exact Hy | exact Ec | exact Hc' |]. intros Hk. by apply (pi_held _ _ _ _ _ Hy).
Qed.

(** ** Closing a Stream *)

Lemma wp_Stream_close y o (Q : unit → py → Prop) :
  ok y → py_heap y = [] → o ∈ refs → (∀ y', ok y' → py_heap y' = [] → Q tt y') → wp (Stream_close o) Q y.
Proof using All.
  intros Hy Hh Hin HQ. destruct (ref_live _ _ _ _ _ _ Hy Hin) as (so & Ho & Er). unfold Stream_close.
  eapply wp_finish_stream; [apply shared_decref | exact Hy | exact Hh | exact Ho | | intros; by apply HQ].
  rewrite !elem_of_multiplicity in *. rewrite Er, count_add. lia.
Qed.
End Keeps.

(** ** New objects *)

Lemma brk_free pend dying refs k y : pyinv pend dying refs k y → py_objs y !! py_brk y = None.
Proof.
  intros Hy. apply eq_None_not_Some. intros Hb%(pi_brk _ _ _ _ _ Hy). lia.
Qed.

(** The Peer with a reference more for an object in poll mode. *)
Definition bump (b : bool) (p : PeerObj) : PeerObj := if b then p <| pe_refs ::= Z.succ |> else p.

Lemma same_peer y p : py_peer y = Some p → y <| py_peer := Some p |> = y.
Proof. intros E. destruct y. cbn in *. by subst. Qed.

(** A pending handle gets its object. *)
Lemma pyinv_new pend refs k y p s b :
  pyinv (s :: pend) None refs k y → (0 < k)%nat → py_peer y = Some p →
  pyinv pend None ({[+ py_brk y +]} ⊎ refs) k
    (y <| py_brk := py_brk y + 1 |> <| py_objs ::= <[py_brk y := mk_StreamObj 1 (Some s) b]> |>
       <| py_peer := Some (bump b p) |>).
Proof.
  intros Hy Hk Ep. pose proof (brk_free _ _ _ _ _ Hy) as Hb. destruct Hy. set (o := py_brk y) in *.
  assert (delete o (py_objs y) = py_objs y) as Edel by by apply delete_id.
  assert (∀ q, count q ({[+ o +]} ⊎ refs) y = b2z (bool_decide (q = o)) + count q refs y) as Ecnt.
  { intros q. rewrite !count_add, mult_add. lia. }
  set (y' := upd py_peer _ _). assert (streams_of y' = streams_of y) as Es.
  { unfold streams_of. rewrite Ep. by destruct b. }
  assert (∀ q, count q ({[+ o +]} ⊎ refs) y' = b2z (bool_decide (q = o)) + count q refs y) as Ecnt'.
  { intros q. by rewrite <- Ecnt, !(count_add q), Es. }
  assert (count o refs y = 0) as E0 by (specialize (pi_refs o); by rewrite Hb in pi_refs).
  split.
  - unfold peer_ok in *. rewrite Ep in pi_peer. destruct pi_peer as (Er & Hp & Hd & Hs & Hc). cbn.
    rewrite wrapped_insert, Edel. cbn [so_peer]. destruct b; cbn; (split_and!; [| | done | done | done]);
      unfold upd, upd_pe_refs; cbn; lia.
  - eapply owns_perm; [| exact pi_client]. cbn. rewrite handles_insert, Edel. cbn. by rewrite Permutation_middle.
  - intros q. rewrite Ecnt'. cbn. specialize (pi_refs q). destruct (decide (q = o)) as [->|Hne].
    + rewrite lookup_insert_eq, bool_decide_eq_true_2, E0 by done. cbn. split; [done | by left].
    + rewrite lookup_insert_ne, bool_decide_eq_false_2 by done. exact pi_refs.
  - intros s' q. rewrite Es. intros E. destruct (pi_dict s' q E) as (so & Hq & P' & S'). exists so. split; [| done].
    cbn. rewrite lookup_insert_ne; [done | congruence].
  - intros q. cbn. fold o. intros [so [[<- _]|[_ Hq]]%lookup_insert_Some]; [lia |].
    assert (q < o) by (apply pi_brk; by eexists). lia.
  - lia.
Qed.

(** A handle given out whose object could not be made is closed. *)
Lemma wp_unwanted pend refs k y s (Q : Z → py → Prop) :
  pyinv (s :: pend) None refs k y → (0 < k)%nat → (∀ r y', pyinv pend None refs k y' → Q r y') → wp (lp (lp_close s)) Q y.
Proof.
  intros Hy Hk HQ. pose proof (pi_client _ _ _ _ _ Hy) as Ho. destruct (py_client y) as [c|] eqn:Ec; [| done].
  pose proof (owns_nodup _ _ Ho) as Hn. destruct Ho as [arm Ho]. eapply wp_lp; [exact Ec |].
  eapply wp_lp_close; [exact Ho | by left |]. intros c' Hc'. apply HQ.
  eapply pyinv_client; [exact Hy | exact Ec | | lia]. exists arm. eapply inv_own_perm; [| exact Hc'].
  apply (Permutation_cons_inv (a := s)). symmetry. apply (remove_perm s (s :: pend ++ handles (py_objs y))); [done | by left].
Qed.

(** What [accept] returns is a reference the program holds from then on. *)
Definition given (r : option (pyexn + option Z)) : gmultiset Z :=
  match r with Some (inr (Some o)) => {[+ o +]} | _ => ∅ end.

Lemma wp_Peer_accept pend refs k y (Q : option (pyexn + option Z) → py → Prop) :
  pyinv pend None refs k y → (0 < k)%nat → (∀ r y', pyinv pend None (given r ⊎ refs) k y' → Q r y') → wp Peer_accept Q y.
Proof.
  intros Hy Hk HQ. destruct (peer_held _ _ _ y Hy Hk) as (p & d & Ep & _).
  assert (∀ y', pyinv pend None refs k y' → pyinv pend None (∅ ⊎ refs) k y') as Hnone.
  { intros y' H'. by rewrite gmultiset_disj_union_left_id. }
  unfold Peer_accept. eapply wp_with_client; [exact Hy | exact Hk | by apply HQ, Hnone |].
  intros c arm Ec Hc. wp1. eapply wp_lp; [exact Ec |]. eapply wp_lp_accept; [exact Hc |]. intros r c' Hc'.
  destruct r as [[s|]|]; [| by apply wp_ret, HQ, Hnone; eapply pyinv_client; [exact Hy | exact Ec | by exists arm | lia] ..].
  set (y1 := y <| py_client := Some c' |>).
  assert (pyinv (s :: pend) None refs k y1) as H1 by (eapply pyinv_client; [exact Hy | exact Ec | by exists arm | lia]).
  wp1. apply wp_py_alloc. intros ok h. apply (pyinv_heap _ _ _ _ _ h) in H1. destruct ok; cbn [negb].
  - unfold new_obj. wps. apply HQ. cbn [given okay]. pose proof (pyinv_new pend refs k _ p s false H1 Hk Ep) as H2.
    cbn [bump] in H2. by rewrite same_peer in H2.
  - wp1. eapply wp_unwanted; [exact H1 | exact Hk |]. intros r y' H'. by apply wp_ret, HQ, Hnone.
Qed.

(** ** Releasing references *)

Lemma wp_decref pend refs k y o (Q : unit → py → Prop) :
  pyinv pend None refs k y → py_heap y = [] → o ∈ refs →
  (∀ y', pyinv pend None (refs ∖ {[+ o +]}) k y' → py_heap y' = [] → Q tt y') → wp (Py_decref (STREAM o)) Q y.
Proof. intros. unfold Py_decref. wps. by eapply wp_decref_stream. Qed.

(** One that is not the last. *)
Lemma wp_decref_shared pend refs k y o so (Q : unit → py → Prop) :
  pyinv pend None refs k y → o ∈ refs → py_objs y !! o = Some so → 2 ≤ so_refs so →
  (∀ n, pyinv pend None (refs ∖ {[+ o +]}) k (y <| py_objs ::= <[o := so <| so_refs := n |>]> |>) →
     Q tt (y <| py_objs ::= <[o := so <| so_refs := n |>]> |>)) →
  wp (Py_decref (STREAM o)) Q y.
Proof.
  intros Hy Hin Ho Hr HQ. eapply shared_decref; [exact Ho | exact Hr |]. apply (HQ (Z.pred (so_refs so))).
  pose proof (pi_refs _ _ _ _ _ Hy o) as Hc. rewrite Ho in Hc. destruct Hc as [Hc _].
  eapply pyinv_refs; [exact Hy | exact Ho | | left; lia |].
  - rewrite Hc, !count_add, mult_sub, bool_decide_eq_true_2 by done. cbn. lia.
  - intros q Hne. split; [| done]. rewrite multiplicity_difference, multiplicity_singleton_ne by done. lia.
Qed.

(** No Stream is open. *)
Definition quiet y : Prop := handles (py_objs y) = [].

(** Closing the Peer. *)
Lemma wp_Peer_close refs k y (Q : unit → py → Prop) :
  pyinv [] None refs k y → (0 < k)%nat → quiet y → (∀ y', pyinv [] None refs k y' → Q tt y') → wp Peer_close Q y.
Proof.
  intros Hy Hk Hq HQ. destruct (peer_held _ _ _ y Hy Hk) as (p & d & Ep & Ed & Esd & Epc).
  unfold Peer_close. wp1. eapply wp_self; [exact Ep |]. apply wp_when; intros Hp; [| by apply HQ].
  rewrite Hp in Epc. symmetry in Epc. apply bool_decide_eq_true in Epc as [c Ec].
  pose proof (pi_client _ _ _ _ _ Hy) as Ho. rewrite Ec in Ho. unfold put_self. wps.
  eapply wp_disconnect; [exact Ec | exact Ho |]. apply HQ. apply (pyinv_io [] None refs k (y <| py_peer := _ |> <| py_client := None |>)).
  eapply pyinv_less; [exact Hy | | done | | | | cbn; exact Hq | lia].
  - intros o. cbn. pose proof (pi_refs _ _ _ _ _ Hy o) as Hr. by destruct (py_objs y !! o).
  - unfold streams_of. cbn. by rewrite Ep.
  - unfold streams_of. cbn. by rewrite Ep.
  - pose proof (pi_peer _ _ _ _ _ Hy) as Hpe. unfold peer_ok in *. rewrite Ep in Hpe. cbn. naive_solver.
Qed.

(** Every open Stream is in poll mode. *)
Definition poll_only y : Prop := map_Forall (fun _ so => is_Some (so_s so) → so_peer so = true) (py_objs y).

(** The program takes another reference to the Peer. *)
Lemma wp_Peer_enter pend refs k y (Q : unit → py → Prop) :
  pyinv pend None refs k y → (0 < k)%nat → (∀ y', pyinv pend None refs (S k) y' → Q tt y') →
  wp Peer_enter Q y.
Proof.
  intros Hy Hk HQ. unfold Peer_enter. destruct (peer_held _ _ _ y Hy Hk) as (p & d & Ep & Ed & _). wp1. eapply wp_self; [exact Ep |].
  apply HQ. eapply pyinv_less; [exact Hy | | done | | | | exact (pi_client _ _ _ _ _ Hy) | lia].
  - intros o. cbn. pose proof (pi_refs _ _ _ _ _ Hy o) as Hr. by destruct (py_objs y !! o).
  - unfold streams_of. cbn. by rewrite Ep.
  - unfold streams_of. cbn. by rewrite Ep.
  - pose proof (pi_peer _ _ _ _ _ Hy) as Hpe. unfold peer_ok in *. rewrite Ep in Hpe. cbn.
    destruct Hpe as (Er & Hp & Hd & Hs & Hc). unfold upd, upd_pe_refs. cbn. split_and!; [lia | lia | done | done | done].
Qed.

(** The program lets go of the Peer. *)
Lemma wp_release_peer refs k y (Q : unit → py → Prop) :
  pyinv [] None refs (S k) y → py_heap y = [] → (k = 0%nat → poll_only y) →
  (∀ y', pyinv [] None refs k y' → py_heap y' = [] → Q tt y') → wp (Py_decref PEER) Q y.
Proof.
  intros Hy Hh Hpoll HQ. destruct (peer_held _ _ _ y Hy ltac:(lia)) as (p & d & Ep & Ed & Esd & Epc).
  pose proof (pi_peer _ _ _ _ _ Hy) as Hpe. unfold peer_ok in Hpe. rewrite Ep in Hpe.
  destruct Hpe as (Er & Hpos & _ & Hstr & _). pose proof (wrapped_nonneg (py_objs y)).
  assert (∀ y', py_objs y' = py_objs y → ∀ o, match py_objs y' !! o with
    | Some so => py_objs y !! o = Some so ∧ None ≠ Some o | None => count o refs y = 0 end) as Hless.
  { intros y' -> o. pose proof (pi_refs _ _ _ _ _ Hy o) as Hr. by destruct (py_objs y !! o). }
  assert (pe_refs p = 1 → k = 0%nat ∧ wrapped (py_objs y) = 0 ∧ dict_values d = ∅ ∧ handles (py_objs y) = []) as Hlast.
  { intros E1. assert (k = 0%nat) as -> by lia. assert (wrapped (py_objs y) = 0) as Hw by lia. split_and!; [done | done | |].
    - rewrite <- Esd. eapply map_empty_values; [exact Hy |]. intros q so Hq Hq'.
      by rewrite (not_wrapped _ _ _ Hw Hq) in Hq'.
    - destruct (handles (py_objs y)) as [|s l] eqn:E; [done |].
      destruct (in_handles (py_objs y) s) as (q & so & Hq & Hs); [rewrite E; by left |].
      pose proof (Hpoll eq_refl q so Hq ltac:(by exists s)) as Hp. by rewrite (not_wrapped _ _ _ Hw Hq) in Hp. }
  unfold Py_decref. wps. eapply wp_decref_peer; [exact Ep | exact Hpos | exact Ed | exact Hstr | exact Epc | | |].
  - intros (_ & _ & Ev & Eh)%Hlast. split; [done |]. pose proof (pi_client _ _ _ _ _ Hy) as Ho. by rewrite Eh in Ho.
  - intros Hmore. apply HQ; [| done].
    eapply pyinv_less; [exact Hy | by apply Hless | done | | | | exact (pi_client _ _ _ _ _ Hy) |].
    4: { intros Hk0. split; [done | exact (Hpoll Hk0)]. }
    + unfold streams_of. cbn. by rewrite Ep.
    + unfold streams_of. cbn. by rewrite Ep.
    + unfold peer_ok. cbn. unfold upd, upd_pe_refs. cbn. split_and!; [lia | lia | by exists d | done | done].
  - intros y' (-> & Ew & Ev & Eh)%Hlast Ep' Ec' Eo' Eb' Eh'. apply HQ; [| congruence].
    eapply pyinv_less; [exact Hy | by apply Hless | done | | | | | rewrite Eo'; intros _; split; [done | exact (Hpoll eq_refl)]].
    + rewrite Esd, Ev. unfold streams_of. rewrite Ep'. apply values_new.
    + unfold streams_of at 1. rewrite Ep'. intros s q. by rewrite get_new.
    + unfold peer_ok. rewrite Ep', Eo', Ec'. by split_and!.
    + by rewrite Ec', Eo', Eh.
Qed.

(** ** Polling *)

(** Objects stay, with the streams they have. *)
Definition grows y y' : Prop :=
  ∀ o so, py_objs y !! o = Some so → ∃ so', py_objs y' !! o = Some so' ∧ so_s so' = so_s so.

#[export] Instance grows_preorder : PreOrder grows.
Proof.
  split; [intros y o so Ho; by exists so |]. intros y1 y2 y3 G1 G2 o so Ho.
  destruct (G1 o so Ho) as (so2 & Ho2 & E2). destruct (G2 o so2 Ho2) as (so3 & Ho3 & E3). exists so3. split; congruence.
Qed.

Lemma grows_put y y' o so so' :
  py_objs y !! o = Some so → so_s so' = so_s so → py_objs y' = <[o := so']> (py_objs y) → grows y y'.
Proof.
  intros Ho Es E q sq Hq. rewrite E. destruct (decide (q = o)) as [->|Hne].
  - exists so'. rewrite lookup_insert_eq. split; congruence.
  - exists sq. by rewrite lookup_insert_ne.
Qed.

Lemma grows_new y y' o so : py_objs y !! o = None → py_objs y' = <[o := so]> (py_objs y) → grows y y'.
Proof. intros Ho E q sq Hq. exists sq. rewrite E, lookup_insert_ne; [done | congruence]. Qed.

(** A handle without an object is not in the map. *)
Lemma pend_unmapped pend refs k y s :
  pyinv (s :: pend) None refs k y → dict_get (streams_of y) s = None.
Proof.
  intros Hy. apply eq_None_not_Some. intros [o E]. destruct (pi_dict _ _ _ _ _ Hy _ _ E) as (so & Ho & _ & Hs).
  pose proof (owns_nodup _ _ (pi_client _ _ _ _ _ Hy)) as Hn. apply NoDup_cons in Hn as [[] _].
  apply elem_of_app. right. by eapply handles_in.
Qed.

(** An entry enters the map, with its reference. *)
Lemma pyinv_map pend refs k y p d s o so :
  pyinv pend None refs k y → py_peer y = Some p → pe_streams p = Some d → dict_get d s = None →
  py_objs y !! o = Some so → so_peer so = true → so_s so = Some s →
  pyinv pend None refs k (y <| py_peer := Some (p <| pe_streams := Some (dict_set d s o) |>) |>
                            <| py_objs ::= <[o := so <| so_refs ::= Z.succ |>]> |>).
Proof.
  intros [] Ep Ed Es Ho Hp Hs. assert (streams_of y = d) as Esd by (unfold streams_of; by rewrite Ep, Ed).
  unfold peer_ok in pi_peer. rewrite Ep in pi_peer. rewrite Esd in pi_dict. split; cbn.
  - unfold peer_ok. cbn. rewrite (wrapped_put _ _ so) by done. destruct pi_peer as (-> & ? & _ & ? & ?). by split_and!.
  - eapply owns_perm; [| exact pi_client]. by rewrite (handles_put _ _ so).
  - intros q. specialize (pi_refs q). set (y' := upd py_objs _ _).
    assert (count q refs y' = count q refs y + b2z (bool_decide (q = o))) as Ec.
    { rewrite !count_add, Esd. unfold y', streams_of. cbn. rewrite values_set, mult_add, values_del_none by done. lia. }
    rewrite Ec. destruct (decide (q = o)) as [->|Hne].
    + rewrite lookup_insert_eq, bool_decide_eq_true_2 by done. rewrite Ho in pi_refs. destruct pi_refs as [E [Hr|Hr]]; [| done].
      unfold upd, upd_so_refs. cbn. split; [lia | left; lia].
    + rewrite lookup_insert_ne, bool_decide_eq_false_2 by done. cbn. rewrite Z.add_0_r. exact pi_refs.
  - intros s' q E. unfold streams_of in E. cbn in E. rewrite get_set in E. destruct (Z.eqb_spec s s') as [<-|Hne].
    + injection E as <-. exists (so <| so_refs ::= Z.succ |>). by rewrite lookup_insert_eq.
    + destruct (pi_dict s' q E) as (so' & Hq & P' & S'). exists so'. rewrite lookup_insert_ne; [done |].
      intros ->. congruence.
  - intros q [so' [[<- _]|[_ Hq]]%lookup_insert_Some]; apply pi_brk; by eexists.
  - intros Hk. destruct (pi_held Hk) as [E Hh]. split; [done |].
    intros q so' [[<- <-]|[_ Hq]]%lookup_insert_Some Hss; [done | by apply (Hh q so')].
Qed.

(** The queue of handles an event starts from and leaves. *)
Definition arriving (s e : Z) (pend pend' : list Z) : Prop :=
  if has_bit e LP_ACCEPT then pend = s :: pend' else pend = pend'.

Lemma wp_poll_object pend pend' refs k y s e (Q : bool + Z → py → Prop) :
  pyinv pend None refs k y → py_heap y = [] → (0 < k)%nat → arriving s e pend pend' →
  (has_bit e LP_ACCEPT = false → dict_get (streams_of y) s = None → pyinv pend' None refs k y → Q (inl true) y) →
  (∀ o y', (has_bit e LP_ACCEPT = false → dict_get (streams_of y) s = Some o) → pyinv pend' None ({[+ o +]} ⊎ refs) k y' →
     py_heap y' = [] → grows y y' → dict_get (streams_of y') s = Some o → Q (inr o) y') →
  wp (poll_object s e) Q y.
Proof.
  intros Hy Hh Hk Ha HQ1 HQ2. destruct (peer_held _ _ _ y Hy Hk) as (p & d & Ep & Ed & Esd & _).
  unfold poll_object, arriving in *. destruct (has_bit e LP_ACCEPT); subst pend.
  - pose proof (pend_unmapped _ _ _ _ _ Hy) as Hnone. rewrite Esd in Hnone.
    unfold peer_wrap. wps. apply wp_py_alloc_ok; [exact Hh |]. cbn [negb]. unfold new_obj. wps.
    eapply wp_self; [exact Ep |]. unfold put_self. wps. apply wp_py_alloc_ok; [exact Hh |]. cbn [negb].
    pose proof (pyinv_new pend' refs k y p s true Hy Hk Ep) as H1. cbn [bump] in H1.
    set (o := py_brk y) in *. set (p1 := p <| pe_refs ::= Z.succ |>) in *.
    match type of H1 with pyinv _ _ _ _ ?z => set (y1 := z) in * end.
    change (wp (streams_set s o;; mret (inr o)) Q y1).
    assert (py_peer y1 = Some p1) as Ep1 by done. assert (pe_streams p1 = Some d) as Ed1 by done.
    assert (py_objs y1 !! o = Some (mk_StreamObj 1 (Some s) true)) as Ho1 by (cbn; by rewrite lookup_insert_eq).
    unfold streams_set. wps. eapply wp_self; [exact Ep1 |]. rewrite Ed1, Hnone. unfold put_self. wps.
    unfold Py_INCREF. wps. eapply wp_obj; [exact Ho1 |]. apply wp_put_obj. wps. apply HQ2.
    + done.
    + by eapply pyinv_map.
    + exact Hh.
    + etrans; [eapply (grows_new y y1); [by apply (brk_free _ _ _ _ _ Hy) | done] |]. eapply grows_put; [exact Ho1 | | done]. done.
    + unfold streams_of. cbn. by rewrite get_set, Z.eqb_refl.
  - wps. eapply wp_self; [exact Ep |]. rewrite Ed. destruct (dict_get d s) as [o|] eqn:E; rewrite <- Esd in E; [| wps; by apply HQ1].
    destruct (pi_dict _ _ _ _ _ Hy _ _ E) as (so & Ho & _ & _). wp1.
    eapply wp_incref; [exact Hy | exact Ho | done |]. intros so' _ Es _ H1. wps.
    apply HQ2; [done | exact H1 | exact Hh | eapply grows_put; [exact Ho | exact Es | reflexivity] | exact E].
Qed.

(** One event, with memory to spare: the tuple holds the object of the stream. *)
Lemma wp_poll_event pend pend' refs k y s e (Q : bool * list (Z * Z) → py → Prop) :
  pyinv pend None refs k y → py_heap y = [] → (0 < k)%nat → arriving s e pend pend' →
  (has_bit e LP_ACCEPT = false → dict_get (streams_of y) s = None → pyinv pend' None refs k y → Q (true, []) y) →
  (∀ o so y', (has_bit e LP_ACCEPT = false → dict_get (streams_of y) s = Some o) → pyinv pend' None ({[+ o +]} ⊎ refs) k y' →
     py_heap y' = [] → grows y y' → py_objs y' !! o = Some so → so_s so = Some s →
     dict_get (streams_of y') s = (if has_bit e LP_CLOSED then None else Some o) → Q (true, [(o, e)]) y') →
  wp (poll_event s e) Q y.
Proof.
  intros Hy Hh Hk Ha HQ1 HQ2. unfold poll_event. wp1. apply wp_py_alloc_ok; [exact Hh |]. cbn [negb]. wp1.
  eapply wp_poll_object; [exact Hy | exact Hh | exact Hk | exact Ha | |].
  { intros Hb Hd H1. wps. by apply HQ1. }
  intros o y1 Hb H1 Hh1 G1 Hd1. wp1. apply wp_py_alloc_ok; [exact Hh1 |]. cbn [when_].
  destruct (pi_dict _ _ _ _ _ H1 _ _ Hd1) as (so1 & Ho1 & _ & Hs1). wp1.
  eapply wp_incref; [exact H1 | exact Ho1 | done |]. intros so2 _ Es2 _ H2. set (y2 := y1 <| py_objs ::= _ |>) in *.
  assert (py_objs y2 !! o = Some so2) as Ho2 by (cbn; by rewrite lookup_insert_eq).
  assert (grows y y2) as G2 by (etrans; [exact G1 | eapply grows_put; [exact Ho1 | exact Es2 | reflexivity]]).
  wp1. eapply (wp_decref_shared _ _ _ _ o so2); [exact H2 | multiset_solver | exact Ho2 | |].
  { pose proof (pi_refs _ _ _ _ _ H2 o) as Hr. rewrite Ho2 in Hr. destruct Hr as [-> _]. rewrite count_add, !mult_add.
    rewrite bool_decide_eq_true_2 by done. cbn. lia. }
  intros n H3. set (y3 := y2 <| py_objs ::= _ |>) in *.
  assert (({[+ o +]} ⊎ ({[+ o +]} ⊎ refs)) ∖ {[+ o +]} = {[+ o +]} ⊎ refs) as Er by multiset_solver. rewrite Er in H3.
  assert (py_objs y3 !! o = Some (so2 <| so_refs := n |>)) as Ho3 by (cbn; by rewrite lookup_insert_eq).
  assert (grows y y3) as G3 by (etrans; [exact G2 | eapply grows_put; [exact Ho2 | | reflexivity]; reflexivity]).
  assert (so_s (so2 <| so_refs := n |>) = Some s) as Hs3 by (cbn; congruence).
  assert (dict_get (streams_of y3) s = Some o) as Hd3 by exact Hd1.
  cbn [negb]. wp1. apply wp_py_alloc_ok; [exact Hh1 |]. cbn [negb]. wp1. destruct (has_bit e LP_CLOSED); cbn [when_].
  - destruct (peer_held _ _ _ y3 H3 Hk) as (p & d & Ep & Ed & Esd & _). rewrite Esd in Hd3.
    unfold streams_del. wp1. eapply wp_self; [exact Ep |]. rewrite Ed, Hd3. unfold put_self. wps.
    assert (2 ≤ so_refs (so2 <| so_refs := n |>)) as H2r.
    { pose proof (pi_refs _ _ _ _ _ H3 o) as Hr. rewrite Ho3 in Hr. destruct Hr as [-> _].
      rewrite count_add, mult_add, bool_decide_eq_true_2, Esd, (values_del _ _ _ Hd3), mult_add, bool_decide_eq_true_2 by done.
      cbn [b2z]. lia. }
    eapply shared_decref; [exact Ho3 | exact H2r |]. wps. eapply HQ2.
    + exact Hb.
    + by eapply pyinv_unmap.
    + exact Hh1.
    + etrans; [exact G3 | eapply grows_put; [exact Ho3 | | reflexivity]; reflexivity].
    + cbn. by rewrite lookup_insert_eq.
    + exact Hs3.
    + unfold streams_of. cbn. by rewrite get_del, Z.eqb_refl.
  - wps. by eapply HQ2.
Qed.

Lemma has_accept e : has_bit e LP_ACCEPT = Z.testbit e 0.
Proof.
  unfold has_bit, LP_ACCEPT. pose proof (Z.land_ones e 1 ltac:(lia)) as E. change (Z.ones 1) with 1 in E.
  rewrite E. pose proof (Z.bit0_mod e) as B. change (2 ^ 1) with 2. rewrite <- B. by destruct (Z.testbit e 0).
Qed.

(** What an event may be. *)
Definition event_ok (e : Z) : Prop := e = LP_ACCEPT ∨ Z.testbit e 0 = false.

Lemma accepted_cons s e evs :
  event_ok e → arriving s e (accepted ((s, e) :: evs)) (accepted evs).
Proof.
  unfold arriving, accepted. rewrite has_accept. intros [->|E].
  - by rewrite filter_cons_True.
  - rewrite E, filter_cons_False; [done |]. cbn. intros ->. done.
Qed.

(** The tuple of an event: the object holds the stream the event is about. *)
Definition tuple_of (evs : list (Z * Z)) y (t : Z * Z) : Prop :=
  ∃ s so, (s, t.2) ∈ evs ∧ py_objs y !! t.1 = Some so ∧ so_s so = Some s.

Lemma tuple_grows evs ev y y' t : grows y y' → tuple_of evs y t → tuple_of (ev :: evs) y' t.
Proof.
  intros G (s & so & Hin & Ho & Hs). destruct (G _ _ Ho) as (so' & Ho' & Es). exists s, so'.
  split_and!; [by right | done | congruence].
Qed.

Definition tuples (l : list (Z * Z)) : gmultiset Z := list_to_set_disj l.*1.

Lemma tuples_snoc l t refs : tuples (l ++ [t]) ⊎ refs = {[+ t.1 +]} ⊎ (tuples l ⊎ refs).
Proof.
  unfold tuples. rewrite fmap_app, list_to_set_disj_app. cbn [fmap list_fmap].
  rewrite list_to_set_disj_cons, list_to_set_disj_nil. apply gmultiset_eq. intros x.
  rewrite !multiplicity_disj_union, multiplicity_empty. lia.
Qed.

Lemma wp_poll_loop evs l refs k y (Q : bool * list (Z * Z) → py → Prop) :
  pyinv (accepted evs) None (tuples l ⊎ refs) k y → py_heap y = [] → (0 < k)%nat → Forall (fun se => event_ok se.2) evs →
  (∀ new y', pyinv [] None (tuples (l ++ new) ⊎ refs) k y' → py_heap y' = [] → grows y y' →
     Forall (tuple_of evs y') new → Q (true, l ++ new) y') →
  wp (poll_loop evs l) Q y.
Proof.
  revert l y. induction evs as [|[s e] evs IH]; intros l y Hy Hh Hk Hev HQ; cbn [poll_loop].
  { wps. rewrite <- (app_nil_r l). apply HQ; [rewrite app_nil_r; exact Hy | exact Hh | reflexivity | constructor]. }
  apply Forall_cons in Hev as [He Hev]. wp1.
  eapply (wp_poll_event _ (accepted evs)); [exact Hy | exact Hh | exact Hk | by apply accepted_cons | |].
  - intros _ _ H1. cbn [negb]. rewrite app_nil_r. apply IH; [done | done | done | done |].
    intros new y' H2 Hh2 G2 Ht. apply HQ; [done | done | done |]. eapply Forall_impl; [exact Ht |].
    intros t Ht'. eapply (tuple_grows _ _ y' y'); [reflexivity | exact Ht'].
  - intros o so y1 _ H1 Hh1 G1 Ho Hs _. cbn [negb]. apply IH; [by rewrite tuples_snoc | done | done | done |].
    intros new y' H2 Hh2 G2 Ht. rewrite <- app_assoc in *. apply HQ; [done | done | by etrans |].
    constructor; [| eapply Forall_impl; [exact Ht | intros t Ht'; eapply (tuple_grows _ _ y' y'); [reflexivity | exact Ht']]].
    destruct (G2 _ _ Ho) as (so' & Ho' & Es). exists s, so'. split_and!; [by left | done | congruence].
Qed.

Lemma wp_Peer_poll refs k y maxev (Q : pyexn + list (Z * Z) → py → Prop) :
  pyinv [] None refs k y → py_heap y = [] → (0 < k)%nat →
  Q (inl OSError) y →
  (∀ c evs c' l y', py_client y = Some c → lp_poll (clamp maxev) c = Some (evs, c') →
     pyinv [] None (tuples l ⊎ refs) k y' → grows y y' → Forall (tuple_of evs y') l → Q (inr l) y') →
  wp (Peer_poll maxev) Q y.
Proof.
  intros Hy Hh Hk HQ1 HQ2. unfold Peer_poll. eapply wp_with_client; [exact Hy | exact Hk | exact HQ1 |].
  intros c arm Ec Hc. wp1. eapply wp_lp; [exact Ec |].
  assert (wp (lp_poll (clamp maxev)) (fun evs c' => client_ok (accepted evs ++ handles (py_objs y)) c' ∧
    Forall (fun se => event_ok se.2) evs) c) as Hp.
  { eapply wp_lp_poll; [exact Hc |]. intros out c' Hc' Hf. split; [by eexists |].
    eapply Forall_impl; [exact Hf | by intros ? []]. }
  unfold wp in Hp |- * at 1. destruct (lp_poll (clamp maxev) c) as [[evs c']|] eqn:Epoll; [| done].
  destruct Hp as [Hc' Hev]. wp1. apply wp_py_alloc_ok; [exact Hh |]. cbn [negb]. wp1.
  assert (pyinv (accepted evs) None (tuples [] ⊎ refs) k (y <| py_client := Some c' |>)) as H1.
  { unfold tuples. cbn [fmap list_fmap]. rewrite list_to_set_disj_nil, gmultiset_disj_union_left_id. eapply pyinv_client; [exact Hy | exact Ec | exact Hc' | lia]. }
  eapply wp_poll_loop; [exact H1 | exact Hh | exact Hk | exact Hev |]. intros l y' H2 _ G Ht. cbn [negb]. wps.
  by eapply HQ2.
Qed.
End Steps.
