(* ===== verification/PySys.v ===== *)
(** The CPython binding as a system: a Python program, the I/O thread, and the
    theorems on all their runs.

    The program is any that uses an object only while it holds a reference to
    it, closes the Peer only when no Stream is open, and keeps a reference to
    the Peer while a Stream that [accept] returned is open.  [use_after_close]
    and [peer_collected] show what the binding does to other programs. *)

From Stdlib Require Import ZArith Lia String Ascii.
From stdpp Require Import base numbers gmap gmultiset list.
From S2P Require Import Prelude Frame OutBuf EventQueue Probe StreamTable Session SessionIO Handshake Recv SessionOpens Auth Host Fifo Umap Peer PeerInv PeerSteps PeerIO PeerSys CString Net PeerLink PyBinding PyInv PySteps.

Open Scope Z_scope.

(** ** Runs *)

Inductive py_op :=
  | PY_IO (sec : section)
  | PY_RECV (h : heap) (o n : Z)
  | PY_SENDALL (h : heap) (o : Z) (data : bytes)
  | PY_RECV_NB (h : heap) (o n : Z)
  | PY_SEND_NB (h : heap) (o : Z) (data : bytes)
  | PY_META (h : heap) (o : Z)
  | PY_CLOSE (o : Z)
  | PY_KEEP (o : Z)
  | PY_DROP (o : Z) (io : list section)
  | PY_ACCEPT (h : heap)
  | PY_FILENO (h : heap)
  | PY_POLL (maxev : Z)
  | PY_PEER_CLOSE (io : list section)
  | PY_PEER_KEEP
  | PY_PEER_DROP (io : list section).

Section Sys.
Context {PD : PyDict} {PL : PyDictLaws}.
Implicit Types (y : py) (so : StreamObj) (tr : trace).

(** The objects, and the references the program holds: to Streams and to the
    Peer. *)
Record prog := mk_prog { g_py : py; g_refs : gmultiset Z; g_peer : nat }.

Definition new_peer (cfg : lp_config) (strs : view * view * view * view) : py :=
  mk_py (Some (mk_PeerObj 1 true (Some dict_new) (Some strs))) (Some (lp_client_zero cfg)) ∅ 1 [] [].

Definition py_start (cfg : lp_config) (strs : view * view * view * view) : prog :=
  mk_prog (new_peer cfg strs) ∅ 1.

(** A method call: [h] and [io] are what the allocator and the I/O thread do
    during it, [f] what becomes of the program's references. *)
Definition perform {A} (h : heap) (io : list section) (m : ST py A) (f : A → gmultiset Z → gmultiset Z) (k : nat)
  (g : prog) : option prog :=
  match m (g_py g <| py_heap := h |> <| py_io := io |>) with
  | Some (a, y) => Some (mk_prog y (f a (g_refs g)) k)
  | None => None
  end.

Definition on_stream {A} (o : Z) (h : heap) (m : ST py A) (g : prog) : option prog :=
  if decide (o ∈ g_refs g) then perform h [] m (fun _ refs => refs) (g_peer g) g else Some g.

(** What [poll] returns is a list that holds its tuples. *)
Definition polled_refs (r : pyexn + list (Z * Z)) : gmultiset Z := match r with inr l => tuples l | inl _ => ∅ end.

Definition py_exec (op : py_op) (g : prog) : option prog :=
  let '(mk_prog y refs k) := g in
  let on_peer (r : option prog) := if decide (0 < k)%nat then r else Some g in
  match op with
  | PY_IO sec =>
      match py_client y with
      | Some _ => perform [] [] (lp (run_section sec)) (fun _ refs => refs) k g
      | None => Some g
      end
  | PY_RECV h o n => on_stream o h (Stream_recv o n) g
  | PY_SENDALL h o data => on_stream o h (Stream_sendall o data) g
  | PY_RECV_NB h o n => on_stream o h (Stream_recv_nb o n) g
  | PY_SEND_NB h o data => on_stream o h (Stream_send_nb o data) g
  | PY_META h o => on_stream o h (Stream_get_meta o) g
  | PY_CLOSE o => on_stream o [] (Stream_close o) g
  | PY_KEEP o =>
      if decide (o ∈ refs) then perform [] [] (Stream_enter o) (fun _ refs => {[+ o +]} ⊎ refs) k g else Some g
  | PY_DROP o io =>
      if decide (o ∈ refs) then perform [] io (Py_decref (STREAM o)) (fun _ refs => refs ∖ {[+ o +]}) k g else Some g
  | PY_ACCEPT h => on_peer (perform h [] Peer_accept (fun r refs => given r ⊎ refs) k g)
  | PY_FILENO h => on_peer (perform h [] Peer_fileno (fun _ refs => refs) k g)
  | PY_POLL maxev => on_peer (perform [] [] (Peer_poll maxev) (fun r refs => polled_refs r ⊎ refs) k g)
  | PY_PEER_CLOSE io =>
      on_peer (if decide (quiet y) then perform [] io Peer_close (fun _ refs => refs) k g else Some g)
  | PY_PEER_KEEP =>
      on_peer (perform [] [] Peer_enter (fun _ refs => refs) (S k) g)
  | PY_PEER_DROP io =>
      on_peer (if decide (k = 1%nat → poll_only y)
               then perform [] io (Py_decref PEER) (fun _ refs => refs) (Nat.pred k) g else Some g)
  end.

Fixpoint py_run (ops : list py_op) (g : prog) : option prog :=
  match ops with [] => Some g | op :: ops => g ← py_exec op g; py_run ops g end.

Definition prog_ok (g : prog) : Prop := pyinv [] None (g_refs g) (g_peer g) (g_py g).

(** A Peer to which one reference is held, with or without a client. *)
Lemma fresh_ok b strs mc :
  owns [] mc → b = bool_decide (is_Some mc) →
  pyinv [] None ∅ 1 (mk_py (Some (mk_PeerObj 1 b (Some dict_new) (Some strs))) mc ∅ 1 [] []).
Proof.
  intros Hc Hb. split; cbn.
  - unfold peer_ok. cbn. split_and!; [done | done | by eexists | by eexists | done].
  - exact Hc.
  - intros o. rewrite lookup_empty, count_add. unfold streams_of. cbn. by rewrite values_new, !multiplicity_empty.
  - intros s o. unfold streams_of. cbn. by rewrite get_new.
  - intros o [so Ho]. by rewrite lookup_empty in Ho.
  - done.
Qed.

Lemma client_zero_ok cfg : client_ok [] (lp_client_zero cfg).
Proof. exists true. exact (start_ok cfg). Qed.

Lemma py_start_ok cfg strs : prog_ok (py_start cfg strs).
Proof. apply fresh_ok; [apply client_zero_ok | done]. Qed.

(** ** One operation *)

Lemma perform_ok {A} h io (m : ST py A) f k g :
  wp m (fun a y => pyinv [] None (f a (g_refs g)) k y) (g_py g <| py_heap := h |> <| py_io := io |>) →
  ∃ g', perform h io m f k g = Some g' ∧ prog_ok g'.
Proof. unfold wp, perform. destruct (m _) as [[a y]|]; [| done]. intros Hy. by eexists. Qed.

Lemma on_stream_ok {A} o h (m : ST py A) g :
  prog_ok g →
  (o ∈ g_refs g → ∀ y, pyinv [] None (g_refs g) (g_peer g) y → py_heap y = h →
     wp m (fun _ y => pyinv [] None (g_refs g) (g_peer g) y) y) →
  ∃ g', on_stream o h m g = Some g' ∧ prog_ok g'.
Proof.
  intros Hg Hm. unfold on_stream. destruct (decide _) as [Hin|]; [| by exists g].
  apply perform_ok, Hm; [done | by apply pyinv_io, pyinv_heap | done].
Qed.

Lemma py_exec_ok op g : prog_ok g → ∃ g', py_exec op g = Some g' ∧ prog_ok g'.
Proof.
  destruct g as [y refs k]. intros Hg. pose proof Hg as Hy. unfold prog_ok in Hy. cbn in Hy.
  assert (∀ h io, pyinv [] None refs k (y <| py_heap := h |> <| py_io := io |>)) as Hyh.
  { intros h io. by apply pyinv_io, pyinv_heap. }
  assert (∀ r, ((0 < k)%nat → ∃ g', r = Some g' ∧ prog_ok g') →
    ∃ g', (if decide (0 < k)%nat then r else Some (mk_prog y refs k)) = Some g' ∧ prog_ok g') as Hpeer.
  { intros r Hr. destruct (decide _); [by apply Hr | by eexists]. }
  destruct op; cbn [py_exec]; try (apply on_stream_ok; [exact Hg | cbn; intros Hin z Hz Hh]);
    try (apply Hpeer; intros Hk).
  - destruct (py_client y) as [c|] eqn:Ec; [| by eexists]. apply perform_ok. cbn. eapply wp_io; [apply Hyh | exact Ec | done].
  - by eapply wp_Stream_recv.
  - by eapply wp_Stream_sendall.
  - by eapply wp_Stream_recv_nb.
  - by eapply wp_Stream_send_nb.
  - by eapply wp_Stream_get_meta.
  - eapply wp_Stream_close; [exact Hz | exact Hh | exact Hin | done].
  - destruct (decide (o ∈ refs)) as [Hin|]; [| by eexists]. apply perform_ok. cbn.
    destruct (ref_live _ _ _ _ _ _ Hy Hin) as (so & Ho & _). unfold Stream_enter. wp1.
    eapply wp_incref; [apply Hyh | exact Ho | done |]. intros. by apply wp_ret.
  - destruct (decide (o ∈ refs)) as [Hin|]; [| by eexists]. apply perform_ok. cbn.
    eapply wp_decref; [apply Hyh | done | exact Hin | done].
  - apply perform_ok. cbn. eapply wp_Peer_accept; [apply Hyh | exact Hk | done].
  - apply perform_ok. cbn. eapply wp_Peer_fileno; [apply Hyh | exact Hk | done].
  - apply perform_ok. cbn. eapply wp_Peer_poll; [apply Hyh | done | exact Hk | |].
    + pose proof (Hyh [] []) as Hz. rewrite <- (gmultiset_disj_union_left_id refs) in Hz. exact Hz.
    + done.
  - destruct (decide (quiet y)) as [Hq|]; [| by eexists]. apply perform_ok. cbn.
    eapply wp_Peer_close; [apply Hyh | exact Hk | exact Hq | done].
  - apply perform_ok. cbn. eapply wp_Peer_enter; [apply Hyh | exact Hk | done].
  - destruct (decide (k = 1%nat → poll_only y)) as [Hp|]; [| by eexists]. apply perform_ok. cbn.
    destruct k as [|k]; [lia |]. eapply wp_release_peer; [apply Hyh | done | | done]. intros ->. by apply Hp.
Qed.

Lemma py_run_ok ops g : prog_ok g → ∃ g', py_run ops g = Some g' ∧ prog_ok g'.
Proof.
  revert g. induction ops as [|op ops IH]; intros g Hg; cbn [py_run]; [by exists g |].
  destruct (py_exec_ok op g Hg) as (g1 & -> & H1). cbn [mbind option_bind]. by apply IH.
Qed.

Lemma py_start_run cfg strs ops g : py_run ops (py_start cfg strs) = Some g → prog_ok g.
Proof. intros E. destruct (py_run_ok ops _ (py_start_ok cfg strs)) as (g' & E' & Hg). congruence. Qed.

(** ** Theorems *)


(** Everything is freed but what the map keeps.  A program that has let go
    of every reference leaves no object, no Peer and no client behind, unless a
    poll-mode Stream is still open: the map holds that Stream, the Stream the Peer,
    and the Peer the map. *)
Theorem collected cfg strs ops g :
  py_run ops (py_start cfg strs) = Some g → g_refs g = ∅ → g_peer g = 0%nat →
  (py_objs (g_py g) = ∅ ∧ py_peer (g_py g) = None ∧ py_client (g_py g) = None) ∨
  (∃ o so s p, py_objs (g_py g) !! o = Some so ∧ so_s so = Some s ∧ so_peer so = true ∧
     dict_get (streams_of (g_py g)) s = Some o ∧ py_peer (g_py g) = Some p).
Proof.
  intros Hg%py_start_run Er Ek. destruct g as [y refs k]. cbn in *. subst. unfold prog_ok in Hg. cbn in Hg.
  destruct (decide (py_objs y = ∅)) as [E|E].
  - left. split; [done |]. pose proof (pi_peer _ _ _ _ _ Hg) as Hp. unfold peer_ok in Hp. rewrite E in Hp.
    destruct (py_peer y) as [p|]; [| naive_solver]. destruct Hp as (Hr & Hpos & _).
    change (wrapped ∅) with 0 in Hr. lia.
  - right. apply map_choose in E as (o & so & Ho). pose proof (pi_refs _ _ _ _ _ Hg o) as Hr. rewrite Ho in Hr.
    destruct Hr as [Hr [Hpos|]]; [| done]. rewrite count_add, multiplicity_empty in Hr.
    assert (o ∈ dict_values (streams_of y)) as [s Hs]%values_get by (rewrite elem_of_multiplicity; lia).
    destruct (pi_dict _ _ _ _ _ Hg _ _ Hs) as (so' & Ho' & P' & S'). assert (so' = so) as -> by congruence.
    destruct (peer_alive _ _ _ _ _ _ _ Hg Ho P') as (p & _ & Ep & _). by exists o, so, s, p.
Qed.

(** [poll] pairs every event with the Stream it is about: the object of
    each tuple holds the stream for which [lp_poll] reported those events, and
    it is the object that already held it, if there was one. *)
Theorem poll_tuples cfg strs ops g maxev :
  py_run ops (py_start cfg strs) = Some g → (0 < g_peer g)%nat →
  ∃ r y', Peer_poll maxev (g_py g <| py_heap := [] |>) = Some (r, y') ∧
    match r with
    | inl e => e = OSError
    | inr l => ∃ c evs c', py_client (g_py g) = Some c ∧ lp_poll (clamp maxev) c = Some (evs, c') ∧
        Forall (fun t => ∃ s so, (s, t.2) ∈ evs ∧ py_objs y' !! t.1 = Some so ∧ so_s so = Some s ∧
          ∀ o so', py_objs (g_py g) !! o = Some so' → so_s so' = Some s → o = t.1) l
    end.
Proof.
  intros Hg%py_start_run Hk. apply wp_run. eapply wp_Peer_poll; [apply pyinv_heap, Hg | done | exact Hk | done |].
  intros c evs c' l y' Ec Ep Hy' G Ht. exists c, evs, c'. split_and!; [done | done |].
  eapply Forall_impl; [exact Ht |]. intros t (s & so & Hin & Ho & Hs). exists s, so. split_and!; [done | done | done |].
  intros o so' Ho' Hs'. destruct (G o so' Ho') as (so2 & Ho2 & Es2).
  apply (handles_inj (py_objs y') o t.1 so2 so s); [| done | done | congruence | done].
  pose proof (owns_nodup _ _ (pi_client _ _ _ _ _ Hy')) as Hn. exact Hn.
Qed.

(** A half-closed stream is dropped from the map while it is open.  An
    event with [LP_CLOSED], which libpeer reports when the peer has sent its FIN,
    removes the stream from the map; the Stream object goes on holding it, and the
    program may go on sending.  But when a send has found the buffer full, the
    [LP_WRITABLE] event it has to wait for is discarded by every later [poll]. *)
Theorem closed_unmapped cfg strs ops g s o e :
  py_run ops (py_start cfg strs) = Some g → (0 < g_peer g)%nat →
  dict_get (streams_of (g_py g)) s = Some o → has_bit e LP_CLOSED = true → has_bit e LP_ACCEPT = false →
  ∃ y so, poll_event s e (g_py g <| py_heap := [] |>) = Some (true, [(o, e)], y) ∧
    py_objs y !! o = Some so ∧ so_s so = Some s ∧ poll_event s LP_WRITABLE y = Some (true, [], y).
Proof.
  intros Hg%py_start_run Hk Hd Hc Ha. set (y0 := g_py g <| py_heap := [] |>).
  assert (pyinv [] None (g_refs g) (g_peer g) y0) as H0 by apply pyinv_heap, Hg.
  assert (wp (poll_event s e) (fun r y => r = (true, [(o, e)]) ∧ ∃ so, py_objs y !! o = Some so ∧ so_s so = Some s ∧
    poll_event s LP_WRITABLE y = Some (true, [], y)) y0) as (r & y & E & -> & so & Ho & Hs & Ew)%wp_run; [| by exists y, so].
  eapply (wp_poll_event [] []); [exact H0 | done | exact Hk | unfold arriving; by rewrite Ha | |].
  { intros _ E. change (dict_get (streams_of (g_py g)) s = None) in E. congruence. }
  intros o' so y Ho' H1 Hh1 _ Ho Hs Hd1. assert (o' = o) as ->.
  { specialize (Ho' Ha). change (dict_get (streams_of (g_py g)) s = Some o') in Ho'. congruence. }
  rewrite Hc in Hd1. split; [done |]. exists so. split_and!; [done | done |].
  assert (wp (poll_event s LP_WRITABLE) (fun r z => r = (true, []) ∧ z = y) y) as (r & z & E & -> & ->)%wp_run; [| done].
  eapply (wp_poll_event [] []); [exact H1 | exact Hh1 | exact Hk | done | done |].
  intros o' so' z Hz. specialize (Hz eq_refl). congruence.
Qed.

(** ** Where the discipline is needed *)

Lemma lp_freed {A B} (m : P A) (f : A → ST py B) y : py_client y = None → (lp m ≫= f) y = None.
Proof. intros E. unfold mbind, ST_bind, lp. by rewrite E. Qed.

Lemma py_alloc_ok {B} (f : bool → ST py B) y : py_heap y = [] → (py_alloc ≫= f) y = f true y.
Proof.
  intros E. apply (bind_some _ _ _ true y). unfold py_alloc, mbind, ST_bind, gets, modify. rewrite E. cbn.
  destruct y; cbn in *. by subst.
Qed.

(** A blocking-mode Stream whose client is gone. *)
Definition dangling (o : Z) y : Prop :=
  (∀ n, 0 < n → Stream_recv o n y = None) ∧ (∀ data, data ≠ [] → Stream_sendall o data y = None) ∧ Stream_close o y = None.

Lemma freed_dangling y o so s :
  py_client y = None → py_heap y = [] → py_objs y !! o = Some so → so_s so = Some s → so_peer so = false → dangling o y.
Proof.
  intros Ec Hh Ho Hs Hp. assert (∀ B (f : StreamObj → ST py B), (obj o ≫= f) y = f so y) as Hobj.
  { intros B f. apply bind_some. unfold obj. by rewrite Ho. }
  split_and!.
  - intros n Hn. unfold Stream_recv. rewrite Hobj, Hs. destruct (Z.leb_spec n 0); [lia |].
    rewrite py_alloc_ok by done. cbn [negb]. by apply lp_freed.
  - intros data Hd. unfold Stream_sendall. rewrite Hobj, Hs. destruct data as [|b data]; [done |].
    rewrite zlen_cons. pose proof (zlen_nonneg data). destruct (Z.gtb_spec (1 + zlen data) 0); [| lia]. by apply lp_freed.
  - unfold Stream_close, finish_stream. rewrite Hobj, Hs, Hp. cbn [when_].
    rewrite (bind_some _ _ _ tt y), Hobj, Hs by done. unfold mbind at 1, ST_bind at 1. by rewrite lp_freed.
Qed.

(** Closing the Peer invalidates open Streams.  [Peer.close] ends with
    [lp_disconnect], which frees every stream; the Stream objects keep their
    pointers, and the next [recv], [sendall] or [close] on one goes through a freed
    stream. *)
Theorem use_after_close cfg strs ops g o so s :
  py_run ops (py_start cfg strs) = Some g → (0 < g_peer g)%nat →
  py_objs (g_py g) !! o = Some so → so_s so = Some s → so_peer so = false →
  ∃ y, Peer_close (g_py g <| py_heap := [] |>) = Some (tt, y) ∧ dangling o y.
Proof.
  intros Hg%py_start_run Hk Ho Hs Hp. set (y0 := g_py g <| py_heap := [] |>).
  assert (pyinv [] None (g_refs g) (g_peer g) y0) as H0 by apply pyinv_heap, Hg.
  destruct (peer_held _ _ _ _ H0 Hk) as (p & d & Ep & _ & _ & Epc).
  destruct (open_client _ _ _ _ _ _ _ _ H0 Ho Hs) as (c & arm & Ec & Hc & _).
  assert (wp Peer_close (fun _ y => dangling o y) y0) as ([] & y & E & Hd)%wp_run; [| by exists y].
  unfold Peer_close. wp1. eapply wp_self; [exact Ep |]. rewrite Epc, Ec, bool_decide_eq_true_2 by done. cbn [when_].
  unfold put_self. wps. eapply wp_disconnect; [exact Ec | by exists arm |]. by eapply freed_dangling.
Qed.

(** A Stream that [accept] returned does not keep its Peer.  When the
    program lets go of its last reference to the Peer, the Peer is deallocated and
    its client freed under the Stream that is still open. *)
Theorem peer_collected cfg strs ops g o so s :
  py_run ops (py_start cfg strs) = Some g → g_peer g = 1%nat → wrapped (py_objs (g_py g)) = 0 →
  py_objs (g_py g) !! o = Some so → so_s so = Some s →
  ∃ y, Py_decref PEER (g_py g <| py_heap := [] |>) = Some (tt, y) ∧ py_peer y = None ∧ dangling o y.
Proof.
  intros Hg%py_start_run Hk Hw Ho Hs. set (y0 := g_py g <| py_heap := [] |>).
  assert (pyinv [] None (g_refs g) (g_peer g) y0) as H0 by apply pyinv_heap, Hg.
  destruct (peer_held _ _ _ _ H0 ltac:(lia)) as (p & d & Ep & Ed & Esd & Epc).
  pose proof (pi_peer _ _ _ _ _ H0) as Hpe. unfold peer_ok in Hpe. rewrite Ep in Hpe.
  destruct Hpe as (Er & Hpos & _ & Hstr & _). change (py_objs y0) with (py_objs (g_py g)) in *. rewrite Hw, Hk in Er.
  assert (wp (Py_decref PEER) (fun _ y => py_peer y = None ∧ dangling o y) y0) as ([] & y & E & Hn & Hd)%wp_run; [| by exists y].
  unfold Py_decref. wps.
  eapply wp_decref_peer; [exact Ep | exact Hpos | exact Ed | exact Hstr | exact Epc | | lia |].
  - intros _. split; [| exact (pi_client _ _ _ _ _ H0)]. rewrite <- Esd. eapply map_empty_values; [exact H0 |].
    intros q so' Hq Hq'. by rewrite (not_wrapped _ _ _ Hw Hq) in Hq'.
  - intros y _ Ep' Ec' Eo' _ Eh'. split; [done |]. eapply freed_dangling; [done | by rewrite Eh' | by rewrite Eo' | done |].
    by eapply not_wrapped.
Qed.

(** ** Making a Peer *)

Section Make.
Context `{OS}.

Lemma wp_drop_self strs e tr0 tr (Q : pyexn + py * link_cfg → trace → Prop) :
  more [] tr0 tr → (more [] tr0 tr → Q (inl e) tr) → wp (drop_self (peer_only (Some dict_new) (Some strs)) e) Q tr.
Proof.
  intros Hm HQ. unfold drop_self.
  assert (wp (Py_decref PEER) (fun _ _ => True) (peer_only (Some dict_new) (Some strs))) as (u & y & E & _)%wp_run.
  { eapply (wp_release_peer ∅ 0); [by apply fresh_ok | done | | done]. intros _ o so Ho. cbn in Ho. by rewrite lookup_empty in Ho. }
  rewrite E. by apply wp_ret, HQ.
Qed.

(** A Peer with the descriptors of its client, or an exception and nothing. *)
Definition made_peer tr (r : pyexn + py * link_cfg) tr' : Prop :=
  match r with
  | inl _ => more [] tr tr'
  | inr (y, _) => (∃ c, more (link_fds c) tr tr') ∧ pyinv [] None ∅ 1 y
  end.

Lemma wp_finish_peer h strs w iw sw hb port tr : wp (finish_peer h strs w iw sw hb port) (made_peer tr) tr.
Proof.
  unfold finish_peer. destruct strs as [[[s_listen s_host] s_token] s_id]. wp1. apply wp_lp_connect. intros [c|] tr1 Hm.
  - apply wp_ret. split; [by exists c |]. apply fresh_ok; [apply client_zero_ok | done].
  - by eapply wp_drop_self.
Qed.

(** [listen] and [connect] return a Peer that satisfies the invariant, with
    the four descriptors of its client open, or raise an exception and leave
    nothing open.  The one failure they do not survive is that of the dict. *)
Theorem build_peer_ok h la da token id w iw sw hb tr :
  ((alloc h).1 = true → (alloc (alloc h).2).1 = true) →
  ∃ r tr', build_peer h la da token id w iw sw hb tr = Some (r, tr') ∧
    made_peer tr r tr'.
Proof.
  intros Hh. apply wp_run. assert (more [] tr tr) as H0 by by apply more_nil.
  unfold build_peer. destruct (alloc h) as [ok h1]. cbn [fst snd] in Hh. destruct ok; cbn [negb]; [| by apply wp_ret].
  specialize (Hh eq_refl). destruct (alloc h1) as [ok h2]. cbn in Hh. subst ok. cbn [negb].
  destruct (dup_or_null h2 la) as [h3 s_listen], (dup_or_null h3 token) as [h4 s_token], (dup_or_null h4 id) as [h5 s_id].
  destruct la as [la|]; [apply wp_finish_peer |].
  destruct (net_addr_is_unix da); [destruct (dup_or_null h5 da); apply wp_finish_peer |].
  pose proof (net_parse_addr_ok da 256) as Hok. destruct (net_parse_addr da 256) as [[rc host] port].
  destruct rc as [|rc|rc]; [| by eapply wp_drop_self ..]. destruct Hok as (host' & port' & -> & -> & _).
  destruct (dup_or_null h5 (Some host')). apply wp_finish_peer.
Qed.

(** When the dict cannot be made, the deallocation that follows frees four
    pointers that were never set. *)
Theorem build_peer_no_dict h la da token id w iw sw hb tr :
  (alloc h).1 = true → (alloc (alloc h).2).1 = false → build_peer h la da token id w iw sw hb tr = None.
Proof.
  unfold build_peer. destruct (alloc h) as [ok h1]. cbn. intros -> E. destruct (alloc h1) as [ok h2]. cbn in *. by subst.
Qed.
End Make.
End Sys.

(** ** Witnesses and counterexamples *)

#[local] Existing Instance gmap_dict.

Definition turn_py : py_op := PY_IO (SEC_BEFORE k0 [] [] 5 []).
Definition got_py (bs : bytes) : py_op := PY_IO (SEC_AFTER k0 (mk_polled false false true false) [READ bs] [] [] 0).
Definition fin_1 : bytes := enc (mk_wframe MUX_T_DATA MUX_F_FIN 1 []).

Definition start_1 : prog := py_start listen_cfg (None, None, None, None).
Definition prog_of (ops : list py_op) : prog := default start_1 (py_run ops start_1).

Lemma prog_of_run ops :
  match py_run ops start_1 with Some _ => true | None => false end = true → py_run ops start_1 = Some (prog_of ops).
Proof. apply default_Some. Qed.

(** A stream accepted in either mode. *)
Definition poll_ops : list py_op := [PY_FILENO []; turn_py; got_py greet; PY_POLL 8].
Definition block_ops : list py_op := [turn_py; got_py (greet ++ three); PY_ACCEPT []].


Lemma poll_tuples_witness :
  ∃ r y', Peer_poll 8 (g_py (prog_of [PY_FILENO []; turn_py; got_py greet]) <| py_heap := [] |>) = Some (r, y').
Proof.
  destruct (poll_tuples listen_cfg (None, None, None, None) [PY_FILENO []; turn_py; got_py greet]
              (prog_of [PY_FILENO []; turn_py; got_py greet]) 8) as (r & y' & E & _).
  - apply prog_of_run. vm_compute. reflexivity.
  - apply Nat.ltb_lt. vm_compute. reflexivity.
  - exists r, y'. exact E.
Defined.

Lemma closed_unmapped_witness :
  ∃ y, poll_event 1 (Z.lor LP_READABLE LP_CLOSED) (g_py (prog_of poll_ops) <| py_heap := [] |>) = Some (true, [(1, 10)], y) ∧
    poll_event 1 LP_WRITABLE y = Some (true, [], y).
Proof.
  destruct (closed_unmapped listen_cfg (None, None, None, None) poll_ops (prog_of poll_ops) 1 1 10) as (y & so & E & _ & _ & Ew).
  - apply prog_of_run. vm_compute. reflexivity.
  - apply Nat.ltb_lt. vm_compute. reflexivity.
  - vm_compute. reflexivity.
  - reflexivity.
  - reflexivity.
  - exists y. split; [exact E | exact Ew].
Defined.

(** A program that lets go of everything: after closing its Stream, and with
    the Stream open. *)
Definition tidy_ops : list py_op := poll_ops ++ [PY_CLOSE 1; PY_DROP 1 []; PY_PEER_DROP []].
Definition cycle_ops : list py_op := poll_ops ++ [PY_DROP 1 []; PY_PEER_DROP []].

Lemma collected_witness :
  (py_objs (g_py (prog_of tidy_ops)) = ∅ ∧ py_peer (g_py (prog_of tidy_ops)) = None ∧ py_client (g_py (prog_of tidy_ops)) = None) ∨
  (∃ o so s p, py_objs (g_py (prog_of tidy_ops)) !! o = Some so ∧ so_s so = Some s ∧ so_peer so = true ∧
     dict_get (streams_of (g_py (prog_of tidy_ops))) s = Some o ∧ py_peer (g_py (prog_of tidy_ops)) = Some p).
Proof.
  apply (collected listen_cfg (None, None, None, None) tidy_ops).
  - apply prog_of_run. vm_compute. reflexivity.
  - vm_compute. reflexivity.
  - vm_compute. reflexivity.
Defined.

Lemma use_after_close_witness :
  ∃ y, Peer_close (g_py (prog_of block_ops) <| py_heap := [] |>) = Some (tt, y) ∧ Stream_recv 1 10 y = None.
Proof.
  destruct (use_after_close listen_cfg (None, None, None, None) block_ops (prog_of block_ops) 1
              (mk_StreamObj 1 (Some 1) false) 1) as (y & E & Hr & _).
  - apply prog_of_run. vm_compute. reflexivity.
  - apply Nat.ltb_lt. vm_compute. reflexivity.
  - vm_compute. reflexivity.
  - reflexivity.
  - reflexivity.
  - exists y. split; [exact E | apply Hr; lia].
Defined.

Lemma peer_collected_witness :
  ∃ y, Py_decref PEER (g_py (prog_of block_ops) <| py_heap := [] |>) = Some (tt, y) ∧ Stream_recv 1 10 y = None.
Proof.
  destruct (peer_collected listen_cfg (None, None, None, None) block_ops (prog_of block_ops) 1
              (mk_StreamObj 1 (Some 1) false) 1) as (y & E & _ & Hr & _).
  - apply prog_of_run. vm_compute. reflexivity.
  - vm_compute. reflexivity.
  - vm_compute. reflexivity.
  - vm_compute. reflexivity.
  - reflexivity.
  - exists y. split; [exact E | apply Hr; lia].
Defined.

(** What a blocking worker sees: the request, then end of file. *)
Example worker_reads :
  let g := prog_of (block_ops ++ [got_py fin_1]) in
  let read (y : py) := Stream_recv 1 65536 y in
  (fst <$> read (g_py g)) = Some (Some (inr [1; 2; 3])) ∧
  (fst <$> ('(_, y) ← read (g_py g); read y)) = Some (Some (inr [])).
Proof. split; vm_compute; reflexivity. Qed.

(** The cycle: with a poll-mode Stream open, the Peer and its client outlive
    every reference of the program, and nothing can reach them. *)
Theorem peer_cycle :
  let g := prog_of cycle_ops in
  g_peer g = 0%nat ∧ multiplicity 1 (g_refs g) = 0%nat ∧
  bool_decide (is_Some (py_client (g_py g))) = true ∧
  (pe_refs <$> py_peer (g_py g)) = Some 1 ∧ (so_refs <$> py_objs (g_py g) !! 1) = Some 1.
Proof. split_and!; vm_compute; reflexivity. Qed.

(** The events of a stream that has been half-closed are discarded: the
    peer sends FIN, and the program polls; the peer resets the stream, which
    libpeer reports, and [poll] returns nothing. *)
Theorem reset_discarded :
  let rst := enc (mk_wframe 0 MUX_F_RST 1 []) in
  let y := g_py (prog_of (poll_ops ++ [got_py fin_1; PY_POLL 8; got_py rst])) in
  (fst <$> (c ← py_client y; lp_poll 8 c)) = Some [(1, Z.lor LP_READABLE LP_CLOSED)] ∧
  (fst <$> Peer_poll 8 y) = Some (inr []) ∧
  (so_s <$> py_objs y !! 1) = Some (Some 1).
Proof. split_and!; vm_compute; reflexivity. Qed.

(** A key that cannot be made: [poll] closes a stream whose object still
    holds it; once the I/O thread has freed the stream the object dangles. *)
Theorem poll_failure_dangles :
  let y := g_py (prog_of (poll_ops ++ [got_py fin_1])) in
  let fails := Peer_poll 8 (y <| py_heap := [true; false] |>) in
  (fst <$> fails) = Some (inl RuntimeError) ∧
  (so_s <$> ('(_, y) ← fails; py_objs y !! 1)) = Some (Some 1) ∧
  (fst <$> ('(_, y) ← fails; '(_, y) ← lp (run_section (SEC_BEFORE k0 [] [] 5 [])) y; Stream_recv_nb 1 10 y)) = None.
Proof. split_and!; vm_compute; reflexivity. Qed.
