(* ===== verification/PeerLoop.v ===== *)
(** libpeer's I/O thread, [io_main] of libpeer.c, as the loop it is.

    A turn of the loop is determined by what the operating system answers in it
    and by the calls the application makes while the thread waits with the mutex
    released: in [session_up], in the back-off, in [poll], and in the final drain
    ([io_turn]).  [io_main_refines] shows that PeerSys, which allows the sections
    of the thread in any order, covers every run of it. *)

From stdpp Require Import base list numbers gmap.
From Stdlib Require Import ZArith Lia.
From S2P Require Import Prelude Frame OutBuf EventQueue Probe StreamTable Session SessionIO Handshake Recv SessionOpens Auth Host Fifo Umap RouterLoop Peer PeerInv PeerFrame PeerSteps PeerIO PeerSys.

Record io_turn := mk_io_turn {
  it_stack : stack;
  it_wait : list lp_op;           (* the application, while session_up waits *)
  it_fd : Z;                      (* the socket it comes by *)
  it_rnd : bytes;
  it_heap : heap;
  it_backoff : list lp_op;        (* during the sleep after a failure *)
  it_flush : list write_res;
  it_poll : list lp_op;           (* during poll *)
  it_res : poll_res;
  it_rev_wake : Z;                (* revents *)
  it_rev_tunnel : Z;
  it_reads : list read_res;
  it_writes : list write_res;
  it_now : Z;
  it_timer : list write_res;
}.

(** ** The application *)

Definition is_app (o : lp_op) : bool :=
  match o with
  | IO_BEFORE _ _ _ _ _ | IO_AFTER _ _ _ _ _ _ | IO_DRAIN | IO_DRAIN_FLUSH _ | IO_EXIT => false
  | _ => true
  end.

(** What it does while the mutex is free. *)
Definition apps (l : list lp_op) : list lp_op := List.filter is_app l.

(** A section of the thread, on the system. *)
Definition thread {A} (m : P A) (y : sys) : option (A * sys) :=
  '(a, c) ← m (y_client y); Some (a, mk_sys c (y_own y) (y_armed y)).

(** ** One turn *)

(** Where the first half of an iteration leaves it. *)
Inductive head := NOT_UP | FLUSH_FAILED | POLLING.

(** From the return of the wait in [session_up] (or the top of the loop) to the
    unlock before [poll]. *)
Definition io_head (k : stack) (rnd : bytes) (h : heap) (fd : Z) (ws : list write_res) : P head :=
  c ← gets id;
  r ← (if lc_fd c <? 0 then session_up k rnd h fd else mret 0);
  if negb (r =? 0) then mret NOT_UP else
  run_pending;;
  c ← gets id;
  match lc_mux c with
  | None => mret POLLING
  | Some _ =>
      '(r, _, _) ← tunnel_flush ws [];
      if r <? 0 then session_down;; mret FLUSH_FAILED else mret POLLING
  end.

(** [pfd[1].events] *)
Definition out_pending (c : lp_client) : Z := match lc_mux c with Some s => mux_out_pending s | None => 0 end.

Definition tunnel_want (c : lp_client) : Z :=
  Z.lor (if out_pending c <? Z.shiftl 4 20 then POLLIN else 0) (if negb (out_pending c =? 0) then POLLOUT else 0).

(** What poll has written to [revents], all zero when it was interrupted. *)
Definition io_polled (t : io_turn) (want : Z) : Peer.polled :=
  let rev := match it_res t with POLL_OK => reported want (it_rev_tunnel t) | _ => 0 end in
  let wake := match it_res t with POLL_OK => it_rev_wake t | _ => 0 end in
  mk_polled (match it_res t with POLL_ERROR => true | _ => false end)
    (hit wake POLLIN) (hit rev (Z.lor POLLIN (Z.lor POLLHUP POLLERR))) (hit rev POLLOUT).

(** An iteration up to the return of [poll], or to its end: [Some want] when the
    thread has polled. *)
Definition io_first (t : io_turn) (y : sys) : option (option Z * sys) :=
  y ← (if lc_fd (y_client y) <? 0 then run (apps (it_wait t)) y else Some y);
  '(r, y) ← thread (io_head (it_stack t) (it_rnd t) (it_heap t) (it_fd t) (it_flush t)) y;
  match r with
  | NOT_UP => y ← run (apps (it_backoff t)) y; Some (None, y)
  | FLUSH_FAILED => Some (None, y)
  | POLLING => let want := tunnel_want (y_client y) in y ← run (apps (it_poll t)) y; Some (Some want, y)
  end.

Definition io_iter (t : io_turn) (y : sys) : option sys :=
  '(r, y) ← io_first t y;
  match r with
  | None => Some y
  | Some want =>
      '(_, y) ← thread (io_after (it_stack t) (io_polled t want) (it_reads t) (it_writes t) (it_timer t) (it_now t)) y;
      Some y
  end.

(** ** The end *)

(** The loop of the drain, [n] times at most; [ds] is what the socket and the
    application do in each round, each wait letting the application in. *)
Fixpoint drain_loop (n : nat) (ds : nat -> list write_res * list lp_op) (y : sys) : option sys :=
  match n with
  | O => Some y
  | S n =>
      if negb (out_pending (y_client y) >? 0) then Some y else
      '(r, y) ← thread (io_drain_flush (ds n).1) y;
      if r <? 0 then Some y else
      if out_pending (y_client y) =? 0 then Some y else
      y ← run (apps (ds n).2) y; drain_loop n ds y
  end.

Definition io_finish (ds : nat -> list write_res * list lp_op) (y : sys) : option sys :=
  y ← (if bool_decide (is_Some (lc_mux (y_client y))) && (lc_fd (y_client y) >=? 0)
       then '(_, y) ← thread run_pending y; drain_loop 100 ds y else Some y);
  '(_, y) ← thread io_exit y; Some y.

(** The thread over a list of turns: whether it has ended, and the system. *)
Fixpoint io_main (ts : list io_turn) (ds : nat -> list write_res * list lp_op) (y : sys) : option (bool * sys) :=
  if lc_stopping (y_client y) then y ← io_finish ds y; Some (true, y) else
  match ts with
  | [] => Some (false, y)
  | t :: ts => y ← io_iter t y; io_main ts ds y
  end.

(** ** Runs of the loop are runs of the system *)

(** [y'] is reached by operations of PeerSys. *)
Definition reach (y y' : sys) : Prop := ∃ ops, run ops y = Some y'.

#[export] Instance reach_pre : PreOrder reach.
Proof.
  split; [intros y; by exists [] |]. intros y1 y2 y3 [o1 E1] [o2 E2]. exists (o1 ++ o2).
  revert y1 E1. induction o1 as [|o o1 IH]; intros y1 E1; cbn [run app] in *; [by simplify_eq |].
  destruct (exec o y1) as [y|]; cbn in *; [by apply IH | done].
Qed.

(** [m] is defined on a sound system and leads to another by such operations. *)
Definition steps {A} (m : sys → option (A * sys)) : Prop :=
  ∀ y, sys_ok y → ∃ a y', m y = Some (a, y') ∧ sys_ok y' ∧ reach y y'.

Lemma run_steps l y : sys_ok y → ∃ y', run l y = Some y' ∧ sys_ok y' ∧ reach y y'.
Proof. intros Hy. destruct (run_ok l y Hy) as (y' & E & H'). exists y'. split_and!; [done | done | by exists l]. Qed.

(** A section that is an operation of PeerSys. *)
Lemma op_steps {A} (m : P A) (o : lp_op) : (∀ y, exec o y = plain m y) → steps (thread m).
Proof.
  intros Eo y Hy. destruct (exec_ok o y Hy) as (y' & E & H'). rewrite Eo in E. unfold plain, thread in *.
  destruct (m (y_client y)) as [[a c]|] eqn:Em; [| done]. simplify_eq. exists a, (mk_sys c (y_own y) (y_armed y)).
  split_and!; [done | done |]. exists [o]. cbn [run]. rewrite Eo. unfold plain. by rewrite Em.
Qed.

Lemma after_steps k po rs ws ws2 now : steps (thread (io_after k po rs ws ws2 now)).
Proof. apply (op_steps _ (IO_AFTER k po rs ws ws2 now)). by intros []. Qed.

Lemma flush_steps ws : steps (thread (io_drain_flush ws)).
Proof. apply (op_steps _ (IO_DRAIN_FLUSH ws)). by intros []. Qed.

Lemma exit_steps : steps (thread io_exit).
Proof. apply (op_steps _ IO_EXIT). by intros []. Qed.

(** [io_before] of Peer is [io_head] without its result. *)
Lemma io_head_before k rnd h fd ws c :
  io_before k rnd h fd ws c = (fun r => (tt, r.2)) <$> io_head k rnd h fd ws c.
Proof.
  unfold io_before, io_head, mbind, ST_bind, gets, id. cbv beta iota.
  destruct (if lc_fd c <? 0 then _ else _) as [[r c1]|]; [| done]. destruct (negb (r =? 0)); [done |].
  destruct (run_pending c1) as [[[] c2]|]; [| done]. destruct (lc_mux c2); [| done].
  destruct (tunnel_flush ws [] c2) as [[[[r2 ?] ?] c3]|]; [| done]. unfold when_.
  destruct (r2 <? 0); [| done]. by destruct (session_down c3) as [[[] c4]|].
Qed.

Lemma head_steps k rnd h fd ws : steps (thread (io_head k rnd h fd ws)).
Proof.
  intros y Hy. destruct (exec_ok (IO_BEFORE k rnd h fd ws) y Hy) as (y' & E & H').
  assert (exec (IO_BEFORE k rnd h fd ws) y = plain (io_before k rnd h fd ws) y) as Ex by by destruct y.
  rewrite Ex in E. unfold plain in E. rewrite io_head_before in E. unfold thread.
  destruct (io_head k rnd h fd ws (y_client y)) as [[r c]|] eqn:Eh; [| done]. cbn in E. simplify_eq.
  exists r, (mk_sys c (y_own y) (y_armed y)). split_and!; [done | done |]. exists [IO_BEFORE k rnd h fd ws].
  cbn [run]. rewrite Ex. unfold plain. rewrite io_head_before, Eh. done.
Qed.

(** The graceful drain's first pass runs only with a session. *)
Lemma drain_steps y :
  sys_ok y → bool_decide (is_Some (lc_mux (y_client y))) && (lc_fd (y_client y) >=? 0) = true →
  ∃ y', thread run_pending y = Some (tt, y') ∧ sys_ok y' ∧ reach y y'.
Proof.
  intros Hy Hb. destruct (exec_ok IO_DRAIN y Hy) as (y' & E & H').
  assert (exec IO_DRAIN y = plain io_drain y) as Ex by by destruct y.
  assert (plain io_drain y = snd <$> thread run_pending y) as Ep.
  { unfold plain, thread, io_drain, mbind, ST_bind, gets, id. rewrite Hb. cbn [when_].
    by destruct (run_pending (y_client y)) as [[[] c]|]. }
  rewrite Ex, Ep in E. destruct (thread run_pending y) as [[[] y1]|] eqn:Et; [| done]. cbn in E. simplify_eq.
  exists y'. split_and!; [done | done |]. exists [IO_DRAIN]. cbn [run]. by rewrite Ex, Ep.
Qed.

Lemma io_first_steps t : steps (io_first t).
Proof.
  intros y Hy. unfold io_first.
  assert (∃ y1, (if lc_fd (y_client y) <? 0 then run (apps (it_wait t)) y else Some y) = Some y1 ∧ sys_ok y1 ∧ reach y y1)
    as (y1 & -> & H1 & R1).
  { destruct (_ <? _); [by apply run_steps |]. exists y. by split_and!. }
  cbn [mbind option_bind]. destruct (head_steps (it_stack t) (it_rnd t) (it_heap t) (it_fd t) (it_flush t) y1 H1) as (r & y2 & -> & H2 & R2).
  cbn [mbind option_bind]. destruct r.
  - destruct (run_steps (apps (it_backoff t)) y2 H2) as (y3 & -> & H3 & R3). exists None, y3.
    split_and!; [done | done | by do 2 (etrans; [eassumption |])].
  - exists None, y2. split_and!; [done | done | by etrans].
  - destruct (run_steps (apps (it_poll t)) y2 H2) as (y3 & -> & H3 & R3). eexists _, y3.
    split_and!; [done | done | by do 2 (etrans; [eassumption |])].
Qed.

Lemma io_iter_steps t y : sys_ok y → ∃ y', io_iter t y = Some y' ∧ sys_ok y' ∧ reach y y'.
Proof.
  intros Hy. unfold io_iter. destruct (io_first_steps t y Hy) as (r & y1 & -> & H1 & R1). cbn [mbind option_bind].
  destruct r as [want|]; [| by exists y1].
  destruct (after_steps (it_stack t) (io_polled t want) (it_reads t) (it_writes t) (it_timer t) (it_now t) y1 H1)
    as (r & y2 & -> & H2 & R2). exists y2. split_and!; [done | done | by etrans].
Qed.

Lemma drain_loop_steps n ds y : sys_ok y → ∃ y', drain_loop n ds y = Some y' ∧ sys_ok y' ∧ reach y y'.
Proof.
  revert y. induction n as [|n IH]; intros y Hy; cbn [drain_loop]; [by exists y |].
  destruct (negb _); [by exists y |]. destruct (flush_steps (ds n).1 y Hy) as (r & y1 & -> & H1 & R1).
  cbn [mbind option_bind]. destruct (r <? 0); [by exists y1 |]. destruct (_ =? 0); [by exists y1 |].
  destruct (run_steps (apps (ds n).2) y1 H1) as (y2 & -> & H2 & R2). cbn [mbind option_bind].
  destruct (IH y2 H2) as (y3 & -> & H3 & R3). exists y3. split_and!; [done | done | by do 2 (etrans; [eassumption |])].
Qed.

(** What the end of the thread leaves. *)
Definition ended (y : sys) : Prop :=
  lc_mux (y_client y) = None ∧ lc_fd (y_client y) < 0 ∧ all_done (y_client y) ∧ ACCEPT_CV ∈ lc_sig (y_client y).

Lemma exit_ended y y' : sys_ok y → thread io_exit y = Some (tt, y') → ended y'.
Proof.
  intros Hy E. unfold thread in E. destruct (io_exit (y_client y)) as [[[] c]|] eqn:Ex; [| done]. cbn in E. simplify_eq.
  pose proof (wp_io_exit _ _ _ (fun _ c => (lc_fd c < 0 ↔ lc_mux c = None) ∧ lc_mux c = None ∧ all_done c) Hy
    (fun c' H' Hm Hd => conj (iv_fd _ _ _ _ _ H') (conj Hm Hd))) as Hw.
  unfold wp in Hw. rewrite Ex in Hw. destruct Hw as (Hf & Hm & Hd). split_and!; [done | by apply Hf | done |].
  unfold io_exit in Ex. apply bind_inv in Ex as ([] & c1 & _ & E2). injection E2 as <-. cbn.
  apply elem_of_app. right. by apply list_elem_of_singleton.
Qed.

Lemma io_finish_steps ds y : sys_ok y → ∃ y', io_finish ds y = Some y' ∧ sys_ok y' ∧ reach y y' ∧ ended y'.
Proof.
  intros Hy. unfold io_finish.
  assert (∃ y1, (if bool_decide (is_Some (lc_mux (y_client y))) && (lc_fd (y_client y) >=? 0)
    then '(_, y) ← thread run_pending y; drain_loop 100 ds y else Some y) = Some y1 ∧ sys_ok y1 ∧ reach y y1)
    as (y1 & -> & H1 & R1).
  { destruct (_ && _) eqn:Hb; [| exists y; by split_and!]. destruct (drain_steps y Hy Hb) as (y1 & -> & H1 & R1).
    cbn [mbind option_bind]. destruct (drain_loop_steps 100 ds y1 H1) as (y2 & -> & H2 & R2). exists y2.
    split_and!; [done | done | by etrans]. }
  cbn [mbind option_bind]. destruct (exit_steps y1 H1) as ([] & y2 & E & H2 & R2). rewrite E. cbn [mbind option_bind].
  exists y2.
  refine (conj eq_refl (conj H2 (conj _ (exit_ended _ _ H1 E)))). etrans; [exact R1 | exact R2].
Qed.

Lemma io_main_steps ts ds y :
  sys_ok y → ∃ b y', io_main ts ds y = Some (b, y') ∧ sys_ok y' ∧ reach y y' ∧
    (if b : bool then ended y' else lc_stopping (y_client y') = false).
Proof.
  revert y. induction ts as [|t ts IH]; intros y Hy; cbn [io_main]; destruct (lc_stopping (y_client y)) eqn:Es.
  - destruct (io_finish_steps ds y Hy) as (y' & -> & H' & R' & E'). by exists true, y'.
  - exists false, y. refine (conj eq_refl (conj Hy (conj _ Es))). reflexivity.
  - destruct (io_finish_steps ds y Hy) as (y' & -> & H' & R' & E'). by exists true, y'.
  - destruct (io_iter_steps t y Hy) as (y1 & -> & H1 & R1). cbn [mbind option_bind].
    destruct (IH y1 H1) as (b & y2 & -> & H2 & R2 & E2). exists b, y2. refine (conj eq_refl (conj H2 (conj _ E2))). etrans; [exact R1 | exact R2].
Qed.

(** ** Waking the thread *)

(** Work is only queued with a byte to the wake pipe. *)
Definition worked (c c' : lp_client) : Prop :=
  lc_wake c ≤ lc_wake c' ∧ (lc_pending c' = lc_pending c ∨ lc_wake c < lc_wake c').

#[export] Instance worked_frame : Frame worked.
Proof.
  split; [split |].
  - intros c. split; [lia | by left].
  - intros c1 c2 c3 [L1 W1] [L2 W2]. split; [lia |]. destruct W1 as [E1|], W2 as [E2|]; [left; congruence | right; lia ..].
  - intros c c' _ Ep Ew. split; [lia | by left].
Qed.

(** The list of pending work, and the pipe, unchanged. *)
Definition idle (c c' : lp_client) : Prop := lc_pending c' = lc_pending c ∧ lc_wake c' = lc_wake c.

#[export] Instance idle_frame : Frame idle.
Proof.
  split; [split |]; unfold idle.
  - done.
  - intros c1 c2 c3 [] []. split; congruence.
  - done.
Qed.

Lemma io_wake_worked : stays worked io_wake.
Proof. intros c [] c' [= <-]. unfold worked. cbn. unfold upd, upd_lc_wake. cbn. split; [lia | right; lia]. Qed.

Lemma push_wake_worked p (r : Z) : stays worked (pending_push p;; io_wake;; mret r).
Proof.
  intros c a c' (u & c1 & E1 & E)%bind_inv. apply bind_inv in E as (v & c2 & E2 & [= _ <-]).
  injection E2 as _ <-. assert (lc_wake c1 = lc_wake c) as Ew.
  { unfold pending_push in E1. apply bind_inv in E1 as (s & c0 & E0 & E1). unfold deref in E0.
    destruct (lc_streams c !! p); [| done]. injection E0 as _ <-. destruct (ls_in_pending s); [by revert E1; intros [= _ <-] |].
    apply bind_inv in E1 as (w & c3 & [= _ <-] & [= _ <-]). done. }
  unfold worked. cbn. unfold upd, upd_lc_wake. cbn. rewrite Ew. split; [lia | right; lia].
Qed.

#[local] Hint Resolve io_wake_worked push_wake_worked : stays.

Lemma lp_take_worked p n : stays worked (lp_take p n).
Proof.
  unfold lp_take. apply stays_bind; [auto with stays | intros s]. apply stays_bind; [auto with stays | intros _].
  intros c a c' E. set (r := (if n <? _ then _ else _, _)) in E.
  assert ((pending_push p;; io_wake;; mret 0) c = Some (0, c')) as E0; [| by eapply push_wake_worked].
  apply bind_inv in E as (u & c1 & E1 & E). apply bind_inv in E as (v & c2 & E2 & [= _ <-]).
  rewrite (bind_some _ _ _ u c1) by done. by rewrite (bind_some _ _ _ v c2).
Qed.

Lemma lp_put_worked p buf n : stays worked (lp_put p buf n).
Proof.
  unfold lp_put, buf_append_to. apply stays_bind; [| intros r; destruct (negb _); auto with stays].
  apply stays_bind; [auto with stays | intros s]. apply stays_bind; [auto with stays | intros h].
  destruct (lp_buf_append h (ls_wbuf s) buf n) as [[r h'] b]. auto 20 with stays.
Qed.
#[local] Hint Resolve lp_take_worked lp_put_worked : stays.

(** An operation of the application. *)
Lemma app_worked o y y' : is_app o = true → exec o y = Some y' → worked (y_client y) (y_client y').
Proof.
  assert (∀ A (m : P A) z z', stays worked m → plain m z = Some z' → worked (y_client z) (y_client z')) as Hplain.
  { intros A m z z' Hm E. unfold plain in E. destruct (m (y_client z)) as [[a c]|] eqn:Em; [| done]. simplify_eq. by eapply Hm. }
  assert (∀ A (m : P A) p z z', stays worked m → held p m z = Some z' → worked (y_client z) (y_client z')) as Hheld.
  { intros A m p z z' Hm E. unfold held in E. destruct (decide _); [by eapply Hplain | simplify_eq; reflexivity]. }
  destruct y as [c own arm], o; intros Ha E; try discriminate Ha; cbn [exec] in E;
    try (eapply Hheld in E; [exact E |]).
  - assert (stays worked lp_accept) as Hm by (unfold lp_accept; auto 20 with stays).
    destruct (lp_accept c) as [[r c']|] eqn:Em; [| done]. apply Hm in Em. by destruct r as [[]|]; simplify_eq.
  - unfold lp_read. destruct (_ =? 0); auto 20 with stays.
  - unfold lp_read_nb. destruct (_ =? 0); auto 20 with stays.
  - unfold lp_write. destruct (_ =? 0); auto 20 with stays.
  - unfold lp_write_nb. destruct (_ =? 0); auto 20 with stays.
  - unfold lp_stream_meta. auto with stays.
  - destruct (decide (p ∈ own)); [| simplify_eq; reflexivity].
    assert (stays worked (lp_close p)) as Hm by (unfold lp_close; auto with stays).
    destruct (lp_close p c) as [[r c']|] eqn:Em; [| done]. apply Hm in Em. by simplify_eq.
  - cbn in E. simplify_eq. apply frame_step; [reflexivity | done | done | done].
  - assert (stays worked (lp_poll max)) as Hm by auto with stays.
    destruct (lp_poll max c) as [[r c']|] eqn:Em; [| done]. apply Hm in Em. by simplify_eq.
  - eapply Hplain; [| exact E]. unfold lp_stop. apply stays_bind; [| auto with stays].
    apply stays_modify. intros d. split; [done | by left].
Qed.

Lemma apps_worked l y y' : run (apps l) y = Some y' → worked (y_client y) (y_client y').
Proof.
  revert y. induction l as [|o l IH]; intros y E; cbn in E; [simplify_eq; reflexivity |].
  destruct (is_app o) eqn:Ha; [| by apply IH]. cbn [run] in E. destruct (exec o y) as [y1|] eqn:E1; [| done].
  cbn in E. etrans; [by eapply app_worked | by apply IH].
Qed.

(** Before it polls, the thread has done all that was queued. *)
Lemma head_empty k rnd h fd ws c c' : io_head k rnd h fd ws c = Some (POLLING, c') → lc_pending c' = [].
Proof.
  unfold io_head. intros E. apply bind_inv in E as (c0 & c1 & [= <- <-] & E). apply bind_inv in E as (r & c1 & _ & E).
  destruct (negb (r =? 0)); [done |]. apply bind_inv in E as ([] & c2 & Er & E).
  assert (lc_pending c2 = []) as E2.
  { unfold run_pending in Er. apply bind_inv in Er as (ps & c3 & [= _ <-] & Er).
    apply bind_inv in Er as ([] & c4 & [= <-] & Er). apply (stays_work_loop (R := idle)) in Er as [-> _]. done. }
  apply bind_inv in E as (c3 & c4 & [= <- <-] & E). destruct (lc_mux c2); [| change (Some (POLLING, c2) = Some (POLLING, c')) in E; by simplify_eq].
  apply bind_inv in E as ([[r' ?] ?] & c5 & Ef & E). apply (stays_tunnel_flush (R := idle)) in Ef as [Ep _].
  destruct (r' <? 0); [by apply bind_inv in E as (? & ? & _ & ?) |]. change (Some (POLLING, c5) = Some (POLLING, c')) in E.
  simplify_eq. congruence.
Qed.

(** ** Theorems *)

(** C11: Every run of the I/O thread's loop, with whatever the application does
    while the mutex is free, is defined and leads to a system that operations of
    PeerSys reach, so that all that is proved of those runs holds of the loop.  The
    thread goes on only while the client is not being stopped; then it ends, the
    drain taking at most 100 rounds whatever the socket does, and leaves no session
    and no descriptor, every stream still allocated over, and the acceptors
    signalled. *)
Theorem io_main_contract cfg ts ds :
  ∃ b y ops, io_main ts ds (start cfg) = Some (b, y) ∧ run ops (start cfg) = Some y ∧
    (if b : bool then ended y else lc_stopping (y_client y) = false).
Proof.
  destruct (io_main_steps ts ds (start cfg) (start_ok cfg)) as (b & y & E & _ & [ops R] & H). by exists b, y, ops.
Qed.

(** C12: The thread does not sleep on work.  Whenever it is in [poll], on a
    system [y0] when it unlocked and whatever the application has done since, either
    nothing is queued for it or the application has written to the wake pipe, so
    that [poll] returns. *)
Theorem wait_is_woken t y want y' :
  io_first t y = Some (Some want, y') →
  ∃ y0, lc_pending (y_client y0) = [] ∧ run (apps (it_poll t)) y0 = Some y' ∧
    (lc_pending (y_client y') = [] ∨ lc_wake (y_client y0) < lc_wake (y_client y')).
Proof.
  unfold io_first. intros E.
  destruct (if lc_fd (y_client y) <? 0 then _ else _) as [y1|]; [| done]. cbn [mbind option_bind] in E.
  destruct (thread (io_head _ _ _ _ _) y1) as [[r y2]|] eqn:Eh; [| done]. cbn [mbind option_bind] in E.
  destruct r; [by destruct (run (apps (it_backoff t)) y2) | done |].
  destruct (run (apps (it_poll t)) y2) as [y3|] eqn:Er; [| done]. cbn in E. simplify_eq. exists y2.
  assert (lc_pending (y_client y2) = []) as Ep.
  { unfold thread in Eh. destruct (io_head _ _ _ _ _ (y_client y1)) as [[r c]|] eqn:Ec; [| done]. cbn in Eh. simplify_eq.
    by eapply head_empty. }
  split_and!; [done | done |]. destruct (apps_worked _ _ _ Er) as [_ [E|?]]; [left; congruence | by right].
Qed.

(** ** Witnesses *)

Definition turn_of (rs : list read_res) (ops : list lp_op) : io_turn :=
  mk_io_turn k0 [] 5 [] [] [] [] ops POLL_OK 0 (match rs with [] => 0 | _ => POLLIN end) rs [] 0 [].

(** A stream arrives and is accepted; while the thread polls again, the
    application reads from it, closes it and stops the client. *)
Definition life : list io_turn :=
  [turn_of [READ (greet ++ three)] []; turn_of [] [APP_ACCEPT; APP_READ 1 10; APP_CLOSE 1; APP_STOP]].

Definition asleep_turn : io_turn := turn_of [] [APP_ACCEPT; APP_READ 1 10].
Definition before : sys := (default (false, start listen_cfg) (io_main (take 1 life) (fun _ => ([], [])) (start listen_cfg))).2.
Definition asleep : sys := (default (None, before) (io_first asleep_turn before)).2.

Lemma asleep_eq : io_first asleep_turn before = Some (Some (Z.lor POLLIN POLLOUT), asleep).
Proof.
  assert (match io_first asleep_turn before with Some (Some w, _) => w =? Z.lor POLLIN POLLOUT | _ => false end = true) as E
    by (vm_compute; reflexivity).
  unfold asleep. destruct (io_first asleep_turn before) as [[[w|] y]|]; [| done ..]. apply Z.eqb_eq in E. by subst.
Qed.

Lemma wait_is_woken_witness :
  lc_pending (y_client asleep) = [1] ∧
  ∃ y0, lc_pending (y_client y0) = [] ∧
    (lc_pending (y_client asleep) = [] ∨ lc_wake (y_client y0) < lc_wake (y_client asleep)).
Proof.
  split; [vm_compute; reflexivity |].
  destruct (wait_is_woken asleep_turn before _ asleep asleep_eq) as (y0 & E0 & _ & H). by exists y0.
Defined.

(** The thread of [life] ends. *)
Example life_ends : (fst <$> io_main life (fun _ => ([WROTE 1000], [])) (start listen_cfg)) = Some true.
Proof. vm_compute. reflexivity. Qed.
