(* ===== verification/PeerQuiet.v ===== *)
(** libpeer: what leaves the streams' input alone.

    The input buffer of a stream is a FIFO of bytes ([buf_sound]).  [evolves E N]
    relates two clients: what lives in the second comes from the first by [E], or
    has a new address and satisfies [N].  All functions but the handling of a DATA
    event, and the reads, respect it whenever [E] allows changes of the other
    fields ([Quiet]). *)

From stdpp Require Import base list numbers gmap.
From Stdlib Require Import ZArith Lia.
From S2P Require Import Prelude Frame OutBuf EventQueue Probe StreamTable Session SessionIO Handshake Recv SessionOpens Auth Host Fifo Umap Peer PeerInv PeerFrame PeerSteps PeerIO PeerSys.

Implicit Types (c : lp_client) (s : lp_stream).

(** ** The input buffer *)

(** What reading and appending rely on. *)
Record buf_sound (b : buf_t) : Prop := {
  bs_head : 0 ≤ bf_head b ≤ bf_len b;
  bs_len : bf_len b ≤ zlen (bf_data b);
}.

Lemma sound_len b : buf_sound b → zlen (queued b) = buf_avail b.
Proof.
  intros [Hh Hl]. unfold queued, buf_ptr, buf_avail. rewrite zlen_ztake; [done |]. rewrite zlen_zdrop; lia.
Qed.

Lemma sound_zero : buf_sound buf_zero.
Proof. by split. Qed.

Lemma sound_rewind b : buf_sound b → buf_sound (lp_rewind b) ∧ queued (lp_rewind b) = queued b.
Proof.
  intros Hb. pose proof (sound_len b Hb) as Hq. destruct Hb as [Hh Hl]. unfold lp_rewind.
  destruct (Z.eqb_spec (bf_head b) (bf_len b)) as [E|]; [| by rewrite andb_false_r]. rewrite andb_true_r.
  destruct (_ >? 0); [| done]. split; [split; cbn; pose proof (zlen_nonneg (bf_data b)); lia |].
  unfold buf_avail in Hq. rewrite E, Z.sub_diag in Hq. symmetry. unfold queued at 2, buf_ptr, buf_avail. cbn.
  rewrite ztake_0. destruct (queued b) as [|x l]; [done |]. rewrite zlen_cons in Hq. pose proof (zlen_nonneg l). lia.
Qed.

Lemma sound_shift b : buf_sound b → buf_sound (buf_shift b) ∧ queued (buf_shift b) = queued b.
Proof.
  intros Hb. pose proof (sound_len b Hb) as Hq. destruct Hb as [Hh Hl]. unfold buf_shift.
  fold (buf_avail b). fold (buf_ptr b). fold (queued b). unfold buf_avail in *. split.
  - split; cbn; [lia |]. rewrite mem_write_len; lia.
  - unfold queued at 1, buf_ptr, buf_avail. cbn. rewrite Z.sub_0_r, zdrop_0, mem_write_0. by apply ztake_app.
Qed.

Lemma sound_grow h b n ok h' b' :
  buf_sound b → buf_grow h b n = (ok, h', b') →
  buf_sound b' ∧ queued b' = queued b ∧ (h = [] → ok = true).
Proof.
  intros [Hh Hl]. unfold buf_grow. set (nc := dbl_until _ _ _).
  destruct h as [|[] h]; cbn [alloc negb]; intros [= <- <- <-]; [| | by split_and!].
  all: split_and!; try done; [split; cbn; rewrite ?zlen_app; pose proof (zlen_nonneg (replicate (Z.to_nat (nc - bf_cap b)) 0)); lia |].
  all: unfold queued, buf_ptr, buf_avail; cbn; rewrite zdrop_app_le, ztake_app_le by (rewrite ?zlen_zdrop; lia); done.
Qed.

Lemma sound_store b p :
  buf_sound b → let b' := mk_buf (mem_write (bf_data b) (bf_len b) p) (bf_cap b) (bf_head b) (bf_len b + zlen p) in
  buf_sound b' ∧ queued b' = queued b ++ p.
Proof.
  intros Hb. pose proof (sound_len b Hb) as Hq. pose proof (zlen_nonneg p). destruct Hb as [Hh Hl]. split.
  - split; cbn; [lia |]. unfold mem_write. rewrite !zlen_app, zlen_ztake by lia.
    pose proof (zlen_nonneg (zdrop (bf_len b + zlen p) (bf_data b))). lia.
  - unfold queued, buf_ptr, buf_avail in *. cbn. unfold mem_write. rewrite zdrop_app_le by (rewrite zlen_ztake; lia).
    rewrite (assoc_L (++)), ztake_app.
    + by rewrite (ztake_zdrop_comm (bf_len b - bf_head b)), Zplus_minus by lia.
    + rewrite zlen_app, zlen_zdrop, zlen_ztake by (rewrite ?zlen_ztake; lia). lia.
Qed.

(** Appending: the bytes join the queue unless the allocator refuses. *)
Lemma sound_append h b p :
  buf_sound b → ∃ r h' b', lp_buf_append h b p (zlen p) = (r, h', b') ∧ buf_sound b' ∧
    ∃ new, queued b' = queued b ++ new ∧ (h = [] → r = 0 ∧ new = p).
Proof.
  intros Hb. unfold lp_buf_append. destruct (Z.eqb_spec (zlen p) 0) as [E|_].
  { destruct p; [| rewrite zlen_cons in E; pose proof (zlen_nonneg p); lia].
    exists 0, h, b. split_and!; [done | done |]. exists []. by rewrite app_nil_r. }
  cbv zeta. destruct (sound_rewind b Hb) as [Hb1 Hq1]. set (b1 := lp_rewind b) in *.
  set (b2 := if _ && _ then buf_shift b1 else b1). assert (buf_sound b2 ∧ queued b2 = queued b) as [Hb2 Hq2].
  { subst b2. destruct (_ && _); [| done]. rewrite <- Hq1. by apply sound_shift. }
  clearbody b2. destruct (if _ >? _ then buf_grow h b2 (zlen p) else (true, h, b2)) as [[ok h3] b3] eqn:E.
  assert (buf_sound b3 ∧ queued b3 = queued b ∧ (h = [] → ok = true)) as (Hb3 & Hq3 & Hok).
  { destruct (bf_len b2 + zlen p >? bf_cap b2); [| injection E as <- <- <-; by split_and!]. rewrite <- Hq2. by eapply sound_grow. }
  rewrite ztake_all by lia. destruct ok; cbn [negb].
  - destruct (sound_store b3 p Hb3) as [Hb4 Hq4]. eexists 0, h3, _. split_and!; [done | exact Hb4 |].
    exists p. rewrite Hq4, Hq3. by split.
  - exists (-1), h3, b3. split_and!; [done | done |]. exists []. rewrite app_nil_r. split; [done |]. by intros ?%Hok.
Qed.

Lemma sound_drop b w :
  buf_sound b → 0 ≤ w ≤ buf_avail b → buf_sound (buf_drop b w) ∧ queued b = ztake w (queued b) ++ queued (buf_drop b w).
Proof.
  intros Hb Hw. pose proof (sound_len b Hb) as Hq. destruct Hb as [Hh Hl]. unfold buf_drop, buf_rewind. cbn.
  unfold buf_avail in *. destruct (Z.eqb_spec (bf_head b + w) (bf_len b)) as [E|].
  - split; [split; cbn; pose proof (zlen_nonneg (bf_data b)); lia |]. unfold queued at 3, buf_ptr, buf_avail. cbn.
    by rewrite ztake_0, app_nil_r, ztake_all by lia.
  - split; [split; cbn; lia |]. rewrite <- (ztake_zdrop w (queued b)) at 1. f_equal.
    unfold queued, buf_ptr, buf_avail. cbn. rewrite <- (zdrop_zdrop w (bf_head b)), (ztake_zdrop_comm _ w) by lia.
    do 2 f_equal. lia.
Qed.

(** ** How streams change *)

(** What holds of a stream between two moments, [E], and of a new one, [Nw]. *)
Record evolves (E : relation lp_stream) (Nw : lp_stream → Prop) c c' : Prop := {
  ev_brk : lc_brk c ≤ lc_brk c';
  ev_from p s' : lc_streams c' !! p = Some s' →
    (lc_brk c ≤ p ∧ Nw s') ∨ ∃ s, lc_streams c !! p = Some s ∧ E s s';
}.

(** The input buffer, the id and the registration stay; what is closed stays so. *)
Record steady s s' : Prop := {
  sd_sid : ls_sid s' = ls_sid s;
  sd_rbuf : ls_rbuf s' = ls_rbuf s;
  sd_closed : ls_app_closed s = true → ls_app_closed s' = true;
  sd_reg : ls_in_reg s = true → ls_in_reg s' = true;
}.

(** The pairs [E], [Nw] that a function may be quiet for. *)
Class Quiet (E : relation lp_stream) (Nw : lp_stream → Prop) : Prop := {
  qu_pre :: PreOrder E;
  qu_new s s' : Nw s → E s s' → Nw s';
  qu_steady s s' : steady s s' → E s s';
  qu_born sid m l : Nw (newborn sid m l);
}.

Definition quiet (E : relation lp_stream) (Nw : lp_stream → Prop) {A} (m : P A) : Prop :=
  ∀ c a c', m c = Some (a, c') → evolves E Nw c c'.

(** The same where [*p] is [s]. *)
Definition quiet_at (E : relation lp_stream) (Nw : lp_stream → Prop) (p : Z) (s : lp_stream) {A} (m : P A) : Prop :=
  ∀ c a c', lc_streams c !! p = Some s → m c = Some (a, c') → evolves E Nw c c'.

(** No stream is written. *)
Definition passive {A} (m : P A) : Prop :=
  ∀ c a c', m c = Some (a, c') → lc_streams c' = lc_streams c ∧ lc_brk c' = lc_brk c.

#[export] Instance steady_preorder : PreOrder steady.
Proof. split; [by split |]. intros s1 s2 s3 [] []. split; [congruence | congruence | auto | auto]. Qed.

Section Quiet.
Context `{Quiet E Nw}.

#[export] Instance evolves_preorder : PreOrder (evolves E Nw).
Proof.
  split.
  - intros c. split; [done |]. intros p s Hs. right. by exists s.
  - intros c1 c2 c3 [B1 F1] [B2 F2]. split; [lia |]. intros p s3 [[? ?]|(s2 & H2 & E2)]%F2; [left; split; [lia | done] |].
    destruct (F1 p s2 H2) as [[? ?]|(s1 & H1 & E1)].
    + left. split; [done |]. by eapply qu_new.
    + right. exists s1. split; [done |]. by etrans.
Qed.

Lemma evolves_same c c' : lc_streams c' = lc_streams c → lc_brk c' = lc_brk c → evolves E Nw c c'.
Proof. intros Es Eb. split; [lia |]. intros p s. rewrite Es. intros Hs. right. by exists s. Qed.

Lemma evolves_put c p s s' : lc_streams c !! p = Some s → E s s' → evolves E Nw c (put_stream p s' c).
Proof.
  intros Hp He. split; [done |]. cbn. intros q x [[<- <-]|[_ Hx]]%lookup_insert_Some; right; [by exists s | by exists x].
Qed.

Lemma evolves_sub c c' : lc_streams c' ⊆ lc_streams c → lc_brk c' = lc_brk c → evolves E Nw c c'.
Proof. intros Hs Eb. split; [lia |]. intros p s Hp. right. exists s. split; [by eapply lookup_weaken | done]. Qed.

Lemma quiet_passive {A} (m : P A) : passive m → quiet E Nw m.
Proof. intros Hm c a c' [? ?]%Hm. by apply evolves_same. Qed.

Lemma quiet_bind {A B} (m : P A) (f : A → P B) : quiet E Nw m → (∀ a, quiet E Nw (f a)) → quiet E Nw (m ≫= f).
Proof. intros Hm Hf c b c' (a & c1 & E1 & E2)%bind_inv. etrans; [by eapply Hm | by eapply Hf]. Qed.

Lemma quiet_when b (m : P unit) : quiet E Nw m → quiet E Nw (when_ b m).
Proof. intros Hm. destruct b; [done |]. apply quiet_passive. by intros c a c' [= _ <-]. Qed.

Lemma quiet_deref {B} p (f : lp_stream → P B) : (∀ s, quiet_at E Nw p s (f s)) → quiet E Nw (deref p ≫= f).
Proof.
  intros Hf c b c' (s & c1 & E1 & E2)%bind_inv. unfold deref in E1.
  destruct (lc_streams c !! p) as [s0|] eqn:Hp; [| done]. injection E1 as <- <-. by eapply Hf.
Qed.

Lemma at_quiet {A} p s (m : P A) : quiet E Nw m → quiet_at E Nw p s m.
Proof. intros Hm c a c' _. apply Hm. Qed.

Lemma at_pass {A B} p s (m : P A) (f : A → P B) :
  passive m → (∀ a, quiet_at E Nw p s (f a)) → quiet_at E Nw p s (m ≫= f).
Proof.
  intros Hm Hf c b c' Hp (a & c1 & E1 & E2)%bind_inv. destruct (Hm _ _ _ E1) as [Es Eb].
  etrans; [by apply evolves_same |]. eapply Hf; [| exact E2]. by rewrite Es.
Qed.

Lemma at_quiet_bind {A B} p s (m : P A) (f : A → P B) :
  quiet_at E Nw p s m → (∀ a, quiet E Nw (f a)) → quiet_at E Nw p s (m ≫= f).
Proof. intros Hm Hf c b c' Hp (a & c1 & E1 & E2)%bind_inv. etrans; [by eapply Hm | by eapply Hf]. Qed.

Lemma at_store p s s' : E s s' → quiet_at E Nw p s (store p s').
Proof. intros He c [] c' Hp [= <-]. by eapply evolves_put. Qed.

Lemma at_store_bind {B} p s s' (f : unit → P B) :
  E s s' → (∀ a, quiet_at E Nw p s' (f a)) → quiet_at E Nw p s (store p s' ≫= f).
Proof.
  intros He Hf c b c' Hp (a & c1 & E1 & E2)%bind_inv. injection E1 as <- <-.
  etrans; [by apply (evolves_put c p s s') |]. eapply Hf; [apply put_lookup | exact E2].
Qed.

Lemma at_when b p s (m : P unit) : quiet_at E Nw p s m → quiet_at E Nw p s (when_ b m).
Proof. intros Hm. destruct b; [done |]. intros c a c' _ [= _ <-]. reflexivity. Qed.

Lemma quiet_update p f : (∀ s, E s (f s)) → quiet E Nw (update p f).
Proof. intros Hf. apply quiet_deref. intros s. by apply at_store. Qed.

Lemma quiet_modify f : (∀ c, lc_streams (f c) ⊆ lc_streams c ∧ lc_brk (f c) = lc_brk c) → quiet E Nw (modify f).
Proof. intros Hf c a c' [= _ <-]. apply evolves_sub; apply Hf. Qed.

Lemma quiet_undef {A} : quiet E Nw (@undef lp_client A).
Proof. done. Qed.
End Quiet.

(** ** What writes no stream *)

Lemma pass_ret {A} (a : A) : passive (mret a).
Proof. by intros c a' c' [= _ <-]. Qed.

Lemma pass_gets {A} (f : lp_client → A) : passive (gets f).
Proof. by intros c a' c' [= _ <-]. Qed.

Lemma pass_modify f : (∀ c, lc_streams (f c) = lc_streams c ∧ lc_brk (f c) = lc_brk c) → passive (modify f).
Proof. intros Hf c a' c' [= _ <-]. apply Hf. Qed.

Lemma pass_bind {A B} (m : P A) (f : A → P B) : passive m → (∀ a, passive (f a)) → passive (m ≫= f).
Proof.
  intros Hm Hf c b c' (a & c1 & E1 & E2)%bind_inv. destruct (Hm _ _ _ E1) as [-> ->] || destruct (Hm _ _ _ E1) as [<- <-].
  by eapply Hf.
Qed.

Lemma pass_when b (m : P unit) : passive m → passive (when_ b m).
Proof. intros Hm. destruct b; [done | apply pass_ret]. Qed.

Lemma pass_deref p : passive (deref p).
Proof. intros c s c'. unfold deref. destruct (_ !! _); [| done]. by intros [= _ <-]. Qed.

Lemma pass_call {A} (d : A) f : passive (call d f).
Proof.
  intros c a c'. unfold call. destruct (lc_mux c) as [x|]; [| by intros [= _ <-]].
  destruct (f x) as [b x']. by intros [= _ <-].
Qed.

Create HintDb passive.
#[export] Hint Resolve pass_ret pass_gets pass_bind pass_when pass_deref pass_call : passive.
#[export] Hint Extern 2 (passive (modify _)) => apply pass_modify; intros []; done : passive.
#[export] Hint Extern 4 (passive (match ?x with _ => _ end)) => destruct x : passive.
#[export] Hint Extern 4 (passive (if ?x then _ else _)) => destruct x : passive.

Lemma pass_signal v : passive (signal v).
Proof. unfold signal. auto with passive. Qed.

Lemma pass_touch o : passive (touch o).
Proof. destruct o; cbn; auto with passive. Qed.

Lemma pass_notify : passive notify_raise.
Proof. unfold notify_raise. auto 20 with passive. Qed.

Lemma pass_flush ws sent : passive (tunnel_flush ws sent).
Proof.
  revert sent. induction ws as [|w ws IH]; intros sent; cbn [tunnel_flush]; (apply pass_bind; [auto with passive |]);
    intros [b len]; destruct (negb _); auto with passive.
Qed.
#[export] Hint Resolve pass_signal pass_touch pass_notify pass_flush : passive.

(** ** The functions that leave the input alone *)

Create HintDb quiet.
#[export] Hint Resolve quiet_bind quiet_when quiet_deref quiet_undef at_when at_store : quiet.
#[export] Hint Extern 1 (quiet _ _ (update _ _)) => apply quiet_update; intros []; apply qu_steady; by split : quiet.
#[export] Hint Extern 2 (quiet _ _ _) => apply quiet_passive; solve [auto 20 with passive] : quiet.
#[export] Hint Extern 3 (quiet _ _ (modify _)) => apply quiet_modify; intros []; done : quiet.
#[export] Hint Extern 1 (quiet_at _ _ _ ?s (store _ _ ≫= _)) => eapply at_store_bind; [apply qu_steady; by split | intros []] : quiet.
#[export] Hint Extern 2 (quiet_at _ _ _ _ (_ ≫= _)) => apply at_pass; [solve [auto 20 with passive] | intros ?] : quiet.
#[export] Hint Extern 3 (quiet_at _ _ _ _ (_ ≫= _)) => apply at_quiet_bind; [| intros ?] : quiet.
#[export] Hint Extern 1 (steady _ _) => by split : quiet.
#[export] Hint Extern 4 (quiet _ _ (match ?x with _ => _ end)) => destruct x : quiet.
#[export] Hint Extern 4 (quiet _ _ (if ?x then _ else _)) => destruct x : quiet.
#[export] Hint Extern 4 (quiet_at _ _ _ _ (match ?x with _ => _ end)) => destruct x : quiet.
#[export] Hint Extern 4 (quiet_at _ _ _ _ (if ?x then _ else _)) => destruct x : quiet.
#[export] Hint Extern 8 (quiet_at _ _ _ _ _) => apply at_quiet : quiet.

Section Functions.
Context `{Quiet E Nw}.
#[local] Hint Extern 2 (E _ _) => apply qu_steady; by split : quiet.

Lemma quiet_pending_push p : quiet E Nw (pending_push p).
Proof. unfold pending_push. auto 20 with quiet. Qed.

Lemma quiet_ready_mark p bits : quiet E Nw (ready_mark p bits).
Proof. unfold ready_mark. auto 20 with quiet. Qed.

Lemma quiet_reg_put k p : quiet E Nw (reg_put k p).
Proof.
  unfold reg_put. apply quiet_bind; [auto with quiet | intros m]. apply quiet_bind; [auto with quiet | intros h].
  destruct (umap_put h m k p) as [h' [m'|]]; auto 20 with quiet.
Qed.

Lemma quiet_reg_reput mask j n : quiet E Nw (reg_reput mask j n).
Proof.
  revert j. induction n as [|n IH]; intros j; cbn [reg_reput]; [auto with quiet |].
  apply quiet_bind; [auto with quiet | intros m]. destruct (um_s m !! _) as [e|]; [| auto with quiet].
  destruct (negb _); [auto with quiet |]. apply quiet_bind; [auto with quiet | intros _].
  apply quiet_bind; [apply quiet_reg_put | intros _; apply IH].
Qed.

Lemma quiet_try_free p : quiet E Nw (stream_try_free p).
Proof.
  unfold stream_try_free, reg_remove. apply quiet_deref. intros s. apply at_quiet.
  destruct (negb _); [auto with quiet |]. destruct (_ || _); [auto with quiet |]. apply quiet_bind.
  - apply quiet_when, quiet_bind; [auto with quiet | intros m]. destruct (reg_find _ _ _ _ _) as [i found].
    apply quiet_bind; [auto with quiet | intros _; apply quiet_reg_reput].
  - intros _. do 3 (apply quiet_bind; [auto with quiet | intros ?]). apply quiet_modify. intros c.
    split; [apply delete_subseteq | done].
Qed.

Lemma quiet_flush_wbuf p : quiet E Nw (flush_wbuf p).
Proof.
  assert (∀ n, quiet E Nw (flush_wbuf_loop n p)) as Hl.
  { induction n as [|n IH]; cbn [flush_wbuf_loop]; [auto with quiet |]. apply quiet_deref. intros s. cbv zeta.
    destruct (_ >? 0); [| auto with quiet]. apply at_pass; [auto with passive | intros w].
    apply at_quiet_bind; [auto with quiet |]. intros _. destruct (w <=? 0); [auto with quiet | apply IH]. }
  unfold flush_wbuf. apply quiet_deref. intros s. apply at_quiet, quiet_bind; [apply Hl |]. intros _.
  apply quiet_deref. intros s1. apply at_when, at_pass; [auto with passive | intros _]. apply at_when.
  apply at_quiet_bind; [auto with quiet | intros _; apply quiet_ready_mark].
Qed.

Lemma quiet_process_pending p : quiet E Nw (process_pending p).
Proof.
  unfold process_pending. apply quiet_deref. intros s. apply at_quiet_bind; [auto 20 with quiet |]. intros _.
  apply quiet_deref. intros s1. apply at_quiet, quiet_bind; [apply quiet_when, quiet_flush_wbuf |]. intros _.
  apply quiet_deref. intros s2. apply at_quiet_bind; [auto 20 with quiet |]. intros _. apply quiet_try_free.
Qed.

Lemma quiet_work_loop ps : quiet E Nw (work_loop ps).
Proof.
  induction ps as [|p ps IH]; cbn [work_loop]; [auto with quiet |].
  apply quiet_bind; [auto with quiet | intros _]. apply quiet_bind; [apply quiet_process_pending | done].
Qed.

Lemma quiet_run_pending : quiet E Nw run_pending.
Proof.
  unfold run_pending. do 2 (apply quiet_bind; [auto with quiet | intros ?]). apply quiet_work_loop.
Qed.

(** The stream a new one is stored as, at a new address. *)
Lemma quiet_stream_new sid meta n : quiet E Nw (stream_new sid meta n).
Proof.
  intros c o c' Ec. unfold stream_new in Ec. apply bind_inv in Ec as (h & c1 & E1 & Ec). injection E1 as <- <-.
  destruct (alloc (lc_heap c)) as [ok h1]. apply bind_inv in Ec as ([] & c1 & E1 & Ec). injection E1 as <-.
  destruct (negb ok); [injection Ec as _ <-; by apply evolves_same |].
  apply bind_inv in Ec as (p & c1 & E1 & Ec). injection E1 as <- <-.
  apply bind_inv in Ec as ([] & c1 & E1 & Ec). injection E1 as <-.
  apply bind_inv in Ec as ([] & c1 & E1 & Ec). injection E1 as <-.
  set (p := lc_brk (c <| lc_heap := h1 |>)) in *.
  match type of Ec with _ ?d = _ => set (c1 := d) in *; assert (evolves E Nw c c1) as H1 end.
  { split; [cbn; lia |]. cbn. intros q s [[<- <-]|[_ Hq]]%lookup_insert_Some.
    - left. split; [done | exact (qu_born sid None 0)].
    - right. by exists s. }
  etrans; [exact H1 |]. apply bind_inv in Ec as ([] & c2 & E2 & Ec).
  assert (evolves E Nw c1 c2) as H2; [| etrans; [exact H2 |]].
  - revert E2. match goal with |- ?m c1 = _ → _ => assert (quiet E Nw m) as Hm; [| apply Hm] end.
    apply quiet_when. apply quiet_bind; [auto with quiet | intros h]. destruct (alloc h) as [ok' h'].
    auto 20 with quiet.
  - revert Ec. match goal with |- ?m c2 = _ → _ => assert (quiet E Nw m) as Hm; [| apply Hm] end. auto 20 with quiet.
Qed.

(** Every event but DATA. *)
Lemma quiet_event k ev : is_input ev = false → quiet E Nw (handle_event k ev).
Proof.
  intros Hi. destruct ev as [t|sid m n|sid d n|sid|sid code|sid|h|w|a b|code]; try done; cbn [handle_event].
  all: try (apply quiet_passive; solve [auto 20 with passive]).
  - apply quiet_bind; [apply quiet_stream_new | intros [p|]; [| auto with quiet]].
    apply quiet_bind; [apply quiet_reg_put | intros _]. auto 20 with quiet.
  - apply quiet_bind; [auto with quiet | intros c]. destruct (reg_get c sid) as [p|]; [| auto with quiet].
    apply quiet_bind; [auto with quiet | intros _]. apply quiet_deref. intros s.
    apply at_quiet_bind; [auto with quiet | intros _]. apply quiet_bind; [auto with quiet | intros _].
    apply quiet_bind; [apply quiet_ready_mark | intros _; apply quiet_try_free].
  - apply quiet_bind; [auto with quiet | intros c]. destruct (reg_get c sid) as [p|]; [| auto with quiet].
    do 3 (apply quiet_bind; [auto with quiet | intros _]).
    apply quiet_bind; [apply quiet_ready_mark | intros _; apply quiet_try_free].
  - apply quiet_bind; [auto with quiet | intros c]. destruct (reg_get c sid) as [p|]; [| auto with quiet].
    apply quiet_deref. intros s. apply at_when, at_quiet, quiet_pending_push.
Qed.

(** ** Losing and making the session *)

Section Down.
Context (Hreg : ∀ s, E s (s <| ls_in_reg := false |>)).

Lemma quiet_down_mark ps : quiet E Nw (down_mark ps).
Proof.
  induction ps as [|p ps IH]; cbn [down_mark]; [auto with quiet |].
  apply quiet_bind; [apply quiet_update; intros s; destruct (negb _); apply qu_steady; by split | intros _].
  do 2 (apply quiet_bind; [auto with quiet | intros _]). apply quiet_bind; [apply quiet_ready_mark | done].
Qed.

Lemma quiet_clear ps : quiet E Nw (clear_in_pending ps) ∧ quiet E Nw (clear_in_reg ps) ∧ quiet E Nw (free_released ps).
Proof.
  induction ps as [|p ps (IH1 & IH2 & IH3)]; cbn; split_and!; try (by auto with quiet);
    (apply quiet_bind; [| done]); first [by apply quiet_update | apply quiet_try_free | auto with quiet].
Qed.

Lemma quiet_session_down : quiet E Nw session_down.
Proof.
  assert (∀ ps, quiet E Nw (clear_in_pending ps)) as Q1 by apply quiet_clear.
  assert (∀ ps, quiet E Nw (clear_in_reg ps)) as Q2 by apply quiet_clear.
  assert (∀ ps, quiet E Nw (free_released ps)) as Q3 by apply quiet_clear.
  pose proof quiet_down_mark. unfold session_down, reg_clear. auto 20 with quiet.
Qed.
End Down.

Lemma quiet_session_up k rnd h fd : quiet E Nw (session_up k rnd h fd).
Proof.
  apply quiet_passive. intros c r c'. unfold session_up. destruct (fd <? 0); [by intros [= _ <-] |].
  destruct (lp_build_cfg k rnd c) as [c1 mc] eqn:Eb.
  assert (lc_streams c1 = lc_streams c ∧ lc_brk c1 = lc_brk c) as [<- <-].
  { unfold lp_build_cfg in Eb. by destruct (lf_token _); injection Eb as <- _. }
  by destruct (mux_session_new h mc _); intros [= _ <-].
Qed.
End Functions.

(** ** The application's calls *)

Section Calls.
Context `{Quiet E Nw}.
#[local] Hint Extern 2 (E _ _) => apply qu_steady; by split : quiet.

Lemma quiet_accept : quiet E Nw lp_accept.
Proof. apply quiet_passive. unfold lp_accept. auto 20 with passive. Qed.

Lemma quiet_push_wake {A} p (a : A) : quiet E Nw (pending_push p;; io_wake;; mret a).
Proof. apply quiet_bind; [apply quiet_pending_push | intros _]. apply quiet_passive. unfold io_wake. auto 20 with passive. Qed.

Lemma quiet_close p : quiet E Nw (lp_close p).
Proof. unfold lp_close. apply quiet_bind; [auto with quiet | intros _; apply quiet_push_wake]. Qed.

Lemma quiet_put p buf n : quiet E Nw (lp_put p buf n).
Proof.
  unfold lp_put, buf_append_to. apply quiet_bind.
  - apply quiet_deref. intros s. apply at_pass; [auto with passive | intros h].
    destruct (lp_buf_append h (ls_wbuf s) buf n) as [[r h'] b].
    apply at_pass; [auto with passive | intros _]. apply at_quiet_bind; [| intros _; auto with quiet].
    apply at_store, qu_steady. by split.
  - intros r. destruct (negb _); [auto with quiet | apply quiet_push_wake].
Qed.

Lemma quiet_write p buf n : quiet E Nw (lp_write p buf n).
Proof.
  unfold lp_write. destruct (n =? 0); [auto with quiet |]. apply quiet_deref. intros s. apply at_quiet.
  apply quiet_bind; [auto with quiet | intros c]. destruct (_ && _); [auto with quiet |].
  destruct (_ || _); [auto with quiet |]. apply quiet_bind; [apply quiet_put | intros r; auto with quiet].
Qed.

Lemma quiet_write_nb p buf n : quiet E Nw (lp_write_nb p buf n).
Proof.
  unfold lp_write_nb. destruct (n =? 0); [auto with quiet |]. apply quiet_deref. intros s.
  apply at_pass; [auto with passive | intros c]. destruct (_ || _); [apply at_quiet; auto with quiet |].
  destruct (_ >=? _); [| apply at_quiet, quiet_put]. apply at_quiet_bind; [| intros _; auto with quiet].
  apply at_store, qu_steady. by split.
Qed.

Lemma quiet_poll max : quiet E Nw (lp_poll max).
Proof.
  assert (∀ n, passive (poll_accept n)) as Ha.
  { induction n as [|n IH]; cbn [poll_accept]; [auto with passive |].
    apply pass_bind; [auto with passive | intros [|p l]]; auto 20 with passive. }
  assert (∀ f n, quiet E Nw (poll_ready f n)) as Hr.
  { induction f as [|f IH]; intros n; cbn [poll_ready]; (apply quiet_bind; [auto with quiet |]);
      intros l; destruct n, l; try auto with quiet.
    apply quiet_deref. intros s. apply at_pass; [auto with passive | intros _].
    apply at_quiet_bind; [apply at_store, qu_steady; by split | intros _].
    destruct (ls_app_closed s); (apply quiet_bind; [first [apply quiet_try_free | apply IH] |]); auto with quiet. }
  unfold lp_poll. destruct (max <=? 0); [auto with quiet |]. apply quiet_bind; [auto with quiet | intros _].
  apply quiet_bind; [by apply quiet_passive | intros acc]. apply quiet_bind; [auto with quiet | intros c].
  apply quiet_bind; [apply Hr | intros rdy]. auto 20 with quiet.
Qed.
End Calls.
