(* ===== verification/PeerInput.v ===== *)
(** libpeer's receive path: what the peer sent on a stream is what the
    application reads from it, in order.

    A DATA event appends its payload to the input of its stream ([grown] when
    only such growth happens), a read removes what it returns; everything else
    leaves it alone (PeerQuiet).  So [input_in_order] for runs, and
    [write_reaches_reader] from the peer's write to the read. *)

From stdpp Require Import base list numbers gmap.
From Stdlib Require Import ZArith Lia.
From S2P Require Import Prelude Frame OutBuf EventQueue Probe StreamTable Session SessionIO Handshake Recv SessionInv SessionOps SessionApi SessionSys SessionFlow SessionOpens Auth Host Fifo Umap Peer PeerInv PeerFrame PeerSteps PeerIO PeerSys PeerQuiet.

Implicit Types (c : lp_client) (s : lp_stream).

(** ** Growth *)

(** The input of a stream has grown at its end. *)
Record grows s s' : Prop := {
  gw_sid : ls_sid s' = ls_sid s;
  gw_closed : ls_app_closed s = true → ls_app_closed s' = true;
  gw_rbuf : buf_sound (ls_rbuf s) →
    buf_sound (ls_rbuf s') ∧ ∃ new, queued (ls_rbuf s') = queued (ls_rbuf s) ++ new;
}.

Definition sound s : Prop := buf_sound (ls_rbuf s).
Definition unread s : Prop := ls_rbuf s = buf_zero.

#[export] Instance grows_preorder : PreOrder grows.
Proof.
  split.
  - intros s. split; [done | done |]. intros Hb. split; [done |]. exists []. by rewrite app_nil_r.
  - intros s1 s2 s3 [S1 C1 B1] [S2 C2 B2]. split; [congruence | auto |]. intros Hb.
    destruct (B1 Hb) as (Hb2 & n1 & E1). destruct (B2 Hb2) as (Hb3 & n2 & E2). split; [done |].
    exists (n1 ++ n2). by rewrite E2, E1, (assoc_L (++)).
Qed.

Lemma same_rbuf_grows s s' :
  ls_sid s' = ls_sid s → ls_rbuf s' = ls_rbuf s → (ls_app_closed s = true → ls_app_closed s' = true) → grows s s'.
Proof. intros Es Er Ec. split; [done | done |]. rewrite Er. intros Hb. split; [done |]. exists []. by rewrite app_nil_r. Qed.

#[export] Instance quiet_grows : Quiet grows sound.
Proof.
  split; [apply _ | | |].
  - intros s s' Hn [_ _ Hb]. by apply Hb.
  - intros s s' []. by apply same_rbuf_grows.
  - intros sid m l. apply sound_zero.
Qed.

#[export] Instance quiet_steady : Quiet steady unread.
Proof. split; [apply _ | | done | done]. unfold unread. intros s s' Hn []. congruence. Qed.

Abbreviation grown := (evolves grows sound).
Abbreviation still := (evolves steady unread).

Lemma unreg_grows s : grows s (s <| ls_in_reg := false |>).
Proof. by apply same_rbuf_grows. Qed.

(** A DATA event: the payload joins the input of the stream registered under the
    id, and nothing else changes. *)
Lemma data_event_spec k sid d n c c' p s :
  n = zlen (vbytes d) → reg_get c sid = Some p → lc_streams c !! p = Some s → sound s →
  handle_event k (EV_STREAM_DATA sid d n) c = Some (tt, c') →
  ∃ b new, buf_sound b ∧ queued b = queued (ls_rbuf s) ++ new ∧ (lc_heap c = [] → new = vbytes d) ∧
    still (put_stream p (s <| ls_rbuf := b |>) c) c'.
Proof.
  intros -> Hk Hp Hs E. cbn [handle_event] in E. rewrite (bind_some _ _ _ c c), Hk in E by done.
  apply bind_inv in E as (r & c1 & E1 & E). unfold buf_append_to in E1.
  rewrite (bind_some _ _ _ s c) in E1 by (unfold deref; by rewrite Hp). rewrite (bind_some _ _ _ (lc_heap c) c) in E1 by done.
  destruct (sound_append (lc_heap c) (ls_rbuf s) (vbytes d) Hs) as (r1 & h1 & b & Ea & Hb & new & En & Hok).
  rewrite Ea in E1. injection E1 as _ <-. exists b, new. split_and!; [done | done | by intros [_ ?]%Hok |].
  apply bind_inv in E as (? & c2 & E2 & E). injection E2 as _ <-.
  etrans; [| exact (quiet_ready_mark _ _ _ _ _ E)]. by apply evolves_same.
Qed.

Lemma grown_event loc own arm k ev c c' :
  inv calm loc own arm c → ev_sized ev → (∀ p s, lc_streams c !! p = Some s → sound s) →
  handle_event k ev c = Some (tt, c') → grown c c'.
Proof.
  intros H Hz Hs E. destruct (is_input ev) eqn:Hi; [| by eapply quiet_event].
  destruct ev as [| |sid d n| | | | | | |]; try done. cbn [ev_sized] in Hz.
  destruct (reg_get c sid) as [p|] eqn:Hk.
  2:{ cbn [handle_event] in E. rewrite (bind_some _ _ _ c c), Hk in E by done. injection E as <-. reflexivity. }
  destruct (reg_get_live _ _ _ _ _ _ _ H Hk) as (s & Hp & _).
  destruct (data_event_spec _ _ _ _ _ _ _ _ Hz Hk Hp (Hs p s Hp) E) as (b & new & Hb & En & _ & [B F]).
  etrans; [apply (evolves_put c p s (s <| ls_rbuf := b |>)); [done | split; [done | done | by eauto]] |].
  split; [done |]. intros q s' [[? Hn]|(s1 & H1 & [])]%F; [left | right].
  - split; [done |]. unfold sound. rewrite Hn. apply sound_zero.
  - exists s1. split; [done |]. by apply same_rbuf_grows.
Qed.

(** Handling the queued events, for any account [J] of a client and of the DATA
    events still queued. *)
Section Events.
Context (k : stack) (loc own : list Z) (arm : bool) (J : lp_client → list mux_event → Prop).
Context (J_mux : ∀ c x l, J c l → J (c <| lc_mux := Some x |>) l).
Context (J_event : ∀ c c' ev l, inv calm loc own arm c → inv calm loc own arm c' → ev_sized ev →
  handle_event k ev c = Some (tt, c') → J c (if is_input ev then ev :: l else l) → J c' l).

Lemma events_loop_rule fuel c x c' :
  inv calm loc own arm c → lc_mux c = Some x → J c (inputs x) → events_loop fuel k c = Some (tt, c') → J c' [].
Proof.
  revert c x. induction fuel as [|fuel IH]; intros c x H Hx HJ E; [done |]. cbn [events_loop] in E.
  apply bind_inv in E as (o & c1 & E1 & E). pose proof E1 as E0. unfold call in E0. rewrite Hx in E0.
  destruct (mux_next_event x) as [o' x1] eqn:En. injection E0 as -> Ec1.
  pose proof (wp_next_event loc own arm c x (fun o c2 => ∃ x2, lc_mux c2 = Some x2 ∧ inv calm loc own arm c2 ∧
    o = head (events x) ∧ events x2 = tail (events x) ∧
    (∀ sid m n, head (events x) = Some (EV_STREAM_OPENED sid m n) → next_open sid c2)) H Hx) as Hn.
  unfold wp in Hn. rewrite E1 in Hn. destruct Hn as (x2 & Hx2 & H1 & -> & Et & Hop).
  { intros c2 x2 H2 Hx2 _ _ Et _ Hop. exists x2. by split_and!. }
  assert (J c1 (inputs x)) as HJ1 by (rewrite <- Ec1; by apply J_mux).
  pose proof (iv_mux _ _ _ _ _ H) as Hm. rewrite Hx in Hm. destruct Hm as (_ & Hz & _). unfold inputs in HJ1.
  destruct (events x) as [|ev evs]; cbn [head tail List.filter] in *; [by injection E as <- |].
  apply Forall_cons in Hz as [Hz _]. apply bind_inv in E as ([] & c3 & E3 & E).
  pose proof (wp_handle_event loc own arm c1 x2 k ev (fun _ c' => ∃ x', inv calm loc own arm c' ∧ lc_mux c' = Some x' ∧
    inputs x' = inputs x2) H1 Hx2) as Hh. unfold wp in Hh. rewrite E3 in Hh. destruct Hh as (x3 & H3 & Hx3 & Ei).
  { intros sid m n ->. by eapply Hop. }
  { intros c4 x4 ? ? _ ? _ _. by exists x4. }
  eapply (IH c3 x3); [exact H3 | exact Hx3 | | exact E]. rewrite Ei. unfold inputs. rewrite Et.
  by eapply (J_event c1).
Qed.

Lemma handle_events_rule c x c' :
  inv calm loc own arm c → lc_mux c = Some x → J c (inputs x) → handle_events k c = Some (tt, c') → J c' [].
Proof. intros H Hx HJ (n & c1 & [= <- <-] & E)%bind_inv. by eapply events_loop_rule. Qed.
End Events.

(** ** Delivery to the input buffers *)

Definition bufs (c : lp_client) : Prop := ∀ p s, lc_streams c !! p = Some s → sound s.

Lemma grown_bufs c c' : grown c c' → bufs c → bufs c'.
Proof. intros [_ F] Hb p s' [[_ ?]|(s & Hs & [_ _ G])]%F; [done |]. by apply G, (Hb p). Qed.

(** A stream that lived before comes from one that lived before. *)
Lemma evolves_old `{Quiet E Nw} X loc own arm c c' p s s' :
  inv X loc own arm c → evolves E Nw c c' → lc_streams c !! p = Some s → lc_streams c' !! p = Some s' → E s s'.
Proof.
  intros Hi [_ F] Hs [[? _]|(s0 & H0 & ?)]%F; [| congruence].
  assert (p < lc_brk c) by (apply (iv_brk _ _ _ _ _ Hi); by exists s). lia.
Qed.

Lemma reg_get_registered X loc own arm c p s :
  inv X loc own arm c → lc_streams c !! p = Some s → ls_in_reg s = true → reg_get c (ls_sid s) = Some p.
Proof.
  intros H Hp Hr. destruct (iv_reg _ _ _ _ _ H) as (g & [Hw Hrep] & Hg). apply umap_get_spec; [done |].
  apply Hrep, Hg. by exists s.
Qed.

(** What the DATA events [l] carry for the stream [sid]. *)
Definition payloads (sid : Z) (l : list mux_event) : bytes :=
  concat ((fun ev => match ev with EV_STREAM_DATA k d _ => if k =? sid then vbytes d else [] | _ => [] end) <$> l).

Lemma payloads_cons sid k d n l :
  payloads sid (EV_STREAM_DATA k d n :: l) = (if k =? sid then vbytes d else []) ++ payloads sid l.
Proof. done. Qed.

(** [p] is a registered stream, and its input with what [l] carries for it is [t]. *)
Definition due (p sid : Z) (t : bytes) c (l : list mux_event) : Prop :=
  bufs c ∧ ∃ s, lc_streams c !! p = Some s ∧ ls_in_reg s = true ∧ ls_sid s = sid ∧
    queued (ls_rbuf s) ++ payloads sid l = t.

Lemma due_event p sid t k loc own arm c c' ev l :
  p ∈ own → inv calm loc own arm c → inv calm loc own arm c' → ev_sized ev → handle_event k ev c = Some (tt, c') →
  due p sid t c (if is_input ev then ev :: l else l) → due p sid t c' l.
Proof.
  intros Ho H H' Hz E (Hb & s & Hs & Hr & Hsid & Ht).
  split; [exact (grown_bufs _ _ (grown_event _ _ _ _ _ _ _ H Hz Hb E) Hb) |].
  destruct (own_live _ _ _ _ _ p H' Ho) as (s' & Hs' & _). exists s'. split; [done |].
  destruct (is_input ev) eqn:Hi.
  2:{ pose proof (quiet_event (E := steady) _ _ Hi _ _ _ E) as Hst.
      destruct (evolves_old _ _ _ _ _ _ _ _ _ H Hst Hs Hs') as [S1 S2 S3 S4].
      rewrite S2. split_and!; [by apply S4 | congruence | done]. }
  destruct ev as [| |k' d n| | | | | | |]; try done. cbn [ev_sized] in Hz.
  destruct (reg_get c k') as [q|] eqn:Hk.
  2:{ cbn [handle_event] in E. rewrite (bind_some _ _ _ c c), Hk in E by done. injection E as <-.
      assert (s' = s) as -> by congruence. split_and!; [done | done |]. rewrite <- Ht. f_equal.
      rewrite payloads_cons. destruct (Z.eqb_spec k' sid) as [->|]; [| done].
      rewrite <- Hsid, (reg_get_registered _ _ _ _ _ p s H Hs Hr) in Hk. done. }
  destruct (reg_get_live _ _ _ _ _ _ _ H Hk) as (sq & Hq & _ & Eq).
  destruct (data_event_spec _ _ _ _ _ _ _ _ Hz Hk Hq (Hb q sq Hq) E) as (b & new & Hb' & En & Hnew & [B F]).
  specialize (Hnew (iv_heap _ _ _ _ _ H)) as ->.
  assert (p < lc_brk c) as Hlt by (apply (iv_brk _ _ _ _ _ H); by exists s).
  destruct (F p s' Hs') as [[? _]|(s1 & H1 & [S1 S2 S3 S4])]; [cbn in *; lia |].
  cbn in H1. destruct (decide (p = q)) as [<-|Hne].
  - rewrite lookup_insert_eq in H1. injection H1 as <-. assert (sq = s) as -> by congruence. cbn in S1, S2, S4.
    split_and!; [auto | congruence |]. rewrite S2, En, <- Ht, payloads_cons.
    assert (k' = sid) as -> by congruence. rewrite Z.eqb_refl. by rewrite (assoc_L (++)).
  - rewrite lookup_insert_ne in H1 by done. assert (s1 = s) as -> by congruence.
    split_and!; [auto | congruence |]. rewrite S2, <- Ht. f_equal. rewrite payloads_cons.
    destruct (Z.eqb_spec k' sid) as [->|]; [| done]. pose proof (reg_get_registered _ _ _ _ _ p s H Hs Hr). congruence.
Qed.

(** Every byte the queued events carry for a stream the application holds joins
    the stream's input, in order. *)
Lemma handle_events_deliver k loc own arm c x p s c' :
  inv calm loc own arm c → lc_mux c = Some x → bufs c → p ∈ own → lc_streams c !! p = Some s → ls_in_reg s = true →
  handle_events k c = Some (tt, c') →
  ∃ s', lc_streams c' !! p = Some s' ∧ ls_sid s' = ls_sid s ∧
    queued (ls_rbuf s') = queued (ls_rbuf s) ++ payloads (ls_sid s) (inputs x).
Proof.
  intros H Hx Hb Ho Hs Hr E.
  destruct (handle_events_rule k loc own arm (due p (ls_sid s) (queued (ls_rbuf s) ++ payloads (ls_sid s) (inputs x))))
    with (c := c) (x := x) (c' := c') as (_ & s' & H' & _ & E' & Eq); try done.
  - intros c1 c2 ev l H1 H2 Hz E1. by eapply due_event.
  - split; [done |]. by exists s.
  - exists s'. split_and!; [done | done |]. unfold payloads in Eq at 1. cbn in Eq. by rewrite app_nil_r in Eq.
Qed.

(** Whatever the events, inputs grow at their ends. *)
Lemma handle_events_grown k loc own arm c x c' :
  inv calm loc own arm c → lc_mux c = Some x → bufs c → handle_events k c = Some (tt, c') → grown c c'.
Proof.
  intros H Hx Hb E. apply (handle_events_rule k loc own arm (fun d _ => grown c d)) with (c := c) (x := x); try done.
  - intros d y l Hd. etrans; [exact Hd |]. by apply evolves_same.
  - intros d d' ev l Hd _ Hz Ee Hg. etrans; [exact Hg |]. eapply grown_event; [exact Hd | exact Hz | | exact Ee].
    by eapply grown_bufs.
Qed.

(** ** The sections of the I/O thread *)

Section Sections.
Context (k : stack) (own : list Z) (arm : bool).
Abbreviation INV := (inv calm [] own arm).

Lemma pump_grown c x r c' :
  INV c → lc_mux c = Some x → bufs c → tunnel_pump k c = Some (r, c') → grown c c'.
Proof.
  intros H Hx Hb E. unfold tunnel_pump in E. rewrite (bind_some _ _ _ c c) in E by done.
  apply bind_inv in E as (cc & c1 & E1 & E). unfold call in E1. rewrite Hx in E1.
  pose proof (mux_recv_opens x (lc_recv c)) as Ho. destruct (mux_recv _ _ _) as [cc' x1]. injection E1 as -> <-.
  pose proof (inv_mux _ _ _ _ _ _ _ H Hx Ho) as H1. apply bind_inv in E as ([] & c2 & E2 & E).
  transitivity c2.
  { transitivity (c <| lc_mux := Some x1 |>); [by apply evolves_same |].
    exact (handle_events_grown _ _ _ _ _ x1 _ H1 eq_refl Hb E2). }
  destruct (cc <? 0); [injection E as _ <-; reflexivity |].
  apply bind_inv in E as ([] & c3 & E3 & E). injection E as _ <-.
  destruct (cc >? 0); injection E3 as <-; by apply evolves_same.
Qed.

Lemma pump_inv c x r c' :
  INV c → lc_mux c = Some x → tunnel_pump k c = Some (r, c') → INV c' ∧ is_Some (lc_mux c').
Proof.
  intros H Hx E. pose proof (wp_tunnel_pump k own arm c x (fun _ c' => INV c' ∧ is_Some (lc_mux c')) H Hx) as Hw.
  unfold wp in Hw. rewrite E in Hw. apply Hw. intros r' d y Hd Hy _. split; [done | by exists y].
Qed.

Lemma read_grown fuel rs c r c' :
  INV c → is_Some (lc_mux c) → bufs c → tunnel_read fuel k rs c = Some (r, c') → grown c c'.
Proof.
  revert rs c. induction fuel as [|fuel IH]; intros rs c H [x Hx] Hb E; [done |]. cbn [tunnel_read] in E.
  rewrite (bind_some _ _ _ c c) in E by done. cbv zeta in E.
  assert (∀ d r0 d1, tunnel_pump k d = Some (r0, d1) → INV d → lc_mux d = Some x → lc_streams d = lc_streams c →
            lc_brk d = lc_brk c → grown c d1 ∧ ∀ rs', tunnel_read fuel k rs' d1 = Some (r, c') → grown c c') as Hrec.
  { intros d r0 d1 E1 Hd Hxd Es Ebr. assert (bufs d) as Hbd by (intros q s; rewrite Es; apply Hb).
    destruct (pump_inv _ _ _ _ Hd Hxd E1) as [Hd1 Hm1]. pose proof (pump_grown _ _ _ _ Hd Hxd Hbd E1) as Hg1.
    assert (grown c d1) by (transitivity d; [by apply evolves_same | done]). split; [done |].
    intros rs' Er. transitivity d1; [done |]. eapply IH; [exact Hd1 | exact Hm1 | by eapply grown_bufs | exact Er]. }
  destruct (_ =? 0).
  - apply bind_inv in E as (r0 & d1 & E1 & E). destruct (Hrec _ _ _ E1) as [Hg Hgo]; [done.. |].
    destruct (r0 <? 0); [by injection E as _ <- |]. rewrite (bind_some _ _ _ d1 d1) in E by done.
    destruct (_ =? _); [by injection E as _ <- | by eapply Hgo].
  - destruct rs as [|[bs| | |] rs]; try (injection E as _ <-; reflexivity).
    pose proof (iv_recv _ _ _ _ _ H) as Hl. pose proof (zlen_nonneg bs). pose proof (zlen_nonneg (lc_recv c)).
    destruct (_ =? 0); [injection E as _ <-; reflexivity |].
    apply bind_inv in E as ([] & d & Ed & E). apply bind_inv in E as (r0 & d1 & E1 & E). injection Ed as Ed.
    destruct (Hrec _ _ _ E1) as [Hg Hgo]; [| by rewrite <- Ed.. |].
    { rewrite <- Ed. apply (inv_recv _ _ _ _ c (lc_recv c ++ _) H). rewrite zlen_app, zlen_ztake by lia. lia. }
    destruct (r0 <? 0); [by injection E as _ <- |].
    destruct (_ <? _); [by injection E as _ <- | by eapply Hgo].
Qed.

Lemma down_grown : quiet grows sound session_down.
Proof. apply quiet_session_down, unreg_grows. Qed.

Lemma before_grown rnd h fd ws : quiet grows sound (io_before k rnd h fd ws).
Proof.
  unfold io_before. apply quiet_bind; [auto with quiet | intros c].
  apply quiet_bind; [destruct (_ <? 0); [apply quiet_session_up | auto with quiet] | intros r].
  destruct (negb _); [auto with quiet |]. apply quiet_bind; [apply quiet_run_pending | intros _].
  apply quiet_bind; [auto with quiet | intros d]. destruct (lc_mux d); [| auto with quiet].
  apply quiet_bind; [auto with quiet | intros [[r1 x] y]]. apply quiet_when, down_grown.
Qed.

Lemma timer_grown now ws c c' : INV c → bufs c → io_timer k now ws c = Some (tt, c') → grown c c'.
Proof.
  intros H Hb E. unfold io_timer in E. rewrite (bind_some _ _ _ c c) in E by done.
  destruct (lc_mux c) as [x|] eqn:Hx; [| injection E as <-; reflexivity].
  apply bind_inv in E as (a & c1 & E1 & E). unfold call in E1. rewrite Hx in E1.
  pose proof (mux_on_timer_hush x now) as Hh. destruct (mux_on_timer x now) as [a' x1]. injection E1 as -> <-.
  pose proof (inv_mux _ _ _ _ _ _ _ H Hx (hush_opens _ _ Hh)) as H1. cbn [snd] in H1.
  apply bind_inv in E as ([] & c2 & E2 & E).
  transitivity (c <| lc_mux := Some x1 |>); [by apply evolves_same |].
  transitivity c2; [exact (handle_events_grown _ _ _ _ _ x1 _ H1 eq_refl Hb E2) |].
  apply bind_inv in E as (r & c3 & [Es Eb]%pass_flush & E). injection E as <-. by apply evolves_same.
Qed.

Lemma read_inv fuel rs c x r :
  INV c → lc_mux c = Some x → 2 * script_bytes rs + b2z (zlen (lc_recv c) =? LP_RECV_SIZE) < Z.of_nat fuel →
  tunnel_read fuel k rs c = Some r → INV r.2.
Proof.
  intros H Hx Hf E. pose proof (wp_tunnel_read fuel k own arm rs c x (fun _ c' => INV c') H Hx Hf (fun _ _ _ H _ => H)) as Hw.
  unfold wp in Hw. rewrite E in Hw. by destruct r.
Qed.

Lemma after_grown po rs ws ws2 now c c' :
  INV c → bufs c → io_after k po rs ws ws2 now c = Some (tt, c') → grown c c'.
Proof.
  intros H Hb E. unfold io_after in E. destruct (po_err po); [by apply down_grown in E |].
  apply bind_inv in E as ([] & c1 & E1 & E).
  assert (INV c1 ∧ lc_streams c1 = lc_streams c ∧ lc_brk c1 = lc_brk c) as (H1 & Es & Eb).
  { destruct (po_wake po); injection E1 as <-; [| done]. split; [| done]. eapply inv_other; [| exact H]. same_view. }
  assert (bufs c1) as Hb1 by (intros q s; rewrite Es; apply Hb).
  transitivity c1; [by apply evolves_same |]. rewrite (bind_some _ _ _ c1 c1) in E by done.
  apply bind_inv in E as ([r1 rs'] & c2 & E2 & E).
  assert (grown c1 c2 ∧ INV c2) as [G2 H2].
  { destruct ((lc_fd c1 >=? 0) && po_in po) eqn:Hin; [| injection E2 as _ _ <-; by split]. apply andb_true_iff in Hin as [Hfd _].
    destruct (lc_mux c1) as [x|] eqn:Hx; [| apply (iv_fd _ _ _ _ _ H1) in Hx; lia]. split.
    - eapply read_grown; [exact H1 | by exists x | exact Hb1 | exact E2].
    - eapply (read_inv (read_fuel rs) rs c1 x (r1, rs', c2)); [exact H1 | exact Hx | | exact E2].
      unfold read_fuel. pose proof (script_bytes_nonneg rs). destruct (_ =? _); cbn [b2z]; lia. }
  transitivity c2; [done |]. destruct (r1 <? 0); [by apply down_grown in E |].
  rewrite (bind_some _ _ _ c2 c2) in E by done. apply bind_inv in E as ([[r3 w3] b3] & c3 & E3 & E).
  assert (grown c2 c3 ∧ INV c3) as [G3 H3].
  { destruct ((lc_fd c2 >=? 0) && po_out po) eqn:Hout; [| injection E3 as _ _ _ <-; by split]. apply andb_true_iff in Hout as [Hfd _].
    destruct (lc_mux c2) as [x|] eqn:Hx; [| apply (iv_fd _ _ _ _ _ H2) in Hx; lia].
    split; [destruct (pass_flush _ _ _ _ _ E3); by apply evolves_same |].
    pose proof (wp_tunnel_flush calm [] own arm ws [] c2 x (fun _ c' => INV c') H2 Hx) as Hw.
    unfold wp in Hw. rewrite E3 in Hw. apply Hw. intros r y d Hd. by intros. }
  transitivity c3; [done |]. destruct (r3 <? 0); [by apply down_grown in E |].
  eapply timer_grown; [exact H3 | eapply grown_bufs; [exact G3 | by eapply grown_bufs] | exact E].
Qed.
End Sections.

(** ** Reads *)

(** Reading removes from the input what it returns. *)
Lemma take_input p n c r c' s :
  lc_streams c !! p = Some s → sound s → 0 ≤ n → lp_take p n c = Some (r, c') →
  ∃ b, buf_sound b ∧ queued (ls_rbuf s) = r.2 ++ queued b ∧ still (put_stream p (s <| ls_rbuf := b |>) c) c'.
Proof.
  intros Hp Hs Hn E. unfold lp_take in E. rewrite (bind_some _ _ _ s c) in E by (unfold deref; by rewrite Hp). cbv zeta in E.
  set (take := if n <? buf_avail (ls_rbuf s) then n else buf_avail (ls_rbuf s)) in *.
  assert (0 ≤ take ≤ buf_avail (ls_rbuf s)) as Ht.
  { destruct Hs. unfold take, buf_avail in *. destruct (Z.ltb_spec n (bf_len (ls_rbuf s) - bf_head (ls_rbuf s))); lia. }
  destruct (sound_drop (ls_rbuf s) take Hs Ht) as [Hb Eq].
  apply bind_inv in E as ([] & c1 & E1 & E). injection E1 as <-.
  apply bind_inv in E as ([] & c2 & E2 & E). apply bind_inv in E as ([] & c3 & E3 & E). injection E as <- <-. injection E3 as <-.
  exists (buf_drop (ls_rbuf s) take). split_and!; [done | exact Eq |].
  set (s1 := s <| ls_rbuf := buf_drop (ls_rbuf s) take |>).
  transitivity (put_stream p (s1 <| ls_consume_pending ::= Z.add take |>) c).
  { rewrite <- (put_put c p s1 (s1 <| ls_consume_pending ::= Z.add take |>)). apply (evolves_put _ p s1); [apply put_lookup | by split]. }
  transitivity c2; [by apply (quiet_pending_push p _ tt) | by apply evolves_same].
Qed.

(** The bytes an operation hands out from the stream [p]. *)
Definition taken (p : Z) (o : lp_op) (y : sys) : bytes :=
  match o with
  | APP_READ q n =>
      if decide (q = p ∧ q ∈ y_own y) then
        match lp_read q n (y_client y) with Some (Some (_, bs), _) => bs | _ => [] end
      else []
  | APP_READ_NB q n =>
      if decide (q = p ∧ q ∈ y_own y) then
        match lp_read_nb q n (y_client y) with Some ((_, bs), _) => bs | _ => [] end
      else []
  | _ => []
  end.

(** Sizes are [size_t]. *)
Definition op_sized (o : lp_op) : Prop :=
  match o with APP_READ _ n | APP_READ_NB _ n => 0 ≤ n | _ => True end.

Lemma exec_grown o y y' :
  sys_ok y → bufs (y_client y) → (∀ p n, o ≠ APP_READ p n ∧ o ≠ APP_READ_NB p n) → exec o y = Some y' →
  grown (y_client y) (y_client y').
Proof.
  destruct y as [c own arm]. intros H Hb Hno E. unfold sys_ok in H. cbn in *.
  assert (∀ A (m : P A), quiet grows sound m → plain m (mk_sys c own arm) = Some y' → grown c (y_client y')) as Hpl.
  { intros A m Hm. unfold plain. cbn. destruct (m c) as [[a c']|] eqn:Em; [| done]. intros [= <-]. by eapply Hm. }
  assert (∀ A p (m : P A), quiet grows sound m → held p m (mk_sys c own arm) = Some y' → grown c (y_client y')) as Hhe.
  { intros A p m Hm. unfold held. destruct (decide _); [by apply Hpl | intros [= <-]; reflexivity]. }
  destruct o as [k rnd h fd ws|k po rs ws ws2 now| |ws| | |p n|p n|p buf n|p buf n|p|p| |max|]; cbn [exec] in E.
  - eapply Hpl; [apply before_grown | exact E].
  - unfold plain in E. cbn in E. destruct (io_after k po rs ws ws2 now c) as [[[] c']|] eqn:Ea; [| done].
    injection E as <-. by eapply after_grown.
  - eapply Hpl; [| exact E]. unfold io_drain. apply quiet_bind; [auto with quiet | intros d].
    apply quiet_when, quiet_run_pending.
  - eapply Hpl; [| exact E]. unfold io_drain_flush. apply quiet_passive, pass_bind; [auto with passive | intros d].
    destruct (lc_mux d); auto 20 with passive.
  - eapply Hpl; [| exact E]. unfold io_exit. apply quiet_bind; [apply down_grown | intros _; auto with quiet].
  - destruct (lp_accept c) as [[[[p|]|] c']|] eqn:Ea; try done; injection E as <-; exact (quiet_accept _ _ _ Ea).
  - by destruct (Hno p n).
  - by destruct (Hno p n).
  - eapply Hhe; [apply quiet_write | exact E].
  - eapply Hhe; [apply quiet_write_nb | exact E].
  - eapply Hhe; [| exact E]. apply quiet_passive. unfold lp_stream_meta. auto with passive.
  - destruct (decide _); [| injection E as <-; reflexivity].
    destruct (lp_close p c) as [[r c']|] eqn:Ec; [| done]. injection E as <-. exact (quiet_close _ _ _ _ Ec).
  - destruct (lp_fileno c) as [[r c']|] eqn:Ef; [| done]. injection E as <-. injection Ef as _ <-. by apply evolves_same.
  - destruct (lp_poll max c) as [[out c']|] eqn:Ep; [| done]. injection E as <-. exact (quiet_poll _ _ _ _ Ep).
  - eapply Hpl; [| exact E]. apply quiet_passive. unfold lp_stop, io_wake. auto with passive.
Qed.

(** From [c] to [c'], [bs p] bytes of the stream [p] have gone to the application:
    they are the front of its input, which has otherwise grown at its end. *)
Record accounts (bs : Z → bytes) c c' : Prop := {
  ac_bufs : bufs c';
  ac_brk : lc_brk c ≤ lc_brk c';
  ac_live p s' : lc_streams c' !! p = Some s' → lc_brk c ≤ p ∨
    ∃ s new, lc_streams c !! p = Some s ∧ ls_sid s' = ls_sid s ∧ queued (ls_rbuf s) ++ new = bs p ++ queued (ls_rbuf s');
  ac_front p s : lc_streams c !! p = Some s → ∃ new rest, queued (ls_rbuf s) ++ new = bs p ++ rest;
}.

Lemma accounts_none bs c c' : bufs c → grown c c' → (∀ p, bs p = []) → accounts bs c c'.
Proof.
  intros Hb Hg Hn. pose proof (grown_bufs _ _ Hg Hb) as Hb'. destruct Hg as [B F]. split; [done | done | |].
  - intros p s' [[? _]|(s & Hs & [Es _ Gr])]%F; [by left | right]. destruct (Gr (Hb p s Hs)) as (_ & new & En).
    exists s, new. by rewrite Hn.
  - intros p s Hs. exists [], (queued (ls_rbuf s)). by rewrite Hn, app_nil_r.
Qed.

(** A read of the stream [q]: nothing, or what [lp_take] does. *)
Lemma accounts_take bs q n c c' r :
  bufs c → 0 ≤ n → is_Some (lc_streams c !! q) → lp_take q n c = Some (r, c') →
  bs q = r.2 → (∀ p, p ≠ q → bs p = []) → accounts bs c c'.
Proof.
  intros Hb Hn [s Hs] E Hq Ho. destruct (take_input q n c r c' s Hs (Hb q s Hs) Hn E) as (b & Hbs & Eq & [B F]).
  assert (∀ p s', lc_streams c' !! p = Some s' → lc_brk c ≤ p ∧ unread s' ∨ ∃ s0, lc_streams c !! p = Some s0 ∧
            ls_sid s' = ls_sid s0 ∧ sound s' ∧ queued (ls_rbuf s0) = bs p ++ queued (ls_rbuf s')) as Hl.
  { intros p s' [[? ?]|(s1 & H1 & [S1 S2 _ _])]%F; [by left | right]. cbn in H1. unfold sound. rewrite S2.
    destruct (decide (p = q)) as [->|Hne].
    - rewrite lookup_insert_eq in H1. injection H1 as <-. exists s. by rewrite Hq.
    - rewrite lookup_insert_ne in H1 by done. exists s1. rewrite Ho by done. split_and!; [done | done | by eapply Hb | done]. }
  split; [| done | |].
  - intros p s' [[_ Hu]|(s0 & _ & _ & ? & _)]%Hl; [| done]. unfold sound. rewrite Hu. apply sound_zero.
  - intros p s' [[? _]|(s0 & H0 & E0 & _ & Q0)]%Hl; [by left | right]. exists s0, []. by rewrite app_nil_r.
  - intros p s0 H0. destruct (decide (p = q)) as [->|Hne].
    + exists [], (queued b). rewrite app_nil_r, Hq. congruence.
    + exists [], (queued (ls_rbuf s0)). by rewrite Ho, app_nil_r.
Qed.

Lemma read_takes p n c o c' :
  lp_read p n c = Some (o, c') →
  c' = c ∧ (o = None ∨ ∃ r, o = Some (r, [])) ∨ ∃ r, o = Some r ∧ lp_take p n c = Some (r, c').
Proof.
  unfold lp_read. destruct (n =? 0); [intros [= <- <-]; left; split; [done | right; by eexists] |].
  intros (s & Hs & E)%deref_inv. rewrite (bind_some _ _ _ c c) in E by done.
  destruct (_ && _); [injection E as <- <-; left; split; [done | by left] |].
  destruct (ls_reset s); [injection E as <- <-; left; split; [done | right; by eexists] |].
  destruct (_ =? 0); [injection E as <- <-; left; split; [done | right; by eexists] |].
  apply bind_inv in E as (r & c1 & E1 & E). injection E as <- <-. right. by exists r.
Qed.

Lemma read_nb_takes p n c o c' :
  lp_read_nb p n c = Some (o, c') → c' = c ∧ o.2 = [] ∨ lp_take p n c = Some (o, c').
Proof.
  unfold lp_read_nb. destruct (n =? 0); [intros [= <- <-]; by left |]. intros (s & Hs & E)%deref_inv.
  destruct (ls_reset s); [injection E as <- <-; by left |].
  destruct (_ =? 0); [injection E as <- <-; by left | by right].
Qed.

Lemma exec_accounts o y y' :
  sys_ok y → bufs (y_client y) → op_sized o → exec o y = Some y' →
  accounts (fun p => taken p o y) (y_client y) (y_client y').
Proof.
  intros H Hb Hz E.
  assert ((∃ p n, o = APP_READ p n ∨ o = APP_READ_NB p n) ∨ ∀ p n, o ≠ APP_READ p n ∧ o ≠ APP_READ_NB p n) as [(q & n & Ho)|Ho].
  { destruct o; eauto 6; by right. }
  2:{ apply accounts_none; [done | by eapply exec_grown |]. intros p. destruct o; try done; by destruct (Ho p0 n). }
  destruct y as [c own arm]. unfold sys_ok in H. cbn in *.
  destruct (decide (q ∈ own)) as [Hq|Hq].
  2:{ assert (y' = mk_sys c own arm ∧ ∀ p, taken p o (mk_sys c own arm) = []) as [-> Ht].
      { destruct Ho as [->| ->]; cbn [exec] in E; unfold held in E; cbn [y_own] in E; rewrite decide_False in E by done;
          injection E as <-; (split; [done |]); intros p; cbn [taken y_own]; rewrite decide_False by naive_solver; done. }
      cbn. by apply accounts_none. }
  destruct (own_live _ _ _ _ _ q H Hq) as (s & Hs & _).
  destruct Ho as [->| ->]; cbn [exec op_sized] in *; unfold held, plain in E; cbn in E; rewrite decide_True in E by done.
  - destruct (lp_read q n c) as [[o c']|] eqn:Er; [| done]. injection E as <-. cbn.
    destruct (read_takes _ _ _ _ _ Er) as [[-> Hr]|(r & -> & Et)].
    + apply accounts_none; [done | reflexivity |]. intros p. destruct (decide _) as [[<- _]|]; [| done].
      rewrite Er. by destruct Hr as [->|[r ->]].
    + eapply accounts_take; [done | exact Hz | by exists s | exact Et | |].
      * rewrite decide_True, Er by done. by destruct r.
      * intros p Hne. by rewrite decide_False by naive_solver.
  - destruct (lp_read_nb q n c) as [[o c']|] eqn:Er; [| done]. injection E as <-. cbn.
    destruct (read_nb_takes _ _ _ _ _ Er) as [[-> Hr]|Et].
    + apply accounts_none; [done | reflexivity |]. intros p. destruct (decide _) as [[<- _]|]; [| done].
      rewrite Er. by destruct o.
    + eapply accounts_take; [done | exact Hz | by exists s | exact Et | |].
      * rewrite decide_True, Er by done. by destruct o.
      * intros p Hne. by rewrite decide_False by naive_solver.
Qed.

(** ** Runs *)

(** What the operations hand out from [p]. *)
Fixpoint read_from (p : Z) (ops : list lp_op) (y : sys) : bytes :=
  match ops with
  | [] => []
  | o :: ops => taken p o y ++ match exec o y with Some y => read_from p ops y | None => [] end
  end.

Lemma exec_ok_inv o y y' : sys_ok y → exec o y = Some y' → sys_ok y'.
Proof. intros H E. destruct (exec_ok o y H) as (y1 & E1 & H1). congruence. Qed.

Lemma start_bufs cfg : bufs (y_client (start cfg)).
Proof. intros p s Hs. cbn in Hs. by rewrite lookup_empty in Hs. Qed.

Lemma run_bufs ops y y' :
  sys_ok y → bufs (y_client y) → Forall op_sized ops → run ops y = Some y' → sys_ok y' ∧ bufs (y_client y').
Proof.
  revert y. induction ops as [|o ops IH]; intros y H Hb Hz E; cbn [run] in E; [by injection E as <- |].
  apply Forall_cons in Hz as [Hz Hzs]. destruct (exec o y) as [y1|] eqn:E1; [| done].
  apply (IH y1); [by eapply exec_ok_inv | by eapply exec_accounts | done | exact E].
Qed.

(** A freed stream is not read, nor its address used again. *)
Lemma gone_unread p ops y y' :
  sys_ok y → bufs (y_client y) → Forall op_sized ops → p < lc_brk (y_client y) → lc_streams (y_client y) !! p = None →
  run ops y = Some y' → read_from p ops y = [] ∧ lc_streams (y_client y') !! p = None.
Proof.
  revert y. induction ops as [|o ops IH]; intros y H Hb Hz Hp Hn E; cbn [run read_from] in *; [by injection E as <- |].
  apply Forall_cons in Hz as [Hz Hzs]. destruct (exec o y) as [y1|] eqn:E1; [| done].
  destruct (exec_accounts o y y1 H Hb Hz E1) as [Hb1 Hbrk Hl _].
  assert (lc_streams (y_client y1) !! p = None) as Hn1.
  { apply eq_None_ne_Some. intros s [?|(s0 & new & H0 & _)]%Hl; [lia | congruence]. }
  destruct (IH y1) as [-> ?]; [by eapply exec_ok_inv | done | done | lia | done | exact E |]. split; [| done].
  rewrite app_nil_r. destruct (decide (p ∈ y_own y)) as [Ho|Ho].
  - destruct (own_live _ _ _ _ _ p H Ho) as (s & Hs & _). congruence.
  - destruct o; cbn [taken]; try done; by rewrite decide_False by naive_solver.
Qed.

Lemma run_accounts p s1 ops y1 y2 :
  sys_ok y1 → bufs (y_client y1) → Forall op_sized ops → run ops y1 = Some y2 → lc_streams (y_client y1) !! p = Some s1 →
  ∃ new rest, queued (ls_rbuf s1) ++ new = read_from p ops y1 ++ rest ∧
    ∀ s2, lc_streams (y_client y2) !! p = Some s2 → ls_sid s2 = ls_sid s1 ∧ rest = queued (ls_rbuf s2).
Proof.
  revert y1 s1. induction ops as [|o ops IH]; intros y1 s1 H Hb Hz E Hs; cbn [run read_from] in *.
  { injection E as <-. exists [], (queued (ls_rbuf s1)). rewrite app_nil_r. split; [done |]. intros s2 Hs2.
    assert (s2 = s1) as -> by congruence. done. }
  apply Forall_cons in Hz as [Hz Hzs]. destruct (exec o y1) as [y|] eqn:E1; [| done]. cbn [mbind option_bind] in E.
  destruct (exec_accounts o y1 y H Hb Hz E1) as [Hb' Hbrk Hl Hf]. pose proof (exec_ok_inv _ _ _ H E1) as H'.
  assert (p < lc_brk (y_client y1)) as Hlt by (apply (iv_brk _ _ _ _ _ H); by exists s1).
  destruct (lc_streams (y_client y) !! p) as [s|] eqn:Hs'.
  - destruct (Hl p s Hs') as [?|(s0 & n1 & H0 & Es & E0)]; [lia |]. assert (s0 = s1) as -> by congruence.
    destruct (IH y s H' Hb' Hzs E Hs') as (n2 & rest & E2 & Hr). exists (n1 ++ n2), rest. split.
    + by rewrite (assoc_L (++)), E0, <- !(assoc_L (++)), E2.
    + intros s2 [? ?]%Hr. split; [congruence | done].
  - destruct (gone_unread p ops y y2) as [-> Hn]; [done | done | done | lia | done | done |].
    destruct (Hf p s1 Hs) as (new & rest & E0). exists new, rest. rewrite app_nil_r. split; [done |]. congruence.
Qed.


(** ** From the peer's write to the application's read *)

(** A read when there is input and the stream has not been reset. *)
Lemma read_front own arm c p s n :
  inv calm [] own arm c → bufs c → p ∈ own → lc_streams c !! p = Some s → ls_reset s = false →
  0 < n → queued (ls_rbuf s) ≠ [] →
  ∃ c', lp_read p n c = Some (Some (Z.min n (zlen (queued (ls_rbuf s))), ztake n (queued (ls_rbuf s))), c').
Proof.
  intros H Hb Ho Hs Hr Hn Hq. pose proof (sound_len _ (Hb p s Hs)) as Hl.
  assert (0 < buf_avail (ls_rbuf s)) as Hav.
  { rewrite <- Hl. destruct (queued (ls_rbuf s)) as [|b l]; [done |]. rewrite zlen_cons. pose proof (zlen_nonneg l). lia. }
  pose proof (wp_lp_take own arm c p n s (fun _ _ => True) H Hs (fun _ _ _ => I)) as Hw.
  apply wp_run in Hw as (r & c' & Et & _). exists c'. unfold lp_read.
  destruct (Z.eqb_spec n 0); [lia |]. rewrite (bind_some _ _ _ s c) by (unfold deref; by rewrite Hs).
  rewrite (bind_some _ _ _ c c) by done. rewrite Hr. destruct (Z.eqb_spec (buf_avail (ls_rbuf s)) 0); [lia |].
  cbn [andb negb]. rewrite (bind_some _ _ _ _ _ Et). unfold mret, ST_ret. do 3 f_equal.
  unfold lp_take in Et. rewrite (bind_some _ _ _ s c) in Et by (unfold deref; by rewrite Hs). cbv zeta in Et.
  do 3 (apply bind_inv in Et as ([] & ? & _ & Et)). injection Et as <- _. fold (queued (ls_rbuf s)).
  destruct (Z.ltb_spec n (buf_avail (ls_rbuf s))) as [Hlt|Hge]; [by rewrite Z.min_l by lia |].
  rewrite Z.min_r by lia. rewrite <- Hl. by rewrite !ztake_all by lia.
Qed.

(** The bytes of one write, received in one piece, reach the input buffer. *)
Lemma pump_delivers k own arm c b bs b' evs sid q s :
  inv calm [] own arm c → bufs c → lc_mux c = Some b → q ∈ own → lc_streams c !! q = Some s → ls_in_reg s = true →
  ls_sid s = sid → zlen bs ≤ LP_RECV_SIZE → mux_recv b (Some bs) (zlen bs) = (zlen bs, b') →
  events b' = events b ++ evs → Forall (fun ev => ∃ d, ev = EV_STREAM_DATA sid (view_of d) (zlen d)) evs →
  ∃ c' s', tunnel_pump k (c <| lc_recv := bs |>) = Some (0, c') ∧ inv calm [] own arm c' ∧ bufs c' ∧ lc_recv c' = [] ∧
    lc_streams c' !! q = Some s' ∧
    queued (ls_rbuf s') = queued (ls_rbuf s) ++ payloads sid (inputs b) ++ concat (ev_data <$> evs).
Proof.
  intros H Hb Hx Ho Hs Hr Hsid Hl Er Ev Hd. set (c0 := c <| lc_recv := bs |>).
  assert (inv calm [] own arm c0) as H0 by (by apply inv_recv).
  pose proof (inv_mux _ _ _ _ _ b b' H0 Hx) as H1. specialize (H1 ltac:(pose proof (mux_recv_opens b bs) as Hop; by rewrite Er in Hop)).
  set (c1 := c0 <| lc_mux := Some b' |>) in *.
  pose proof (wp_handle_events k [] own arm c1 b' (fun _ c2 => inv calm [] own arm c2 ∧ lc_recv c2 = bs) H1 eq_refl) as Hw.
  destruct (proj1 (wp_run _ _ _) (Hw ltac:(intros; by split))) as ([] & c2 & E2 & H2 & Erecv). clear Hw.
  destruct (handle_events_deliver k [] own arm c1 b' q s c2 H1 eq_refl Hb Ho Hs Hr E2) as (s' & Hs' & _ & Eq).
  pose proof (handle_events_grown k [] own arm c1 b' c2 H1 eq_refl Hb E2) as Hg.
  pose proof (zlen_nonneg bs) as Hbs. exists (if zlen bs >? 0 then c2 <| lc_recv ::= zdrop (zlen bs) |> else c2), s'.
  split_and!.
  - unfold tunnel_pump. rewrite (bind_some _ _ _ c0 c0) by done.
    rewrite (bind_some _ _ _ (zlen bs) c1); [| unfold call; change (lc_mux c0) with (lc_mux c); rewrite Hx; change (lc_recv c0) with bs; by rewrite Er].
    rewrite (bind_some _ _ _ _ _ E2). destruct (Z.ltb_spec (zlen bs) 0); [lia |].
    by destruct (zlen bs >? 0).
  - destruct (_ >? 0); [| done]. apply (inv_recv _ _ _ _ c2 (zdrop (zlen bs) (lc_recv c2)) H2).
    pose proof (zlen_zdrop_le (zlen bs) (lc_recv c2)). rewrite Erecv in *. lia.
  - destruct (_ >? 0); [apply (grown_bufs c1 c2 Hg Hb) | by eapply grown_bufs].
  - destruct (Z.gtb_spec (zlen bs) 0); [cbn; by rewrite Erecv, zdrop_all by lia |]. rewrite Erecv.
    destruct bs as [|y l]; [done |]. rewrite zlen_cons in *. pose proof (zlen_nonneg l). lia.
  - by destruct (_ >? 0).
  - rewrite Eq, Hsid. f_equal. unfold inputs. rewrite Ev, List.filter_app. unfold payloads.
    rewrite fmap_app, concat_app. f_equal. clear -Hd. induction Hd as [|ev evs [d ->] _ IH]; [done |].
    cbn [List.filter is_input]. rewrite !fmap_cons. cbn [concat ev_data]. by rewrite Z.eqb_refl, IH.
Qed.

(** C9: end to end through the worker library: what one session's [mux_write]
    accepts for a stream, received by libpeer's I/O thread, is appended to the
    stream's input behind what was there, and the next [lp_read] returns the front
    of it. *)
Theorem write_reaches_reader k own arm c a b sid p e q s :
  session_wf a → s_dead a = false → s_heap a = [] →
  stab_map (s_tab a) !! sid = Some e → st_life e ≠ LIFE_HCL_LOCAL → bytes_ok p → zlen p < 2 ^ 63 →
  let want := Z.min (zlen p) (Z.min (st_send_win e) (s_send_win a)) in
  mux_out_pending a + want + MUX_HEADER_SIZE * (want / MUX_MAX_DATA_FRAME + 1) ≤ s_max_out_buffer a →
  session_wf b → s_dead b = false → s_heap b = [] → can_receive b sid want →
  zlen (events b) + want / MUX_MAX_DATA_FRAME + 1 ≤ MUX_EVENT_QUEUE_SOFT_CAP →
  inv calm [] own arm c → bufs c → lc_mux c = Some b → q ∈ own → lc_streams c !! q = Some s → ls_in_reg s = true →
  ls_sid s = sid →
  ∃ a' bs, mux_write a sid (Some p) (zlen p) = (want, a') ∧ outp a' = outp a ++ bs ∧
    (zlen bs ≤ LP_RECV_SIZE →
     ∃ c' s', tunnel_pump k (c <| lc_recv := bs |>) = Some (0, c') ∧ lc_streams c' !! q = Some s' ∧
       let input := queued (ls_rbuf s) ++ payloads sid (inputs b) ++ ztake want p in
       queued (ls_rbuf s') = input ∧
       (ls_reset s' = false → input ≠ [] → ∀ n, 0 < n →
          ∃ c'', lp_read q n c' = Some (Some (Z.min n (zlen input), ztake n input), c''))).
Proof.
  intros Hwa Hda Hha Hk Hlife Hbp Hn want Hroom Hwb Hdb Hhb Hc Hq H Hb Hx Ho Hs Hr Hsid.
  destruct (write_spec a sid p e) as (a' & ws & e' & Ew & _ & Eo & Hws & Hct & Hcat & _); try done.
  fold want in Ew, Hct, Hcat. destruct (fw_streams a (wf_flow a Hwa) sid e Hk) as [Hsd Hsw _ _].
  pose proof (fw_send a (wf_flow a Hwa)). pose proof (zlen_nonneg p).
  destruct (recv_data b sid ws want) as (b' & Er & Hd' & Ev); try done.
  { eapply concat_bytes_ok; [| exact Hcat]. by apply bytes_ok_ztake. }
  { rewrite Hcat, zlen_ztake by lia. done. }
  { lia. }
  exists a', (wire ws). split_and!; [done | done |]. intros Hl.
  destruct (pump_delivers k own arm c b (wire ws) b' (data_event sid <$> ws) sid q s) as (c' & s' & Ep & H' & Hb' & _ & Hs' & Eq); try done.
  { apply Forall_fmap, Forall_true. intros w. by exists (w_payload w). }
  assert (concat (ev_data <$> (data_event sid <$> ws)) = ztake want p) as Ecat.
  { rewrite <- Hcat, <- list_fmap_compose. f_equal. apply list_fmap_ext. intros i w _. cbn. apply vbytes_view_of. }
  rewrite Ecat in Eq. exists c', s'. split_and!; [done | done |]. cbv zeta. split; [done |].
  intros Hrs Hne n Hpos. rewrite <- Eq in *. by eapply read_front.
Qed.

(** ** Witnesses *)

Definition reading_sys : sys := sys_of reading_ops.
Definition more_ops : list lp_op := [got three; APP_READ 1 2; turn; got three; APP_READ_NB 1 10].
Definition read_sys : sys := default reading_sys (run more_ops reading_sys).
Definition accepted_stream : lp_stream := default (lp_stream_zero 0) (lc_streams (y_client reading_sys) !! 1).


(** A worker that has accepted stream 1 of the sample session. *)
Definition quiet_b : mux_session := snd (mux_next_event (snd (mux_next_event sample_b))).
Definition worker_link : lp_client := lp_client_zero listen_cfg <| lc_mux := Some quiet_b |> <| lc_fd := 5 |>.
Definition opened_client : lp_client := default worker_link (snd <$> handle_event k0 (EV_STREAM_OPENED 1 None 0) worker_link).
Definition reader : lp_client := default worker_link (snd <$> lp_accept opened_client).
Definition reader_stream : lp_stream := default (lp_stream_zero 0) (lc_streams reader !! 1).

Lemma quiet_b_wf : session_wf quiet_b.
Proof.
  pose proof (mux_next_event_wf sample_b sample_wf_b) as H1. unfold quiet_b.
  destruct (mux_next_event sample_b) as [o1 b1]. destruct H1 as [H1 _]. cbn [snd].
  pose proof (mux_next_event_wf b1 H1) as H2. by destruct (mux_next_event b1) as [o2 b2], H2.
Qed.

Lemma quiet_b_events : events quiet_b = [].
Proof. vm_compute. reflexivity. Qed.

Lemma worker_link_inv : inv calm [] [] true worker_link.
Proof.
  pose proof (start_ok listen_cfg) as []. split; try done. cbn. split_and!; [apply quiet_b_wf | |].
  - rewrite quiet_b_events. constructor.
  - exists 0. rewrite quiet_b_events. split; [vm_compute; discriminate |]. intros p s Hp. by rewrite lookup_empty in Hp.
Qed.

Lemma worker_link_next : next_open 1 worker_link.
Proof.
  split; [intros p s Hp; cbn in Hp; by rewrite lookup_empty in Hp |].
  assert (climbs 1 (opened (events quiet_b)) (s_max_remote_sid quiet_b)) as Hc.
  { rewrite quiet_b_events. vm_compute. discriminate. }
  intros x Hx. change (Some quiet_b = Some x) in Hx. revert Hc. generalize quiet_b Hx. clear. intros y Hy Hc. by injection Hy as <-.
Qed.
Lemma reader_ok : inv calm [] [1] true reader ∧ lc_mux reader = Some quiet_b ∧ bufs reader.
Proof.
  pose proof (wp_opened calm [] [] true worker_link k0 1 None 0
    (fun _ c' => inv calm [] [] true c' ∧ lc_mux c' = Some quiet_b) worker_link_inv) as Hw.
  assert (∀ c', inv calm [] [] true c' → lc_mux c' = lc_mux worker_link → inv calm [] [] true c' ∧ lc_mux c' = Some quiet_b) as Hq.
  { intros c' H E. split; [exact H | exact E]. }
  specialize (Hw (ex_intro _ quiet_b eq_refl) worker_link_next (fun c' H E _ _ => Hq c' H E)).
  apply wp_run in Hw as ([] & c & E & H & Hx).
  unfold reader, opened_client. rewrite E. cbn [fmap option_fmap option_map snd default].
  assert (bufs c) as Hb.
  { apply (grown_bufs worker_link); [by apply (quiet_event k0 (EV_STREAM_OPENED 1 None 0) eq_refl _ tt) |].
    intros p s Hs. cbn in Hs. by rewrite lookup_empty in Hs. }
  assert (lc_accept c = [1]) as Ha.
  { assert (lc_accept <$> (snd <$> handle_event k0 (EV_STREAM_OPENED 1 None 0) worker_link) = Some [1]) as Ea by (vm_compute; reflexivity).
    rewrite E in Ea. by injection Ea. }
  destruct (accept_live _ _ _ _ _ _ _ H Ha) as [s Hs].
  unfold lp_accept. rewrite (bind_some _ _ _ c c) by done. rewrite Ha.
  rewrite (bind_some _ _ _ s c) by (unfold deref; by rewrite Hs). cbn. split_and!; [by apply inv_accept | exact Hx | exact Hb].
Qed.

Lemma write_reaches_reader_witness :
  ∃ bs c', tunnel_pump k0 (reader <| lc_recv := bs |>) = Some (0, c') ∧
    ∃ s', lc_streams c' !! 1 = Some s' ∧ queued (ls_rbuf s') = [7; 7; 7; 7].
Proof.
  destruct reader_ok as (H & Hx & Hb).
  destruct (write_reaches_reader k0 [1] true reader sample_s2 quiet_b 1 (replicate 10 7) sample_e2 1 reader_stream sample_wf2)
    as (a' & bs & Ew & Eo & Hr);
    [vm_compute; reflexivity | vm_compute; reflexivity | vm_compute; reflexivity
    | vm_compute; discriminate | apply (bool_decide_unpack _); vm_compute; exact I
    | vm_compute; reflexivity | vm_compute; discriminate | exact quiet_b_wf
    | vm_compute; reflexivity | vm_compute; reflexivity | | vm_compute; discriminate | exact H | exact Hb | exact Hx | by left
    | apply default_Some; vm_compute; reflexivity | vm_compute; reflexivity | vm_compute; reflexivity |].
  { split; [vm_compute; reflexivity |]. split; [vm_compute; discriminate |].
    exists (default stream_zero (stab_map (s_tab quiet_b) !! 1)).
    split_and!; [vm_compute; reflexivity | vm_compute; discriminate | vm_compute; discriminate]. }
  assert (outp sample_s2 ++ bs = outp (mux_write sample_s2 1 (Some (replicate 10 7)) 10).2) as Eb.
  { rewrite <- Eo. change (mux_write sample_s2 1 (Some (replicate 10 7)) 10) with (mux_write sample_s2 1 (Some (replicate 10 7)) (zlen (replicate 10 7))).
    by rewrite Ew. }
  destruct Hr as (c' & s' & Ep & Hs' & Eq & _).
  { assert (zlen (outp (mux_write sample_s2 1 (Some (replicate 10 7)) 10).2) ≤ 1000) as Hl by (vm_compute; discriminate).
    rewrite <- Eb, zlen_app in Hl. pose proof (zlen_nonneg (outp sample_s2)). unfold LP_RECV_SIZE. lia. }
  exists bs, c'. split; [exact Ep |]. exists s'. split; [exact Hs' |]. rewrite Eq. vm_compute. reflexivity.
Defined.
