(* ===== verification/HttpWorker.v ===== *)
(** The example worker, examples/http_worker.c: a pool of threads that accept
    streams from libpeer, read a request and answer it.

    A thread runs [pool_thread] and, for each stream, [serve].  It is cut where it
    calls libpeer, each call being one operation with the client's mutex held: the
    call it is at, with the local variables alive there, is its [pc].  The pool
    runs against the I/O thread in HttpPool. *)

From Stdlib Require Import ZArith Lia String Ascii.
From stdpp Require Import base list numbers gmap.
From S2P Require Import Prelude Auth Host Fifo Umap Peer CString EdgeMain.

Open Scope string_scope.
Open Scope list_scope.
Open Scope Z_scope.

(** ** Memory of a call *)

(** The string in an array: up to the first NUL, which has to be there. *)
Fixpoint c_string (m : bytes) : option bytes :=
  match m with
  | [] => None
  | x :: m => if x =? 0 then Some [] else cons x <$> c_string m
  end.

(** A store of [bs] into an array, inside it. *)
Definition array_store (m : bytes) (off : Z) (bs : bytes) : option bytes :=
  if (0 <=? off) && (off + zlen bs <=? zlen m) then Some (mem_write m off bs) else None.

Definition lift {A} (o : option A) : P A := match o with Some a => mret a | None => undef end.

Definition INT_MAX : Z := 2 ^ 31 - 1.

(** What [snprintf] returns for a text of that many bytes. *)
Definition printed (s : bytes) : Z := if zlen s <=? INT_MAX then zlen s else -1.

(** ** serve *)

(** [sizeof buf], [sizeof body], [sizeof resp] *)
Definition BUF_SIZE : Z := 8192.
Definition BODY_SIZE : Z := 128.
Definition RESP_SIZE : Z := 256.

Definition CRLF2 : bytes := [13; 10; 13; 10].

(** The array [buf] as the call finds it: whatever was on the stack. *)
Definition stack_buf (stk : bytes) : bytes := ztake BUF_SIZE (stk ++ replicate (Z.to_nat BUF_SIZE) 0).

Definition body_text (id : bytes) : bytes := cs "handled by worker " ++ id ++ [10].

Definition crlf : bytes := [13; 10].

Definition resp_text (blen : Z) (body : bytes) : bytes :=
  cs "HTTP/1.1 200 OK" ++ crlf ++ cs "Content-Type: text/plain" ++ crlf ++ cs "Content-Length: " ++ fmt_ld blen ++
  crlf ++ cs "Connection: close" ++ crlf ++ crlf ++ body.

(** [rlen], and what is in [resp] before its NUL. *)
Definition response (id : bytes) : Z * bytes :=
  let body := snprintf BODY_SIZE (body_text id) in
  let blen := printed (body_text id) in
  let text := resp_text blen body in
  (printed text, snprintf RESP_SIZE text).

(** Where a thread is. *)
Inductive pc :=
  | ACCEPTING
  | READING (p total : Z) (buf : bytes)
  | WRITING (p off : Z)
  | CLOSING (p : Z)
  | EXITED.

(** The calls it has made. *)
Inductive lib_call :=
  | ACCEPTED (p : Z)
  | NO_MORE
  | GOT (p n : Z) (bs : bytes)
  | SENT (p w : Z) (bs : bytes)
  | CLOSED (p : Z).

Section Serve.
Context (id : bytes).

(** The condition of the write loop. *)
Definition write_or_close (p off : Z) : pc := if off <? (response id).1 then WRITING p off else CLOSING p.

(** An iteration of the read loop. *)
Definition read_step (p total : Z) (buf : bytes) : P (pc * list lib_call) :=
  r ← lp_read p (BUF_SIZE - total - 1);
  match r with
  | None => mret (READING p total buf, [])
  | Some (n, bs) =>
      if n <=? 0 then mret (write_or_close p 0, [GOT p n bs]) else
      buf ← lift (array_store buf total bs);
      let total := total + n in
      buf ← lift (array_store buf total [0]);
      s ← lift (c_string buf);
      let next := if bool_decide (is_Some (strstr s CRLF2)) || (total >=? BUF_SIZE - 1)
                  then write_or_close p 0 else READING p total buf in
      mret (next, [GOT p n bs])
  end.

(** An iteration of the write loop; what it sends has to have been printed. *)
Definition write_step (p off : Z) : P (pc * list lib_call) :=
  let '(rlen, resp) := response id in
  if rlen >? zlen resp then undef else
  r ← lp_write p (zdrop off resp) (rlen - off);
  match r with
  | None => mret (WRITING p off, [])
  | Some w =>
      let sent := SENT p w (ztake (rlen - off) (zdrop off resp)) in
      mret (if w <=? 0 then CLOSING p else write_or_close p (off + w), [sent])
  end.

(** The next call of a thread; [stk] is what the stack holds should it begin to
    serve. *)
Definition thread_step (stk : bytes) (t : pc) : P (pc * list lib_call) :=
  match t with
  | ACCEPTING =>
      r ← lp_accept;
      match r with
      | None => mret (ACCEPTING, [])
      | Some None => mret (EXITED, [NO_MORE])
      | Some (Some p) => mret (READING p 0 (stack_buf stk), [ACCEPTED p])
      end
  | READING p total buf => read_step p total buf
  | WRITING p off => write_step p off
  | CLOSING p => lp_close p;; mret (ACCEPTING, [CLOSED p])
  | EXITED => mret (EXITED, [])
  end.
End Serve.

(** ** main *)

Record worker_args := mk_worker_args {
  wa_listen : view;
  wa_token : view;
  wa_id : bytes;
  wa_weight : Z;
  wa_pool : Z;
}.

Definition worker_defaults : worker_args := mk_worker_args None None (cs "W?") 1 64.

(** An option that takes a value. *)
Definition worker_option (arg v : bytes) (a : worker_args) : option worker_args :=
  let '(mk_worker_args l t i w n) := a in
  if streq arg "--listen" then Some (mk_worker_args (Some v) t i w n)
  else if streq arg "--token" then Some (mk_worker_args l (Some v) i w n)
  else if streq arg "--id" then Some (mk_worker_args l t v w n)
  else if streq arg "--weight" then Some (mk_worker_args l t i (strtol v) n)
  else if streq arg "--pool" then Some (mk_worker_args l t i w (strtol v))
  else None.

Fixpoint worker_parse (argv : list bytes) (a : worker_args) : Z + worker_args :=
  match argv with
  | [] => inr a
  | arg :: v :: rest => match worker_option arg v a with Some a => worker_parse rest a | None => inl 2 end
  | _ :: [] => inl 2
  end.

(** What [main] hands to [lp_connect], and the size of the pool; [env] is
    [getenv("MUX_TOKEN")]. *)
Definition worker_config (env : view) (argv : list bytes) : Z + (lp_config * bytes * Z) :=
  match worker_parse argv worker_defaults with
  | inl code => inl code
  | inr (mk_worker_args None _ _ _ _) => inl 2
  | inr (mk_worker_args (Some _) t i w n) =>
      let token := match t with None => env | _ => t end in
      inr (mk_lp_config true token (Some i) (u32 w) 0 0 0, i, if n <? 1 then 1 else n)
  end.

(** The [pthread_create] calls; [None] when one fails, the join then being on a
    thread that does not exist.  Their outcomes are an oracle, as the allocator's. *)
Fixpoint spawn (threads : heap) (n : nat) : option (list pc) :=
  match n with
  | O => Some []
  | S n => let '(ok, threads) := alloc threads in if ok then cons ACCEPTING <$> spawn threads n else None
  end.

(** [main] until the threads run: an exit code, or the client and the threads.
    [connected] is whether [lp_connect] succeeded. *)
Definition worker_start (env : view) (argv : list bytes) (connected : bool) (h threads : heap)
  : option (Z + (lp_client * bytes * list pc)) :=
  match worker_config env argv with
  | inl code => Some (inl code)
  | inr (cfg, id, n) =>
      if negb connected then Some (inl 1) else
      let '(ok, _) := alloc h in
      if negb ok then None else
      ts ← spawn threads (Z.to_nat n);
      Some (inr (lp_client_zero cfg, id, ts))
  end.

(** ** Searching past a prefix *)

(** [s] and [p] differ at a place both have. *)
Fixpoint differs (s p : bytes) : bool :=
  match s, p with x :: s, y :: p => negb (x =? y) || differs s p | _, _ => false end.

(** No occurrence of [p] begins in [s], whatever follows. *)
Fixpoint clear_of (p s : bytes) : bool :=
  match s with [] => true | _ :: t => differs s p && clear_of p t end.

Lemma differs_starts s p x : differs s p = true → starts_with (s ++ x) p = false.
Proof.
  revert p. induction s as [|a s IH]; intros [|b p]; try done. cbn. intros [H|H]%orb_true_iff.
  - apply negb_true_iff in H. by rewrite H.
  - rewrite (IH p H). by rewrite andb_false_r.
Qed.

Lemma strstr_clear p s x : clear_of p s = true → strstr (s ++ x) p = strstr x p.
Proof.
  induction s as [|a s IH]; [done |]. cbn [clear_of]. intros [Hd Hc]%andb_true_iff. rewrite <- (IH Hc).
  pose proof (differs_starts _ _ x Hd) as E. cbn [app] in *. cbn [strstr]. by rewrite E.
Qed.

Lemma clear_without c p s : c ∉ s → clear_of (c :: p) s = true.
Proof.
  induction s as [|a s IH]; [done |]. intros [Ha Hs]%not_elem_of_cons. cbn.
  destruct (Z.eqb_spec a c); [congruence |]. by apply IH.
Qed.

Lemma strstr_here p x : strstr (p ++ x) p = Some (p ++ x).
Proof. destruct (p ++ x) as [|a l] eqn:E; [by destruct p |]. cbn [strstr]. rewrite <- E. by rewrite starts_with_app, E. Qed.

(** ** The response *)

(** What is sent of the body. *)
Definition body_sent (id : bytes) : bytes := ztake (BODY_SIZE - 1) (body_text id).

Lemma body_text_len id : zlen (body_text id) = 19 + zlen id.
Proof. unfold body_text. rewrite !zlen_app. change (zlen (cs "handled by worker ")) with 18. change (zlen [10]) with 1. lia. Qed.

Lemma zlen_ztake_le {A} n (l : list A) : 0 ≤ n → zlen (ztake n l) ≤ n.
Proof.
  intros Hn. destruct (Z.le_gt_cases n (zlen l)); [by rewrite zlen_ztake | rewrite ztake_all by lia; lia].
Qed.

Lemma printed_range s : -1 ≤ printed s ≤ INT_MAX.
Proof. unfold printed, INT_MAX. pose proof (zlen_nonneg s). destruct (Z.leb_spec (zlen s) (2 ^ 31 - 1)); lia. Qed.

Lemma fmt_ld_len n : -1 ≤ n ≤ INT_MAX → zlen (fmt_ld n) ≤ 21.
Proof.
  intros Hn. unfold fmt_ld. destruct (Z.ltb_spec n 0); [rewrite zlen_cons |]; pose proof (fmt_u_len (Z.abs n)) as Hf.
  - replace (Z.abs n) with (- n) in Hf by lia. lia.
  - replace (Z.abs n) with n in Hf by lia. lia.
Qed.

(** The response is never cut: [resp] holds all of it, and [rlen] is its length. *)
Lemma response_whole id :
  response id = (zlen (response id).2, resp_text (printed (body_text id)) (body_sent id)) ∧
  0 < zlen (response id).2 < RESP_SIZE.
Proof.
  unfold response. fold (body_sent id). change (snprintf BODY_SIZE (body_text id)) with (body_sent id).
  set (text := resp_text (printed (body_text id)) (body_sent id)).
  assert (0 < zlen text < RESP_SIZE) as Hl.
  { unfold text, resp_text. rewrite !zlen_app. pose proof (fmt_ld_len _ (printed_range (body_text id))).
    assert (zlen (body_sent id) ≤ 127) by (unfold body_sent, BODY_SIZE; by apply zlen_ztake_le).
    pose proof (zlen_nonneg (fmt_ld (printed (body_text id)))). pose proof (zlen_nonneg (body_sent id)).
    change (zlen (cs "HTTP/1.1 200 OK")) with 15. change (zlen crlf) with 2. change (zlen (cs "Content-Type: text/plain")) with 24.
    change (zlen (cs "Content-Length: ")) with 16. change (zlen (cs "Connection: close")) with 17. unfold RESP_SIZE. lia. }
  assert (snprintf RESP_SIZE text = text) as E by (apply snprintf_fits; lia). rewrite E. cbn [snd]. split; [| done].
  f_equal. unfold printed, INT_MAX, RESP_SIZE in *. destruct (Z.leb_spec (zlen text) (2 ^ 31 - 1)); lia.
Qed.

(** A client that parses the response finds the body behind the blank line, and
    the length that is announced for it. *)
Definition announced (resp : bytes) : option Z := (fun t => strtol (zdrop 16 t)) <$> strstr resp (cs "Content-Length: ").
Definition body_of (resp : bytes) : option bytes := zdrop 4 <$> strstr resp CRLF2.

(** The response is read back: a client finds behind the blank line the body as
    far as it was sent, and is told the length of the body before it was cut; the
    two agree exactly when the name of the worker has at most 108 bytes. *)
Theorem response_read_back id :
  zlen id + 19 ≤ INT_MAX →
  let resp := (response id).2 in
  body_of resp = Some (body_sent id) ∧ announced resp = Some (zlen (body_text id)) ∧
  (zlen (body_sent id) = zlen (body_text id) ↔ zlen id ≤ 108) ∧ (zlen id ≤ 108 → body_sent id = body_text id).
Proof.
  intros Hid resp. destruct (response_whole id) as [E _]. pose proof (body_text_len id) as Hb. pose proof (zlen_nonneg id).
  assert (printed (body_text id) = zlen (body_text id)) as Hp.
  { unfold printed. destruct (Z.leb_spec (zlen (body_text id)) INT_MAX); lia. }
  assert (resp = resp_text (zlen (body_text id)) (body_sent id)) as -> by (unfold resp; rewrite E, Hp; done).
  set (n := zlen (body_text id)) in *. assert (fmt_ld n = fmt_u n) as Ef.
  { unfold fmt_ld. destruct (Z.ltb_spec n 0); [lia | done]. }
  unfold body_of, announced, resp_text. rewrite Ef. split_and!.
  - set (h1 := cs "HTTP/1.1 200 OK" ++ crlf ++ cs "Content-Type: text/plain" ++ crlf ++ cs "Content-Length: ").
    set (h2 := crlf ++ cs "Connection: close").
    replace (cs "HTTP/1.1 200 OK" ++ _) with (h1 ++ fmt_u n ++ h2 ++ CRLF2 ++ body_sent id)
      by (unfold h1, h2, CRLF2, crlf; rewrite <- !(assoc_L (++)); done).
    rewrite strstr_clear by (vm_compute; reflexivity).
    rewrite strstr_clear by (apply clear_without, numeral_not; [apply fmt_u_numeral; lia | lia]).
    rewrite strstr_clear by (vm_compute; reflexivity). rewrite strstr_here. cbn [fmap option_fmap option_map]. by rewrite zdrop_app.
  - set (h1 := cs "HTTP/1.1 200 OK" ++ crlf ++ cs "Content-Type: text/plain" ++ crlf).
    set (x := crlf ++ cs "Connection: close" ++ crlf ++ crlf ++ body_sent id).
    replace (cs "HTTP/1.1 200 OK" ++ _) with (h1 ++ cs "Content-Length: " ++ fmt_u n ++ x)
      by (unfold h1; rewrite <- !(assoc_L (++)); done).
    rewrite strstr_clear by (vm_compute; reflexivity). rewrite strstr_here. cbn [fmap option_fmap option_map].
    rewrite zdrop_app by done. f_equal. apply strtol_fmt; [unfold LONG_MAX, INT_MAX in *; lia | done].
  - unfold body_sent, BODY_SIZE. destruct (Z.le_gt_cases n 127); [rewrite ztake_all by (fold n; lia) |
      rewrite zlen_ztake by (fold n; lia)]; fold n; lia.
  - intros Hs. unfold body_sent, BODY_SIZE. apply ztake_all. fold n. lia.
Qed.

Lemma response_read_back_witness :
  body_of (response (cs "W0")).2 = Some (body_text (cs "W0")) ∧ announced (response (cs "W0")).2 = Some 21.
Proof.
  destruct (response_read_back (cs "W0")) as (E1 & E2 & _ & E3); [vm_compute; discriminate |].
  split; [rewrite E1, E3 by (vm_compute; discriminate); reflexivity | exact E2].
Defined.
