(* ===== verification/HttpPool.v ===== *)
(** The worker of examples/http_worker.c as a client of libpeer: any number of
    threads that accept and serve, interleaved with the sections of the I/O thread.

    [pool_exec] runs one call of one thread, one section, or the end of [main] once
    every thread has been joined.  A run of the pool is a run of PeerSys whose
    application holds exactly the streams being served ([step_refines]), so all that
    is proved there of libpeer holds of the worker. *)

From Stdlib Require Import ZArith Lia String Ascii.
From stdpp Require Import base numbers gmap list.
From S2P Require Import Prelude Frame OutBuf EventQueue Probe StreamTable Session SessionIO Handshake Recv SessionOpens Auth Host Fifo Umap RouterLoop Peer PeerInv PeerFrame PeerSteps PeerIO PeerSys PeerQuiet PeerInput PeerLoop CString HttpWorker.

Open Scope Z_scope.

(** ** The pool *)

Record worker_thread := mk_thread { th_pc : pc; th_log : list lib_call }.
Record worker_pool := mk_pool { hp_client : lp_client; hp_threads : list worker_thread }.

Inductive pool_op :=
  | SECTION (o : lp_op)              (* of the I/O thread *)
  | WORK (i : nat) (stk : bytes)     (* of the thread [ts[i]] *)
  | JOINED.                          (* [main], behind the joins *)

Definition exited (t : worker_thread) : bool := match th_pc t with EXITED => true | _ => false end.

(** The streams a thread, or all of them, are serving. *)
Definition handle (t : pc) : list Z :=
  match t with READING p _ _ | WRITING p _ | CLOSING p => [p] | _ => [] end.
Definition handles (ts : list worker_thread) : list Z := concat ((fun t => handle (th_pc t)) <$> ts).

Definition pool_exec (id : bytes) (o : pool_op) (w : worker_pool) : option worker_pool :=
  match o with
  | SECTION o =>
      if is_app o then Some w else
      y ← exec o (mk_sys (hp_client w) (handles (hp_threads w)) true);
      Some (mk_pool (y_client y) (hp_threads w))
  | WORK i stk =>
      match hp_threads w !! i with
      | None => Some w
      | Some t =>
          '(r, c) ← thread_step id stk (th_pc t) (hp_client w);
          Some (mk_pool c (<[i := mk_thread r.1 (th_log t ++ r.2)]> (hp_threads w)))
      end
  | JOINED =>
      if forallb exited (hp_threads w)
      then '(_, c) ← lp_stop (hp_client w); Some (mk_pool c (hp_threads w))
      else Some w
  end.

Fixpoint pool_run (id : bytes) (ops : list pool_op) (w : worker_pool) : option worker_pool :=
  match ops with [] => Some w | o :: ops => w ← pool_exec id o w; pool_run id ops w end.

(** The pool [main] starts. *)
Definition main_pool (c : lp_client) (ts : list pc) : worker_pool := mk_pool c ((fun t => mk_thread t []) <$> ts).

(** ** What the calls answer *)

(** The stream's input has ended, and its backlog has room or is void. *)
Definition input_over (s : lp_stream) : bool := ls_eof s || ls_reset s.
Definition output_open (s : lp_stream) : bool := ls_reset s || (buf_avail (ls_wbuf s) <? LP_WBUF_HIGH).

(** A read waits, returns no data, or takes some. *)
Lemma read_outcome p k c o c' :
  bufs c → 0 ≤ k → lp_read p k c = Some (o, c') →
  match o with
  | None => c' = c ∧ ∃ s, lc_streams c !! p = Some s ∧ input_over s = false
  | Some (n, bs) => n ≤ 0 ∧ bs = [] ∧ c' = c ∨ 0 < n ≤ k ∧ n = zlen bs ∧ lp_take p k c = Some ((n, bs), c')
  end.
Proof.
  intros Hb Hk E. unfold lp_read in E. destruct (Z.eqb_spec k 0); [injection E as <- <-; by left |].
  apply deref_inv in E as (s & Hs & E). rewrite (bind_some _ _ _ c c) in E by done.
  destruct (_ && _) eqn:Ew.
  { injection E as <- <-. split; [done |]. exists s. split; [done |]. unfold input_over.
    destruct (ls_eof s), (ls_reset s); try done; by rewrite ?andb_false_r in Ew. }
  destruct (ls_reset s); [injection E as <- <-; by left |].
  destruct (Z.eqb_spec (buf_avail (ls_rbuf s)) 0); [injection E as <- <-; by left |].
  apply bind_inv in E as (r & c1 & E1 & E). injection E as <- <-. pose proof E1 as Et. unfold lp_take in E1.
  apply deref_inv in E1 as (s' & Hs' & E1). assert (s' = s) as -> by congruence. cbv zeta in E1.
  pose proof (sound_len _ (Hb p s Hs)) as Hl. destruct (Hb p s Hs) as [Hh _]. fold (queued (ls_rbuf s)) in E1.
  do 3 (apply bind_inv in E1 as ([] & ? & _ & E1)). injection E1 as E1 _. destruct r as [rn rb]. injection E1 as <- <-. right.
  unfold buf_avail in *. destruct (Z.ltb_spec k (bf_len (ls_rbuf s) - bf_head (ls_rbuf s))) as [Hlt|Hge].
  all: rewrite zlen_ztake by lia; (split_and!; [lia | lia | done | exact Et]).
Qed.

(** A write waits, is refused, or takes everything. *)
Lemma write_outcome p buf n c o c' :
  0 < n → lp_write p buf n c = Some (o, c') →
  match o with Some w => w = -1 ∨ w = n | None => ∃ s, lc_streams c !! p = Some s ∧ output_open s = false end.
Proof.
  intros Hn E. unfold lp_write in E. destruct (Z.eqb_spec n 0); [lia |].
  apply deref_inv in E as (s & Hs & E). rewrite (bind_some _ _ _ c c) in E by done.
  destruct (_ && _) eqn:Ew.
  { injection E as <- _. exists s. split; [done |]. unfold output_open. rewrite Z.geb_leb in Ew.
    do 3 apply andb_true_iff in Ew as [Ew ?]. apply negb_true_iff in H1 as ->. cbn. lia. }
  clear Ew. destruct (ls_reset s || ls_fin_sent s || lc_stopping c); [injection E as <- _; by left |].
  apply bind_inv in E as (r & c1 & E1 & E). injection E as <- _. unfold lp_put in E1.
  apply bind_inv in E1 as (r' & c2 & _ & E1). destruct (negb _); [injection E1 as <- _; by left |].
  do 2 (apply bind_inv in E1 as ([] & ? & _ & E1)). injection E1 as <- _. by right.
Qed.

(** ** The request buffer *)

(** What string functions see of received bytes. *)
Fixpoint before_nul (r : bytes) : bytes :=
  match r with [] => [] | x :: r => if x =? 0 then [] else x :: before_nul r end.

Lemma c_string_at r rest : c_string (r ++ 0 :: rest) = Some (before_nul r).
Proof. induction r as [|x r IH]; [done |]. cbn. destruct (x =? 0); [done |]. by rewrite IH. Qed.

(** A read into the array, and the NUL behind it, stay inside. *)
Lemma store_read buf r bs :
  zlen buf = BUF_SIZE → ztake (zlen r) buf = r → zlen r + zlen bs < BUF_SIZE →
  ∃ b1 b2 rest, array_store buf (zlen r) bs = Some b1 ∧ array_store b1 (zlen r + zlen bs) [0] = Some b2 ∧
    b2 = (r ++ bs) ++ 0 :: rest ∧ zlen b2 = BUF_SIZE.
Proof.
  intros Hl Hr Hs. pose proof (zlen_nonneg r). pose proof (zlen_nonneg bs). unfold array_store.
  assert (mem_write buf (zlen r) bs = (r ++ bs) ++ zdrop (zlen r + zlen bs) buf) as E1.
  { unfold mem_write. by rewrite Hr, (assoc_L (++)). }
  assert (zlen (mem_write buf (zlen r) bs) = BUF_SIZE) as L1 by (rewrite mem_write_len; lia).
  set (b1 := mem_write buf (zlen r) bs) in *. exists b1, (mem_write b1 (zlen r + zlen bs) [0]), (zdrop (zlen r + zlen bs + 1) b1).
  change (zlen [0]) with 1.
  destruct (Z.leb_spec 0 (zlen r)); [| lia]. destruct (Z.leb_spec (zlen r + zlen bs) (zlen buf)); [| lia].
  destruct (Z.leb_spec 0 (zlen r + zlen bs)); [| lia]. destruct (Z.leb_spec (zlen r + zlen bs + 1) (zlen b1)); [| lia].
  split_and!; [done | done | | rewrite mem_write_len; [done | lia |]; change (zlen [0]) with 1; lia].
  unfold mem_write. change (zlen [0]) with 1. cbn [app]. f_equal. rewrite E1. apply ztake_app. rewrite zlen_app. lia.
Qed.

(** ** Conversations *)

(** The bytes read so far do not end the reading: no blank line before a NUL, and
    the array is not full. *)
Definition more_to_read (r : bytes) : bool :=
  negb (bool_decide (is_Some (strstr (before_nul r) CRLF2))) && (zlen r <? BUF_SIZE - 1).

Definition gots (p : Z) (rs : list bytes) : list lib_call := (fun bs => GOT p (zlen bs) bs) <$> rs.

(** Reads each of which was followed by another. *)
Inductive reading : list bytes → Prop :=
  | reading_nil : reading []
  | reading_snoc rs bs : reading rs → bs ≠ [] → more_to_read (concat rs ++ bs) = true → reading (rs ++ [bs]).

(** A request: the stream is accepted and read until the headers end, the array
    is full, or a read returns 0 or an error. *)
Inductive request (p : Z) : list lib_call → Prop :=
  | request_end rs bs : reading rs → bs ≠ [] → more_to_read (concat rs ++ bs) = false →
      request p (ACCEPTED p :: gots p rs ++ [GOT p (zlen bs) bs])
  | request_cut rs n : reading rs → n ≤ 0 → request p (ACCEPTED p :: gots p rs ++ [GOT p n []]).

(** The answer: the response in one write, which is taken whole or refused. *)
Definition answered (id : bytes) (p : Z) (cs : list lib_call) : Prop :=
  ∃ a w, request p a ∧ (w = -1 ∨ w = (response id).1) ∧ cs = a ++ [SENT p w (response id).2].

Definition conversation (id : bytes) (cs : list lib_call) : Prop :=
  ∃ p a, answered id p a ∧ cs = a ++ [CLOSED p].

(** The calls since the last conversation, for each place a thread can be at. *)
Definition progress (id : bytes) (t : pc) (cs : list lib_call) : Prop :=
  match t with
  | ACCEPTING => cs = []
  | READING p total buf =>
      ∃ rs, cs = ACCEPTED p :: gots p rs ∧ reading rs ∧ total = zlen (concat rs) ∧ ztake total buf = concat rs ∧
        total < BUF_SIZE - 1 ∧ zlen buf = BUF_SIZE
  | WRITING p off => off = 0 ∧ request p cs
  | CLOSING p => answered id p cs
  | EXITED => cs = [NO_MORE]
  end.

Definition thread_ok (id : bytes) (t : worker_thread) : Prop :=
  ∃ cvs cs, th_log t = concat cvs ++ cs ∧ Forall (conversation id) cvs ∧ progress id (th_pc t) cs.

(** What a call of a thread is to libpeer. *)
Definition thread_ops (id : bytes) (t : pc) : list lp_op :=
  match t with
  | ACCEPTING => [APP_ACCEPT]
  | READING p total _ => [APP_READ p (BUF_SIZE - total - 1)]
  | WRITING p off => [APP_WRITE p (zdrop off (response id).2) ((response id).1 - off)]
  | CLOSING p => [APP_CLOSE p]
  | EXITED => []
  end.

(** The outcome of a call: defined, in step with the conversation, and the one
    libpeer gives; the thread holds another stream only by accepting it. *)
Record call_ok (id stk : bytes) (t : pc) (cs : list lib_call) (own : list Z) (c : lp_client)
  (t' : pc) (cs' : list lib_call) (own' : list Z) (c' : lp_client) : Prop := {
  ck_step : thread_step id stk t c = Some ((t', cs'), c');
  ck_progress : progress id t' (cs ++ cs') ∨ t' = ACCEPTING ∧ conversation id (cs ++ cs');
  ck_run : run (thread_ops id t) (mk_sys c own true) = Some (mk_sys c' own' true);
  ck_own rest : own ≡ₚ handle t ++ rest → own' ≡ₚ handle t' ++ rest;
}.

Lemma more_stop r : bool_decide (is_Some (strstr (before_nul r) CRLF2)) || (zlen r >=? BUF_SIZE - 1) = negb (more_to_read r).
Proof.
  unfold more_to_read. rewrite Z.geb_leb. destruct (bool_decide _); [done |]. cbn [negb andb orb].
  destruct (Z.ltb_spec (zlen r) (BUF_SIZE - 1)), (Z.leb_spec (BUF_SIZE - 1) (zlen r)); done || lia.
Qed.

Lemma more_room r : more_to_read r = true → zlen r < BUF_SIZE - 1.
Proof. unfold more_to_read. intros [_ H]%andb_true_iff. lia. Qed.

Lemma write_first id p : write_or_close id p 0 = WRITING p 0.
Proof.
  destruct (response_whole id) as [E Hl]. unfold write_or_close. rewrite E. cbn [fst snd] in *.
  destruct (Z.ltb_spec 0 (zlen (response id).2)); [done | lia].
Qed.

Lemma write_done id p : write_or_close id p (response id).1 = CLOSING p.
Proof. unfold write_or_close. by rewrite Z.ltb_irrefl. Qed.

Section Calls.
Context (id stk : bytes) (own : list Z) (c : lp_client).
Context (H : inv calm [] own true c) (Hb : bufs c).

Lemma accept_ok : ∃ t' cs' own' c', call_ok id stk ACCEPTING [] own c t' cs' own' c'.
Proof.
  pose proof (wp_lp_accept calm [] own true c (fun _ _ => True) H (fun _ _ _ => I)) as (r & c' & E & _)%wp_run.
  assert (∀ t cs own', thread_step id stk ACCEPTING c = Some ((t, cs), c') → progress id t cs →
    exec APP_ACCEPT (mk_sys c own true) = Some (mk_sys c' own' true) → (∀ rest, own ≡ₚ rest → own' ≡ₚ handle t ++ rest) →
    ∃ t' cs' own' c', call_ok id stk ACCEPTING [] own c t' cs' own' c') as Hk.
  { intros t cs own' E1 Hp Ex Ho. exists t, cs, own', c'. split; [done | by left | | exact Ho].
    cbn [thread_ops run]. by rewrite Ex. }
  destruct r as [[p|]|].
  - apply (Hk (READING p 0 (stack_buf stk)) [ACCEPTED p] (p :: own)).
    + unfold thread_step. by rewrite (bind_some _ _ _ _ _ E).
    + exists []. split_and!; [done | apply reading_nil | done | apply ztake_0 | done |].
      unfold stack_buf. rewrite zlen_ztake; [done |]. rewrite zlen_app. pose proof (zlen_nonneg stk).
      change (zlen (replicate (Z.to_nat BUF_SIZE) 0)) with 8192. unfold BUF_SIZE. lia.
    + cbn [exec]. by rewrite E.
    + intros rest Hr. cbn. by rewrite Hr.
  - apply (Hk EXITED [NO_MORE] own); [unfold thread_step; by rewrite (bind_some _ _ _ _ _ E) | done | cbn [exec]; by rewrite E | done].
  - apply (Hk ACCEPTING [] own); [unfold thread_step; by rewrite (bind_some _ _ _ _ _ E) | done | cbn [exec]; by rewrite E | done].
Qed.

Lemma read_ok p total buf cs :
  p ∈ own → progress id (READING p total buf) cs → ∃ t' cs' own' c', call_ok id stk (READING p total buf) cs own c t' cs' own' c'.
Proof.
  intros Hp (rs & -> & Hrs & -> & Hpre & Hroom & Hlen). set (r0 := concat rs) in *.
  pose proof (wp_lp_read own true c p (BUF_SIZE - zlen r0 - 1) (fun _ _ => True) H Hp (fun _ _ _ => I)) as (r & c' & E & _)%wp_run.
  assert (∀ t cs', thread_step id stk (READING p (zlen r0) buf) c = Some ((t, cs'), c') → handle t = [p] →
    progress id t ((ACCEPTED p :: gots p rs) ++ cs') →
    ∃ t' cs' own' c', call_ok id stk (READING p (zlen r0) buf) (ACCEPTED p :: gots p rs) own c t' cs' own' c') as Hk.
  { intros t cs' E1 Ht Hpr. exists t, cs', own, c'. split; [done | by left | | by rewrite Ht].
    cbn [thread_ops run exec]. unfold held, plain. cbn [y_own y_client]. by rewrite decide_True, E. }
  destruct r as [[n bs]|].
  2:{ apply (Hk (READING p (zlen r0) buf) []); [| done |].
      - unfold thread_step, read_step. by rewrite (bind_some _ _ _ _ _ E).
      - rewrite app_nil_r. by exists rs. }
  assert (0 ≤ BUF_SIZE - zlen r0 - 1) as Hk0 by lia.
  destruct (read_outcome _ _ _ _ _ Hb Hk0 E) as [(Hn & -> & _)|(Hn & -> & _)].
  - apply (Hk (WRITING p 0) [GOT p n []]); [| done |].
    + unfold thread_step, read_step. rewrite (bind_some _ _ _ _ _ E). destruct (Z.leb_spec n 0); [| lia]. by rewrite write_first.
    + split; [done |]. by apply request_cut.
  - assert (bs ≠ []) as Hne by (intros ->; unfold zlen in Hn; cbn in Hn; lia).
    destruct (store_read buf r0 bs Hlen Hpre ltac:(lia)) as (b1 & b2 & rest & E1 & E2 & Eb & L2).
    assert (thread_step id stk (READING p (zlen r0) buf) c =
      Some ((if negb (more_to_read (r0 ++ bs)) then WRITING p 0 else READING p (zlen (r0 ++ bs)) b2, [GOT p (zlen bs) bs]), c')) as Es.
    { unfold thread_step, read_step. rewrite (bind_some _ _ _ _ _ E). destruct (Z.leb_spec (zlen bs) 0); [lia |].
      rewrite E1, (bind_some _ _ _ b1 c') by done. cbv zeta. rewrite E2, (bind_some _ _ _ b2 c') by done.
      rewrite Eb, c_string_at, (bind_some _ _ _ (before_nul (r0 ++ bs)) c') by done.
      by rewrite <- zlen_app, more_stop, write_first. }
    destruct (more_to_read (r0 ++ bs)) eqn:Em; cbn [negb] in Es.
    + apply (Hk _ _ Es); [done |]. exists (rs ++ [bs]). unfold gots. rewrite fmap_app, concat_app. cbn [concat]. rewrite app_nil_r.
      split_and!; [done | by constructor | done | rewrite Eb; by apply ztake_app | by apply more_room | done].
    + apply (Hk _ _ Es); [done |]. split; [done |]. by apply request_end.
Qed.

Lemma write_ok p off cs :
  p ∈ own → progress id (WRITING p off) cs → ∃ t' cs' own' c', call_ok id stk (WRITING p off) cs own c t' cs' own' c'.
Proof.
  intros Hp [-> Hr]. destruct (response_whole id) as [E0 Hl]. set (resp := (response id).2) in *.
  assert ((response id).1 = zlen resp) as E1 by by rewrite E0.
  pose proof (wp_lp_write own true c p (zdrop 0 resp) (zlen resp - 0) (fun _ _ => True) H Hp (fun _ _ _ => I)) as (r & c' & E & _)%wp_run.
  assert (run (thread_ops id (WRITING p 0)) (mk_sys c own true) = Some (mk_sys c' own true)) as Er.
  { cbn [thread_ops run exec]. fold resp. rewrite E1. unfold held, plain. cbn [y_own y_client]. by rewrite decide_True, E. }
  assert (thread_step id stk (WRITING p 0) c = Some ((match r with
    | None => (WRITING p 0, [])
    | Some w => (if w <=? 0 then CLOSING p else write_or_close id p w, [SENT p w resp]) end), c')) as Es.
  { unfold thread_step, write_step. rewrite (surjective_pairing (response id)). fold resp. rewrite E1.
    destruct (Z.gtb_spec (zlen resp) (zlen resp)); [lia |]. rewrite (bind_some _ _ _ _ _ E).
    rewrite zdrop_0, ztake_all by lia. by destruct r. }
  destruct r as [w|].
  - assert (0 < zlen resp - 0) as Hk0 by lia. destruct (write_outcome _ _ _ _ _ _ Hk0 E) as [->| ->].
    + exists (CLOSING p), [SENT p (-1) resp], own, c'. split; [exact Es | | exact Er | done]. left. exists cs, (-1). auto.
    + rewrite Z.sub_0_r in Es. rewrite <- E1, write_done, E1 in Es. destruct (Z.leb_spec (zlen resp) 0); [lia |].
      exists (CLOSING p), [SENT p (zlen resp) resp], own, c'. split; [exact Es | | exact Er | done]. left. exists cs, (zlen resp). auto.
  - exists (WRITING p 0), [], own, c'. split; [exact Es | left; by rewrite app_nil_r | exact Er | done].
Qed.

Lemma close_ok p cs :
  p ∈ own → progress id (CLOSING p) cs → ∃ t' cs' own' c', call_ok id stk (CLOSING p) cs own c t' cs' own' c'.
Proof.
  intros Hp Ha. pose proof (wp_lp_close own true c p (fun r _ => r = 0) H Hp (fun _ _ => eq_refl)) as (r & c' & E & ->)%wp_run.
  exists ACCEPTING, [CLOSED p], (remove_all p own), c'. split.
  - unfold thread_step. by rewrite (bind_some _ _ _ _ _ E).
  - right. split; [done |]. by exists p, cs.
  - cbn [thread_ops run exec]. by rewrite decide_True, E.
  - intros rest Hr. cbn in *. destruct (iv_handles _ _ _ _ _ H) as [Hn _]. apply NoDup_app in Hn as (_ & _ & Hn).
    apply (Permutation_cons_inv (a := p)). rewrite <- Hr. symmetry. by apply remove_perm.
Qed.

Lemma call_defined t cs :
  (∀ p, p ∈ handle t → p ∈ own) → progress id t cs → ∃ t' cs' own' c', call_ok id stk t cs own c t' cs' own' c'.
Proof.
  intros Ho Hp. destruct t as [|p total buf|p off|p|].
  - cbn in Hp. subst. apply accept_ok.
  - apply read_ok; [| done]. apply Ho. by left.
  - apply write_ok; [| done]. apply Ho. by left.
  - apply close_ok; [| done]. apply Ho. by left.
  - exists EXITED, [], own, c. split; [done | left; by rewrite app_nil_r | done | done].
Qed.
End Calls.

(** ** The request to stop *)

(** Only [lp_disconnect] asks the client to stop. *)
Definition going c c' : Prop := lc_stopping c' = lc_stopping c.

#[export] Instance going_frame : Frame going.
Proof. split; [| done]. split; [done |]. intros c1 c2 c3. unfold going. congruence. Qed.

#[local] Hint Extern 3 (stays going (modify _)) => apply stays_modify; intros []; reflexivity : stays.

Lemma going_pending_push p : stays going (pending_push p).
Proof. unfold pending_push. auto 20 with stays. Qed.

Lemma going_wake : stays going io_wake.
Proof. unfold io_wake. auto with stays. Qed.

Lemma going_notify : stays going notify_raise.
Proof. unfold notify_raise. auto 20 with stays. Qed.

Lemma going_stream_new sid m n : stays going (stream_new sid m n).
Proof.
  unfold stream_new. apply stays_bind; [auto with stays | intros h]. destruct (alloc h) as [ok h1].
  apply stays_bind; [auto with stays | intros _]. destruct (negb ok); [auto with stays |].
  do 3 (apply stays_bind; [auto with stays | intros ?]). apply stays_bind; [| intros _; auto 20 with stays].
  apply stays_when, stays_bind; [auto with stays | intros h2]. destruct (alloc h2) as [ok2 h3]. auto 20 with stays.
Qed.

Lemma going_append p get set data n : stays going (buf_append_to p get set data n).
Proof.
  unfold buf_append_to. do 2 (apply stays_bind; [auto with stays | intros ?]).
  destruct (lp_buf_append _ _ _ _) as [[r h] b]. auto 20 with stays.
Qed.
#[local] Hint Resolve going_pending_push going_wake going_notify going_stream_new going_append : stays.

Lemma going_event k ev : stays going (handle_event k ev).
Proof.
  destruct ev; cbn [handle_event]; auto with stays; (apply stays_bind; [auto with stays | intros ?]); auto 30 with stays.
  all: try match goal with |- context [reg_get ?a ?b] => destruct (reg_get a b) end; auto 30 with stays.
Qed.

Lemma going_events k : stays going (handle_events k).
Proof.
  unfold handle_events. apply stays_bind; [auto with stays | intros n].
  induction n as [|n IH]; cbn [events_loop]; [auto with stays |].
  apply stays_bind; [auto with stays | intros [ev|]; [| auto with stays]].
  apply stays_bind; [apply going_event | done].
Qed.
#[local] Hint Resolve going_events : stays.

Lemma going_down : stays going session_down.
Proof.
  assert (∀ ps, stays going (down_mark ps)) as Hd.
  { induction ps as [|p ps IH]; cbn [down_mark]; auto 20 with stays. }
  assert (∀ ps, stays going (clear_in_pending ps)) as N1 by apply stays_clear.
  assert (∀ ps, stays going (clear_in_reg ps)) as N2 by apply stays_clear.
  assert (∀ ps, stays going (free_released ps)) as N3 by apply stays_clear.
  unfold session_down, reg_clear. auto 30 with stays.
Qed.
#[local] Hint Resolve going_down : stays.

Lemma going_pump k : stays going (tunnel_pump k).
Proof. unfold tunnel_pump. auto 20 with stays. Qed.

Lemma going_read fuel k rs : stays going (tunnel_read fuel k rs).
Proof.
  revert rs. induction fuel as [|fuel IH]; intros rs; cbn [tunnel_read]; [auto with stays |].
  pose proof (going_pump k). apply stays_bind; [auto with stays | intros c]. cbv zeta. destruct (_ =? 0).
  - auto 20 with stays.
  - destruct rs as [|[bs| | |] rs]; auto with stays. destruct (_ =? 0); auto 20 with stays.
Qed.

Lemma going_up k rnd h fd : stays going (session_up k rnd h fd).
Proof.
  intros c r c'. unfold session_up, going. destruct (fd <? 0); [by intros [= _ <-] |].
  destruct (lp_build_cfg k rnd c) as [c1 mc] eqn:Eb.
  assert (lc_stopping c1 = lc_stopping c) as <-.
  { unfold lp_build_cfg in Eb. by destruct (lf_token _); injection Eb as <- _. }
  by destruct (mux_session_new h mc _); intros [= _ <-].
Qed.
#[local] Hint Resolve going_read going_up : stays.

Lemma going_flush ws sent : stays going (tunnel_flush ws sent).
Proof. apply stays_tunnel_flush. Qed.

Lemma going_section o own arm c y :
  is_app o = false → exec o (mk_sys c own arm) = Some y →
  going c (y_client y) ∧ y_own y = own ∧ y_armed y = arm ∧
  ∀ own' arm', exec o (mk_sys c own' arm') = Some (mk_sys (y_client y) own' arm').
Proof.
  assert (∀ A (m : P A), stays going m → plain m (mk_sys c own arm) = Some y →
    going c (y_client y) ∧ y_own y = own ∧ y_armed y = arm ∧
    ∀ own' arm', plain m (mk_sys c own' arm') = Some (mk_sys (y_client y) own' arm')) as Hp.
  { intros A m Hm. unfold plain. cbn. destruct (m c) as [[a c']|] eqn:E; [| done]. intros [= <-].
    split_and!; [by eapply Hm | done | done | done]. }
  destruct o; try done; intros _; cbn [exec]; apply Hp.
  - unfold io_before, run_pending. apply stays_bind; [auto with stays | intros d].
    apply stays_bind; [auto with stays | intros r]. destruct (negb _); [auto with stays |].
    apply stays_bind; [auto 20 with stays | intros _]. apply stays_bind; [auto with stays | intros d2].
    destruct (lc_mux d2); [| auto with stays]. apply stays_bind; [apply going_flush | intros [[? ?] ?]]. auto with stays.
  - unfold io_after, io_timer. destruct (po_err _); [auto with stays |]. apply stays_bind; [auto with stays | intros _].
    apply stays_bind; [auto with stays | intros d]. apply stays_bind; [auto with stays | intros [r1 rs1]].
    destruct (_ <? 0); [auto with stays |]. apply stays_bind; [auto with stays | intros d2].
    apply stays_bind; [auto with stays | intros [[r3 ?] ?]]. destruct (_ <? 0); [auto with stays |]. auto 20 with stays.
  - unfold io_drain, run_pending. auto 20 with stays.
  - unfold io_drain_flush. apply stays_bind; [auto with stays | intros d]. destruct (lc_mux d); [| auto with stays].
    apply stays_bind; [apply going_flush | intros [[? ?] ?]]. auto with stays.
  - unfold io_exit. auto with stays.
Qed.

Lemma going_accept : stays going lp_accept.
Proof. unfold lp_accept. auto 20 with stays. Qed.

Lemma going_lp_read p n : stays going (lp_read p n).
Proof. unfold lp_read, lp_take. destruct (n =? 0); auto 30 with stays. Qed.

Lemma going_lp_write p buf n : stays going (lp_write p buf n).
Proof. unfold lp_write, lp_put. destruct (n =? 0); auto 30 with stays. Qed.

Lemma going_lp_close p : stays going (lp_close p).
Proof. unfold lp_close. auto 20 with stays. Qed.
#[local] Hint Resolve going_accept going_lp_read going_lp_write going_lp_close : stays.

Lemma going_thread id stk t : stays going (thread_step id stk t).
Proof.
  assert (∀ A (o : option A), stays going (lift o)) as Hl by (intros A [a|]; cbn; auto with stays).
  destruct t as [|p total buf|p off|p|]; cbn [thread_step]; [| | | auto with stays ..].
  - apply stays_bind; [auto with stays | intros [[p|]|]]; auto with stays.
  - unfold read_step. apply stays_bind; [auto with stays | intros [[n bs]|]; [| auto with stays]].
    destruct (n <=? 0); [auto with stays |]. do 3 (apply stays_bind; [apply Hl | intros ?]). auto with stays.
  - unfold write_step. destruct (response id) as [rlen resp]. destruct (_ >? _); [auto with stays |].
    apply stays_bind; [auto with stays | intros [w|]]; auto with stays.
Qed.

(** A thread ends only when the client has been asked to stop. *)
Lemma not_exited id stk t c t' cs c' :
  lc_stopping c = false → t ≠ EXITED → thread_step id stk t c = Some ((t', cs), c') → t' ≠ EXITED.
Proof.
  intros Hs Ht. assert (∀ p off, write_or_close id p off ≠ EXITED) as Hw by (intros p off; unfold write_or_close; by destruct (_ <? _)).
  destruct t as [|p total buf|p off|p|]; cbn [thread_step]; [| | | | done].
  - intros (r & c1 & E1 & E)%bind_inv. unfold lp_accept in E1. rewrite (bind_some _ _ _ c c) in E1 by done.
    destruct (lc_accept c) as [|q l].
    + rewrite Hs in E1. injection E1 as <- <-. by injection E as <- _ _.
    + apply deref_inv in E1 as (s & _ & E1). apply bind_inv in E1 as ([] & c2 & _ & E1). injection E1 as <- _.
      by injection E as <- _ _.
  - unfold read_step. intros (r & c1 & _ & E)%bind_inv. destruct r as [[n bs]|]; [| by injection E as <- _ _].
    destruct (n <=? 0); [injection E as <- _ _; apply Hw |].
    do 3 (apply bind_inv in E as (? & ? & _ & E)). injection E as <- _ _. destruct (_ || _); [apply Hw | done].
  - unfold write_step. destruct (response id) as [rlen resp]. destruct (_ >? _); [done |].
    intros (r & c1 & _ & E)%bind_inv. destruct r as [w|]; [| by injection E as <- _ _].
    injection E as <- _ _. destruct (w <=? 0); [done | apply Hw].
  - intros (r & c1 & _ & E)%bind_inv. by injection E as <- _ _.
Qed.

(** ** Runs of the pool *)

(** A pool, and the system of PeerSys it is. *)
Record pool_ok (id : bytes) (w : worker_pool) (y : sys) : Prop := {
  pk_client : y_client y = hp_client w;
  pk_own : y_own y ≡ₚ handles (hp_threads w);
  pk_armed : y_armed y = true;
  pk_sys : sys_ok y;
  pk_bufs : bufs (hp_client w);
  pk_going : lc_stopping (hp_client w) = false;
  pk_some : hp_threads w ≠ [];
  pk_threads : Forall (fun t => thread_ok id t ∧ th_pc t ≠ EXITED) (hp_threads w);
}.

Lemma serving_split ts i t : ts !! i = Some t → ∃ rest, handles ts ≡ₚ handle (th_pc t) ++ rest ∧
  ∀ t', handles (<[i := t']> ts) ≡ₚ handle (th_pc t') ++ rest.
Proof.
  intros Hi. pose proof (take_drop_middle ts i t Hi) as E. exists (handles (take i ts) ++ handles (drop (S i) ts)).
  assert (∀ l1 l2 x, handles (l1 ++ x :: l2) ≡ₚ handle (th_pc x) ++ (handles l1 ++ handles l2)) as Hh.
  { intros l1 l2 x. unfold handles. rewrite fmap_app, concat_app, fmap_cons. cbn [concat]. solve_Permutation. }
  split; [by rewrite <- E at 1 |]. intros t'. rewrite insert_take_drop by (by eapply lookup_lt_Some). apply Hh.
Qed.

Lemma run_app ops1 ops2 y y1 y2 : run ops1 y = Some y1 → run ops2 y1 = Some y2 → run (ops1 ++ ops2) y = Some y2.
Proof.
  revert y. induction ops1 as [|o ops1 IH]; intros y; cbn [run app]; [by intros [= ->] |].
  destruct (exec o y) as [y'|]; [| done]. apply IH.
Qed.

Lemma work_ok id w y i stk :
  pool_ok id w y → ∃ w' y' ops, pool_exec id (WORK i stk) w = Some w' ∧ Forall op_sized ops ∧ run ops y = Some y' ∧ pool_ok id w' y'.
Proof.
  intros [E1 E2 E3 H Hb Hg Hne Ht]. destruct y as [c own arm]. cbn in E1, E2, E3. subst c arm. unfold sys_ok in H. cbn in H.
  cbn [pool_exec]. destruct (hp_threads w !! i) as [t|] eqn:Hi.
  2:{ exists w, (mk_sys (hp_client w) own true), []. by split_and!. }
  pose proof (proj1 (Forall_lookup _ _) Ht i t Hi) as [(cvs & cs & El & Hcv & Hp) Hx].
  destruct (serving_split _ _ _ Hi) as (rest & Hr & Hr').
  assert (own ≡ₚ handle (th_pc t) ++ rest) as Ho by (etrans; [exact E2 | exact Hr]).
  destruct (call_defined id stk own (hp_client w) H Hb (th_pc t) cs) as (t' & cs' & own' & c' & [Hs Hp' Hrun Hown]).
  { intros p Hin. rewrite Ho. apply elem_of_app. by left. }
  { exact Hp. }
  rewrite Hs. cbn [mbind option_bind fst snd].
  exists (mk_pool c' (<[i := mk_thread t' (th_log t ++ cs')]> (hp_threads w))), (mk_sys c' own' true), (thread_ops id (th_pc t)).
  assert (Forall op_sized (thread_ops id (th_pc t))) as Hz.
  { destruct (th_pc t) as [|p total buf|p off|p|]; repeat constructor. cbn. destruct Hp as (rs & _ & _ & -> & _ & Hl & _). lia. }
  destruct (run_bufs _ (mk_sys (hp_client w) own true) _ H Hb Hz Hrun) as [H' Hb'].
  split_and!; [done | exact Hz | exact Hrun |]. split; try done.
  - cbn [y_own hp_threads]. rewrite Hr'. by apply Hown.
  - cbn. pose proof (going_thread _ _ _ _ _ _ Hs) as G. unfold going in G. congruence.
  - cbn. intros En. apply (f_equal length) in En. rewrite length_insert in En. by destruct (hp_threads w).
  - cbn. apply Forall_insert; [done |]. cbn. split; [| by eapply not_exited].
    destruct Hp' as [Hp'|[-> Hc]].
    + exists cvs, (cs ++ cs'). cbn. by rewrite El, (assoc_L (++)).
    + exists (cvs ++ [cs ++ cs']), []. cbn. rewrite El, concat_app. cbn. rewrite !app_nil_r, (assoc_L (++)).
      split_and!; [done | | done]. apply Forall_app. split; [done |]. by constructor.
Qed.

Lemma step_refines id o w y :
  pool_ok id w y → ∃ w' y' ops, pool_exec id o w = Some w' ∧ Forall op_sized ops ∧ run ops y = Some y' ∧ pool_ok id w' y'.
Proof.
  intros Hw. pose proof Hw as [E1 E2 E3 H Hb Hg Hne Ht]. destruct o as [o|i stk|]; [| by apply work_ok |].
  - cbn [pool_exec]. destruct (is_app o) eqn:Ha; [exists w, y, []; by split_and! |].
    destruct (exec_ok o y H) as (y' & Ex & H'). destruct y as [c own arm]. cbn in E1, E2, E3. subst c arm.
    destruct (going_section _ _ _ _ _ Ha Ex) as (G & Eo & Em & Hany). rewrite Hany. cbn [mbind option_bind y_client].
    assert (op_sized o) as Hz by by destruct o. exists (mk_pool (y_client y') (hp_threads w)), y', [o].
    split_and!; [done | by constructor | cbn [run]; by rewrite Ex |]. split; try done.
    + by rewrite Eo.
    + exact (ac_bufs _ _ _ (exec_accounts o _ _ H Hb Hz Ex)).
    + cbn. unfold going in G. congruence.
  - cbn [pool_exec]. assert (forallb exited (hp_threads w) = false) as ->.
    { destruct (hp_threads w) as [|t ts]; [done |]. apply Forall_cons in Ht as [[_ Hx] _]. cbn. unfold exited. by destruct (th_pc t). }
    exists w, y, []. by split_and!.
Qed.

Lemma pool_refines id ops w y :
  pool_ok id w y → ∃ w' y' os, pool_run id ops w = Some w' ∧ Forall op_sized os ∧ run os y = Some y' ∧ pool_ok id w' y'.
Proof.
  revert w y. induction ops as [|o ops IH]; intros w y Hw; cbn [pool_run]; [exists w, y, []; by split_and! |].
  destruct (step_refines id o w y Hw) as (w1 & y1 & os1 & -> & Z1 & R1 & H1). cbn [mbind option_bind].
  destruct (IH w1 y1 H1) as (w2 & y2 & os2 & -> & Z2 & R2 & H2). exists w2, y2, (os1 ++ os2).
  split_and!; [done | by apply Forall_app | by eapply run_app | done].
Qed.

Lemma main_pool_ok id cfg ts :
  ts ≠ [] → Forall (fun t => t = ACCEPTING) ts → pool_ok id (main_pool (lp_client_zero cfg) ts) (start cfg).
Proof.
  intros Hne Ht. assert (handles ((fun t => mk_thread t []) <$> ts) = []) as Hh.
  { unfold handles. clear Hne. induction Ht as [|t ts -> _ IH]; [done |]. cbn. exact IH. }
  split; try done.
  - unfold main_pool. cbn [y_own hp_threads start]. by rewrite Hh.
  - exact (start_ok cfg).
  - cbn. by destruct ts.
  - apply Forall_fmap. eapply Forall_impl; [exact Ht |]. intros t ->. split; [| done]. by exists [], [].
Qed.

(** ** From [main] *)

Lemma spawn_accepting threads n ts : spawn threads n = Some ts → length ts = n ∧ Forall (fun t => t = ACCEPTING) ts.
Proof.
  revert threads ts. induction n as [|n IH]; intros threads ts; cbn [spawn]; [intros [= <-]; by split |].
  destruct (alloc threads) as [[] th]; [| done]. destruct (spawn th n) as [ts'|] eqn:E; [| done]. intros [= <-].
  destruct (IH _ _ E). split; [cbn; congruence | by constructor].
Qed.

Lemma worker_config_pool env argv cfg id n : worker_config env argv = inr (cfg, id, n) → 1 ≤ n ∧ lf_peer_id cfg = Some id.
Proof.
  unfold worker_config. destruct (worker_parse argv worker_defaults) as [|[[l|] t i w k]]; [done | | done].
  intros [= <- <- <-]. split; [destruct (Z.ltb_spec k 1); lia | done].
Qed.

Lemma worker_start_ok env argv conn h threads c id ts :
  worker_start env argv conn h threads = Some (inr (c, id, ts)) →
  ∃ cfg, c = lp_client_zero cfg ∧ lf_peer_id cfg = Some id ∧ pool_ok id (main_pool c ts) (start cfg).
Proof.
  unfold worker_start. destruct (worker_config env argv) as [|[[cfg id'] n]] eqn:Ec; [done |].
  destruct (worker_config_pool _ _ _ _ _ Ec) as [Hn Hid]. destruct conn; [| done]. cbn [negb].
  destruct (alloc h) as [[] h']; [| done]. cbn [negb]. destruct (spawn threads (Z.to_nat n)) as [ts'|] eqn:Es; [| done].
  intros [= <- <- <-]. destruct (spawn_accepting _ _ _ Es) as [Hl Ha]. exists cfg. split_and!; [done | done |].
  apply main_pool_ok; [| done]. intros ->. cbn in Hl. lia.
Qed.

(** ** Theorems *)

Section Main.
Context (env : view) (argv : list bytes) (conn : bool) (h threads : heap) (c : lp_client) (id : bytes) (ts : list pc).
Context (Hstart : worker_start env argv conn h threads = Some (inr (c, id, ts))).

Lemma main_run ops : ∃ cfg w y os, c = lp_client_zero cfg ∧ pool_run id ops (main_pool c ts) = Some w ∧
  Forall op_sized os ∧ run os (start cfg) = Some y ∧ pool_ok id w y.
Proof.
  destruct (worker_start_ok _ _ _ _ _ _ _ _ Hstart) as (cfg & E & _ & H).
  destruct (pool_refines id ops _ _ H) as (w & y & os & E1 & Z & E2 & H'). by exists cfg, w, y, os.
Qed.

Lemma main_state ops w : pool_run id ops (main_pool c ts) = Some w → ∃ y, pool_ok id w y.
Proof. destruct (main_run ops) as (cfg & w' & y & os & _ & E & _ & _ & H). intros E'. exists y. congruence. Qed.

(** C13: the worker is a correct client of libpeer.  However many threads [main]
    starts, however they are scheduled against each other and the I/O thread, and
    whatever the peer sends: every step is defined (no array of [serve] is
    overrun, no handle is used that is not held), the run is one of PeerSys, whose
    guarantees it inherits, and no stream is served by two threads or is used
    after its close. *)
Theorem pool_safe ops :
  ∃ w cfg y os, pool_run id ops (main_pool c ts) = Some w ∧ run os (start cfg) = Some y ∧
    y_client y = hp_client w ∧ y_own y ≡ₚ handles (hp_threads w) ∧ NoDup (handles (hp_threads w)) ∧
    ∀ p, p ∈ handles (hp_threads w) → ∃ s, lc_streams (hp_client w) !! p = Some s ∧ ls_app_closed s = false.
Proof.
  destruct (main_run ops) as (cfg & w & y & os & _ & E & _ & Er & [E1 E2 _ H _ _ _ _]). unfold sys_ok in H. rewrite E1 in H.
  exists w, cfg, y, os. split_and!; try done.
  - rewrite <- E2. destruct (iv_handles _ _ _ _ _ H) as [Hn _]. by apply NoDup_app in Hn as (_ & _ & ?).
  - intros p Hp. rewrite <- E2 in Hp. by eapply own_live.
Qed.

(** C14: every stream gets one request read and one response.  The calls a thread has
    made are whole conversations, each the accept of a stream, reads that stop at
    the end of the headers, at the size of the buffer or at a read that returns no
    data, a single write of the whole response, and the close; followed by the
    part of one that it is at. *)
Theorem conversations ops w i t :
  pool_run id ops (main_pool c ts) = Some w → hp_threads w !! i = Some t →
  ∃ cvs cs, th_log t = concat cvs ++ cs ∧ Forall (conversation id) cvs ∧ progress id (th_pc t) cs.
Proof.
  intros [y H]%main_state Hi. by destruct (proj1 (Forall_lookup _ _) (pk_threads _ _ _ H) i t Hi) as [? _].
Qed.

(** [main] never gets past the joins.  No thread ever returns: only
    [lp_disconnect] asks the client to stop, [main] calls it behind the joins, and
    [lp_accept] returns NULL to nobody before. *)
Theorem never_joined ops w :
  pool_run id ops (main_pool c ts) = Some w →
  Forall (fun t => th_pc t ≠ EXITED) (hp_threads w) ∧ lc_stopping (hp_client w) = false ∧ pool_exec id JOINED w = Some w.
Proof.
  intros [y H]%main_state. pose proof H as [_ _ _ _ _ Hg Hne Ht]. split_and!; [| done |].
  - eapply Forall_impl; [exact Ht |]. by intros t [_ ?].
  - cbn [pool_exec]. destruct (hp_threads w) as [|t l]; [done |]. apply Forall_cons in Ht as [[_ Hx] _].
    cbn. unfold exited. by destruct (th_pc t).
Qed.
End Main.

(** ** Termination *)

(** Calls of a conversation still to come, at most. *)
Definition work_left (t : pc) : Z :=
  match t with READING _ total _ => BUF_SIZE - total + 2 | WRITING _ _ => 2 | CLOSING _ => 1 | _ => 0 end.

(** The next call of the thread does not wait. *)
Definition unblocked (c : lp_client) (t : pc) : Prop :=
  match t with
  | READING p _ _ => ∃ s, lc_streams c !! p = Some s ∧ input_over s = true ∧ output_open s = true
  | WRITING p _ => ∃ s, lc_streams c !! p = Some s ∧ output_open s = true
  | CLOSING _ => True
  | _ => False
  end.

(** Reading changes neither. *)
Lemma take_stream p n c r c' s :
  lc_streams c !! p = Some s → lp_take p n c = Some (r, c') →
  ∃ s', lc_streams c' !! p = Some s' ∧ input_over s' = input_over s ∧ output_open s' = output_open s.
Proof.
  intros Hs E. unfold lp_take in E. rewrite (bind_some _ _ _ s c) in E by (unfold deref; by rewrite Hs). cbv zeta in E.
  set (s1 := s <| ls_rbuf := _ |> <| ls_consume_pending ::= _ |>) in E.
  apply bind_inv in E as ([] & c1 & E1 & E). injection E1 as <-.
  apply bind_inv in E as ([] & c2 & E2 & E). apply bind_inv in E as ([] & c3 & E3 & E). injection E as _ <-. injection E3 as <-.
  unfold pending_push in E2. apply deref_inv in E2 as (s2 & Hs2 & E2). cbn in Hs2. rewrite lookup_insert_eq in Hs2. injection Hs2 as <-.
  destruct (ls_in_pending s1); [injection E2 as <-; exists s1; cbn; by rewrite lookup_insert_eq |].
  apply bind_inv in E2 as ([] & c4 & E4 & E2). injection E4 as <-. injection E2 as <-.
  exists (s1 <| ls_in_pending := true |>). cbn. by rewrite lookup_insert_eq.
Qed.

Lemma read_unblocked id p total buf c cs :
  bufs c → progress id (READING p total buf) cs → unblocked c (READING p total buf) →
  ∀ stk t' cs' c', thread_step id stk (READING p total buf) c = Some ((t', cs'), c') →
  unblocked c' t' ∧ work_left t' < work_left (READING p total buf).
Proof.
  intros Hb (rs & _ & _ & -> & _ & Hroom & _) (s & Hs & Hi & Ho) stk t' cs' c' E. set (total := zlen (concat rs)) in *.
  pose proof (zlen_nonneg (concat rs)) as H0. fold total in H0.
  cbn [thread_step] in E. unfold read_step in E. apply bind_inv in E as (r & c1 & E1 & E).
  assert (0 ≤ BUF_SIZE - total - 1) as Hk by lia. pose proof (read_outcome _ _ _ _ _ Hb Hk E1) as Hr.
  destruct r as [[n bs]|]; [| destruct Hr as (_ & s' & Hs' & Hi'); congruence].
  destruct Hr as [(Hn & -> & ->)|(Hn & En & Et)].
  - destruct (Z.leb_spec n 0); [| lia]. injection E as <- _ <-. rewrite write_first. cbn. split; [by exists s |]. unfold BUF_SIZE in *. lia.
  - destruct (Z.leb_spec n 0); [lia |]. do 3 (apply bind_inv in E as (? & ? & Ea & E);
      match type of Ea with lift ?o _ = _ => destruct o; [injection Ea as <- <- | done] end).
    injection E as <- _ <-. rewrite write_first. destruct (take_stream _ _ _ _ _ _ Hs Et) as (s' & Hs' & Ei & Eo).
    destruct (_ || _); cbn; [split; [exists s'; by rewrite Eo |] | split; [exists s'; by rewrite Ei, Eo |]]; unfold BUF_SIZE in *; lia.
Qed.

Lemma write_unblocked id p off c cs :
  progress id (WRITING p off) cs → unblocked c (WRITING p off) →
  ∀ stk t' cs' c', thread_step id stk (WRITING p off) c = Some ((t', cs'), c') → t' = CLOSING p.
Proof.
  intros [-> _] (s & Hs & Ho) stk t' cs' c' E. cbn [thread_step] in E. unfold write_step in E.
  pose proof (response_whole id) as [E0 Hl]. pose proof (write_done id p) as Hd.
  destruct (response id) as [rlen resp]. cbn [fst snd] in *. injection E0 as Erl _.
  destruct (_ >? _); [done |]. apply bind_inv in E as (r & c1 & E1 & E). assert (0 < rlen - 0) as Hk by lia.
  pose proof (write_outcome _ _ _ _ _ _ Hk E1) as Hr. destruct r as [w|]; [| destruct Hr as (s' & Hs' & Ho'); congruence].
  injection E as <- _ _. destruct Hr as [->| ->]; [done |]. destruct (Z.leb_spec (rlen - 0) 0); [lia |].
  by replace (0 + (rlen - 0)) with rlen by lia.
Qed.

Lemma unblocked_step id stk t c cs :
  bufs c → progress id t cs → unblocked c t → ∀ t' cs' c', thread_step id stk t c = Some ((t', cs'), c') →
  (t' = ACCEPTING ∨ unblocked c' t') ∧ 0 ≤ work_left t' < work_left t.
Proof.
  intros Hb Hp Hu t' cs' c' E. assert (∀ u, unblocked c' u → (∃ cs, progress id u cs) → 0 ≤ work_left u) as Hnn.
  { intros [|p total buf|p off|p|] _ [cs0 Hp0]; cbn; try lia. destruct Hp0 as (rs & _ & _ & _ & _ & Hr & _). lia. }
  destruct t as [|p total buf|p off|p|]; try done.
  - destruct (read_unblocked _ _ _ _ _ _ Hb Hp Hu _ _ _ _ E) as [Hu' Hw]. split; [by right |]. split; [| done].
    destruct t' as [|q tot b|q o|q|]; cbn; try lia. cbn in E. unfold read_step in E.
    apply bind_inv in E as (r & c1 & E1 & E). destruct Hp as (rs & _ & _ & -> & _ & Hroom & _).
    destruct r as [[n bs]|]; [| injection E as <- <- _ _; lia]. destruct (n <=? 0); [unfold write_or_close in E; by destruct (_ <? _) |].
    do 3 (apply bind_inv in E as (? & ? & _ & E)). unfold write_or_close in E.
    rewrite Z.geb_leb in E. destruct (bool_decide _); cbn [orb] in E; [by destruct (_ <? _) |].
    destruct (Z.leb_spec (BUF_SIZE - 1) (zlen (concat rs) + n)); [by destruct (_ <? _) |]. injection E as <- <- _ _ _. lia.
  - rewrite (write_unblocked _ _ _ _ _ Hp Hu _ _ _ _ E). cbn. split; [by right | lia].
  - cbn in E. apply bind_inv in E as (r & c1 & _ & E). injection E as <- _ _. cbn. split; [by left | lia].
Qed.

Lemma serve_runs n id stk i w y t :
  pool_ok id w y → hp_threads w !! i = Some t → unblocked (hp_client w) (th_pc t) → work_left (th_pc t) ≤ Z.of_nat n →
  ∃ k w' t', (k ≤ n)%nat ∧ pool_run id (replicate k (WORK i stk)) w = Some w' ∧ hp_threads w' !! i = Some t' ∧ th_pc t' = ACCEPTING.
Proof.
  revert w y t. induction n as [|n IH]; intros w y t H Hi Hu Hn.
  { exfalso. pose proof (proj1 (Forall_lookup _ _) (pk_threads _ _ _ H) i t Hi) as [(_ & cs & _ & _ & Hp) _].
    destruct (th_pc t); cbn in *; try done; try lia. destruct Hp as (rs & _ & _ & -> & _ & Hr & _). lia. }
  pose proof (proj1 (Forall_lookup _ _) (pk_threads _ _ _ H) i t Hi) as [(cvs & cs & _ & _ & Hp) _].
  destruct (work_ok id w y i stk H) as (w1 & y1 & os & Ew & _ & _ & H1). pose proof Ew as E. cbn [pool_exec] in E. rewrite Hi in E.
  destruct (thread_step id stk (th_pc t) (hp_client w)) as [[[t1 cs1] c1]|] eqn:Es; [| done]. cbn [mbind option_bind fst snd] in E.
  injection E as <-. destruct (unblocked_step _ _ _ _ _ (pk_bufs _ _ _ H) Hp Hu _ _ _ Es) as [Hu1 Hw].
  set (x := mk_thread t1 (th_log t ++ cs1)) in *.
  assert (hp_threads (mk_pool c1 (<[i := x]> (hp_threads w))) !! i = Some x) as Hi1
    by (cbn; apply list_lookup_insert_eq; by eapply lookup_lt_Some).
  destruct Hu1 as [->|Hu1].
  - exists 1%nat, (mk_pool c1 (<[i := x]> (hp_threads w))), x. cbn [replicate pool_run]. rewrite Ew. split_and!; [lia | done | done | done].
  - destruct (IH _ _ _ H1 Hi1 Hu1) as (k & w' & t' & Hk & Er & Hi' & Ht'); [cbn; lia |].
    exists (S k), w', t'. cbn [replicate pool_run]. rewrite Ew. split_and!; [lia | exact Er | done | done].
Qed.

Section Finishes.
Context (env : view) (argv : list bytes) (conn : bool) (h threads : heap) (c : lp_client) (id : bytes) (ts : list pc).
Context (Hstart : worker_start env argv conn h threads = Some (inr (c, id, ts))).

(** C15: [serve] terminates.  Once the peer has ended its side of a stream (or reset
    it, or the tunnel is lost), and while the backlog has room, the thread that
    serves it waits no more: at most 8194 further calls, whatever the request,
    bring it back to [lp_accept], the stream answered and closed. *)
Theorem serve_finishes ops w i t p s stk :
  pool_run id ops (main_pool c ts) = Some w → hp_threads w !! i = Some t → handle (th_pc t) = [p] →
  lc_streams (hp_client w) !! p = Some s → input_over s = true → output_open s = true →
  ∃ k w' t' cvs, (k ≤ 8194)%nat ∧ pool_run id (replicate k (WORK i stk)) w = Some w' ∧ hp_threads w' !! i = Some t' ∧
    th_pc t' = ACCEPTING ∧ th_log t' = concat cvs ∧ Forall (conversation id) cvs.
Proof.
  intros Er Hi Hh Hs Hin Hout. destruct (main_state _ _ _ _ _ _ _ _ Hstart ops w Er) as [y H].
  assert (unblocked (hp_client w) (th_pc t) ∧ work_left (th_pc t) ≤ Z.of_nat 8194) as [Hu Hw].
  { pose proof (proj1 (Forall_lookup _ _) (pk_threads _ _ _ H) i t Hi) as [(_ & cs & _ & _ & Hp) _].
    destruct (th_pc t) as [|q total buf|q off|q|]; cbn in *; try done; try (injection Hh as ->); split; try lia; eauto.
    destruct Hp as (rs & _ & _ & -> & _). pose proof (zlen_nonneg (concat rs)). unfold BUF_SIZE. lia. }
  destruct (serve_runs _ id stk i w y t H Hi Hu Hw) as (k & w' & t' & Hk & Ek & Hi' & Ht').
  destruct (pool_refines id (replicate k (WORK i stk)) w y H) as (w2 & y2 & _ & E2 & _ & _ & H2).
  assert (w2 = w') as -> by congruence.
  pose proof (proj1 (Forall_lookup _ _) (pk_threads _ _ _ H2) i t' Hi') as [(cvs & cs & El & Hc & Hp) _].
  rewrite Ht' in Hp. cbn in Hp. subst cs. rewrite app_nil_r in El. by exists k, w', t', cvs.
Qed.
End Finishes.

(** ** Witnesses *)

Definition w0_argv : list bytes := [cs "--listen"; cs "/run/app"; cs "--id"; cs "W0"; cs "--pool"; cs "2"].
Definition w0_start : option (Z + (lp_client * bytes * list pc)) := worker_start None w0_argv true [] [].
Definition w0_client : lp_client := match w0_start with Some (inr (c, _, _)) => c | _ => lp_client_zero listen_cfg end.

Lemma w0_started : worker_start None w0_argv true [] [] = Some (inr (w0_client, cs "W0", [ACCEPTING; ACCEPTING])).
Proof. vm_compute. reflexivity. Qed.

(** A request and the end of the peer's side, on the first stream. *)
Definition get_frames : bytes :=
  enc (mk_wframe MUX_T_DATA 0 1 (cs "GET / HTTP/1.0" ++ CRLF2)) ++ enc (mk_wframe MUX_T_DATA MUX_F_FIN 1 []).

Definition arrive_ops : list pool_op := [SECTION turn; SECTION (got (greet ++ get_frames)); WORK 1 []].
Definition serve_ops : list pool_op := arrive_ops ++ [WORK 1 []; WORK 0 []; WORK 1 []; WORK 1 []].

Definition pool_state (ops : list pool_op) : worker_pool :=
  default (main_pool w0_client []) (pool_run (cs "W0") ops (main_pool w0_client [ACCEPTING; ACCEPTING])).

Lemma pool_state_run ops :
  match pool_run (cs "W0") ops (main_pool w0_client [ACCEPTING; ACCEPTING]) with Some _ => true | None => false end = true →
  pool_run (cs "W0") ops (main_pool w0_client [ACCEPTING; ACCEPTING]) = Some (pool_state ops).
Proof. apply default_Some. Qed.

Definition idle_thread : worker_thread := mk_thread ACCEPTING [].
Definition worker1 (ops : list pool_op) : worker_thread := default idle_thread (hp_threads (pool_state ops) !! 1%nat).

Lemma pool_safe_witness :
  ∃ w, pool_run (cs "W0") arrive_ops (main_pool w0_client [ACCEPTING; ACCEPTING]) = Some w ∧ NoDup (handles (hp_threads w)).
Proof.
  destruct (pool_safe None w0_argv true [] [] w0_client (cs "W0") [ACCEPTING; ACCEPTING] w0_started arrive_ops)
    as (w & _ & _ & _ & E & _ & _ & _ & Hn & _).
  exists w. split; [exact E | exact Hn].
Defined.

(** Thread 1 has served the stream; its conversation. *)
Definition w0_talk : list lib_call :=
  [ACCEPTED 1; GOT 1 18 (cs "GET / HTTP/1.0" ++ CRLF2); SENT 1 (response (cs "W0")).1 (response (cs "W0")).2; CLOSED 1].

Lemma conversations_witness :
  th_log (worker1 serve_ops) = w0_talk ∧
  ∃ cvs cs, th_log (worker1 serve_ops) = concat cvs ++ cs ∧ Forall (conversation (CString.cs "W0")) cvs.
Proof.
  split; [vm_compute; reflexivity |].
  destruct (conversations None w0_argv true [] [] w0_client (cs "W0") [ACCEPTING; ACCEPTING] w0_started serve_ops
    (pool_state serve_ops) 1%nat (worker1 serve_ops)) as (cvs & cs & E & Hc & _).
  - apply pool_state_run. vm_compute. reflexivity.
  - apply default_Some. vm_compute. reflexivity.
  - exists cvs, cs. split; [exact E | exact Hc].
Defined.

Lemma never_joined_witness : pool_exec (cs "W0") JOINED (pool_state serve_ops) = Some (pool_state serve_ops).
Proof.
  apply (never_joined None w0_argv true [] [] w0_client (cs "W0") [ACCEPTING; ACCEPTING] w0_started serve_ops (pool_state serve_ops)).
  apply pool_state_run. vm_compute. reflexivity.
Defined.

Definition served_stream : lp_stream := default (lp_stream_zero 0) (lc_streams (hp_client (pool_state arrive_ops)) !! 1).

Lemma serve_finishes_witness :
  ∃ k w' t', (k ≤ 8194)%nat ∧ pool_run (cs "W0") (replicate k (WORK 1 [])) (pool_state arrive_ops) = Some w' ∧
    hp_threads w' !! 1%nat = Some t' ∧ th_pc t' = ACCEPTING.
Proof.
  destruct (serve_finishes None w0_argv true [] [] w0_client (cs "W0") [ACCEPTING; ACCEPTING] w0_started arrive_ops
    (pool_state arrive_ops) 1%nat (worker1 arrive_ops) 1 served_stream []) as (k & w' & t' & _ & Hk & E & Hi & Ht & _).
  - apply pool_state_run. vm_compute. reflexivity.
  - apply default_Some. vm_compute. reflexivity.
  - vm_compute. reflexivity.
  - apply default_Some. vm_compute. reflexivity.
  - vm_compute. reflexivity.
  - vm_compute. reflexivity.
  - exists k, w', t'. split_and!; [exact Hk | exact E | exact Hi | exact Ht].
Defined.
